(* ===== verification/_CoqProject ===== *)
-Q . S2P
Prelude.v
NetTypes.v
IpAddr.v
Chain.v
Memp.v
Pbuf.v
Heap.v
PbufData.v
PbufRef.v
PbufRope.v
Chksum.v
Net.v
Phy.v
EmacTx.v
EmacRx.v
EmacRxOk.v
EmacRxRun.v
EmacRxBuf.v
Timers.v
DhcpOpt.v
Etharp.v
Netif.v
Lwiplib.v
Udp.v
Ip.v
UdpSend.v
Dhcp.v
DhcpMsg.v
DhcpInv.v
PortInit.v
DhcpLease.v
UdpSource.v
NetManager.v
AliasFilter.v
Icmp.v
Tcp.v
Raw.v
Ping.v
Locator.v
UdpRace.v
Input.v
Wire.v
Text.v
LineEdit.v
Command.v
Terminal.v
Main.v
Program.v
Run.v
