(* ===== verification/Prelude.v ===== *)
(** * Runtime multi-IP UDP networking on lwIP 1.4.1

    This library models the networking program of the repository: an lwIP 1.4.1
    stack on a TMS570 board, extended so that IP addresses ("alias" interfaces
    sharing one Ethernet port) and UDP sockets can be added and removed while it
    runs.  It is a shallow embedding of the C code: C integers are [Z] with their
    wrap-around written out, structures are records, objects reached through
    pointers live in stores keyed by their identity, intrusive lists are kept
    with their [next] fields, and a function that changes global variables takes
    and returns the state that holds them.  Undefined behaviour (a null or dangling
    pointer, an index outside an array) and endless loops have no result ([None]).

    ** The program

    src/src/UDP_source.c keeps sixteen sockets with a one-message mailbox each
    over the UDP control blocks of src/lwip-1.4.1/src/core/udp.c.
    src/src/net_manager.c adds and removes aliases through
    src/lwip-1.4.1/ports/hdk/lwiplib.c, which owns the alias pool and uses the
    interface list of core/netif.c.  A frame received by the EMAC enters
    [ethernet_input] (netif/etharp.c), asks src/src/netif_alias_filter.c which
    interface it belongs to, and goes to the ARP cache or through [ip_input] to
    the raw control blocks (src/src/ping.c), UDP ([udp_rx_callback],
    ports/hdk/locator.c), TCP or ICMP.  Sending goes from [udp_source_data_send] or
    [ping_send] through [ip_output_if] and the ARP cache to [hdkif_output].  The
    loop of src/example/hdk/src/lwip_main.c prints the mailboxes and hands each
    byte of the serial port to the menus and the command channel of
    src/src/terminal_interface.c.

    ** Files, bottom up

    Words and structures
    - [Prelude]: integers, error codes, the state monad, automation.
    - [NetTypes], [IpAddr]: struct netif and its flags; ip_addr.h, ip_addr.c.
    - [Chain], [Memp]: intrusive lists against sequences; the pools of memp.c.
    Memory
    - [Heap]: mem.c, the blocks in the array, against a list of blocks that tile it.
    - [Pbuf], [PbufData]: pbuf.c with packets as values.
    - [PbufRef]: pbuf.c with the structures in the pools and the heap, reference
      counts included, against the values of [Pbuf].
    - [PbufRope]: what relinking the buffers of chains from outside does to them.
    - [Chksum]: inet_chksum.c.
    Lower stack
    - [Net]: the state [net] of the lower stack (interfaces, ARP table, IP
      identification, heap oracle, frames sent) and [hdkif_output].
    - [Phy]: the PHY of HL_phy_dp83640.c behind the serial bus of HL_mdio.c, up to
      the link set-up of hdkif.c, against the behaviour of the chip ([BusOk]).
    - [EmacTx]: the transmit ring of ports/hdk/netif/hdkif.c over [PbufRef].
    - [EmacRx]: its receive ring and interrupt handler, the behaviour of the EMAC
      ([emac_rx]) and of the stack above ([UpperOk]); [EmacRxOk]: the invariant of
      the ring, kept by the EMAC and by every piece of the handler; [EmacRxRun]:
      runs of interrupts, an EMAC and two stacks to run them with; [EmacRxBuf]: the
      sizes the buffers can get.
    - [Timers]: timers.c, the timeout list against an agenda of absolute times.
    - [Etharp]: the ARP cache, its timer, queries, output and input.
    - [Netif], [Lwiplib]: netif.c and [ip_route]; the alias pool, state [lwl].
    - [Udp], [UdpSend]: udp.c, state [udp_st]; binding and demultiplexing, sending;
      [UdpRace]: a frame between the last two assignments of [udp_bind].
    - [Ip], [Icmp], [Raw], [Tcp]: IP output, echo replies and errors, raw.c, the
      segments TCP answers without a connection.
    DHCP (dhcp.c)
    - [DhcpOpt]: reading the options of a reply.
    - [Dhcp]: every operation of the client, a monad over the client's structure
      and the state [dsys] of the stack it runs on.
    - [DhcpMsg]: the messages it builds; [DhcpInv]: what every event keeps;
      [DhcpLease]: the exchange that ends with a lease.
    - [PortInit]: the hardware initialisation of hdkif.c as a whole, and [lwIPInit].
    Program
    - [UdpSource]: the socket registry, state [usrc].
    - [NetManager]: net_manager.c, state [stack] = [lwl] and [usrc].
    - [AliasFilter], [Ping], [Locator]: the modules of these names.
    - [Input]: the receive path over the state [sys], which joins all of them;
      [Wire]: the receive ring with this program above it, whatever it does with the
      buffers of the packets ([Wire.Program]).
    - [Text]: what is used of stdio.h and string.h; [LineEdit]: [fetch_input].
    - [Command], [Terminal]: the command channel and the menus, over the state
      [board], that is [sys], the serial port and the command buffer.
    - [Main], [Program], [Run]: lwip_main.c, the steps of the program as a
      relation, and its invariant.

    Operations carry the names of the C functions.  Each interface between
    components is a relation or an invariant the client uses instead of the
    implementation: [chain] for lists, [memp_ok] for pools, [keeps] for what
    sending may change, [udp_inv] for the control blocks, [us_inv] for the
    registry, [lwl_ok] for the alias pool, [rx_effect] for what a received frame
    may change; [PartOf] lets a function that waits work on the state of the whole
    program.

    ** What is proved

    - The whole program.  [Run.program_safe]: after start-up and any sequence of
      frames, serial bytes, commands, menus and passes of the loop, the ARP table
      is well formed, interface list and alias pool agree, local endpoints are
      exclusive, every open socket has its control block on a listed interface,
      and no pass of the loop follows a null pointer.
      [Input.receive_keeps_sys]: no sequence of frames breaks this.
      [UdpRace.bind_interrupted]: why frames in the middle of an operation are left
      out of it.
    - UDP control blocks.  [Udp.udp_reachable_exclusive]: after any calls of the raw
      interface, connects and automatic binds included, local endpoints are exclusive.
    - End to end.  [Input.alias_receives_udp] and [Input.alias_answers_arp]: a
      datagram or ARP request for an alias that arrives on the physical
      interface reaches the right socket, is answered by the alias.
      [UdpSend.udp_sendto_if_sent], [UdpSource.data_send_sent],
      [Ping.ping_send_request], [Icmp.echo_reply_sent], [Tcp.tcp_reset_sent]: the
      exact frames sent, with checksums the receiver accepts.
    - Memory.  [Heap.heap_refines]: the heap implements the multiset of the blocks
      its clients hold.  [PbufRef.pbuf_memory_safe]: clients that respect the
      reference counts never touch a freed pbuf and lose none;
      [PbufRef.pbuf_refines_value]: chains in memory behave as values.
    - Driver and timers.  [EmacTx.hdkif_output_queues] and
      [EmacTx.hdkif_tx_drains]: what the driver queues for the EMAC, and that the
      interrupt returns every descriptor and reference.
      [EmacRxRun.hdkif_rx_delivers]: every frame taken from the wire is handed up
      once, whole and in order, and the receive ring is full again;
      [EmacRxRun.hdkif_rx_last_buffer]: a stack that keeps its packets makes the
      handler follow a null link.  [EmacRxBuf.hdkif_rx_buffer_sizes]: the buffers
      keep at least 36 bytes, which is reached.  [Wire.wire_reaches_program]: while
      the program keeps at most 36 buffers in what it sends and queues, the interrupt
      does to it what [receive_all] does with the frames of the wire, so the
      interrupts of [Run.program_safe] are those of the driver.
    - Start-up.  [Phy.hdkif_phy_init_result]: the PHY part ends, and what decides its
      result.  [PortInit.hdkif_hw_init_rings]: both rings are ready, or the first
      output of the interface follows a null pointer.
      [Main.EMAC_LwIP_Main_phy]: the start-up of the program needs the PHY.
      [PortInit.lwIPInit_splits]: the two ways to start agree;
      [PortInit.lwIPInit_lease]: the wait for DHCP ends.
      [Timers.timeouts_refine_agenda], [Timers.sys_check_timeouts_fires]: handlers
      are called when due, in order, and the loop ends.
    - DHCP.  [DhcpLease.dhcp_acquires]: the four messages and the interface they
      configure.  [DhcpInv.dhcp_clients_alive]: the invariant over all runs.
      [DhcpOpt.dhcp_options_roundtrip], [DhcpOpt.dhcp_parse_hostile]: options read
      back as written over pbufs longer than each of them; a packet whose parse does
      not end.  [DhcpOpt.dhcp_option_skips_pbuf]: with a shorter pbuf in the middle
      the parse reads behind its end.
    - Functional results on every branch, errors included: opening, closing,
      rebinding and enumerating sockets, adding and removing interfaces, the
      alias filter, cache replacement, expiry, port allocation, demultiplexing,
      ping replies and the busy wait, the line editor, the framing of replies, the
      statistics of ping, the mailbox printing.
    - Round trips and bounds: socket ids, address text, netmasks, header and
      pseudo checksums, the sizes for which a pbuf allocation does not wrap.

    ** Bounds and fuel

    List walks are bounded by the number of objects that exist: [NETIF_MAX] 8
    interfaces, [MEMP_NUM_UDP_PCB] 20 and [MEMP_NUM_RAW_PCB] 4 control blocks;
    [chain_walk] shows that a walk with this fuel is the whole list.  Likewise
    [heap_fuel] 1537 (blocks of the heap have at least 20 bytes, [fuel_enough]),
    [store_fuel], the number of allocated pbufs, and [tail_fuel], the pool's 96 and
    one.  [num_bd] 204 is the number of transmit descriptors;
    the loops over the buffers of one packet are bounded by the descriptors in
    memory, and the fuel of [rx_loop] is the number of its passes, of which
    [hdkif_rx_delivers] shows there are enough whatever the EMAC does meanwhile.
    [check_fuel] is the
    number of pending timeouts times the milliseconds passed plus one;
    [sys_check_timeouts_fires] shows it is enough, since a handler requests at most
    one timeout, a millisecond or more ahead.  [pad_fuel] 69 exceeds the space for the
    options of a message and [decode_fuel] 3 the server addresses that are kept;
    [scan_fuel] 65536 the values of the 16-bit offset, so a parse it cuts off does
    not end.  The port search has one step more than there can be bound ports, and
    [new_port_loop_ok] shows it ends before.  The busy wait of ping runs over a
    trace of counter readings; [Ping.ping_wait_returns] shows when it ends.  The waits
    for the serial bus of the PHY have more rounds than a command takes ([busy_max]).

    ** Configuration and limits

    The target is big-endian, so byte order conversions are the identity; the
    options are those of lwipopts.h (NO_SYS, no forwarding, fragments, IGMP, SNMP
    or queueing beyond one packet).  An interrupt comes as a step of its own:
    between the polls and passes of the loop, or while a command or menu waits.  The
    work between these points is taken as one step, which the code does not ensure:
    closing, rebinding and polling sockets, removing an alias, the driver's output and
    taking a ping reply mask interrupts, but opening a socket, adding an interface,
    ARP and IP output and the heap run with interrupts enabled, and a frame in the
    middle of them is outside the model ([UdpRace] shows one that does harm).  [Net.hdkif_output] is the driver with its rings set up and
    descriptors free; [EmacTx] is the driver itself, and the start-up functions have
    no result where they use it without rings ([Net.driver_took]).  In [Pbuf] and above the heap is
    a list of answers [mem_malloc] will give, so every pattern of failure is
    covered; [Heap.oracle_answers] relates it to the heap itself, and [PbufRef]
    treats the sharing of packets.  What the EMAC does while the driver waits for
    it or receives is a parameter of [EmacTx] and [EmacRx] with the behaviour of its
    data sheet as hypotheses, and so is the stack above the receive ring; what the callers of the DHCP client do is a sequence of events.
    The program starts no DHCP client and opens no TCP connection; it calls neither
    [sys_check_timeouts] nor [etharp_tmr] once it runs.  [DhcpLease], [Timers] and
    the expiry theorems of [Etharp] are about code that is compiled in and waits
    for its caller.

    ** Not modelled

    The control registers of the EMAC and the interrupt controller, which the
    start-up writes and nothing reads again; TCP connections (tcp.c, most of
    tcp_in.c and tcp_out.c).
    Not configured: DNS, AutoIP, IGMP, SNMP, IP fragments, the sequential and
    socket APIs, PPP and SLIP, custom pbufs.  Not part of the program: the HTTP
    server and the other applications of lwIP.  Left out: the generated drivers of
    HALCoGen other than the PHY's and the desktop client of the command channel. *)

From Stdlib Require Export ZArith Lia.
From stdpp Require Export prelude gmap strings.

#[global] Open Scope Z_scope.
#[global] Set Default Goal Selector "1".

(** ** C integers *)

(** Values of the unsigned C types are kept as [Z] in their range; every
    assignment that can leave the range goes through one of these wraps. *)
Definition u8 (x : Z) : Z := x mod 256.
Definition u16 (x : Z) : Z := x mod 65536.
Definition u32 (x : Z) : Z := x mod 4294967296.

(** Conversion to [signed char]. *)
Definition s8 (x : Z) : Z := (x + 128) mod 256 - 128.

(** Bitwise complement of a [u32_t]. *)
Definition not32 (x : Z) : Z := 4294967295 - x.

Definition is_u8 (x : Z) : Prop := 0 <= x < 256.
Definition is_u16 (x : Z) : Prop := 0 <= x < 65536.
Definition is_u32 (x : Z) : Prop := 0 <= x < 4294967296.

(** ** lwIP error codes (lwip/err.h) *)

Inductive err_t : Set :=
| ERR_OK | ERR_MEM | ERR_BUF | ERR_TIMEOUT | ERR_RTE | ERR_INPROGRESS
| ERR_VAL | ERR_WOULDBLOCK | ERR_USE | ERR_ISCONN | ERR_ABRT | ERR_RST
| ERR_CLSD | ERR_CONN | ERR_ARG | ERR_IF.

#[export] Instance err_t_eq_dec : EqDecision err_t.
Proof. solve_decision. Defined.

(** The numeric value the C enumeration macros give to each code. *)
Definition err_val (e : err_t) : Z :=
  match e with
  | ERR_OK => 0 | ERR_MEM => -1 | ERR_BUF => -2 | ERR_TIMEOUT => -3
  | ERR_RTE => -4 | ERR_INPROGRESS => -5 | ERR_VAL => -6
  | ERR_WOULDBLOCK => -7 | ERR_USE => -8 | ERR_ISCONN => -9
  | ERR_ABRT => -10 | ERR_RST => -11 | ERR_CLSD => -12 | ERR_CONN => -13
  | ERR_ARG => -14 | ERR_IF => -15
  end.

(** ** State monad *)

(** A C function that reads and writes the state [S] and returns an [A]. *)
Definition ST (S A : Type) : Type := S -> A * S.

#[export] Instance ST_ret S : MRet (ST S) := fun A a s => (a, s).
#[export] Instance ST_bind S : MBind (ST S) :=
  fun A B f m s => let '(a, s') := m s in f a s'.

Definition st_get {S} : ST S S := fun s => (s, s).
Definition st_modify {S} (f : S -> S) : ST S unit := fun s => (tt, f s).

(** [for (x in l) body], with the loop variable in the state monad. *)
Fixpoint st_iter {S A} (f : A -> ST S unit) (l : list A) : ST S unit :=
  match l with
  | [] => mret tt
  | x :: l' => f x ;; st_iter f l'
  end.

(** ** Modules as parts of the program *)

(** The state [S] contains the variables [T] of one module: a function of the
    module that waits for interrupts works on [S], since an interrupt may
    change all of it. *)
Class PartOf (T S : Type) := {
  part : S -> T;
  set_part : T -> S -> S;
  part_set : forall t s, part (set_part t s) = t
}.

Definition upd_part {T S} `{PartOf T S} (f : T -> T) (s : S) : S := set_part (f (part s)) s.

#[export] Instance part_refl T : PartOf T T := {| part s := s; set_part t _ := t; part_set t s := eq_refl |}.

Lemma part_upd {T S} `{PartOf T S} (f : T -> T) s : part (upd_part f s) = f (part s).
Proof. apply part_set. Qed.

(** ** Tactics *)

(** Case analysis on the boolean integer comparisons of goal and context. *)
Ltac zb :=
  repeat match goal with
  | H : andb _ _ = true |- _ => apply andb_prop in H as [? ?]
  | H : (_ =? _)%Z = true |- _ => apply Z.eqb_eq in H
  | H : (_ =? _)%Z = false |- _ => apply Z.eqb_neq in H
  | H : (_ <? _)%Z = true |- _ => apply Z.ltb_lt in H
  | H : (_ <? _)%Z = false |- _ => apply Z.ltb_ge in H
  | H : (_ <=? _)%Z = true |- _ => apply Z.leb_le in H
  | H : (_ <=? _)%Z = false |- _ => apply Z.leb_gt in H
  end.

(** Split every [if] on an integer comparison of the goal. *)
Ltac zif :=
  repeat match goal with
  | |- context [if (?a =? ?b)%Z then _ else _] => destruct (Z.eqb_spec a b)
  | |- context [if (?a <? ?b)%Z then _ else _] => destruct (Z.ltb_spec a b)
  | |- context [if (?a <=? ?b)%Z then _ else _] => destruct (Z.leb_spec a b)
  end.

(** Linear arithmetic modulo the word sizes. *)
Ltac word :=
  unfold u8, u16, u32, s8, not32, is_u8, is_u16, is_u32 in *;
  Z.div_mod_to_equations; lia.

(** ** Words *)

Create HintDb cword.
Create Rewrite HintDb cword_small.

Lemma u8_range x : is_u8 (u8 x).
Proof. word. Qed.
Lemma u16_range x : is_u16 (u16 x).
Proof. word. Qed.
Lemma u32_range x : is_u32 (u32 x).
Proof. word. Qed.
Lemma u8_small x : is_u8 x -> u8 x = x.
Proof. intros; apply Z.mod_small; assumption. Qed.
Lemma u16_small x : is_u16 x -> u16 x = x.
Proof. intros; apply Z.mod_small; assumption. Qed.
Lemma u32_small x : is_u32 x -> u32 x = x.
Proof. intros; apply Z.mod_small; assumption. Qed.

#[export] Hint Resolve u8_range u16_range u32_range : cword.
#[export] Hint Rewrite u8_small u16_small u32_small using (assumption || lia) : cword_small.

(** Disjoint bit fields: an [|] of a low field and a shifted field is a sum. *)
Lemma testbit_above a k n : 0 <= a < 2 ^ k -> k <= n -> Z.testbit a n = false.
Proof.
  intros Ha Hn. destruct (Z.eq_dec a 0) as [-> | H0]; [apply Z.testbit_0_l |].
  apply Z.bits_above_log2; [lia |].
  apply Z.log2_lt_pow2; [lia |]. eapply Z.lt_le_trans; [apply Ha |].
  destruct (Z_lt_le_dec k 0) as [? | ?].
  - rewrite Z.pow_neg_r in Ha by lia. lia.
  - apply Z.pow_le_mono_r; lia.
Qed.

Lemma land_shiftl_low a b k : 0 <= k -> 0 <= a < 2 ^ k -> Z.land a (Z.shiftl b k) = 0.
Proof.
  intros Hk Ha. apply Z.bits_inj'; intros n Hn.
  rewrite Z.land_spec, Z.bits_0.
  destruct (Z_lt_le_dec n k).
  - rewrite Z.shiftl_spec_low by lia. apply andb_false_r.
  - rewrite (testbit_above a k n) by lia. reflexivity.
Qed.

Lemma lor_shiftl_add a b k :
  0 <= k -> 0 <= a < 2 ^ k -> Z.lor a (Z.shiftl b k) = a + b * 2 ^ k.
Proof.
  intros Hk Ha. pose proof (land_shiftl_low a b k Hk Ha) as H0.
  rewrite <- Z.shiftl_mul_pow2 by lia.
  rewrite <- Z.lxor_lor by assumption. symmetry. by apply Z.add_nocarry_lxor.
Qed.

Lemma log2_lt_pow2' a k : 0 < k -> 0 <= a < 2 ^ k -> Z.log2 a < k.
Proof.
  intros Hk [[Ha | <-]%Z.le_lteq Hb]; [by apply Z.log2_lt_pow2 | cbn; lia].
Qed.

Lemma lor_range a b k : 0 < k -> 0 <= a < 2 ^ k -> 0 <= b < 2 ^ k -> 0 <= Z.lor a b < 2 ^ k.
Proof.
  intros Hk Ha Hb. assert (Hn : 0 <= Z.lor a b) by (apply Z.lor_nonneg; lia).
  split; [done |].
  destruct (Z.eq_dec (Z.lor a b) 0) as [-> | H0]; [apply Z.pow_pos_nonneg; lia |].
  apply Z.log2_lt_pow2; [lia |]. rewrite Z.log2_lor by lia.
  apply Z.max_lub_lt; by apply log2_lt_pow2'.
Qed.

Lemma land_range_r a b : 0 <= b -> 0 <= Z.land a b <= b.
Proof.
  intros Hb. split; [apply Z.land_nonneg; lia |].
  assert (H : Z.land a b + Z.ldiff b a = b).
  { rewrite Z.add_nocarry_lxor, Z.lxor_lor;
      [apply Z.bits_inj'; intros n Hn; rewrite Z.lor_spec, Z.land_spec, Z.ldiff_spec;
       by destruct (Z.testbit a n), (Z.testbit b n) | |];
      apply Z.bits_inj'; intros n Hn;
      rewrite !Z.land_spec, Z.ldiff_spec, Z.bits_0;
      by destruct (Z.testbit a n), (Z.testbit b n). }
  pose proof (proj2 (Z.ldiff_nonneg b a) (or_introl Hb)). lia.
Qed.

(** Testing one bit with a shifted mask. *)
Lemma land_bit_eq0 nm b : 0 <= b -> (Z.land nm (Z.shiftl 1 b) =? 0) = negb (Z.testbit nm b).
Proof.
  intros Hb. rewrite Z.shiftl_1_l. destruct (Z.testbit nm b) eqn:E; cbn; zb.
  - apply Z.eqb_neq. intros H. assert (Z.testbit (Z.land nm (2 ^ b)) b = true) as Hc.
    { by rewrite Z.land_spec, E, Z.pow2_bits_true. }
    by rewrite H, Z.testbit_0_l in Hc.
  - apply Z.eqb_eq. apply Z.bits_inj'; intros n Hn. rewrite Z.land_spec, Z.bits_0.
    destruct (Z.eq_dec n b) as [-> |]; [by rewrite E |].
    rewrite Z.pow2_bits_false by lia. apply andb_false_r.
Qed.

Lemma mod_pow2_succ nm b :
  0 <= b -> nm mod 2 ^ (b + 1) = Z.b2z (Z.testbit nm b) * 2 ^ b + nm mod 2 ^ b.
Proof.
  intros Hb. rewrite Z.pow_add_r by lia. change (2 ^ 1) with 2.
  rewrite Z.rem_mul_r by lia. rewrite <- Z.testbit_spec' by lia. lia.
Qed.

Lemma string_length_app s1 s2 :
  String.length (s1 +:+ s2)%string = (String.length s1 + String.length s2)%nat.
Proof. induction s1 as [| c s1 IH]; cbn; [done |]. by rewrite <- IH. Qed.
