(* ===== verification/NetTypes.v ===== *)
(** * Network interface structures (lwip/netif.h) *)

From S2P Require Import Prelude.

(** The two arrays of [struct netif] of the program: [hdkNetIF[]] holds the
    interface that owns the EMAC, [alias_list[].netif] the aliases.  A
    [struct netif *] is one of their addresses, [NULL] is [None]. *)
Inductive netif_ptr : Set :=
| HdkNetIF (instNum : nat)
| AliasNetif (idx : nat).

(** Function pointers stored in a [struct netif]. *)
Inductive netif_fn : Set :=
| Fn_null | Fn_ip_input | Fn_etharp_output | Fn_hdkif_output.

(** [netif->state], a [void *]. *)
Inductive netif_state_ptr : Set :=
| St_null | St_instNum (n : nat) | St_hdkif (n : nat).

Record netif := mk_netif {
  nif_next : option netif_ptr;
  nif_ip_addr : Z;
  nif_netmask : Z;
  nif_gw : Z;
  nif_input : netif_fn;
  nif_output : netif_fn;
  nif_linkoutput : netif_fn;
  nif_state : netif_state_ptr;
  nif_dhcp : option nat;
  nif_mtu : Z;
  nif_hwaddr_len : Z;
  nif_hwaddr : list Z;
  nif_flags : Z;
  nif_name : Z * Z;
  nif_num : Z
}.

(** A [struct netif] of static storage before anything writes it. *)
Definition netif_zero : netif :=
  mk_netif None 0 0 0 Fn_null Fn_null Fn_null St_null None 0 0
    [0; 0; 0; 0; 0; 0] 0 (0, 0) 0.

Definition NETIF_FLAG_UP : Z := 0x01.
Definition NETIF_FLAG_BROADCAST : Z := 0x02.
Definition NETIF_FLAG_LINK_UP : Z := 0x10.
Definition NETIF_FLAG_ETHARP : Z := 0x20.

(** [n->flags & f] as a truth value. *)
Definition has_flag (n : netif) (f : Z) : bool := negb (Z.land (nif_flags n) f =? 0).

Definition netif_is_up (n : netif) : bool := has_flag n NETIF_FLAG_UP.

#[export] Instance netif_ptr_eq_dec : EqDecision netif_ptr.
Proof. solve_decision. Defined.

#[export] Instance netif_ptr_countable : Countable netif_ptr.
Proof.
  refine (inj_countable'
    (fun p => match p with HdkNetIF n => inl n | AliasNetif n => inr n end)
    (fun s => match s with inl n => HdkNetIF n | inr n => AliasNetif n end) _).
  by intros [].
Defined.

#[export] Instance netif_fn_eq_dec : EqDecision netif_fn.
Proof. solve_decision. Defined.
#[export] Instance netif_state_ptr_eq_dec : EqDecision netif_state_ptr.
Proof. solve_decision. Defined.
#[export] Instance netif_eq_dec : EqDecision netif.
Proof. solve_decision. Defined.
#[export] Instance netif_inhabited : Inhabited netif := populate netif_zero.

(** Field updates. *)
Definition nif_set_next (p : option netif_ptr) (n : netif) : netif :=
  mk_netif p (nif_ip_addr n) (nif_netmask n) (nif_gw n) (nif_input n)
    (nif_output n) (nif_linkoutput n) (nif_state n) (nif_dhcp n) (nif_mtu n)
    (nif_hwaddr_len n) (nif_hwaddr n) (nif_flags n) (nif_name n) (nif_num n).
Definition nif_set_ip_addr (a : Z) (n : netif) : netif :=
  mk_netif (nif_next n) a (nif_netmask n) (nif_gw n) (nif_input n)
    (nif_output n) (nif_linkoutput n) (nif_state n) (nif_dhcp n) (nif_mtu n)
    (nif_hwaddr_len n) (nif_hwaddr n) (nif_flags n) (nif_name n) (nif_num n).
Definition nif_set_netmask (a : Z) (n : netif) : netif :=
  mk_netif (nif_next n) (nif_ip_addr n) a (nif_gw n) (nif_input n)
    (nif_output n) (nif_linkoutput n) (nif_state n) (nif_dhcp n) (nif_mtu n)
    (nif_hwaddr_len n) (nif_hwaddr n) (nif_flags n) (nif_name n) (nif_num n).
Definition nif_set_gw (a : Z) (n : netif) : netif :=
  mk_netif (nif_next n) (nif_ip_addr n) (nif_netmask n) a (nif_input n)
    (nif_output n) (nif_linkoutput n) (nif_state n) (nif_dhcp n) (nif_mtu n)
    (nif_hwaddr_len n) (nif_hwaddr n) (nif_flags n) (nif_name n) (nif_num n).
Definition nif_set_flags (f : Z) (n : netif) : netif :=
  mk_netif (nif_next n) (nif_ip_addr n) (nif_netmask n) (nif_gw n) (nif_input n)
    (nif_output n) (nif_linkoutput n) (nif_state n) (nif_dhcp n) (nif_mtu n)
    (nif_hwaddr_len n) (nif_hwaddr n) f (nif_name n) (nif_num n).
