(* ===== verification/IpAddr.v ===== *)
(** * IPv4 addresses: comparison, classification, text form
    (lwip/ip_addr.h and core/ipv4/ip_addr.c)

    An [ip_addr_t] is its 32-bit word.  The target is big-endian
    (arch/cc.h, README), so network and host order coincide and
    [htonl]/[ntohl] are the identity (lwip/def.h). *)

From S2P Require Import Prelude NetTypes.

Definition htonl (x : Z) : Z := x.
Definition ntohl (x : Z) : Z := x.
Definition ntohs (x : Z) : Z := x.
Definition htons (x : Z) : Z := x.

Definition IPADDR_ANY : Z := 0.
Definition IPADDR_BROADCAST : Z := 0xffffffff.
Definition IPADDR_NONE : Z := 0xffffffff.

Definition ip_addr_netcmp (a1 a2 mask : Z) : bool := Z.land a1 mask =? Z.land a2 mask.
Definition ip_addr_cmp (a1 a2 : Z) : bool := a1 =? a2.
Definition ip_addr_isany (a : Z) : bool := a =? IPADDR_ANY.
Definition ip_addr_ismulticast (a : Z) : bool := Z.land a 0xf0000000 =? 0xe0000000.
Definition ip_addr_islinklocal (a : Z) : bool := Z.land a 0xffff0000 =? 0xa9fe0000.

(** The four octets of an address, most significant (first in memory) first. *)
Definition ip4_addr1 (a : Z) : Z := Z.shiftr a 24 mod 256.
Definition ip4_addr2 (a : Z) : Z := Z.shiftr a 16 mod 256.
Definition ip4_addr3 (a : Z) : Z := Z.shiftr a 8 mod 256.
Definition ip4_addr4 (a : Z) : Z := a mod 256.

(** [ip4_addr_isbroadcast]: all ones, all zeroes, or the all-ones host of the
    interface's own subnet. *)
Definition ip4_addr_isbroadcast (addr : Z) (nif : netif) : bool :=
  if (not32 addr =? IPADDR_ANY) || (addr =? IPADDR_ANY) then true
  else if negb (has_flag nif NETIF_FLAG_BROADCAST) then false
  else if addr =? nif_ip_addr nif then false
  else ip_addr_netcmp addr (nif_ip_addr nif) (nif_netmask nif)
       && (Z.land addr (not32 (nif_netmask nif))
           =? Z.land IPADDR_BROADCAST (not32 (nif_netmask nif))).

(** [ip4_addr_netmask_valid]: the two loops over [mask], from bit 31 down; the
    argument is the number of bits still to look at. *)
Fixpoint netmask_no_one (bits : nat) (nm : Z) : bool :=
  match bits with
  | O => true
  | S b => if negb (Z.land nm (Z.shiftl 1 (Z.of_nat b)) =? 0) then false
           else netmask_no_one b nm
  end.
Fixpoint netmask_first_zero (bits : nat) (nm : Z) : bool :=
  match bits with
  | O => netmask_no_one O nm
  | S b => if Z.land nm (Z.shiftl 1 (Z.of_nat b)) =? 0 then netmask_no_one (S b) nm
           else netmask_first_zero b nm
  end.
Definition ip4_addr_netmask_valid (netmask : Z) : bool :=
  netmask_first_zero 32 (htonl netmask).

(** ** Text to address *)

(** The character at a C string pointer: its code, 0 at the end. *)
Definition chr (s : string) : Z :=
  match s with
  | EmptyString => 0
  | String a _ => Z.of_nat (Ascii.nat_of_ascii a)
  end.
(** The pointer one further. *)
Definition adv (s : string) : string :=
  match s with EmptyString => EmptyString | String _ t => t end.

Definition in_range (c lo up : Z) : bool := (lo <=? c) && (c <=? up).
Definition isdigit (c : Z) : bool := in_range c 48 57.
Definition isxdigit (c : Z) : bool :=
  isdigit c || in_range c 97 102 || in_range c 65 70.
Definition islower (c : Z) : bool := in_range c 97 122.
Definition isspace (c : Z) : bool :=
  (c =? 32) || (c =? 12) || (c =? 10) || (c =? 13) || (c =? 9) || (c =? 11).

(** The inner [for (;;)] of [ipaddr_aton]: digits in the current base. *)
Fixpoint aton_digits (base val : Z) (s : string) : Z * string :=
  match s with
  | EmptyString => (val, s)
  | String a t =>
      let c := Z.of_nat (Ascii.nat_of_ascii a) in
      if isdigit c then aton_digits base (u32 (u32 (val * base) + (c - 48))) t
      else if (base =? 16) && isxdigit c then
        aton_digits base
          (Z.lor (u32 (Z.shiftl val 4)) (c + 10 - (if islower c then 97 else 65))) t
      else (val, s)
  end.

(** One number of the address, with its base prefix. *)
Definition aton_number (s : string) : option (Z * string) :=
  if negb (isdigit (chr s)) then None
  else if chr s =? 48 then
    let s := adv s in
    if (chr s =? 120) || (chr s =? 88) then Some (aton_digits 16 0 (adv s))
    else Some (aton_digits 8 0 s)
  else Some (aton_digits 10 0 s).

(** The outer [for (;;)]; [room] is the number of free cells of [parts]
    before the last ([parts + 3 - pp]). *)
Fixpoint aton_parts (room : nat) (parts : list Z) (s : string)
  : option (list Z * Z * string) :=
  match aton_number s with
  | None => None
  | Some (val, s) =>
      if chr s =? 46 then
        match room with
        | O => None
        | S r => aton_parts r (parts ++ [val]) (adv s)
        end
      else Some (parts, val, s)
  end.

(** [ipaddr_aton]; [None] is the return value 0. *)
Definition ipaddr_aton (cp : string) : option Z :=
  match aton_parts 3 [] cp with
  | None => None
  | Some (parts, val, s) =>
      if negb (chr s =? 0) && negb (isspace (chr s)) then None
      else
        match parts with
        | [] => Some (htonl val)
        | [p0] =>
            if 0xffffff <? val then None
            else Some (htonl (Z.lor val (u32 (Z.shiftl p0 24))))
        | [p0; p1] =>
            if 0xffff <? val then None
            else Some (htonl (Z.lor val
                   (Z.lor (u32 (Z.shiftl p0 24)) (u32 (Z.shiftl p1 16)))))
        | [p0; p1; p2] =>
            if 0xff <? val then None
            else Some (htonl (Z.lor val
                   (Z.lor (Z.lor (u32 (Z.shiftl p0 24)) (u32 (Z.shiftl p1 16)))
                          (u32 (Z.shiftl p2 8)))))
        | _ => Some (htonl val)
        end
  end.

(** [ipaddr_addr]. *)
Definition ipaddr_addr (cp : string) : Z :=
  match ipaddr_aton cp with Some val => val | None => IPADDR_NONE end.

(** ** Address to text *)

(** The [do ... while] loop over the octet: the remainders in the order they are
    stored in [inv[]]; [fuel] is the size of [inv]. *)
Fixpoint ntoa_inv (fuel : nat) (ap : Z) : list Z :=
  match fuel with
  | O => []
  | S f => (48 + ap mod 10) :: (if ap / 10 =? 0 then [] else ntoa_inv f (ap / 10))
  end.

(** The guarded stores through [rp] over a list of characters. *)
Fixpoint ntoa_put (cs : list Z) (st : list Z * Z) (buflen : Z) : option (list Z * Z) :=
  match cs with
  | [] => Some st
  | c :: cs' =>
      let '(out, len) := st in
      if buflen <=? len then None else ntoa_put cs' (out ++ [c], len + 1) buflen
  end.

(** The loop over the four octets. *)
Fixpoint ntoa_octets (octets : list Z) (st : list Z * Z) (buflen : Z)
  : option (list Z * Z) :=
  match octets with
  | [] => Some st
  | o :: os =>
      match ntoa_put (reverse (ntoa_inv 3 o)) st buflen with
      | None => None
      | Some st =>
          match ntoa_put [46] st buflen with
          | None => None
          | Some st => ntoa_octets os st buflen
          end
      end
  end.

Definition chars (cs : list Z) : string :=
  String.string_of_list_ascii (map (fun c => Ascii.ascii_of_nat (Z.to_nat c)) cs).

(** [ipaddr_ntoa_r]: the C string left in [buf], or [None] for [NULL]; the
    final store overwrites the last dot. *)
Definition ipaddr_ntoa_r (addr buflen : Z) : option string :=
  match ntoa_octets [ip4_addr1 addr; ip4_addr2 addr; ip4_addr3 addr; ip4_addr4 addr]
          ([], 0) buflen with
  | None => None
  | Some (out, _) => Some (chars (removelast out))
  end.

(** [ipaddr_ntoa] and every caller of the application use 16-byte buffers. *)
Definition ipaddr_ntoa (addr : Z) : string := default "" (ipaddr_ntoa_r addr 16).

Example aton_ex1 : ipaddr_aton "192.168.0.1" = Some 0xc0a80001.
Proof. reflexivity. Qed.
Example aton_ex2 : ipaddr_aton "0x10.0377 rest" = Some 0x100000ff.
Proof. reflexivity. Qed.
Example ntoa_ex1 : ipaddr_ntoa 0x0a00000a = "10.0.0.10".
Proof. reflexivity. Qed.

(** ** Properties of the text form *)

(** The character ['.']. *)
Definition dot : Ascii.ascii := Ascii.Ascii false true true true false true false false.

(** The decimal text of one octet. *)
Definition octet_text (o : Z) : string := chars (reverse (ntoa_inv 3 o)).

Lemma chars_app l1 l2 : chars (l1 ++ l2) = (chars l1 +:+ chars l2)%string.
Proof.
  unfold chars. rewrite map_app. induction (map _ l1) as [| c l IH]; [done |].
  cbn. by rewrite IH.
Qed.

Lemma length_ntoa_inv n o : (length (ntoa_inv n o) <= n)%nat.
Proof.
  revert o; induction n as [| n IH]; intros o; cbn; [lia |].
  zif; cbn; [lia |]. specialize (IH (o / 10)). lia.
Qed.

Lemma ntoa_put_ok cs out len buflen :
  len + Z.of_nat (length cs) <= buflen ->
  ntoa_put cs (out, len) buflen = Some (out ++ cs, len + Z.of_nat (length cs)).
Proof.
  revert out len; induction cs as [| c cs IH]; intros out len H; cbn in *.
  - by rewrite app_nil_r, Z.add_0_r.
  - zif; [lia |]. rewrite IH by lia. rewrite <- app_assoc. do 2 f_equal. lia.
Qed.

Lemma ntoa_octets_ok os out len buflen :
  len + 4 * Z.of_nat (length os) <= buflen ->
  exists len', ntoa_octets os (out, len) buflen
    = Some (out ++ mjoin (map (fun o => reverse (ntoa_inv 3 o) ++ [46]) os), len')
    /\ len' <= len + 4 * Z.of_nat (length os).
Proof.
  revert out len; induction os as [| o os IH]; intros out len H.
  - exists len. cbn. rewrite app_nil_r. split; [done | lia].
  - cbn [ntoa_octets map mjoin list_join length] in *.
    pose proof (length_ntoa_inv 3 o) as Hl.
    assert (Hr : length (reverse (ntoa_inv 3 o)) = length (ntoa_inv 3 o))
      by apply length_reverse.
    rewrite ntoa_put_ok by lia. rewrite ntoa_put_ok by (simpl (length [46]); lia).
    edestruct (IH ((out ++ reverse (ntoa_inv 3 o)) ++ [46])) as (len' & E & Hlen');
      [| rewrite E; exists len'; split];
      [simpl (length [46]) in *; lia | | simpl (length [46]) in *; lia].
    by rewrite <- !app_assoc.
Qed.

(** With a 16-byte buffer the four octets always fit. *)
Lemma ntoa_r_16 a :
  ipaddr_ntoa_r a 16 = Some
    (octet_text (ip4_addr1 a) +:+ "." +:+ octet_text (ip4_addr2 a) +:+ "." +:+
     octet_text (ip4_addr3 a) +:+ "." +:+ octet_text (ip4_addr4 a))%string.
Proof.
  unfold ipaddr_ntoa_r.
  destruct (ntoa_octets_ok [ip4_addr1 a; ip4_addr2 a; ip4_addr3 a; ip4_addr4 a]
              [] 0 16) as (len & -> & _); [cbn; lia |].
  cbn [map mjoin list_join app]. f_equal. unfold octet_text.
  set (x1 := reverse (ntoa_inv 3 (ip4_addr1 a))).
  set (x2 := reverse (ntoa_inv 3 (ip4_addr2 a))).
  set (x3 := reverse (ntoa_inv 3 (ip4_addr3 a))).
  set (x4 := reverse (ntoa_inv 3 (ip4_addr4 a))).
  replace ((x1 ++ [46]) ++ (x2 ++ [46]) ++ (x3 ++ [46]) ++ (x4 ++ [46]) ++ [])
    with ((x1 ++ [46] ++ x2 ++ [46] ++ x3 ++ [46] ++ x4) ++ [46])
    by (rewrite <- !app_assoc; done).
  rewrite removelast_last, !chars_app. done.
Qed.

(** Reading back one octet, whatever follows it in a dotted address. *)
Lemma aton_number_octet o rest :
  0 <= o < 256 -> rest = EmptyString \/ (exists t, rest = String dot t) ->
  aton_number (octet_text o +:+ rest) = Some (o, rest).
Proof.
  intros Ho Hrest.
  assert (Hall : Forall (fun o => aton_number (octet_text o +:+ EmptyString) = Some (o, EmptyString)
     /\ forall t, aton_number (octet_text o +:+ String dot t) = Some (o, String dot t)) (seqZ 0 256)).
  { apply Forall_forall. rewrite <- Forall_forall.
    let l := eval vm_compute in (seqZ 0 256) in change (seqZ 0 256) with l.
    repeat (apply List.Forall_cons; [split; [vm_compute; reflexivity | intros t; vm_compute; reflexivity] |]).
    apply List.Forall_nil. }
  rewrite Forall_forall in Hall. destruct (Hall o) as [H1 H2]; [apply elem_of_seqZ; lia |].
  destruct Hrest as [-> | [t ->]]; auto.
Qed.

Lemma shiftl_u32_low p k : 0 <= p < 256 -> 0 <= k <= 24 -> u32 (Z.shiftl p k) = p * 2 ^ k.
Proof.
  intros Hp Hk. rewrite Z.shiftl_mul_pow2 by lia. apply Z.mod_small.
  assert (2 ^ k <= 2 ^ 24) by (apply Z.pow_le_mono_r; lia).
  assert (0 < 2 ^ k) by (apply Z.pow_pos_nonneg; lia).
  change 4294967296 with (256 * 2 ^ 24). nia.
Qed.

(** The four octets rebuild the word. *)
Lemma octets_value a : is_u32 a ->
  ip4_addr4 a + ip4_addr1 a * 2 ^ 24 + ip4_addr2 a * 2 ^ 16 + ip4_addr3 a * 2 ^ 8 = a.
Proof.
  intros Ha. unfold ip4_addr1, ip4_addr2, ip4_addr3, ip4_addr4.
  rewrite !Z.shiftr_div_pow2 by lia. word.
Qed.

Lemma combine_octets a b c d :
  0 <= a < 256 -> 0 <= b < 256 -> 0 <= c < 256 -> 0 <= d < 256 ->
  Z.lor d (Z.lor (Z.lor (u32 (Z.shiftl a 24)) (u32 (Z.shiftl b 16))) (u32 (Z.shiftl c 8)))
  = d + a * 2 ^ 24 + b * 2 ^ 16 + c * 2 ^ 8.
Proof.
  intros Ha Hb Hc Hd.
  rewrite !shiftl_u32_low by lia. rewrite <- !Z.shiftl_mul_pow2 by lia.
  rewrite (Z.lor_comm (Z.lor _ _) (Z.shiftl c 8)), (Z.lor_comm (Z.shiftl a 24)).
  rewrite !Z.lor_assoc.
  rewrite (lor_shiftl_add d c 8) by lia.
  rewrite (lor_shiftl_add _ b 16) by lia.
  rewrite (lor_shiftl_add _ a 24) by lia.
  rewrite !Z.shiftl_mul_pow2 by lia. lia.
Qed.

Lemma octet_range a :
  0 <= ip4_addr1 a < 256 /\ 0 <= ip4_addr2 a < 256 /\
  0 <= ip4_addr3 a < 256 /\ 0 <= ip4_addr4 a < 256.
Proof. unfold ip4_addr1, ip4_addr2, ip4_addr3, ip4_addr4. word. Qed.

(** One step of the outer loop over a dotted address. *)
Lemma aton_parts_octet r parts o t :
  0 <= o < 256 ->
  aton_parts (S r) parts (octet_text o +:+ "." +:+ t) = aton_parts r (parts ++ [o]) t.
Proof.
  intros Ho. cbn [aton_parts].
  rewrite (aton_number_octet o) by (cbn; eauto). done.
Qed.

Lemma aton_dotted a b c d :
  0 <= a < 256 -> 0 <= b < 256 -> 0 <= c < 256 -> 0 <= d < 256 ->
  ipaddr_aton (octet_text a +:+ "." +:+ octet_text b +:+ "." +:+
               octet_text c +:+ "." +:+ octet_text d)%string
  = Some (d + a * 2 ^ 24 + b * 2 ^ 16 + c * 2 ^ 8).
Proof.
  intros Ha Hb Hc Hd. unfold ipaddr_aton.
  assert (E : octet_text d = (octet_text d +:+ EmptyString)%string).
  { clear. induction (octet_text d) as [| x s IH]; [done |]. change (String x s = String x (s +:+ EmptyString)). by f_equal. }
  rewrite E.
  rewrite aton_parts_octet, aton_parts_octet, aton_parts_octet by done.
  cbn [aton_parts]. rewrite (aton_number_octet d) by eauto. cbn [chr Z.eqb negb andb app].
  zif; [lia |]. unfold htonl. by rewrite combine_octets.
Qed.

Lemma length_octet_text o : (String.length (octet_text o) <= 3)%nat.
Proof.
  unfold octet_text, chars.
  assert (H : forall l : list Z, String.length
     (String.string_of_list_ascii (map (fun c => Ascii.ascii_of_nat (Z.to_nat c)) l)) = length l)
    by (induction l as [| c l IH]; cbn; [done | by rewrite IH]).
  rewrite H, length_reverse. apply length_ntoa_inv.
Qed.

(** ** Netmasks *)

Lemma netmask_no_one_spec b nm :
  netmask_no_one b nm = true <-> nm mod 2 ^ Z.of_nat b = 0.
Proof.
  induction b as [| b IH]; cbn [netmask_no_one].
  - change (Z.of_nat 0) with 0. rewrite Z.mod_1_r. done.
  - rewrite Nat2Z.inj_succ, <- Z.add_1_r, mod_pow2_succ by lia.
    rewrite land_bit_eq0 by lia. pose proof (Z.mod_pos_bound nm (2 ^ Z.of_nat b)).
    assert (0 < 2 ^ Z.of_nat b) by (apply Z.pow_pos_nonneg; lia).
    destruct (Z.testbit nm (Z.of_nat b)); cbn [negb Z.b2z]; [| rewrite IH]; lia.
Qed.

Lemma netmask_first_zero_spec b nm :
  netmask_first_zero b nm = true <->
  exists k, 0 <= k <= Z.of_nat b /\ nm mod 2 ^ Z.of_nat b = 2 ^ Z.of_nat b - 2 ^ k.
Proof.
  induction b as [| b IH]; cbn [netmask_first_zero].
  - change (Z.of_nat 0) with 0. cbn. rewrite Z.mod_1_r. split; [| done].
    intros _. exists 0. done.
  - rewrite land_bit_eq0 by lia.
    assert (Hp : 0 < 2 ^ Z.of_nat b) by (apply Z.pow_pos_nonneg; lia).
    pose proof (Z.mod_pos_bound nm (2 ^ Z.of_nat b) Hp).
    assert (Hs : 2 ^ Z.of_nat (S b) = 2 * 2 ^ Z.of_nat b)
      by (rewrite Nat2Z.inj_succ, Z.pow_succ_r; lia).
    pose proof (mod_pow2_succ nm (Z.of_nat b) ltac:(lia)) as Hm.
    replace (Z.of_nat b + 1) with (Z.of_nat (S b)) in Hm by lia.
    destruct (Z.testbit nm (Z.of_nat b)) eqn:E; cbn [negb Z.b2z] in *.
    + rewrite IH, Hm, Hs. split; intros (k & Hk & Hv); exists k; [lia |].
      assert (k <> Z.of_nat (S b)) by (intros ->; lia). lia.
    + rewrite netmask_no_one_spec, Hm, Hs. split.
      * intros H0. exists (Z.of_nat (S b)). lia.
      * intros (k & Hk & Hv). destruct (Z.eq_dec k (Z.of_nat (S b))) as [-> |]; [lia |].
        assert (2 ^ k <= 2 ^ Z.of_nat b) by (apply Z.pow_le_mono_r; lia). lia.
Qed.

(** Printing and reading back. *)
Lemma ntoa_aton a : is_u32 a ->
  exists s, ipaddr_ntoa_r a 16 = Some s /\ (String.length s <= 15)%nat /\ ipaddr_aton s = Some a.
Proof.
  intros Ha. rewrite ntoa_r_16. eexists; split; [reflexivity |].
  pose proof (octet_range a) as (H1 & H2 & H3 & H4). split.
  - rewrite !string_length_app. cbn [String.length].
    pose proof (length_octet_text (ip4_addr1 a)); pose proof (length_octet_text (ip4_addr2 a));
    pose proof (length_octet_text (ip4_addr3 a)); pose proof (length_octet_text (ip4_addr4 a)).
    lia.
  - rewrite aton_dotted by done. f_equal. by apply octets_value.
Qed.

(** ** Properties *)

(** C40. Printing an address and parsing it back gives the address: for every
    32-bit word [a], [ipaddr_ntoa_r] with a 16-byte buffer succeeds, leaves at
    most 15 characters, and [ipaddr_aton] reads the word [a] back. *)
Theorem ntoa_aton_roundtrip (a : Z) (Ha : is_u32 a) :
  exists s, ipaddr_ntoa_r a 16 = Some s
    /\ (String.length s <= 15)%nat /\ ipaddr_aton s = Some a.
Proof. by apply ntoa_aton. Qed.

Lemma ntoa_aton_roundtrip_witness :
  ipaddr_ntoa_r 0xc0a80001 16 = Some "192.168.0.1" /\
  exists s, ipaddr_ntoa_r 0xc0a80001 16 = Some s
    /\ (String.length s <= 15)%nat /\ ipaddr_aton s = Some 0xc0a80001.
Proof. split; [reflexivity | apply (ntoa_aton_roundtrip 0xc0a80001); split; done]. Defined.

(** [ip4_addr_netmask_valid] accepts exactly the words made of [n] ones
    followed by [32 - n] zeros. *)
Theorem netmask_valid_iff_prefix (nm : Z) (Hnm : is_u32 nm) :
  ip4_addr_netmask_valid nm = true <->
  exists n, 0 <= n <= 32 /\ nm = 2 ^ 32 - 2 ^ (32 - n).
Proof.
  unfold ip4_addr_netmask_valid, htonl. rewrite netmask_first_zero_spec.
  change (Z.of_nat 32) with 32. rewrite Z.mod_small by exact Hnm.
  split; intros (k & Hk & Hv); exists (32 - k); (split; [lia |]);
    [replace (32 - (32 - k)) with k by lia |]; lia.
Qed.

Lemma netmask_valid_iff_prefix_witness :
  ip4_addr_netmask_valid 0xffffff00 = true /\
  (ip4_addr_netmask_valid 0xffffff00 = true <->
   exists n, 0 <= n <= 32 /\ 0xffffff00 = 2 ^ 32 - 2 ^ (32 - n)).
Proof.
  split; [reflexivity | apply (netmask_valid_iff_prefix 0xffffff00); split; done].
Defined.
