(* ===== verification/Chain.v ===== *)
(** * Singly linked lists in a store

    lwIP keeps its interfaces, UDP and RAW control blocks on intrusive lists: a
    global head pointer and a [next] field in every node.  This file relates
    such a list to the sequence of its nodes, once for all of them.  A client
    gives the [next] function of its store. *)

From S2P Require Import Prelude.

Section chain.
Context {P : Type} `{EqDecision P}.

(** [chain next h l]: following [next] from [h] visits exactly [l]. *)
Fixpoint chain (next : P -> option P) (h : option P) (l : list P) : Prop :=
  match l with
  | [] => h = None
  | x :: l' => h = Some x /\ chain next (next x) l'
  end.

(** The nodes a loop [for (p = h; p != NULL; p = p->next)] visits; [fuel]
    bounds the number of nodes of the store. *)
Fixpoint walk (fuel : nat) (next : P -> option P) (h : option P) : list P :=
  match fuel, h with
  | S n, Some p => p :: walk n next (next p)
  | _, _ => []
  end.

Lemma chain_walk next h l fuel :
  chain next h l -> (length l <= fuel)%nat -> walk fuel next h = l.
Proof.
  revert h fuel; induction l as [| x l IH]; intros h fuel Hc Hl; cbn in *.
  - subst h. by destruct fuel.
  - destruct Hc as [-> Hc]. destruct fuel as [| n]; [lia |].
    cbn. f_equal. apply IH; [done | lia].
Qed.

(** A chain determines its nodes. *)
Lemma chain_fun next h l1 l2 : chain next h l1 -> chain next h l2 -> l1 = l2.
Proof.
  revert h l2; induction l1 as [| x l1 IH]; intros h [| y l2]; cbn.
  - done.
  - intros ->. intros [? _]. done.
  - intros [-> _] ?. done.
  - intros [-> H1] [[= ->] H2]. f_equal. eauto.
Qed.

(** Only the [next] fields of the nodes matter. *)
Lemma chain_ext next next' h l :
  chain next h l -> (forall x, x ∈ l -> next' x = next x) -> chain next' h l.
Proof.
  revert h; induction l as [| x l IH]; intros h; cbn; [done |].
  intros [-> Hc] Heq. split; [done |].
  rewrite Heq by set_solver. apply IH; [done |]. set_solver.
Qed.

(** Push at the front. *)
Lemma chain_cons next next' h l x :
  chain next h l -> x ∉ l -> next' x = h ->
  (forall y, y <> x -> next' y = next y) -> chain next' (Some x) (x :: l).
Proof.
  intros Hc Hx Hn Heq. cbn. split; [done |]. rewrite Hn.
  eapply chain_ext; [exact Hc |]. intros y Hy. apply Heq. set_solver.
Qed.

(** Unlink the head. *)
Lemma chain_tail next x l : chain next (Some x) (x :: l) -> chain next (next x) l.
Proof. by intros [_ H]. Qed.

(** Removing [x] from a duplicate-free list. *)
Definition remove1 (x : P) (l : list P) : list P := filter (fun y => y <> x) l.

Lemma remove1_notin x l : x ∉ l -> remove1 x l = l.
Proof.
  intros Hx. unfold remove1. induction l as [| y l IH]; [done |].
  rewrite filter_cons_True by set_solver. f_equal. apply IH. set_solver.
Qed.

Lemma remove1_cons_eq x l : x ∉ l -> remove1 x (x :: l) = l.
Proof.
  intros Hx. unfold remove1. rewrite filter_cons_False by (intros []; done).
  by apply remove1_notin.
Qed.

Lemma remove1_cons_ne x y l : y <> x -> remove1 x (y :: l) = y :: remove1 x l.
Proof. intros. unfold remove1. by rewrite filter_cons_True. Qed.

Lemma elem_of_remove1 x y l : y ∈ remove1 x l <-> y ∈ l /\ y <> x.
Proof. unfold remove1. rewrite list_elem_of_filter. tauto. Qed.

Lemma NoDup_remove1 x l : NoDup l -> NoDup (remove1 x l).
Proof. apply NoDup_filter. Qed.

Lemma length_remove1_le x l : (length (remove1 x l) <= length l)%nat.
Proof. apply length_filter. Qed.

(** Unlink [x] further down: its predecessor [y] now points past it. *)
Lemma chain_unlink next next' h l1 l2 y x :
  NoDup (l1 ++ y :: x :: l2) -> chain next h (l1 ++ y :: x :: l2) ->
  next' y = next x -> (forall z, z <> y -> next' z = next z) ->
  chain next' h (l1 ++ y :: l2).
Proof.
  revert h; induction l1 as [| z l1 IH]; intros h Hnd Hc Hy Heq; cbn in *.
  - destruct Hc as (-> & Hx & Hc). split; [done |]. rewrite Hy.
    apply NoDup_cons in Hnd as [Hyn _].
    eapply chain_ext; [exact Hc |]. intros w Hw. apply Heq. set_solver.
  - destruct Hc as [-> Hc]. apply NoDup_cons in Hnd as [Hzn Hnd].
    split; [done |]. rewrite (Heq z) by set_solver.
    apply IH; done.
Qed.

Lemma chain_app_next next h l1 y x l2 :
  chain next h (l1 ++ y :: x :: l2) -> next y = Some x.
Proof.
  revert h; induction l1 as [| z l1 IH]; intros h; cbn.
  - by intros (_ & ? & _).
  - intros [_ Hc]. eauto.
Qed.

Lemma NoDup_split_last (x : P) l :
  x ∈ l -> exists l1 l2, l = l1 ++ x :: l2 /\ x ∉ l1.
Proof.
  induction l as [| y l IH]; [set_solver |].
  destruct (decide (y = x)) as [-> | Hne].
  - intros _. exists [], l. split; [done | set_solver].
  - intros Hx. destruct IH as (l1 & l2 & -> & Hn); [set_solver |].
    exists (y :: l1), l2. split; [done | set_solver].
Qed.

Lemma remove1_app_mid (x : P) l1 l2 :
  x ∉ l1 -> x ∉ l2 -> remove1 x (l1 ++ x :: l2) = l1 ++ l2.
Proof.
  intros H1 H2. unfold remove1. rewrite filter_app.
  rewrite filter_cons_False by (intros []; done).
  f_equal; by apply remove1_notin.
Qed.

Lemma NoDup_mid (x : P) l1 l2 : NoDup (l1 ++ x :: l2) -> x ∉ l1 /\ x ∉ l2.
Proof.
  intros (_ & Hd & Hn)%NoDup_app. apply NoDup_cons in Hn as [Hx _]. split; [| done].
  intros H. apply (Hd x H). apply list_elem_of_here.
Qed.
End chain.
