(* ===== verification/Memp.v ===== *)
(** * Fixed-size memory pools (core/memp.c)

    One pool: the elements are numbered by their position in [memp_memory];
    [memp_tab[type]] is the list of the free ones in link order. *)

From S2P Require Import Prelude.

Record memp := mk_memp {
  memp_tab : list nat
}.

#[export] Instance memp_eq_dec : EqDecision memp.
Proof. solve_decision. Defined.

(** [memp_init] for one pool of [num] elements: every element is pushed on the
    list in order. *)
Fixpoint memp_init_loop (js : list nat) (tab : list nat) : list nat :=
  match js with
  | [] => tab
  | j :: js' => memp_init_loop js' (j :: tab)
  end.
Definition memp_init (num : nat) : memp := mk_memp (memp_init_loop (seq 0 num) []).

(** [memp_malloc]: take the head, or [NULL]. *)
Definition memp_malloc (m : memp) : option nat * memp :=
  match memp_tab m with
  | [] => (None, m)
  | e :: tab => (Some e, mk_memp tab)
  end.

(** [memp_free]: nothing for [NULL], else push. *)
Definition memp_free (mem : option nat) (m : memp) : memp :=
  match mem with
  | None => m
  | Some e => mk_memp (e :: memp_tab m)
  end.

(** The pool of [num] elements with the set [used] handed out. *)
Definition memp_ok (num : nat) (used : gset nat) (m : memp) : Prop :=
  NoDup (memp_tab m) /\
  (forall e, e ∈ memp_tab m <-> (e < num)%nat /\ e ∉ used) /\
  (forall e, e ∈ used -> (e < num)%nat).

Lemma memp_init_loop_spec js tab : memp_init_loop js tab = reverse js ++ tab.
Proof.
  revert tab; induction js as [| j js IH]; intros tab; cbn [memp_init_loop]; [done |].
  rewrite IH, reverse_cons, <- app_assoc. done.
Qed.

Lemma memp_init_ok num : memp_ok num ∅ (memp_init num).
Proof.
  unfold memp_ok, memp_init; cbn. rewrite memp_init_loop_spec, app_nil_r.
  split_and!.
  - rewrite reverse_Permutation. apply NoDup_seq.
  - intros e. rewrite elem_of_reverse, elem_of_seq.
    split; [intros ?; split; [lia | set_solver] | lia].
  - intros e He%not_elem_of_empty. done.
Qed.

Lemma memp_malloc_ok num used m e m' :
  memp_ok num used m -> memp_malloc m = (Some e, m') ->
  e ∉ used /\ (e < num)%nat /\ memp_ok num ({[e]} ∪ used) m'.
Proof.
  intros (Hnd & Hfree & Hused). unfold memp_malloc.
  destruct (memp_tab m) as [| x tab] eqn:E; [done |]. intros [= -> <-].
  apply NoDup_cons in Hnd as [Hx Hnd].
  destruct (proj1 (Hfree e) (list_elem_of_here _ _)) as [Hlt Hnu].
  split_and!; [done | done | ]. unfold memp_ok; cbn. split_and!; [done | |].
  - intros y. specialize (Hfree y). rewrite elem_of_cons in Hfree.
    rewrite elem_of_union, elem_of_singleton.
    destruct (decide (y = e)) as [-> |]; tauto.
  - intros y [->%elem_of_singleton | Hy]%elem_of_union; [done | by apply Hused].
Qed.

Lemma memp_malloc_fail num used m m' :
  memp_ok num used m -> memp_malloc m = (None, m') ->
  m' = m /\ forall e, (e < num)%nat -> e ∈ used.
Proof.
  intros (Hnd & Hfree & Hused). unfold memp_malloc.
  destruct (memp_tab m) as [| x tab] eqn:E; [| done]. intros [= <-].
  split; [done |]. intros e He. destruct (decide (e ∈ used)) as [| Hn]; [done |].
  exfalso. apply (not_elem_of_nil e), (proj2 (Hfree e)). done.
Qed.

Lemma memp_malloc_avail num used m :
  memp_ok num used m -> (size used < num)%nat ->
  exists e m', memp_malloc m = (Some e, m').
Proof.
  intros Hok Hs. destruct (memp_malloc m) as [[e |] m'] eqn:E; [eauto |].
  exfalso. destruct (memp_malloc_fail num used m m' Hok E) as [_ Hall].
  assert (Hsub : list_to_set (seq 0 num) ⊆ used).
  { intros e. rewrite elem_of_list_to_set, elem_of_seq. intros. apply Hall. lia. }
  apply subseteq_size in Hsub. rewrite size_list_to_set in Hsub by apply NoDup_seq.
  rewrite length_seq in Hsub. lia.
Qed.

Lemma memp_free_ok num used m e :
  memp_ok num used m -> e ∈ used -> memp_ok num (used ∖ {[e]}) (memp_free (Some e) m).
Proof.
  intros (Hnd & Hfree & Hused) He. unfold memp_ok, memp_free; cbn. split_and!.
  - apply NoDup_cons. split; [rewrite Hfree; tauto | done].
  - intros y. rewrite elem_of_cons, Hfree, elem_of_difference, elem_of_singleton.
    destruct (decide (y = e)) as [-> | Hne]; [| tauto].
    split; [intros _; split; [by apply Hused | tauto] | tauto].
  - intros y [Hy _]%elem_of_difference. by apply Hused.
Qed.
