(* ===== verification/Pbuf.v ===== *)
(** * Packet buffers (core/pbuf.c)

    A pbuf chain as a value: its first segment and the segments behind it.  A
    segment keeps the bytes of its block in front of [payload] ([ps_pre]) and
    the [len] bytes at [payload] ([ps_data]); [tot_len] is the sum of the
    [len]s, the invariant the C code states for single packets.  A fresh block
    holds zeros; every byte is written before it leaves the stack.

    The heap behind [PBUF_RAM] is an oracle: the list of the answers
    [mem_malloc] will give to the requests it does not refuse at once; when
    the list is used up it succeeds. *)

From S2P Require Import Prelude.

Inductive pbuf_type : Set := PBUF_RAM | PBUF_ROM | PBUF_REF | PBUF_POOL.
Inductive pbuf_layer : Set := PBUF_TRANSPORT | PBUF_IP | PBUF_LINK | PBUF_RAW.

Record pseg := mk_pseg {
  ps_type : pbuf_type;
  ps_pre : list Z;
  ps_data : list Z
}.

Record pbuf := mk_pbuf {
  pb_first : pseg;
  pb_next : list pseg;
  pb_flags : Z
}.

Definition PBUF_FLAG_LLBCAST : Z := 0x08.
Definition PBUF_FLAG_LLMCAST : Z := 0x10.

Definition Zlen {A} (l : list A) : Z := Z.of_nat (length l).

Definition p_payload (p : pbuf) : list Z := ps_data (pb_first p).
Definition p_len (p : pbuf) : Z := Zlen (p_payload p).
(** The bytes of the whole chain, first segment first. *)
Definition p_bytes (p : pbuf) : list Z :=
  p_payload p ++ mjoin (map ps_data (pb_next p)).
Definition p_tot_len (p : pbuf) : Z := Zlen (p_bytes p).

Definition set_payload (d : list Z) (p : pbuf) : pbuf :=
  mk_pbuf (mk_pseg (ps_type (pb_first p)) (ps_pre (pb_first p)) d)
    (pb_next p) (pb_flags p).

(** Big-endian fields of a header. *)
Definition be16 (x : Z) : list Z := [Z.shiftr x 8 mod 256; x mod 256].
Definition be32 (x : Z) : list Z :=
  [Z.shiftr x 24 mod 256; Z.shiftr x 16 mod 256; Z.shiftr x 8 mod 256; x mod 256].
Definition byte_at (l : list Z) (off : nat) : Z := nth off l 0.
Definition get16 (l : list Z) (off : nat) : Z :=
  byte_at l off * 256 + byte_at l (S off).
Definition get32 (l : list Z) (off : nat) : Z :=
  get16 l off * 65536 + get16 l (S (S off)).
(** Store [bs] at offset [off]. *)
Definition put (off : nat) (bs l : list Z) : list Z :=
  take off l ++ bs ++ drop (off + length bs) l.

(** ** Heap *)

Definition MEM_ALIGNMENT : Z := 4.
Definition LWIP_MEM_ALIGN_SIZE (size : Z) : Z := (size + 3) / 4 * 4.
Definition MIN_SIZE_ALIGNED : Z := 12.
Definition MEM_SIZE_ALIGNED : Z := 30720.
Definition SIZEOF_STRUCT_PBUF : Z := 16.

(** [mem_malloc]: the requests it refuses by their size, then the oracle. The
    argument has the type [mem_size_t], 16 bits for this heap size. *)
Definition mem_malloc (size : Z) (h : list bool) : bool * list bool :=
  if size =? 0 then (false, h)
  else
    let size := u16 (LWIP_MEM_ALIGN_SIZE size) in
    let size := if size <? MIN_SIZE_ALIGNED then MIN_SIZE_ALIGNED else size in
    if MEM_SIZE_ALIGNED <? size then (false, h)
    else match h with [] => (true, []) | b :: h' => (b, h') end.

Definition layer_offset (layer : pbuf_layer) : Z :=
  match layer with
  | PBUF_TRANSPORT => 14 + 20 + 20
  | PBUF_IP => 14 + 20
  | PBUF_LINK => 14
  | PBUF_RAW => 0
  end.

(** The size [pbuf_alloc] asks [mem_malloc] for. *)
Definition pbuf_ram_size (layer : pbuf_layer) (length : Z) : Z :=
  LWIP_MEM_ALIGN_SIZE (SIZEOF_STRUCT_PBUF + layer_offset layer)
  + LWIP_MEM_ALIGN_SIZE length.

(** [pbuf_alloc(layer, length, PBUF_RAM)]. *)
Definition pbuf_alloc_ram (layer : pbuf_layer) (length : Z) (h : list bool)
  : option pbuf * list bool :=
  let '(ok, h) := mem_malloc (u16 (pbuf_ram_size layer length)) h in
  if ok then
    (Some (mk_pbuf
       (mk_pseg PBUF_RAM
          (replicate (Z.to_nat (LWIP_MEM_ALIGN_SIZE (SIZEOF_STRUCT_PBUF + layer_offset layer)
                                - SIZEOF_STRUCT_PBUF)) 0)
          (replicate (Z.to_nat length) 0))
       [] 0), h)
  else (None, h).

(** The block [mem_malloc] returned covers the payload [pbuf_alloc] promises. *)
Definition pbuf_ram_fits (layer : pbuf_layer) (length : Z) : bool :=
  LWIP_MEM_ALIGN_SIZE (SIZEOF_STRUCT_PBUF + layer_offset layer) + length
  <=? u16 (pbuf_ram_size layer length).

(** ** Header adjustment *)

(** [pbuf_header]; [None] is a non-zero return, the pbuf unchanged. *)
Definition pbuf_header (p : pbuf) (inc : Z) : option pbuf :=
  let s := pb_first p in
  if inc =? 0 then Some p
  else if inc <? 0 then
    if - inc <=? p_len p then
      let n := Z.to_nat (- inc) in
      Some (mk_pbuf (mk_pseg (ps_type s) (ps_pre s ++ take n (ps_data s)) (drop n (ps_data s)))
              (pb_next p) (pb_flags p))
    else None
  else
    match ps_type s with
    | PBUF_RAM | PBUF_POOL =>
        if Zlen (ps_pre s) <? inc then None
        else
          let k := (length (ps_pre s) - Z.to_nat inc)%nat in
          Some (mk_pbuf (mk_pseg (ps_type s) (take k (ps_pre s))
                           (drop k (ps_pre s) ++ ps_data s))
                  (pb_next p) (pb_flags p))
    | PBUF_REF | PBUF_ROM => None
    end.

(** [pbuf_chain(h, t)] for a head that ends its own chain. *)
Definition pbuf_chain (h t : pbuf) : pbuf :=
  mk_pbuf (pb_first h) (pb_next h ++ pb_first t :: pb_next t) (pb_flags h).

(** ** Copies *)

(** The loop of [pbuf_copy] into a target of one segment with [room] bytes
    left; it reports the chains it takes for packet queues. *)
Fixpoint pbuf_copy_loop (room : Z) (from : list (list Z)) (out : list Z) : err_t * list Z :=
  match from with
  | [] => (ERR_OK, out)
  | d :: rest =>
      let out := out ++ d in
      let room := room - Zlen d in
      match rest with
      | [] => (ERR_OK, out)
      | d2 :: rest2 =>
          if room =? 0 then (ERR_ARG, out)
          else if (Zlen d2 =? Zlen (mjoin rest)) && negb (bool_decide (rest2 = []))
          then (ERR_VAL, out)
          else pbuf_copy_loop room rest out
      end
  end.

(** [pbuf_copy(p_to, p_from)] for a target of one segment. *)
Definition pbuf_copy (p_to p_from : pbuf) : err_t * pbuf :=
  if p_tot_len p_to <? p_tot_len p_from then (ERR_ARG, p_to)
  else
    let '(err, out) := pbuf_copy_loop (p_len p_to)
                         (map ps_data (pb_first p_from :: pb_next p_from)) [] in
    (err, set_payload (put 0 out (p_payload p_to)) p_to).

(** The loop of [pbuf_copy_partial]. *)
Fixpoint copy_partial_loop (segs : list (list Z)) (len offset : Z) (acc : list Z) : list Z :=
  match segs with
  | [] => acc
  | d :: segs' =>
      if len =? 0 then acc
      else if negb (offset =? 0) && (Zlen d <=? offset) then
        copy_partial_loop segs' len (offset - Zlen d) acc
      else
        let n := if len <? Zlen d - offset then len else Zlen d - offset in
        copy_partial_loop segs' (len - n) 0
          (acc ++ take (Z.to_nat n) (drop (Z.to_nat offset) d))
  end.

(** [pbuf_copy_partial]: the bytes stored from [dataptr] on; their number is
    the return value. *)
Definition pbuf_copy_partial (buf : pbuf) (len offset : Z) : list Z :=
  copy_partial_loop (map ps_data (pb_first buf :: pb_next buf)) len offset [].

(** [pbuf_realloc], which only shrinks: the segment where [new_len] falls ends
    the chain. *)
Fixpoint realloc_loop (rem_len : Z) (s : pseg) (rest : list pseg) : pseg * list pseg :=
  if Zlen (ps_data s) <? rem_len then
    match rest with
    | [] => (s, [])
    | s2 :: rest2 =>
        let '(s2, rest2) := realloc_loop (rem_len - Zlen (ps_data s)) s2 rest2 in
        (s, s2 :: rest2)
    end
  else (mk_pseg (ps_type s) (ps_pre s) (take (Z.to_nat rem_len) (ps_data s)), []).
Definition pbuf_realloc (p : pbuf) (new_len : Z) : pbuf :=
  if p_tot_len p <=? new_len then p
  else
    let '(s, rest) := realloc_loop new_len (pb_first p) (pb_next p) in
    mk_pbuf s rest (pb_flags p).

(** ** Lemmas *)

(** A packet of one segment. *)
Definition flat_pbuf (d : list Z) : pbuf := mk_pbuf (mk_pseg PBUF_RAM [] d) [] 0.

Lemma p_bytes_flat d : p_bytes (flat_pbuf d) = d.
Proof. unfold p_bytes, p_payload. cbn. apply app_nil_r. Qed.

Lemma Zlen_nonneg {A} (l : list A) : 0 <= Zlen l.
Proof. unfold Zlen. lia. Qed.
Lemma Zlen_app {A} (l k : list A) : Zlen (l ++ k) = Zlen l + Zlen k.
Proof. unfold Zlen. rewrite length_app. lia. Qed.
Lemma Zlen_nil {A} : Zlen (@nil A) = 0.
Proof. reflexivity. Qed.
Lemma Zlen_cons {A} (x : A) l : Zlen (x :: l) = 1 + Zlen l.
Proof. unfold Zlen. cbn [length]. lia. Qed.
Lemma Zlen_take {A} n (l : list A) : 0 <= n <= Zlen l -> Zlen (take (Z.to_nat n) l) = n.
Proof. unfold Zlen. intros. rewrite length_take. lia. Qed.
Lemma Zlen_replicate {A} n (x : A) : 0 <= n -> Zlen (replicate (Z.to_nat n) x) = n.
Proof. unfold Zlen. intros. rewrite length_replicate. lia. Qed.

#[export] Hint Rewrite @Zlen_app @Zlen_nil @Zlen_cons : zlen.

Lemma copy_partial_loop_spec segs len offset acc :
  0 <= len -> 0 <= offset ->
  copy_partial_loop segs len offset acc
  = acc ++ take (Z.to_nat len) (drop (Z.to_nat offset) (mjoin segs)).
Proof.
  revert len offset acc; induction segs as [| d segs IH]; intros len offset acc Hl Ho;
    cbn [copy_partial_loop mjoin list_join].
  - by rewrite drop_nil, take_nil, app_nil_r.
  - pose proof (Zlen_nonneg d).
    destruct (Z.eqb_spec len 0) as [-> | Hl0]; [by rewrite take_0, app_nil_r |].
    destruct (negb (offset =? 0) && (Zlen d <=? offset)) eqn:Eskip.
    + zb. rewrite IH by lia. f_equal. unfold Zlen in *.
      rewrite drop_app_ge by lia. do 2 f_equal. lia.
    + set (n := if len <? Zlen d - offset then len else Zlen d - offset).
      assert (Hod : offset <= Zlen d).
      { destruct (Z.eqb_spec offset 0); [lia |]. cbn in Eskip. zb. lia. }
      assert (Hn : 0 <= n <= len /\ (n = len \/ n = Zlen d - offset) /\ n <= Zlen d - offset)
        by (unfold n; destruct (Z.ltb_spec len (Zlen d - offset)); lia).
      clearbody n. rewrite IH by lia. rewrite <- app_assoc. f_equal.
      unfold Zlen in *. change (Z.to_nat 0) with 0%nat. rewrite drop_0.
      rewrite drop_app_le by lia. rewrite take_app, length_drop.
      destruct Hn as (Hn1 & [-> | ->] & Hn2).
      * rewrite Z.sub_diag. change (Z.to_nat 0) with 0%nat. rewrite take_0.
        replace (Z.to_nat len - (length d - Z.to_nat offset))%nat with 0%nat by lia.
        by rewrite take_0.
      * rewrite !(take_ge (drop _ d)) by (rewrite length_drop; lia). f_equal. f_equal. lia.
Qed.

(** The bytes copied are the addressed range of the packet. *)
Lemma pbuf_copy_partial_spec p len offset :
  0 <= len -> 0 <= offset ->
  pbuf_copy_partial p len offset = take (Z.to_nat len) (drop (Z.to_nat offset) (p_bytes p)).
Proof. intros. unfold pbuf_copy_partial. by rewrite copy_partial_loop_spec. Qed.

Lemma pbuf_header_grow p n p' :
  0 < n -> pbuf_header p n = Some p' ->
  exists hd, Zlen hd = n /\ p_payload p' = hd ++ p_payload p
    /\ pb_next p' = pb_next p /\ pb_flags p' = pb_flags p
    /\ ps_type (pb_first p') = ps_type (pb_first p)
    /\ Zlen (ps_pre (pb_first p')) = Zlen (ps_pre (pb_first p)) - n.
Proof.
  intros Hn. unfold pbuf_header.
  destruct (Z.eqb_spec n 0); [lia |]. destruct (Z.ltb_spec n 0); [lia |].
  destruct (ps_type (pb_first p)) eqn:Et; try done;
    (destruct (Z.ltb_spec (Zlen (ps_pre (pb_first p))) n); [done |]; intros [= <-];
     unfold p_payload; cbn;
     exists (drop (length (ps_pre (pb_first p)) - Z.to_nat n) (ps_pre (pb_first p)));
     unfold Zlen in *; split_and!; try done; rewrite ?length_drop, ?length_take; lia).
Qed.

Lemma pbuf_header_room p n :
  0 < n <= Zlen (ps_pre (pb_first p)) ->
  ps_type (pb_first p) = PBUF_RAM \/ ps_type (pb_first p) = PBUF_POOL ->
  exists p', pbuf_header p n = Some p'.
Proof.
  intros Hn Ht. unfold pbuf_header.
  destruct (Z.eqb_spec n 0); [lia |]. destruct (Z.ltb_spec n 0); [lia |].
  destruct (Z.ltb_spec (Zlen (ps_pre (pb_first p))) n); [lia |].
  destruct Ht as [-> | ->]; eauto.
Qed.

Lemma pbuf_header_shrink p n :
  0 < n <= p_len p ->
  exists p', pbuf_header p (- n) = Some p'
    /\ p_payload p' = drop (Z.to_nat n) (p_payload p)
    /\ pb_next p' = pb_next p /\ pb_flags p' = pb_flags p.
Proof.
  intros Hn. unfold pbuf_header.
  destruct (Z.eqb_spec (- n) 0); [lia |]. destruct (Z.ltb_spec (- n) 0); [| lia].
  rewrite Z.opp_involutive. destruct (Z.leb_spec n (p_len p)); [| lia].
  eexists; split_and!; done.
Qed.

(** A failing shrink leaves fewer bytes than asked for. *)
Lemma pbuf_header_shrink_none p n :
  0 < n -> pbuf_header p (- n) = None -> p_len p < n.
Proof.
  intros Hn H. destruct (Z_lt_le_dec (p_len p) n); [done |].
  destruct (pbuf_header_shrink p n) as (p' & E & _); [lia |]. congruence.
Qed.

Lemma layer_pre_len layer :
  LWIP_MEM_ALIGN_SIZE (SIZEOF_STRUCT_PBUF + layer_offset layer) - SIZEOF_STRUCT_PBUF
  = match layer with PBUF_TRANSPORT => 56 | PBUF_IP => 36 | PBUF_LINK => 16 | PBUF_RAW => 0 end.
Proof. by destruct layer. Qed.

Lemma pbuf_alloc_ram_some layer n h p h' :
  0 <= n -> pbuf_alloc_ram layer n h = (Some p, h') ->
  p_len p = n /\ pb_next p = [] /\ ps_type (pb_first p) = PBUF_RAM /\ pb_flags p = 0
  /\ Zlen (ps_pre (pb_first p)) =
     match layer with PBUF_TRANSPORT => 56 | PBUF_IP => 36 | PBUF_LINK => 16 | PBUF_RAW => 0 end.
Proof.
  intros Hn. unfold pbuf_alloc_ram. destruct (mem_malloc _ _) as [[] ?]; [| done].
  intros [= <- <-]. unfold p_len, p_payload.
  cbn [pb_first pb_next ps_data ps_type ps_pre pb_flags].
  rewrite !Zlen_replicate; [| rewrite layer_pre_len; by destruct layer | done].
  rewrite layer_pre_len. split_and!; done.
Qed.

(** With an all-success oracle a moderate request is served. *)
Lemma pbuf_alloc_ram_ok layer n :
  0 <= n <= 30000 -> exists p, pbuf_alloc_ram layer n [] = (Some p, []).
Proof.
  intros Hn. unfold pbuf_alloc_ram, mem_malloc, pbuf_ram_size.
  assert (Hr : 16 <= LWIP_MEM_ALIGN_SIZE (SIZEOF_STRUCT_PBUF + layer_offset layer) <= 72)
    by (destruct layer; vm_compute; split; discriminate).
  set (a := LWIP_MEM_ALIGN_SIZE (SIZEOF_STRUCT_PBUF + layer_offset layer)) in *.
  assert (Hn4 : 0 <= LWIP_MEM_ALIGN_SIZE n <= 30003)
    by (unfold LWIP_MEM_ALIGN_SIZE; Z.div_mod_to_equations; lia).
  rewrite u16_small by (unfold is_u16; lia).
  assert (Hb0 : 16 <= a + LWIP_MEM_ALIGN_SIZE n <= 30075) by lia.
  set (b := a + LWIP_MEM_ALIGN_SIZE n) in *. clearbody b.
  destruct (Z.eqb_spec b 0); [lia |].
  assert (Hb : 0 <= LWIP_MEM_ALIGN_SIZE b <= 30100)
    by (unfold LWIP_MEM_ALIGN_SIZE; Z.div_mod_to_equations; lia).
  rewrite u16_small by (unfold is_u16; lia).
  unfold MIN_SIZE_ALIGNED, MEM_SIZE_ALIGNED.
  destruct (Z.ltb_spec (LWIP_MEM_ALIGN_SIZE b) 12); zif; try lia; eauto.
Qed.

Lemma realloc_loop_spec n s rest :
  0 <= n -> n <= Zlen (ps_data s ++ mjoin (map ps_data rest)) ->
  forall s' rest', realloc_loop n s rest = (s', rest') ->
  ps_data s' ++ mjoin (map ps_data rest')
  = take (Z.to_nat n) (ps_data s ++ mjoin (map ps_data rest)).
Proof.
  revert n s; induction rest as [| s2 rest IH]; intros n s Hn Hle s' rest'; cbn [realloc_loop].
  - destruct (Z.ltb_spec (Zlen (ps_data s)) n); intros [= <- <-]; cbn in *; rewrite !app_nil_r in *.
    + lia.
    + done.
  - destruct (Z.ltb_spec (Zlen (ps_data s)) n).
    + destruct (realloc_loop _ s2 rest) as [s2' rest2'] eqn:E. intros [= <- <-].
      change (mjoin (map ps_data (s2 :: rest))) with (ps_data s2 ++ mjoin (map ps_data rest)) in *.
      change (mjoin (map ps_data (s2' :: rest2'))) with (ps_data s2' ++ mjoin (map ps_data rest2')).
      rewrite Zlen_app in Hle.
      rewrite (IH (n - Zlen (ps_data s)) s2 ltac:(lia) ltac:(lia) s2' rest2' E).
      rewrite (take_app (ps_data s)). unfold Zlen in *. rewrite (take_ge (ps_data s)) by lia.
      do 2 f_equal. lia.
    + intros [= <- <-]. cbn [map mjoin list_join ps_data]. rewrite app_nil_r.
      rewrite take_app_le; [done |]. unfold Zlen in *. lia.
Qed.

(** Shrinking keeps a prefix of the packet. *)
Lemma pbuf_realloc_spec p n :
  0 <= n -> p_bytes (pbuf_realloc p n) = take (Z.to_nat n) (p_bytes p).
Proof.
  intros Hn. unfold pbuf_realloc. destruct (Z.leb_spec (p_tot_len p) n) as [H | H].
  - rewrite take_ge; [done |]. unfold p_tot_len, Zlen in H. lia.
  - destruct (realloc_loop _ _ _) as [s rest] eqn:E.
    unfold p_bytes at 1; unfold p_payload; cbn [pb_first pb_next].
    apply (realloc_loop_spec n (pb_first p) (pb_next p)); [done | | done].
    unfold p_tot_len, p_bytes, p_payload in H. lia.
Qed.

Lemma length_put off bs l :
  (off + length bs <= length l)%nat -> length (put off bs l) = length l.
Proof. intros. unfold put. rewrite !length_app, length_take, length_drop. lia. Qed.

(** Copying one packet into a target of its size. *)
Lemma pbuf_copy_single p_to p_from :
  pb_next p_from = [] -> pb_next p_to = [] -> p_len p_to = p_len p_from ->
  exists p', pbuf_copy p_to p_from = (ERR_OK, p') /\ p_bytes p' = p_bytes p_from
    /\ pb_next p' = [] /\ ps_type (pb_first p') = ps_type (pb_first p_to).
Proof.
  intros H1 H2 H3. unfold pbuf_copy, p_tot_len, p_bytes. rewrite H1, H2. cbn.
  rewrite !app_nil_r. fold (p_len p_to) (p_len p_from).
  destruct (Z.ltb_spec (p_len p_to) (p_len p_from)); [lia |].
  eexists; split_and!; [reflexivity | | done..].
  cbn. unfold p_payload at 1; cbn. unfold put. rewrite take_0. cbn [app].
  rewrite H2. cbn. rewrite app_nil_r.
  unfold p_len, Zlen in H3. unfold p_payload in *. rewrite drop_ge by lia.
  by rewrite app_nil_r.
Qed.

(** ** Properties *)

(** Allocation size overflow: the block [pbuf_alloc(layer, length, PBUF_RAM)]
    gets from a heap whose sizes are 16-bit covers its headers and the [length]
    bytes of payload exactly up to the bound of each layer (65460 bytes for
    [PBUF_TRANSPORT], the layer of the UDP sends); above it the request wraps
    around and [mem_malloc] is asked for less than the payload. *)
Theorem pbuf_ram_fits_iff (layer : pbuf_layer) (length : Z) (Hlen : is_u16 length) :
  pbuf_ram_fits layer length = true <->
  length <= match layer with
            | PBUF_TRANSPORT => 65460 | PBUF_IP => 65480
            | PBUF_LINK => 65500 | PBUF_RAW => 65516 end.
Proof.
  unfold pbuf_ram_fits, pbuf_ram_size, LWIP_MEM_ALIGN_SIZE at 1 2 3.
  rewrite Z.leb_le. unfold is_u16 in Hlen.
  destruct layer; cbn [layer_offset]; unfold SIZEOF_STRUCT_PBUF, u16;
    Z.div_mod_to_equations; lia.
Qed.

Lemma pbuf_ram_fits_iff_witness :
  pbuf_ram_fits PBUF_TRANSPORT 65465 = false /\ pbuf_ram_size PBUF_TRANSPORT 65465 = 65540 /\
  (pbuf_ram_fits PBUF_TRANSPORT 65465 = true <-> 65465 <= 65460).
Proof.
  split; [reflexivity | split; [reflexivity |]].
  apply (pbuf_ram_fits_iff PBUF_TRANSPORT 65465). split; reflexivity || (intros H; discriminate H).
Defined.
