(* ===== verification/Heap.v ===== *)
(** * The heap (core/mem.c)

    The heap is an array in which each block starts with a [struct mem]: the
    offsets of the next and of the previous block and a flag.  The model keeps
    these structures by their offset; a stale one stays in memory until it is
    overwritten, as in the code.  Pointers are offsets from [ram], so [ram_end] is
    the offset 30720.  The specification is a list of blocks that tile the heap,
    and, more abstractly, the multiset of blocks the clients hold.  With [NO_SYS]
    the mutex is empty and [LWIP_ALLOW_MEM_FREE_FROM_OTHER_CONTEXT] is 0. *)

From Stdlib Require Import Sorted.
From S2P Require Import Prelude Pbuf.

Definition SIZEOF_STRUCT_MEM : Z := 8.
Definition ram_end : Z := MEM_SIZE_ALIGNED.

Record mem_hdr := mk_mem { m_next : Z; m_prev : Z; m_used : Z }.
#[export] Instance mem_inhabited : Inhabited mem_hdr := populate (mk_mem 0 0 0).

Record heap := mk_heap { ram : gmap Z mem_hdr; lfree : Z }.
Definition mem_at (h : heap) (p : Z) : mem_hdr := ram h !!! p.
Definition upd_mem (p : Z) (f : mem_hdr -> mem_hdr) (h : heap) : heap :=
  mk_heap (<[p := f (mem_at h p)]> (ram h)) (lfree h).
Definition set_next n := fun m => mk_mem n (m_prev m) (m_used m).
Definition set_prev p := fun m => mk_mem (m_next m) p (m_used m).
Definition set_used u := fun m => mk_mem (m_next m) (m_prev m) u.
Definition set_lfree p (h : heap) : heap := mk_heap (ram h) p.

(** [plug_holes]: forward, then backward. *)
Definition plug_forward (mem : Z) (h : heap) : heap :=
  let nmem := m_next (mem_at h mem) in
  if negb (mem =? nmem) && (m_used (mem_at h nmem) =? 0) && negb (nmem =? ram_end) then
    let h := if lfree h =? nmem then set_lfree mem h else h in
    let h := upd_mem mem (set_next (m_next (mem_at h nmem))) h in
    upd_mem (m_next (mem_at h nmem)) (set_prev (u16 mem)) h
  else h.
Definition plug_backward (mem : Z) (h : heap) : heap :=
  let pmem := m_prev (mem_at h mem) in
  if negb (pmem =? mem) && (m_used (mem_at h pmem) =? 0) then
    let h := if lfree h =? mem then set_lfree pmem h else h in
    let h := upd_mem pmem (set_next (m_next (mem_at h mem))) h in
    upd_mem (m_next (mem_at h mem)) (set_prev (u16 pmem)) h
  else h.
Definition plug_holes (mem : Z) (h : heap) : heap := plug_backward mem (plug_forward mem h).

(** [mem_init]; [r] is what the array holds before. *)
Definition mem_init (r : gmap Z mem_hdr) : heap :=
  mk_heap (<[ram_end := mk_mem MEM_SIZE_ALIGNED MEM_SIZE_ALIGNED 1]> (<[0 := mk_mem MEM_SIZE_ALIGNED 0 0]> r)) 0.

(** [mem_free]. *)
Definition mem_free (rmem : option Z) (h : heap) : heap :=
  match rmem with
  | None => h
  | Some rmem =>
      if (rmem <? 0) || (ram_end <=? rmem) then h
      else
        let mem := rmem - SIZEOF_STRUCT_MEM in
        let h := upd_mem mem (set_used 0) h in
        let h := if mem <? lfree h then set_lfree mem h else h in
        plug_holes mem h
  end.

(** The size a request is raised to. *)
Definition request_size (size : Z) : Z :=
  let size := u16 (LWIP_MEM_ALIGN_SIZE size) in
  if size <? MIN_SIZE_ALIGNED then MIN_SIZE_ALIGNED else size.

(** A free block at [ptr2] between [ptr] and the block at [next]. *)
Definition insert_free (ptr ptr2 next : Z) (h : heap) : heap :=
  let h := upd_mem ptr2 (fun _ => mk_mem next ptr 0) h in
  let h := upd_mem ptr (set_next ptr2) h in
  if negb (next =? MEM_SIZE_ALIGNED) then upd_mem next (set_prev ptr2) h else h.

(** [mem_trim]. *)
Definition mem_trim (rmem newsize : Z) (h : heap) : option Z * heap :=
  let newsize := request_size newsize in
  if MEM_SIZE_ALIGNED <? newsize then (None, h)
  else if (rmem <? 0) || (ram_end <=? rmem) then (Some rmem, h)
  else
    let ptr := u16 (rmem - SIZEOF_STRUCT_MEM) in
    let next := m_next (mem_at h ptr) in
    let size := u16 (next - ptr - SIZEOF_STRUCT_MEM) in
    if size <? newsize then (None, h)
    else if newsize =? size then (Some rmem, h)
    else if m_used (mem_at h next) =? 0 then
      let next2 := m_next (mem_at h next) in
      let ptr2 := u16 (ptr + SIZEOF_STRUCT_MEM + newsize) in
      let h := if lfree h =? next then set_lfree ptr2 h else h in
      (Some rmem, insert_free ptr ptr2 next2 h)
    else if newsize + SIZEOF_STRUCT_MEM + MIN_SIZE_ALIGNED <=? size then
      let ptr2 := u16 (ptr + SIZEOF_STRUCT_MEM + newsize) in
      let h := if ptr2 <? lfree h then set_lfree ptr2 h else h in
      (Some rmem, insert_free ptr ptr2 next h)
    else (Some rmem, h).

(** The loops of [mem_malloc].  No heap has more than 1536 blocks, so the fuel
    does not run out. *)
Definition heap_fuel : nat := 1537.
Fixpoint malloc_search (fuel : nat) (ptr size : Z) (h : heap) : option Z :=
  match fuel with
  | O => None
  | S fuel =>
      if ptr <? MEM_SIZE_ALIGNED - size then
        let m := mem_at h ptr in
        if (m_used m =? 0) && (size <=? u32 (m_next m - (ptr + SIZEOF_STRUCT_MEM))) then Some ptr
        else malloc_search fuel (m_next m) size h
      else None
  end.
Fixpoint next_free (fuel : nat) (cur : Z) (h : heap) : Z :=
  match fuel with
  | O => cur
  | S fuel =>
      if negb (m_used (mem_at h cur) =? 0) && negb (cur =? ram_end) then next_free fuel (m_next (mem_at h cur)) h
      else cur
  end.

(** [mem_malloc]. *)
Definition mem_malloc (size : Z) (h : heap) : option Z * heap :=
  if size =? 0 then (None, h)
  else
    let size := request_size size in
    if MEM_SIZE_ALIGNED <? size then (None, h)
    else
      match malloc_search heap_fuel (lfree h) size h with
      | None => (None, h)
      | Some ptr =>
          let next := m_next (mem_at h ptr) in
          let h :=
            if size + SIZEOF_STRUCT_MEM + MIN_SIZE_ALIGNED <=? u32 (next - (ptr + SIZEOF_STRUCT_MEM)) then
              let ptr2 := u16 (ptr + SIZEOF_STRUCT_MEM + size) in
              upd_mem ptr (set_used 1) (insert_free ptr ptr2 next h)
            else upd_mem ptr (set_used 1) h in
          let h := if ptr =? lfree h then set_lfree (next_free heap_fuel (lfree h) h) h else h in
          (Some (ptr + SIZEOF_STRUCT_MEM), h)
      end.

(** [mem_calloc]: the block, as zeroed by [memset], and how many bytes of it. *)
Definition mem_calloc (count size : Z) (h : heap) : option (Z * Z) * heap :=
  let '(p, h) := mem_malloc (u16 (count * size)) h in
  match p with Some p => (Some (p, count * size), h) | None => (None, h) end.

(** ** Blocks that tile the heap *)

(** A block: its size with the header, and whether it is used. *)
Notation blk := (Z * bool)%type.

(** The blocks [bs] from offset [p] on, [pr] being the offset of the block
    before. *)
Fixpoint seg (r : gmap Z mem_hdr) (p pr : Z) (bs : list blk) : Prop :=
  match bs with
  | [] => True
  | (n, u) :: bs => r !!! p = mk_mem (p + n) pr (Z.b2z u) /\ seg r (p + n) p bs
  end.
Fixpoint endp (p : Z) (bs : list blk) : Z :=
  match bs with [] => p | (n, _) :: bs => endp (p + n) bs end.
Fixpoint lasth (p pr : Z) (bs : list blk) : Z :=
  match bs with [] => pr | (n, _) :: bs => lasth (p + n) p bs end.
Definition well (b : blk) : Prop := SIZEOF_STRUCT_MEM + MIN_SIZE_ALIGNED <= fst b /\ fst b mod 4 = 0.

(** No two free blocks in a row. *)
Fixpoint spaced (pu : bool) (bs : list blk) : Prop :=
  match bs with [] => True | (_, u) :: bs => pu || u = true /\ spaced u bs end.
Definition lastu (pu : bool) (bs : list blk) : bool := from_option snd pu (last bs).

(** The offset of the first free block, or the end. *)
Fixpoint first_free (p : Z) (bs : list blk) : Z :=
  match bs with [] => p | (n, u) :: bs => if u then first_free (p + n) bs else p end.

Record tiled (h : heap) (bs : list blk) : Prop := {
  ti_seg : seg (ram h) 0 0 bs;
  ti_end : endp 0 bs = MEM_SIZE_ALIGNED;
  ti_last : m_next (mem_at h ram_end) = MEM_SIZE_ALIGNED /\ m_used (mem_at h ram_end) = 1;
  ti_well : Forall well bs
}.
Definition heap_ok (h : heap) (bs : list blk) : Prop :=
  tiled h bs /\ lfree h = first_free 0 bs /\ spaced true bs.

(** The offsets of the headers, the one at the end included. *)
Fixpoint heads (p : Z) (bs : list blk) : list Z :=
  p :: match bs with [] => [] | (n, _) :: bs => heads (p + n) bs end.

(** The blocks the clients hold: the pointer and the room behind it. *)
Fixpoint live (p : Z) (bs : list blk) : list (Z * Z) :=
  match bs with
  | [] => []
  | (n, u) :: bs =>
      (if u then [(p + SIZEOF_STRUCT_MEM, n - SIZEOF_STRUCT_MEM)] else []) ++ live (p + n) bs
  end.

Section Segments.
Implicit Types (r : gmap Z mem_hdr) (bs : list blk).

Lemma seg_app r p pr b1 b2 : seg r p pr (b1 ++ b2) <-> seg r p pr b1 /\ seg r (endp p b1) (lasth p pr b1) b2.
Proof. revert p pr; induction b1 as [| [n u] b1 IH]; intros p pr; cbn; [tauto |]. rewrite IH. tauto. Qed.

Lemma endp_app p b1 b2 : endp p (b1 ++ b2) = endp (endp p b1) b2.
Proof. revert p; induction b1 as [| [n u] b1 IH]; intros p; cbn; [done | apply IH]. Qed.

Lemma lasth_app p pr b1 b2 : lasth p pr (b1 ++ b2) = lasth (endp p b1) (lasth p pr b1) b2.
Proof. revert p pr; induction b1 as [| [n u] b1 IH]; intros p pr; cbn; [done | apply IH]. Qed.

Lemma live_app p b1 b2 : live p (b1 ++ b2) = live p b1 ++ live (endp p b1) b2.
Proof. revert p; induction b1 as [| [n u] b1 IH]; intros p; cbn; [done |]. by rewrite IH, app_assoc. Qed.

Lemma endp_le p bs : Forall well bs -> p <= endp p bs.
Proof.
  intros H; revert p; induction H as [| [n u] bs [Hn _] H IH]; intros p; cbn in *; [lia |].
  specialize (IH (p + n)). unfold SIZEOF_STRUCT_MEM, MIN_SIZE_ALIGNED in Hn. lia.
Qed.

Lemma endp_len p bs : Forall well bs -> p + 20 * Z.of_nat (length bs) <= endp p bs.
Proof.
  intros H; revert p; induction H as [| [n u] bs [Hn _] H IH]; intros p; cbn [endp length fst] in *; [lia |].
  specialize (IH (p + n)). unfold SIZEOF_STRUCT_MEM, MIN_SIZE_ALIGNED in Hn. lia.
Qed.

Lemma endp_mod p bs : Forall well bs -> p mod 4 = 0 -> endp p bs mod 4 = 0.
Proof.
  intros H; revert p; induction H as [| [n u] bs [_ Hn] H IH]; intros p Hp; cbn in *; [done |].
  apply IH. rewrite Z.add_mod, Hp, Hn by lia. done.
Qed.

Lemma lasth_range p pr bs : Forall well bs -> pr <= p -> lasth p pr bs <= endp p bs /\ pr <= lasth p pr bs.
Proof.
  intros H; revert p pr; induction H as [| [n u] bs [Hn _] H IH]; intros p pr Hp; cbn in *; [lia |].
  unfold SIZEOF_STRUCT_MEM, MIN_SIZE_ALIGNED in Hn. destruct (IH (p + n) p); lia.
Qed.

(** Headers elsewhere do not matter. *)
Lemma seg_ext r r' p pr bs : Forall well bs -> (forall k, p <= k < endp p bs -> r' !!! k = r !!! k) ->
  seg r p pr bs -> seg r' p pr bs.
Proof.
  intros H; revert p pr; induction H as [| [n u] bs [Hn _] H IH]; intros p pr Hk; cbn in *; [done |].
  pose proof (endp_le (p + n) bs H). unfold SIZEOF_STRUCT_MEM, MIN_SIZE_ALIGNED in Hn.
  intros [E Hs]. split; [by rewrite Hk by lia |]. apply IH; [| done]. intros k ?. apply Hk. lia.
Qed.

Lemma seg_insert r k m p pr bs : Forall well bs -> k < p \/ endp p bs <= k -> seg r p pr bs -> seg (<[k := m]> r) p pr bs.
Proof. intros Hw Hk. apply seg_ext; [done |]. intros j Hj. apply lookup_total_insert_ne. lia. Qed.

(** The first block gets another predecessor. *)
Lemma seg_relink r p pr pr' bs : Forall well bs -> seg r p pr bs ->
  seg (<[p := set_prev pr' (r !!! p)]> r) p pr' bs.
Proof.
  destruct bs as [| [n u] bs]; [done |]. intros [[Hn _] H]%Forall_cons [E Hs]. cbn in *.
  unfold SIZEOF_STRUCT_MEM, MIN_SIZE_ALIGNED in Hn. split.
  - by rewrite lookup_total_insert_eq, E.
  - apply seg_insert; [done | lia | done].
Qed.

Lemma first_free_app p b1 b2 :
  first_free p (b1 ++ b2) = if forallb snd b1 then first_free (endp p b1) b2 else first_free p b1.
Proof. revert p; induction b1 as [| [n []] b1 IH]; intros p; cbn; [done | apply IH | done]. Qed.

Lemma first_free_le p bs : Forall well bs -> p <= first_free p bs <= endp p bs.
Proof.
  intros H; revert p; induction H as [| [n u] bs [Hn _] H IH]; intros p; cbn in *; [lia |].
  pose proof (endp_le (p + n) bs H). unfold SIZEOF_STRUCT_MEM, MIN_SIZE_ALIGNED in Hn. destruct u; [| lia].
  specialize (IH (p + n)). lia.
Qed.

(** The first free block is in the list, or the list is all used. *)
Lemma first_free_lt p bs : Forall well bs -> forallb snd bs = false -> first_free p bs < endp p bs.
Proof.
  intros H; revert p; induction H as [| [n u] bs [Hn _] H IH]; intros p; cbn in *; [done |].
  pose proof (endp_le (p + n) bs H). unfold SIZEOF_STRUCT_MEM, MIN_SIZE_ALIGNED in Hn. destruct u; [apply IH | lia].
Qed.

Lemma first_free_used p bs : forallb snd bs = true -> first_free p bs = endp p bs.
Proof. revert p; induction bs as [| [n []] bs IH]; intros p; cbn; [done | apply IH | done]. Qed.

Lemma spaced_app pu b1 b2 : spaced pu (b1 ++ b2) <-> spaced pu b1 /\ spaced (lastu pu b1) b2.
Proof.
  revert pu; induction b1 as [| [n u] b1 IH]; intros pu; [cbn; tauto |]. cbn [spaced app]. rewrite IH.
  assert (E : lastu pu ((n, u) :: b1) = lastu u b1) by (unfold lastu; rewrite last_cons; by destruct (last b1)).
  rewrite E. cbn [spaced]. tauto.
Qed.

Lemma lastu_snoc pu b1 n u : lastu pu (b1 ++ [(n, u)]) = u.
Proof. unfold lastu. by rewrite last_snoc. Qed.

(** A block held by a client splits the list. *)
Lemma live_split p bs q n : (q, n) ∈ live p bs -> exists b1 b2,
  bs = b1 ++ (n + SIZEOF_STRUCT_MEM, true) :: b2 /\ q = endp p b1 + SIZEOF_STRUCT_MEM.
Proof.
  revert p; induction bs as [| [m u] bs IH]; intros p; cbn [live]; [intros ?%not_elem_of_nil; done |].
  intros [Hin | Hin]%elem_of_app.
  - destruct u; [| by apply not_elem_of_nil in Hin]. apply list_elem_of_singleton in Hin as [= -> ->].
    exists [], bs. cbn. split; [f_equal; f_equal; lia | done].
  - destruct (IH _ Hin) as (b1 & b2 & -> & ->). by exists ((m, u) :: b1), b2.
Qed.

Lemma live_bounds p bs q n : Forall well bs -> (q, n) ∈ live p bs ->
  p + SIZEOF_STRUCT_MEM <= q /\ q + n <= endp p bs /\ MIN_SIZE_ALIGNED <= n.
Proof.
  intros Hw Hin. destruct (live_split _ _ _ _ Hin) as (b1 & b2 & -> & ->).
  apply Forall_app in Hw as [H1 [[Hn _] H2]%Forall_cons]. rewrite endp_app. cbn in *.
  pose proof (endp_le p b1 H1). pose proof (endp_le (endp p b1 + (n + SIZEOF_STRUCT_MEM)) b2 H2).
  unfold SIZEOF_STRUCT_MEM, MIN_SIZE_ALIGNED in *. lia.
Qed.
End Segments.

(** ** The three changes of the block list *)

(** Only the headers at [ks] change. *)
Definition frame (h h' : heap) (ks : list Z) : Prop := forall k, k ∉ ks -> mem_at h' k = mem_at h k.

Section Changes.
Implicit Types (h : heap) (b : list blk).

Lemma heads_app p b1 b2 k : k ∈ heads (endp p b1) b2 -> k ∈ heads p (b1 ++ b2).
Proof. revert p; induction b1 as [| [n u] b1 IH]; intros p Hk; cbn; [done |]. right. by apply IH. Qed.

Lemma heads_here p b : p ∈ heads p b.
Proof. destruct b as [| [n u] b]; left. Qed.

Lemma mem_at_upd p f h k : mem_at (upd_mem p f h) k = if decide (p = k) then f (mem_at h k) else mem_at h k.
Proof.
  unfold mem_at, upd_mem. cbn. destruct (decide (p = k)) as [<- |]; [apply lookup_total_insert_eq | by apply lookup_total_insert_ne].
Qed.

Lemma tiled_at h b1 n u b2 : tiled h (b1 ++ (n, u) :: b2) ->
  mem_at h (endp 0 b1) = mk_mem (endp 0 b1 + n) (lasth 0 0 b1) (Z.b2z u) /\ well (n, u)
  /\ 0 <= endp 0 b1 /\ endp 0 b1 + n <= MEM_SIZE_ALIGNED /\ endp (endp 0 b1 + n) b2 = MEM_SIZE_ALIGNED.
Proof.
  intros [Hs He _ Hw]. apply seg_app in Hs as [_ [E _]]. apply Forall_app in Hw as [H1 [Hn H2]%Forall_cons].
  rewrite endp_app in He. cbn [endp] in He. pose proof (endp_le 0 b1 H1). pose proof (endp_le (endp 0 b1 + n) b2 H2).
  split; [exact E |]. split; [done |]. lia.
Qed.

(** The header after a block. *)
Lemma tiled_next h b1 n u b2 : tiled h (b1 ++ (n, u) :: b2) ->
  match b2 with
  | [] => endp 0 b1 + n = ram_end /\ m_used (mem_at h (endp 0 b1 + n)) = 1
  | (m, v) :: _ => endp 0 b1 + n < ram_end
      /\ mem_at h (endp 0 b1 + n) = mk_mem (endp 0 b1 + n + m) (endp 0 b1) (Z.b2z v)
  end.
Proof.
  intros Ht. pose proof (tiled_at _ _ _ _ _ Ht) as (_ & _ & _ & _ & He).
  destruct b2 as [| [m v] b2]; cbn [endp] in He.
  - split; [done |]. rewrite He. apply Ht.
  - destruct Ht as [Hs _ _ Hw]. apply seg_app in Hs as [_ [_ [E _]]].
    apply Forall_app in Hw as [_ [_ [[Hm _] H2]%Forall_cons]%Forall_cons].
    pose proof (endp_le (endp 0 b1 + n + m) b2 H2). unfold ram_end, SIZEOF_STRUCT_MEM, MIN_SIZE_ALIGNED in *.
    cbn [fst] in Hm. split; [lia | exact E].
Qed.

(** Marking a block. *)
Lemma mark_tiled h b1 n u u' b2 : tiled h (b1 ++ (n, u) :: b2) ->
  let h' := upd_mem (endp 0 b1) (set_used (Z.b2z u')) h in
  tiled h' (b1 ++ (n, u') :: b2) /\ frame h h' (heads 0 (b1 ++ (n, u) :: b2)).
Proof.
  intros Ht. destruct (tiled_at _ _ _ _ _ Ht) as (E & Hn & H0 & Hle & He). destruct Ht as [Hs He' Hl Hw].
  apply Forall_app in Hw as Hw'. destruct Hw' as [H1 [_ H2]%Forall_cons]. cbn zeta.
  unfold well, SIZEOF_STRUCT_MEM, MIN_SIZE_ALIGNED in Hn. cbn [fst] in Hn. split; [split |].
  - apply seg_app in Hs as [Hs1 [_ Hs2]]. apply seg_app. split; [apply seg_insert; [done | lia | done] |].
    split; [| apply seg_insert; [done | lia | done]]. cbn. rewrite lookup_total_insert_eq, E. done.
  - rewrite endp_app in *. exact He'.
  - rewrite !mem_at_upd. unfold ram_end in *. destruct (decide _); [lia | done].
  - apply Forall_app. split; [done |]. by apply Forall_cons.
  - intros k Hk. rewrite mem_at_upd. destruct (decide _) as [<- |]; [| done].
    destruct Hk. apply heads_app, heads_here.
Qed.

(** Joining two free blocks, as [plug_holes] does. *)
Lemma join_tiled h b1 n m b2 : tiled h (b1 ++ (n, false) :: (m, false) :: b2) ->
  let p := endp 0 b1 in
  let h' := upd_mem (p + n + m) (set_prev p) (upd_mem p (set_next (p + n + m)) h) in
  tiled h' (b1 ++ (n + m, false) :: b2)
  /\ frame h h' (heads 0 (b1 ++ (n, false) :: (m, false) :: b2)).
Proof.
  intros Ht. destruct (tiled_at _ _ _ _ _ Ht) as (E & Hn & H0 & Hle & He). destruct Ht as [Hs He' Hl Hw].
  apply Forall_app in Hw as Hw'. destruct Hw' as [H1 [_ [Hm H2]%Forall_cons]%Forall_cons]. cbn zeta.
  unfold well, SIZEOF_STRUCT_MEM, MIN_SIZE_ALIGNED in Hn, Hm. cbn [fst] in Hn, Hm.
  cbn [endp] in He. pose proof (endp_le (endp 0 b1 + n + m) b2 H2) as Hb2. set (p := endp 0 b1) in *.
  split; [split |].
  - apply seg_app in Hs as [Hs1 [_ [_ Hs2]]]. apply seg_app. split.
    { apply seg_insert; [done | fold p; lia |]. apply seg_insert; [done | fold p; lia | done]. }
    fold p. split.
    + unfold upd_mem. cbn. rewrite lookup_total_insert_ne by lia. rewrite lookup_total_insert_eq, E.
      unfold set_next. cbn. f_equal. lia.
    + replace (p + (n + m)) with (p + n + m) by lia. apply (seg_relink _ _ (p + n)); [done |].
      apply seg_insert; [done | lia | exact Hs2].
  - rewrite endp_app. cbn [endp]. fold p. rewrite <- He. f_equal. lia.
  - rewrite !mem_at_upd. unfold ram_end in *. destruct (decide (p = _)); [lia |]. by destruct (decide _).
  - apply Forall_app. split; [done |]. apply Forall_cons. split; [| done]. split.
    + cbn. unfold SIZEOF_STRUCT_MEM, MIN_SIZE_ALIGNED. lia.
    + cbn. rewrite Z.add_mod by lia. destruct Hn as [_ ->], Hm as [_ ->]. done.
  - intros k Hk. rewrite !mem_at_upd. destruct (decide (p + n + m = k)) as [<- |].
    { destruct Hk. apply heads_app. fold p. right. right. apply heads_here. }
    destruct (decide _) as [<- |]; [| done]. destruct Hk. apply heads_app, heads_here.
Qed.

(** What [insert_free] writes: the two headers it names, and the back link of the
    block after them. *)
Lemma insert_free_at p q e h : p < q < e ->
  mem_at (insert_free p q e h) p = set_next q (mem_at h p) /\ mem_at (insert_free p q e h) q = mk_mem e p 0
  /\ (e = MEM_SIZE_ALIGNED -> mem_at (insert_free p q e h) e = mem_at h e)
  /\ forall k, k <> p -> k <> q -> k <> e -> mem_at (insert_free p q e h) k = mem_at h k.
Proof.
  intros H. set (h1 := upd_mem p (set_next q) (upd_mem q (fun _ => mk_mem e p 0) h)).
  assert (Eins : insert_free p q e h = if negb (e =? MEM_SIZE_ALIGNED) then upd_mem e (set_prev q) h1 else h1) by done.
  rewrite Eins. clear Eins.
  assert (Hat : forall k, (e = MEM_SIZE_ALIGNED \/ k <> e) ->
    mem_at (if negb (e =? MEM_SIZE_ALIGNED) then upd_mem e (set_prev q) h1 else h1) k = mem_at h1 k).
  { intros k [-> | Hk]; [by rewrite Z.eqb_refl |]. destruct (negb _); [| done]. rewrite mem_at_upd. by destruct (decide _). }
  split_and!; [.. | intros k Hp Hq He]; try (intros E); rewrite Hat by (auto || (right; lia)); unfold h1; rewrite mem_at_upd;
    (destruct (decide _); [try lia | try done]); rewrite mem_at_upd; (destruct (decide _); [try lia | try done]); done.
Qed.

Lemma insert_free_seg p q e h pr b2 : p < q < e -> Forall well b2 -> endp e b2 = MEM_SIZE_ALIGNED -> seg (ram h) e pr b2 ->
  seg (ram (insert_free p q e h)) e q b2.
Proof.
  intros H H2 He Hs. set (h1 := upd_mem p (set_next q) (upd_mem q (fun _ => mk_mem e p 0) h)).
  assert (Eins : insert_free p q e h = if negb (e =? MEM_SIZE_ALIGNED) then upd_mem e (set_prev q) h1 else h1) by done.
  rewrite Eins. clear Eins. destruct (Z.eqb_spec e MEM_SIZE_ALIGNED) as [Em | Em]; cbn [negb].
  - destruct b2 as [| [m v] b2]; [done |]. exfalso. cbn [endp] in He. apply Forall_cons in H2 as [[Hm _] H2]. cbn [fst] in Hm.
    pose proof (endp_le (e + m) b2 H2). unfold SIZEOF_STRUCT_MEM, MIN_SIZE_ALIGNED in Hm. lia.
  - apply (seg_relink _ _ pr); [done |]. refine (seg_ext _ _ _ _ _ H2 _ Hs). intros k Hk.
    change (mem_at h1 k = mem_at h k). unfold h1. rewrite !mem_at_upd. destruct (decide _); [lia |]. destruct (decide _); [lia | done].
Qed.

(** Cutting a block, and the free block after it if there is one, in two. *)
Lemma cut_tiled h b1 n u x a c b2 : tiled h (b1 ++ (n, u) :: x ++ b2) ->
  let p := endp 0 b1 in
  a + c = endp n x -> well (a, u) -> well (c, false) ->
  let h' := insert_free p (p + a) (p + a + c) h in
  tiled h' (b1 ++ (a, u) :: (c, false) :: b2)
  /\ frame h h' (heads 0 (b1 ++ (a, u) :: (c, false) :: b2))
  /\ lfree h' = lfree h.
Proof.
  intros Ht p Hac Ha Hc. destruct (tiled_at _ _ _ _ _ Ht) as (E & Hn & H0 & Hle & He). destruct Ht as [Hs He' Hl Hw].
  apply Forall_app in Hw as Hw'. destruct Hw' as [H1 [_ [_ H2]%Forall_app]%Forall_cons]. cbn zeta.
  fold p in E, H0, Hle, He. rewrite endp_app in He.
  assert (Ex : endp (p + n) x = p + a + c).
  { assert (G : forall y q, endp q y = q + endp 0 y).
    { clear. induction y as [| [m v] y IH]; intros q; cbn; [lia |]. rewrite IH, (IH (0 + m)). lia. }
    rewrite G. rewrite G in Hac. lia. }
  rewrite Ex in He. pose proof (endp_le (p + a + c) b2 H2) as Hb2.
  unfold well, SIZEOF_STRUCT_MEM, MIN_SIZE_ALIGNED in Hn, Ha, Hc. cbn [fst] in Hn, Ha, Hc.
  apply seg_app in Hs as [Hs1 [_ Hs2]]. apply seg_app in Hs2 as [_ Hs2]. fold p in Hs2. rewrite Ex in Hs2.
  assert (Hlt : p < p + a < p + a + c) by lia.
  destruct (insert_free_at _ _ _ h Hlt) as (Hp & Hq & Hend & Hat). pose proof (insert_free_seg _ _ _ h _ b2 Hlt H2 He Hs2) as Hs3.
  set (h' := insert_free _ _ _ _) in *. split; [split | split].
  - apply seg_app. split; [| fold p; split; [| split; [exact Hq | exact Hs3]]].
    + eapply seg_ext; [done | | exact Hs1]. intros k Hk. fold p in Hk. apply (Hat k); lia.
    + change (mem_at h' p = mk_mem (p + a) (lasth 0 0 b1) (Z.b2z u)). by rewrite Hp, E.
  - rewrite endp_app. cbn [endp]. fold p. exact He.
  - unfold ram_end in *. destruct (Z.eq_dec (p + a + c) MEM_SIZE_ALIGNED) as [Em | Em].
    + rewrite <- Em, (Hend Em), Em. exact Hl.
    + rewrite Hat by lia. exact Hl.
  - apply Forall_app. split; [done |]. apply Forall_cons. split; [done |]. by apply Forall_cons.
  - intros k Hk. assert (k <> p /\ k <> p + a /\ k <> p + a + c) as (? & ? & ?).
    { split_and!; intros ->; apply Hk, heads_app; fold p; [left | right; left | right; right; apply heads_here]. }
    by apply Hat.
  - unfold h', insert_free. by destruct (negb _).
Qed.
End Changes.

(** ** Freeing *)

Lemma frame_sub h h' ks ks' : frame h h' ks -> (forall k, k ∈ ks -> k ∈ ks') -> frame h h' ks'.
Proof. intros H Hs k Hk. apply H. auto. Qed.

Lemma frame_trans h1 h2 h3 ks : frame h1 h2 ks -> frame h2 h3 ks -> frame h1 h3 ks.
Proof. intros H1 H2 k Hk. by rewrite H2, H1. Qed.

Lemma heads_sub b1 x y p : (forall k, k ∈ heads (endp p b1) x -> k ∈ heads (endp p b1) y) ->
  forall k, k ∈ heads p (b1 ++ x) -> k ∈ heads p (b1 ++ y).
Proof.
  revert p; induction b1 as [| [n u] b1 IH]; intros p H k; cbn [app heads]; [apply H |].
  intros [-> | Hk]%elem_of_cons; [left | right]. by apply (IH (p + n)).
Qed.

Lemma join_heads p n m b2 k : k ∈ heads p ((n + m, false) :: b2) -> k ∈ heads p ((n, false) :: (m, false) :: b2).
Proof. cbn. rewrite Z.add_assoc. intros [-> | Hk]%elem_of_cons; [left | right; by right]. Qed.

Lemma first_free_hole p b1 n b2 : Forall well b1 ->
  first_free p (b1 ++ (n, false) :: b2) = (if forallb snd b1 then endp p b1 else first_free p b1)
  /\ first_free p (b1 ++ (n, false) :: b2) <= endp p b1.
Proof.
  intros Hw. rewrite first_free_app. cbn. destruct (forallb snd b1) eqn:E; [lia |].
  pose proof (first_free_lt p b1 Hw E). lia.
Qed.

Lemma plug_forward_spec h b1 n b2 : tiled h (b1 ++ (n, false) :: b2) ->
  lfree h = first_free 0 (b1 ++ (n, false) :: b2) ->
  let p := endp 0 b1 in let h' := plug_forward p h in
  exists n' b2', tiled h' (b1 ++ (n', false) :: b2') /\ lfree h' = lfree h
  /\ frame h h' (heads 0 (b1 ++ (n, false) :: b2))
  /\ (forall k, k ∈ heads 0 (b1 ++ (n', false) :: b2') -> k ∈ heads 0 (b1 ++ (n, false) :: b2))
  /\ live (p + n) b2 = live (p + n') b2' /\ (spaced true b2 -> spaced false b2').
Proof.
  intros Ht Hf p h'. destruct (tiled_at _ _ _ _ _ Ht) as (E & Hn & H0 & Hle & _). fold p in E, H0, Hle.
  pose proof (tiled_next _ _ _ _ _ Ht) as Hnx. fold p in Hnx. destruct Hn as [Hn _].
  unfold SIZEOF_STRUCT_MEM, MIN_SIZE_ALIGNED in Hn. cbn [fst] in Hn.
  assert (Hw1 : Forall well b1) by (destruct Ht as [_ _ _ Hw]; by apply Forall_app in Hw as [? _]).
  destruct (first_free_hole 0 b1 n b2 Hw1) as [_ Hff]. fold p in Hff.
  assert (Hkeep : h' = h -> (b2 = [] \/ exists m b, b2 = (m, true) :: b) -> exists n' b2',
    tiled h' (b1 ++ (n', false) :: b2') /\ lfree h' = lfree h /\ frame h h' (heads 0 (b1 ++ (n, false) :: b2))
    /\ (forall k, k ∈ heads 0 (b1 ++ (n', false) :: b2') -> k ∈ heads 0 (b1 ++ (n, false) :: b2))
    /\ live (p + n) b2 = live (p + n') b2' /\ (spaced true b2 -> spaced false b2')).
  { intros -> Hb. exists n, b2. split_and!; try done. by destruct Hb as [-> | (m & b & ->)]. }
  unfold h', plug_forward in *. rewrite E in *. cbn [m_next] in *.
  rewrite (proj2 (Z.eqb_neq p (p + n))) in * by lia. cbn [negb andb] in *.
  destruct b2 as [| [m v] b2].
  { destruct Hnx as [En Hu]. rewrite Hu in *. apply Hkeep; [done | by left]. }
  destruct Hnx as [Hlt E2]. rewrite E2 in *. cbn [m_used m_next] in *. unfold ram_end in *.
  rewrite (proj2 (Z.eqb_neq (p + n) _)) in * by lia. cbn [negb andb] in *. rewrite andb_true_r in *.
  destruct v; cbn [Z.b2z Z.eqb] in *; [apply Hkeep; [done | right; eauto] |].
  rewrite (proj2 (Z.eqb_neq (lfree h) (p + n))) by lia.
  destruct (join_tiled _ _ _ _ _ Ht) as [Hj Hfr]. fold p in Hj, Hfr.
  rewrite mem_at_upd. destruct (decide (p = p + n)); [lia |]. rewrite E2. cbn [m_next].
  assert (Hp : u16 p = p) by (apply u16_small; unfold is_u16, MEM_SIZE_ALIGNED in *; lia). rewrite Hp.
  exists (n + m), b2. split; [exact Hj |]. split; [done |]. split; [exact Hfr |]. split; [| split].
  - apply heads_sub. intros k. apply join_heads.
  - cbn. by rewrite Z.add_assoc.
  - by intros [_ ?].
Qed.

Lemma plug_backward_spec h b1 n b2 : tiled h (b1 ++ (n, false) :: b2) ->
  lfree h = first_free 0 (b1 ++ (n, false) :: b2) -> spaced true b1 ->
  let p := endp 0 b1 in let h' := plug_backward p h in
  exists b1' n', tiled h' (b1' ++ (n', false) :: b2) /\ lfree h' = first_free 0 (b1' ++ (n', false) :: b2)
  /\ frame h h' (heads 0 (b1 ++ (n, false) :: b2)) /\ live 0 b1 = live 0 b1' /\ endp 0 b1' + n' = p + n
  /\ spaced true b1' /\ lastu true b1' = true.
Proof.
  intros Ht Hf Hsp p h'. destruct (tiled_at _ _ _ _ _ Ht) as (E & [Hn _] & H0 & Hle & _). fold p in E, H0, Hle.
  unfold SIZEOF_STRUCT_MEM, MIN_SIZE_ALIGNED in Hn. cbn [fst] in Hn.
  assert (Hkeep : h' = h -> lastu true b1 = true -> exists b1' n', tiled h' (b1' ++ (n', false) :: b2)
    /\ lfree h' = first_free 0 (b1' ++ (n', false) :: b2)
    /\ frame h h' (heads 0 (b1 ++ (n, false) :: b2)) /\ live 0 b1 = live 0 b1' /\ endp 0 b1' + n' = p + n
    /\ spaced true b1' /\ lastu true b1' = true).
  { intros -> Hl. by exists b1, n. }
  unfold h', plug_backward in *. rewrite E in *. cbn [m_prev m_next] in *.
  destruct b1 as [| [k v] c1 _] using rev_ind; [by apply Hkeep |].
  assert (El : lasth 0 0 (c1 ++ [(k, v)]) = endp 0 c1) by (by rewrite lasth_app).
  assert (Ep : p = endp 0 c1 + k) by (unfold p; by rewrite endp_app). rewrite El, lastu_snoc in *.
  assert (Eapp : (c1 ++ [(k, v)]) ++ (n, false) :: b2 = c1 ++ (k, v) :: (n, false) :: b2) by (by rewrite <- app_assoc).
  rewrite Eapp in *. destruct (tiled_at _ _ _ _ _ Ht) as (E1 & [Hk _] & H1 & _ & _).
  unfold SIZEOF_STRUCT_MEM, MIN_SIZE_ALIGNED in Hk. cbn [fst] in Hk.
  rewrite (proj2 (Z.eqb_neq (endp 0 c1) p)) in * by lia. rewrite E1 in *. cbn [m_used negb andb] in *.
  destruct v; cbn [Z.b2z Z.eqb] in *; [by apply Hkeep |]. clear Hkeep.
  assert (Hw1 : Forall well c1) by (destruct Ht as [_ _ _ Hw]; by apply Forall_app in Hw as [? _]).
  destruct (first_free_hole 0 c1 k ((n, false) :: b2) Hw1) as [Hf1 Hf2].
  rewrite (proj2 (Z.eqb_neq (lfree h) p)) by lia.
  destruct (join_tiled _ _ _ _ _ Ht) as [Hj Hfr]. rewrite <- Ep in Hj, Hfr.
  rewrite mem_at_upd. destruct (decide (endp 0 c1 = p)); [lia |]. rewrite E. cbn [m_next].
  assert (Hp : u16 (endp 0 c1) = endp 0 c1) by (apply u16_small; unfold is_u16, MEM_SIZE_ALIGNED in *; lia). rewrite Hp.
  apply spaced_app in Hsp as [Hs1 [Hs2 _]]. rewrite orb_false_r in Hs2.
  exists c1, (k + n). split; [exact Hj |]. split.
  { change (lfree h = first_free 0 (c1 ++ (k + n, false) :: b2)). rewrite Hf, Hf1. symmetry. by apply first_free_hole. }
  split; [exact Hfr |]. split; [by rewrite live_app, app_nil_r |]. split; [lia |]. done.
Qed.

Lemma free_spec h bs q n : heap_ok h bs -> (q, n) ∈ live 0 bs ->
  let h' := mem_free (Some q) h in
  exists bs', heap_ok h' bs' /\ live 0 bs ≡ₚ (q, n) :: live 0 bs' /\ frame h h' (heads 0 bs).
Proof.
  intros (Ht & Hf & Hsp) Hq. destruct (live_split _ _ _ _ Hq) as (b1 & b2 & -> & ->).
  pose proof (live_bounds _ _ _ _ (ti_well _ _ Ht) Hq) as (Hq1 & Hq2 & Hn). rewrite (ti_end _ _ Ht) in Hq2.
  set (N := n + SIZEOF_STRUCT_MEM) in *. set (p := endp 0 b1) in *.
  assert (Hw : Forall well b1 /\ Forall well b2).
  { pose proof (ti_well _ _ Ht) as Hw. by apply Forall_app in Hw as [? [_ ?]%Forall_cons]. } destruct Hw as [Hw1 Hw2].
  apply spaced_app in Hsp as [Hs1 [_ Hs2]].
  destruct (mark_tiled h b1 N true false b2 Ht) as [Hm Hfm]. fold p in Hm, Hfm. cbn [Z.b2z] in Hm, Hfm.
  unfold mem_free. unfold SIZEOF_STRUCT_MEM, MIN_SIZE_ALIGNED, ram_end in *.
  rewrite (proj2 (Z.ltb_ge _ _)), (proj2 (Z.leb_gt _ _)) by lia. cbn [orb].
  replace (p + 8 - 8) with p by lia. set (h1 := upd_mem p (set_used 0) h) in *.
  set (h2 := if p <? lfree h1 then set_lfree p h1 else h1).
  assert (Hm2 : tiled h2 (b1 ++ (N, false) :: b2)) by (unfold h2; destruct (_ <? _); [destruct Hm; by split | done]).
  assert (Hf2 : lfree h2 = first_free 0 (b1 ++ (N, false) :: b2)).
  { destruct (first_free_hole 0 b1 N b2 Hw1) as [-> _]. fold p. unfold h2.
    change (lfree h1) with (lfree h). rewrite Hf, first_free_app. cbn [first_free]. fold p.
    destruct (forallb snd b1) eqn:Eb.
    - pose proof (first_free_le (p + N) b2 Hw2). rewrite (proj2 (Z.ltb_lt _ _)) by lia. done.
    - pose proof (first_free_lt 0 b1 Hw1 Eb). fold p in H. rewrite (proj2 (Z.ltb_ge _ _)) by lia.
      change (lfree h1) with (lfree h). by rewrite Hf, first_free_app, Eb. }
  destruct (plug_forward_spec h2 b1 N b2 Hm2 Hf2) as (n' & b2' & Ht3 & Hf3 & Hfr3 & Hsub & Hl3 & Hsp3). fold p in Ht3, Hf3, Hfr3, Hl3.
  set (h3 := plug_forward p h2) in *.
  assert (Hf3' : lfree h3 = first_free 0 (b1 ++ (n', false) :: b2')).
  { rewrite Hf3, Hf2. by rewrite !(proj1 (first_free_hole 0 b1 _ _ Hw1)). }
  destruct (plug_backward_spec h3 b1 n' b2' Ht3 Hf3' Hs1) as (b1' & n'' & Ht4 & Hf4 & Hfr4 & Hl4 & He4 & Hs4 & Hu4).
  fold p in Ht4, Hf4, Hfr4, He4. unfold plug_holes. fold h3. exists (b1' ++ (n'', false) :: b2'). split; [split; [exact Ht4 |] | split].
  - split; [exact Hf4 |]. apply spaced_app. split; [done |]. rewrite Hu4. split; [done | by apply Hsp3].
  - rewrite !live_app. cbn [live app]. fold p. rewrite He4, Hl4. unfold SIZEOF_STRUCT_MEM. rewrite <- Hl3.
    replace (N - 8) with n by lia. by rewrite <- Permutation_middle.
  - assert (Hhd : forall k, k ∈ heads 0 (b1 ++ (N, false) :: b2) -> k ∈ heads 0 (b1 ++ (N, true) :: b2))
      by (by apply heads_sub).
    eapply frame_trans; [eapply frame_trans |].
    + assert (Hfr2 : frame h h2 (heads 0 (b1 ++ (N, true) :: b2))) by (unfold h2; by destruct (_ <? _)). exact Hfr2.
    + eapply frame_sub; [exact Hfr3 | auto].
    + eapply frame_sub; [exact Hfr4 |]. auto.
Qed.

(** ** Allocation *)

Lemma request_size_spec size : is_u16 size -> MIN_SIZE_ALIGNED <= request_size size <= 65532
  /\ request_size size mod 4 = 0 /\ (size <= 65532 -> size <= request_size size < size + 4 \/ size < MIN_SIZE_ALIGNED /\ request_size size = MIN_SIZE_ALIGNED)
  /\ (65532 < size -> request_size size = MIN_SIZE_ALIGNED).
Proof.
  unfold is_u16, request_size, LWIP_MEM_ALIGN_SIZE, u16, MIN_SIZE_ALIGNED. intros Hs.
  destruct (Z.ltb_spec ((size + 3) / 4 * 4 mod 65536) 12); Z.div_mod_to_equations; lia.
Qed.

(** A block that satisfies a request of [size]. *)
Definition fits (size : Z) (b : blk) : bool := negb (snd b) && (size + SIZEOF_STRUCT_MEM <=? fst b).

(** The search finds the first block that fits. *)
Lemma search_spec h size : 0 < size -> m_next (mem_at h ram_end) = MEM_SIZE_ALIGNED ->
  forall bs fuel p pr, Forall well bs -> 0 <= p -> endp p bs = MEM_SIZE_ALIGNED -> seg (ram h) p pr bs ->
  (length bs < fuel)%nat ->
  (exists b1 b b2, bs = b1 ++ b :: b2 /\ fits size b = true /\ Forall (fun b => fits size b = false) b1
     /\ malloc_search fuel p size h = Some (endp p b1))
  \/ (Forall (fun b => fits size b = false) bs /\ malloc_search fuel p size h = None).
Proof.
  intros Hsz _. induction bs as [| [n u] bs IH]; intros [| fuel] p pr Hw Hp He Hs Hl; cbn [length] in Hl; try lia; cbn [malloc_search].
  - right. split; [constructor |]. cbn in He. rewrite (proj2 (Z.ltb_ge _ _)) by lia. done.
  - apply Forall_cons in Hw as [[Hn Hn4] Hw]. cbn [fst] in Hn, Hn4. destruct Hs as [E Hs]. cbn [endp] in He.
    pose proof (endp_le (p + n) bs Hw) as Hle. rewrite He in Hle. unfold mem_at. rewrite E. cbn [m_used m_next].
    unfold SIZEOF_STRUCT_MEM, MIN_SIZE_ALIGNED, MEM_SIZE_ALIGNED in *.
    assert (Eu : u32 (p + n - (p + 8)) = n - 8) by (rewrite u32_small; unfold is_u32; lia). rewrite Eu.
    assert (Efit : (Z.b2z u =? 0) && (size <=? n - 8) = fits size (n, u)).
    { unfold fits, SIZEOF_STRUCT_MEM. cbn. destruct u; [done |]. cbn. destruct (Z.leb_spec size (n - 8)), (Z.leb_spec (size + 8) n); lia || done. }
    rewrite Efit. destruct (fits size (n, u)) eqn:Ef.
    + left. exists [], (n, u), bs. split; [done |]. split; [done |]. split; [constructor |].
      unfold fits, SIZEOF_STRUCT_MEM in Ef. cbn in Ef. apply andb_true_iff in Ef as [_ Ef%Z.leb_le].
      rewrite (proj2 (Z.ltb_lt _ _)) by lia. done.
    + destruct (Z.ltb_spec p (30720 - size)) as [Hlt | Hge].
      * destruct (IH fuel (p + n) p Hw ltac:(lia) He Hs ltac:(lia)) as [(b1 & b & b2 & -> & Hb & Hb1 & ->) | [Hall ->]].
        -- left. exists ((n, u) :: b1), b, b2. split_and!; try done. by apply Forall_cons.
        -- right. split; [by apply Forall_cons | done].
      * right. split; [| done]. apply Forall_cons. split; [done |].
        assert (Hs2 : forall bs q, Forall well bs -> 30720 - size <= q -> endp q bs = 30720 -> Forall (fun b => fits size b = false) bs).
        { clear. induction bs as [| [n u] bs IH]; intros q Hw Hq He; [constructor |].
          apply Forall_cons in Hw as [[Hn _] Hw]. cbn [fst endp] in *. pose proof (endp_le (q + n) bs Hw).
          unfold SIZEOF_STRUCT_MEM, MIN_SIZE_ALIGNED in Hn.
          apply Forall_cons. split; [| apply (IH (q + n)); [done | lia | done]].
          unfold fits, SIZEOF_STRUCT_MEM. cbn [fst]. rewrite (proj2 (Z.leb_gt _ _)) by lia. apply andb_false_r. }
        apply (Hs2 bs (p + n)); [done | lia | done].
Qed.

Lemma next_free_spec h : m_used (mem_at h ram_end) = 1 -> forall bs fuel p pr, Forall well bs ->
  endp p bs = MEM_SIZE_ALIGNED -> seg (ram h) p pr bs -> (length bs < fuel)%nat ->
  next_free fuel p h = first_free p bs.
Proof.
  intros Hu. induction bs as [| [n u] bs IH]; intros [| fuel] p pr Hw He Hs Hl; cbn [length] in Hl; try lia; cbn [next_free].
  - cbn [endp] in He. subst p. fold ram_end. rewrite Hu, Z.eqb_refl. done.
  - apply Forall_cons in Hw as [[Hn _] Hw]. destruct Hs as [E Hs]. cbn [endp fst] in *.
    pose proof (endp_le (p + n) bs Hw). unfold mem_at at 1 2. rewrite E. cbn [m_used m_next first_free].
    unfold SIZEOF_STRUCT_MEM, MIN_SIZE_ALIGNED, ram_end in *. rewrite (proj2 (Z.eqb_neq p _)) by lia.
    destruct u; [| done]. cbn. eapply IH; [done | done | exact Hs | lia].
Qed.

Lemma first_free_split p bs : exists b0 b', bs = b0 ++ b' /\ forallb snd b0 = true /\ first_free p bs = endp p b0.
Proof.
  revert p; induction bs as [| [n []] bs IH]; intros p; cbn [first_free].
  - by exists [], [].
  - destruct (IH (p + n)) as (b0 & b' & -> & Hu & E). exists ((n, true) :: b0), b'. by split_and!.
  - by exists [], ((n, false) :: bs).
Qed.

Lemma spaced_true bs : spaced false bs -> spaced true bs.
Proof. destruct bs as [| [n u] bs]; [done |]. by intros [_ ?]. Qed.

Lemma heads_mark n u u' b1 b2 k : k ∈ heads 0 (b1 ++ (n, u) :: b2) -> k ∈ heads 0 (b1 ++ (n, u') :: b2).
Proof. by apply heads_sub. Qed.

Lemma fuel_enough bs : Forall well bs -> endp 0 bs = MEM_SIZE_ALIGNED -> (length bs < heap_fuel)%nat.
Proof. intros Hw He. pose proof (endp_len 0 bs Hw) as H. rewrite He in H. unfold MEM_SIZE_ALIGNED, heap_fuel in *. lia. Qed.

(** The block chosen becomes used; the rest of it stays free if it can hold
    anything. *)
Lemma take_block h b1 n b2 size : heap_ok h (b1 ++ (n, false) :: b2) ->
  MIN_SIZE_ALIGNED <= size -> size mod 4 = 0 -> size + SIZEOF_STRUCT_MEM <= n ->
  let ptr := endp 0 b1 in
  let h1 := if size + SIZEOF_STRUCT_MEM + MIN_SIZE_ALIGNED <=? u32 (ptr + n - (ptr + SIZEOF_STRUCT_MEM))
            then upd_mem ptr (set_used 1) (insert_free ptr (u16 (ptr + SIZEOF_STRUCT_MEM + size)) (ptr + n) h)
            else upd_mem ptr (set_used 1) h in
  exists a rest, tiled h1 (b1 ++ (a, true) :: rest) /\ lfree h1 = lfree h /\ size + SIZEOF_STRUCT_MEM <= a
  /\ frame h h1 (heads 0 (b1 ++ (a, true) :: rest)) /\ live (ptr + a) rest = live (ptr + n) b2
  /\ spaced true (b1 ++ (a, true) :: rest).
Proof.
  intros (Ht & _ & Hsp) Hmin H4 Hfit ptr. destruct (tiled_at _ _ _ _ _ Ht) as (_ & [Hn Hn4] & H0 & Hle & _).
  fold ptr in H0, Hle. apply spaced_app in Hsp as (Hs1 & Hu & Hs2). rewrite orb_false_r in Hu. cbn [fst] in Hn, Hn4.
  unfold SIZEOF_STRUCT_MEM, MIN_SIZE_ALIGNED, MEM_SIZE_ALIGNED in *. cbn zeta.
  assert (Eu : u32 (ptr + n - (ptr + 8)) = n - 8) by (rewrite u32_small; unfold is_u32; lia). rewrite Eu.
  destruct (Z.leb_spec (size + 8 + 12) (n - 8)) as [Hbig | Hsmall].
  - assert (Ep : u16 (ptr + 8 + size) = ptr + (size + 8)) by (rewrite u16_small; unfold is_u16; lia). rewrite Ep.
    destruct (cut_tiled h b1 n false [] (size + 8) (n - (size + 8)) b2 Ht) as (Hc & Hfr & Hlf).
    { cbn [endp]. lia. }
    { split; cbn; unfold SIZEOF_STRUCT_MEM, MIN_SIZE_ALIGNED; Z.div_mod_to_equations; lia. }
    { split; cbn; unfold SIZEOF_STRUCT_MEM, MIN_SIZE_ALIGNED; Z.div_mod_to_equations; lia. }
    fold ptr in Hc, Hfr, Hlf. replace (ptr + (size + 8) + (n - (size + 8))) with (ptr + n) in Hc, Hfr, Hlf by lia.
    destruct (mark_tiled _ _ _ _ true _ Hc) as [Hm Hfm]. fold ptr in Hm, Hfm.
    exists (size + 8), ((n - (size + 8), false) :: b2). split; [exact Hm |]. split; [exact Hlf |]. split; [lia |]. split; [| split].
    + eapply frame_trans; [eapply frame_sub; [exact Hfr |] | eapply frame_sub; [exact Hfm |]]; intros k; apply heads_mark.
    + cbn [live app]. f_equal. lia.
    + apply spaced_app. split; [done |]. by rewrite Hu.
  - destruct (mark_tiled _ _ _ _ true _ Ht) as [Hm Hfm]. fold ptr in Hm, Hfm.
    exists n, b2. split; [exact Hm |]. split; [done |]. split; [lia |]. split; [eapply frame_sub; [exact Hfm | intros k; apply heads_mark] |].
    split; [done |]. apply spaced_app. split; [done |]. split; [apply orb_true_r | by apply spaced_true].
Qed.

Lemma heap_fuel_S : exists f, heap_fuel = S f.
Proof. by eexists. Qed.

#[local] Opaque heap_fuel.

(** The lowest free block after a block was taken, and how [mem_malloc] finds it. *)
Lemma first_free_taken c1 n b2 a rest e : Forall well c1 -> first_free 0 (c1 ++ (n, false) :: b2) = e ->
  first_free 0 (c1 ++ (a, true) :: rest) = if endp 0 c1 =? e then first_free (endp 0 c1 + a) rest else e.
Proof.
  intros Hwc <-. rewrite first_free_app. cbn [first_free]. pose proof (first_free_hole 0 c1 n b2 Hwc) as [Eh _].
  destruct (forallb snd c1) eqn:Ec; [by rewrite Eh, Z.eqb_refl |].
  pose proof (first_free_lt 0 c1 Hwc Ec) as Hlt. rewrite Eh, (proj2 (Z.eqb_neq _ _)) by lia. done.
Qed.
Lemma next_free_taken h c1 a rest : tiled h (c1 ++ (a, true) :: rest) ->
  next_free heap_fuel (endp 0 c1) h = first_free (endp 0 c1 + a) rest.
Proof.
  intros [Hs He [_ Hu] Hw]. apply seg_app in Hs as [_ Hs]. pose proof (fuel_enough _ Hw He) as Hl. rewrite length_app in Hl.
  apply Forall_app in Hw as [_ Hw]. rewrite endp_app in He.
  by rewrite (next_free_spec h Hu ((a, true) :: rest) heap_fuel (endp 0 c1) (lasth 0 0 c1) Hw He Hs) by lia.
Qed.

Lemma malloc_spec h bs size r h' : heap_ok h bs -> is_u16 size -> mem_malloc size h = (r, h') ->
  match r with
  | Some q => exists bs' n, heap_ok h' bs' /\ live 0 bs' ≡ₚ (q, n) :: live 0 bs /\ request_size size <= n
      /\ frame h h' (heads 0 bs')
  | None => h' = h /\ (size = 0 \/ Forall (fun b => fits (request_size size) b = false) bs)
  end.
Proof.
  intros Hok Hsize. pose proof Hok as (Ht & Hf & Hsp). unfold mem_malloc.
  destruct (Z.eqb_spec size 0) as [-> | Hnz]; [intros [= <- <-]; auto |].
  destruct (request_size_spec size Hsize) as ([Hmin _] & H4 & _). set (rs := request_size size) in *.
  pose proof Ht as [Hs He [Hnx Hend] Hw].
  destruct (Z.ltb_spec MEM_SIZE_ALIGNED rs) as [Hbig | Hle].
  { intros [= <- <-]. split; [done |]. right. apply Forall_forall. intros [n u] Hin.
    apply list_elem_of_split in Hin as (l1 & l2 & ->). destruct (tiled_at _ _ _ _ _ Ht) as (_ & _ & ? & ? & _).
    unfold fits, SIZEOF_STRUCT_MEM in *. cbn [fst]. rewrite (proj2 (Z.leb_gt _ _)) by lia. apply andb_false_r. }
  destruct (first_free_split 0 bs) as (b0 & b' & -> & Hu0 & Ef). rewrite Ef in Hf.
  pose proof Hs as Hs'. apply seg_app in Hs' as [Hs0 Hs'].
  pose proof Hw as Hw'. apply Forall_app in Hw' as [Hw0 Hw'].
  assert (Hlen : (length b' < heap_fuel)%nat).
  { pose proof (fuel_enough _ Hw He) as Hl. rewrite length_app in Hl. lia. }
  assert (Hfit0 : Forall (fun b => fits rs b = false) b0).
  { apply Forall_forall. intros [n u] Hin%list_elem_of_In. rewrite List.forallb_forall in Hu0. apply Hu0 in Hin.
    cbn in Hin. subst u. done. }
  pose proof (endp_le 0 b0 Hw0) as H00.
  destruct (search_spec h rs ltac:(unfold MIN_SIZE_ALIGNED in *; lia) Hnx b' heap_fuel (endp 0 b0) (lasth 0 0 b0) Hw' H00
     ltac:(by rewrite <- endp_app) Hs' Hlen) as [(b1 & [n u] & b2 & -> & Hfit & _ & E) | [Hall E]]; rewrite Hf, E.
  2: { intros [<- <-]%pair_equal_spec. split; [done |]. right. by apply Forall_app. }
  unfold fits in Hfit. cbn [fst snd] in Hfit. apply andb_true_iff in Hfit as [Hu Hfit%Z.leb_le].
  destruct u; [done |]. rewrite <- endp_app. rewrite app_assoc in *. set (c1 := b0 ++ b1) in *.
  destruct (tiled_at _ _ _ _ _ Ht) as (Em & _ & H0 & Hle1 & _). rewrite Em. cbn [m_next].
  set (ptr := endp 0 c1) in *.
  destruct (take_block h c1 n b2 rs Hok Hmin H4 Hfit) as (a & rest & Ht1 & Hlf1 & Ha & Hfr1 & Hl1 & Hsp1).
  fold ptr in Ht1, Hlf1, Hfr1, Hl1. set (h1 := if _ <=? _ then _ else _) in *.
  intros [<- <-]%pair_equal_spec. rewrite Hlf1, Hf.
  assert (Hwc : Forall well c1) by (by apply Forall_app in Hw as [? _]).
  pose proof (first_free_taken c1 n b2 a rest _ Hwc Ef) as Eff. fold ptr in Eff.
  exists (c1 ++ (a, true) :: rest), (a - SIZEOF_STRUCT_MEM). split_and!.
  - destruct (Z.eqb_spec ptr (endp 0 b0)) as [Ep | Ep]; (split; [| split; [| exact Hsp1]]); try exact Ht1.
    + destruct Ht1. by split.
    + cbn. rewrite Eff, <- Ep. exact (next_free_taken _ _ _ _ Ht1).
    + by rewrite Eff, Hlf1, Hf.
  - rewrite !live_app. cbn [live app]. fold ptr. rewrite Hl1. by rewrite <- Permutation_middle.
  - lia.
  - by destruct (ptr =? endp 0 b0).
Qed.

(** ** Shrinking *)

Lemma spaced_used bs : match bs with (_, false) :: _ => False | _ => True end -> spaced true bs -> spaced false bs.
Proof. destruct bs as [| [n []] bs]; [done | | done]. by intros _ [_ ?]. Qed.

(** The part cut off a used block. *)
Lemma cut_block h b1 n x b2 lf a c : tiled h (b1 ++ (n, true) :: x ++ b2) -> lfree h = first_free 0 (b1 ++ (n, true) :: x ++ b2) ->
  spaced true b1 -> spaced false b2 -> let p := endp 0 b1 in
  a + c = endp n x -> well (a, true) -> well (c, false) -> live (p + n) x = [] ->
  lf = (if forallb snd b1 then p + a else lfree h) ->
  let h' := insert_free p (p + a) (p + a + c) (set_lfree lf h) in
  let bs' := b1 ++ (a, true) :: (c, false) :: b2 in
  heap_ok h' bs' /\ frame h h' (heads 0 bs')
  /\ live 0 bs' = live 0 b1 ++ (p + SIZEOF_STRUCT_MEM, a - SIZEOF_STRUCT_MEM) :: live (endp (p + n) x) b2.
Proof.
  intros Ht Hf Hs1 Hs2 p Hac Ha Hc Hx Hlf.
  assert (Ht' : tiled (set_lfree lf h) (b1 ++ (n, true) :: x ++ b2)) by (destruct Ht; by split).
  destruct (cut_tiled (set_lfree lf h) b1 n true x a c b2 Ht' Hac Ha Hc) as (Hc1 & Hfr & Hl). fold p in Hc1, Hfr, Hl.
  set (h' := insert_free _ _ _ _) in *. cbn zeta. split; [split; [exact Hc1 | split] | split].
  - rewrite Hl. cbn [set_lfree lfree]. rewrite Hlf, Hf, !first_free_app. cbn [first_free]. fold p. by destruct (forallb snd b1).
  - apply spaced_app. split; [done |]. cbn. rewrite orb_true_r. by split_and!.
  - exact Hfr.
  - rewrite live_app. cbn [live app]. fold p. f_equal. f_equal. f_equal.
    assert (G : forall y q, endp q y = q + endp 0 y).
    { clear. induction y as [| [m v] y IH]; intros q; cbn; [lia |]. rewrite IH, (IH (0 + m)). lia. }
    rewrite G in Hac |- *. lia.
Qed.

(** What a trim leaves: the block keeps between the size wanted and its own, the
    other blocks and the bytes of all are as they were. *)
Definition trimmed (h : heap) (bs : list blk) (q n rs : Z) (h' : heap) : Prop :=
  exists bs' n' L, heap_ok h' bs' /\ live 0 bs ≡ₚ (q, n) :: L /\ live 0 bs' ≡ₚ (q, n') :: L /\ rs <= n' <= n /\ frame h h' (heads 0 bs').

Lemma live_mid b1 N b2 :
  live 0 (b1 ++ (N, true) :: b2) ≡ₚ (endp 0 b1 + 8, N - 8) :: live 0 b1 ++ live (endp 0 b1 + N) b2.
Proof. rewrite live_app. cbn [live app]. unfold SIZEOF_STRUCT_MEM. by rewrite <- Permutation_middle. Qed.
Lemma trim_keep h b1 N b2 rs : heap_ok h (b1 ++ (N, true) :: b2) -> rs <= N - 8 ->
  trimmed h (b1 ++ (N, true) :: b2) (endp 0 b1 + 8) (N - 8) rs h.
Proof. intros Hok Hrs. eexists _, (N - 8), _. split; [exact Hok |]. split; [apply live_mid |]. split; [apply live_mid | by split; [lia |]]. Qed.

(** The rest of the block, with the free block [x] behind it if there is one, becomes
    a free block; [lf] is what [lfree] has become. *)
Lemma trim_cut h b1 N x b2 rs c lf e : heap_ok h (b1 ++ (N, true) :: x ++ b2) -> spaced false b2 -> rs + 8 + c = endp N x ->
  well (rs + 8, true) -> well (c, false) -> live (endp 0 b1 + N) x = [] ->
  lf = (if forallb snd b1 then endp 0 b1 + (rs + 8) else lfree h) -> rs <= N - 8 -> e = endp (endp 0 b1 + N) x ->
  trimmed h (b1 ++ (N, true) :: x ++ b2) (endp 0 b1 + 8) (N - 8) rs (insert_free (endp 0 b1) (endp 0 b1 + (rs + 8)) e (set_lfree lf h)).
Proof.
  intros (Ht & Hf & Hsp) Hs2 Hac Ha Hc Hx Hlf Hrs He. apply spaced_app in Hsp as [Hs1 _].
  assert (Ee : e = endp 0 b1 + (rs + 8) + c).
  { rewrite He. assert (G : forall y q, endp q y = q + endp 0 y) by (intros y; induction y as [| [m v] y IH]; intros q; cbn; [lia |]; rewrite IH, (IH (0 + m)); lia).
    rewrite G in Hac |- *. lia. }
  rewrite Ee. destruct (cut_block h b1 N x b2 lf (rs + 8) c Ht Hf Hs1 Hs2 Hac Ha Hc Hx Hlf) as (Hok & Hfr & Hl).
  eexists _, rs, _. split; [exact Hok |]. split; [rewrite live_mid, live_app, Hx; done |]. split; [| by split; [lia |]].
  rewrite Hl. unfold SIZEOF_STRUCT_MEM. replace (rs + 8 - 8) with rs by lia. by rewrite <- Permutation_middle.
Qed.

(** The two tests on [lfree]: a free block further down is found by either. *)
Lemma cut_lfree h b1 N b2 k : heap_ok h (b1 ++ (N, true) :: b2) -> 0 < k < N ->
  (if endp 0 b1 + k <? lfree h then set_lfree (endp 0 b1 + k) h else h) = set_lfree (if forallb snd b1 then endp 0 b1 + k else lfree h) h
  /\ (first_free (endp 0 b1 + N) b2 = endp 0 b1 + N ->
      (if lfree h =? endp 0 b1 + N then set_lfree (endp 0 b1 + k) h else h) = set_lfree (if forallb snd b1 then endp 0 b1 + k else lfree h) h).
Proof.
  intros (Ht & Hf & _) Hk. pose proof (ti_well _ _ Ht) as Hw. apply Forall_app in Hw as [Hw1 [_ Hw2]%Forall_cons].
  pose proof (first_free_le (endp 0 b1 + N) b2 Hw2) as Hfl. assert (Eh : set_lfree (lfree h) h = h) by (by destruct h).
  rewrite first_free_app in Hf. cbn [first_free] in Hf. destruct (forallb snd b1) eqn:Eb.
  - rewrite (proj2 (Z.ltb_lt _ _)) by lia. split; [done |]. intros E. by rewrite (proj2 (Z.eqb_eq _ _)) by lia.
  - pose proof (first_free_lt 0 b1 Hw1 Eb) as Hlt. rewrite (proj2 (Z.ltb_ge _ _)), (proj2 (Z.eqb_neq _ _)), Eh by lia. done.
Qed.

Lemma trim_spec h bs q n newsize r h' : heap_ok h bs -> (q, n) ∈ live 0 bs -> is_u16 newsize ->
  mem_trim q newsize h = (r, h') ->
  match r with
  | None => h' = h /\ n < request_size newsize
  | Some q' => q' = q /\ trimmed h bs q n (request_size newsize) h'
  end.
Proof.
  intros Hok Hq Hsize. pose proof Hok as (Ht & _ & Hsp). destruct (live_split _ _ _ _ Hq) as (b1 & b2 & -> & ->).
  pose proof (live_bounds _ _ _ _ (ti_well _ _ Ht) Hq) as (Hq1 & Hq2 & Hn). rewrite (ti_end _ _ Ht) in Hq2.
  destruct (tiled_at _ _ _ _ _ Ht) as (E & [Hn1 Hn2] & H0 & Hle & _). pose proof (tiled_next _ _ _ _ _ Ht) as Hnext.
  destruct (request_size_spec newsize Hsize) as ([Hmin _] & H4 & _). set (rs := request_size newsize) in *.
  apply spaced_app in Hsp as (_ & _ & Hs2). unfold mem_trim. fold rs. set (N := n + SIZEOF_STRUCT_MEM) in *. set (p := endp 0 b1) in *.
  unfold ram_end, SIZEOF_STRUCT_MEM, MIN_SIZE_ALIGNED, MEM_SIZE_ALIGNED in *. cbn [fst] in Hn1, Hn2. assert (EN : n = N - 8) by lia. clearbody N. subst n.
  destruct (Z.ltb_spec 30720 rs) as [Hbig | Hsmall]; [intros [= <- <-]; split; [done | lia] |].
  rewrite (proj2 (Z.ltb_ge _ _)), (proj2 (Z.leb_gt _ _)) by lia. cbn [orb].
  replace (p + 8 - 8) with p by lia. rewrite (u16_small p), E by (unfold is_u16; lia). cbn [m_next].
  replace (p + N - p - 8) with (N - 8) by lia. rewrite (u16_small (N - 8)) by (unfold is_u16; lia).
  destruct (Z.ltb_spec (N - 8) rs) as [Hlt | Hge]; [intros [= <- <-]; split; [done | lia] |].
  destruct (Z.eqb_spec rs (N - 8)) as [Heq | Hne]; [intros [= <- <-]; split; [done | by apply trim_keep] |].
  replace (p + 8 + rs) with (p + (rs + 8)) by lia. rewrite (u16_small (p + (rs + 8))) by (unfold is_u16; lia).
  assert (Hgap : rs + 4 <= N - 8) by (Z.div_mod_to_equations; lia).
  assert (Ha : well (rs + 8, true)) by (split; cbn; unfold SIZEOF_STRUCT_MEM, MIN_SIZE_ALIGNED; Z.div_mod_to_equations; lia).
  destruct (cut_lfree h b1 N b2 (rs + 8) Hok ltac:(lia)) as [Elt Eeq]. fold p in Elt, Eeq. rewrite Elt.
  destruct (m_used (mem_at h (p + N)) =? 0) eqn:Eu.
  - destruct b2 as [| [m v] b2]; [destruct Hnext as [_ Hu]; rewrite Hu in Eu; done |]. destruct Hnext as [_ E2]. rewrite E2 in Eu |- *. destruct v; [done |].
    cbn [m_next first_free] in *. rewrite Eeq by done. intros [= <- <-]. split; [done |].
    pose proof (ti_well _ _ Ht) as [_ [_ [[Hm Hm4] _]%Forall_cons]%Forall_cons]%Forall_app. cbn [fst] in Hm, Hm4. unfold SIZEOF_STRUCT_MEM, MIN_SIZE_ALIGNED in Hm.
    apply (trim_cut h b1 N [(m, false)] b2 rs (N + m - (rs + 8))); cbn [endp live app]; try done; try lia; [by destruct Hs2 |].
    split; cbn; unfold SIZEOF_STRUCT_MEM, MIN_SIZE_ALIGNED; Z.div_mod_to_equations; lia.
  - assert (Hb2 : match b2 with (_, false) :: _ => False | _ => True end).
    { destruct b2 as [| [m []] b2]; [done | done |]. destruct Hnext as [_ E2]. by rewrite E2 in Eu. }
    destruct (Z.leb_spec (rs + 8 + 12) (N - 8)) as [Hroom | Hno]; intros [= <- <-]; (split; [done |]); [| by apply trim_keep].
    apply (trim_cut h b1 N [] b2 rs (N - (rs + 8))); cbn [endp live app]; try done; try lia; [by apply spaced_used |].
    split; cbn; unfold SIZEOF_STRUCT_MEM, MIN_SIZE_ALIGNED; Z.div_mod_to_equations; lia.
Qed.

(** ** The contract *)

(** Two blocks with room for a header between them. *)
Definition before (x y : Z * Z) : Prop := fst x + snd x + SIZEOF_STRUCT_MEM <= fst y.
Definition apart (x y : Z * Z) : Prop := before x y \/ before y x.

(** What clients do; a write replaces what is at an offset of the array. *)
Inductive heap_op : Type :=
| Op_malloc (size : Z) | Op_free (q : Z) | Op_trim (q newsize : Z) | Op_write (k : Z) (m : mem_hdr).
Definition heap_exec (op : heap_op) (h : heap) : option Z * heap :=
  match op with
  | Op_malloc size => mem_malloc size h
  | Op_free q => (None, mem_free (Some q) h)
  | Op_trim q newsize => mem_trim q newsize h
  | Op_write k m => (None, upd_mem k (fun _ => m) h)
  end.

(** A client that holds [L] passes sizes of 16 bits that can be aligned, frees
    and shrinks what it holds, and writes, with any of the 8 bytes from [k] on,
    only into it. *)
Definition legal (L : list (Z * Z)) (op : heap_op) : Prop :=
  match op with
  | Op_malloc size => 0 <= size <= 65532
  | Op_free q => exists n, (q, n) ∈ L
  | Op_trim q newsize => (exists n, (q, n) ∈ L) /\ 0 <= newsize <= 65532
  | Op_write k _ => exists q n, (q, n) ∈ L /\ q - SIZEOF_STRUCT_MEM < k < q + n
  end.

(** What the heap promises: blocks the clients hold are aligned, inside the
    array, large enough and apart from each other. *)
Inductive spec_step (L : list (Z * Z)) : heap_op -> option Z -> list (Z * Z) -> Prop :=
| sp_grant size q n : 0 < size -> size <= n -> q mod MEM_ALIGNMENT = 0 -> SIZEOF_STRUCT_MEM <= q ->
    q + n <= MEM_SIZE_ALIGNED -> Forall (apart (q, n)) L -> spec_step L (Op_malloc size) (Some q) ((q, n) :: L)
| sp_refuse size : spec_step L (Op_malloc size) None L
| sp_free q n L' : L ≡ₚ (q, n) :: L' -> spec_step L (Op_free q) None L'
| sp_trim q n newsize n' L' : L ≡ₚ (q, n) :: L' -> newsize <= n' <= n ->
    spec_step L (Op_trim q newsize) (Some q) ((q, n') :: L')
| sp_trim_grow q n newsize : (q, n) ∈ L -> n < newsize + MEM_ALIGNMENT -> spec_step L (Op_trim q newsize) None L
| sp_write k m : spec_step L (Op_write k m) None L.

Definition heap_rel (h : heap) (L : list (Z * Z)) : Prop := exists bs, heap_ok h bs /\ live 0 bs ≡ₚ L.

Lemma live_ge p bs : Forall well bs -> Forall (fun x => p + SIZEOF_STRUCT_MEM <= fst x) (live p bs).
Proof.
  intros Hw. apply Forall_forall. intros [q n] Hin. cbn. by destruct (live_bounds _ _ _ _ Hw Hin).
Qed.

Lemma live_sorted p bs : Forall well bs -> StronglySorted before (live p bs).
Proof.
  intros Hw; revert p; induction Hw as [| [n u] bs [Hn _] Hw IH]; intros p; cbn [live]; [constructor |].
  destruct u; cbn [app]; [| apply IH]. constructor; [apply IH |].
  eapply Forall_impl; [exact (live_ge _ _ Hw) |]. intros x Hx. unfold before. cbn [fst snd] in *. lia.
Qed.

Lemma sorted_apart l x y : StronglySorted before l -> x ∈ l -> y ∈ l -> x = y \/ apart x y.
Proof.
  induction 1 as [| z l Hs IH Hz]; [intros ?%not_elem_of_nil; done |].
  rewrite Forall_forall in Hz. intros [-> | Hx]%elem_of_cons [-> | Hy]%elem_of_cons.
  - by left.
  - right. left. auto.
  - right. right. auto.
  - auto.
Qed.

Lemma live_NoDup p bs : Forall well bs -> NoDup (live p bs).
Proof.
  intros Hw; revert p; induction Hw as [| [n u] bs Hn Hw IH]; intros p; cbn [live]; [apply NoDup_nil_2 |].
  destruct u; cbn [app]; [| apply IH]. apply NoDup_cons. split; [| apply IH].
  intros Hin. pose proof (proj1 (Forall_forall _ _) (live_ge _ _ Hw) _ Hin) as Hx. cbn in Hx.
  destruct Hn as [Hn _]. cbn in Hn. unfold SIZEOF_STRUCT_MEM, MIN_SIZE_ALIGNED in *. lia.
Qed.

(** A new block is apart from the others, aligned and in the array. *)
Lemma live_new h bs q n L : heap_ok h bs -> live 0 bs ≡ₚ (q, n) :: L ->
  q mod MEM_ALIGNMENT = 0 /\ SIZEOF_STRUCT_MEM <= q /\ q + n <= MEM_SIZE_ALIGNED /\ Forall (apart (q, n)) L.
Proof.
  intros ([Hs He _ Hw] & _) Hp. assert (Hin : (q, n) ∈ live 0 bs) by (rewrite Hp; left).
  destruct (live_bounds _ _ _ _ Hw Hin) as (H1 & H2 & _). rewrite He in H2.
  split; [| split; [lia | split; [done |]]].
  - destruct (live_split _ _ _ _ Hin) as (b1 & b2 & -> & ->). apply Forall_app in Hw as [Hw1 _].
    pose proof (endp_mod 0 b1 Hw1 eq_refl) as H4. unfold MEM_ALIGNMENT, SIZEOF_STRUCT_MEM. rewrite Z.add_mod, H4 by lia. done.
  - apply Forall_forall. intros y Hy. pose proof (live_NoDup 0 bs Hw) as Hnd. rewrite Hp in Hnd.
    apply NoDup_cons in Hnd as [Hni _].
    destruct (sorted_apart _ (q, n) y (live_sorted 0 bs Hw)) as [<- | ?]; [exact Hin | rewrite Hp; by right | done | done].
Qed.

(** Headers are not in the room of a block. *)
Lemma heads_live p bs q n k : Forall well bs -> (q, n) ∈ live p bs -> k ∈ heads p bs ->
  k <= q - SIZEOF_STRUCT_MEM \/ q + n <= k.
Proof.
  intros Hw; revert p; induction Hw as [| [m u] bs Hm Hw IH]; intros p; cbn [live heads]; [intros ?%not_elem_of_nil; done |].
  pose proof (endp_le) as _. intros Hq Hk.
  assert (Hge : forall k, k ∈ heads (p + m) bs -> p + m <= k).
  { clear - Hw. revert p m. induction Hw as [| [n u] bs [Hn _] Hw IH]; intros p m k; cbn [heads].
    - intros [-> | ?%not_elem_of_nil]%elem_of_cons; [lia | done].
    - cbn in Hn. unfold SIZEOF_STRUCT_MEM, MIN_SIZE_ALIGNED in Hn.
      intros [-> | Hk%IH]%elem_of_cons; lia. }
  apply elem_of_app in Hq as [Hq | Hq].
  - destruct u; [| by apply not_elem_of_nil in Hq]. apply list_elem_of_singleton in Hq as [= -> ->].
    apply elem_of_cons in Hk as [-> | Hk%Hge]; lia.
  - apply elem_of_cons in Hk as [-> | Hk]; [| by apply (IH (p + m))].
    destruct (live_bounds _ _ _ _ Hw Hq) as (? & _). destruct Hm as [Hm _]. cbn in Hm.
    unfold SIZEOF_STRUCT_MEM, MIN_SIZE_ALIGNED in *. lia.
Qed.

Lemma mem_init_ok r : heap_ok (mem_init r) [(MEM_SIZE_ALIGNED, false)].
Proof.
  split; [split | split; done].
  - split; [| done]. unfold mem_init. cbn [ram]. by rewrite lookup_total_insert_ne, lookup_total_insert_eq.
  - done.
  - unfold mem_at, mem_init. cbn [ram]. by rewrite lookup_total_insert_eq.
  - apply Forall_singleton. by split.
Qed.

(** Writing into the room of a held block changes no header. *)
Lemma write_ok h bs q n k m : heap_ok h bs -> (q, n) ∈ live 0 bs -> q - SIZEOF_STRUCT_MEM < k < q + n ->
  heap_ok (upd_mem k (fun _ => m) h) bs.
Proof.
  intros ([Hs He Hl Hw] & Hf & Hsp) Hq Hk. split; [| done].
  assert (Hd : forall j, j ∈ heads 0 bs -> mem_at (upd_mem k (fun _ => m) h) j = mem_at h j).
  { intros j Hj. rewrite mem_at_upd. destruct (decide (k = j)) as [-> |]; [| done].
    destruct (heads_live _ _ _ _ _ Hw Hq Hj); lia. }
  split; [| done | | done].
  - assert (G : forall bs p pr, (forall j, j ∈ heads p bs -> mem_at (upd_mem k (fun _ => m) h) j = mem_at h j) ->
      seg (ram h) p pr bs -> seg (ram (upd_mem k (fun _ => m) h)) p pr bs); [| by apply G].
    clear. induction bs as [| [n u] bs IH]; intros p pr Hj; cbn [seg heads] in *; [done |].
    intros [E Hs]. split; [| apply IH; [| done]; intros j ?; apply Hj; by right].
    rewrite <- E. apply (Hj p). left.
  - rewrite Hd; [exact Hl |]. unfold ram_end. rewrite <- He. clear.
    generalize 0. induction bs as [| [n u] bs IH]; intros p; cbn; [left | right; apply IH].
Qed.

(** The calls on the blocks that clients hold. *)
Lemma rel_malloc h L size r h' : heap_rel h L -> is_u16 size -> mem_malloc size h = (r, h') ->
  match r with
  | Some o => exists n, heap_rel h' ((o, n) :: L) /\ request_size size <= n
  | None => h' = h
  end.
Proof.
  intros (bs & Hok & HL) Hs E. pose proof (malloc_spec _ _ _ _ _ Hok Hs E) as Hm. destruct r as [o |]; [| by destruct Hm].
  destruct Hm as (bs' & n & Hok' & Hl & Hn & _). exists n. split; [| done]. exists bs'. by rewrite Hl, HL.
Qed.
Lemma rel_free h L o n : heap_rel h L -> (o, n) ∈ L -> exists L', L ≡ₚ (o, n) :: L' /\ heap_rel (mem_free (Some o) h) L'.
Proof.
  intros (bs & Hok & HL) Ho. rewrite <- HL in Ho. destruct (free_spec h bs o n Hok Ho) as (bs' & Hok' & Hl & _).
  exists (live 0 bs'). rewrite <- HL. split; [done | by exists bs'].
Qed.
Lemma rel_trim h L q n newsize : heap_rel h L -> (q, n) ∈ L -> is_u16 newsize -> request_size newsize <= n ->
  exists h' n' L', mem_trim q newsize h = (Some q, h') /\ L ≡ₚ (q, n) :: L' /\ heap_rel h' ((q, n') :: L')
  /\ request_size newsize <= n' <= n.
Proof.
  intros (bs & Hok & HL) Hq Hs Hn. rewrite <- HL in Hq. destruct (mem_trim q newsize h) as [r h'] eqn:E.
  pose proof (trim_spec _ _ _ _ _ _ _ Hok Hq Hs E) as Hm. destruct r as [q' |]; [| lia].
  destruct Hm as (-> & bs' & n' & L' & Hok' & Hl & Hl' & Hn' & _). exists h', n', L'. rewrite <- HL.
  split_and!; try done; try lia. by exists bs'.
Qed.
Lemma rel_bounds h L q n : heap_rel h L -> (q, n) ∈ L -> MIN_SIZE_ALIGNED <= n /\ n mod 4 = 0 /\ q + n <= MEM_SIZE_ALIGNED /\ SIZEOF_STRUCT_MEM <= q.
Proof.
  intros (bs & ([_ He _ Hw] & _) & HL) Hq. rewrite <- HL in Hq. destruct (live_bounds _ _ _ _ Hw Hq) as (H1 & H2 & H3).
  rewrite He in H2. split_and!; try done. destruct (live_split _ _ _ _ Hq) as (b1 & b2 & -> & _).
  apply Forall_app in Hw as [_ [[_ H4] _]%Forall_cons]. cbn in H4. unfold SIZEOF_STRUCT_MEM in H4. word.
Qed.
(** No two held blocks start at the same place. *)
Lemma rel_NoDup h L : heap_rel h L -> NoDup (L.*1).
Proof.
  intros (bs & ([_ _ _ Hw] & _) & HL). rewrite <- HL. clear - Hw. generalize 0.
  induction Hw as [| [n u] bs [Hn _] Hw IH]; intros p; cbn [live]; [apply NoDup_nil_2 |].
  destruct u; cbn; [| apply IH]. apply NoDup_cons. split; [| apply IH].
  intros ([q m] & E & Hin)%list_elem_of_fmap. cbn in E. subst q.
  pose proof (proj1 (Forall_forall _ _) (live_ge _ _ Hw) _ Hin) as Hx. cbn in Hx, Hn.
  unfold SIZEOF_STRUCT_MEM, MIN_SIZE_ALIGNED in *. lia.
Qed.

(** C10. The heap refines its contract.  From a heap that holds the blocks [L] for
    its clients, every legal call does what the abstract heap may do: a granted
    block is 4-aligned, inside the array, at least as large as asked and apart
    from every held block with room for its header; freeing gives back exactly
    one block; shrinking keeps the rest; the clients' writes do not hurt it; and
    no call writes into the room of a block that is held before and after it. *)
Theorem heap_refines h L op res h'
  (Hrel : heap_rel h L) (Hlegal : legal L op) (Hexec : heap_exec op h = (res, h')) :
  exists L', spec_step L op res L' /\ heap_rel h' L'
  /\ forall q n k, (q, n) ∈ L -> (q, n) ∈ L' -> q - SIZEOF_STRUCT_MEM < k < q + n ->
       match op with Op_write j _ => k <> j -> mem_at h' k = mem_at h k | _ => mem_at h' k = mem_at h k end.
Proof.
  destruct Hrel as (bs & Hok & HL). pose proof Hok as ([_ _ _ Hw] & _).
  assert (Hframe : forall bs' L', heap_ok h' bs' -> live 0 bs' ≡ₚ L' -> frame h h' (heads 0 bs') ->
    forall q n k, (q, n) ∈ L -> (q, n) ∈ L' -> q - SIZEOF_STRUCT_MEM < k < q + n -> mem_at h' k = mem_at h k).
  { intros bs' L' ([_ _ _ Hw'] & _) HL' Hfr q n k _ Hq Hk. apply Hfr. intros Hh. rewrite <- HL' in Hq.
    destruct (heads_live _ _ _ _ _ Hw' Hq Hh); lia. }
  destruct op as [size | q | q newsize | k m]; cbn [heap_exec legal] in *.
  - pose proof (malloc_spec h bs size res h' Hok ltac:(unfold is_u16; lia) Hexec) as Hm. destruct res as [q |].
    + destruct Hm as (bs' & n & Hok' & Hl & Hn & Hfr). exists ((q, n) :: L).
      destruct (live_new h' bs' q n (live 0 bs) Hok' Hl) as (H1 & H2 & H3 & H4).
      destruct (request_size_spec size ltac:(unfold is_u16; lia)) as (_ & _ & Hrs & _).
      assert (Hsz : size <= n) by (destruct (Hrs ltac:(lia)); lia).
      assert (Hpos : 0 < size) by (unfold mem_malloc in Hexec; destruct (Z.eqb_spec size 0); [done | lia]).
      split; [| split].
      * apply sp_grant; try done. by rewrite <- HL.
      * exists bs'. by rewrite Hl, HL.
      * apply (Hframe bs'); [done | by rewrite Hl, HL | done].
    + destruct Hm as [-> _]. exists L. split; [constructor | split; [by exists bs | done]].
  - destruct Hlegal as [n Hq]. rewrite <- HL in Hq. injection Hexec as <- <-.
    destruct (free_spec h bs q n Hok Hq) as (bs' & Hok' & Hl & Hfr). exists (live 0 bs').
    split; [apply (sp_free _ q n); by rewrite <- HL | split; [by exists bs' |]].
    intros q2 n2 k Hq2 _ Hk. apply Hfr. intros Hh. rewrite <- HL in Hq2. destruct (heads_live _ _ _ _ _ Hw Hq2 Hh); lia.
  - destruct Hlegal as [[n Hq] Hsz]. rewrite <- HL in Hq.
    pose proof (trim_spec h bs q n newsize res h' Hok Hq ltac:(unfold is_u16; lia) Hexec) as Hm.
    destruct (request_size_spec newsize ltac:(unfold is_u16; lia)) as (_ & _ & Hrs & _). specialize (Hrs ltac:(lia)).
    destruct res as [q' |].
    + destruct Hm as (-> & bs' & n' & L' & Hok' & Hl & Hl' & Hn' & Hfr). exists ((q, n') :: L').
      split; [apply (sp_trim _ q n); [by rewrite <- HL | lia] | split; [by exists bs' |]]. by apply (Hframe bs').
    + destruct Hm as [-> Hlt]. exists L. split; [| split; [by exists bs | done]].
      destruct (live_bounds _ _ _ _ Hw Hq) as (_ & _ & Hn).
      apply (sp_trim_grow _ q n); [by rewrite <- HL | unfold MIN_SIZE_ALIGNED, MEM_ALIGNMENT in *; lia].
  - destruct Hlegal as (q & n & Hq & Hk). rewrite <- HL in Hq. injection Hexec as <- <-. exists L.
    split; [constructor | split; [exists bs; split; [by eapply write_ok | done] |]].
    intros q2 n2 j _ _ _ Hj. rewrite mem_at_upd. by destruct (decide _).
Qed.

(** ** When the heap refuses *)

Lemma malloc_unfit h bs size : heap_ok h bs -> is_u16 size ->
  Forall (fun b => fits (request_size size) b = false) bs -> fst (mem_malloc size h) = None.
Proof.
  intros Hok Hsize Hall. pose proof Hok as ([Hs He [Hnx _] Hw] & Hf & _). unfold mem_malloc.
  destruct (size =? 0); [done |]. destruct (request_size_spec size Hsize) as ([Hmin _] & _).
  destruct (_ <? _); [done |]. destruct (first_free_split 0 bs) as (b0 & b' & -> & _ & Ef). rewrite Hf, Ef.
  apply seg_app in Hs as [_ Hs]. pose proof Hw as Hw'. apply Forall_app in Hw' as [Hw0 Hw'].
  apply Forall_app in Hall as [_ Hall]. pose proof (fuel_enough _ Hw He) as Hl. rewrite length_app in Hl.
  rewrite endp_app in He.
  destruct (search_spec h (request_size size) ltac:(unfold MIN_SIZE_ALIGNED in *; lia) Hnx b' heap_fuel (endp 0 b0) (lasth 0 0 b0)
    Hw' (endp_le 0 b0 Hw0) He Hs ltac:(lia)) as [(b1 & b & b2 & -> & Hb & _) | [_ ->]]; [| done].
  apply Forall_app in Hall as [_ [Hb' _]%Forall_cons]. congruence.
Qed.

(** The heap refuses a request exactly when it asks for nothing or when no
    free block has room for it, rounded up and at least 12 bytes, and its header;
    a refused request changes nothing.  In particular an allocation never fails
    while a large enough block is free, and the search ends within its fuel. *)
Theorem malloc_refuses_iff h bs size
  (Hok : heap_ok h bs) (Hsize : is_u16 size) :
  (fst (mem_malloc size h) = None <-> size = 0
     \/ forall n, (n, false) ∈ bs -> n < request_size size + SIZEOF_STRUCT_MEM)
  /\ (fst (mem_malloc size h) = None -> snd (mem_malloc size h) = h).
Proof.
  assert (Hall : (forall n, (n, false) ∈ bs -> n < request_size size + SIZEOF_STRUCT_MEM)
    <-> Forall (fun b => fits (request_size size) b = false) bs).
  { rewrite Forall_forall. split.
    - intros H [n []] Hin; [done |]. unfold fits. cbn. apply Z.leb_gt. by apply H.
    - intros H n Hin. specialize (H _ Hin). unfold fits in H. cbn in H. by apply Z.leb_gt in H. }
  rewrite Hall. destruct (mem_malloc size h) as [r h'] eqn:E. cbn [fst snd].
  pose proof (malloc_spec h bs size r h' Hok Hsize E) as Hm. destruct r as [q |].
  - split; [| done]. split; [done |]. intros [-> | Hu]; [by injection E |].
    pose proof (malloc_unfit h bs size Hok Hsize Hu) as E'. by rewrite E in E'.
  - destruct Hm as [-> Hm]. split; [split; [done | done] | done].
Qed.

Lemma endp_live p bs : live p bs = [] -> Forall (fun b => snd b = false) bs.
Proof.
  revert p; induction bs as [| [n u] bs IH]; intros p; cbn [live]; [constructor |].
  destruct u; [done |]. cbn [app]. intros H. apply Forall_cons. split; [done | by eapply IH].
Qed.

(** Nothing is lost to fragmentation for good: when every block has been
    freed, the heap is one free block again, and any request of up to 30712 bytes
    is granted at the start of the array. *)
Theorem heap_whole_again h size
  (Hrel : heap_rel h []) (Hsize : 0 < size <= MEM_SIZE_ALIGNED - SIZEOF_STRUCT_MEM) :
  heap_ok h [(MEM_SIZE_ALIGNED, false)] /\ fst (mem_malloc size h) = Some SIZEOF_STRUCT_MEM.
Proof.
  destruct Hrel as (bs & Hok & Hl%Permutation_nil_r). pose proof (endp_live _ _ Hl) as Hfree.
  pose proof Hok as ([_ He _ Hw] & _ & Hsp). unfold SIZEOF_STRUCT_MEM, MEM_SIZE_ALIGNED in Hsize.
  assert (Ebs : bs = [(MEM_SIZE_ALIGNED, false)]).
  { destruct bs as [| [n u] bs]; [done |]. apply Forall_cons in Hfree as [Hu Hfree]. cbn in Hu. subst u.
    destruct bs as [| [m v] bs]; [change (n = MEM_SIZE_ALIGNED) in He; by rewrite He |].
    apply Forall_cons in Hfree as [Hv _]. cbn in Hv. subst v. by destruct Hsp as (_ & ? & _). }
  subst bs. split; [done |]. assert (Hu16 : is_u16 size) by (unfold is_u16; lia).
  assert (Hle : request_size size <= 30712).
  { destruct (request_size_spec size Hu16) as (_ & H4 & Hrs & _). unfold MIN_SIZE_ALIGNED in Hrs.
    destruct Hrs as [Hrs | Hrs]; [lia | | lia]. Z.div_mod_to_equations. lia. }
  assert (Hmin : 0 < request_size size).
  { destruct (request_size_spec size Hu16) as ([Hmin _] & _). unfold MIN_SIZE_ALIGNED in Hmin. lia. }
  destruct Hok as ([[Em _] _ _ _] & Hf & _). cbn in Hf, Em. unfold mem_malloc.
  rewrite (proj2 (Z.eqb_neq size 0)), (proj2 (Z.ltb_ge MEM_SIZE_ALIGNED _)) by (unfold MEM_SIZE_ALIGNED; lia).
  assert (Es : malloc_search heap_fuel 0 (request_size size) h = Some 0).
  { destruct heap_fuel_S as [f ->]. cbn [malloc_search]. unfold mem_at. rewrite Em. cbn [m_used m_next].
    match goal with |- context [u32 ?e] => replace (u32 e) with 30712 by (vm_compute; reflexivity) end.
    by rewrite (proj2 (Z.ltb_lt 0 _)), (proj2 (Z.leb_le _ 30712)) by (unfold MEM_SIZE_ALIGNED; lia). }
  by rewrite Hf, Es.
Qed.

(** The oracle of Pbuf.v with the heap's own answer gives this answer. *)
Lemma oracle_answers size h : let r := bool_decide (is_Some (fst (mem_malloc size h))) in
  Pbuf.mem_malloc size [r] = (r, if (size =? 0) || (MEM_SIZE_ALIGNED <? request_size size) then [r] else []).
Proof.
  unfold mem_malloc, Pbuf.mem_malloc. destruct (size =? 0); [done |]. unfold request_size.
  destruct (MEM_SIZE_ALIGNED <? _); [done |]. cbn [orb]. done.
Qed.

(** ** Instances *)

Definition ex_heap : heap := mem_init ∅.

Lemma heap_refines_witness :
  heap_rel ex_heap [] /\ exists L', spec_step [] (Op_malloc 100) (fst (mem_malloc 100 ex_heap)) L'
    /\ heap_rel (snd (mem_malloc 100 ex_heap)) L'.
Proof.
  assert (H : heap_rel ex_heap []) by (exists [(MEM_SIZE_ALIGNED, false)]; split; [apply mem_init_ok | done]).
  split; [exact H |].
  destruct (heap_refines ex_heap [] (Op_malloc 100) (fst (mem_malloc 100 ex_heap)) (snd (mem_malloc 100 ex_heap)) H
    ltac:(cbn; lia) (surjective_pairing _)) as (L' & Hs & Hr & _).
  by exists L'.
Defined.

Lemma malloc_refuses_iff_witness :
  heap_ok ex_heap [(MEM_SIZE_ALIGNED, false)] /\ fst (mem_malloc 30713 ex_heap) = None.
Proof.
  split; [apply mem_init_ok |]. apply (malloc_refuses_iff ex_heap [(MEM_SIZE_ALIGNED, false)] 30713 (mem_init_ok ∅)).
  - unfold is_u16. lia.
  - right. intros n [= ->]%list_elem_of_singleton. reflexivity.
Defined.

Lemma heap_whole_again_witness : fst (mem_malloc 30712 ex_heap) = Some SIZEOF_STRUCT_MEM.
Proof.
  apply (heap_whole_again ex_heap 30712).
  - exists [(MEM_SIZE_ALIGNED, false)]. split; [apply mem_init_ok | done].
  - unfold MEM_SIZE_ALIGNED, SIZEOF_STRUCT_MEM. lia.
Defined.
