(* ===== verification/PbufData.v ===== *)
(** * Reading and searching packets (core/pbuf.c)

    The access functions of packet buffers on the values of Pbuf.v: one byte,
    comparison with memory, search, filling, and the copy of a chain into one
    segment.  What the loops over the segments compute is stated on the bytes of
    the whole packet. *)

From S2P Require Import Prelude Pbuf.

Definition segments (p : pbuf) : list (list Z) := map ps_data (pb_first p :: pb_next p).

(** The loop with which [pbuf_get_at] and [pbuf_memcmp] find a position: the
    segments from the one that holds it on, and the offset in it. *)
Fixpoint seek (q : list (list Z)) (from : Z) : list (list Z) * Z :=
  match q with
  | [] => ([], from)
  | d :: q' => if Zlen d <=? from then seek q' (u16 (from - Zlen d)) else (q, from)
  end.

(** [pbuf_get_at] on the segments from some pbuf on. *)
Definition seg_get_at (q : list (list Z)) (offset : Z) : Z :=
  match seek q offset with
  | (d :: _, from) => nth (Z.to_nat from) d 0
  | ([], _) => 0
  end.
Definition pbuf_get_at (p : pbuf) (offset : Z) : Z := seg_get_at (segments p) offset.

(** The loop of [pbuf_memcmp] over the [n] bytes of [s2] from index [i] on. *)
Fixpoint memcmp_loop (q : list (list Z)) (start i : Z) (s2 : list Z) : Z :=
  match s2 with
  | [] => 0
  | b :: s2 => if seg_get_at q (u16 (start + i)) =? b then memcmp_loop q start (u16 (i + 1)) s2 else u16 (i + 1)
  end.
(** [pbuf_memcmp] with a buffer [s2] of length [n]. *)
Definition pbuf_memcmp (p : pbuf) (offset : Z) (s2 : list Z) : Z :=
  match seek (segments p) offset with
  | ([], _) => 0xffff
  | (q, start) => memcmp_loop q start 0 s2
  end.

(** [pbuf_memfind]; a round that does not return moves forward, except with an
    empty [mem] at the end of the packet, which takes one more. *)
Fixpoint memfind_loop (fuel : nat) (p : pbuf) (mem : list Z) (i max : Z) : Z :=
  match fuel with
  | O => 0xFFFF
  | S fuel =>
      if i <=? max then
        let plus := pbuf_memcmp p i mem in
        if plus =? 0 then i else memfind_loop fuel p mem (u16 (i + plus)) max
      else 0xFFFF
  end.
Definition pbuf_memfind (p : pbuf) (mem : list Z) (start_offset : Z) : Z :=
  let max := u16 (p_tot_len p - Zlen mem) in
  if Zlen mem + start_offset <=? p_tot_len p
  then memfind_loop (S (S (length (p_bytes p)))) p mem start_offset max else 0xFFFF.

(** [pbuf_strstr]; [substr] is the string without its terminating 0. *)
Definition pbuf_strstr (p : pbuf) (substr : list Z) : Z :=
  if bool_decide (substr = []) || (p_tot_len p =? 0xFFFF) then 0xFFFF
  else if 0xFFFF <=? Zlen substr then 0xFFFF
  else pbuf_memfind p substr 0.

(** [pbuf_take]: the loop over the segments and the whole. *)
Fixpoint take_loop (q : list pseg) (data : list Z) : list pseg :=
  match q with
  | [] => []
  | s :: q =>
      let n := if Zlen (ps_data s) <? Zlen data then Zlen (ps_data s) else Zlen data in
      mk_pseg (ps_type s) (ps_pre s) (take (Z.to_nat n) data ++ drop (Z.to_nat n) (ps_data s))
      :: (if n =? Zlen data then q else take_loop q (drop (Z.to_nat n) data))
  end.
Definition pbuf_take (buf : pbuf) (data : list Z) : err_t * pbuf :=
  if p_tot_len buf <? Zlen data then (ERR_ARG, buf)
  else
    match (if Zlen data =? 0 then pb_first buf :: pb_next buf else take_loop (pb_first buf :: pb_next buf) data) with
    | s :: q => (ERR_OK, mk_pbuf s q (pb_flags buf))
    | [] => (ERR_OK, buf)
    end.

(** [pbuf_coalesce]: the copy in one segment, or the old chain; the error of the
    copy is only asserted. *)
Definition pbuf_coalesce (p : pbuf) (layer : pbuf_layer) (h : list bool) : pbuf * list bool :=
  match pb_next p with
  | [] => (p, h)
  | _ =>
      match pbuf_alloc_ram layer (p_tot_len p) h with
      | (None, h) => (p, h)
      | (Some q, h) => (snd (pbuf_copy q p), h)
      end
  end.

(** ** Positions *)

Lemma segments_bytes p : mjoin (segments p) = p_bytes p.
Proof. reflexivity. Qed.

Lemma seek_spec q : forall n, 0 <= n < 65536 ->
  let '(q', k) := seek q n in
  (Zlen (mjoin q) <= n /\ q' = [] \/ exists d q2, q' = d :: q2 /\ 0 <= k < Zlen d)
  /\ (q' <> [] -> 0 <= k <= n /\ drop (Z.to_nat n) (mjoin q) = drop (Z.to_nat k) (mjoin q')).
Proof.
  induction q as [| d q IH]; intros n Hn; cbn [seek].
  - split; [left; split; [change (0 <= n); lia | done] | done].
  - pose proof (Zlen_nonneg d). destruct (Z.leb_spec (Zlen d) n) as [Hle | Hlt].
    + rewrite u16_small by (unfold is_u16; lia). specialize (IH (n - Zlen d) ltac:(lia)).
      destruct (seek q (n - Zlen d)) as [q' k]. destruct IH as [H1 H2].
      change (mjoin (d :: q)) with (d ++ mjoin q). rewrite Zlen_app. split.
      * destruct H1 as [[? ?] | ?]; [left; split; [lia | done] | by right].
      * intros Hq. destruct (H2 Hq) as [? E]. split; [lia |]. rewrite <- E. unfold Zlen in *.
        rewrite drop_app_ge by lia. f_equal. lia.
    + split; [right; exists d, q; split; [done | lia] |]. intros _. split; [lia | done].
Qed.

(** Reading a byte is indexing the packet; past its end it is 0. *)
Lemma seg_get_at_spec q n : 0 <= n < 65536 -> seg_get_at q n = nth (Z.to_nat n) (mjoin q) 0.
Proof.
  intros Hn. unfold seg_get_at. pose proof (seek_spec q n Hn) as H. destruct (seek q n) as [q' k]. destruct H as [H1 H2].
  destruct H1 as [[Hle ->] | (d & q2 & -> & Hk)].
  - rewrite nth_overflow; [done |]. unfold Zlen in Hle. lia.
  - destruct H2 as [_ E]; [done |]. change (mjoin (d :: q2)) with (d ++ mjoin q2) in E.
    assert (G : forall (l1 l2 : list Z) a b, drop a l1 = drop b l2 -> nth a l1 0 = nth b l2 0).
    { intros l1 l2 a b Hd. rewrite <- (Nat.add_0_r a), <- (Nat.add_0_r b), <- !nth_skipn. by rewrite Hd. }
    rewrite (G _ _ _ _ E). unfold Zlen in Hk. by rewrite app_nth1 by lia.
Qed.

(** The comparison reports the first difference. *)
Lemma memcmp_loop_spec q start s2 : forall i, 0 <= i -> 0 <= start -> start + i + Zlen s2 <= 65535 ->
  let r := memcmp_loop q start i s2 in
  (r = 0 /\ forall j, (j < length s2)%nat -> nth (Z.to_nat (start + i) + j) (mjoin q) 0 = nth j s2 0) \/
  (exists j, r = i + Z.of_nat j + 1 /\ (j < length s2)%nat /\ nth (Z.to_nat (start + i) + j) (mjoin q) 0 <> nth j s2 0
   /\ forall k, (k < j)%nat -> nth (Z.to_nat (start + i) + k) (mjoin q) 0 = nth k s2 0).
Proof.
  induction s2 as [| b s2 IH]; intros i Hi Hs Hb; cbn [memcmp_loop].
  - left. split; [done |]. intros j Hj. cbn in Hj. lia.
  - autorewrite with zlen in Hb. pose proof (Zlen_nonneg s2). rewrite !u16_small by (unfold is_u16; lia).
    rewrite seg_get_at_spec by lia. destruct (Z.eqb_spec (nth (Z.to_nat (start + i)) (mjoin q) 0) b) as [E | E].
    + assert (Enat : forall j, (Z.to_nat (start + (i + 1)) + j = Z.to_nat (start + i) + S j)%nat) by lia.
      specialize (IH (i + 1) ltac:(lia) Hs ltac:(lia)). cbn zeta in IH. destruct IH as [[-> H1] | (j & -> & Hj & Hne & H1)].
      * left. split; [done |]. intros [| j] Hj; [by rewrite Nat.add_0_r |]. rewrite <- Enat. apply H1. cbn in Hj. lia.
      * right. exists (S j). cbn [length nth]. rewrite <- Enat. split_and!; [lia | lia | done |].
        intros [| k] Hk; [by rewrite Nat.add_0_r |]. rewrite <- Enat. apply H1. lia.
    + right. exists 0%nat. rewrite Nat.add_0_r. cbn [length nth]. split_and!; [lia | lia | done |]. lia.
Qed.

Lemma nth_drop_off (l : list Z) a j : nth (a + j) l 0 = nth j (drop a l) 0.
Proof. by rewrite nth_skipn. Qed.

Lemma pbuf_memcmp_spec p offset s2 : 0 <= offset < p_tot_len p -> offset + Zlen s2 <= 65535 ->
  let r := pbuf_memcmp p offset s2 in
  (r = 0 /\ forall j, (j < length s2)%nat -> nth (Z.to_nat offset + j) (p_bytes p) 0 = nth j s2 0) \/
  (exists j, r = Z.of_nat j + 1 /\ (j < length s2)%nat /\ nth (Z.to_nat offset + j) (p_bytes p) 0 <> nth j s2 0
   /\ forall k, (k < j)%nat -> nth (Z.to_nat offset + k) (p_bytes p) 0 = nth k s2 0).
Proof.
  intros Ho Hb. pose proof (Zlen_nonneg s2). unfold pbuf_memcmp. pose proof (seek_spec (segments p) offset ltac:(lia)) as H1.
  destruct (seek (segments p) offset) as [q k]. destruct H1 as [[[Hle ->] | (d & q2 & -> & Hk)] H2].
  - unfold p_tot_len in Ho. rewrite segments_bytes in Hle. lia.
  - destruct H2 as [Hko E]; [done |]. rewrite segments_bytes in E.
    assert (En : forall j, nth (Z.to_nat offset + j) (p_bytes p) 0 = nth (Z.to_nat (k + 0) + j) (mjoin (d :: q2)) 0).
    { intros j. by rewrite Z.add_0_r, !nth_drop_off, E. }
    destruct (memcmp_loop_spec (d :: q2) k s2 0 ltac:(lia) ltac:(lia) ltac:(lia)) as [[E0 Hm] | (j & Er & Hj & Hne & Hm)]; [left | right].
    + split; [exact E0 |]. intros j Hj. rewrite En. auto.
    + exists j. rewrite Er, En. split_and!; try done. intros l Hl. rewrite En. auto.
Qed.

(** A round of the search stays in the packet and moves forward. *)
Lemma memcmp_step p mem i : mem <> [] -> 0 <= i <= p_tot_len p - Zlen mem -> p_tot_len p <= 65535 ->
  let r := pbuf_memcmp p i mem in 0 <= r <= Zlen mem /\ u16 (i + r) = (if i + r <? 65536 then i + r else 0).
Proof.
  intros Hm Hi Ht. assert (0 < Zlen mem) by (destruct mem; [done | rewrite Zlen_cons; pose proof (Zlen_nonneg mem); lia]).
  intros r. assert (0 <= r <= Zlen mem).
  { pose proof (pbuf_memcmp_spec p i mem ltac:(lia) ltac:(lia)) as Hc. cbn zeta in Hc. fold r in Hc.
    destruct Hc as [[Er _] | (j & Er & Hj & _)]; unfold Zlen in *; lia. }
  split; [done |]. rewrite (proj2 (Z.ltb_lt _ _)) by lia. apply u16_small. unfold is_u16. lia.
Qed.

Lemma memfind_sound fuel p mem max : mem <> [] -> max = p_tot_len p - Zlen mem -> p_tot_len p <= 65535 -> forall i, 0 <= i ->
  let r := memfind_loop fuel p mem i max in
  r <> 0xFFFF -> i <= r <= max /\ forall j, (j < length mem)%nat -> nth (Z.to_nat r + j) (p_bytes p) 0 = nth j mem 0.
Proof.
  intros Hm -> Ht. induction fuel as [| fuel IH]; intros i Hi; cbn [memfind_loop]; [done |].
  destruct (Z.leb_spec i (p_tot_len p - Zlen mem)) as [Hle | ?]; [| done].
  destruct (memcmp_step p mem i Hm ltac:(lia) Ht) as [Hr Eu].
  destruct (Z.eqb_spec (pbuf_memcmp p i mem) 0) as [E0 | Hne].
  - intros _. split; [lia |]. assert (0 < Zlen mem) by (destruct mem; [done | rewrite Zlen_cons; pose proof (Zlen_nonneg mem); lia]).
    destruct (pbuf_memcmp_spec p i mem ltac:(lia) ltac:(lia)) as [[_ Hall] | (j & Ej & _)]; [exact Hall | lia].
  - rewrite Eu, (proj2 (Z.ltb_lt _ _)) by lia. intros Hr2. destruct (IH (i + pbuf_memcmp p i mem) ltac:(lia) Hr2) as [? ?]. split; [lia | done].
Qed.

(** The fuel is enough: more of it changes nothing. *)
Lemma memfind_fuel p mem max : mem <> [] -> max = p_tot_len p - Zlen mem -> p_tot_len p <= 65535 -> forall fuel k i, 0 <= i ->
  max < i + Z.of_nat fuel -> memfind_loop (fuel + k) p mem i max = memfind_loop fuel p mem i max.
Proof.
  intros Hm -> Ht. induction fuel as [| fuel IH]; intros k i Hi Hf.
  - destruct k; [done |]. cbn [plus memfind_loop]. by rewrite (proj2 (Z.leb_gt _ _)) by lia.
  - cbn [plus memfind_loop]. destruct (Z.leb_spec i (p_tot_len p - Zlen mem)) as [Hle | ?]; [| done].
    destruct (memcmp_step p mem i Hm ltac:(lia) Ht) as [Hr Eu]. destruct (Z.eqb_spec (pbuf_memcmp p i mem) 0); [done |].
    rewrite Eu, (proj2 (Z.ltb_lt _ _)) by lia. apply IH; lia.
Qed.

(** The search of a packet returns, and a position it returns is right: from the
    asked start on, inside the packet, and the bytes there are the ones searched
    for; the bound on the rounds is never what ends it. *)
Theorem pbuf_memfind_sound p mem start_offset (Hmem : mem <> []) (Hlen : p_tot_len p <= 65535) (Hstart : 0 <= start_offset) :
  let r := pbuf_memfind p mem start_offset in
  (r <> 0xFFFF -> start_offset <= r /\ r + Zlen mem <= p_tot_len p
     /\ take (length mem) (drop (Z.to_nat r) (p_bytes p)) = mem)
  /\ forall k, memfind_loop (S (S (length (p_bytes p))) + k) p mem start_offset (p_tot_len p - Zlen mem)
             = memfind_loop (S (S (length (p_bytes p)))) p mem start_offset (p_tot_len p - Zlen mem).
Proof.
  split; [| intros k; apply memfind_fuel; try done; unfold p_tot_len, Zlen; lia].
  unfold pbuf_memfind. pose proof (Zlen_nonneg mem). destruct (Z.leb_spec (Zlen mem + start_offset) (p_tot_len p)) as [Hle | ?]; [| done].
  rewrite u16_small by (unfold is_u16; lia). intros Hr.
  destruct (memfind_sound _ p mem _ Hmem eq_refl Hlen start_offset Hstart Hr) as [Hb Hj]. revert Hb Hj. clear Hr.
  generalize (memfind_loop (S (S (length (p_bytes p)))) p mem start_offset (p_tot_len p - Zlen mem)). intros r Hb Hj.
  split; [lia | split; [lia |]]. apply nth_ext with (d := 0) (d' := 0).
  - rewrite length_take, length_drop. unfold p_tot_len, Zlen in *. lia.
  - intros n. rewrite length_take. intros Hn. rewrite nth_firstn. replace (n <? length mem)%nat with true by (symmetry; apply Nat.ltb_lt; lia).
    rewrite <- nth_drop_off. apply Hj. lia.
Qed.
Lemma pbuf_memfind_sound_witness : let p := flat_pbuf [7; 8; 9; 10] in
  pbuf_memfind p [9; 10] 0 = 2 /\ take 2 (drop 2 (p_bytes p)) = [9; 10].
Proof.
  split; [reflexivity |].
  apply (proj1 (pbuf_memfind_sound (flat_pbuf [7; 8; 9; 10]) [9; 10] 0 ltac:(discriminate) ltac:(vm_compute; discriminate) ltac:(lia))).
  vm_compute. discriminate.
Defined.

(** It is not complete: after a mismatch it skips as many bytes as matched, also
    the start of an occurrence.  In "aab" it does not find "ab". *)
Theorem pbuf_memfind_misses : let p := flat_pbuf [97; 97; 98] in
  take 2 (drop 1 (p_bytes p)) = [97; 98] /\ pbuf_memfind p [97; 98] 0 = 0xFFFF /\ pbuf_strstr p [97; 98] = 0xFFFF.
Proof. vm_compute. done. Qed.

(** ** Filling and flattening *)

Lemma take_loop_spec q : forall data, Zlen data <= Zlen (mjoin (map ps_data q)) ->
  mjoin (map ps_data (take_loop q data)) = data ++ drop (length data) (mjoin (map ps_data q))
  /\ map (fun s => (ps_type s, ps_pre s, length (ps_data s))) (take_loop q data) = map (fun s => (ps_type s, ps_pre s, length (ps_data s))) q.
Proof.
  induction q as [| s q IH]; intros data Hle.
  - change (mjoin (map ps_data [])) with (@nil Z) in *. destruct data; [done |]. unfold Zlen in Hle. cbn in Hle. lia.
  - change (mjoin (map ps_data (s :: q))) with (ps_data s ++ mjoin (map ps_data q)) in *. cbn [take_loop].
    set (n := if Zlen (ps_data s) <? Zlen data then _ else _). assert (Hn : n = Z.min (Zlen (ps_data s)) (Zlen data))
      by (unfold n; destruct (Z.ltb_spec (Zlen (ps_data s)) (Zlen data)); lia). clearbody n.
    pose proof (Zlen_nonneg data). pose proof (Zlen_nonneg (ps_data s)). rewrite Zlen_app in Hle.
    assert (Hlen : length (take (Z.to_nat n) data ++ drop (Z.to_nat n) (ps_data s)) = length (ps_data s)).
    { rewrite length_app, length_take, length_drop. unfold Zlen in *. lia. }
    destruct (Z.eqb_spec n (Zlen data)) as [E | Hne].
    + split; [| cbn [map ps_type ps_pre ps_data]; by rewrite Hlen]. cbn [map ps_data].
      change (mjoin ((take (Z.to_nat n) data ++ drop (Z.to_nat n) (ps_data s)) :: map ps_data q))
        with ((take (Z.to_nat n) data ++ drop (Z.to_nat n) (ps_data s)) ++ mjoin (map ps_data q)).
      rewrite <- app_assoc. assert (En : Z.to_nat n = length data) by (unfold Zlen in E; lia). rewrite En, take_ge by lia.
      rewrite drop_app_le; [done |]. unfold Zlen in *. lia.
    + assert (En : Z.to_nat n = length (ps_data s)) by (unfold Zlen in *; lia).
      destruct (IH (drop (Z.to_nat n) data)) as [H1 H2]; [unfold Zlen in *; rewrite length_drop; lia |].
      split; [| cbn [map ps_type ps_pre ps_data]; by rewrite Hlen, H2]. cbn [map ps_data].
      change (mjoin (?a :: ?b)) with (a ++ mjoin b). rewrite H1, length_drop, En, drop_all, app_nil_r, app_assoc, take_drop. f_equal.
      rewrite drop_app_ge by (unfold Zlen in *; lia). done.
Qed.

(** [pbuf_take] overwrites the start of the packet with the data, over the
    borders of the segments, and leaves lengths, headers and the rest alone; data
    that is too long is refused. *)
Theorem pbuf_take_spec p data : let '(err, p') := pbuf_take p data in
  if p_tot_len p <? Zlen data then err = ERR_ARG /\ p' = p
  else err = ERR_OK /\ p_bytes p' = data ++ drop (length data) (p_bytes p) /\ p_tot_len p' = p_tot_len p
    /\ map (@length Z) (segments p') = map (@length Z) (segments p) /\ ps_pre (pb_first p') = ps_pre (pb_first p).
Proof.
  unfold pbuf_take. destruct (Z.ltb_spec (p_tot_len p) (Zlen data)) as [? | Hle]; [done |].
  destruct (Z.eqb_spec (Zlen data) 0) as [E0 | _].
  { destruct data; [| unfold Zlen in E0; cbn in E0; lia]. cbn [app length drop]. by destruct p. }
  destruct (take_loop_spec (pb_first p :: pb_next p) data Hle) as [H1 H2].
  destruct (take_loop (pb_first p :: pb_next p) data) as [| s q] eqn:E; [done |].
  assert (Hm : map (@length Z) (map ps_data (s :: q)) = map (@length Z) (segments p)).
  { unfold segments. rewrite !map_map. apply (f_equal (map snd)) in H2. by rewrite !map_map in H2. }
  split; [done |]. change (p_bytes (mk_pbuf s q (pb_flags p))) with (mjoin (map ps_data (s :: q))). split; [exact H1 |].
  split; [| split; [exact Hm | by injection H2]]. unfold p_tot_len at 1. change (p_bytes (mk_pbuf s q (pb_flags p))) with (mjoin (map ps_data (s :: q))).
  rewrite H1. change (mjoin (map ps_data (pb_first p :: pb_next p))) with (p_bytes p).
  rewrite Zlen_app. unfold p_tot_len, Zlen in *. rewrite length_drop. lia.
Qed.

(** Copying a chain whose segments all hold something into one segment. *)
Lemma copy_loop_all from : forall room out, Forall (fun d => d <> []) from -> Zlen (mjoin from) <= room ->
  pbuf_copy_loop room from out = (ERR_OK, out ++ mjoin from).
Proof.
  induction from as [| d rest IH]; intros room out Hne Hr; cbn [pbuf_copy_loop]; [by rewrite app_nil_r |].
  apply Forall_cons in Hne as [Hd Hne]. change (mjoin (d :: rest)) with (d ++ mjoin rest) in *. rewrite Zlen_app in Hr.
  destruct rest as [| d2 rest2]; [cbn; by rewrite app_nil_r |]. pose proof Hne as [Hd2 Hne2]%Forall_cons.
  assert (Hpos : 0 < Zlen d2) by (destruct d2; [done | rewrite Zlen_cons; pose proof (Zlen_nonneg d2); lia]).
  change (mjoin (d2 :: rest2)) with (d2 ++ mjoin rest2) in *. rewrite Zlen_app in Hr. pose proof (Zlen_nonneg (mjoin rest2)).
  rewrite (proj2 (Z.eqb_neq _ _)) by lia.
  assert (Hq : (Zlen d2 =? Zlen (d2 ++ mjoin rest2)) && negb (bool_decide (rest2 = [])) = false).
  { destruct rest2 as [| d3 rest3]; [by rewrite andb_false_r |]. apply Forall_cons in Hne2 as [Hd3 _]. rewrite Zlen_app.
    change (mjoin (d3 :: rest3)) with (d3 ++ mjoin rest3). rewrite Zlen_app. pose proof (Zlen_nonneg (mjoin rest3)).
    assert (0 < Zlen d3) by (destruct d3; [done | rewrite Zlen_cons; pose proof (Zlen_nonneg d3); lia]).
    by rewrite (proj2 (Z.eqb_neq _ _)) by lia. }
  rewrite Hq, IH by (done || (change (mjoin (d2 :: rest2)) with (d2 ++ mjoin rest2); rewrite Zlen_app; lia)).
  by rewrite <- app_assoc.
Qed.

(** Flattening keeps the bytes and gives one segment, unless the heap refuses. *)
Lemma pbuf_coalesce_spec p layer h : Forall (fun d => d <> []) (segments p) ->
  let '(q, h') := pbuf_coalesce p layer h in p_bytes q = p_bytes p /\ (pb_next q = [] \/ q = p).
Proof.
  intros Hne. unfold pbuf_coalesce. destruct (pb_next p) as [| s2 rest] eqn:En; [by split; [| left] |].
  destruct (pbuf_alloc_ram layer (p_tot_len p) h) as [[q |] h'] eqn:Ea; [| by split; [| right]].
  destruct (pbuf_alloc_ram_some _ _ _ _ _ (Zlen_nonneg _) Ea) as (Hpl & Hn & _). cbn [snd].
  assert (Hqt : p_tot_len q = p_len q) by (unfold p_tot_len, p_bytes; rewrite Hn; cbn; by rewrite app_nil_r).
  unfold pbuf_copy. rewrite Hqt, Hpl, Z.ltb_irrefl. fold (segments p).
  rewrite copy_loop_all by (done || (rewrite segments_bytes; unfold p_tot_len; lia)). cbn [app]. rewrite segments_bytes.
  unfold p_bytes at 1, set_payload, p_payload. cbn [pb_first ps_data pb_next]. rewrite Hn. cbn. rewrite app_nil_r.
  split; [| by left]. unfold put. rewrite take_0. cbn [app]. rewrite drop_ge, app_nil_r; [done |].
  unfold p_len, p_payload, p_tot_len, Zlen in Hpl. cbn. lia.
Qed.

(** Empty segments at the end stop the copy, whose error is not looked at: the
    bytes behind are lost. *)
Lemma pbuf_coalesce_loses : let p := mk_pbuf (mk_pseg PBUF_RAM [] [1]) [mk_pseg PBUF_RAM [] [2]; mk_pseg PBUF_RAM [] []] 0 in
  p_bytes p = [1; 2] /\ p_bytes (fst (pbuf_coalesce p PBUF_RAW [])) = [1; 0].
Proof. by vm_compute. Qed.
