(* ===== verification/PbufRef.v ===== *)
(** * Packet buffers in memory (core/pbuf.c)

    The [struct pbuf]s as the code keeps them: in three kinds of memory (the pool
    of 256-byte buffers, the pool of bare structures, the heap), linked by [next],
    counted by [ref].  A pointer names its block; a dereference of a block that is
    not allocated has no result, so that a theorem that an operation has one says
    it touches no freed pbuf.  The specification counts the references the clients
    hold, and relates chains in memory to the values of Pbuf.v. *)

From stdpp Require Import gmultiset.
From S2P Require Import Prelude Memp Pbuf Heap.

(** ** The memory *)

(** An element of [MEMP_PBUF_POOL], of [MEMP_PBUF], or a block of the heap. *)
Inductive pptr : Set := PoolPtr (e : nat) | RefPtr (e : nat) | RamPtr (off : Z).
#[export] Instance pptr_eq_dec : EqDecision pptr.
Proof. solve_decision. Defined.
#[export] Instance pptr_countable : Countable pptr.
Proof.
  apply (inj_countable'
    (fun p => match p with PoolPtr e => inl (inl e) | RefPtr e => inl (inr e) | RamPtr o => inr o end)
    (fun s => match s with inl (inl e) => PoolPtr e | inl (inr e) => RefPtr e | inr o => RamPtr o end)).
  by intros [].
Defined.

#[export] Instance pbuf_type_eq_dec : EqDecision pbuf_type.
Proof. solve_decision. Defined.

(** [struct pbuf], with the bytes behind it.  [sp_payload] is the offset of the
    payload from the structure, for [PBUF_ROM] and [PBUF_REF] from the start of the
    memory outside that the caller gives them; [NULL] is 0. *)
Record spbuf := mk_spbuf {
  sp_next : option pptr;
  sp_payload : Z;
  sp_tot_len : Z;
  sp_len : Z;
  sp_type : pbuf_type;
  sp_flags : Z;
  sp_ref : Z;
  sp_block : list Z
}.

Record pstore := mk_pstore {
  ps_mem : gmap pptr spbuf;
  ps_pool : memp;
  ps_refs : memp;
  ps_heap : heap;
  pbuf_free_ooseq_pending : bool
}.

Definition PBUF_POOL_SIZE : nat := 96.
Definition MEMP_NUM_PBUF : nat := 48.
Definition PBUF_POOL_BUFSIZE_ALIGNED : Z := 256.

Definition set_mem (f : gmap pptr spbuf -> gmap pptr spbuf) (s : pstore) : pstore :=
  mk_pstore (f (ps_mem s)) (ps_pool s) (ps_refs s) (ps_heap s) (pbuf_free_ooseq_pending s).
Definition set_pool (m : memp) (s : pstore) : pstore :=
  mk_pstore (ps_mem s) m (ps_refs s) (ps_heap s) (pbuf_free_ooseq_pending s).
Definition set_refs (m : memp) (s : pstore) : pstore :=
  mk_pstore (ps_mem s) (ps_pool s) m (ps_heap s) (pbuf_free_ooseq_pending s).
Definition set_heap (h : heap) (s : pstore) : pstore :=
  mk_pstore (ps_mem s) (ps_pool s) (ps_refs s) h (pbuf_free_ooseq_pending s).
Definition set_pending (b : bool) (s : pstore) : pstore :=
  mk_pstore (ps_mem s) (ps_pool s) (ps_refs s) (ps_heap s) b.

(** Computations on the store; [None] is a dereference of freed memory or of
    [NULL], or a loop that is not done. *)
Definition PM (A : Type) : Type := pstore -> option (A * pstore).
#[export] Instance PM_ret : MRet PM := fun A a s => Some (a, s).
#[export] Instance PM_bind : MBind PM := fun A B f m s =>
  match m s with Some (a, s') => f a s' | None => None end.

Definition stuck {A} : PM A := fun _ => None.
Definition load (p : pptr) : PM spbuf := fun s => b ← ps_mem s !! p; Some (b, s).
Definition modify (f : spbuf -> spbuf) (p : pptr) : PM unit := fun s =>
  b ← ps_mem s !! p; Some (tt, set_mem <[p := f b]> s).
Definition set_store (f : pstore -> pstore) : PM unit := fun s => Some (tt, f s).
Definition deref {A} (p : option A) : PM A := match p with Some p => mret p | None => stuck end.

(** Assignments to the members. *)
Definition with_next n (b : spbuf) := mk_spbuf n (sp_payload b) (sp_tot_len b) (sp_len b) (sp_type b) (sp_flags b) (sp_ref b) (sp_block b).
Definition with_payload a (b : spbuf) := mk_spbuf (sp_next b) a (sp_tot_len b) (sp_len b) (sp_type b) (sp_flags b) (sp_ref b) (sp_block b).
Definition with_lens t l (b : spbuf) := mk_spbuf (sp_next b) (sp_payload b) t l (sp_type b) (sp_flags b) (sp_ref b) (sp_block b).
Definition with_ref r (b : spbuf) := mk_spbuf (sp_next b) (sp_payload b) (sp_tot_len b) (sp_len b) (sp_type b) (sp_flags b) r (sp_block b).
Definition with_block d (b : spbuf) := mk_spbuf (sp_next b) (sp_payload b) (sp_tot_len b) (sp_len b) (sp_type b) (sp_flags b) (sp_ref b) d.

(** ** Release *)

(** The block of [p] goes back to where its type says it comes from; a block
    released to another kind of memory would corrupt both. *)
Definition dealloc (type : pbuf_type) (p : pptr) : PM unit := fun s =>
  match type, p with
  | PBUF_POOL, PoolPtr e => Some (tt, set_pool (memp_free (Some e) (ps_pool s)) (set_mem (delete p) s))
  | PBUF_ROM, RefPtr e | PBUF_REF, RefPtr e =>
      Some (tt, set_refs (memp_free (Some e) (ps_refs s)) (set_mem (delete p) s))
  | PBUF_RAM, RamPtr o => Some (tt, set_heap (mem_free (Some o) (ps_heap s)) (set_mem (delete p) s))
  | _, _ => None
  end.

(** The loop of [pbuf_free]. *)
Fixpoint free_loop (fuel : nat) (count : Z) (p : option pptr) : PM Z :=
  match p with
  | None => mret count
  | Some q =>
      match fuel with
      | O => stuck
      | S fuel =>
          b ← load q;
          let ref := u16 (sp_ref b - 1) in
          modify (with_ref ref) q ;;
          if ref =? 0 then
            dealloc (sp_type b) q ;;
            free_loop fuel (u8 (count + 1)) (sp_next b)
          else mret count
      end
  end.

(** A chain visits every pbuf at most once, so their number bounds the loops. *)
Definition store_fuel (s : pstore) : nat := size (ps_mem s).
Definition with_fuel {A} (f : nat -> PM A) : PM A := fun s => f (store_fuel s) s.

(** [pbuf_free]. *)
Definition pbuf_free (p : option pptr) : PM Z := with_fuel (fun fuel => free_loop fuel 0 p).

(** ** Allocation *)

(** [pbuf_pool_is_empty] and the answer to it, [pbuf_free_ooseq], when no
    connection is active. *)
Definition pbuf_pool_is_empty : PM unit := set_store (set_pending true).
Definition pbuf_free_ooseq : PM unit := set_store (set_pending false).

(** [memp_malloc] of the two pools and [mem_malloc], with the fresh structure. *)
Definition new_pool (f : spbuf) : PM (option pptr) := fun s =>
  match memp_malloc (ps_pool s) with
  | (Some e, m) => Some (Some (PoolPtr e), set_pool m (set_mem <[PoolPtr e := f]> s))
  | (None, m) => Some (None, set_pool m s)
  end.
Definition new_ref (f : spbuf) : PM (option pptr) := fun s =>
  match memp_malloc (ps_refs s) with
  | (Some e, m) => Some (Some (RefPtr e), set_refs m (set_mem <[RefPtr e := f]> s))
  | (None, m) => Some (None, set_refs m s)
  end.
Definition new_ram (size : Z) (f : spbuf) : PM (option pptr) := fun s =>
  match Heap.mem_malloc size (ps_heap s) with
  | (Some o, h) => Some (Some (RamPtr o), set_heap h (set_mem <[RamPtr o := f]> s))
  | (None, h) => Some (None, set_heap h s)
  end.

Definition zeros (n : Z) : list Z := replicate (Z.to_nat n) 0.

(** The loop that allocates the tail of a [PBUF_POOL] chain behind [r]; [p] is
    its head, freed when the pool is empty. *)
Fixpoint pool_tail (fuel : nat) (p r : pptr) (rem_len : Z) : PM (option pptr) :=
  if 0 <? rem_len then
    match fuel with
    | O => stuck
    | S fuel =>
        let len := Z.min (u16 rem_len) PBUF_POOL_BUFSIZE_ALIGNED in
        q ← new_pool (mk_spbuf None SIZEOF_STRUCT_PBUF (u16 rem_len) len PBUF_POOL 0 1 (zeros PBUF_POOL_BUFSIZE_ALIGNED));
        match q with
        | None => pbuf_pool_is_empty ;; pbuf_free (Some p) ;; mret None
        | Some q => modify (with_next (Some q)) r ;; pool_tail fuel p q (rem_len - len)
        end
    end
  else mret (Some p).

(** Every round takes a buffer of the pool, of which there are 96. *)
Definition tail_fuel : nat := 97.

(** [pbuf_alloc]. *)
Definition pbuf_alloc (layer : pbuf_layer) (length : Z) (type : pbuf_type) : PM (option pptr) :=
  let offset := layer_offset layer in
  let payload := LWIP_MEM_ALIGN_SIZE (SIZEOF_STRUCT_PBUF + offset) in
  match type with
  | PBUF_POOL =>
      let len := Z.min length (PBUF_POOL_BUFSIZE_ALIGNED - LWIP_MEM_ALIGN_SIZE offset) in
      p ← new_pool (mk_spbuf None payload length len type 0 1 (zeros PBUF_POOL_BUFSIZE_ALIGNED));
      match p with
      | None => pbuf_pool_is_empty ;; mret None
      | Some p => pool_tail tail_fuel p p (length - len)
      end
  | PBUF_RAM =>
      new_ram (u16 (pbuf_ram_size layer length))
        (mk_spbuf None payload length length type 0 1 (zeros (payload - SIZEOF_STRUCT_PBUF + length)))
  | PBUF_ROM | PBUF_REF => new_ref (mk_spbuf None 0 length length type 0 1 [])
  end.

(** ** Length adjustment *)

(** The walk of [pbuf_realloc] to the new last pbuf, with what is left there. *)
Fixpoint realloc_walk (fuel : nat) (q : pptr) (rem_len grow : Z) : PM (pptr * Z) :=
  b ← load q;
  if sp_len b <? rem_len then
    match fuel with
    | O => stuck
    | S fuel =>
        modify (fun b => with_lens (u16 (sp_tot_len b + u16 grow)) (sp_len b) b) q ;;
        q2 ← deref (sp_next b);
        realloc_walk fuel q2 (u16 (rem_len - sp_len b)) grow
    end
  else mret (q, rem_len).

(** [mem_trim] on a heap pbuf, whose block then ends with its payload. *)
Definition trim_pbuf (q : pptr) (rem_len : Z) : PM pptr :=
  b ← load q;
  match q with
  | RamPtr o => fun s =>
      match mem_trim o (u16 (u16 (sp_payload b) + rem_len)) (ps_heap s) with
      | (Some o2, h) =>
          modify (with_block (take (Z.to_nat (sp_payload b - SIZEOF_STRUCT_PBUF + rem_len)) (sp_block b))) (RamPtr o2)
            (set_heap h s) ≫= fun '(_, s) => Some (RamPtr o2, s)
      | (None, _) => None
      end
  | _ => stuck
  end.

(** [pbuf_realloc]. *)
Definition pbuf_realloc (p : pptr) (new_len : Z) : PM unit :=
  b ← load p;
  if sp_tot_len b <=? new_len then mret tt
  else
    qr ← with_fuel (fun fuel => realloc_walk fuel p new_len (new_len - sp_tot_len b));
    let '(q, rem_len) := qr in
    b ← load q;
    q ← (if bool_decide (sp_type b = PBUF_RAM) && negb (rem_len =? sp_len b) then trim_pbuf q rem_len else mret q);
    modify (with_lens rem_len rem_len) q ;;
    b ← load q;
    match sp_next b with Some t => pbuf_free (Some t) ;; mret tt | None => mret tt end ;;
    modify (with_next None) q.

(** [pbuf_header]; the result is the code's, 0 on success. *)
Definition pbuf_header (p : option pptr) (inc : Z) : PM Z :=
  match p with
  | None => mret 0
  | Some p =>
      if inc =? 0 then mret 0
      else
        b ← load p;
        if (inc <? 0) && (sp_len b <? u16 (- inc)) then mret 1
        else
          match sp_type b with
          | PBUF_RAM | PBUF_POOL =>
              if sp_payload b - inc <? SIZEOF_STRUCT_PBUF then mret 1
              else
                modify (fun b => with_payload (sp_payload b - inc) (with_lens (u16 (sp_tot_len b + inc)) (u16 (sp_len b + inc)) b)) p ;;
                mret 0
          | PBUF_REF | PBUF_ROM =>
              if inc <? 0 then
                modify (fun b => with_payload (sp_payload b - inc) (with_lens (u16 (sp_tot_len b + inc)) (u16 (sp_len b + inc)) b)) p ;;
                mret 0
              else mret 1
          end
  end.

(** ** Chains *)

(** [pbuf_clen]. *)
Fixpoint clen_loop (fuel : nat) (len : Z) (p : option pptr) : PM Z :=
  match p with
  | None => mret len
  | Some q =>
      match fuel with
      | O => stuck
      | S fuel => b ← load q; clen_loop fuel (u8 (len + 1)) (sp_next b)
      end
  end.
Definition pbuf_clen (p : option pptr) : PM Z := with_fuel (fun fuel => clen_loop fuel 0 p).

(** [pbuf_ref]. *)
Definition pbuf_ref (p : option pptr) : PM unit :=
  match p with Some p => modify (fun b => with_ref (u16 (sp_ref b + 1)) b) p | None => mret tt end.

(** [pbuf_cat]. *)
Fixpoint cat_loop (fuel : nat) (p t : pptr) : PM unit :=
  tb ← load t;
  b ← load p;
  let add := fun b => with_lens (u16 (sp_tot_len b + sp_tot_len tb)) (sp_len b) b in
  match sp_next b, fuel with
  | Some n, S fuel => modify add p ;; cat_loop fuel n t
  | Some n, O => stuck
  | None, _ => modify (fun b => with_next (Some t) (add b)) p
  end.
Definition pbuf_cat (h t : option pptr) : PM unit :=
  match h, t with
  | Some h, Some t => with_fuel (fun fuel => cat_loop fuel h t)
  | _, _ => mret tt
  end.

(** [pbuf_chain]. *)
Definition pbuf_chain (h t : option pptr) : PM unit := pbuf_cat h t ;; pbuf_ref t.

(** [pbuf_dechain]. *)
Definition pbuf_dechain (p : pptr) : PM (option pptr) :=
  b ← load p;
  match sp_next b with
  | None => mret None
  | Some q =>
      modify (fun c => with_lens (u16 (sp_tot_len b - sp_len b)) (sp_len c) c) q ;;
      modify (fun b => with_next None (with_lens (sp_len b) (sp_len b) b)) p ;;
      tail_gone ← pbuf_free (Some q);
      mret (if 0 <? tail_gone then None else Some q)
  end.

(** ** References *)

(** The links of the pbufs in memory and the chain from a pointer on. *)
Notation links := (gmap pptr (option pptr)).
Fixpoint chain (l : links) (p : option pptr) (ps : list pptr) : Prop :=
  match ps with
  | [] => p = None
  | q :: ps => p = Some q /\ exists n, l !! q = Some n /\ chain l n ps
  end.

Definition opt_ms (p : option pptr) : gmultiset pptr := match p with Some p => {[+ p +]} | None => ∅ end.
(** All [next] pointers in memory. *)
Definition succs (l : links) : gmultiset pptr := list_to_set_disj (omap snd (map_to_list l)).

(** The clients hold the references [ext]: every count is the number of the
    clients' references and of the [next] pointers to the pbuf, no pointer
    dangles and every chain ends. *)
Record refs_ok (ext : gmultiset pptr) (l : links) (r : gmap pptr Z) : Prop := {
  rf_dom : forall p, is_Some (r !! p) <-> is_Some (l !! p);
  rf_count : forall p n, r !! p = Some n -> n = Z.of_nat (multiplicity p (ext ⊎ succs l)) /\ 0 < n < 65536;
  rf_live : forall p, p ∈ ext ⊎ succs l -> is_Some (l !! p);
  rf_chain : forall p, is_Some (l !! p) -> exists ps, chain l (Some p) ps
}.

Lemma succs_delete l p n : l !! p = Some n -> succs l = opt_ms n ⊎ succs (delete p l).
Proof.
  intros Hp. unfold succs. rewrite <- (map_to_list_delete l p n Hp).
  generalize (map_to_list (delete p l)). intros k. destruct n as [x |].
  - change (omap snd ((p, Some x) :: k)) with (x :: omap snd k). by rewrite list_to_set_disj_cons.
  - change (omap snd ((p, None) :: k)) with (omap snd k). multiset_solver.
Qed.
Lemma succs_new l p n : l !! p = None -> succs (<[p := n]> l) = opt_ms n ⊎ succs l.
Proof.
  intros Hp. rewrite (succs_delete _ p n) by apply lookup_insert_eq. by rewrite delete_insert_id.
Qed.
Lemma opt_ms_None X : opt_ms None ⊎ X = X.
Proof. apply (left_id_L ∅ (⊎)). Qed.
Lemma succs_link l p t : l !! p = Some None -> succs (<[p := Some t]> l) = {[+ t +]} ⊎ succs l.
Proof.
  intros Hp. rewrite (succs_delete _ p (Some t)) by apply lookup_insert_eq.
  by rewrite (succs_delete l p None Hp), opt_ms_None, delete_insert_eq.
Qed.
Lemma succs_unlink l p t : l !! p = Some (Some t) -> succs l = {[+ t +]} ⊎ succs (<[p := None]> l).
Proof.
  intros Hp. rewrite (succs_delete (<[p := None]> l) p None) by apply lookup_insert_eq.
  by rewrite (succs_delete l p _ Hp), opt_ms_None, delete_insert_eq.
Qed.
Lemma succs_elem l p x : l !! p = Some (Some x) -> x ∈ succs l.
Proof. intros Hp. rewrite (succs_delete _ _ _ Hp). apply gmultiset_elem_of_disj_union. left. by apply gmultiset_elem_of_singleton. Qed.
Lemma succs_pred l x : x ∈ succs l -> exists p, l !! p = Some (Some x).
Proof.
  unfold succs. rewrite elem_of_list_to_set_disj, list_elem_of_omap. intros ([p n] & Hin & E). cbn in E. subst n.
  exists p. by apply elem_of_map_to_list.
Qed.

(** Chains. *)
Lemma chain_det l p ps qs : chain l p ps -> chain l p qs -> ps = qs.
Proof.
  revert p qs; induction ps as [| x ps IH]; intros p [| y qs]; cbn; naive_solver.
Qed.
Lemma chain_app l p ps x qs : chain l p (ps ++ x :: qs) -> chain l (Some x) (x :: qs).
Proof. revert p; induction ps as [| y ps IH]; intros p; cbn; [naive_solver |]. intros (_ & n & _ & H). by eapply IH. Qed.
Lemma chain_NoDup l p ps : chain l p ps -> NoDup ps.
Proof.
  revert p; induction ps as [| x ps IH]; intros p Hc; [apply NoDup_nil_2 |]. apply NoDup_cons. split.
  - intros (qs & qs' & ->)%list_elem_of_split. pose proof (chain_app l p (x :: qs) x qs' Hc) as H2.
    assert (p = Some x) as -> by (by destruct Hc). pose proof (chain_det _ _ _ _ Hc H2) as E.
    apply (f_equal length) in E. cbn in E. rewrite length_app in E. cbn in E. lia.
  - destruct Hc as (_ & n & _ & Hc). by eapply IH.
Qed.
Lemma chain_dom l p ps x : chain l p ps -> x ∈ ps -> is_Some (l !! x).
Proof. intros Hc (q1 & q2 & ->)%list_elem_of_split. apply chain_app in Hc as (_ & n & Hn & _). eauto. Qed.
Lemma links_tail l p x ps y : chain l p (x :: ps) -> y ∈ ps -> y ∈ succs l.
Proof.
  revert p x; induction ps as [| z ps IH]; intros p x; cbn; [intros _ ?%not_elem_of_nil; done |].
  intros (_ & n & Hn & -> & n' & Hn' & Hc) [-> | Hy]%elem_of_cons; [by eapply succs_elem |].
  apply (IH (Some z) z); [cbn; eauto | done].
Qed.
Lemma links_ext l l' p ps : (forall x, x ∈ ps -> l' !! x = l !! x) -> chain l p ps -> chain l' p ps.
Proof.
  revert p; induction ps as [| x ps IH]; intros p Hl; cbn; [done |]. intros (-> & n & Hn & Hc). split; [done |].
  exists n. split; [rewrite Hl by left; done |]. apply IH; [| done]. intros y Hy. apply Hl. by right.
Qed.
Lemma chain_length l p ps : chain l p ps -> (length ps <= size l)%nat.
Proof.
  intros Hc. rewrite <- (size_dom (D := gset pptr)), <- (size_list_to_set (C := gset pptr) ps) by (by eapply chain_NoDup).
  apply subseteq_size. intros x Hx%elem_of_list_to_set. apply elem_of_dom. by eapply chain_dom.
Qed.

(** What one assignment does to the counts. *)
Lemma mult_opt k n : multiplicity k (opt_ms n) = if decide (n = Some k) then 1%nat else 0%nat.
Proof.
  destruct n as [x |]; cbn; [| by rewrite multiplicity_empty, decide_False].
  rewrite multiplicity_singleton. repeat case_decide; congruence.
Qed.
Lemma mult_one (k p : pptr) : multiplicity k {[+ p +]} = if decide (p = k) then 1%nat else 0%nat.
Proof. rewrite multiplicity_singleton. repeat case_decide; congruence. Qed.
Create Rewrite HintDb mult.
#[local] Hint Rewrite @multiplicity_disj_union mult_opt mult_one @elem_of_multiplicity : mult.
(** Reasoning on numbers of references. *)
Ltac mult := autorewrite with mult in *; repeat case_decide; simplify_eq; try lia.

Lemma refs_take ext l r p n : refs_ok ext l r -> r !! p = Some n -> n < 65535 ->
  refs_ok ({[+ p +]} ⊎ ext) l (<[p := n + 1]> r).
Proof.
  intros [Hd Hc Hl Hch] Hp Hn. destruct (Hc _ _ Hp) as [Hcp ?]. split; [| | | done].
  - intros k. rewrite lookup_insert_is_Some', Hd. split; [intros [-> | ?]; [apply Hd; eauto | done] | tauto].
  - intros k m [[<- <-] | [Hne Hk]]%lookup_insert_Some; [mult |]. destruct (Hc _ _ Hk). mult.
  - intros k Hk. destruct (decide (k = p)) as [-> | Hne]; [apply Hd; eauto |]. apply Hl. mult.
Qed.

Lemma refs_drop ext l r p n : refs_ok ({[+ p +]} ⊎ ext) l r -> r !! p = Some n -> n <> 1 ->
  refs_ok ext l (<[p := n - 1]> r).
Proof.
  intros [Hd Hc Hl Hch] Hp Hn. destruct (Hc _ _ Hp) as [Hcp ?]. split; [| | | done].
  - intros k. rewrite lookup_insert_is_Some', Hd. split; [intros [-> | ?]; [apply Hd; eauto | done] | tauto].
  - intros k m [[<- <-] | [Hne Hk]]%lookup_insert_Some; [mult |]. destruct (Hc _ _ Hk). mult.
  - intros k Hk. apply Hl. mult.
Qed.

(** A pbuf with one reference, the client's, is on no other chain. *)
Lemma refs_sole ext l r p : refs_ok ({[+ p +]} ⊎ ext) l r -> r !! p = Some 1 -> p ∉ ext /\ p ∉ succs l.
Proof. intros [Hd Hc Hl Hch] Hp. destruct (Hc _ _ Hp) as [Hcp ?]. split; intros Hin; mult. Qed.

Lemma refs_delete ext l r p n : refs_ok ({[+ p +]} ⊎ ext) l r -> r !! p = Some 1 -> l !! p = Some n ->
  refs_ok (opt_ms n ⊎ ext) (delete p l) (delete p r).
Proof.
  intros Hok Hp Hln. destruct (refs_sole _ _ _ _ Hok Hp) as [He Hs]. destruct Hok as [Hd Hc Hl Hch].
  pose proof (succs_delete l p n Hln) as Hsd.
  split.
  - intros k. rewrite !lookup_delete_is_Some, Hd. done.
  - intros k m [Hne Hk]%lookup_delete_Some. destruct (Hc _ _ Hk) as [Hck ?]. rewrite Hsd in Hck. mult.
  - intros k Hk. rewrite lookup_delete_is_Some. split.
    + intros <-. apply Hs. rewrite Hsd. mult.
    + apply Hl. rewrite Hsd. mult.
  - intros k [Hne Hk]%lookup_delete_is_Some. destruct (Hch k Hk) as [ps Hps]. exists ps.
    apply (links_ext l); [| done]. intros x Hx. apply lookup_delete_ne. intros <-.
    destruct ps as [| y ps]; [by apply not_elem_of_nil in Hx |]. assert (y = k) as -> by (destruct Hps as [[= <-] _]; done).
    apply elem_of_cons in Hx as [-> | Hx]; [done |]. by eapply Hs, links_tail.
Qed.

Lemma refs_new ext l r p : refs_ok ext l r -> l !! p = None ->
  refs_ok ({[+ p +]} ⊎ ext) (<[p := None]> l) (<[p := 1]> r).
Proof.
  intros [Hd Hc Hl Hch] Hp. pose proof (succs_new l p None Hp) as Hs. rewrite opt_ms_None in Hs.
  assert (Hp0 : multiplicity p (ext ⊎ succs l) = 0%nat).
  { apply not_elem_of_multiplicity. intros [? Hx]%Hl. congruence. }
  assert (Hr : r !! p = None) by (apply eq_None_not_Some; intros Hx%Hd; rewrite Hp in Hx; by destruct Hx).
  split.
  - intros k. rewrite !lookup_insert_is_Some', Hd. done.
  - intros k m. rewrite Hs. intros [[<- <-] | [Hne Hk]]%lookup_insert_Some; [mult |]. destruct (Hc _ _ Hk). mult.
  - intros k Hk. rewrite lookup_insert_is_Some'. destruct (decide (p = k)) as [-> | Hne]; [by left | right].
    apply Hl. rewrite Hs in Hk. mult.
  - intros k. rewrite lookup_insert_is_Some'. destruct (decide (p = k)) as [-> | Hne].
    + intros _. exists [k]. cbn. rewrite lookup_insert_eq. eauto.
    + intros [? | Hk]; [done |]. destruct (Hch k Hk) as [ps Hps]. exists ps. apply (links_ext l); [| done].
      intros x Hx. apply lookup_insert_ne. intros <-. destruct (chain_dom _ _ _ _ Hps Hx). congruence.
Qed.

Lemma chain_link l p t x ps ts : l !! p = Some None -> chain l (Some t) ts -> p ∉ ts ->
  chain l x ps -> chain (<[p := Some t]> l) x (if decide (p ∈ ps) then ps ++ ts else ps).
Proof.
  intros Hp Ht Hpt. revert x; induction ps as [| y ps IH]; intros x Hc.
  - rewrite decide_False by apply not_elem_of_nil. done.
  - destruct Hc as (-> & n & Hn & Hc). destruct (decide (y = p)) as [-> | Hne].
    + rewrite Hp in Hn. injection Hn as <-. assert (ps = []) as -> by (destruct ps; [done | by destruct Hc]).
      rewrite decide_True by left. cbn. split; [done |]. exists (Some t). rewrite lookup_insert_eq. split; [done |].
      apply (links_ext l); [| done]. intros z Hz. apply lookup_insert_ne. by intros <-.
    + specialize (IH n Hc). assert (E : (if decide (p ∈ y :: ps) then (y :: ps) ++ ts else y :: ps)
        = y :: (if decide (p ∈ ps) then ps ++ ts else ps)).
      { destruct (decide (p ∈ ps)); [by rewrite decide_True by by right |].
        rewrite decide_False; [done |]. by intros [-> | ?]%elem_of_cons. }
      rewrite E. cbn. split; [done |]. exists n. by rewrite lookup_insert_ne.
Qed.

Lemma refs_link ext l r p t ts : refs_ok ({[+ t +]} ⊎ ext) l r -> l !! p = Some None -> chain l (Some t) ts -> p ∉ ts ->
  refs_ok ext (<[p := Some t]> l) r.
Proof.
  intros [Hd Hc Hl Hch] Hp Ht Hpt. pose proof (succs_link l p t Hp) as Hs. split.
  - intros k. rewrite lookup_insert_is_Some', Hd. split; [tauto | intros [<- | ?]; eauto].
  - intros k m Hk. destruct (Hc _ _ Hk). rewrite Hs. mult.
  - intros k Hk. rewrite lookup_insert_is_Some'. right. apply Hl. rewrite Hs in Hk. mult.
  - intros k. rewrite lookup_insert_is_Some'. intros Hk. assert (is_Some (l !! k)) as [ps Hps]%Hch by (destruct Hk as [<- | ?]; eauto).
    eexists. by eapply chain_link.
Qed.

Lemma links_unlink l p x ps : chain l x ps -> exists qs, chain (<[p := None]> l) x qs /\ (forall y, y ∈ qs -> y ∈ ps).
Proof.
  revert x; induction ps as [| y ps IH]; intros x Hc; [by exists [] |]. destruct Hc as (-> & n & Hn & Hc).
  destruct (decide (y = p)) as [-> | Hne].
  - exists [p]. cbn. rewrite lookup_insert_eq. split; [eauto |]. intros z ->%list_elem_of_singleton. left.
  - destruct (IH n Hc) as (qs & Hqs & Hin). exists (y :: qs). cbn. rewrite lookup_insert_ne by done. split; [eauto |].
    intros z [-> | ?]%elem_of_cons; [left | right; auto].
Qed.

Lemma refs_unlink ext l r p t : refs_ok ext l r -> l !! p = Some (Some t) ->
  refs_ok ({[+ t +]} ⊎ ext) (<[p := None]> l) r.
Proof.
  intros [Hd Hc Hl Hch] Hp. pose proof (succs_unlink l p t Hp) as Hs. split.
  - intros k. rewrite lookup_insert_is_Some', Hd. split; [tauto | intros [<- | ?]; eauto].
  - intros k m Hk. destruct (Hc _ _ Hk) as [Hck ?]. rewrite Hs in Hck. mult.
  - intros k Hk. rewrite lookup_insert_is_Some'. right. apply Hl. rewrite Hs. mult.
  - intros k. rewrite lookup_insert_is_Some'. intros Hk. assert (is_Some (l !! k)) as [ps Hps]%Hch by (destruct Hk as [<- | ?]; eauto).
    destruct (links_unlink l p _ _ Hps) as (qs & ? & _). eauto.
Qed.

(** ** The blocks behind the pbufs *)

(** Where the bytes of a block start, counted as [sp_payload] counts. *)
Definition base (b : spbuf) : Z := match sp_type b with PBUF_RAM | PBUF_POOL => SIZEOF_STRUCT_PBUF | _ => 0 end.
(** The type fits the memory the pbuf is in, so that it is released to it, and the
    payload is in its block. *)
Definition kind_ok (p : pptr) (b : spbuf) : Prop :=
  match p with
  | PoolPtr _ => sp_type b = PBUF_POOL
  | RefPtr _ => sp_type b = PBUF_ROM \/ sp_type b = PBUF_REF
  | RamPtr _ => sp_type b = PBUF_RAM
  end.
Definition typed (p : pptr) (b : spbuf) : Prop :=
  0 <= sp_len b /\ kind_ok p b /\
  match p with
  | RefPtr _ => True
  | _ => SIZEOF_STRUCT_PBUF <= sp_payload b /\ sp_payload b - SIZEOF_STRUCT_PBUF + sp_len b <= Zlen (sp_block b)
  end.
(** What is known of every structure in memory: at least its kind, and nothing
    about its count. *)
Class Structs (T : pptr -> spbuf -> Prop) := {
  structs_kind : forall p b, T p b -> kind_ok p b;
  structs_ref : forall p b r, T p b -> T p (with_ref r b);
  structs_next : forall p b n, T p b -> T p (with_next n b)
}.
#[export] Instance kind_structs : Structs kind_ok.
Proof. by split. Qed.
#[export] Instance typed_structs : Structs typed.
Proof. split; [by intros p b (_ & ? & _) | by intros p b r | by intros p b n]. Qed.

(** The allocated blocks are the pbufs in memory, and a heap block holds its
    structure and its bytes. *)
Record pools_ok (s : pstore) (up ur : gset nat) (L : list (Z * Z)) : Prop := {
  po_pool : memp_ok PBUF_POOL_SIZE up (ps_pool s);
  po_up : forall e, e ∈ up <-> is_Some (ps_mem s !! PoolPtr e);
  po_refs : memp_ok MEMP_NUM_PBUF ur (ps_refs s);
  po_ur : forall e, e ∈ ur <-> is_Some (ps_mem s !! RefPtr e);
  po_heap : heap_rel (ps_heap s) L;
  po_L : forall o, o ∈ L.*1 <-> is_Some (ps_mem s !! RamPtr o);
  po_room : forall o n b, (o, n) ∈ L -> ps_mem s !! RamPtr o = Some b -> SIZEOF_STRUCT_PBUF + Zlen (sp_block b) <= n
}.

Record store_at (T : pptr -> spbuf -> Prop) (ext : gmultiset pptr) (s : pstore) : Prop := {
  so_refs : refs_ok ext (sp_next <$> ps_mem s) (sp_ref <$> ps_mem s);
  so_pools : exists up ur L, pools_ok s up ur L;
  so_typed : map_Forall T (ps_mem s)
}.
Notation store_ok := (store_at typed).

(** Changes of the structures that keep what is allocated. *)
Lemma pools_ext s up ur L m' : pools_ok s up ur L -> (forall k, is_Some (m' !! k) <-> is_Some (ps_mem s !! k)) ->
  (forall k b b', ps_mem s !! k = Some b -> m' !! k = Some b' -> Zlen (sp_block b') <= Zlen (sp_block b)) ->
  pools_ok (set_mem (fun _ => m') s) up ur L.
Proof.
  intros [] Hd Hb. split; cbn; try done; try (intros e; rewrite Hd; auto).
  intros o n c Ho Hc. assert (is_Some (ps_mem s !! RamPtr o)) as [b Hm] by (apply Hd; eauto).
  specialize (Hb _ _ _ Hm Hc). specialize (po_room0 _ _ _ Ho Hm). lia.
Qed.
Lemma pools_modify s up ur L p b b' : pools_ok s up ur L -> ps_mem s !! p = Some b ->
  Zlen (sp_block b') <= Zlen (sp_block b) -> pools_ok (set_mem <[p := b']> s) up ur L.
Proof.
  intros Hok Hp Hb. apply (pools_ext s up ur L (<[p := b']> (ps_mem s)) Hok).
  - intros q. rewrite lookup_insert_is_Some'. split; [intros [<- | ?]; eauto | tauto].
  - intros k c c' Hc [[<- <-] | [Hne Hc']]%lookup_insert_Some; congruence || (rewrite Hc in Hc'; injection Hc' as <-; lia).
Qed.

Lemma fst_elem (L : list (Z * Z)) o : o ∈ L.*1 <-> exists n, (o, n) ∈ L.
Proof.
  rewrite list_elem_of_fmap. split; [intros ([x n] & -> & ?); eauto | intros (n & ?); by exists (o, n)].
Qed.

Lemma is_Some_delete (m : gmap pptr spbuf) p q : is_Some (delete p m !! q) <-> p <> q /\ is_Some (m !! q).
Proof. apply lookup_delete_is_Some. Qed.

(** Returning a block to where it came from. *)
Lemma dealloc_ok s up ur L p b : pools_ok s up ur L -> ps_mem s !! p = Some b -> kind_ok p b ->
  exists s' up' ur' L', dealloc (sp_type b) p s = Some (tt, s') /\ ps_mem s' = delete p (ps_mem s) /\ pools_ok s' up' ur' L'
  /\ pbuf_free_ooseq_pending s' = pbuf_free_ooseq_pending s.
Proof.
  intros Hok Hp Ht. destruct p as [e | e | o]; cbn in Ht.
  - rewrite Ht. cbn. do 5 eexists; [done |]. split; [done |]. split; [| done]. destruct Hok.
    assert (He : e ∈ up) by (apply po_up0; eauto). split; cbn; try done.
    + by apply memp_free_ok.
    + intros x. rewrite is_Some_delete, <- po_up0. set_solver.
    + intros x. rewrite is_Some_delete, <- po_ur0. naive_solver.
    + intros x. rewrite is_Some_delete, <- po_L0. naive_solver.
    + intros x n c Hx [_ Hc]%lookup_delete_Some. eauto.
  - assert (E : dealloc (sp_type b) (RefPtr e) s = Some (tt, set_refs (memp_free (Some e) (ps_refs s)) (set_mem (delete (RefPtr e)) s)))
      by (by destruct Ht as [-> | ->]).
    rewrite E. do 5 eexists; [done |]. split; [done |]. split; [| done]. destruct Hok.
    assert (He : e ∈ ur) by (apply po_ur0; eauto). split; cbn; try done.
    + intros x. rewrite is_Some_delete, <- po_up0. naive_solver.
    + by apply memp_free_ok.
    + intros x. rewrite is_Some_delete, <- po_ur0. set_solver.
    + intros x. rewrite is_Some_delete, <- po_L0. naive_solver.
    + intros x n c Hx [_ Hc]%lookup_delete_Some. eauto.
  - rewrite Ht. cbn [dealloc]. destruct Hok. assert (exists n, (o, n) ∈ L) as [n Ho] by (apply fst_elem, po_L0; eauto).
    destruct (rel_free _ _ _ _ po_heap0 Ho) as (L' & HL & Hh). do 5 eexists; [done |]. split; [done |]. split; [| done].
    pose proof (rel_NoDup _ _ po_heap0) as Hnd. rewrite HL in Hnd. cbn in Hnd. apply NoDup_cons in Hnd as [Hni _].
    split; cbn; try done.
    + intros x. rewrite is_Some_delete, <- po_up0. naive_solver.
    + intros x. rewrite is_Some_delete, <- po_ur0. naive_solver.
    + intros x. rewrite is_Some_delete, <- po_L0, HL. cbn. rewrite elem_of_cons. naive_solver.
    + intros x m c Hx [_ Hc]%lookup_delete_Some. eapply po_room0; [| done]. rewrite HL. by right.
Qed.

(** ** Releasing a chain *)

(** What [pbuf_free] promises for the chain [ps]: the leading pbufs with one
    reference go, their number is reported, and the next one loses a reference. *)
Fixpoint release (m : gmap pptr spbuf) (ps : list pptr) : nat * gmap pptr spbuf :=
  match ps with
  | [] => (0%nat, m)
  | q :: ps =>
      match m !! q with
      | None => (0%nat, m)
      | Some b =>
          if sp_ref b =? 1 then let '(n, m') := release (delete q m) ps in (S n, m')
          else (0%nat, <[q := with_ref (sp_ref b - 1) b]> m)
      end
  end.

Lemma links_modify (m : gmap pptr spbuf) p b b' : m !! p = Some b -> sp_next b' = sp_next b ->
  sp_next <$> <[p := b']> m = sp_next <$> m.
Proof. intros Hp E. rewrite fmap_insert, E, insert_id; [done |]. by rewrite lookup_fmap, Hp. Qed.
Lemma counts_modify (m : gmap pptr spbuf) p b b' : m !! p = Some b -> sp_ref b' = sp_ref b ->
  sp_ref <$> <[p := b']> m = sp_ref <$> m.
Proof. intros Hp E. rewrite fmap_insert, E, insert_id; [done |]. by rewrite lookup_fmap, Hp. Qed.

Lemma chain_head (m : gmap pptr spbuf) p ps : chain (sp_next <$> m) p ps ->
  match ps with
  | [] => p = None
  | q :: ps => p = Some q /\ exists b, m !! q = Some b /\ chain (sp_next <$> m) (sp_next b) ps
  end.
Proof.
  destruct ps as [| q ps]; [done |]. intros (-> & n & Hn & Hc). split; [done |].
  apply lookup_fmap_Some in Hn as (b & <- & Hb). eauto.
Qed.

Lemma count_of T ext s p b : store_at T ext s -> ps_mem s !! p = Some b -> 0 < sp_ref b < 65536.
Proof. intros [Hr _ _] Hp. apply (rf_count _ _ _ Hr p). by rewrite lookup_fmap, Hp. Qed.
Lemma held T ext s p : store_at T ext s -> p ∈ ext -> exists b, ps_mem s !! p = Some b.
Proof.
  intros [Hr _ _] Hp. destruct (rf_live _ _ _ Hr p) as [n Hn]; [multiset_solver |].
  apply lookup_fmap_Some in Hn as (b & _ & Hb). eauto.
Qed.
Lemma chain_of T ext s p b : store_at T ext s -> ps_mem s !! p = Some b -> exists ps, chain (sp_next <$> ps_mem s) (Some p) (p :: ps).
Proof.
  intros [Hr _ _] Hp. destruct (rf_chain _ _ _ Hr p) as [ps Hps]; [by rewrite lookup_fmap, Hp |].
  destruct ps as [| q ps]; [done |]. assert (q = p) as -> by (by destruct Hps as [[= <-] _]). eauto.
Qed.

(** The loop ends, frees nothing else and touches no freed pbuf. *)
Lemma free_loop_ok `{HT : Structs T} ps : forall ext s p fuel count, chain (sp_next <$> ps_mem s) p ps ->
  store_at T (opt_ms p ⊎ ext) s -> (length ps <= fuel)%nat -> 
  exists s', free_loop fuel count p s = Some (if bool_decide (fst (release (ps_mem s) ps) = 0%nat) then count
               else u8 (count + Z.of_nat (fst (release (ps_mem s) ps))), s')
  /\ ps_mem s' = snd (release (ps_mem s) ps) /\ store_at T ext s' /\ pbuf_free_ooseq_pending s' = pbuf_free_ooseq_pending s.
Proof.
  induction ps as [| q ps IH]; intros ext s p fuel count Hc%chain_head Hok Hf.
  { subst p. rewrite opt_ms_None in Hok. exists s. by destruct fuel. }
  destruct Hc as (-> & b & Hb & Hc). destruct fuel as [| fuel]; [cbn in Hf; lia |].
  pose proof (count_of _ _ _ _ _ Hok Hb) as Hcnt. destruct Hok as [Hr (up & ur & L & Hp) Ht].
  cbn [free_loop release]. unfold mbind, PM_bind, load, modify. rewrite Hb. cbn [mbind option_bind].
  rewrite Hb. cbn [mbind option_bind].
  assert (Hu : u16 (sp_ref b - 1) = sp_ref b - 1) by word. rewrite Hu.
  destruct (Z.eqb_spec (sp_ref b) 1) as [E1 | E1].
  - assert (Ez : (sp_ref b - 1 =? 0) = true) by (apply Z.eqb_eq; lia). rewrite Ez.
    assert (Hr1 : (sp_ref <$> ps_mem s) !! q = Some 1) by (by rewrite lookup_fmap, Hb; cbn; rewrite E1).
    set (s1 := set_mem _ s).
    destruct (dealloc_ok s1 up ur L q (with_ref (sp_ref b - 1) b)) as (s2 & up' & ur' & L' & Hd & Hm & Hp2 & Hpend).
    { by eapply pools_modify. }
    { apply lookup_insert_eq. }
    { exact (structs_kind q b (Ht q b Hb)). }
    cbn [sp_type with_ref] in Hd. rewrite Hd. cbn [ps_mem s1 set_mem] in Hm. rewrite delete_insert_eq in Hm.
    assert (Hch : chain (sp_next <$> ps_mem s2) (sp_next b) ps).
    { rewrite Hm, fmap_delete. apply (links_ext (sp_next <$> ps_mem s)); [| done]. intros x Hx. apply lookup_delete_ne.
      intros <-. apply (proj2 (refs_sole _ _ _ _ Hr Hr1)). apply (links_tail _ (Some q) q ps); [| exact Hx].
      cbn. split; [done |]. exists (sp_next b). by rewrite lookup_fmap, Hb. }
    destruct (IH ext s2 (sp_next b) fuel (u8 (count + 1)) Hch) as (s3 & Hl & Hm3 & Hok3 & Hp3); [| cbn in Hf; lia |].
    { split; [| eauto |].
      - rewrite Hm, !fmap_delete. eapply refs_delete; [exact Hr | exact Hr1 | by rewrite lookup_fmap, Hb].
      - rewrite Hm. by apply map_Forall_delete. }
    exists s3. rewrite Hl, Hm3, Hm, Hp3, Hpend. destruct (release (delete q (ps_mem s)) ps) as [n m'] eqn:Er. cbn [fst snd].
    split; [| done]. do 2 f_equal. destruct n as [| n]; [done |]. cbn [bool_decide]. rewrite !bool_decide_false by lia. word.
  - assert (E0 : (sp_ref b - 1 =? 0) = false) by (apply Z.eqb_neq; lia). rewrite E0. eexists. split; [done |]. split; [done |].
    split; [| done]. split.
    + cbn. rewrite (links_modify _ _ b) by done. rewrite fmap_insert. cbn.
      eapply refs_drop; [exact Hr | by rewrite lookup_fmap, Hb | done].
    + exists up, ur, L. by eapply pools_modify.
    + cbn. apply map_Forall_insert_2; [by apply structs_ref, (Ht q b Hb) | done].
Qed.

Lemma pbuf_free_ok `{HT : Structs T} ext s p : store_at T ({[+ p +]} ⊎ ext) s ->
  exists ps s', chain (sp_next <$> ps_mem s) (Some p) (p :: ps)
  /\ pbuf_free (Some p) s = Some (u8 (Z.of_nat (fst (release (ps_mem s) (p :: ps)))), s')
  /\ ps_mem s' = snd (release (ps_mem s) (p :: ps)) /\ store_at T ext s'
  /\ pbuf_free_ooseq_pending s' = pbuf_free_ooseq_pending s.
Proof.
  intros Hok. destruct (held _ _ _ p Hok) as [b Hb]; [multiset_solver |].
  destruct (chain_of _ _ _ _ _ Hok Hb) as [ps Hps]. exists ps.
  destruct (free_loop_ok (p :: ps) ext s (Some p) (store_fuel s) 0 Hps Hok) as (s' & E & H).
  { pose proof (chain_length _ _ _ Hps) as Hl. by rewrite map_size_fmap in Hl. }
  exists s'. split; [done |]. split; [| done]. unfold pbuf_free, with_fuel. rewrite E. do 2 f_equal.
  by destruct (fst (release (ps_mem s) (p :: ps))).
Qed.

(** A pbuf off the chain does not matter to its release. *)
Lemma release_sub ps : forall m k b', snd (release m ps) !! k = Some b' ->
  exists b, m !! k = Some b /\ (b' = b \/ b' = with_ref (sp_ref b - 1) b /\ k ∈ ps).
Proof.
  induction ps as [| q ps IH]; intros m k b' H; cbn [release] in H; [eauto |].
  destruct (m !! q) as [b |] eqn:Hq; [| eauto]. destruct (sp_ref b =? 1).
  - destruct (release (delete q m) ps) as [n m'] eqn:E. cbn in H. specialize (IH (delete q m) k b'). rewrite E in IH.
    destruct (IH H) as (c & [_ Hc]%lookup_delete_Some & [? | [? ?]]); exists c; split; auto. right. split; [done | by right].
  - cbn in H. apply lookup_insert_Some in H as [[<- <-] | [_ H]]; [| eauto]. exists b. split; [done |]. right. split; [done | left].
Qed.
Lemma release_other ps : forall m k, k ∉ ps -> snd (release m ps) !! k = m !! k.
Proof.
  induction ps as [| q ps IH]; intros m k Hk; cbn [release]; [done |]. apply not_elem_of_cons in Hk as [Hne Hk].
  destruct (m !! q) as [b |]; [| done]. destruct (sp_ref b =? 1).
  - specialize (IH (delete q m) k Hk). destruct (release _ ps). cbn in *. rewrite IH. by apply lookup_delete_ne.
  - by apply lookup_insert_ne.
Qed.

Definition put_pbuf (q : pptr) (b : spbuf) : pstore -> pstore := set_mem <[q := b]>.
Lemma put_ne q x b s : q <> x -> ps_mem (put_pbuf q b s) !! x = ps_mem s !! x.
Proof. apply lookup_insert_ne. Qed.
Lemma put_eq q b s : ps_mem (put_pbuf q b s) !! q = Some b.
Proof. apply lookup_insert_eq. Qed.
Lemma pm_bind {A B} (m : PM A) (f : A -> PM B) s a s' : m s = Some (a, s') -> (m ≫= f) s = f a s'.
Proof. unfold mbind, PM_bind. by intros ->. Qed.
Lemma load_eq p s b : ps_mem s !! p = Some b -> load p s = Some (b, s).
Proof. unfold load. by intros ->. Qed.
Lemma modify_eq f p s b : ps_mem s !! p = Some b -> modify f p s = Some (tt, put_pbuf p (f b) s).
Proof. unfold modify. by intros ->. Qed.
Lemma put_put q b c s : put_pbuf q b (put_pbuf q c s) = put_pbuf q b s.
Proof. unfold put_pbuf, set_mem. cbn. by rewrite insert_insert_eq. Qed.
Lemma put_comm q x b c s : q <> x -> put_pbuf q b (put_pbuf x c s) = put_pbuf x c (put_pbuf q b s).
Proof. intros. unfold put_pbuf, set_mem. cbn. by rewrite insert_insert_ne. Qed.
Lemma put_same q b s : ps_mem s !! q = Some b -> put_pbuf q b s = s.
Proof. intros H. unfold put_pbuf, set_mem. rewrite insert_id by done. by destruct s. Qed.

Lemma dealloc_frame t x s s' q b : q <> x -> dealloc t x s = Some (tt, s') ->
  dealloc t x (put_pbuf q b s) = Some (tt, put_pbuf q b s').
Proof.
  intros Hne. destruct t, x; cbn; try done; intros [= <-]; unfold put_pbuf, set_mem, set_pool, set_refs, set_heap; cbn;
    by rewrite delete_insert_ne.
Qed.

Lemma free_loop_frame fuel : forall count p ps s r s' q b, chain (sp_next <$> ps_mem s) p ps -> q ∉ ps ->
  free_loop fuel count p s = Some (r, s') -> free_loop fuel count p (put_pbuf q b s) = Some (r, put_pbuf q b s').
Proof.
  induction fuel as [| fuel IH]; intros count p ps s r s' q b Hc Hq; (destruct p as [x |]; cbn [free_loop];
    [| by intros [= <- <-]]); [done |].
  pose proof (chain_NoDup _ _ _ Hc) as Hnd. destruct ps as [| y ps]; [by apply chain_head in Hc |].
  apply chain_head in Hc as ([= <-] & c & Hx & Hc). apply not_elem_of_cons in Hq as [Hne Hq].
  assert (Hx' : ps_mem (put_pbuf q b s) !! x = Some c) by (by rewrite put_ne).
  rewrite !(pm_bind _ _ _ _ _ (load_eq _ _ _ Hx)), !(pm_bind _ _ _ _ _ (load_eq _ _ _ Hx')).
  rewrite !(pm_bind _ _ _ _ _ (modify_eq _ _ _ _ Hx)), !(pm_bind _ _ _ _ _ (modify_eq _ _ _ _ Hx')).
  rewrite <- (put_comm q x) by done. destruct (u16 (sp_ref c - 1) =? 0); [| by intros [= <- <-]].
  unfold mbind, PM_bind. destruct (dealloc (sp_type c) x (put_pbuf x _ s)) as [[[] s2] |] eqn:Ed; [| done].
  rewrite (dealloc_frame _ _ _ _ q b Hne Ed). apply IH with (ps := ps); [| done].
  assert (Hm : ps_mem s2 = delete x (ps_mem s)).
  { revert Ed. destruct (sp_type c), x; cbn; try done; intros [= <-]; cbn; apply delete_insert_eq. }
  rewrite Hm, fmap_delete. apply NoDup_cons in Hnd as [Hni _]. apply (links_ext (sp_next <$> ps_mem s)); [| done].
  intros z Hz. apply lookup_delete_ne. by intros <-.
Qed.

(** ** Changes along a chain *)

Ltac step_load H := rewrite (pm_bind _ _ _ _ _ (load_eq _ _ _ H)).
Ltac step_modify H := rewrite (pm_bind _ _ _ _ _ (modify_eq _ _ _ _ H)).

Definition on_chain (ps : list pptr) (f : pptr -> spbuf -> spbuf) (m : gmap pptr spbuf) : gmap pptr spbuf :=
  map_imap (fun k b => Some (if decide (k ∈ ps) then f k b else b)) m.

Lemma on_chain_at ps f m k : on_chain ps f m !! k = (if decide (k ∈ ps) then f k else id) <$> m !! k.
Proof. unfold on_chain. rewrite map_lookup_imap. destruct (m !! k); cbn; [| done]. by case_decide. Qed.
Lemma on_chain_nil f m : on_chain [] f m = m.
Proof. apply map_eq. intros k. rewrite on_chain_at, decide_False by apply not_elem_of_nil. by destruct (m !! k). Qed.
Lemma on_chain_cons p ps f m b : m !! p = Some b -> p ∉ ps -> on_chain (p :: ps) f m = on_chain ps f (<[p := f p b]> m).
Proof.
  intros Hp Hn. apply map_eq. intros k. rewrite !on_chain_at. destruct (decide (k = p)) as [-> | Hne].
  - rewrite lookup_insert_eq, Hp, decide_True by left. by rewrite decide_False.
  - rewrite lookup_insert_ne by done. destruct (decide (k ∈ ps)).
    + by rewrite decide_True by by right.
    + rewrite decide_False; [done |]. by intros [? | ?]%elem_of_cons.
Qed.
Lemma on_chain_fmap {A} (g : spbuf -> A) ps f m : (forall k b, k ∈ ps -> m !! k = Some b -> g (f k b) = g b) ->
  g <$> on_chain ps f m = g <$> m.
Proof.
  intros H. apply map_eq. intros k. rewrite !lookup_fmap, on_chain_at. destruct (m !! k) as [b |] eqn:E; [| done].
  case_decide; cbn; [by rewrite (H k b) | done].
Qed.
Lemma on_chain_is_Some ps f m k : is_Some (on_chain ps f m !! k) <-> is_Some (m !! k).
Proof. rewrite on_chain_at. apply fmap_is_Some. Qed.
Lemma on_chain_pools s up ur L ps f : pools_ok s up ur L -> (forall k b, sp_block (f k b) = sp_block b) ->
  pools_ok (set_mem (on_chain ps f) s) up ur L.
Proof.
  intros Hok Hf. apply (pools_ext s up ur L (on_chain ps f (ps_mem s)) Hok); [apply on_chain_is_Some |].
  intros k b b' Hb. rewrite on_chain_at, Hb. case_decide; cbn; intros [= <-]; [by rewrite Hf | done].
Qed.
Lemma on_chain_typed ps f m : map_Forall typed m -> (forall k b, typed k b -> typed k (f k b)) -> map_Forall typed (on_chain ps f m).
Proof.
  intros Ht Hf k b. rewrite on_chain_at. destruct (m !! k) as [c |] eqn:E; [| done]. specialize (Ht k c E).
  case_decide; cbn; intros [= <-]; auto.
Qed.

(** ** Lengths *)

(** The invariant of [tot_len] the header file states, for packets: what is
    behind a pbuf counts in its total. *)
Definition tot_of (m : gmap pptr spbuf) (p : option pptr) : Z := from_option (fun q => from_option sp_tot_len 0 (m !! q)) 0 p.
Definition lens_ok (m : gmap pptr spbuf) : Prop :=
  map_Forall (fun p b => sp_tot_len b = sp_len b + tot_of m (sp_next b) /\ sp_tot_len b < 65536) m.

(** No pbuf outside the chain [ps] points into it. *)
Definition private (l : links) (ps : list pptr) : Prop := forall p x, l !! p = Some (Some x) -> x ∈ ps -> p ∈ ps.

Lemma tot_range ext s p b : store_ok ext s -> lens_ok (ps_mem s) -> ps_mem s !! p = Some b -> 0 <= sp_len b <= sp_tot_len b.
Proof.
  intros Hok Hl Hp. destruct (chain_of _ _ _ _ _ Hok Hp) as [ps Hps]. destruct Hok as [_ _ Ht]. revert p b Hp Hps.
  induction ps as [| q ps IH]; intros p b Hp Hc; apply chain_head in Hc as (_ & c & Hc & Hps); rewrite Hp in Hc; injection Hc as <-;
    destruct (Hl _ _ Hp) as [E _], (Ht _ _ Hp) as [H0 _]; rewrite E; apply chain_head in Hps.
  - rewrite Hps. cbn. lia.
  - destruct Hps as (En & c & Hc & Hps). rewrite En. cbn. rewrite Hc. cbn. specialize (IH q c Hc).
    assert (0 <= sp_len c <= sp_tot_len c); [| lia]. apply IH. cbn. split; [done |]. exists (sp_next c). by rewrite lookup_fmap, Hc.
Qed.

(** Removing pbufs nobody points to keeps it. *)
Lemma lens_sub ext r (m m' : gmap pptr spbuf) : refs_ok ext (sp_next <$> m') r -> lens_ok m ->
  (forall k b', m' !! k = Some b' -> exists b, m !! k = Some b /\ sp_len b' = sp_len b /\ sp_tot_len b' = sp_tot_len b /\ sp_next b' = sp_next b) ->
  lens_ok m'.
Proof.
  intros Hr Hl Hs k b' Hk. destruct (Hs _ _ Hk) as (b & Hb & E1 & E2 & E3). rewrite E1, E2, E3.
  destruct (Hl _ _ Hb) as [E Hlt]. split; [| done]. rewrite E. f_equal. destruct (sp_next b) as [x |] eqn:En; [| done]. cbn.
  destruct (rf_live _ _ _ Hr x) as [n Hx].
  { apply gmultiset_elem_of_disj_union. right. apply (succs_elem _ k). by rewrite lookup_fmap, Hk; cbn; rewrite E3. }
  apply lookup_fmap_Some in Hx as (c' & _ & Hc). destruct (Hs _ _ Hc) as (c & Hc0 & _ & Ec & _).
  rewrite Hc, Hc0. cbn. by rewrite Ec.
Qed.
Lemma free_lens ext (s' : pstore) m ps : store_ok ext s' -> ps_mem s' = snd (release m ps) -> lens_ok m -> lens_ok (ps_mem s').
Proof.
  intros [Hr _ _] E Hl. eapply lens_sub; [exact Hr | exact Hl |]. intros k b'. rewrite E.
  intros (b & Hb & [-> | [-> _]])%release_sub; eauto.
Qed.

Lemma tot_of_put m p b x : x <> Some p -> tot_of (<[p := b]> m) x = tot_of m x.
Proof. destruct x as [x |]; [| done]. intros Hne. cbn. rewrite lookup_insert_ne; congruence. Qed.
Lemma lens_put m p b b' : lens_ok m -> m !! p = Some b -> sp_next b' <> Some p ->
  sp_tot_len b' = sp_len b' + tot_of m (sp_next b') -> sp_tot_len b' < 65536 ->
  sp_tot_len b' = sp_tot_len b \/ p ∉ succs (sp_next <$> m) -> lens_ok (<[p := b']> m).
Proof.
  intros Hl Hp Hn Ht Hlt Hpred k c [[<- <-] | [Hne Hk]]%lookup_insert_Some; [by rewrite tot_of_put |].
  destruct (Hl _ _ Hk) as [E ?]. split; [| done]. rewrite E. f_equal.
  destruct (decide (sp_next c = Some p)) as [Ec | Hc]; [| by rewrite tot_of_put].
  destruct Hpred as [Et | Hni]; [rewrite Ec; cbn; by rewrite lookup_insert_eq, Hp; cbn; rewrite Et |].
  exfalso. apply Hni. apply (succs_elem _ k). by rewrite lookup_fmap, Hk; cbn; rewrite Ec.
Qed.

(** No pbuf is its own successor. *)
Lemma next_other ext s p b : store_ok ext s -> ps_mem s !! p = Some b -> sp_next b <> Some p.
Proof.
  intros Hok Hp E. destruct (chain_of _ _ _ _ _ Hok Hp) as [ps Hps]. pose proof (chain_NoDup _ _ _ Hps) as [Hni _]%NoDup_cons.
  apply Hni. apply chain_head in Hps as (_ & c & Hc & Hps). rewrite Hp in Hc. injection Hc as <-. rewrite E in Hps.
  destruct ps; [by apply chain_head in Hps |]. apply chain_head in Hps as ([= <-] & _). left.
Qed.

(** A structure changed in place, with its link and its count. *)
Lemma put_ok `{HT : Structs T} ext s p b b' : store_at T ext s -> ps_mem s !! p = Some b -> sp_next b' = sp_next b -> sp_ref b' = sp_ref b ->
  T p b' -> Zlen (sp_block b') <= Zlen (sp_block b) -> store_at T ext (put_pbuf p b' s).
Proof.
  intros [Hr (up & ur & L & Hp) Ht] Hb En Er Hty Hz. split.
  - cbn. by rewrite (links_modify _ _ b), (counts_modify _ _ b).
  - exists up, ur, L. by eapply pools_modify.
  - cbn. by apply map_Forall_insert_2.
Qed.

(** ** The operations keep the memory consistent *)

Lemma ref_at `{HT : Structs T} ext s p b : store_at T ext s -> ps_mem s !! p = Some b -> sp_ref b < 65535 ->
  exists s', pbuf_ref (Some p) s = Some (tt, s') /\ store_at T ({[+ p +]} ⊎ ext) s'
  /\ ps_mem s' = <[p := with_ref (sp_ref b + 1) b]> (ps_mem s).
Proof.
  intros Hok Hp Hlt. pose proof (count_of _ _ _ _ _ Hok Hp).
  cbn [pbuf_ref]. rewrite (modify_eq _ _ _ _ Hp). assert (Hu : u16 (sp_ref b + 1) = sp_ref b + 1) by word. rewrite Hu.
  eexists. split; [done |]. destruct Hok as [Hr (up & ur & L & Hpo) Ht]. split; [split | done].
  - cbn. rewrite (links_modify _ _ b), fmap_insert by done. cbn. apply refs_take; [done | by rewrite lookup_fmap, Hp | done].
  - exists up, ur, L. by eapply pools_modify.
  - cbn. apply map_Forall_insert_2; [by apply structs_ref, (Ht p b Hp) | done].
Qed.
Lemma ref_ok ext s p b : store_ok ext s -> lens_ok (ps_mem s) -> ps_mem s !! p = Some b -> sp_ref b < 65535 ->
  exists s', pbuf_ref (Some p) s = Some (tt, s') /\ store_ok ({[+ p +]} ⊎ ext) s' /\ lens_ok (ps_mem s')
  /\ ps_mem s' = <[p := with_ref (sp_ref b + 1) b]> (ps_mem s).
Proof.
  intros Hok Hl Hp Hlt. pose proof (next_other _ _ _ _ Hok Hp) as Hn.
  destruct (ref_at ext s p b Hok Hp Hlt) as (s' & E & Hok' & Hm). exists s'. split; [done |]. split; [done |]. split; [| done].
  rewrite Hm. destruct (Hl _ _ Hp). apply (lens_put _ _ b); try done. by left.
Qed.

Lemma header_ok ext s p b inc : store_ok ext s -> lens_ok (ps_mem s) -> ps_mem s !! p = Some b ->
  p ∉ succs (sp_next <$> ps_mem s) -> -32768 <= inc < 32768 -> sp_tot_len b + inc < 65536 ->
  exists r s', pbuf_header (Some p) inc s = Some (r, s') /\ store_ok ext s' /\ lens_ok (ps_mem s').
Proof.
  intros Hok Hl Hp Hpred Hinc Hlt. pose proof (tot_range _ _ _ _ Hok Hl Hp) as Hlen. cbn [pbuf_header].
  destruct (Z.eqb_spec inc 0) as [-> | H0]; [by do 2 eexists |]. step_load Hp.
  assert (Hneg : (inc <? 0) && (sp_len b <? u16 (- inc)) = (sp_len b + inc <? 0)).
  { destruct (Z.ltb_spec inc 0); cbn; [| symmetry; apply Z.ltb_ge; lia].
    rewrite u16_small by (unfold is_u16; lia). destruct (Z.ltb_spec (sp_len b) (- inc)); symmetry; [apply Z.ltb_lt | apply Z.ltb_ge]; lia. }
  rewrite Hneg. destruct (Z.ltb_spec (sp_len b + inc) 0); [by do 2 eexists |].
  destruct (Hl _ _ Hp) as [Et _]. pose proof (so_typed _ _ _ Hok p b Hp) as (_ & Hty & Hroom). unfold kind_ok in Hty.
  set (b' := with_payload (sp_payload b - inc) (with_lens (u16 (sp_tot_len b + inc)) (u16 (sp_len b + inc)) b)).
  assert (Etot : sp_tot_len b' = sp_tot_len b + inc) by (cbn; apply u16_small; unfold is_u16; lia).
  assert (Elen : sp_len b' = sp_len b + inc) by (cbn; apply u16_small; unfold is_u16; lia).
  assert (Hb' : (match p with RefPtr _ => True | _ => SIZEOF_STRUCT_PBUF <= sp_payload b - inc end) ->
    store_ok ext (put_pbuf p b' s) /\ lens_ok (ps_mem (put_pbuf p b' s))).
  { intros Hpay. split.
    - apply (put_ok _ _ _ b); try done. split; [cbn; word |]. split; [by destruct p | ].
      cbn. rewrite u16_small by (unfold is_u16; lia). destruct p; try done; split; try done; lia.
    - apply (lens_put _ _ b); try done; [exact (next_other _ _ _ _ Hok Hp) | | rewrite Etot; lia | by right].
      rewrite Etot, Elen. change (sp_next b') with (sp_next b). lia. }
  assert (Hgo : exists s', modify (fun b => with_payload (sp_payload b - inc) (with_lens (u16 (sp_tot_len b + inc)) (u16 (sp_len b + inc)) b)) p s
      = Some (tt, s') /\ s' = put_pbuf p b' s) by (eexists; by rewrite (modify_eq _ _ _ _ Hp)).
  destruct Hgo as (s' & Hgo & ->).
  destruct (sp_type b) eqn:Ety; try (destruct (Z.ltb_spec (sp_payload b - inc) SIZEOF_STRUCT_PBUF); [by do 2 eexists |]);
    try (destruct (inc <? 0); [| by do 2 eexists]); rewrite (pm_bind _ _ _ _ _ Hgo); do 2 eexists; (split; [done |]); apply Hb'.
  all: destruct p; try done; try lia.
Qed.

(** [pbuf_cat] on the chain [p :: ps] that ends with [l]. *)
Definition cat_at (l t : pptr) (T : Z) (k : pptr) (b : spbuf) : spbuf :=
  with_next (if decide (k = l) then Some t else sp_next b) (with_lens (u16 (sp_tot_len b + T)) (sp_len b) b).

Lemma put_links p b b' s : ps_mem s !! p = Some b -> sp_next b' = sp_next b ->
  sp_next <$> ps_mem (put_pbuf p b' s) = sp_next <$> ps_mem s.
Proof. intros Hp E. exact (links_modify _ _ b _ Hp E). Qed.
Lemma put_on_chain q ps f b s : ps_mem s !! q = Some b -> q ∉ ps ->
  set_mem (on_chain ps f) (put_pbuf q (f q b) s) = set_mem (on_chain (q :: ps) f) s.
Proof. intros Hq Hn. unfold put_pbuf, set_mem. cbn. by rewrite (on_chain_cons q ps f _ b). Qed.

Lemma cat_loop_spec ps : forall fuel s p t tb, chain (sp_next <$> ps_mem s) (Some p) (p :: ps) -> t ∉ p :: ps ->
  ps_mem s !! t = Some tb -> (length ps <= fuel)%nat ->
  exists l, last (p :: ps) = Some l /\ (sp_next <$> ps_mem s) !! l = Some None
  /\ cat_loop fuel p t s = Some (tt, set_mem (on_chain (p :: ps) (cat_at l t (sp_tot_len tb))) s).
Proof.
  induction ps as [| q ps IH]; intros fuel s p t tb Hc Ht Htb Hf; pose proof (chain_NoDup _ _ _ Hc) as [Hp Hnd]%NoDup_cons;
    apply chain_head in Hc as (_ & b & Hb & Hc); pose proof Hc as Hc2; apply chain_head in Hc2;
    (destruct fuel as [| fuel]; [try (cbn in Hf; lia) |]); cbn [cat_loop]; step_load Htb; step_load Hb.
  1, 2: rewrite Hc2; exists p; (split; [done |]); (split; [by rewrite lookup_fmap, Hb; cbn; rewrite Hc2 |]);
    rewrite (modify_eq _ _ _ _ Hb), <- (put_on_chain p [] (cat_at p t (sp_tot_len tb)) b) by done; unfold cat_at at 2;
    rewrite decide_True by done; do 2 f_equal; unfold set_mem; cbn; by rewrite on_chain_nil.
  destruct Hc2 as (En & _). rewrite En. step_modify Hb. apply not_elem_of_cons in Ht as [Htp Ht].
  set (b' := with_lens (u16 (sp_tot_len b + sp_tot_len tb)) (sp_len b) b).
  destruct (IH fuel (put_pbuf p b' s) q t tb) as (l & Hl & Hll & Hlp); [| done | rewrite put_ne by congruence; done | cbn in Hf; lia |].
  { rewrite (put_links _ b), <- En by done. exact Hc. }
  rewrite (put_links _ b) in Hll by done. exists l. split; [done |]. split; [done |]. rewrite Hlp.
  rewrite <- (put_on_chain p (q :: ps) _ b) by done. do 4 f_equal. unfold cat_at. rewrite decide_False; [done |].
  intros <-. apply Hp. by apply last_Some_elem_of.
Qed.

Lemma on_chain_put ps f m l t : l ∈ ps -> (sp_next <$> m) !! l = Some None ->
  (forall k b, sp_next (f k b) = if decide (k = l) then Some t else sp_next b) ->
  sp_next <$> on_chain ps f m = <[l := Some t]> (sp_next <$> m).
Proof.
  intros Hl Hm Hf. apply map_eq. intros k. rewrite lookup_fmap, on_chain_at. destruct (decide (k = l)) as [-> | Hne].
  - rewrite lookup_insert_eq, decide_True by done. apply lookup_fmap_Some in Hm as (b & _ & ->). cbn. by rewrite Hf, decide_True.
  - rewrite lookup_insert_ne, lookup_fmap by done. destruct (m !! k) as [b |]; [| done]. cbn.
    case_decide; cbn; [by rewrite Hf, decide_False | done].
Qed.

(** Following links stays on the chain, and only its end has none. *)
Lemma chain_next l p ps k n : chain l p ps -> k ∈ ps -> l !! k = Some n ->
  match n with Some x => x ∈ ps | None => last ps = Some k end.
Proof.
  revert p; induction ps as [| q ps IH]; intros p Hc Hk Hn; [by apply not_elem_of_nil in Hk |].
  destruct Hc as (-> & n' & Hn' & Hc). apply elem_of_cons in Hk as [-> | Hk].
  - rewrite Hn in Hn'. injection Hn' as <-. destruct n as [x |], ps as [| y ps]; try done; destruct Hc as ([= ->] & _).
    right. left.
  - specialize (IH _ Hc Hk Hn). destruct n as [x |]; [by right |]. destruct ps; [by apply not_elem_of_nil in Hk | done].
Qed.
Lemma chain_last l p ps k : chain l p ps -> last ps = Some k -> l !! k = Some None.
Proof.
  revert p; induction ps as [| q ps IH]; intros p Hc Hl; [done |]. destruct Hc as (-> & n & Hn & Hc).
  destruct ps as [| q2 ps]; [| by apply (IH n)]. cbn in Hl, Hc. congruence.
Qed.
Lemma chain_tot ext s p b ps k c : store_ok ext s -> lens_ok (ps_mem s) -> chain (sp_next <$> ps_mem s) (Some p) ps ->
  ps_mem s !! p = Some b -> k ∈ ps -> ps_mem s !! k = Some c -> sp_tot_len c <= sp_tot_len b.
Proof.
  intros Hok Hl. revert p b; induction ps as [| q ps IH]; intros p b Hc Hp Hk Hkc; [by apply not_elem_of_nil in Hk |].
  apply chain_head in Hc as ([= ->] & b2 & Hb2 & Hc). rewrite Hp in Hb2. injection Hb2 as <-.
  apply elem_of_cons in Hk as [-> | Hk]; [rewrite Hp in Hkc; injection Hkc as <-; lia |].
  destruct ps as [| q2 ps]; [by apply not_elem_of_nil in Hk |]. pose proof Hc as Hc2.
  apply chain_head in Hc2 as (En & c2 & Hc2 & _). destruct (Hl _ _ Hp) as [E _]. pose proof (tot_range _ _ _ _ Hok Hl Hp).
  rewrite En in E, Hc. cbn in E. rewrite Hc2 in E. cbn in E. specialize (IH q2 c2 Hc Hc2 Hk Hkc). lia.
Qed.

Lemma cat_lens ext s h t hb tb hs l : store_ok ext s -> lens_ok (ps_mem s) ->
  ps_mem s !! h = Some hb -> ps_mem s !! t = Some tb -> chain (sp_next <$> ps_mem s) (Some h) hs ->
  private (sp_next <$> ps_mem s) hs -> t ∉ hs -> last hs = Some l -> sp_tot_len hb + sp_tot_len tb < 65536 ->
  lens_ok (on_chain hs (cat_at l t (sp_tot_len tb)) (ps_mem s)).
Proof.
  intros Hok Hl Hh Ht Hhs Hpriv Hth Hlast Htot k b'. rewrite on_chain_at. destruct (ps_mem s !! k) as [b |] eqn:Hk; [| done].
  destruct (Hl _ _ Hk) as [E Hlt]. pose proof (tot_range _ _ _ _ Hok Hl Ht). pose proof (tot_range _ _ _ _ Hok Hl Hk).
  assert (Hkn : (sp_next <$> ps_mem s) !! k = Some (sp_next b)) by (by rewrite lookup_fmap, Hk).
  destruct (decide (k ∈ hs)) as [Hin | Hni]; cbn; intros [= <-].
  - pose proof (chain_tot _ _ _ _ _ _ _ Hok Hl Hhs Hh Hin Hk). cbn [cat_at with_next with_lens sp_tot_len sp_len sp_next].
    rewrite u16_small by (unfold is_u16; lia). split; [| lia]. pose proof (chain_next _ _ _ _ _ Hhs Hin Hkn) as Hn.
    destruct (decide (k = l)) as [-> | Hne].
    + rewrite (chain_last _ _ _ _ Hhs Hlast) in Hkn. injection Hkn as En. rewrite <- En in E. cbn in E |- *.
      rewrite on_chain_at, decide_False, Ht by done. cbn. lia.
    + destruct (sp_next b) as [x |]; [| rewrite Hlast in Hn; congruence]. cbn in E |- *.
      rewrite on_chain_at, decide_True by done. destruct (chain_dom _ _ _ _ Hhs Hn) as [nx Hx].
      apply lookup_fmap_Some in Hx as (c & _ & Hc). rewrite Hc in E |- *. cbn in E |- *.
      pose proof (chain_tot _ _ _ _ _ _ _ Hok Hl Hhs Hh Hn Hc). pose proof (tot_range _ _ _ _ Hok Hl Hc).
      rewrite u16_small by (unfold is_u16; lia). lia.
  - split; [| done]. rewrite E. f_equal. destruct (sp_next b) as [x |]; [| done]. cbn. rewrite on_chain_at, decide_False.
    + by destruct (ps_mem s !! x).
    + intros Hx. by apply Hni, (Hpriv k x).
Qed.

Lemma cat_ok ext s h t hb tb hs ts : store_ok ({[+ t +]} ⊎ ext) s -> lens_ok (ps_mem s) ->
  ps_mem s !! h = Some hb -> ps_mem s !! t = Some tb ->
  chain (sp_next <$> ps_mem s) (Some h) hs -> chain (sp_next <$> ps_mem s) (Some t) ts ->
  private (sp_next <$> ps_mem s) hs -> (forall x, x ∈ hs -> x ∉ ts) -> sp_tot_len hb + sp_tot_len tb < 65536 ->
  exists s' l, pbuf_cat (Some h) (Some t) s = Some (tt, s') /\ store_ok ext s' /\ lens_ok (ps_mem s')
  /\ s' = set_mem (on_chain hs (cat_at l t (sp_tot_len tb))) s /\ last hs = Some l.
Proof.
  intros Hok Hl Hh Ht Hhs Hts Hpriv Hdisj Htot.
  assert (Htt : t ∈ ts) by (destruct ts; [done |]; destruct Hts as [[= <-] _]; left).
  assert (Hth : t ∉ hs) by (intros Hx; by apply (Hdisj t)).
  destruct hs as [| h0 hs]; [done |]. assert (h0 = h) as -> by (by destruct Hhs as [[= <-] _]).
  destruct (cat_loop_spec hs (store_fuel s) s h t tb Hhs Hth Ht) as (l & Hlast & Hnone & E).
  { pose proof (chain_length _ _ _ Hhs) as Hlen. rewrite map_size_fmap in Hlen. unfold store_fuel. cbn in Hlen. lia. }
  do 2 eexists. split; [exact E |]. pose proof (last_Some_elem_of _ _ Hlast) as Hlin.
  split; [| split; [exact (cat_lens _ s h t hb tb _ l Hok Hl Hh Ht Hhs Hpriv Hth Hlast Htot) | done]]. destruct Hok as [Hr (up & ur & L & Hpo) Hty]. split.
  - cbn [ps_mem set_mem]. rewrite (on_chain_put _ _ _ l t), on_chain_fmap by done. eapply refs_link; try done. by apply Hdisj.
  - exists up, ur, L. by apply on_chain_pools.
  - apply on_chain_typed; [done |]. intros k c Hc. exact Hc.
Qed.

(** Taking the tail off a pbuf: the client then holds a reference to it. *)
Lemma unlink_ok `{HT : Structs T} ext s q b b' t : store_at T ext s -> ps_mem s !! q = Some b -> sp_next b = Some t -> sp_next b' = None ->
  sp_ref b' = sp_ref b -> T q b' -> Zlen (sp_block b') <= Zlen (sp_block b) -> store_at T ({[+ t +]} ⊎ ext) (put_pbuf q b' s).
Proof.
  intros [Hr (up & ur & L & Hp) Ht] Hb En En' Er Hty Hz. split.
  - cbn. rewrite (counts_modify _ _ b), fmap_insert, En' by done. apply refs_unlink; [done |]. by rewrite lookup_fmap, Hb; cbn; rewrite En.
  - exists up, ur, L. by eapply pools_modify.
  - cbn. by apply map_Forall_insert_2.
Qed.

Lemma release_count ps : forall m, (fst (release m ps) <= length ps)%nat.
Proof.
  induction ps as [| q ps IH]; intros m; cbn; [lia |]. destruct (m !! q) as [b |]; [| cbn; lia].
  destruct (sp_ref b =? 1); [| cbn; lia]. specialize (IH (delete q m)). destruct (release _ ps). cbn in *. lia.
Qed.
(** The first pbuf is gone exactly if something is released. *)
Lemma release_head m q ps : is_Some (m !! q) -> q ∉ ps ->
  if bool_decide (fst (release m (q :: ps)) = 0%nat) then is_Some (snd (release m (q :: ps)) !! q)
  else snd (release m (q :: ps)) !! q = None.
Proof.
  intros [b Hb] Hq. cbn [release]. rewrite Hb. destruct (sp_ref b =? 1).
  - pose proof (release_other ps (delete q m) q Hq) as H. destruct (release _ ps). cbn [fst snd] in *.
    rewrite bool_decide_false, H by done. apply lookup_delete_eq.
  - cbn [fst snd]. rewrite bool_decide_true, lookup_insert_eq by done. by eexists.
Qed.

Lemma dechain_ok ext s p b : store_ok ext s -> lens_ok (ps_mem s) -> ps_mem s !! p = Some b ->
  p ∉ succs (sp_next <$> ps_mem s) ->
  exists r s' ps, pbuf_dechain p s = Some (r, s') /\ store_ok ext s' /\ lens_ok (ps_mem s')
  /\ chain (sp_next <$> ps_mem s) (sp_next b) ps
  /\ ((length ps < 256)%nat -> forall t, sp_next b = Some t -> if r is Some t' then t' = t /\ is_Some (ps_mem s' !! t) else ps_mem s' !! t = None).
Proof.
  intros Hok Hl Hp Hpred. unfold pbuf_dechain. step_load Hp. destruct (sp_next b) as [t |] eqn:En; [| by exists None, s, []].
  destruct (chain_of _ _ _ _ _ Hok Hp) as [ts Hc]. pose proof (chain_NoDup _ _ _ Hc) as [Hpt Hnd]%NoDup_cons.
  apply chain_head in Hc as (_ & b2 & Hb2 & Hc). rewrite Hp in Hb2. injection Hb2 as <-. rewrite En in Hc.
  destruct ts as [| t0 ts]; [done |]. pose proof Hc as Hc2. apply chain_head in Hc2 as ([= <-] & c & Ht & _).
  destruct (Hl _ _ Hp) as [Et Hlt]. pose proof (tot_range _ _ _ _ Hok Hl Hp). rewrite En in Et. cbn in Et. rewrite Ht in Et. cbn in Et.
  assert (Htp : t <> p) by (intros ->; by apply (next_other _ _ _ _ Hok Hp)).
  rewrite (pm_bind _ _ _ _ _ (modify_eq _ _ _ _ Ht)), u16_small by (unfold is_u16; lia).
  replace (sp_tot_len b - sp_len b) with (sp_tot_len c) by lia.
  replace (with_lens (sp_tot_len c) (sp_len c) c) with c by (by destruct c).
  rewrite put_same by done. step_modify Hp. set (b' := with_next None (with_lens (sp_len b) (sp_len b) b)).
  assert (Hok1 : store_ok ({[+ t +]} ⊎ ext) (put_pbuf p b' s)) by (eapply unlink_ok; try done; exact (so_typed _ _ _ Hok p b Hp)).
  destruct (pbuf_free_ok _ _ _ Hok1) as (ts1 & s' & Hc1 & Ef & Hm & Hok' & _). rewrite (pm_bind _ _ _ _ _ Ef).
  assert (Hc' : chain (sp_next <$> ps_mem (put_pbuf p b' s)) (Some t) (t :: ts)).
  { apply (links_ext (sp_next <$> ps_mem s)); [| done]. intros x Hx. rewrite !lookup_fmap, put_ne by (by intros <-). done. }
  pose proof (chain_det _ _ _ _ Hc1 Hc') as Ets. injection Ets as ->. do 2 eexists. exists (t :: ts). split; [done |]. split; [done |].
  split; [| split; [done |]].
  - eapply free_lens; [exact Hok' | exact Hm |]. apply (lens_put _ _ b); try done; [cbn; lia | cbn; lia | by right].
  - intros Hlen t' [= <-]. rewrite Hm. pose proof (release_count (t :: ts) (ps_mem (put_pbuf p b' s))) as Hn.
    pose proof (release_head (ps_mem (put_pbuf p b' s)) t ts) as Hh. apply NoDup_cons in Hnd as [Hni _].
    specialize (Hh ltac:(rewrite put_ne by done; eauto) Hni). revert Hh Hn.
    destruct (release _ (t :: ts)) as [n m'] eqn:E. cbn [fst snd]. intros Hh Hn. rewrite u8_small by (unfold is_u8; lia).
    destruct n as [| n]; [by split |]. by rewrite bool_decide_false in Hh.
Qed.

(** ** Shrinking *)

Lemma link_at (m : gmap pptr spbuf) k b : m !! k = Some b -> (sp_next <$> m) !! k = Some (sp_next b).
Proof. rewrite lookup_fmap. by intros ->. Qed.

(** The pbufs [pbuf_realloc] steps over get a smaller total. *)
Definition shrunk (grow : Z) (_ : pptr) (b : spbuf) : spbuf := with_lens (sp_tot_len b + grow) (sp_len b) b.

(** The invariant of [tot_len] for the pbufs [ps]. *)
Definition lens_on (m : gmap pptr spbuf) (ps : list pptr) : Prop :=
  forall p b, p ∈ ps -> m !! p = Some b -> 0 <= sp_len b <= sp_tot_len b
  /\ sp_tot_len b = sp_len b + tot_of m (sp_next b) /\ sp_tot_len b < 65536.

Lemma realloc_walk_spec ps : forall fuel s q b rem grow, chain (sp_next <$> ps_mem s) (Some q) (q :: ps) ->
  ps_mem s !! q = Some b -> lens_on (ps_mem s) (q :: ps) -> rem = sp_tot_len b + grow -> 0 <= rem -> -65536 < grow < 0 ->
  (length ps <= fuel)%nat ->
  exists ps1 q' ps2 b', q :: ps = ps1 ++ q' :: ps2 /\ ps_mem s !! q' = Some b' /\ 0 <= sp_tot_len b' + grow <= sp_len b'
  /\ realloc_walk fuel q rem grow s = Some ((q', sp_tot_len b' + grow), set_mem (on_chain ps1 (shrunk grow)) s)
  /\ (forall x c, x ∈ ps1 -> ps_mem s !! x = Some c -> sp_len c < sp_tot_len c + grow).
Proof.
  induction ps as [| y ps IH]; intros fuel s q b rem grow Hc Hq Hl -> H0 Hg Hf;
    destruct (Hl q b ltac:(left) Hq) as (Hr & Et & Hlt).
  all: assert (Hstop : sp_tot_len b + grow <= sp_len b -> realloc_walk fuel q (sp_tot_len b + grow) grow s
    = Some ((q, sp_tot_len b + grow), set_mem (on_chain [] (shrunk grow)) s)) by (intros Hle;
      destruct fuel; cbn [realloc_walk]; step_load Hq; rewrite (proj2 (Z.ltb_ge _ _) Hle); unfold mret, PM_ret;
      do 2 f_equal; unfold set_mem; rewrite on_chain_nil; by destruct s).
  all: pose proof (chain_NoDup _ _ _ Hc) as [Hni Hnd]%NoDup_cons; apply chain_head in Hc as (_ & b0 & Hb0 & Hc);
    rewrite Hq in Hb0; injection Hb0 as <-.
  - apply chain_head in Hc. rewrite Hc in Et. cbn in Et. exists [], q, [], b. split_and!; try done; try lia.
    + apply Hstop. lia.
    + by intros x c ?%not_elem_of_nil.
  - destruct (Z.leb_spec (sp_tot_len b + grow) (sp_len b)) as [Hle | Hgt].
    { exists [], q, (y :: ps), b. split_and!; try done; [by apply Hstop |]. by intros x c ?%not_elem_of_nil. }
    destruct fuel as [| fuel]; [cbn in Hf; lia |]. cbn [realloc_walk]. step_load Hq. rewrite (proj2 (Z.ltb_lt _ _) Hgt).
    pose proof Hc as Hc2. apply chain_head in Hc2 as (En & c & Hy & _). step_modify Hq. rewrite En. cbn [deref].
    rewrite En in Et. cbn in Et. rewrite Hy in Et. cbn in Et. unfold mret at 1, PM_ret.
    assert (Eu : u16 (sp_tot_len b + u16 grow) = sp_tot_len b + grow) by word. rewrite Eu.
    rewrite (u16_small (sp_tot_len b + grow - sp_len b)) by (unfold is_u16; lia).
    set (s1 := put_pbuf q (with_lens (sp_tot_len b + grow) (sp_len b) b) s).
    assert (Hyq : q <> y) by (intros ->; apply Hni; left).
    destruct (IH fuel s1 y c (sp_tot_len b + grow - sp_len b) grow) as (ps1 & q' & ps2 & b' & Eps & Hq' & Hrem & Ew & Hsk).
    + unfold s1. rewrite (put_links _ b), <- En by done. exact Hc.
    + unfold s1. by rewrite put_ne.
    + intros x d Hx Hd. unfold s1 in Hd |- *. rewrite put_ne in Hd by (by intros ->).
      destruct (Hl x d) as (H1 & H2 & H3); [by right | done |]. split; [done |]. split; [| done].
      unfold put_pbuf. cbn [ps_mem set_mem]. rewrite tot_of_put; [done |]. intros En2.
      pose proof (chain_next _ _ _ x _ Hc Hx (link_at _ _ _ Hd)) as Hn. by rewrite En2 in Hn.
    + lia.
    + lia.
    + done.
    + cbn in Hf. lia.
    + assert (Hq1 : q ∉ ps1) by (intros Hin; apply Hni; rewrite Eps; apply elem_of_app; by left).
      assert (Hqq : q <> q') by (intros <-; apply Hni; rewrite Eps; apply elem_of_app; right; left).
      unfold s1 in Hq'. rewrite put_ne in Hq' by done. exists (q :: ps1), q', ps2, b'. rewrite Eps. split; [done |].
      split; [done |]. split; [done |]. split.
      * unfold mbind, PM_bind. rewrite Ew. unfold s1. by rewrite <- (put_on_chain q ps1 (shrunk grow) b).
      * intros x d [-> | Hx]%elem_of_cons Hd; [rewrite Hq in Hd; injection Hd as <-; lia |].
        apply (Hsk x d Hx). unfold s1. rewrite put_ne; [done |]. by intros ->.
Qed.

(** The new last pbuf, its block trimmed. *)
Definition trimmed (rem_len : Z) (b : spbuf) : spbuf :=
  with_block (take (Z.to_nat (sp_payload b - SIZEOF_STRUCT_PBUF + rem_len)) (sp_block b)) b.

Lemma ram_room up ur L s o b : pools_ok s up ur L -> ps_mem s !! RamPtr o = Some b -> exists n, (o, n) ∈ L
  /\ SIZEOF_STRUCT_PBUF + Zlen (sp_block b) <= n /\ MIN_SIZE_ALIGNED <= n <= 30720 /\ n mod 4 = 0.
Proof.
  intros [] Hb. assert (exists n, (o, n) ∈ L) as [n Ho] by (apply fst_elem, po_L0; eauto). exists n.
  destruct (rel_bounds _ _ _ _ po_heap0 Ho) as (H1 & H2 & H3 & H4). unfold MEM_SIZE_ALIGNED, SIZEOF_STRUCT_MEM in *.
  split_and!; eauto. lia.
Qed.

Lemma trim_ok ext s q b rem : store_ok ext s -> ps_mem s !! q = Some b -> sp_type b = PBUF_RAM -> 0 <= rem <= sp_len b ->
  exists s', trim_pbuf q rem s = Some (q, s') /\ ps_mem s' !! q = Some (trimmed rem b)
  /\ ps_mem s' = <[q := trimmed rem b]> (ps_mem s) /\ store_ok ext (put_pbuf q (with_lens rem rem (trimmed rem b)) s').
Proof.
  intros [Hr (up & ur & L & Hpo) Ht] Hb Ety Hrem. destruct (Ht _ _ Hb) as (Hlen & Hty & Hpay).
  destruct q as [e | e | o]; [congruence | destruct Hty; congruence |]. destruct Hpay as [Hpay1 Hpay2]. destruct (ram_room _ _ _ _ _ _ Hpo Hb) as (n & Ho & Hn & Hn1 & Hn2).
  unfold trim_pbuf. step_load Hb. unfold SIZEOF_STRUCT_PBUF, MIN_SIZE_ALIGNED in *.
  set (size := u16 (u16 (sp_payload b) + rem)).
  assert (Esz : size = sp_payload b + rem) by (unfold size; rewrite !u16_small; unfold is_u16; rewrite ?u16_small; unfold is_u16; lia).
  assert (Hu : is_u16 size) by apply u16_range. destruct (request_size_spec size Hu) as (_ & Hr4 & Hrs & _).
  specialize (Hrs ltac:(lia)). unfold MIN_SIZE_ALIGNED in Hrs.
  assert (Hle : request_size size <= n) by (destruct Hrs as [? | [? ->]]; [| lia]; Z.div_mod_to_equations; lia).
  destruct Hpo. destruct (rel_trim _ _ _ _ _ po_heap0 Ho Hu Hle) as (h' & n' & L' & Et & HL & Hh & Hn').
  rewrite Et. fold (trimmed rem b). set (sh := set_heap h' s).
  assert (Hbh : ps_mem sh !! RamPtr o = Some b) by done.
  exists (put_pbuf (RamPtr o) (trimmed rem b) sh). split; [| split; [apply put_eq | split; [done |]]].
  { rewrite (modify_eq _ _ _ _ Hbh). done. }
  rewrite put_put. set (b' := with_lens rem rem (trimmed rem b)).
  assert (Hbl : Zlen (sp_block b') = sp_payload b - 16 + rem).
  { cbn. apply Zlen_take. unfold SIZEOF_STRUCT_PBUF. lia. }
  assert (Hin : forall k, is_Some (<[RamPtr o := b']> (ps_mem s) !! k) <-> is_Some (ps_mem s !! k)).
  { intros k. rewrite lookup_insert_is_Some'. split; [intros [<- | ?]; eauto | tauto]. }
  pose proof (rel_NoDup _ _ po_heap0) as Hnd. rewrite HL in Hnd. cbn in Hnd. apply NoDup_cons in Hnd as [Hni _].
  split; cbn.
  - by rewrite (links_modify _ _ b), (counts_modify _ _ b).
  - exists up, ur, ((o, n') :: L'). split; cbn; try done; try (intros e; rewrite Hin; auto).
    + rewrite <- po_L0, HL. done.
    + intros o2 n2 c Ho2. destruct (decide (o2 = o)) as [-> | Hne].
      * rewrite lookup_insert_eq. intros [= <-]. rewrite Hbl. apply elem_of_cons in Ho2 as [[= ->] | Hin2]; [unfold SIZEOF_STRUCT_PBUF; lia |].
        exfalso. apply Hni, fst_elem. eauto.
      * rewrite lookup_insert_ne by congruence. apply po_room0. rewrite HL. apply elem_of_cons in Ho2 as [[= -> ->] | ?]; [done | by right].
  - apply map_Forall_insert_2; [| done]. split; [cbn; lia |]. split; [done |]. cbn [sp_payload b' with_lens trimmed with_block sp_len].
    split; [done |]. rewrite Hbl. unfold SIZEOF_STRUCT_PBUF. lia.
Qed.

(** The new last pbuf, with what is left in it. *)
Definition cut (rem : Z) (b : spbuf) : spbuf :=
  with_lens rem rem (if bool_decide (sp_type b = PBUF_RAM) && negb (rem =? sp_len b) then trimmed rem b else b).

Lemma cut_ok ext s q b rem : store_ok ext s -> ps_mem s !! q = Some b -> 0 <= rem <= sp_len b ->
  exists s', (if bool_decide (sp_type b = PBUF_RAM) && negb (rem =? sp_len b) then trim_pbuf q rem else mret q) s = Some (q, s')
  /\ is_Some (ps_mem s' !! q) /\ (forall c, ps_mem s' !! q = Some c -> with_lens rem rem c = cut rem b)
  /\ (forall c, <[q := c]> (ps_mem s') = <[q := c]> (ps_mem s)) /\ store_ok ext (put_pbuf q (cut rem b) s').
Proof.
  intros Hok Hb Hrem. unfold cut. destruct (bool_decide (sp_type b = PBUF_RAM) && negb (rem =? sp_len b)) eqn:E.
  - apply andb_prop in E as [Ety%bool_decide_eq_true _]. destruct (trim_ok ext s q b rem Hok Hb Ety Hrem) as (s' & Et & Hq & Hm & Hok').
    exists s'. split; [done |]. split; [by eexists |]. split; [intros c; rewrite Hq; by intros [= <-] |].
    split; [| done]. intros c. by rewrite Hm, insert_insert_eq.
  - exists s. split; [done |]. split; [by eexists |]. split; [intros c; rewrite Hb; by intros [= <-] |]. split; [done |].
    apply (put_ok _ _ _ b); try done. destruct (so_typed _ _ _ Hok q b Hb) as (H0 & H1 & H2). split; [cbn; lia |]. split; [done |].
    destruct q; try done; cbn; split; try apply H2; destruct H2; lia.
Qed.

(** The pbuf before the new end point to pbufs up to it. *)
Lemma chain_next_split l p ps1 q ps2 k n : chain l p (ps1 ++ q :: ps2) -> k ∈ ps1 -> l !! k = Some n ->
  exists x, n = Some x /\ x ∈ ps1 ++ [q].
Proof.
  revert p; induction ps1 as [| y ps1 IH]; intros p Hc Hk Hn; [by apply not_elem_of_nil in Hk |].
  destruct Hc as (-> & n' & Hn' & Hc). apply elem_of_cons in Hk as [-> | Hk].
  - rewrite Hn in Hn'. injection Hn' as <-. destruct ps1 as [| z ps1]; destruct Hc as [-> _]; eexists; (split; [done |]).
    + right. left.
    + right. left.
  - destruct (IH _ Hc Hk Hn) as (x & -> & Hx). exists x. split; [done | by right].
Qed.

Lemma walked_lens m p ps1 q ps2 b rem grow c : lens_ok m -> chain (sp_next <$> m) p (ps1 ++ q :: ps2) ->
  private (sp_next <$> m) (ps1 ++ q :: ps2) -> m !! q = Some b -> grow < 0 -> rem = sp_tot_len b + grow ->
  sp_next c = None -> sp_tot_len c = rem -> sp_len c = rem -> rem < 65536 ->
  lens_ok (<[q := c]> (on_chain ps1 (shrunk grow) m)).
Proof.
  intros Hl Hc Hpriv Hq Hg Hrem Hcn Hct Hcl Hlt k b' [[<- <-] | [Hne Hk]]%lookup_insert_Some.
  { rewrite Hcn, Hct, Hcl. cbn. lia. }
  pose proof (chain_NoDup _ _ _ Hc) as Hnd. apply NoDup_app in Hnd as (_ & Hd & [Hq2 _]%NoDup_cons).
  assert (Htot : forall x, x ∈ ps1 ++ [q] -> is_Some (m !! x) ->
    tot_of (<[q := c]> (on_chain ps1 (shrunk grow) m)) (Some x) = tot_of m (Some x) + grow).
  { intros x Hx [d Hxd]. cbn. rewrite Hxd. destruct (decide (x = q)) as [-> | Hxq].
    - rewrite lookup_insert_eq. cbn. rewrite Hq in Hxd. injection Hxd as <-. lia.
    - apply elem_of_app in Hx as [Hx | ->%list_elem_of_singleton]; [| done].
      rewrite lookup_insert_ne, on_chain_at, decide_True, Hxd by done. done. }
  assert (Hout : forall x, x ∉ ps1 ++ [q] -> tot_of (<[q := c]> (on_chain ps1 (shrunk grow) m)) (Some x) = tot_of m (Some x)).
  { intros x Hx. cbn. rewrite lookup_insert_ne, on_chain_at, decide_False; [by destruct (m !! x) | |];
      intros Hin; apply Hx, elem_of_app; [by left | subst; right; by apply list_elem_of_singleton]. }
  rewrite on_chain_at in Hk. destruct (m !! k) as [d |] eqn:Hkd; [| done]. destruct (Hl _ _ Hkd) as [E Hdlt].
  pose proof (link_at _ _ _ Hkd) as Hkn. destruct (decide (k ∈ ps1)) as [Hin | Hni]; cbn in Hk; injection Hk as <-.
  - destruct (chain_next_split _ _ _ _ _ _ _ Hc Hin Hkn) as (x & En & Hx). cbn [shrunk with_lens sp_tot_len sp_len sp_next].
    split; [| lia]. rewrite En in E |- *. rewrite Htot, E; [lia | done |].
    destruct (chain_dom _ _ _ x Hc) as [nx Hxn]; [| apply lookup_fmap_Some in Hxn as (e & _ & ?); eauto].
    apply elem_of_app in Hx as [? | ->%list_elem_of_singleton]; apply elem_of_app; [by left | right; left].
  - split; [| done]. rewrite E. f_equal. destruct (sp_next d) as [x |] eqn:En; [| done]. rewrite Hout; [done |]. intros Hx.
    assert (Hxc : x ∈ ps1 ++ q :: ps2).
    { apply elem_of_app in Hx as [? | ->%list_elem_of_singleton]; apply elem_of_app; [by left | right; left]. }
    pose proof (Hpriv k x Hkn Hxc) as Hkin. apply elem_of_app in Hkin as [? | [-> | Hk2]%elem_of_cons]; [done | done |].
    pose proof (chain_app _ _ _ _ _ Hc) as Hc2. destruct Hc2 as (_ & n2 & _ & Hc2).
    pose proof (chain_next _ _ _ _ _ Hc2 Hk2 Hkn) as Hx2. cbn in Hx2.
    apply elem_of_app in Hx as [Hx1 | ->%list_elem_of_singleton]; [| done]. apply (Hd x Hx1). by right.
Qed.

(** The release of the rest does not touch the new last pbuf, so it could as well
    be unlinked first. *)
Lemma free_rest ext s q b : store_ok ext s -> ps_mem s !! q = Some b ->
  exists s' ps, (match sp_next b with Some t => pbuf_free (Some t) ;; mret tt | None => mret tt end ;;
                 modify (with_next None) q) s = Some (tt, s')
  /\ store_ok ext s' /\ chain (sp_next <$> ps_mem s) (sp_next b) ps
  /\ ps_mem s' = snd (release (ps_mem (put_pbuf q (with_next None b) s)) ps).
Proof.
  intros Hok Hq. pose proof (so_typed _ _ _ Hok q b Hq) as Hty. destruct (sp_next b) as [t |] eqn:En.
  - set (b' := with_next None b). assert (HokU : store_ok ({[+ t +]} ⊎ ext) (put_pbuf q b' s)) by by eapply unlink_ok.
    destruct (chain_of _ _ _ _ _ Hok Hq) as [ts Hc]. pose proof (chain_NoDup _ _ _ Hc) as [Hni _]%NoDup_cons.
    apply chain_head in Hc as (_ & b0 & Hb0 & Hc). rewrite Hq in Hb0. injection Hb0 as <-. rewrite En in Hc.
    assert (HcU : chain (sp_next <$> ps_mem (put_pbuf q b' s)) (Some t) ts).
    { apply (links_ext (sp_next <$> ps_mem s)); [| done]. intros x Hx. rewrite !lookup_fmap, put_ne by (by intros <-). done. }
    destruct (pbuf_free_ok _ _ _ HokU) as (ps & s' & Hps & Ef & Hm & Hok' & _).
    rewrite <- (chain_det _ _ _ _ HcU Hps) in Hm. exists s', ts. split; [| done].
    assert (Hs : put_pbuf q b (put_pbuf q b' s) = s) by (by rewrite put_put, put_same).
    assert (Hfuel : store_fuel (put_pbuf q b' s) = store_fuel s) by (apply map_size_insert_Some; by eexists).
    unfold pbuf_free, with_fuel in Ef. rewrite Hfuel in Ef.
    pose proof (free_loop_frame _ _ _ _ _ _ _ q b HcU Hni Ef) as Ef'. rewrite Hs in Ef'.
    assert (Hq' : ps_mem s' !! q = Some b') by (rewrite Hm, release_other by done; apply put_eq).
    unfold mbind at 1 2, PM_bind, pbuf_free, with_fuel. rewrite Ef'. cbn [mret PM_ret].
    unfold mret, PM_ret. rewrite (modify_eq _ _ _ b) by apply put_eq. by rewrite put_put, (put_same _ _ s').
  - exists (put_pbuf q (with_next None b) s), []. rewrite (pm_bind (mret tt) _ s tt s) by done. rewrite (modify_eq _ _ _ _ Hq).
    split; [done |]. split; [by apply (put_ok _ _ _ b) | done].
Qed.

Lemma realloc_ok ext s p b hs new_len : store_ok ext s -> lens_ok (ps_mem s) -> ps_mem s !! p = Some b ->
  chain (sp_next <$> ps_mem s) (Some p) hs -> private (sp_next <$> ps_mem s) hs -> 0 <= new_len < sp_tot_len b ->
  exists s' ps1 q ps2 c, pbuf_realloc p new_len s = Some (tt, s') /\ store_ok ext s' /\ lens_ok (ps_mem s')
  /\ hs = ps1 ++ q :: ps2 /\ ps_mem s !! q = Some c /\ 0 <= sp_tot_len c + (new_len - sp_tot_len b) <= sp_len c
  /\ (forall x d, x ∈ ps1 -> ps_mem s !! x = Some d -> sp_len d < sp_tot_len d + (new_len - sp_tot_len b)
        /\ ps_mem s' !! x = Some (shrunk (new_len - sp_tot_len b) x d))
  /\ ps_mem s' !! q = Some (with_next None (cut (sp_tot_len c + (new_len - sp_tot_len b)) c)).
Proof.
  intros Hok Hl Hp Hc Hpriv Hn. unfold pbuf_realloc. step_load Hp. rewrite (proj2 (Z.leb_gt _ _)) by lia.
  set (grow := new_len - sp_tot_len b) in *. destruct hs as [| p0 hs]; [done |].
  assert (p0 = p) as -> by (by destruct Hc as [[= <-] _]). destruct (Hl _ _ Hp) as [_ Hplt].
  destruct (realloc_walk_spec hs (store_fuel s) s p b new_len grow Hc Hp) as (ps1 & q & ps2 & c & Ehs & Hq & Hrem & Ew & Hsk).
  { intros x d _ Hx. pose proof (tot_range _ _ _ _ Hok Hl Hx). destruct (Hl _ _ Hx). done. }
  { unfold grow. lia. } { lia. } { unfold grow. lia. }
  { pose proof (chain_length _ _ _ Hc) as Hlen. rewrite map_size_fmap in Hlen. unfold store_fuel. cbn in Hlen. lia. }
  rewrite Ehs in Hc, Hpriv. pose proof (chain_NoDup _ _ _ Hc) as Hnd. apply NoDup_app in Hnd as (_ & Hd & _).
  assert (Hq1 : q ∉ ps1) by (intros Hx; apply (Hd q Hx); left).
  rewrite (pm_bind (with_fuel _) _ s (q, sp_tot_len c + grow) (set_mem (on_chain ps1 (shrunk grow)) s) Ew). cbn [fst snd].
  set (s1 := set_mem (on_chain ps1 (shrunk grow)) s). set (rem := sp_tot_len c + grow) in *.
  assert (Hq1m : ps_mem s1 !! q = Some c) by (unfold s1; cbn; rewrite on_chain_at, decide_False, Hq by done; done).
  assert (Hok1 : store_ok ext s1).
  { destruct Hok as [Hr (up & ur & L & Hpo) Ht]. split.
    - cbn. by rewrite !on_chain_fmap by done.
    - exists up, ur, L. by apply on_chain_pools.
    - apply on_chain_typed; [done |]. intros k d Hkd. exact Hkd. }
  step_load Hq1m. destruct (cut_ok ext s1 q c rem Hok1 Hq1m Hrem) as (s2 & E2 & [c2 Hc2] & Hcut & Hm2 & Hok2).
  rewrite (pm_bind _ _ _ _ _ E2). step_modify Hc2. rewrite (Hcut _ Hc2). set (s3 := put_pbuf q (cut rem c) s2) in *.
  assert (Hc3 : ps_mem s3 !! q = Some (cut rem c)) by apply put_eq. step_load Hc3.
  assert (Hc0n : sp_next (cut rem c) = sp_next c) by (unfold cut; by case_match).
  destruct (free_rest ext s3 q (cut rem c) Hok2 Hc3) as (s' & ps & Ef & Hok' & Hps & Hm').
  assert (Hm3 : ps_mem s3 = <[q := cut rem c]> (on_chain ps1 (shrunk grow) (ps_mem s))) by (unfold s3; cbn; by rewrite Hm2).
  assert (Hlinks : sp_next <$> ps_mem s3 = sp_next <$> ps_mem s).
  { rewrite Hm3, (links_modify _ _ c), on_chain_fmap; try done. }
  assert (ps = ps2) as ->.
  { rewrite Hlinks, Hc0n in Hps. pose proof (chain_app _ _ _ _ _ Hc) as (_ & n & Hn2 & Hc2'). rewrite (link_at _ _ _ Hq) in Hn2.
    injection Hn2 as <-. by eapply chain_det. }
  assert (HmU : ps_mem (put_pbuf q (with_next None (cut rem c)) s3)
    = <[q := with_next None (cut rem c)]> (on_chain ps1 (shrunk grow) (ps_mem s))) by (transitivity (<[q := with_next None (cut rem c)]> (ps_mem s3)); [done |]; by rewrite Hm3, insert_insert_eq).
  pose proof (chain_NoDup _ _ _ Hc) as Hnd. apply NoDup_app in Hnd as (_ & _ & [Hq2 _]%NoDup_cons).
  pose proof (tot_range _ _ _ _ Hok Hl Hq) as Hcr. destruct (Hl _ _ Hq) as [_ Hcl].
  exists s', ps1, q, ps2, c. split_and!; try done; try lia.
  - eapply free_lens; [exact Hok' | exact Hm' |]. rewrite HmU. eapply walked_lens; try done; unfold grow; lia.
  - intros x d Hx Hxd. split; [by eapply Hsk |]. rewrite Hm', HmU, release_other by (intros Hx2; apply (Hd x Hx); by right).
    rewrite lookup_insert_ne by (by intros ->). by rewrite on_chain_at, decide_True, Hxd.
  - rewrite Hm', HmU, release_other by done. apply lookup_insert_eq.
Qed.

(** ** Allocating *)

Lemma put_new `{HT : Structs T} ext s (up ur : gset nat) L p f : refs_ok ext (sp_next <$> ps_mem s) (sp_ref <$> ps_mem s) -> map_Forall T (ps_mem s) ->
  ps_mem s !! p = None -> sp_next f = None -> sp_ref f = 1 -> T p f ->
  pools_ok (put_pbuf p f s) up ur L -> store_at T ({[+ p +]} ⊎ ext) (put_pbuf p f s).
Proof.
  intros Hr Ht Hp En Er Hty Hpo. split; [| eauto |].
  - cbn. rewrite !fmap_insert, En, Er. apply refs_new; [done |]. by rewrite lookup_fmap, Hp.
  - by apply map_Forall_insert_2.
Qed.

Lemma is_Some_put (m : gmap pptr spbuf) p f q : is_Some (<[p := f]> m !! q) <-> p = q \/ is_Some (m !! q).
Proof. apply lookup_insert_is_Some'. Qed.

Lemma new_pool_ok `{HT : Structs T} ext s f : store_at T ext s -> sp_next f = None -> sp_ref f = 1 -> (forall e, T (PoolPtr e) f) ->
  (memp_tab (ps_pool s) = [] /\ new_pool f s = Some (None, s)) \/
  exists p s', new_pool f s = Some (Some p, s') /\ ps_mem s !! p = None /\ ps_mem s' = <[p := f]> (ps_mem s)
  /\ store_at T ({[+ p +]} ⊎ ext) s' /\ length (memp_tab (ps_pool s)) = S (length (memp_tab (ps_pool s'))).
Proof.
  intros [Hr (up & ur & L & Hpo) Ht] En Er Hty. unfold new_pool.
  destruct (memp_tab (ps_pool s)) as [| e tab] eqn:Etab; unfold memp_malloc; rewrite Etab.
  { left. split; [done |]. by destruct s. }
  right. assert (Em : memp_malloc (ps_pool s) = (Some e, mk_memp tab)) by (unfold memp_malloc; by rewrite Etab).
  destruct Hpo. destruct (memp_malloc_ok _ _ _ _ _ po_pool0 Em) as (He & _ & Hm).
  assert (Hp : ps_mem s !! PoolPtr e = None) by (apply eq_None_not_Some; by rewrite <- po_up0).
  do 2 eexists. split; [done |]. split; [done |]. split; [done |]. split; [| done].
  apply (put_new ext (set_pool (mk_memp tab) s) ({[e]} ∪ up) ur L); try done.
  split; cbn; try done; try (intros x; rewrite is_Some_put, <- ?po_up0, <- ?po_ur0, <- ?po_L0; set_solver).
  intros o n b Ho [[[=] _] | [_ Hb]]%lookup_insert_Some. eauto.
Qed.

Lemma new_ref_ok ext s f : store_ok ext s -> sp_next f = None -> sp_ref f = 1 -> (forall e, typed (RefPtr e) f) ->
  new_ref f s = Some (None, s) \/
  exists p s', new_ref f s = Some (Some p, s') /\ ps_mem s !! p = None /\ ps_mem s' = <[p := f]> (ps_mem s)
  /\ store_ok ({[+ p +]} ⊎ ext) s'.
Proof.
  intros [Hr (up & ur & L & Hpo) Ht] En Er Hty. unfold new_ref.
  destruct (memp_tab (ps_refs s)) as [| e tab] eqn:Etab; unfold memp_malloc; rewrite Etab.
  { left. by destruct s. }
  right. assert (Em : memp_malloc (ps_refs s) = (Some e, mk_memp tab)) by (unfold memp_malloc; by rewrite Etab).
  destruct Hpo. destruct (memp_malloc_ok _ _ _ _ _ po_refs0 Em) as (He & _ & Hm).
  assert (Hp : ps_mem s !! RefPtr e = None) by (apply eq_None_not_Some; by rewrite <- po_ur0).
  do 2 eexists. split; [done |]. split; [done |]. split; [done |].
  apply (put_new ext (set_refs (mk_memp tab) s) up ({[e]} ∪ ur) L); try done.
  split; cbn; try done; try (intros x; rewrite is_Some_put, <- ?po_up0, <- ?po_ur0, <- ?po_L0; set_solver).
  intros o n b Ho [[[=] _] | [_ Hb]]%lookup_insert_Some. eauto.
Qed.

Lemma new_ram_ok ext s f size : store_ok ext s -> sp_next f = None -> sp_ref f = 1 -> (forall o, typed (RamPtr o) f) ->
  is_u16 size -> SIZEOF_STRUCT_PBUF + Zlen (sp_block f) <= request_size size ->
  new_ram size f s = Some (None, s) \/
  exists p s', new_ram size f s = Some (Some p, s') /\ ps_mem s !! p = None /\ ps_mem s' = <[p := f]> (ps_mem s)
  /\ store_ok ({[+ p +]} ⊎ ext) s'.
Proof.
  intros [Hr (up & ur & L & Hpo) Ht] En Er Hty Hsz Hroom. unfold new_ram.
  destruct (Heap.mem_malloc size (ps_heap s)) as [o h'] eqn:Em. destruct Hpo. pose proof (rel_malloc _ _ _ _ _ po_heap0 Hsz Em) as Hm.
  destruct o as [o |]; [right | left; subst h'; by destruct s]. destruct Hm as (n & Hh & Hn).
  pose proof (rel_NoDup _ _ Hh) as Hnd. cbn in Hnd. apply NoDup_cons in Hnd as [Hni _].
  assert (Hp : ps_mem s !! RamPtr o = None) by (apply eq_None_not_Some; by rewrite <- po_L0).
  do 2 eexists. split; [done |]. split; [done |]. split; [done |].
  apply (put_new ext (set_heap h' s) up ur ((o, n) :: L)); try done.
  split; cbn; try done; try (intros x; rewrite is_Some_put, <- ?po_up0, <- ?po_ur0, <- ?po_L0, ?elem_of_cons; set_solver).
  intros o2 n2 b Ho [[[= <-] <-] | [Hne Hb]]%lookup_insert_Some.
  - apply elem_of_cons in Ho as [[= ->] | Ho]; [lia |]. exfalso. apply Hni, fst_elem. eauto.
  - apply elem_of_cons in Ho as [[= -> ->] | Ho]; [done | eauto].
Qed.

(** Nobody points to a block that is not allocated. *)
Lemma no_pred ext s p k b : store_ok ext s -> ps_mem s !! p = None -> ps_mem s !! k = Some b -> sp_next b <> Some p.
Proof.
  intros [Hr _ _] Hp Hk En. destruct (rf_live _ _ _ Hr p) as [n Hn].
  - apply gmultiset_elem_of_disj_union. right. apply (succs_elem _ k). by rewrite (link_at _ _ _ Hk), En.
  - by rewrite lookup_fmap, Hp in Hn.
Qed.
Lemma lens_new ext s p f : store_ok ext s -> ps_mem s !! p = None -> lens_ok (ps_mem s) -> sp_next f = None ->
  sp_tot_len f = sp_len f -> sp_tot_len f < 65536 -> lens_ok (<[p := f]> (ps_mem s)).
Proof.
  intros Hok Hp Hl En Et Hlt k b [[<- <-] | [Hne Hk]]%lookup_insert_Some; [rewrite En; cbn; lia |].
  destruct (Hl _ _ Hk). rewrite tot_of_put; [done |]. by eapply no_pred.
Qed.

(** A chain of pbufs with one reference each is released whole. *)
Lemma release_all ps : forall m, NoDup ps -> (forall x, x ∈ ps -> exists b, m !! x = Some b /\ sp_ref b = 1) ->
  forall k, snd (release m ps) !! k = if decide (k ∈ ps) then None else m !! k.
Proof.
  induction ps as [| q ps IH]; intros m Hnd Hall k; [by rewrite decide_False by apply not_elem_of_nil |].
  apply NoDup_cons in Hnd as [Hq Hnd]. cbn [release]. destruct (Hall q) as (b & -> & ->); [left |]. cbn [Z.eqb Pos.eqb].
  specialize (IH (delete q m) Hnd). destruct (release (delete q m) ps). cbn [snd] in *. rewrite IH.
  - destruct (decide (k = q)) as [-> | Hne].
    + rewrite decide_False, decide_True by (done || left). apply lookup_delete_eq.
    + rewrite lookup_delete_ne by done. destruct (decide (k ∈ ps)); [by rewrite decide_True by by right |].
      rewrite decide_False; [done |]. by intros [? | ?]%elem_of_cons.
  - intros x Hx. destruct (Hall x) as (c & Hc & Ec); [by right |]. exists c. split; [| done]. rewrite lookup_delete_ne; [done |].
    by intros ->.
Qed.

(** The chain [ps ++ [r]] under construction over the memory [m0]: [rem] bytes
    are still missing behind [r]. *)
Record building (m0 m : gmap pptr spbuf) (p : pptr) (ps : list pptr) (r : pptr) (rem : Z) : Prop := {
  bd_chain : chain (sp_next <$> m) (Some p) (ps ++ [r]);
  bd_new : forall x, x ∈ ps ++ [r] -> m0 !! x = None /\ exists b, m !! x = Some b /\ sp_ref b = 1
             /\ sp_tot_len b = sp_len b + (if decide (x = r) then rem else tot_of m (sp_next b)) /\ sp_tot_len b < 65536;
  bd_old : forall x, x ∉ ps ++ [r] -> m !! x = m0 !! x
}.

Lemma building_lens ext s0 m p ps r : store_ok ext s0 -> lens_ok (ps_mem s0) -> building (ps_mem s0) m p ps r 0 -> lens_ok m.
Proof.
  intros Hok Hl [Hc Hn Ho] k b Hk. destruct (decide (k ∈ ps ++ [r])) as [Hin | Hni].
  - destruct (Hn k Hin) as (_ & c & Hc2 & _ & E & Hlt). rewrite Hk in Hc2. injection Hc2 as <-. split; [| done]. rewrite E.
    destruct (decide (k = r)) as [-> | Hne]; [| done]. f_equal.
    assert (Hr : (sp_next <$> m) !! r = Some None) by (apply (chain_last _ _ _ _ Hc); by rewrite last_snoc).
    rewrite (link_at _ _ _ Hk) in Hr. injection Hr as ->. done.
  - pose proof Hk as Hk0. rewrite Ho in Hk0 by done. destruct (Hl _ _ Hk0) as [E Hlt]. split; [| done]. rewrite E. f_equal.
    destruct (sp_next b) as [x |] eqn:En; [| done]. cbn. rewrite Ho; [done |]. intros Hx.
    destruct (Hn x Hx) as [Hx0 _]. by apply (no_pred _ _ _ _ _ Hok Hx0 Hk0).
Qed.

Lemma building_freed m0 m p ps r rem : building m0 m p ps r rem -> snd (release m (ps ++ [r])) = m0.
Proof.
  intros [Hc Hn Ho]. apply map_eq. intros k. rewrite release_all.
  - destruct (decide (k ∈ ps ++ [r])) as [Hin | Hni]; [by destruct (Hn k Hin) as [-> _] | by apply Ho].
  - by eapply chain_NoDup.
  - intros x Hx. destruct (Hn x Hx) as (_ & b & Hb & Er & _). eauto.
Qed.

Lemma link_ok `{HT : Structs T} ext s r b q c : store_at T ({[+ q +]} ⊎ ext) s -> ps_mem s !! r = Some b -> sp_next b = None ->
  ps_mem s !! q = Some c -> sp_next c = None -> r <> q -> store_at T ext (put_pbuf r (with_next (Some q) b) s).
Proof.
  intros [Hr (up & ur & L & Hpo) Ht] Hb En Hq Ecn Hne. split.
  - cbn. rewrite (counts_modify _ _ b), fmap_insert by done. cbn.
    apply (refs_link _ _ _ _ _ [q]); [done | by rewrite (link_at _ _ _ Hb), En | | by intros ->%list_elem_of_singleton].
    cbn. split; [done |]. exists None. by rewrite (link_at _ _ _ Hq), Ecn.
  - exists up, ur, L. by eapply pools_modify.
  - cbn. apply map_Forall_insert_2; [by apply structs_next, (Ht r b Hb) | done].
Qed.

Lemma building_step m0 m p ps r rem q f b : building m0 m p ps r rem -> m !! q = None -> m0 !! q = None -> m !! r = Some b ->
  sp_next b = None -> sp_next f = None -> sp_ref f = 1 -> sp_tot_len f = rem -> rem < 65536 ->
  building m0 (<[r := with_next (Some q) b]> (<[q := f]> m)) p (ps ++ [r]) q (rem - sp_len f).
Proof.
  intros [Hc Hn Ho] Hq Hq0 Hb En Fn Fr Ft Hlt. set (m2 := <[r := _]> _).
  assert (Hrq : r <> q) by (intros ->; congruence).
  assert (Hqc : q ∉ ps ++ [r]) by (intros Hin; destruct (chain_dom _ _ _ _ Hc Hin) as [n Hx]; by rewrite lookup_fmap, Hq in Hx).
  pose proof (chain_NoDup _ _ _ Hc) as Hnd. apply NoDup_app in Hnd as (_ & Hd & _).
  assert (Htot : forall y, y <> q -> tot_of m2 (Some y) = tot_of m (Some y)).
  { intros y Hy. cbn. unfold m2. destruct (decide (y = r)) as [-> | Hyr]; [by rewrite lookup_insert_eq, Hb |].
    by rewrite !lookup_insert_ne. }
  split.
  - unfold m2. rewrite !fmap_insert, insert_insert_ne by done. cbn [sp_next with_next].
    assert (Hlr : (<[q := sp_next f]> (sp_next <$> m)) !! r = Some None) by (rewrite lookup_insert_ne by done; by rewrite (link_at _ _ _ Hb), En).
    pose proof (chain_link (<[q := sp_next f]> (sp_next <$> m)) r q (Some p) (ps ++ [r]) [q] Hlr) as Hcl.
    rewrite decide_True in Hcl by (apply elem_of_app; right; left). rewrite insert_insert_ne by done. apply Hcl.
    + cbn. rewrite lookup_insert_eq, Fn. eauto.
    + by intros ->%list_elem_of_singleton.
    + apply (links_ext (sp_next <$> m)); [| done]. intros x Hx. apply lookup_insert_ne. by intros <-.
  - intros x [Hx | ->%list_elem_of_singleton]%elem_of_app.
    + assert (Hxq : x <> q) by (by intros ->). destruct (Hn x Hx) as (Hx0 & c & Hxc & Hcr & Hct & Hclt). split; [done |].
      unfold m2. destruct (decide (x = r)) as [-> | Hxr].
      * rewrite lookup_insert_eq. eexists. split; [done |]. rewrite Hb in Hxc. injection Hxc as <-. cbn [sp_ref sp_tot_len sp_len sp_next with_next].
        rewrite decide_False by done. split; [done |]. split; [| done].
        cbn. rewrite lookup_insert_ne, lookup_insert_eq by done. cbn. lia.
      * rewrite !lookup_insert_ne by done. exists c. split; [done |]. split; [done |]. split; [| done].
        rewrite decide_False by done. rewrite Hct. f_equal. fold m2. destruct (sp_next c) as [y |] eqn:Ey; [| done].
        rewrite Htot; [done |]. intros ->. pose proof (chain_next _ _ _ x _ Hc Hx (link_at _ _ _ Hxc)) as Hy. rewrite Ey in Hy. done.
    + split; [done |]. unfold m2. rewrite lookup_insert_ne, lookup_insert_eq by done. exists f. rewrite decide_True by done.
      split; [done |]. split; [done |]. rewrite Ft. lia.
  - intros x Hx. unfold m2. rewrite !lookup_insert_ne; [apply Ho | |]; intros Hin; apply Hx, elem_of_app; subst.
    + by left. + right. left. + left. apply elem_of_app. right. left.
Qed.

Lemma pool_tail_ok ext s0 p : store_ok ext s0 -> lens_ok (ps_mem s0) -> forall fuel s ps r rem,
  store_ok ({[+ p +]} ⊎ ext) s -> building (ps_mem s0) (ps_mem s) p ps r rem -> 0 <= rem < 65536 ->
  (length (memp_tab (ps_pool s)) < fuel)%nat ->
  exists o s', pool_tail fuel p r rem s = Some (o, s') /\
    match o with
    | Some p' => p' = p /\ store_ok ({[+ p +]} ⊎ ext) s' /\ lens_ok (ps_mem s') /\ ps_mem s0 !! p = None
        /\ option_map sp_tot_len (ps_mem s' !! p) = option_map sp_tot_len (ps_mem s !! p)
        /\ forall x b, ps_mem s0 !! x = Some b -> ps_mem s' !! x = Some b
    | None => store_ok ext s' /\ ps_mem s' = ps_mem s0
    end.
Proof.
  intros Hok0 Hl0. induction fuel as [| fuel IH]; intros s ps r rem Hok Hb Hrem Hf; [lia |]. cbn [pool_tail].
  assert (Hpin : p ∈ ps ++ [r]).
  { pose proof (bd_chain _ _ _ _ _ _ Hb) as Hc. destruct (ps ++ [r]) eqn:E; [by destruct ps |]. destruct Hc as [[= <-] _]. left. }
  assert (Hold : forall x b, ps_mem s0 !! x = Some b -> ps_mem s !! x = Some b).
  { intros x b Hx. rewrite (bd_old _ _ _ _ _ _ Hb); [done |]. intros Hin. destruct (bd_new _ _ _ _ _ _ Hb x Hin). congruence. }
  destruct (Z.ltb_spec 0 rem) as [Hpos | Hz].
  - rewrite u16_small by (unfold is_u16; lia). set (len := Z.min rem PBUF_POOL_BUFSIZE_ALIGNED). set (f := mk_spbuf _ _ _ _ _ _ _ _).
    assert (Hty : forall e, typed (PoolPtr e) f).
    { intros e. unfold typed, f, zeros. cbn [sp_len sp_type sp_payload sp_block]. rewrite Zlen_replicate by done.
      unfold len, PBUF_POOL_BUFSIZE_ALIGNED, SIZEOF_STRUCT_PBUF. split_and!; try done; lia. }
    assert (Hrs : exists b, ps_mem s !! r = Some b /\ sp_next b = None).
    { pose proof (chain_last _ _ _ r (bd_chain _ _ _ _ _ _ Hb) ltac:(by rewrite last_snoc)) as Hr.
      apply lookup_fmap_Some in Hr as (b & En & Hr). eauto. }
    destruct Hrs as (b & Hr & En).
    destruct (new_pool_ok _ s f Hok) as [[_ E] | (q & s1 & E & Hq & Hm & Hok1 & Htab)]; try done; rewrite (pm_bind _ _ _ _ _ E).
    + set (s2 := set_pending true s). assert (Hok2 : store_ok ({[+ p +]} ⊎ ext) s2).
      { destruct Hok as [? (up & ur & L & []) ?]. split; [done | exists up, ur, L; by split | done]. }
      rewrite (pm_bind _ _ _ tt s2) by done. destruct (pbuf_free_ok _ _ _ Hok2) as (ts & s' & Hc & Ef & Hm' & Hok' & _).
      rewrite (pm_bind _ _ _ _ _ Ef). exists None, s'. split; [done |]. split; [done |]. rewrite Hm'.
      rewrite (chain_det _ _ _ _ Hc (bd_chain _ _ _ _ _ _ Hb)). by apply (building_freed _ _ p _ _ rem).
    + assert (Hrq : r <> q) by (intros ->; congruence).
      assert (Hr1 : ps_mem s1 !! r = Some b) by (rewrite Hm, lookup_insert_ne; congruence). step_modify Hr1.
      assert (Hq0 : ps_mem s0 !! q = None) by (apply eq_None_not_Some; intros [d Hd]; apply Hold in Hd; congruence).
      assert (Hpq : p <> q) by (intros ->; destruct (bd_new _ _ _ _ _ _ Hb q Hpin) as (_ & d & Hd & _); congruence).
      assert (Hq1 : ps_mem s1 !! q = Some f) by (rewrite Hm; apply lookup_insert_eq).
      assert (Hok2 : store_ok ({[+ p +]} ⊎ ext) (put_pbuf r (with_next (Some q) b) s1)) by by eapply link_ok.
      pose proof (building_step _ _ _ _ _ _ q f b Hb Hq Hq0 Hr En eq_refl eq_refl eq_refl ltac:(lia)) as Hb2.
      rewrite <- Hm in Hb2. destruct (IH (put_pbuf r (with_next (Some q) b) s1) (ps ++ [r]) q (rem - len)) as (o & s' & Et & Ho); try done.
      { unfold len, PBUF_POOL_BUFSIZE_ALIGNED. lia. }
      { cbn. lia. }
      exists o, s'. split; [exact Et |]. destruct o as [p' |]; [| done]. destruct Ho as (? & ? & ? & ? & Htot & ?). split_and!; try done.
      rewrite Htot. destruct (decide (p = r)) as [-> | Hpr]; [by rewrite put_eq, Hr |]. rewrite put_ne, Hm, lookup_insert_ne by congruence.
      done.
  - assert (rem = 0) as -> by lia. exists (Some p), s. split; [done |]. split_and!; try done; [exact (building_lens ext s0 _ p ps r Hok0 Hl0 Hb) |].
    by destruct (bd_new _ _ _ _ _ _ Hb p Hpin).
Qed.

Lemma tab_bound {T} ext s : store_at T ext s -> (length (memp_tab (ps_pool s)) <= PBUF_POOL_SIZE)%nat.
Proof.
  intros [_ (up & ur & L & [(Hnd & Hin & _) _ _ _ _ _ _]) _]. rewrite <- (length_seq PBUF_POOL_SIZE 0).
  apply submseteq_length, NoDup_submseteq; [done |]. intros e He. apply elem_of_seq. apply Hin in He as [? _]. lia.
Qed.

(** [pbuf_alloc]: a new pbuf of the asked size with one reference, or nothing. *)
Definition alloc_post (ext : gmultiset pptr) (s s' : pstore) (length : Z) (o : option pptr) : Prop :=
  match o with
  | Some p => store_ok ({[+ p +]} ⊎ ext) s' /\ lens_ok (ps_mem s') /\ ps_mem s !! p = None
      /\ option_map sp_tot_len (ps_mem s' !! p) = Some length
      /\ (forall x b, ps_mem s !! x = Some b -> ps_mem s' !! x = Some b)
  | None => store_ok ext s' /\ ps_mem s' = ps_mem s
  end.

Lemma alloc_single ext s s' length p f : store_ok ext s -> lens_ok (ps_mem s) -> ps_mem s !! p = None ->
  ps_mem s' = <[p := f]> (ps_mem s) -> store_ok ({[+ p +]} ⊎ ext) s' -> sp_next f = None -> sp_tot_len f = length ->
  sp_len f = length -> length < 65536 -> alloc_post ext s s' length (Some p).
Proof.
  intros Hok Hl Hp Hm Hok' En Et El Hlt. split; [done |]. rewrite Hm. split_and!; try done.
  - apply (lens_new ext); try done; lia.
  - rewrite lookup_insert_eq. cbn. by rewrite Et.
  - intros x b Hx. rewrite lookup_insert_ne; [done |]. by intros ->; congruence.
Qed.

Lemma layer_payload layer : LWIP_MEM_ALIGN_SIZE (SIZEOF_STRUCT_PBUF + layer_offset layer) = SIZEOF_STRUCT_PBUF + LWIP_MEM_ALIGN_SIZE (layer_offset layer)
  /\ 0 <= LWIP_MEM_ALIGN_SIZE (layer_offset layer) <= 56.
Proof. destruct layer; vm_compute; (split; [reflexivity | split; discriminate]). Qed.

Lemma alloc_pool_ok ext s layer length : store_ok ext s -> lens_ok (ps_mem s) -> is_u16 length ->
  exists o s', pbuf_alloc layer length PBUF_POOL s = Some (o, s') /\ alloc_post ext s s' length o.
Proof.
  intros Hok Hl Hlen. unfold pbuf_alloc. destruct (layer_payload layer) as [Epay Hoff]. rewrite Epay.
  set (off := LWIP_MEM_ALIGN_SIZE (layer_offset layer)) in *. set (len := Z.min length (PBUF_POOL_BUFSIZE_ALIGNED - off)).
  set (f := mk_spbuf _ _ _ _ _ _ _ _). unfold is_u16 in Hlen.
  assert (Hty : forall e, typed (PoolPtr e) f).
  { intros e. unfold typed, f, zeros. cbn [sp_len sp_type sp_payload sp_block]. rewrite Zlen_replicate by done.
    unfold len, PBUF_POOL_BUFSIZE_ALIGNED, SIZEOF_STRUCT_PBUF. split_and!; try done; lia. }
  destruct (new_pool_ok ext s f Hok) as [[_ E] | (p & s1 & E & Hp & Hm & Hok1 & Htab)]; try done; rewrite (pm_bind _ _ _ _ _ E).
  - eexists None, _. split; [done |]. split; [| done]. destruct Hok as [? (up & ur & L & []) ?].
    split; [done | exists up, ur, L; by split | done].
  - assert (Hb : building (ps_mem s) (ps_mem s1) p [] p (length - len)).
    { split.
      - cbn. split; [done |]. exists None. by rewrite Hm, fmap_insert, lookup_insert_eq.
      - intros x ->%list_elem_of_singleton. split; [done |]. exists f. rewrite Hm, lookup_insert_eq, decide_True by done.
        split_and!; try done; cbn; lia.
      - intros x Hx. rewrite Hm. apply lookup_insert_ne. intros <-. apply Hx. by apply list_elem_of_singleton. }
    destruct (pool_tail_ok ext s p Hok Hl tail_fuel s1 [] p (length - len) Hok1 Hb) as (o & s' & Et & Ho).
    { unfold len, PBUF_POOL_BUFSIZE_ALIGNED. lia. }
    { pose proof (tab_bound _ _ Hok) as Hbd. unfold PBUF_POOL_SIZE, tail_fuel in *. lia. }
    exists o, s'. split; [exact Et |]. destruct o as [p' |]; [| done]. destruct Ho as (-> & ? & ? & ? & Htot & ?).
    split_and!; try done. by rewrite Htot, Hm, lookup_insert_eq.
Qed.

Lemma alloc_ok ext s layer length type : store_ok ext s -> lens_ok (ps_mem s) -> is_u16 length ->
  (type = PBUF_RAM -> pbuf_ram_fits layer length = true) ->
  exists o s', pbuf_alloc layer length type s = Some (o, s') /\ alloc_post ext s s' length o.
Proof.
  intros Hok Hl Hlen Hfit. destruct type eqn:Ety; [| | | by apply alloc_pool_ok].
  - specialize (Hfit eq_refl). unfold pbuf_alloc. set (payload := LWIP_MEM_ALIGN_SIZE (SIZEOF_STRUCT_PBUF + layer_offset layer)).
    set (f := mk_spbuf _ _ _ _ _ _ _ _). unfold pbuf_ram_fits in Hfit. fold payload in Hfit. zb.
    destruct (layer_payload layer) as [Epay Hoff]. fold payload in Epay. unfold is_u16 in Hlen.
    assert (Hz : Zlen (zeros (payload - SIZEOF_STRUCT_PBUF + length)) = payload - SIZEOF_STRUCT_PBUF + length)
      by (apply Zlen_replicate; unfold SIZEOF_STRUCT_PBUF in *; lia).
    set (size := u16 (pbuf_ram_size layer length)) in *. assert (Hu : is_u16 size) by apply u16_range.
    destruct (request_size_spec size Hu) as (_ & _ & Hrs & _).
    assert (H4 : size mod 4 = 0) by (unfold size, pbuf_ram_size, LWIP_MEM_ALIGN_SIZE, u16; Z.div_mod_to_equations; lia).
    assert (Hroom : SIZEOF_STRUCT_PBUF + Zlen (sp_block f) <= request_size size).
    { cbn [f sp_block]. rewrite Hz. destruct Hrs as [? | [? ->]]; [unfold is_u16 in Hu; Z.div_mod_to_equations; lia | lia |];
      unfold MIN_SIZE_ALIGNED in *; lia. }
    destruct (new_ram_ok ext s f size Hok) as [E | (p & s' & E & Hp & Hm & Hok')]; try done.
    { intros o. split; [cbn; lia |]. split; [done |]. cbn [f sp_payload sp_len sp_block]. rewrite Hz. unfold SIZEOF_STRUCT_PBUF in *. lia. }
    + exists None, s. by split.
    + exists (Some p), s'. split; [done |]. eapply alloc_single; try done. lia.
  - destruct (new_ref_ok ext s (mk_spbuf None 0 length length PBUF_ROM 0 1 []) Hok) as [E | (p & s' & E & Hp & Hm & Hok')]; try done.
    { intros e. split; [cbn; unfold is_u16 in Hlen; lia |]. split; [by left | done]. }
    + exists None, s. by split.
    + exists (Some p), s'. split; [done |]. unfold is_u16 in Hlen. eapply alloc_single; try done. lia.
  - destruct (new_ref_ok ext s (mk_spbuf None 0 length length PBUF_REF 0 1 []) Hok) as [E | (p & s' & E & Hp & Hm & Hok')]; try done.
    { intros e. split; [cbn; unfold is_u16 in Hlen; lia |]. split; [by right | done]. }
    + exists None, s. by split.
    + exists (Some p), s'. split; [done |]. unfold is_u16 in Hlen. eapply alloc_single; try done. lia.
Qed.

(** ** What clients may do *)

Inductive pbuf_op : Type :=
| Op_alloc (layer : pbuf_layer) (length : Z) (type : pbuf_type)
| Op_ref (p : pptr) | Op_free (p : pptr) | Op_cat (h t : pptr) | Op_chain (h t : pptr) | Op_dechain (p : pptr)
| Op_realloc (p : pptr) (new_len : Z) | Op_header (p : pptr) (inc : Z) | Op_clen (p : pptr).

Definition exec (op : pbuf_op) : PM (option pptr) :=
  match op with
  | Op_alloc layer length type => pbuf_alloc layer length type
  | Op_ref p => pbuf_ref (Some p) ;; mret None
  | Op_free p => pbuf_free (Some p) ;; mret None
  | Op_cat h t => pbuf_cat (Some h) (Some t) ;; mret None
  | Op_chain h t => pbuf_chain (Some h) (Some t) ;; mret None
  | Op_dechain p => pbuf_dechain p ;; mret None
  | Op_realloc p new_len => pbuf_realloc p new_len ;; mret None
  | Op_header p inc => pbuf_header (Some p) inc ;; mret None
  | Op_clen p => pbuf_clen (Some p) ;; mret None
  end.

(** The clients pass pbufs they hold a reference to; a count and a total stay in
    their 16 bits; a chain that is changed is not the tail of another one. *)
Definition refs_of (s : pstore) (p : pptr) : Z := from_option sp_ref 0 (ps_mem s !! p).
Definition tot (s : pstore) (p : pptr) : Z := tot_of (ps_mem s) (Some p).
Definition alone (s : pstore) (p : pptr) : Prop :=
  forall ps, chain (sp_next <$> ps_mem s) (Some p) ps -> private (sp_next <$> ps_mem s) ps.
Definition joinable (s : pstore) (h t : pptr) : Prop :=
  alone s h /\ tot s h + tot s t < 65536 /\
  forall hs ts, chain (sp_next <$> ps_mem s) (Some h) hs -> chain (sp_next <$> ps_mem s) (Some t) ts -> hs ## ts.
Definition legal (ext : gmultiset pptr) (s : pstore) (op : pbuf_op) : Prop :=
  match op with
  | Op_alloc layer length type => is_u16 length /\ (type = PBUF_RAM -> pbuf_ram_fits layer length = true)
  | Op_ref p => p ∈ ext /\ refs_of s p < 65535
  | Op_free p | Op_clen p => p ∈ ext
  | Op_cat h t => h ∈ ext /\ t ∈ ext /\ joinable s h t
  | Op_chain h t => h ∈ ext /\ t ∈ ext /\ joinable s h t /\ refs_of s t < 65535
  | Op_dechain p => p ∈ ext /\ alone s p
  | Op_realloc p new_len => p ∈ ext /\ alone s p /\ is_u16 new_len
  | Op_header p inc => p ∈ ext /\ alone s p /\ -32768 <= inc < 32768 /\ tot s p + inc < 65536
  end.
(** The references they hold afterwards. *)
Definition after (ext : gmultiset pptr) (op : pbuf_op) (r : option pptr) : gmultiset pptr :=
  match op with
  | Op_alloc _ _ _ => opt_ms r ⊎ ext
  | Op_ref p => {[+ p +]} ⊎ ext
  | Op_free p | Op_cat _ p => ext ∖ {[+ p +]}
  | _ => ext
  end.

Lemma alone_pred ext s p b : store_ok ext s -> ps_mem s !! p = Some b -> alone s p -> p ∉ succs (sp_next <$> ps_mem s).
Proof.
  intros Hok Hp Ha Hin. destruct (chain_of _ _ _ _ _ Hok Hp) as [ps Hps]. apply succs_pred in Hin as [q Hq].
  pose proof (Ha _ Hps q p Hq ltac:(left)) as Hqp. pose proof (chain_NoDup _ _ _ Hps) as [Hni _]%NoDup_cons. apply Hni.
  pose proof (chain_next _ _ _ _ _ Hps Hqp Hq) as _. destruct (list_elem_of_split _ _ Hqp) as (l1 & l2 & E).
  rewrite E in Hps. pose proof (chain_app _ _ _ _ _ Hps) as (_ & n & Hn & Hc).
  rewrite Hq in Hn. injection Hn as <-. destruct l2 as [| y l2]; [done |]. destruct Hc as [[= <-] _].
  destruct l1 as [| z l1]; injection E as ? E; subst; [left | apply elem_of_app; right; right; left].
Qed.

Lemma clen_ok ps : forall fuel s p len, chain (sp_next <$> ps_mem s) p ps -> (length ps <= fuel)%nat ->
  exists n, clen_loop fuel len p s = Some (n, s) /\ (is_u8 len -> n = u8 (len + Z.of_nat (length ps))).
Proof.
  induction ps as [| q ps IH]; intros fuel s p len Hc%chain_head Hf.
  - subst p. exists len. split; [by destruct fuel |]. intros. cbn. rewrite Z.add_0_r. symmetry. by apply u8_small.
  - destruct Hc as (-> & b & Hq & Hc). destruct fuel as [| fuel]; [cbn in Hf; lia |]. cbn [clen_loop]. step_load Hq.
    destruct (IH fuel s (sp_next b) (u8 (len + 1)) Hc) as (n & E & Hn); [cbn in Hf; lia |]. exists n. split; [done |].
    intros _. rewrite Hn by apply u8_range. cbn [length]. word.
Qed.

Lemma ext_split (ext : gmultiset pptr) p : p ∈ ext -> ext = {[+ p +]} ⊎ (ext ∖ {[+ p +]}).
Proof. intros Hp. by apply gmultiset_disj_union_difference'. Qed.

(** Every legal operation runs to its end and keeps the memory consistent. *)
Lemma join_ok ext s h t b : store_ok ext s -> lens_ok (ps_mem s) -> h ∈ ext -> t ∈ ext -> joinable s h t -> ps_mem s !! t = Some b ->
  exists s', pbuf_cat (Some h) (Some t) s = Some (tt, s') /\ store_ok (ext ∖ {[+ t +]}) s' /\ lens_ok (ps_mem s') /\ ps_mem s' !! t = Some b.
Proof.
  intros Hok Hl Hh Ht (Ha & Hsum & Hdisj) Hb. destruct (held _ _ _ _ Hok Hh) as [hb Hhb].
  destruct (chain_of _ _ _ _ _ Hok Hhb) as [hs Hhs]. destruct (chain_of _ _ _ _ _ Hok Hb) as [ts Hts].
  rewrite (ext_split ext t Ht) in Hok. unfold tot, tot_of in Hsum. cbn in Hsum. rewrite Hhb, Hb in Hsum. cbn in Hsum.
  pose proof (Hdisj _ _ Hhs Hts) as Hd.
  destruct (cat_ok _ s h t hb b (h :: hs) (t :: ts) Hok Hl Hhb Hb Hhs Hts) as (s' & l & E & Hok' & Hl' & -> & _);
    [by apply Ha | intros x Hx Hx2; exact (Hd x Hx Hx2) | done |].
  eexists. split; [exact E |]. split; [done |]. split; [done |]. cbn. rewrite on_chain_at, decide_False, Hb; [done |].
  intros Hx. apply (Hd t Hx). left.
Qed.

Lemma exec_ok ext s op : store_ok ext s -> lens_ok (ps_mem s) -> legal ext s op ->
  exists r s', exec op s = Some (r, s') /\ store_ok (after ext op r) s' /\ lens_ok (ps_mem s').
Proof.
  intros Hok Hl. destruct op as [layer length type | p | p | h t | h t | p | p new_len | p inc | p]; cbn [legal exec after].
  - intros [Hlen Hfit]. destruct (alloc_ok ext s layer length type Hok Hl Hlen Hfit) as (o & s' & E & Hpost). exists o, s'.
    split; [done |]. destruct o as [p |]; [by destruct Hpost as (? & ? & _) |]. destruct Hpost as [Ho Em].
    rewrite opt_ms_None, Em. done.
  - intros [Hp Hr]. destruct (held _ _ _ _ Hok Hp) as [b Hb]. unfold refs_of in Hr. rewrite Hb in Hr.
    destruct (ref_ok ext s p b Hok Hl Hb Hr) as (s' & E & ? & ? & _). rewrite (pm_bind _ _ _ _ _ E). by do 2 eexists.
  - intros Hp. rewrite (ext_split ext p Hp) in Hok. destruct (pbuf_free_ok _ _ _ Hok) as (ps & s' & _ & E & Hm & Hok' & _).
    rewrite (pm_bind _ _ _ _ _ E). do 2 eexists. split; [done |]. split; [done | by eapply free_lens].
  - intros (Hh & Ht & Hj). destruct (held _ _ _ _ Hok Ht) as [b Hb].
    destruct (join_ok ext s h t b Hok Hl Hh Ht Hj Hb) as (s' & E & ? & ? & _). rewrite (pm_bind _ _ _ _ _ E). by do 2 eexists.
  - intros (Hh & Ht & Hj & Hr). destruct (held _ _ _ _ Hok Ht) as [b Hb]. unfold refs_of in Hr. rewrite Hb in Hr.
    destruct (join_ok ext s h t b Hok Hl Hh Ht Hj Hb) as (s1 & E & Hok1 & Hl1 & Hb1). unfold pbuf_chain.
    destruct (ref_ok _ s1 t b Hok1 Hl1 Hb1 Hr) as (s' & E' & ? & ? & _). rewrite <- (ext_split ext t Ht) in *.
    assert (Ec : (pbuf_cat (Some h) (Some t) ;; pbuf_ref (Some t)) s = Some (tt, s')) by (by rewrite (pm_bind _ _ _ _ _ E)).
    rewrite (pm_bind _ _ _ _ _ Ec). by do 2 eexists.
  - intros [Hp Ha]. destruct (held _ _ _ _ Hok Hp) as [b Hb].
    destruct (dechain_ok ext s p b Hok Hl Hb (alone_pred _ _ _ _ Hok Hb Ha)) as (r & s' & ps & E & ? & ? & _).
    rewrite (pm_bind _ _ _ _ _ E). by do 2 eexists.
  - intros (Hp & Ha & Hn). destruct (held _ _ _ _ Hok Hp) as [b Hb]. destruct (chain_of _ _ _ _ _ Hok Hb) as [ps Hps].
    destruct (Z.leb_spec (sp_tot_len b) new_len) as [Hle | Hlt].
    + assert (E : pbuf_realloc p new_len s = Some (tt, s)).
      { unfold pbuf_realloc. step_load Hb. by rewrite (proj2 (Z.leb_le _ _) Hle). }
      rewrite (pm_bind _ _ _ _ _ E). by do 2 eexists.
    + destruct (realloc_ok ext s p b _ new_len Hok Hl Hb Hps (Ha _ Hps)) as (s' & ps1 & q & ps2 & c & E & ? & ? & _);
        [unfold is_u16 in Hn; lia |]. rewrite (pm_bind _ _ _ _ _ E). by do 2 eexists.
  - intros (Hp & Ha & Hinc & Ht). destruct (held _ _ _ _ Hok Hp) as [b Hb]. unfold tot, tot_of in Ht. cbn in Ht. rewrite Hb in Ht.
    destruct (header_ok ext s p b inc Hok Hl Hb (alone_pred _ _ _ _ Hok Hb Ha) Hinc Ht) as (r & s' & E & ? & ?).
    rewrite (pm_bind _ _ _ _ _ E). by do 2 eexists.
  - intros Hp. destruct (held _ _ _ _ Hok Hp) as [b Hb]. destruct (chain_of _ _ _ _ _ Hok Hb) as [ps Hps].
    destruct (clen_ok (p :: ps) (store_fuel s) s (Some p) 0 Hps) as (n & E & _).
    { pose proof (chain_length _ _ _ Hps) as Hlen. by rewrite map_size_fmap in Hlen. }
    unfold pbuf_clen, with_fuel. rewrite (pm_bind (fun s => clen_loop (store_fuel s) 0 (Some p) s) _ s n s E). by do 2 eexists.
Qed.

(** ** What clients can rely on *)

(** The memory after [memp_init] and [mem_init], and after calls of the clients,
    who hold the references [ext]. *)
Definition pstore_init (r : gmap Z mem_hdr) : pstore :=
  mk_pstore ∅ (memp_init PBUF_POOL_SIZE) (memp_init MEMP_NUM_PBUF) (mem_init r) false.
Inductive pbuf_run (r : gmap Z mem_hdr) : pstore -> gmultiset pptr -> Prop :=
| run_init : pbuf_run r (pstore_init r) ∅
| run_op s ext op p s' : pbuf_run r s ext -> legal ext s op -> exec op s = Some (p, s') -> pbuf_run r s' (after ext op p).

Lemma init_ok r : store_ok ∅ (pstore_init r) /\ lens_ok (ps_mem (pstore_init r)).
Proof.
  split; [split | done].
  - cbn. rewrite !fmap_empty. split; [| | | by intros p [? ?]].
    { intros p. rewrite !lookup_empty. by split; intros [? ?]. } { by intros p n. }
    intros p Hp. exfalso. unfold succs in Hp. rewrite map_to_list_empty in Hp. change (omap snd []) with (@nil pptr) in Hp.
    rewrite list_to_set_disj_nil in Hp. apply gmultiset_elem_of_disj_union in Hp as [Hp | Hp]; by apply gmultiset_elem_of_empty in Hp.
  - exists ∅, ∅, []. split; cbn; try apply memp_init_ok; try done.
    + intros e. rewrite lookup_empty. split; [intros He; set_solver | by intros [? ?]].
    + intros e. rewrite lookup_empty. split; [intros He; set_solver | by intros [? ?]].
    + exists [(MEM_SIZE_ALIGNED, false)]. split; [apply mem_init_ok | done].
    + intros o. rewrite lookup_empty. split; [by intros ?%not_elem_of_nil | by intros [? ?]].
  - done.
Qed.
Lemma run_ok r s ext : pbuf_run r s ext -> store_ok ext s /\ lens_ok (ps_mem s).
Proof.
  induction 1 as [| s ext op p s' _ [Hok Hl] Hleg E]; [apply init_ok |].
  destruct (exec_ok ext s op Hok Hl Hleg) as (p2 & s2 & E2 & ? & ?). rewrite E in E2. by injection E2 as <- <-.
Qed.

(** Without references of clients there are no pbufs: each would have one before
    it on a chain, and chains end. *)
Lemma no_refs_empty s : store_ok ∅ s -> ps_mem s = ∅.
Proof.
  intros Hok. apply map_eq. intros p. rewrite lookup_empty. apply eq_None_not_Some. intros [b Hb].
  assert (Hlong : forall n, exists q qs, chain (sp_next <$> ps_mem s) (Some q) (q :: qs) /\ (n <= length qs)%nat).
  { induction n as [| n (q & qs & Hc & Hn)].
    - destruct (chain_of _ _ _ _ _ Hok Hb) as [ps Hps]. exists p, ps. split; [done | lia].
    - destruct (chain_dom _ _ _ q Hc ltac:(left)) as [nx Hq]. apply lookup_fmap_Some in Hq as (c & _ & Hq).
      pose proof (count_of _ _ _ _ _ Hok Hq) as Hcnt. destruct Hok as [Hr _ _].
      destruct (rf_count _ _ _ Hr q (sp_ref c)) as [Hm _]; [by rewrite lookup_fmap, Hq |].
      assert (Hin : q ∈ succs (sp_next <$> ps_mem s)) by (apply elem_of_multiplicity; rewrite multiplicity_disj_union, multiplicity_empty in Hm; lia).
      apply succs_pred in Hin as [x Hx]. exists x, (q :: qs). split; [| cbn; lia]. cbn. eauto. }
  destruct (Hlong (size (sp_next <$> ps_mem s))) as (q & qs & Hc & Hn). pose proof (chain_length _ _ _ Hc) as Hle. cbn in Hle. lia.
Qed.

(** C5. No pbuf is lost and none is used after its release.  After any sequence of
    legal calls - allocation of every type, reference, release, concatenation,
    chaining, dechaining, shrinking, header adjustment - the next legal call runs
    to its end without touching memory that is not an allocated pbuf; the counts,
    totals and chains stay consistent; and when the clients have dropped all their
    references, all 96 pool buffers and all 48 structures are free again and the
    heap holds no block. *)
Theorem pbuf_memory_safe r s ext (Hrun : pbuf_run r s ext) :
  (forall op, legal ext s op -> exists p s', exec op s = Some (p, s')) /\
  (forall p b, ps_mem s !! p = Some b -> sp_tot_len b = sp_len b + tot_of (ps_mem s) (sp_next b)
     /\ exists ps, chain (sp_next <$> ps_mem s) (Some p) ps) /\
  (forall p, p ∈ ext -> is_Some (ps_mem s !! p)) /\
  (ext = ∅ -> ps_mem s = ∅ /\ length (memp_tab (ps_pool s)) = PBUF_POOL_SIZE
     /\ length (memp_tab (ps_refs s)) = MEMP_NUM_PBUF /\ heap_rel (ps_heap s) []).
Proof.
  destruct (run_ok _ _ _ Hrun) as [Hok Hl]. split; [| split; [| split]].
  - intros op Hleg. destruct (exec_ok ext s op Hok Hl Hleg) as (p & s' & E & _). eauto.
  - intros p b Hp. split; [exact (proj1 (Hl p b Hp)) |]. destruct (chain_of _ _ _ _ _ Hok Hp). eauto.
  - intros p Hp. destruct (held _ _ _ _ Hok Hp). eauto.
  - intros ->. pose proof (no_refs_empty s Hok) as Hm. destruct Hok as [_ (up & ur & L & []) _].
    assert (Hfull : forall num used m, memp_ok num used m -> (forall e, e ∉ used) -> length (memp_tab m) = num).
    { intros num used m (Hnd & Hin & _) He. rewrite <- (length_seq num 0). apply Permutation_length, NoDup_Permutation; [done | apply NoDup_seq |].
      intros e. rewrite Hin, elem_of_seq. specialize (He e). intuition lia. }
    split; [done |]. split; [| split].
    + eapply Hfull; [done |]. intros e. rewrite po_up0, Hm, lookup_empty. by intros [? ?].
    + eapply Hfull; [done |]. intros e. rewrite po_ur0, Hm, lookup_empty. by intros [? ?].
    + assert (L = []) as ->; [| done]. destruct L as [| [o n] L]; [done |]. exfalso.
      destruct (proj1 (po_L0 o)) as [b Hb]; [left |]. by rewrite Hm, lookup_empty in Hb.
Qed.

(** A chain is released up to the first pbuf that somebody else refers to. *)
Lemma release_split ps : forall m, NoDup ps -> (forall x, x ∈ ps -> is_Some (m !! x)) ->
  exists gone rest, ps = gone ++ rest /\ fst (release m ps) = length gone
  /\ (forall x, x ∈ gone -> exists b, m !! x = Some b /\ sp_ref b = 1)
  /\ match rest with
     | [] => forall k, snd (release m ps) !! k = if decide (k ∈ gone) then None else m !! k
     | q :: _ => exists b, m !! q = Some b /\ sp_ref b <> 1
         /\ forall k, snd (release m ps) !! k = if decide (k ∈ gone) then None else <[q := with_ref (sp_ref b - 1) b]> m !! k
     end.
Proof.
  induction ps as [| q ps IH]; intros m Hnd Hall.
  - exists [], []. split; [done | split; [done | split; [by intros x ?%not_elem_of_nil |]]].
    intros k. by rewrite decide_False by apply not_elem_of_nil.
  - apply NoDup_cons in Hnd as [Hq Hnd]. destruct (Hall q) as [b Hb]; [left |]. cbn [release]. rewrite Hb.
    destruct (Z.eqb_spec (sp_ref b) 1) as [E1 | E1].
    + destruct (IH (delete q m) Hnd) as (gone & rest & -> & Hn & Hg & Hr).
      { intros x Hx. rewrite lookup_delete_ne; [apply Hall; by right |]. by intros ->. }
      exists (q :: gone), rest. destruct (release (delete q m) (gone ++ rest)) as [n m']. cbn [fst snd] in *.
      assert (Hdec : forall (A : Type) (x y : A) k, k <> q -> (if decide (k ∈ q :: gone) then x else y) = if decide (k ∈ gone) then x else y).
      { intros A x y k Hk. destruct (decide (k ∈ gone)); [by rewrite decide_True by by right |]. rewrite decide_False; [done |]. by intros [? | ?]%elem_of_cons. }
      split; [done | split; [by rewrite Hn | split]].
      * intros x [-> | Hx]%elem_of_cons; [eauto |]. destruct (Hg x Hx) as (c & Hc & Ec). apply lookup_delete_Some in Hc as [_ Hc]. eauto.
      * assert (Hgq : q ∉ gone) by (intros Hin; apply Hq, elem_of_app; by left). destruct rest as [| t rest].
        -- intros k. rewrite Hr. destruct (decide (k = q)) as [-> | Hne].
           ++ rewrite decide_False, decide_True by (done || left). apply lookup_delete_eq.
           ++ by rewrite Hdec, lookup_delete_ne by done.
        -- destruct Hr as (c & Hc & Ec & Hk). apply lookup_delete_Some in Hc as [Hne Hc]. exists c. split; [done |]. split; [done |].
           intros k. rewrite Hk. destruct (decide (k = q)) as [-> | Hne2].
           ++ rewrite decide_False, decide_True, lookup_insert_ne by (done || left). apply lookup_delete_eq.
           ++ rewrite Hdec by done. destruct (decide (k = t)) as [-> | ?]; [by rewrite !lookup_insert_eq |]. by rewrite !lookup_insert_ne, lookup_delete_ne by done.
    + exists [], (q :: ps). split; [done | split; [done | split; [by intros x ?%not_elem_of_nil |]]]. exists b. split; [done |]. split; [done |].
      intros k. by rewrite decide_False by apply not_elem_of_nil.
Qed.

(** C28. Types are kept: in every memory the clients can reach, the [type] of each
    structure is that of the memory it lies in - so that its release goes to the
    pool or the heap it came from -, its 16-bit members are in their range, and the
    [len] bytes of a payload in a pool buffer or a heap block are inside the block,
    behind the structure. *)
Theorem pbuf_types_kept r s ext p b (Hrun : pbuf_run r s ext) (Hp : ps_mem s !! p = Some b) :
  kind_ok p b /\ is_u16 (sp_len b) /\ is_u16 (sp_tot_len b) /\ is_u16 (sp_ref b)
  /\ match p with
     | RefPtr _ => True
     | _ => SIZEOF_STRUCT_PBUF <= sp_payload b /\ sp_payload b - SIZEOF_STRUCT_PBUF + sp_len b <= Zlen (sp_block b)
     end.
Proof.
  destruct (run_ok _ _ _ Hrun) as [Hok Hl]. pose proof (tot_range _ _ _ _ Hok Hl Hp). destruct (Hl _ _ Hp) as [_ Hlt].
  pose proof (count_of _ _ _ _ _ Hok Hp). destruct (so_typed _ _ _ Hok p b Hp) as (_ & Hk & Hr).
  unfold is_u16. split; [done |]. split; [lia |]. split; [lia |]. split; [lia | exact Hr].
Qed.

(** What [pbuf_free] does: for a reference the caller holds, the chain falls into
    the pbufs [gone] with exactly that one reference left each and the [rest]; the
    first part is deallocated, its length (mod 256) is returned, the first pbuf of
    the rest loses one reference and nothing else changes. *)
Theorem pbuf_free_spec r s ext p (Hrun : pbuf_run r s ext) (Hp : p ∈ ext) :
  exists gone rest s', chain (sp_next <$> ps_mem s) (Some p) (gone ++ rest)
  /\ pbuf_free (Some p) s = Some (u8 (Z.of_nat (length gone)), s')
  /\ (forall x, x ∈ gone -> refs_of s x = 1 /\ ps_mem s' !! x = None)
  /\ (forall q, head rest = Some q -> 1 < refs_of s q /\ refs_of s' q = refs_of s q - 1)
  /\ (forall x, x ∉ gone -> head rest <> Some x -> ps_mem s' !! x = ps_mem s !! x).
Proof.
  destruct (run_ok _ _ _ Hrun) as [Hok _]. pose proof Hok as Hok0. rewrite (ext_split ext p Hp) in Hok.
  destruct (pbuf_free_ok _ _ _ Hok) as (ps & s' & Hc & E & Hm & _).
  destruct (release_split (p :: ps) (ps_mem s)) as (gone & rest & Ep & Hn & Hg & Hr).
  { by eapply chain_NoDup. }
  { intros x Hx. destruct (chain_dom _ _ _ _ Hc Hx) as [n Hx2]. apply lookup_fmap_Some in Hx2 as (b & _ & Hb). eauto. }
  assert (Hnd : NoDup (gone ++ rest)) by (rewrite <- Ep; by eapply chain_NoDup).
  exists gone, rest, s'. rewrite <- Ep, <- Hn, Hm. apply NoDup_app in Hnd as (_ & Hd & _). split_and!; try done.
  - intros x Hx. destruct (Hg x Hx) as (b & Hb & Er). unfold refs_of. rewrite Hb. split; [done |]. destruct rest as [| q rest].
    + by rewrite Hr, decide_True.
    + destruct Hr as (c & _ & _ & Hk). by rewrite Hk, decide_True.
  - intros q Hq. destruct rest as [| q0 rest]; [done |]. injection Hq as ->. destruct Hr as (c & Hcq & Hne & Hk). unfold refs_of.
    rewrite Hm, Hk, decide_False, lookup_insert_eq, Hcq by (intros Hx; apply (Hd q Hx); left). cbn.
    pose proof (count_of _ _ _ _ _ Hok0 Hcq). lia.
  - intros x Hx Hh. destruct rest as [| q rest]; [by rewrite Hr, decide_False |].
    destruct Hr as (c & _ & _ & Hk). rewrite Hk, decide_False by done. apply lookup_insert_ne. by intros ->.
Qed.

(** ** Chains in memory as values *)

(** The segment a structure stands for, and the packet value at [p]. *)
Definition front (b : spbuf) : nat := Z.to_nat (sp_payload b - base b).
Definition seg_of (b : spbuf) : pseg :=
  mk_pseg (sp_type b) (take (front b) (sp_block b)) (take (Z.to_nat (sp_len b)) (drop (front b) (sp_block b))).
Definition segs (m : gmap pptr spbuf) (ps : list pptr) : list pseg := omap (fun x => seg_of <$> m !! x) ps.
(** The payload is in the block, as [pbuf_alloc] sets it up for [PBUF_RAM] and
    [PBUF_POOL] and the caller for the other types. *)
Definition backed (b : spbuf) : Prop := base b <= sp_payload b /\ sp_payload b - base b + sp_len b <= Zlen (sp_block b).
Definition pbuf_at (s : pstore) (p : pptr) (v : pbuf) : Prop :=
  exists b ps, ps_mem s !! p = Some b /\ chain (sp_next <$> ps_mem s) (Some p) (p :: ps)
  /\ (forall x c, x ∈ p :: ps -> ps_mem s !! x = Some c -> backed c)
  /\ v = mk_pbuf (seg_of b) (segs (ps_mem s) ps) (sp_flags b).

Lemma seg_len b : 0 <= sp_len b -> backed b -> Zlen (ps_data (seg_of b)) = sp_len b.
Proof.
  intros H0 [H1 H2]. unfold seg_of, front, Zlen in *. cbn. rewrite length_take, length_drop. lia.
Qed.

(** The operations that change the bytes of one chain, and their counterparts on
    values. *)
Inductive val_op : Type := Val_header (inc : Z) | Val_realloc (new_len : Z) | Val_cat (t : pptr) (w : pbuf).
Definition val_exec (p : pptr) (op : val_op) : PM Z :=
  match op with
  | Val_header inc => pbuf_header (Some p) inc
  | Val_realloc n => pbuf_realloc p n ;; mret 0
  | Val_cat t _ => pbuf_cat (Some p) (Some t) ;; mret 0
  end.
Definition val_spec (v : pbuf) (op : val_op) : option pbuf :=
  match op with
  | Val_header inc => Pbuf.pbuf_header v inc
  | Val_realloc n => Some (Pbuf.pbuf_realloc v n)
  | Val_cat _ w => Some (Pbuf.pbuf_chain v w)
  end.
Definition val_legal (ext : gmultiset pptr) (s : pstore) (p : pptr) (op : val_op) : Prop :=
  match op with
  | Val_header inc => legal ext s (Op_header p inc)
  | Val_realloc n => legal ext s (Op_realloc p n)
  | Val_cat t w => legal ext s (Op_cat p t) /\ pbuf_at s t w
  end.

Lemma segs_ext m m' ps : (forall x, x ∈ ps -> seg_of <$> m' !! x = seg_of <$> m !! x) -> segs m' ps = segs m ps.
Proof.
  induction ps as [| q ps IH]; intros H; [done |]. cbn. rewrite (H q) by left. f_equal. destruct (seg_of <$> m !! q); [f_equal |];
    apply IH; intros x Hx; apply H; by right.
Qed.
Lemma segs_app m ps qs : segs m (ps ++ qs) = segs m ps ++ segs m qs.
Proof. apply omap_app. Qed.
Lemma segs_cons m q ps b : m !! q = Some b -> segs m (q :: ps) = seg_of b :: segs m ps.
Proof. intros Hq. unfold segs. cbn. by rewrite Hq. Qed.

(** Hiding and revealing headers. *)
Lemma seg_header b inc : backed b -> 0 <= sp_len b -> 0 <= sp_len b + inc -> base b <= sp_payload b - inc ->
  let b' := with_payload (sp_payload b - inc) (with_lens (sp_tot_len b + inc) (sp_len b + inc) b) in
  backed b' /\ seg_of b' = if inc <? 0
    then mk_pseg (sp_type b) (ps_pre (seg_of b) ++ take (Z.to_nat (- inc)) (ps_data (seg_of b))) (drop (Z.to_nat (- inc)) (ps_data (seg_of b)))
    else let k := (length (ps_pre (seg_of b)) - Z.to_nat inc)%nat in
         mk_pseg (sp_type b) (take k (ps_pre (seg_of b))) (drop k (ps_pre (seg_of b)) ++ ps_data (seg_of b)).
Proof.
  intros [H1 H2] H0 Hn Hb b'. unfold backed, seg_of, front, Zlen in *.
  change (base b') with (base b). cbn [b' with_payload with_lens sp_payload sp_len sp_type sp_block ps_pre ps_data].
  set (k := sp_payload b - base b) in *. split; [lia |]. replace (sp_payload b - inc - base b) with (k - inc) by lia.
  destruct (Z.ltb_spec inc 0).
  - replace (Z.to_nat (k - inc)) with (Z.to_nat k + Z.to_nat (- inc))%nat by lia. f_equal.
    + rewrite take_take, Nat.min_l by lia. by rewrite take_take_drop.
    + rewrite skipn_firstn_comm, drop_drop. f_equal. lia.
  - rewrite length_take, Nat.min_l by lia. replace (Z.to_nat k - Z.to_nat inc)%nat with (Z.to_nat (k - inc)) by lia.
    rewrite take_take, Nat.min_l by lia. f_equal.
    rewrite <- (take_drop (Z.to_nat inc) (drop (Z.to_nat (k - inc)) (sp_block b))). rewrite drop_drop.
    replace (Z.to_nat (k - inc) + Z.to_nat inc)%nat with (Z.to_nat k) by lia.
    rewrite skipn_firstn_comm. replace (Z.to_nat k - Z.to_nat (k - inc))%nat with (Z.to_nat inc) by lia.
    rewrite take_app, length_take, length_drop, take_take. f_equal; f_equal; lia.
Qed.

Lemma pbuf_at_put s p v b b' : pbuf_at s p v -> ps_mem s !! p = Some b -> sp_next b' = sp_next b -> sp_flags b' = sp_flags b ->
  backed b' -> pbuf_at (put_pbuf p b' s) p (mk_pbuf (seg_of b') (pb_next v) (pb_flags v)).
Proof.
  intros (b0 & ps & Hb & Hc & Hbk & ->) Hb0 En Ef Hbk'. rewrite Hb in Hb0. injection Hb0 as ->.
  pose proof (chain_NoDup _ _ _ Hc) as [Hni _]%NoDup_cons.
  exists b', ps. rewrite put_eq, (put_links _ b) by done. split; [done |]. split; [done |]. split.
  - intros x c Hx. destruct (decide (x = p)) as [-> | Hne]; [rewrite put_eq; by intros [= <-] |].
    rewrite put_ne by done. by apply Hbk.
  - cbn [pb_next pb_flags]. rewrite Ef. f_equal. symmetry. apply segs_ext. intros x Hx. by rewrite put_ne by (by intros <-).
Qed.

Lemma header_val ext s p v inc : store_ok ext s -> lens_ok (ps_mem s) -> pbuf_at s p v -> -32768 <= inc < 32768 -> tot s p + inc < 65536 ->
  exists r s', pbuf_header (Some p) inc s = Some (r, s')
  /\ match Pbuf.pbuf_header v inc with Some v' => r = 0 /\ pbuf_at s' p v' | None => r = 1 /\ s' = s end.
Proof.
  intros Hok Hl Hv Hinc Ht. pose proof Hv as (b & ps & Hb & Hc & Hbk & Ev). pose proof (tot_range _ _ _ _ Hok Hl Hb) as Hlen.
  unfold tot, tot_of in Ht. cbn in Ht. rewrite Hb in Ht. cbn in Ht. destruct (Hl _ _ Hb) as [_ Hlt].
  assert (Hbb : backed b) by (apply (Hbk p); [left | done]). pose proof (seg_len b ltac:(lia) Hbb) as Hsl.
  set (b' := with_payload (sp_payload b - inc) (with_lens (sp_tot_len b + inc) (sp_len b + inc) b)).
  assert (Hgo : 0 <= sp_len b + inc -> base b <= sp_payload b - inc -> exists s',
    (modify (fun b => with_payload (sp_payload b - inc) (with_lens (u16 (sp_tot_len b + inc)) (u16 (sp_len b + inc)) b)) p ;; mret 0) s
      = Some (0, s') /\ pbuf_at s' p (mk_pbuf (seg_of b') (pb_next v) (pb_flags v))).
  { intros H1 H2. step_modify Hb. eexists. split; [done |]. rewrite !u16_small by (unfold is_u16; lia).
    apply (pbuf_at_put _ _ _ b); try done. exact (proj1 (seg_header b inc Hbb (proj1 Hlen) H1 H2)). }
  assert (Epre : Zlen (ps_pre (seg_of b)) = sp_payload b - base b).
  { destruct Hbb. unfold seg_of, front, Zlen in *. cbn. rewrite length_take. lia. }
  cbn [pbuf_header]. unfold Pbuf.pbuf_header. destruct (Z.eqb_spec inc 0) as [-> | H0].
  { do 2 eexists. split; [done | by split]. }
  assert (Efst : pb_first v = seg_of b) by (by rewrite Ev).
  assert (Elen : p_len v = sp_len b) by (unfold p_len, p_payload; by rewrite Efst).
  step_load Hb. rewrite Elen, Efst. destruct (Z.ltb_spec inc 0) as [Hneg | Hpos]; cbn [andb].
  - rewrite u16_small by (unfold is_u16; lia). destruct (Z.ltb_spec (sp_len b) (- inc)) as [Hbig | Hfit].
    { rewrite (proj2 (Z.leb_gt _ _)) by lia. by do 2 eexists. }
    rewrite (proj2 (Z.leb_le _ _)) by lia. destruct Hbb as [Hb1 Hb2]. destruct (Hgo ltac:(lia) ltac:(lia)) as (s' & E & Hat).
    exists 0, s'. assert (Hpay : (sp_payload b - inc <? SIZEOF_STRUCT_PBUF) = false \/ base b = 0).
    { unfold base in *. destruct (sp_type b); auto; left; apply Z.ltb_ge; lia. }
    split.
    + unfold base in Hpay. destruct (sp_type b); try exact E; (destruct Hpay as [-> | ?]; [exact E | done]).
    + split; [done |]. destruct (seg_header b inc (conj Hb1 Hb2) ltac:(lia) ltac:(lia) ltac:(lia)) as [_ Es].
      rewrite (proj2 (Z.ltb_lt _ _) Hneg) in Es. fold b' in Es. by rewrite Es in Hat.
  - change (ps_type (seg_of b)) with (sp_type b). destruct Hbb as [Hb1 Hb2].
    assert (Hram : base b = SIZEOF_STRUCT_PBUF -> exists r s',
      (if sp_payload b - inc <? SIZEOF_STRUCT_PBUF then mret 1 else
         modify (fun b => with_payload (sp_payload b - inc) (with_lens (u16 (sp_tot_len b + inc)) (u16 (sp_len b + inc)) b)) p ;; mret 0) s = Some (r, s')
      /\ match (if Zlen (ps_pre (seg_of b)) <? inc then None else
           let k := (length (ps_pre (seg_of b)) - Z.to_nat inc)%nat in
           Some (mk_pbuf (mk_pseg (sp_type b) (take k (ps_pre (seg_of b))) (drop k (ps_pre (seg_of b)) ++ ps_data (seg_of b))) (pb_next v) (pb_flags v)))
         with Some v' => r = 0 /\ pbuf_at s' p v' | None => r = 1 /\ s' = s end).
    { intros Ebase. rewrite Epre, Ebase.
      destruct (Z.ltb_spec (sp_payload b - inc) SIZEOF_STRUCT_PBUF).
      - rewrite (proj2 (Z.ltb_lt _ _)) by lia. by do 2 eexists.
      - rewrite (proj2 (Z.ltb_ge _ _)) by lia. destruct (Hgo ltac:(lia) ltac:(lia)) as (s' & E & Hat). exists 0, s'. split; [exact E |].
        split; [done |]. destruct (seg_header b inc (conj Hb1 Hb2) ltac:(lia) ltac:(lia) ltac:(lia)) as [_ Es].
        rewrite (proj2 (Z.ltb_ge _ _) Hpos) in Es. fold b' in Es. by rewrite Es in Hat. }
    unfold base in Hram.
    destruct (sp_type b); try (by apply Hram); by do 2 eexists.
Qed.

(** The bytes of a chain are as many as its total says. *)
Lemma segs_tot m ps : lens_ok m -> map_Forall typed m -> forall q b, chain (sp_next <$> m) (Some q) (q :: ps) -> m !! q = Some b ->
  (forall x c, x ∈ q :: ps -> m !! x = Some c -> backed c) -> Zlen (mjoin (map ps_data (segs m (q :: ps)))) = sp_tot_len b.
Proof.
  intros Hl Ht. induction ps as [| y ps IH]; intros q b Hc Hq Hbk; apply chain_head in Hc as (_ & b0 & Hb0 & Hc);
    rewrite Hq in Hb0; injection Hb0 as <-; rewrite (segs_cons _ _ _ _ Hq); cbn [map mjoin list_join]; rewrite Zlen_app;
    rewrite seg_len by (apply (Ht _ _ Hq) || (apply (Hbk q); [left | done])); destruct (Hl _ _ Hq) as [E _]; rewrite E; f_equal.
  - apply chain_head in Hc. by rewrite Hc.
  - pose proof Hc as Hc2. apply chain_head in Hc2 as (En & c & Hy & _). rewrite En in Hc |- *. cbn [tot_of from_option]. rewrite Hy.
    apply (IH y c Hc Hy). intros x d Hx. apply Hbk. by right.
Qed.

(** [Pbuf.pbuf_realloc] on a list of segments. *)
Definition realloc_list (rem : Z) (l : list pseg) : list pseg :=
  match l with [] => [] | s :: rest => let '(s', rest') := realloc_loop rem s rest in s' :: rest' end.
Lemma realloc_list_cons rem s rest : realloc_list rem (s :: rest) =
  if Zlen (ps_data s) <? rem then s :: realloc_list (rem - Zlen (ps_data s)) rest
  else [mk_pseg (ps_type s) (ps_pre s) (take (Z.to_nat rem) (ps_data s))].
Proof.
  unfold realloc_list. destruct rest as [| s2 rest]; cbn [realloc_loop]; destruct (Zlen (ps_data s) <? rem); try done.
  by destruct (realloc_loop (rem - Zlen (ps_data s)) s2 rest).
Qed.

Lemma realloc_segs m q c ps2 grow : lens_ok m -> map_Forall typed m -> m !! q = Some c -> backed c ->
  0 <= sp_tot_len c + grow <= sp_len c -> forall ps1 p b, chain (sp_next <$> m) (Some p) (ps1 ++ q :: ps2) -> m !! p = Some b ->
  (forall x d, x ∈ ps1 -> m !! x = Some d -> backed d /\ sp_len d < sp_tot_len d + grow) ->
  realloc_list (sp_tot_len b + grow) (segs m (ps1 ++ q :: ps2))
  = segs m ps1 ++ [mk_pseg (sp_type c) (ps_pre (seg_of c)) (take (Z.to_nat (sp_tot_len c + grow)) (ps_data (seg_of c)))].
Proof.
  intros Hl Ht Hq Hqb Hr. induction ps1 as [| x ps1 IH]; intros p b Hc Hp Hall.
  - assert (q = p) as -> by (by destruct Hc as [[= <-] _]). rewrite Hp in Hq. injection Hq as ->. cbn [app].
    rewrite (segs_cons _ _ _ _ Hp), realloc_list_cons, seg_len by (done || apply (Ht _ _ Hp)). by rewrite (proj2 (Z.ltb_ge _ _)) by lia.
  - assert (x = p) as -> by (by destruct Hc as [[= <-] _]). apply chain_head in Hc as (_ & b0 & Hb0 & Hc).
    rewrite Hp in Hb0. injection Hb0 as <-. destruct (Hall p b) as [Hbk Hlt]; [left | done |].
    change ((p :: ps1) ++ q :: ps2) with (p :: (ps1 ++ q :: ps2)). rewrite !(segs_cons _ _ _ _ Hp), realloc_list_cons, seg_len by (done || apply (Ht _ _ Hp)).
    rewrite (proj2 (Z.ltb_lt _ _)) by done. cbn [app]. f_equal. destruct (Hl _ _ Hp) as [E _].
    assert (exists y d, sp_next b = Some y /\ m !! y = Some d) as (y & d & En & Hy).
    { destruct (ps1 ++ q :: ps2) as [| y l] eqn:El; [by destruct ps1 |]. pose proof Hc as Hc2. apply chain_head in Hc2 as (En & d & Hd & _). eauto. }
    rewrite En in E, Hc. cbn in E. rewrite Hy in E. cbn in E. replace (sp_tot_len b + grow - sp_len b) with (sp_tot_len d + grow) by lia.
    apply (IH y d Hc Hy). intros z e Hz. apply Hall. by right.
Qed.

Lemma cut_val rem c : backed c -> 0 <= rem <= sp_len c -> backed (with_next None (cut rem c)) /\
  seg_of (with_next None (cut rem c)) = mk_pseg (sp_type c) (ps_pre (seg_of c)) (take (Z.to_nat rem) (ps_data (seg_of c))).
Proof.
  intros [H1 H2] Hr. unfold cut. destruct (bool_decide (sp_type c = PBUF_RAM) && negb (rem =? sp_len c)) eqn:E.
  - apply andb_prop in E as [Ety%bool_decide_eq_true _]. unfold backed, seg_of, front, base in *. rewrite Ety in H1, H2 |- *.
    cbn [with_next with_lens trimmed with_block sp_type sp_payload sp_len sp_block ps_pre ps_data]. rewrite Ety.
    unfold Zlen in *. rewrite length_take. split; [lia |]. f_equal.
    + rewrite take_take. f_equal. lia.
    + rewrite take_take, skipn_firstn_comm, take_take. f_equal. lia.
  - unfold backed, seg_of, front. change (base (with_next None (with_lens rem rem c))) with (base c).
    cbn [with_next with_lens sp_type sp_payload sp_len sp_block ps_pre ps_data]. split; [lia |]. f_equal.
    rewrite take_take. f_equal. lia.
Qed.

(** The chain up to a pbuf that is made its end. *)
Lemma chain_cut l l' p ps1 q ps2 : chain l p (ps1 ++ q :: ps2) -> (forall x, x ∈ ps1 -> l' !! x = l !! x) -> l' !! q = Some None ->
  chain l' p (ps1 ++ [q]).
Proof.
  revert p; induction ps1 as [| y ps1 IH]; intros p Hc H1 H2.
  - destruct Hc as (-> & _). cbn. split; [done |]. by exists None.
  - destruct Hc as (-> & n & Hn & Hc). cbn. split; [done |]. exists n. split; [rewrite H1; [done | left] |].
    apply IH; [done | | done]. intros x Hx. apply H1. by right.
Qed.

Lemma realloc_val ext s p v new_len : store_ok ext s -> lens_ok (ps_mem s) -> pbuf_at s p v -> alone s p -> is_u16 new_len ->
  exists s', pbuf_realloc p new_len s = Some (tt, s') /\ pbuf_at s' p (Pbuf.pbuf_realloc v new_len).
Proof.
  intros Hok Hl Hv Ha Hn. pose proof Hv as (b & ps & Hb & Hc & Hbk & Ev).
  assert (Etot : p_tot_len v = sp_tot_len b).
  { rewrite <- (segs_tot _ ps Hl (so_typed _ _ _ Hok) p b Hc Hb Hbk), (segs_cons _ _ _ _ Hb). by rewrite Ev. }
  unfold Pbuf.pbuf_realloc. rewrite Etot. destruct (Z.leb_spec (sp_tot_len b) new_len) as [Hle | Hlt].
  { exists s. split; [| done]. unfold pbuf_realloc. step_load Hb. by rewrite (proj2 (Z.leb_le _ _) Hle). }
  destruct (realloc_ok ext s p b _ new_len Hok Hl Hb Hc (Ha _ Hc)) as (s' & ps1 & q & ps2 & c & E & _ & _ & Eps & Hq & Hrem & H1 & H2);
    [unfold is_u16 in Hn; lia |]. exists s'. split; [done |].
  set (grow := new_len - sp_tot_len b) in *. rewrite Eps in Hc, Hbk.
  assert (Hqb : backed c) by (apply (Hbk q); [apply elem_of_app; right; left | done]).
  destruct (cut_val _ c Hqb Hrem) as [Hcb Hcs].
  assert (Hall : forall x d, x ∈ ps1 -> ps_mem s !! x = Some d -> backed d /\ sp_len d < sp_tot_len d + grow).
  { intros x d Hx Hd. split; [apply (Hbk x); [apply elem_of_app; by left | done] | by apply (H1 x d)]. }
  pose proof (realloc_segs _ q c ps2 grow Hl (so_typed _ _ _ Hok) Hq Hqb Hrem ps1 p b Hc Hb Hall) as El.
  replace (sp_tot_len b + grow) with new_len in El by (unfold grow; lia). rewrite <- Eps, (segs_cons _ _ _ _ Hb) in El.
  assert (Hin1 : forall x, x ∈ ps1 -> exists d, ps_mem s !! x = Some d /\ ps_mem s' !! x = Some (shrunk grow x d)).
  { intros x Hx. destruct (chain_dom _ _ _ x Hc) as [n Hx2]; [apply elem_of_app; by left |].
    apply lookup_fmap_Some in Hx2 as (d & _ & Hd). exists d. split; [done | by apply (H1 x d)]. }
  assert (Hc' : chain (sp_next <$> ps_mem s') (Some p) (ps1 ++ [q])).
  { apply (chain_cut _ _ _ _ _ _ Hc); [| by rewrite (link_at _ _ _ H2)]. intros x Hx. destruct (Hin1 x Hx) as (d & Hd & Hd').
    by rewrite (link_at _ _ _ Hd), (link_at _ _ _ Hd'). }
  assert (Es : segs (ps_mem s') (ps1 ++ [q]) = realloc_list new_len (seg_of b :: segs (ps_mem s) ps)).
  { rewrite El, segs_app, (segs_cons _ q [] _ H2), Hcs. cbn [segs omap list_omap]. f_equal. apply segs_ext. intros x Hx.
    destruct (Hin1 x Hx) as (d & -> & ->). done. }
  assert (Hbk' : forall x d, x ∈ ps1 ++ [q] -> ps_mem s' !! x = Some d -> backed d).
  { intros x d [Hx | ->%list_elem_of_singleton]%elem_of_app Hd; [| rewrite H2 in Hd; by injection Hd as <-].
    destruct (Hin1 x Hx) as (e & He & He'). rewrite He' in Hd. injection Hd as <-. apply (Hall x e Hx He). }
  destruct (ps1 ++ [q]) as [| p0 qs] eqn:Eq; [by destruct ps1 |]. assert (p0 = p) as -> by (by destruct Hc' as [[= <-] _]).
  assert (exists b', ps_mem s' !! p = Some b' /\ sp_flags b' = sp_flags b) as (b' & Hb' & Ef).
  { destruct ps1 as [| y ps1]; injection Eq as Eq1 Eq2; subst.
    - eexists. split; [exact H2 |]. rewrite Hb in Hq. injection Hq as <-. unfold cut. by case_match.
    - destruct (Hin1 p) as (d & Hd & Hd'); [left |]. rewrite Hb in Hd. injection Hd as <-. eauto. }
  rewrite (segs_cons _ _ _ _ Hb') in Es. cbn [realloc_list] in Es. rewrite Ev. cbn [pb_first pb_next pb_flags].
  destruct (realloc_loop new_len (seg_of b) (segs (ps_mem s) ps)) as [s1 rest]. injection Es as Es1 Es2.
  exists b', qs. rewrite <- Es1, <- Es2, Ef. done.
Qed.

Lemma cat_val ext s h t v w : store_ok ext s -> lens_ok (ps_mem s) -> h ∈ ext -> t ∈ ext -> joinable s h t ->
  pbuf_at s h v -> pbuf_at s t w ->
  exists s', pbuf_cat (Some h) (Some t) s = Some (tt, s') /\ pbuf_at s' h (Pbuf.pbuf_chain v w).
Proof.
  intros Hok Hl Hh Ht (Ha & Hsum & Hdisj) (hb & hs & Hhb & Hhs & Hhk & ->) (tb & ts & Htb & Hts & Htk & ->).
  rewrite (ext_split ext t Ht) in Hok. unfold tot, tot_of in Hsum. cbn in Hsum. rewrite Hhb, Htb in Hsum. cbn in Hsum.
  pose proof (Hdisj _ _ Hhs Hts) as Hd.
  destruct (cat_ok _ s h t hb tb (h :: hs) (t :: ts) Hok Hl Hhb Htb Hhs Hts) as (s' & l & E & _ & _ & -> & Hlast);
    [by apply Ha | intros x Hx Hx2; exact (Hd x Hx Hx2) | done |].
  set (f := cat_at l t (sp_tot_len tb)) in *. eexists. split; [exact E |].
  assert (Hat : forall x c, ps_mem s !! x = Some c -> ps_mem (set_mem (on_chain (h :: hs) f) s) !! x = Some (if decide (x ∈ h :: hs) then f x c else c)).
  { intros x c Hx. cbn [ps_mem set_mem]. rewrite on_chain_at, Hx. by case_decide. }
  assert (Hseg : forall x c, seg_of (f x c) = seg_of c) by done.
  assert (Hsegs : forall x, seg_of <$> ps_mem (set_mem (on_chain (h :: hs) f) s) !! x = seg_of <$> ps_mem s !! x).
  { intros x. cbn [ps_mem set_mem]. rewrite on_chain_at. destruct (ps_mem s !! x); [| done]. by case_decide. }
  pose proof (last_Some_elem_of _ _ Hlast) as Hlin.
  pose proof (chain_link (sp_next <$> ps_mem s) l t (Some h) (h :: hs) (t :: ts) (chain_last _ _ _ _ Hhs Hlast) Hts
    (fun Hx => Hd l Hlin Hx) Hhs) as Hc. rewrite decide_True in Hc by done.
  rewrite <- (on_chain_put (h :: hs) f _ l t Hlin (chain_last _ _ _ _ Hhs Hlast)) in Hc by done.
  exists (f h hb), (hs ++ t :: ts). split; [by rewrite (Hat _ _ Hhb), decide_True by left |]. split; [exact Hc |]. split.
  - intros x c Hx. cbn [ps_mem set_mem]. rewrite on_chain_at. change (h :: hs ++ t :: ts) with ((h :: hs) ++ t :: ts) in Hx.
    destruct (ps_mem s !! x) as [d |] eqn:Ex; [| done]. assert (Hdb : backed d) by (apply elem_of_app in Hx as [? | ?]; eauto).
    case_decide; cbn; by intros [= <-].
  - unfold Pbuf.pbuf_chain. cbn [pb_first pb_next pb_flags]. rewrite Hseg. f_equal.
    rewrite (segs_ext (ps_mem s) _ (hs ++ t :: ts)) by (intros x _; apply Hsegs). by rewrite segs_app, (segs_cons _ _ _ _ Htb).
Qed.

(** C11. The reference-counted chains implement the packet values: revealing and
    hiding headers, shrinking and concatenation in memory do to the bytes, the
    segments and the flags of the packet at [p] exactly what the operations of
    Pbuf.v, on which the models of the protocol layers are built, do to its value,
    and fail when they fail. *)
Theorem pbuf_refines_value r s ext p v op (Hrun : pbuf_run r s ext) (Hv : pbuf_at s p v) (Hlegal : val_legal ext s p op) :
  exists n s', val_exec p op s = Some (n, s')
  /\ match val_spec v op with Some v' => n = 0 /\ pbuf_at s' p v' | None => n = 1 /\ s' = s end.
Proof.
  destruct (run_ok _ _ _ Hrun) as [Hok Hl]. destruct op as [inc | n | t w]; cbn [val_legal legal val_exec val_spec] in *.
  - destruct Hlegal as (_ & _ & Hinc & Ht). by eapply header_val.
  - destruct Hlegal as (_ & Ha & Hn). destruct (realloc_val ext s p v n Hok Hl Hv Ha Hn) as (s' & E & Hat).
    rewrite (pm_bind _ _ _ _ _ E). by exists 0, s'.
  - destruct Hlegal as ((Hh & Ht & Hj) & Hw). destruct (cat_val ext s p t v w Hok Hl Hh Ht Hj Hv Hw) as (s' & E & Hat).
    rewrite (pm_bind _ _ _ _ _ E). by exists 0, s'.
Qed.

(** ** Examples *)

(** A datagram of 300 bytes in two buffers of the pool, and then released. *)
Definition ex_alloc : pbuf_op := Op_alloc PBUF_TRANSPORT 300 PBUF_POOL.
Definition ex_store : pstore := from_option snd (pstore_init ∅) (exec ex_alloc (pstore_init ∅)).
Definition ex_freed : pstore := from_option snd (pstore_init ∅) (exec (Op_free (PoolPtr 95)) ex_store).

Lemma ex_run : pbuf_run ∅ ex_store ({[+ PoolPtr 95 +]} ⊎ ∅).
Proof.
  apply (run_op ∅ (pstore_init ∅) ∅ ex_alloc (Some (PoolPtr 95))); [constructor | by split; [split | discriminate] |].
  vm_compute. reflexivity.
Qed.
Lemma ex_run_freed : pbuf_run ∅ ex_freed ∅.
Proof.
  replace ∅ with (after ({[+ PoolPtr 95 +]} ⊎ ∅) (Op_free (PoolPtr 95)) None) by (cbn; multiset_solver).
  apply (run_op ∅ ex_store _ _ None); [exact ex_run | cbn; multiset_solver |]. vm_compute. reflexivity.
Qed.

Lemma pbuf_memory_safe_witness : ps_mem ex_freed = ∅ /\ length (memp_tab (ps_pool ex_freed)) = PBUF_POOL_SIZE
  /\ length (memp_tab (ps_refs ex_freed)) = MEMP_NUM_PBUF /\ heap_rel (ps_heap ex_freed) [].
Proof. exact (proj2 (proj2 (proj2 (pbuf_memory_safe ∅ ex_freed ∅ ex_run_freed))) eq_refl). Defined.

Lemma pbuf_free_spec_witness : exists gone rest s', chain (sp_next <$> ps_mem ex_store) (Some (PoolPtr 95)) (gone ++ rest)
  /\ pbuf_free (Some (PoolPtr 95)) ex_store = Some (u8 (Z.of_nat (length gone)), s')
  /\ (forall x, x ∈ gone -> refs_of ex_store x = 1 /\ ps_mem s' !! x = None)
  /\ (forall q, head rest = Some q -> 1 < refs_of ex_store q /\ refs_of s' q = refs_of ex_store q - 1)
  /\ (forall x, x ∉ gone -> head rest <> Some x -> ps_mem s' !! x = ps_mem ex_store !! x).
Proof.
  apply (pbuf_free_spec ∅ ex_store _ (PoolPtr 95) ex_run). apply gmultiset_elem_of_disj_union. left.
  by apply gmultiset_elem_of_singleton.
Defined.

Lemma pbuf_types_kept_witness : exists b, ps_mem ex_store !! PoolPtr 94 = Some b /\ kind_ok (PoolPtr 94) b /\ sp_len b = 100.
Proof.
  assert (Hb : exists b, ps_mem ex_store !! PoolPtr 94 = Some b /\ sp_len b = 100) by (eexists; split; vm_compute; reflexivity).
  destruct Hb as (b & Hb & Hl). exists b. split; [exact Hb | split; [| exact Hl]].
  exact (proj1 (pbuf_types_kept ∅ ex_store _ (PoolPtr 94) b ex_run Hb)).
Defined.

(** A packet in the heap whose UDP header is revealed. *)
Definition ex_ram : pstore := from_option snd (pstore_init ∅) (exec (Op_alloc PBUF_TRANSPORT 10 PBUF_RAM) (pstore_init ∅)).
Definition ex_value : pbuf := mk_pbuf (mk_pseg PBUF_RAM (replicate 56 0) (replicate 10 0)) [] 0.

Lemma ex_run_ram : pbuf_run ∅ ex_ram ({[+ RamPtr 8 +]} ⊎ ∅).
Proof.
  apply (run_op ∅ (pstore_init ∅) ∅ (Op_alloc PBUF_TRANSPORT 10 PBUF_RAM) (Some (RamPtr 8))); [constructor | by split; [split |] |].
  vm_compute. reflexivity.
Qed.
Lemma ex_links : sp_next <$> ps_mem ex_ram = {[RamPtr 8 := None]}.
Proof. vm_compute. reflexivity. Qed.

Lemma pbuf_refines_value_witness : exists n s', val_exec (RamPtr 8) (Val_header 8) ex_ram = Some (n, s')
  /\ match val_spec ex_value (Val_header 8) with Some v' => n = 0 /\ pbuf_at s' (RamPtr 8) v' | None => n = 1 /\ s' = ex_ram end.
Proof.
  refine (pbuf_refines_value ∅ ex_ram _ (RamPtr 8) ex_value (Val_header 8) ex_run_ram _ _).
  - assert (Hb : exists b, ps_mem ex_ram !! RamPtr 8 = Some b /\ backed b /\ ex_value = mk_pbuf (seg_of b) [] (sp_flags b)).
    { eexists. split; [vm_compute; reflexivity |]. split; [split; vm_compute; discriminate | vm_compute; reflexivity]. }
    destruct Hb as (b & Hb & Hbk & Ev). exists b, []. rewrite ex_links. split; [done |]. split; [| split; [| done]].
    + cbn. split; [done |]. exists None. split; [apply lookup_singleton_eq | done].
    + intros x c ->%list_elem_of_singleton Hc. rewrite Hb in Hc. by injection Hc as <-.
  - split; [| split; [| split]].
    + apply gmultiset_elem_of_disj_union. left. by apply gmultiset_elem_of_singleton.
    + intros ps _ q x Hq. rewrite ex_links in Hq. by apply lookup_singleton_Some in Hq as [_ ?].
    + split; [discriminate | reflexivity].
    + vm_compute. reflexivity.
Defined.
