(* ===== verification/PbufRope.v ===== *)
(** * Pbufs in a row

    A driver holds a sequence of pbufs of which some are linked to the next one
    and the others end a chain.  Its references are to the first pbuf of each
    chain.  Relinking two neighbours moves a reference from the driver to a [next]
    pointer or back, and packets can be cut off the front. *)

From stdpp Require Import gmultiset.
From S2P Require Import Prelude Memp Pbuf Heap PbufRef.

(** ** Ropes *)

Definition nexts (s : pstore) : links := sp_next <$> ps_mem s.

(** Every pbuf points to its neighbour or nowhere. *)
Fixpoint rope (l : links) (ps : list pptr) : Prop :=
  match ps with
  | [] => True
  | p :: ps => (l !! p = Some None \/ exists t, head ps = Some t /\ l !! p = Some (Some t)) /\ rope l ps
  end.
(** The first pbufs of the chains; [start] tells whether the row starts one. *)
Fixpoint heads (l : links) (start : bool) (ps : list pptr) : gmultiset pptr :=
  match ps with
  | [] => ∅
  | p :: ps => (if start then {[+ p +]} else ∅) ⊎ heads l (bool_decide (l !! p = Some None)) ps
  end.

Lemma rope_ext l l' ps : (forall x, x ∈ ps -> l' !! x = l !! x) -> rope l ps -> rope l' ps.
Proof.
  induction ps as [| p ps IH]; [done |]. intros Hl [Hp Hr]. cbn. rewrite Hl by left. split; [done |].
  apply IH; [| done]. intros x Hx. apply Hl. by right.
Qed.
Lemma heads_ext l l' ps : (forall x, x ∈ ps -> l' !! x = l !! x) -> forall b, heads l' b ps = heads l b ps.
Proof.
  induction ps as [| p ps IH]; [done |]. intros Hl b. cbn. rewrite Hl by left. f_equal. apply IH. intros x Hx. apply Hl. by right.
Qed.
Lemma heads_elem l b ps p : p ∈ heads l b ps -> p ∈ ps.
Proof.
  revert b. induction ps as [| q ps IH]; intros b; cbn [heads]; [by intros ?%gmultiset_not_elem_of_empty |].
  rewrite gmultiset_elem_of_disj_union. intros [H | H]; [| right; by eapply IH].
  destruct b; [apply gmultiset_elem_of_singleton in H as ->; left | by apply gmultiset_not_elem_of_empty in H].
Qed.
Lemma rope_tail l ps qs : rope l (ps ++ qs) -> rope l qs.
Proof. induction ps as [| p ps IH]; [done |]. intros [_ H]. by apply IH. Qed.

(** The chain from a pbuf on stays in the row. *)
Lemma rope_chain l ps : forall p, rope l (p :: ps) -> exists ts, chain l (Some p) ts /\ (forall x, x ∈ ts -> x ∈ p :: ps).
Proof.
  induction ps as [| q ps IH]; intros p [[Hp | (t & Ht & Hp)] Hr]; try done.
  1,2: exists [p]; cbn; split; [eauto |]; intros x ->%list_elem_of_singleton; left.
  injection Ht as <-. destruct (IH q Hr) as (ts & Hc & Hin). exists (p :: ts). cbn. split; [eauto |].
  intros x [-> | Hx]%elem_of_cons; [left | right; auto].
Qed.

(** Unlinking neighbours gives the driver a reference. *)
Lemma heads_unlink l pre p t suf : NoDup (pre ++ p :: t :: suf) -> l !! p = Some (Some t) -> forall b,
  heads (<[p := None]> l) b (pre ++ p :: t :: suf) = {[+ t +]} ⊎ heads l b (pre ++ p :: t :: suf).
Proof.
  induction pre as [| x pre IH]; intros Hnd Hp b; cbn [app heads].
  - apply NoDup_cons in Hnd as [Hni _]. rewrite lookup_insert_eq, Hp.
    rewrite (bool_decide_true (Some None = Some None)), (bool_decide_false (Some (Some t) = Some None)) by done.
    assert (Hne : p <> t) by (intros ->; apply Hni; left). rewrite lookup_insert_ne by done.
    rewrite (heads_ext l) by (intros y Hy; apply lookup_insert_ne; intros <-; apply Hni; by right). multiset_solver.
  - cbn in Hnd. apply NoDup_cons in Hnd as [Hni Hnd].
    assert (Hne : p <> x) by (intros ->; apply Hni, elem_of_app; right; left). rewrite lookup_insert_ne, (IH Hnd Hp) by done.
    multiset_solver.
Qed.
Lemma rope_relink l pre p t suf o : NoDup (pre ++ p :: t :: suf) -> rope l (pre ++ p :: t :: suf) -> o = None \/ o = Some t ->
  rope (<[p := o]> l) (pre ++ p :: t :: suf).
Proof.
  intros Hnd Hr Ho. induction pre as [| x pre IH]; cbn [app] in *.
  - destruct Hr as [_ Hr]. apply NoDup_cons in Hnd as [Hni _]. split.
    + rewrite lookup_insert_eq. destruct Ho as [-> | ->]; [by left | right; by exists t].
    + apply (rope_ext l); [| done]. intros y Hy. apply lookup_insert_ne. by intros <-.
  - apply NoDup_cons in Hnd as [Hni Hnd]. destruct Hr as [Hx Hr]. split; [| by apply IH].
    rewrite lookup_insert_ne; [done |]. intros ->. apply Hni, elem_of_app. right. left.
Qed.

(** An assignment to [next] in the row, and to anything but the count. *)
Lemma relink_ok ext s pre p t suf b b' : let ps := pre ++ p :: t :: suf in
  NoDup ps -> rope (nexts s) ps -> store_at kind_ok (heads (nexts s) true ps ⊎ ext) s -> ps_mem s !! p = Some b ->
  sp_next b' = None \/ sp_next b' = Some t -> sp_ref b' = sp_ref b -> sp_type b' = sp_type b ->
  Zlen (sp_block b') <= Zlen (sp_block b) ->
  rope (nexts (put_pbuf p b' s)) ps /\ store_at kind_ok (heads (nexts (put_pbuf p b' s)) true ps ⊎ ext) (put_pbuf p b' s).
Proof.
  intros ps Hnd Hr Hs Hb En Er Et Hz. unfold nexts in *. cbn [put_pbuf set_mem ps_mem]. rewrite fmap_insert.
  split; [by apply rope_relink |].
  assert (Hk : kind_ok p b') by (pose proof (so_typed _ _ _ Hs p b Hb) as Hk; unfold kind_ok in *; by rewrite Et).
  assert (Hlb : (sp_next <$> ps_mem s) !! p = Some (sp_next b)) by (by rewrite lookup_fmap, Hb).
  assert (Hn : sp_next b = None \/ sp_next b = Some t).
  { apply rope_tail in Hr as [[Hp | (u & Hu & Hp)] _]; rewrite Hlb in Hp; [left | right]; cbn in *; congruence. }
  destruct (decide (sp_next b' = sp_next b)) as [E | Hne].
  { rewrite E, insert_id by done. by apply (put_ok (HT := kind_structs) _ _ _ b). }
  destruct Hn as [Hn | Hn], En as [En | En]; rewrite Hn, En in Hne; try done.
  - set (l := sp_next <$> ps_mem s) in *. rewrite Hn in Hlb.
    pose proof (heads_unlink (<[p := Some t]> l) pre p t suf Hnd (lookup_insert_eq _ _ _) true) as Eh.
    rewrite insert_insert_eq, (insert_id l p None Hlb) in Eh. fold ps in Eh. rewrite En.
    destruct (rope_chain l suf t) as (ts & Hts & Hin); [by apply rope_tail in Hr as [_ Hr] |].
    assert (Hpt : p ∉ ts).
    { intros Hp%Hin. apply NoDup_app in Hnd as (_ & _ & Hnd). by apply NoDup_cons in Hnd as [? _]. }
    destruct Hs as [Hrf (up & ur & L & Hp) Ht]. split.
    + cbn. rewrite (counts_modify _ _ b), fmap_insert, En by done. apply (refs_link _ _ _ _ _ ts); try done.
      rewrite Eh in Hrf. by rewrite (assoc_L (⊎)).
    + exists up, ur, L. by eapply pools_modify.
    + by apply map_Forall_insert_2.
  - rewrite En. rewrite (heads_unlink (sp_next <$> ps_mem s) pre p t suf Hnd) by (by rewrite Hlb, Hn).
    rewrite <- (assoc_L (⊎)). by apply (unlink_ok (HT := kind_structs) _ _ _ b _ t).
Qed.

(** ** Rows of chains *)

Lemma rope_app l ps qs : rope l ps -> rope l qs -> rope l (ps ++ qs).
Proof.
  induction ps as [| p ps IH]; [done |]. intros [Hp Hr] Hq. split; [| by apply IH].
  destruct Hp as [Hp | (t & Ht & Hp)]; [by left | right]. exists t. split; [| done]. by destruct ps.
Qed.
Lemma rope_heads_app l qs ps : forall p b, rope l (p :: ps) -> heads l b ((p :: ps) ++ qs) = heads l b (p :: ps) ⊎ heads l true qs.
Proof.
  induction ps as [| q ps IH]; intros p b [Hp Hr].
  - destruct Hp as [Hp | (t & Ht & _)]; [| done]. cbn. rewrite Hp, (bool_decide_true (Some None = Some None)) by done. multiset_solver.
  - specialize (IH q (bool_decide (l !! p = Some None)) Hr). cbn [app heads] in IH |- *. rewrite IH. multiset_solver.
Qed.
Lemma chain_rope l ps : forall p, chain l p ps -> rope l ps /\ forall b, heads l b ps = if b then opt_ms p else ∅.
Proof.
  induction ps as [| q ps IH]; intros p; cbn [chain].
  - intros ->. split; [done |]. by intros [].
  - intros (-> & n & Hn & Hc). destruct (IH n Hc) as [Hr Hh]. split.
    + split; [| done]. destruct ps as [| t ps]; [left; by rewrite Hn, Hc | right]. exists t. split; [done |]. destruct Hc as [-> _]. done.
    + intros b. cbn [heads]. rewrite Hh, Hn. destruct n as [t |].
      * rewrite (bool_decide_false (Some (Some t) = Some None)) by done. destruct b; cbn [opt_ms]; multiset_solver.
      * rewrite (bool_decide_true (Some None = Some None)) by done. destruct b; cbn [opt_ms]; multiset_solver.
Qed.

(** ** Nobody else *)

(** The pbufs [P] are out of reach of those who hold [ext]. *)
Definition apart (P : list pptr) (ext : gmultiset pptr) (l : links) : Prop :=
  (forall p, p ∈ P -> p ∉ ext) /\ forall k x, l !! k = Some (Some x) -> x ∈ P -> k ∈ P.

Lemma head_or_pred l ps : forall b x, rope l ps -> x ∈ ps ->
  x ∈ heads l b ps \/ (b = false /\ head ps = Some x) \/ exists k, k ∈ ps /\ l !! k = Some (Some x).
Proof.
  induction ps as [| p ps IH]; intros b x; [by intros _ ?%elem_of_nil |]. intros [Hp Hr] [-> | Hx]%elem_of_cons.
  - destruct b; [left | by right; left]. cbn [heads]. apply gmultiset_elem_of_disj_union. left. by apply gmultiset_elem_of_singleton.
  - destruct (IH (bool_decide (l !! p = Some None)) x Hr Hx) as [Hh | [[Hb Hh] | (k & Hk & Hl)]].
    + left. cbn [heads]. apply gmultiset_elem_of_disj_union. by right.
    + right. right. exists p. split; [left |]. apply bool_decide_eq_false in Hb. destruct Hp as [Hp | (t & Ht & Hp)]; [done |]. congruence.
    + right. right. exists k. split; [by right | done].
Qed.
Lemma succs_two l k k' x : k <> k' -> l !! k = Some (Some x) -> l !! k' = Some (Some x) -> (2 <= multiplicity x (succs l))%nat.
Proof.
  intros Hne Hk Hk'. rewrite (succs_delete l k _ Hk), (succs_delete (delete k l) k' (Some x)) by (by rewrite lookup_delete_ne).
  cbn [opt_ms]. rewrite !multiplicity_disj_union, mult_one, decide_True by done. lia.
Qed.
Lemma rope_apart T ext s ps : rope (nexts s) ps -> store_at T (heads (nexts s) true ps ⊎ ext) s ->
  (forall p, p ∈ ps -> exists b, ps_mem s !! p = Some b /\ sp_ref b = 1) -> apart ps ext (nexts s).
Proof.
  intros Hr Hs Hone.
  assert (Hm : forall p, p ∈ ps -> (multiplicity p (heads (nexts s) true ps) + multiplicity p ext + multiplicity p (succs (nexts s)) = 1)%nat).
  { intros p (b & Hb & Eb)%Hone. destruct (rf_count _ _ _ (so_refs _ _ _ Hs) p 1) as [Hc _]; [by rewrite lookup_fmap, Hb; cbn; rewrite Eb |].
    rewrite !multiplicity_disj_union in Hc. unfold nexts in *. lia. }
  assert (Hwho : forall p, p ∈ ps -> (1 <= multiplicity p (heads (nexts s) true ps))%nat \/ exists k, k ∈ ps /\ nexts s !! k = Some (Some p)).
  { intros p Hp. destruct (head_or_pred _ _ true p Hr Hp) as [Hh | [[? _] | Hk]]; [left | done | by right].
    rewrite elem_of_multiplicity in Hh. lia. }
  split.
  - intros p Hp Hin. specialize (Hm p Hp). rewrite elem_of_multiplicity in Hin. destruct (Hwho p Hp) as [Hh | (k & _ & Hk)]; [lia |].
    apply succs_elem in Hk. rewrite elem_of_multiplicity in Hk. lia.
  - intros k x Hk Hx. specialize (Hm x Hx). destruct (Hwho x Hx) as [Hh | (k' & Hk' & Hl)].
    + apply succs_elem in Hk. rewrite elem_of_multiplicity in Hk. lia.
    + destruct (decide (k = k')) as [-> | Hne]; [done |]. pose proof (succs_two _ _ _ _ Hne Hk Hl). lia.
Qed.

(** ** Changes of the bytes *)

Definition shape (b : spbuf) : spbuf * nat := (with_block [] b, length (sp_block b)).
Definition same_shape (m m' : gmap pptr spbuf) : Prop := shape <$> m' = shape <$> m.

Lemma shape_at m m' k b : same_shape m m' -> m !! k = Some b -> exists b', m' !! k = Some b' /\ shape b' = shape b.
Proof.
  intros Hsh Hk. assert (E : (shape <$> m') !! k = Some (shape b)) by (rewrite Hsh; by rewrite lookup_fmap, Hk).
  rewrite lookup_fmap in E. destruct (m' !! k) as [b' |]; [| done]. exists b'. split; [done |]. by apply (inj Some) in E.
Qed.
Lemma shape_fields b b' : shape b' = shape b -> sp_next b' = sp_next b /\ sp_payload b' = sp_payload b /\ sp_tot_len b' = sp_tot_len b
  /\ sp_len b' = sp_len b /\ sp_type b' = sp_type b /\ sp_flags b' = sp_flags b /\ sp_ref b' = sp_ref b /\ length (sp_block b') = length (sp_block b).
Proof. intros E. injection E. intros. by split_and!. Qed.
Lemma shape_fmap {A} (g : spbuf -> A) m m' : same_shape m m' -> (forall b b', shape b' = shape b -> g b' = g b) -> g <$> m' = g <$> m.
Proof.
  intros Hsh Hg. apply map_eq. intros k. rewrite !lookup_fmap. assert (E : (shape <$> m') !! k = (shape <$> m) !! k) by (by rewrite Hsh).
  rewrite !lookup_fmap in E. destruct (m' !! k), (m !! k); try done. cbn in *. f_equal. apply Hg. by apply (inj Some) in E.
Qed.
Lemma shape_nexts m m' : same_shape m m' -> sp_next <$> m' = sp_next <$> m.
Proof. intros H. apply shape_fmap; [done |]. by intros b b' (? & _)%shape_fields. Qed.
Lemma shape_lens m m' p : same_shape m m' -> sp_len <$> m' !! p = sp_len <$> m !! p.
Proof.
  intros Hsh. rewrite <- !lookup_fmap. f_equal. apply shape_fmap; [done |]. by intros b b' (_ & _ & _ & ? & _)%shape_fields.
Qed.
Lemma reshape_ok ext s m' : store_at kind_ok ext s -> same_shape (ps_mem s) m' -> store_at kind_ok ext (set_mem (fun _ => m') s).
Proof.
  intros [Hr (up & ur & L & Hp) Ht] Hsh. split.
  - cbn. rewrite (shape_nexts _ _ Hsh). rewrite (shape_fmap sp_ref _ _ Hsh); [done |]. intros b b' Hs. by apply shape_fields in Hs as (_ & _ & _ & _ & _ & _ & ? & _).
  - exists up, ur, L. apply pools_ext; [done | |].
    + intros k. pose proof (f_equal (.!! k) Hsh) as E. cbn in E. rewrite !lookup_fmap in E.
      destruct (m' !! k), (ps_mem s !! k); try done; split; eauto; by intros [].
    + intros k b b' Hb Hb'. destruct (shape_at _ _ _ _ Hsh Hb) as (c & Hc & Es). rewrite Hb' in Hc. injection Hc as <-.
      apply shape_fields in Es as (_ & _ & _ & _ & _ & _ & _ & El). unfold Zlen. rewrite El. done.
  - intros k b' Hb'. cbn in Hb'. assert (exists b, ps_mem s !! k = Some b) as [b Hb].
    { pose proof (f_equal (.!! k) Hsh) as E. cbn in E. rewrite !lookup_fmap, Hb' in E. destruct (ps_mem s !! k); [eauto | done]. }
    destruct (shape_at _ _ _ _ Hsh Hb) as (c & Hc & Es). rewrite Hb' in Hc. injection Hc as <-.
    specialize (Ht k b Hb). unfold kind_ok in *. apply shape_fields in Es as (_ & _ & _ & _ & -> & _). done.
Qed.

(** ** Chains of pool buffers *)

(** A buffer of the pool with one reference and room for the data it claims. *)
Definition buffer (b : spbuf) : Prop :=
  sp_type b = PBUF_POOL /\ sp_payload b = SIZEOF_STRUCT_PBUF /\ sp_ref b = 1
  /\ 0 < sp_len b <= PBUF_POOL_BUFSIZE_ALIGNED /\ Zlen (sp_block b) = PBUF_POOL_BUFSIZE_ALIGNED.
Definition buffers (m : gmap pptr spbuf) (ps : list pptr) : Prop := Forall (fun p => exists b, m !! p = Some b /\ buffer b) ps.
Definition room (m : gmap pptr spbuf) (ps : list pptr) : Z := foldr (fun p n => from_option sp_len 0 (m !! p) + n) 0 ps.
Definition spare (s : pstore) : nat := length (memp_tab (ps_pool s)).
(** Buffers for [len] bytes. *)
Definition needed (len : Z) : nat := Z.to_nat ((len + 255) / 256).

Lemma buffers_ext m m' ps : (forall p, p ∈ ps -> m' !! p = m !! p) -> buffers m ps -> buffers m' ps.
Proof. intros Hm Hb. apply Forall_forall. intros p Hp. rewrite Hm by done. by eapply Forall_forall in Hb. Qed.
Lemma room_ext m m' ps : (forall p, p ∈ ps -> sp_len <$> m' !! p = sp_len <$> m !! p) -> room m' ps = room m ps.
Proof.
  induction ps as [| p ps IH]; [done |]. intros Hm. unfold room in *. cbn [foldr]. rewrite IH by (intros q Hq; apply Hm; by right).
  specialize (Hm p (list_elem_of_here _ _)). destruct (m' !! p), (m !! p); cbn in *; congruence.
Qed.
Lemma room_cons m p b ps : m !! p = Some b -> room m (p :: ps) = sp_len b + room m ps.
Proof. intros Hb. unfold room. cbn [foldr]. by rewrite Hb. Qed.
Lemma room_app m ps qs : room m (ps ++ qs) = room m ps + room m qs.
Proof. induction ps as [| p ps IH]; [done |]. unfold room in *. cbn [foldr app]. rewrite IH. lia. Qed.
Lemma room_bounds m ps : buffers m ps -> Z.of_nat (length ps) <= room m ps <= 256 * Z.of_nat (length ps).
Proof.
  induction 1 as [| p ps (b & Hb & (_ & _ & _ & Hl & _)) _ IH]; unfold room in *; cbn [foldr length]; [lia |].
  rewrite Hb. cbn [from_option]. unfold PBUF_POOL_BUFSIZE_ALIGNED in Hl. lia.
Qed.
Lemma needed_step len : 0 < len -> needed len = S (needed (len - Z.min len 256)).
Proof. intros H. unfold needed. Z.div_mod_to_equations. lia. Qed.

Definition pool_buf (rem : Z) : spbuf :=
  mk_spbuf None SIZEOF_STRUCT_PBUF rem (Z.min rem PBUF_POOL_BUFSIZE_ALIGNED) PBUF_POOL 0 1 (zeros PBUF_POOL_BUFSIZE_ALIGNED).
Lemma pool_buf_ok rem : 0 < rem -> buffer (pool_buf rem) /\ forall e, kind_ok (PoolPtr e) (pool_buf rem).
Proof. intros H. unfold buffer, PBUF_POOL_BUFSIZE_ALIGNED. cbn. unfold PBUF_POOL_BUFSIZE_ALIGNED. split_and!; done || lia. Qed.

(** What an allocation adds to the memory [m]. *)
Record added (m m' : gmap pptr spbuf) (ns : list pptr) (len : Z) : Prop := {
  ad_new : forall x, x ∈ ns -> m !! x = None;
  ad_buf : buffers m' ns;
  ad_room : room m' ns = len;
  ad_length : length ns = needed len
}.

Lemma pool_tail_row p ext : forall fuel s ps r b rem,
  store_at kind_ok ({[+ p +]} ⊎ ext) s -> chain (nexts s) (Some p) (ps ++ [r]) -> ps_mem s !! r = Some b -> sp_next b = None ->
  0 <= rem < 65536 -> (needed rem <= spare s < fuel)%nat ->
  exists ns s', pool_tail fuel p r rem s = Some (Some p, s') /\ store_at kind_ok ({[+ p +]} ⊎ ext) s'
  /\ chain (nexts s') (Some p) (ps ++ r :: ns) /\ added (ps_mem s) (ps_mem s') ns rem
  /\ ps_mem s' !! r = Some (with_next (head ns) b) /\ (forall x, x ∉ r :: ns -> ps_mem s' !! x = ps_mem s !! x)
  /\ (spare s' + length ns = spare s)%nat.
Proof.
  induction fuel as [| fuel IH]; intros s ps r b rem Hok Hc Hr En Hrem Hf; [lia |]. cbn [pool_tail].
  destruct (Z.ltb_spec 0 rem) as [Hpos | Hz].
  - rewrite u16_small by (unfold is_u16; lia). fold (pool_buf rem). destruct (pool_buf_ok rem Hpos) as [Hpb Hk].
    pose proof (needed_step rem Hpos) as Hn. fold PBUF_POOL_BUFSIZE_ALIGNED in Hn.
    destruct (new_pool_ok _ s (pool_buf rem) Hok) as [[Ht _] | (q & s1 & E & Hq & Hm & Hok1 & Htab)]; try done.
    { unfold spare in Hf. rewrite Ht in Hf. cbn in Hf. lia. }
    rewrite (pm_bind _ _ _ _ _ E). assert (Hrq : r <> q) by (intros ->; congruence).
    assert (Hr1 : ps_mem s1 !! r = Some b) by (by rewrite Hm, lookup_insert_ne).
    assert (Hq1 : ps_mem s1 !! q = Some (pool_buf rem)) by (rewrite Hm; apply lookup_insert_eq).
    rewrite (pm_bind _ _ _ _ _ (modify_eq _ _ _ _ Hr1)). set (s2 := put_pbuf r (with_next (Some q) b) s1).
    assert (Hok2 : store_at kind_ok ({[+ p +]} ⊎ ext) s2) by by eapply link_ok.
    assert (Hni : q ∉ ps ++ [r]).
    { intros Hin. destruct (chain_dom _ _ _ _ Hc Hin) as [n Hx]. unfold nexts in Hx. by rewrite lookup_fmap, Hq in Hx. }
    assert (Hq2 : ps_mem s2 !! q = Some (pool_buf rem)) by (unfold s2; by rewrite put_ne).
    assert (Hc2 : chain (nexts s2) (Some p) ((ps ++ [r]) ++ [q])).
    { pose proof (chain_link (<[q := None]> (nexts s)) r q (Some p) (ps ++ [r]) [q]) as Hl.
      rewrite decide_True in Hl by (apply elem_of_app; right; left).
      assert (Es : nexts s2 = <[r := Some q]> (<[q := None]> (nexts s))) by (unfold nexts, s2; cbn; by rewrite Hm, !fmap_insert).
      rewrite Es. apply Hl.
      - unfold nexts. by rewrite lookup_insert_ne, lookup_fmap, Hr; cbn; rewrite ?En.
      - cbn. rewrite lookup_insert_eq. eauto.
      - by intros ->%list_elem_of_singleton.
      - apply (links_ext (nexts s)); [| done]. intros x Hx. apply lookup_insert_ne. by intros ->. }
    destruct (IH s2 (ps ++ [r]) q (pool_buf rem) (rem - Z.min rem PBUF_POOL_BUFSIZE_ALIGNED) Hok2 Hc2 Hq2) as
      (ns & s' & E' & Hok' & Hc' & [Hnew Hbuf Hroom Hlen] & Hqn & Hsame & Htab'); [done | unfold PBUF_POOL_BUFSIZE_ALIGNED; lia | |].
    { change (spare s2) with (spare s1). unfold spare in *. rewrite Htab in Hf. rewrite Hn in Hf. lia. }
    assert (Hrn : r ∉ ns) by (intros Hin; apply Hnew in Hin; unfold s2 in Hin; by rewrite put_eq in Hin).
    assert (Hqns : q ∉ ns) by (intros Hin; apply Hnew in Hin; congruence).
    exists (q :: ns), s'. split; [exact E' |]. split; [done |]. split; [by rewrite <- app_assoc in Hc' |]. split; [split |].
    + intros x [-> | Hx]%elem_of_cons; [done |]. apply Hnew in Hx. unfold s2 in Hx. destruct (decide (x = r)) as [-> | Hne].
      * by rewrite put_eq in Hx.
      * rewrite put_ne, Hm in Hx by done. apply lookup_insert_None in Hx as [? _]. done.
    + constructor; [| done]. exists (with_next (head ns) (pool_buf rem)). by split.
    + unfold room in *. cbn [foldr]. rewrite Hqn, Hroom. cbn. lia.
    + cbn [length]. by rewrite Hlen, Hn.
    + split; [rewrite Hsame; [by unfold s2; rewrite put_eq | by apply not_elem_of_cons] |]. split.
      * intros x [Hxr [Hxq Hxn]%not_elem_of_cons]%not_elem_of_cons. rewrite Hsame by by apply not_elem_of_cons. unfold s2.
        rewrite put_ne, Hm by done. by apply lookup_insert_ne.
      * cbn [length]. change (spare s2) with (spare s1) in Htab'. unfold spare in *. lia.
  - assert (rem = 0) as -> by lia. exists [], s. split; [done |]. split; [done |]. split; [done |].
    split; [by split; [intros x ?%elem_of_nil | constructor | |] |]. split; [by rewrite Hr; destruct b; cbn in *; subst |]. split; [done | cbn; lia].
Qed.

(** [pbuf_alloc] of a row from the pool with enough buffers. *)
Lemma alloc_row ext s len : store_at kind_ok ext s -> 0 < len < 65536 -> (needed len <= spare s)%nat ->
  exists ns s', pbuf_alloc PBUF_RAW len PBUF_POOL s = Some (head ns, s') /\ store_at kind_ok (opt_ms (head ns) ⊎ ext) s'
  /\ chain (nexts s') (head ns) ns /\ added (ps_mem s) (ps_mem s') ns len
  /\ (forall x, x ∉ ns -> ps_mem s' !! x = ps_mem s !! x) /\ (spare s' + length ns = spare s)%nat.
Proof.
  intros Hok Hlen Hn. unfold pbuf_alloc. change (LWIP_MEM_ALIGN_SIZE (SIZEOF_STRUCT_PBUF + layer_offset PBUF_RAW)) with SIZEOF_STRUCT_PBUF.
  change (PBUF_POOL_BUFSIZE_ALIGNED - LWIP_MEM_ALIGN_SIZE (layer_offset PBUF_RAW)) with PBUF_POOL_BUFSIZE_ALIGNED. cbv zeta.
  fold (pool_buf len). destruct (pool_buf_ok len) as [Hpb Hk]; [lia |].
  pose proof (needed_step len ltac:(lia)) as Hns. fold PBUF_POOL_BUFSIZE_ALIGNED in Hns.
  destruct (new_pool_ok ext s (pool_buf len) Hok) as [[Ht _] | (p & s1 & E & Hp & Hm & Hok1 & Htab)]; try done.
  { unfold spare in Hn. rewrite Ht in Hn. cbn in Hn. lia. }
  rewrite (pm_bind _ _ _ _ _ E). assert (Hp1 : ps_mem s1 !! p = Some (pool_buf len)) by (rewrite Hm; apply lookup_insert_eq).
  pose proof (tab_bound _ _ Hok) as Hb. unfold PBUF_POOL_SIZE in Hb.
  destruct (pool_tail_row p ext tail_fuel s1 [] p (pool_buf len) (len - Z.min len PBUF_POOL_BUFSIZE_ALIGNED)) as
    (ns & s' & E' & Hok' & Hc' & [Hnew Hbuf Hroom Hl] & Hpn & Hsame & Htab'); try done.
  - cbn. split; [done |]. exists None. unfold nexts. by rewrite lookup_fmap, Hp1.
  - unfold PBUF_POOL_BUFSIZE_ALIGNED. lia.
  - unfold spare, tail_fuel in *. lia.
  - assert (Hpns : p ∉ ns) by (intros Hin; apply Hnew in Hin; congruence).
    exists (p :: ns), s'. split; [exact E' |]. split; [done |]. split; [done |]. split; [split |].
    + intros x [-> | Hx]%elem_of_cons; [done |]. apply Hnew in Hx. rewrite Hm in Hx. by apply lookup_insert_None in Hx as [? _].
    + constructor; [| done]. exists (with_next (head ns) (pool_buf len)). by split.
    + unfold room in *. cbn [foldr]. rewrite Hpn, Hroom. cbn. lia.
    + cbn [length]. by rewrite Hl, Hns.
    + split.
      * intros x [Hxp Hxn]%not_elem_of_cons. rewrite Hsame by by apply not_elem_of_cons. rewrite Hm. by apply lookup_insert_ne.
      * cbn [length]. unfold spare in *. lia.
Qed.
