(* ===== verification/Chksum.v ===== *)
(** * The Internet checksum (core/ipv4/inet_chksum.c)

    [LWIP_CHKSUM_ALGORITHM] is 2.  The target is big-endian, so the byte at
    offset 0 of a [u16_t] is its high byte.  [odd] is the parity of the address
    of the data; [chksum_alignment] shows that it has no influence, so the
    functions over pbufs use even addresses. *)

From S2P Require Import Prelude IpAddr Pbuf.

Definition FOLD_U32T (u : Z) : Z := u32 (Z.shiftr u 16 + Z.land u 0xffff).
Definition SWAP_BYTES_IN_WORD (w : Z) : Z :=
  Z.lor (Z.shiftl (Z.land w 0xff) 8) (Z.shiftr (Z.land w 0xff00) 8).

(** [while (len > 1)]: the words from [ps] on; the bytes left over. *)
Fixpoint chksum_bulk (data : list Z) (sum : Z) : Z * list Z :=
  match data with
  | a :: b :: rest => chksum_bulk rest (u32 (sum + (a * 256 + b)))
  | _ => (sum, data)
  end.

Definition lwip_standard_chksum (odd : bool) (data : list Z) : Z :=
  (* get aligned: the first byte goes to the low byte of t *)
  let '(t, data) :=
    match odd, data with
    | true, x :: rest => (x, rest)
    | _, _ => (0, data)
    end in
  let '(sum, rest) := chksum_bulk data 0 in
  (* left-over byte: the high byte of t *)
  let t := match rest with [] => t | x :: _ => x * 256 + t end in
  let sum := u32 (sum + t) in
  let sum := FOLD_U32T (FOLD_U32T sum) in
  let sum := if odd then SWAP_BYTES_IN_WORD sum else sum in
  u16 sum.

Definition LWIP_CHKSUM (data : list Z) : Z := lwip_standard_chksum false data.

(** [inet_chksum]. *)
Definition inet_chksum (data : list Z) : Z := u16 (- 1 - LWIP_CHKSUM data).

(** The loop over the chain shared by the two pbuf checksums: [(acc, swapped)]. *)
Fixpoint chksum_chain (segs : list (list Z)) (acc : Z) (swapped : bool) : Z * bool :=
  match segs with
  | [] => (acc, swapped)
  | d :: segs' =>
      let acc := u32 (acc + LWIP_CHKSUM d) in
      let acc := FOLD_U32T acc in
      if negb (Zlen d mod 2 =? 0)
      then chksum_chain segs' (SWAP_BYTES_IN_WORD acc) (negb swapped)
      else chksum_chain segs' acc swapped
  end.

Definition pbuf_segs (p : pbuf) : list (list Z) := map ps_data (pb_first p :: pb_next p).

Definition inet_chksum_pseudo (p : pbuf) (src dest proto proto_len : Z) : Z :=
  let '(acc, swapped) := chksum_chain (pbuf_segs p) 0 false in
  let acc := if swapped then SWAP_BYTES_IN_WORD acc else acc in
  let acc := u32 (acc + Z.land src 0xffff) in
  let acc := u32 (acc + Z.land (Z.shiftr src 16) 0xffff) in
  let acc := u32 (acc + Z.land dest 0xffff) in
  let acc := u32 (acc + Z.land (Z.shiftr dest 16) 0xffff) in
  let acc := u32 (acc + htons (u16 proto)) in
  let acc := u32 (acc + htons proto_len) in
  let acc := FOLD_U32T (FOLD_U32T acc) in
  u16 (65535 - Z.land acc 0xffff).

Definition inet_chksum_pbuf (p : pbuf) : Z :=
  let '(acc, swapped) := chksum_chain (pbuf_segs p) 0 false in
  let acc := if swapped then SWAP_BYTES_IN_WORD acc else acc in
  u16 (65535 - Z.land acc 0xffff).

(** ** Reference: the sum of the 16-bit words, a missing last byte as 0 *)

Fixpoint word_sum (data : list Z) : Z :=
  match data with
  | a :: b :: rest => a * 256 + b + word_sum rest
  | [a] => a * 256
  | [] => 0
  end.

(** Congruence modulo [2^16 - 1], the arithmetic of the checksum. *)
Definition ceq (a b : Z) : Prop := exists k, a = b + k * 65535.

Lemma ceq_step a b k : a = b + k * 65535 -> ceq a b.
Proof. by exists k. Qed.

Lemma ceq_refl_eq a b : a = b -> ceq a b.
Proof. exists 0. lia. Qed.

#[export] Instance ceq_equiv : Equivalence ceq.
Proof.
  split.
  - intros a. exists 0. lia.
  - intros a b [k ->]. exists (- k). lia.
  - intros a b c [k ->] [j ->]. exists (k + j). lia.
Qed.
#[export] Instance ceq_add : Proper (ceq ==> ceq ==> ceq) Z.add.
Proof. intros a b [k ->] c d [j ->]. exists (k + j). lia. Qed.
#[export] Instance ceq_mul : Proper (ceq ==> ceq ==> ceq) Z.mul.
Proof. intros a b [k ->] c d [j ->]. exists (k * d + b * j + k * j * 65535). lia. Qed.

(** Two words of [1..65535] (or both 0) with the same residue are equal. *)
Lemma ceq_eq a b :
  0 <= a <= 65535 -> 0 <= b <= 65535 -> (a = 0 <-> b = 0) -> ceq a b -> a = b.
Proof. intros Ha Hb H0 [k ->]. lia. Qed.

Lemma land_ffff x : Z.land x 0xffff = x mod 65536.
Proof. change 0xffff with (Z.ones 16). by rewrite Z.land_ones. Qed.

Lemma fold_spec x :
  is_u32 x -> FOLD_U32T x = x / 65536 + x mod 65536.
Proof.
  intros Hx. unfold FOLD_U32T. rewrite Z.shiftr_div_pow2, land_ffff by lia.
  change (2 ^ 16) with 65536. apply u32_small. word.
Qed.

Lemma fold_ceq x : is_u32 x -> ceq (FOLD_U32T x) x.
Proof.
  intros Hx. rewrite fold_spec by done. symmetry. apply (ceq_step _ _ (x / 65536)).
  Z.div_mod_to_equations. lia.
Qed.

(** Two folds bring any 32-bit sum to 16 bits and only 0 to 0. *)
Lemma fold2_spec x : is_u32 x ->
  let y := FOLD_U32T (FOLD_U32T x) in
  0 <= y <= 65535 /\ ceq y x /\ (y = 0 <-> x = 0).
Proof.
  intros Hx. cbn. assert (H1 : is_u32 (FOLD_U32T x)) by (rewrite fold_spec by done; word).
  split; [| split].
  - rewrite !fold_spec by (done || by rewrite <- fold_spec). word.
  - rewrite fold_ceq by done. by apply fold_ceq.
  - rewrite !fold_spec by (done || by rewrite <- fold_spec). word.
Qed.

(** One fold is enough for the sum of two 16-bit values. *)
Lemma fold1_spec x : 0 <= x <= 131070 ->
  let y := FOLD_U32T x in 0 <= y <= 65535 /\ ceq y x.
Proof.
  intros Hx. cbn. split; [rewrite fold_spec by word; word | apply fold_ceq; word].
Qed.

Lemma swap_spec w : 0 <= w <= 65535 ->
  SWAP_BYTES_IN_WORD w = w mod 256 * 256 + w / 256.
Proof.
  intros Hw. unfold SWAP_BYTES_IN_WORD.
  change 0xff with (Z.ones 8). rewrite Z.land_ones by lia. change (2 ^ 8) with 256.
  assert (E : Z.shiftr (Z.land w 0xff00) 8 = w / 256).
  { rewrite Z.shiftr_land. change (Z.shiftr 0xff00 8) with (Z.ones 8).
    rewrite Z.land_ones, Z.shiftr_div_pow2 by lia. change (2 ^ 8) with 256.
    apply Z.mod_small. Z.div_mod_to_equations. lia. }
  rewrite E, Z.lor_comm, lor_shiftl_add by (Z.div_mod_to_equations; lia).
  change (2 ^ 8) with 256. lia.
Qed.

Lemma swap_ceq w : 0 <= w <= 65535 ->
  let s := SWAP_BYTES_IN_WORD w in
  0 <= s <= 65535 /\ ceq s (256 * w) /\ (s = 0 <-> w = 0).
Proof.
  intros Hw. cbn. rewrite swap_spec by done. split; [| split].
  - Z.div_mod_to_equations; lia.
  - symmetry. apply (ceq_step _ _ (w / 256)). Z.div_mod_to_equations. lia.
  - Z.div_mod_to_equations; lia.
Qed.

(** ** The sum of a byte string *)

(** Induction two bytes at a time. *)
Lemma list_ind2 {A} (P : list A -> Prop) :
  P [] -> (forall a, P [a]) -> (forall a b l, P l -> P (a :: b :: l)) -> forall l, P l.
Proof.
  intros H0 H1 H2. fix IH 1. intros [| a [| b l]]; [done | done |]. apply H2, IH.
Qed.

Lemma word_sum_range l :
  Forall is_u8 l -> 0 <= word_sum l <= 65535 * ((Zlen l + 1) / 2).
Proof.
  induction l as [| a | a b l IH] using list_ind2; intros Hl.
  - change ((Zlen [] + 1) / 2) with 0. cbn [word_sum]. lia.
  - apply Forall_inv in Hl. change ((Zlen [a] + 1) / 2) with 1. cbn [word_sum]. unfold is_u8 in Hl. lia.
  - apply Forall_cons in Hl as [Ha [Hb Hl]%Forall_cons]. specialize (IH Hl).
    rewrite !Zlen_cons. cbn [word_sum]. unfold is_u8 in *.
    replace ((1 + (1 + Zlen l) + 1) / 2) with (1 + (Zlen l + 1) / 2)
      by (Z.div_mod_to_equations; lia). lia.
Qed.

Lemma word_sum_nonneg l : Forall is_u8 l -> 0 <= word_sum l.
Proof. intros H%word_sum_range. lia. Qed.

(** A prefix of odd length shifts the rest by a byte. *)
Lemma word_sum_cons x l :
  is_u8 x -> Forall is_u8 l -> ceq (word_sum (x :: l)) (256 * (x + word_sum l)).
Proof.
  intros Hx. revert x Hx. induction l as [| a | a b l IH] using list_ind2; intros x Hx Hl.
  - cbn. apply ceq_refl_eq. lia.
  - cbn. apply (ceq_step _ _ (- a)). lia.
  - apply Forall_cons in Hl as [Ha [Hb Hl]%Forall_cons].
    change (word_sum (x :: a :: b :: l)) with (x * 256 + a + word_sum (b :: l)).
    rewrite (IH b Hb Hl). cbn [word_sum]. apply (ceq_step _ _ (- a)). lia.
Qed.

Lemma word_sum_app l k :
  Forall is_u8 l -> Forall is_u8 k ->
  ceq (word_sum (l ++ k)) (word_sum l + (if Zlen l mod 2 =? 0 then 1 else 256) * word_sum k).
Proof.
  intros Hl Hk. revert Hl. induction l as [| a | a b l IH] using list_ind2; intros Hl.
  - change (Zlen [] mod 2 =? 0) with true. cbn. apply ceq_refl_eq. lia.
  - apply Forall_inv in Hl. change (Zlen [a] mod 2 =? 0) with false. cbn [app].
    rewrite word_sum_cons by done. cbn [word_sum]. apply ceq_refl_eq. lia.
  - apply Forall_cons in Hl as [Ha [Hb Hl]%Forall_cons].
    cbn [app word_sum]. rewrite !Zlen_cons.
    replace ((1 + (1 + Zlen l)) mod 2) with (Zlen l mod 2) by (Z.div_mod_to_equations; lia).
    rewrite (IH Hl). apply ceq_refl_eq. lia.
Qed.

Lemma chksum_bulk_spec l s :
  Forall is_u8 l -> 0 <= s -> s + word_sum l < 4294967296 ->
  exists s' r, chksum_bulk l s = (s', r) /\ s' + word_sum r = s + word_sum l /\ 0 <= s'
    /\ ((r = [] /\ Zlen l mod 2 = 0) \/ (exists x, r = [x] /\ is_u8 x /\ Zlen l mod 2 = 1)).
Proof.
  revert s; induction l as [| a | a b l IH] using list_ind2; intros s Hl Hs Hw.
  - exists s, []. split_and!; auto.
  - exists s, [a]. split_and!; auto. right. exists a. by apply Forall_inv in Hl.
  - apply Forall_cons in Hl as [Ha [Hb Hl]%Forall_cons].
    pose proof (word_sum_nonneg l Hl). cbn [chksum_bulk word_sum] in *.
    rewrite u32_small by (unfold is_u32, is_u8 in *; lia).
    destruct (IH (s + (a * 256 + b))) as (s' & r & E & H1 & H2 & H3); [done | unfold is_u8 in *; lia | lia |].
    exists s', r. rewrite E. split_and!; [done | lia | done |].
    rewrite !Zlen_cons.
    replace ((1 + (1 + Zlen l)) mod 2) with (Zlen l mod 2) by (Z.div_mod_to_equations; lia). done.
Qed.

Lemma word_sum_small l :
  Forall is_u8 l -> Zlen l <= 131072 -> 0 <= word_sum l <= 4294901760.
Proof.
  intros Hl Hlen. pose proof (word_sum_range l Hl).
  assert ((Zlen l + 1) / 2 <= 65536) by (Z.div_mod_to_equations; lia). lia.
Qed.

(** The end of the sum: the words, the left-over byte and [t]. *)
Lemma chksum_body l t :
  Forall is_u8 l -> Zlen l <= 131072 -> is_u8 t ->
  exists s r, chksum_bulk l 0 = (s, r) /\
    u32 (s + match r with [] => t | x :: _ => x * 256 + t end) = word_sum l + t.
Proof.
  intros Hl Hlen Ht. pose proof (word_sum_small l Hl Hlen).
  destruct (chksum_bulk_spec l 0) as (s & r & E & H1 & H2 & H3); [done | lia | lia |].
  exists s, r. split; [done |]. unfold is_u8 in *.
  destruct H3 as [[-> _] | (x & -> & Hx & _)]; cbn in H1 |- *; rewrite u32_small by word; lia.
Qed.

Lemma chksum_spec odd l :
  Forall is_u8 l -> Zlen l <= 131072 ->
  let c := lwip_standard_chksum odd l in
  0 <= c <= 65535 /\ ceq c (word_sum l) /\ (c = 0 <-> word_sum l = 0).
Proof.
  intros Hl Hlen. cbn zeta. unfold lwip_standard_chksum.
  assert (Hgen : forall t k, Forall is_u8 k -> Zlen k <= 131072 -> is_u8 t ->
     exists s r, chksum_bulk k 0 = (s, r) /\
     let y := FOLD_U32T (FOLD_U32T (u32 (s + match r with [] => t | x :: _ => x * 256 + t end))) in
     0 <= y <= 65535 /\ ceq y (word_sum k + t) /\ (y = 0 <-> word_sum k + t = 0)).
  { intros t k Hk Hklen Ht. destruct (chksum_body k t) as (s & r & E & Eu); [done.. |].
    exists s, r. split; [done |]. rewrite Eu. apply fold2_spec.
    pose proof (word_sum_small k Hk Hklen). unfold is_u8, is_u32 in *. lia. }
  destruct odd.
  - destruct l as [| x k].
    + destruct (Hgen 0 []) as (s & r & -> & Hr & Hc & Hz); [done | done | split; done |].
      destruct (swap_ceq _ Hr) as (Hr' & Hc' & Hz').
      rewrite u16_small by (unfold is_u16; lia). split; [done | split].
      * rewrite Hc', Hc. apply ceq_refl_eq. cbn. lia.
      * cbn [word_sum] in *. lia.
    + apply Forall_cons in Hl as [Hx Hk]. rewrite Zlen_cons in Hlen.
      destruct (Hgen x k) as (s & r & -> & Hr & Hc & Hz); [done | lia | done |].
      destruct (swap_ceq _ Hr) as (Hr' & Hc' & Hz').
      rewrite u16_small by (unfold is_u16; lia). split; [done | split].
      * rewrite Hc', Hc, word_sum_cons by done. apply ceq_refl_eq. lia.
      * rewrite Hz', Hz. pose proof (word_sum_nonneg k Hk). unfold is_u8 in Hx.
        assert (Hnn : forall x k, 0 <= x -> Forall is_u8 k -> word_sum (x :: k) = 0 <-> word_sum k + x = 0).
        { clear. intros x k Hx Hk. revert x Hx.
          induction k as [| a | a b k IH] using list_ind2; intros x Hx.
          - cbn. lia.
          - apply Forall_inv in Hk. unfold is_u8 in Hk. cbn. lia.
          - apply Forall_cons in Hk as [Ha [Hb Hk]%Forall_cons].
            specialize (IH Hk b). unfold is_u8 in *. specialize (IH ltac:(lia)).
            change (word_sum (x :: a :: b :: k)) with (x * 256 + a + word_sum (b :: k)).
            change (word_sum (a :: b :: k)) with (a * 256 + b + word_sum k).
            pose proof (word_sum_nonneg k Hk).
            pose proof (word_sum_nonneg (b :: k) ltac:(by apply Forall_cons)). lia. }
        rewrite Hnn by (done || lia). done.
  - destruct (Hgen 0 l) as (s & r & -> & Hr & Hc & Hz); [done | done | split; done |].
    rewrite u16_small by (unfold is_u16; lia). split; [done | split].
    + rewrite Hc. apply ceq_refl_eq. lia.
    + lia.
Qed.

(** ** Chains and the pseudo header *)

Lemma chksum_chain_spec segs pre acc swapped :
  Forall (fun d => Forall is_u8 d /\ Zlen d <= 131072) segs -> Forall is_u8 pre ->
  swapped = negb (Zlen pre mod 2 =? 0) ->
  0 <= acc <= 65535 -> ceq acc ((if swapped then 256 else 1) * word_sum pre) ->
  exists acc' sw', chksum_chain segs acc swapped = (acc', sw') /\ 0 <= acc' <= 65535
    /\ sw' = negb (Zlen (pre ++ mjoin segs) mod 2 =? 0)
    /\ ceq acc' ((if sw' then 256 else 1) * word_sum (pre ++ mjoin segs)).
Proof.
  revert pre acc swapped. induction segs as [| d segs IH]; intros pre acc sw Hs Hp Esw Hr Hc.
  - exists acc, sw. cbn. rewrite app_nil_r. done.
  - apply Forall_cons in Hs as [[Hd Hlen] Hs]. cbn [chksum_chain].
    destruct (chksum_spec false d Hd Hlen) as (Hcr & Hcc & _). fold (LWIP_CHKSUM d) in *.
    rewrite u32_small by (unfold is_u32; lia).
    destruct (fold1_spec (acc + LWIP_CHKSUM d)) as [Hfr Hfc]; [lia |].
    set (f := FOLD_U32T _) in *.
    change (mjoin (d :: segs)) with (d ++ mjoin segs). rewrite app_assoc.
    assert (Hpd : Forall is_u8 (pre ++ d)) by (by apply Forall_app).
    (* the folded sum is the sum of the bytes so far, in the byte order of the prefix *)
    assert (Hf : ceq f ((if sw then 256 else 1) * word_sum (pre ++ d))).
    { rewrite Hfc, Hc, Hcc, word_sum_app by done.
      destruct (Zlen pre mod 2 =? 0); subst sw; cbn [negb];
        [apply (ceq_step _ _ 0) | apply (ceq_step _ _ (- word_sum d))]; lia. }
    assert (Hpar : forall x y : Z, (x + y) mod 2 = (x mod 2 + y mod 2) mod 2)
      by (intros; apply Z.add_mod; lia).
    assert (H2 : forall x : Z, x mod 2 = 0 \/ x mod 2 = 1) by (intros; word).
    destruct (negb (Zlen d mod 2 =? 0)) eqn:Ed.
    + destruct (swap_ceq f Hfr) as (Hsr & Hsc & _).
      destruct (IH (pre ++ d) (SWAP_BYTES_IN_WORD f) (negb sw)) as (a' & s' & E & H);
        [done | done | | exact Hsr | | by exists a', s'].
      * rewrite Zlen_app, Hpar. apply negb_true_iff in Ed. apply Z.eqb_neq in Ed. rewrite Esw.
        destruct (H2 (Zlen pre)) as [E1 | E1], (H2 (Zlen d)) as [E2 | E2];
          rewrite E1, E2 in *; done.
      * rewrite Hsc, Hf. destruct sw; cbn [negb];
          [apply (ceq_step _ _ (word_sum (pre ++ d))) | apply (ceq_step _ _ 0)]; lia.
    + destruct (IH (pre ++ d) f sw) as (a' & s' & E & H);
        [done | done | | exact Hfr | exact Hf | by exists a', s'].
      rewrite Zlen_app, Hpar. apply negb_false_iff in Ed. apply Z.eqb_eq in Ed. rewrite Esw, Ed.
      destruct (H2 (Zlen pre)) as [-> | ->]; done.
Qed.

(** The bytes of a packet are bytes, and no longer than a packet can be. *)
Definition pbuf_ok (p : pbuf) : Prop :=
  Forall is_u8 (p_bytes p) /\ p_tot_len p <= 131072.

Lemma pbuf_ok_segs p : pbuf_ok p ->
  Forall (fun d => Forall is_u8 d /\ Zlen d <= 131072) (pbuf_segs p)
  /\ mjoin (pbuf_segs p) = p_bytes p.
Proof.
  intros [H8 Hlen]. split; [| done]. unfold pbuf_segs. cbn [map].
  change (ps_data (pb_first p)) with (p_payload p).
  unfold p_tot_len, p_bytes in *. rewrite Zlen_app in Hlen. apply Forall_app in H8 as [H1 H2].
  pose proof (Zlen_nonneg (p_payload p)).
  apply Forall_cons. split.
  - split; [done |]. pose proof (Zlen_nonneg (mjoin (map ps_data (pb_next p)))). lia.
  - assert (Hl : Zlen (mjoin (map ps_data (pb_next p))) <= 131072) by lia.
    clear Hlen H H1. induction (map ps_data (pb_next p)) as [| d segs IH]; [done |].
    change (mjoin (d :: segs)) with (d ++ mjoin segs) in *.
    rewrite Zlen_app in Hl. apply Forall_app in H2 as [H1 H2].
    pose proof (Zlen_nonneg d). pose proof (Zlen_nonneg (mjoin segs)).
    apply List.Forall_cons; [split; [done | lia] |]. apply IH; [done | lia].
Qed.

(** The sum over a packet, unswapped. *)
Lemma chksum_pbuf_acc p : pbuf_ok p ->
  exists acc sw, chksum_chain (pbuf_segs p) 0 false = (acc, sw) /\
  let a := if sw then SWAP_BYTES_IN_WORD acc else acc in
  0 <= a <= 65535 /\ ceq a (word_sum (p_bytes p)).
Proof.
  intros Hp. destruct (pbuf_ok_segs p Hp) as [Hs Hj].
  destruct (chksum_chain_spec (pbuf_segs p) [] 0 false) as (acc & sw & E & Hr & Esw & Hc);
    [done | done | done | lia | apply ceq_refl_eq; cbn; lia |].
  cbn [app] in *. rewrite Hj in *. exists acc, sw. split; [done |]. cbn zeta.
  destruct sw.
  - destruct (swap_ceq acc Hr) as (Hr' & Hc' & _). split; [done |]. rewrite Hc', Hc.
    apply (ceq_step _ _ (word_sum (p_bytes p))). lia.
  - split; [done |]. rewrite Hc. apply ceq_refl_eq. lia.
Qed.

(** The sum the pseudo-header checksum is the complement of. *)
Definition pseudo_sum (data : list Z) (src dest proto len : Z) : Z :=
  word_sum data + (src mod 65536 + src / 65536) + (dest mod 65536 + dest / 65536) + proto + len.

Lemma pseudo_spec p src dest proto len :
  pbuf_ok p -> is_u32 src -> is_u32 dest -> 0 < proto < 256 -> is_u16 len ->
  exists y, inet_chksum_pseudo p src dest proto len = 65535 - y /\ 0 < y <= 65535
    /\ ceq y (pseudo_sum (p_bytes p) src dest proto len).
Proof.
  intros Hp Hsrc Hdest Hproto Hlen. unfold inet_chksum_pseudo.
  destruct (chksum_pbuf_acc p Hp) as (acc & sw & -> & Hr & Hc). cbn zeta in *.
  set (a := if sw then _ else _) in *. clearbody a.
  unfold htons. rewrite !land_ffff, !Z.shiftr_div_pow2 by lia. change (2 ^ 16) with 65536.
  rewrite (u16_small proto) by (unfold is_u16; lia).
  rewrite !(Z.mod_small (_ / 65536) 65536) by word.
  set (x := u32 (u32 _ + len)).
  assert (Hx : x = a + src mod 65536 + src / 65536 + dest mod 65536 + dest / 65536 + proto + len).
  { unfold x. rewrite !u32_small; [lia | ..]; word. }
  assert (Hxr : is_u32 x /\ 0 < x) by (rewrite Hx; word). clearbody x. destruct Hxr as [Hxr Hx0].
  destruct (fold2_spec x Hxr) as (Hyr & Hyc & Hyz).
  exists (FOLD_U32T (FOLD_U32T x)). split; [| split].
  - rewrite Z.mod_small by lia. apply u16_small. unfold is_u16. lia.
  - lia.
  - rewrite Hyc, Hx. unfold pseudo_sum. rewrite <- !Hc. apply ceq_refl_eq. lia.
Qed.

(** Writing a checksum field into a zeroed word adds its value. *)
Lemma word_sum_put l off c :
  is_u16 c -> (Nat.even off = true) -> (S off < length l)%nat ->
  byte_at l off = 0 -> byte_at l (S off) = 0 ->
  word_sum (put off (be16 c) l) = word_sum l + c.
Proof.
  intros Hc. revert off. induction l as [| a | a b l IH] using list_ind2; intros off He Hl H0 H1.
  - cbn in Hl. lia.
  - cbn in Hl. lia.
  - destruct off as [| [| off]]; [| done |].
    + unfold byte_at in *. cbn in H0, H1. subst a b. unfold put, be16. cbn.
      rewrite Z.shiftr_div_pow2 by lia. change (2 ^ 8) with 256. rewrite drop_0. word.
    + unfold byte_at in *. cbn in Hl, H0, H1. cbn [Nat.even] in He.
      specialize (IH off He ltac:(lia) H0 H1). unfold put in *. cbn [take drop app word_sum Nat.add] in *. lia.
Qed.

Lemma Forall_put (P : Z -> Prop) off bs l :
  Forall P l -> Forall P bs -> Forall P (put off bs l).
Proof.
  intros Hl Hb. unfold put. apply Forall_app; split; [by apply Forall_take |].
  apply Forall_app; split; [done | by apply Forall_drop].
Qed.

Lemma be16_u8 c : Forall is_u8 (be16 c).
Proof. repeat apply List.Forall_cons; try apply List.Forall_nil; word. Qed.
Lemma be32_u8 c : Forall is_u8 (be32 c).
Proof. repeat apply List.Forall_cons; try apply List.Forall_nil; word. Qed.

Lemma put_app off bs l k :
  (off + length bs <= length l)%nat -> put off bs (l ++ k) = put off bs l ++ k.
Proof.
  intros H. unfold put. rewrite take_app_le by lia. rewrite drop_app_le by lia.
  by rewrite <- !app_assoc.
Qed.

Lemma p_bytes_set_payload d p : p_bytes (set_payload d p) = d ++ mjoin (map ps_data (pb_next p)).
Proof. reflexivity. Qed.

Lemma pbuf_ok_set_payload d p :
  pbuf_ok p -> length d = length (p_payload p) -> Forall is_u8 d -> pbuf_ok (set_payload d p).
Proof.
  intros [H8 Hl] Hd Hd8. unfold pbuf_ok, p_tot_len in *. rewrite p_bytes_set_payload.
  unfold p_bytes in *. apply Forall_app in H8 as [_ H8].
  split; [by apply Forall_app |]. rewrite Zlen_app in *. unfold Zlen in *. lia.
Qed.

(** The checksum a sender stores: 0 is sent as 0xffff. *)
Definition chksum_field (c : Z) : Z := if c =? 0 then 0xffff else c.

(** Storing the checksum in its zeroed field makes the packet verify. *)
Lemma pseudo_verify_put p src dest proto len off :
  pbuf_ok p -> is_u32 src -> is_u32 dest -> 0 < proto < 256 -> is_u16 len ->
  Nat.even off = true -> (S off < length (p_payload p))%nat ->
  byte_at (p_payload p) off = 0 -> byte_at (p_payload p) (S off) = 0 ->
  let c := chksum_field (inet_chksum_pseudo p src dest proto len) in
  0 < c <= 65535 /\
  inet_chksum_pseudo (set_payload (put off (be16 c) (p_payload p)) p) src dest proto len = 0.
Proof.
  intros Hp Hsrc Hdest Hproto Hlen He Hoff H0 H1. cbn zeta.
  destruct (pseudo_spec p src dest proto len) as (y & -> & Hy & Hyc); [done.. |].
  set (c := chksum_field (65535 - y)).
  assert (Hc : 0 < c <= 65535 /\ ceq (c + y) 0).
  { unfold c, chksum_field. destruct (Z.eqb_spec (65535 - y) 0).
    - split; [lia |]. apply (ceq_step _ _ 2). lia.
    - split; [lia |]. apply (ceq_step _ _ 1). lia. }
  clearbody c. destruct Hc as [Hc Hcy]. split; [done |].
  set (p' := set_payload _ p).
  assert (Hp' : pbuf_ok p').
  { apply pbuf_ok_set_payload; [done | apply length_put; cbn; lia |].
    apply Forall_put; [| apply be16_u8].
    destruct Hp as [H8 _]. unfold p_bytes in H8. by apply Forall_app in H8 as [? _]. }
  destruct (pseudo_spec p' src dest proto len) as (y' & -> & Hy' & Hyc'); [done.. |].
  assert (Hb : word_sum (p_bytes p') = word_sum (p_bytes p) + c).
  { unfold p'. rewrite p_bytes_set_payload, <- put_app by (cbn; lia).
    change (p_payload p ++ mjoin (map ps_data (pb_next p))) with (p_bytes p).
    apply word_sum_put; [unfold is_u16; lia | done | | |]; unfold p_bytes, byte_at in *;
      rewrite ?length_app; [lia | |]; rewrite app_nth1 by lia; done. }
  assert (Hz : ceq y' 0).
  { rewrite Hyc'. unfold pseudo_sum in *. rewrite Hb. rewrite <- Hcy, Hyc.
    apply ceq_refl_eq. lia. }
  destruct Hz as [k Hk]. lia.
Qed.

(** ** Properties *)

(** C39. The alignment of the data does not influence the checksum:
    [lwip_standard_chksum], which sums word-aligned halfwords and swaps the
    result of an odd start address, returns the same value for both parities of
    the address, and that value is the ones'-complement sum of the 16-bit
    words. *)
Theorem chksum_alignment (l : list Z) (Hl : Forall is_u8 l) (Hlen : Zlen l <= 131072) :
  lwip_standard_chksum true l = lwip_standard_chksum false l
  /\ ceq (lwip_standard_chksum false l) (word_sum l)
  /\ 0 <= lwip_standard_chksum false l <= 65535.
Proof.
  destruct (chksum_spec true l Hl Hlen) as (H1 & H2 & H3).
  destruct (chksum_spec false l Hl Hlen) as (H4 & H5 & H6).
  split; [| split; done].
  apply ceq_eq; [done | done | by rewrite H3, H6 | by rewrite H2, H5].
Qed.

Lemma chksum_alignment_witness :
  lwip_standard_chksum true [1; 2; 3] = 0x0402 /\
  lwip_standard_chksum true [1; 2; 3] = lwip_standard_chksum false [1; 2; 3]
  /\ ceq (lwip_standard_chksum false [1; 2; 3]) (word_sum [1; 2; 3])
  /\ 0 <= lwip_standard_chksum false [1; 2; 3] <= 65535.
Proof.
  split; [reflexivity |]. apply (chksum_alignment [1; 2; 3]); [| by vm_compute].
  repeat (apply List.Forall_cons; [split; done |]). apply List.Forall_nil.
Defined.

(** Checksum round trip: when a sender stores [inet_chksum_pseudo] of a
    packet (with 0 replaced by 0xffff, as [udp_sendto_if] does) into the packet's
    zeroed checksum field, the stored value is not 0 and the receiver's
    [inet_chksum_pseudo] over the whole packet is 0, for packets of any length
    and any division into pbufs, the field lying in the first one. *)
Theorem chksum_pseudo_roundtrip p src dest proto len off
  (Hp : pbuf_ok p) (Hsrc : is_u32 src) (Hdest : is_u32 dest) (Hproto : 0 < proto < 256)
  (Hlen : is_u16 len) (Heven : Nat.even off = true)
  (Hoff : (S off < length (p_payload p))%nat)
  (H0 : byte_at (p_payload p) off = 0) (H1 : byte_at (p_payload p) (S off) = 0) :
  let c := chksum_field (inet_chksum_pseudo p src dest proto len) in
  0 < c <= 65535 /\
  inet_chksum_pseudo (set_payload (put off (be16 c) (p_payload p)) p) src dest proto len = 0.
Proof. by apply pseudo_verify_put. Qed.

(** A datagram of three pbufs with odd lengths. *)
Definition chksum_example : pbuf :=
  mk_pbuf (mk_pseg PBUF_RAM [] [0x13; 0x88; 0x13; 0x89; 0; 14; 0; 0; 1])
    [mk_pseg PBUF_POOL [] [2; 3; 4]; mk_pseg PBUF_POOL [] [5; 6]] 0.

Lemma chksum_pseudo_roundtrip_witness :
  let c := chksum_field (inet_chksum_pseudo chksum_example 0x0a00000a 0x0a000001 17 14) in
  0 < c <= 65535 /\
  inet_chksum_pseudo (set_payload (put 6 (be16 c) (p_payload chksum_example)) chksum_example)
    0x0a00000a 0x0a000001 17 14 = 0.
Proof.
  apply (chksum_pseudo_roundtrip chksum_example 0x0a00000a 0x0a000001 17 14 6);
    try (split; done); try done; [| cbn; lia].
  split; [| by vm_compute].
  repeat (apply List.Forall_cons; [split; done |]). apply List.Forall_nil.
Defined.
