(* ===== verification/Net.v ===== *)
(** * State of the lower stack

    The global variables of core/netif.c, netif/etharp.c and core/ipv4/ip.c
    with the interfaces they point to, the heap oracle and the frames handed to
    the EMAC driver. *)

From S2P Require Import Prelude NetTypes Pbuf.

Inductive etharp_state : Set :=
| ETHARP_STATE_EMPTY | ETHARP_STATE_PENDING
| ETHARP_STATE_STABLE | ETHARP_STATE_STABLE_REREQUESTING.

#[export] Instance etharp_state_eq_dec : EqDecision etharp_state.
Proof. solve_decision. Defined.

(** [state >= ETHARP_STATE_STABLE]. *)
Definition is_stable (st : etharp_state) : bool :=
  match st with
  | ETHARP_STATE_STABLE | ETHARP_STATE_STABLE_REREQUESTING => true
  | _ => false
  end.

Record etharp_entry := mk_entry {
  ae_q : option pbuf;
  ae_ipaddr : Z;
  ae_netif : option netif_ptr;
  ae_ethaddr : list Z;
  ae_state : etharp_state;
  ae_ctime : Z
}.

Definition entry_zero : etharp_entry :=
  mk_entry None 0 None [0; 0; 0; 0; 0; 0] ETHARP_STATE_EMPTY 0.

Definition ARP_TABLE_SIZE : nat := 10.

(** A packet given to [hdkif_transmit]: the driver instance, the length
    programmed in the descriptors and the bytes of the chain. *)
Record frame := mk_frame {
  fr_hdkif : netif_state_ptr;
  fr_len : Z;
  fr_data : list Z
}.

Record net := mk_net {
  n_netifs : gmap netif_ptr netif;
  netif_list : option netif_ptr;
  netif_default : option netif_ptr;
  netif_num : Z;
  arp_table : list etharp_entry;
  etharp_cached_entry : nat;
  ip_id : Z;
  n_heap : list bool;
  n_wire : list frame
}.

(** Static storage at reset. *)
Definition net_init : net :=
  mk_net ∅ None None 0 (replicate ARP_TABLE_SIZE entry_zero) 0 0 [] [].

(** The object behind a [struct netif *]. *)
Definition netif_of (s : net) (p : netif_ptr) : netif := n_netifs s !!! p.
Definition netif_next (s : net) (p : netif_ptr) : option netif_ptr := nif_next (netif_of s p).

Definition set_netifs m s := mk_net m (netif_list s) (netif_default s) (netif_num s)
  (arp_table s) (etharp_cached_entry s) (ip_id s) (n_heap s) (n_wire s).
Definition set_netif_list h s := mk_net (n_netifs s) h (netif_default s) (netif_num s)
  (arp_table s) (etharp_cached_entry s) (ip_id s) (n_heap s) (n_wire s).
Definition set_netif_default d s := mk_net (n_netifs s) (netif_list s) d (netif_num s)
  (arp_table s) (etharp_cached_entry s) (ip_id s) (n_heap s) (n_wire s).
Definition set_netif_num k s := mk_net (n_netifs s) (netif_list s) (netif_default s) k
  (arp_table s) (etharp_cached_entry s) (ip_id s) (n_heap s) (n_wire s).
Definition set_arp_table t s := mk_net (n_netifs s) (netif_list s) (netif_default s) (netif_num s)
  t (etharp_cached_entry s) (ip_id s) (n_heap s) (n_wire s).
Definition set_cached_entry i s := mk_net (n_netifs s) (netif_list s) (netif_default s) (netif_num s)
  (arp_table s) i (ip_id s) (n_heap s) (n_wire s).
Definition set_ip_id i s := mk_net (n_netifs s) (netif_list s) (netif_default s) (netif_num s)
  (arp_table s) (etharp_cached_entry s) i (n_heap s) (n_wire s).
Definition set_heap h s := mk_net (n_netifs s) (netif_list s) (netif_default s) (netif_num s)
  (arp_table s) (etharp_cached_entry s) (ip_id s) h (n_wire s).
Definition set_wire w s := mk_net (n_netifs s) (netif_list s) (netif_default s) (netif_num s)
  (arp_table s) (etharp_cached_entry s) (ip_id s) (n_heap s) w.

(** Assignment to fields of one interface. *)
Definition upd_netif (p : netif_ptr) (f : netif -> netif) (s : net) : net :=
  set_netifs (<[p := f (netif_of s p)]> (n_netifs s)) s.

Definition arp_entry (s : net) (i : nat) : etharp_entry := nth i (arp_table s) entry_zero.
Definition upd_entry (i : nat) (f : etharp_entry -> etharp_entry) (s : net) : net :=
  set_arp_table (<[i := f (arp_entry s i)]> (arp_table s)) s.

Definition ae_set_q q e :=
  mk_entry q (ae_ipaddr e) (ae_netif e) (ae_ethaddr e) (ae_state e) (ae_ctime e).
Definition ae_set_ipaddr a e :=
  mk_entry (ae_q e) a (ae_netif e) (ae_ethaddr e) (ae_state e) (ae_ctime e).
Definition ae_set_netif n e :=
  mk_entry (ae_q e) (ae_ipaddr e) n (ae_ethaddr e) (ae_state e) (ae_ctime e).
Definition ae_set_ethaddr a e :=
  mk_entry (ae_q e) (ae_ipaddr e) (ae_netif e) a (ae_state e) (ae_ctime e).
Definition ae_set_state st e :=
  mk_entry (ae_q e) (ae_ipaddr e) (ae_netif e) (ae_ethaddr e) st (ae_ctime e).
Definition ae_set_ctime c e :=
  mk_entry (ae_q e) (ae_ipaddr e) (ae_netif e) (ae_ethaddr e) (ae_state e) c.

(** [pbuf_alloc(layer, length, PBUF_RAM)] on the stack's heap. *)
Definition net_pbuf_alloc (layer : pbuf_layer) (length : Z) (s : net) : option pbuf * net :=
  let '(p, h) := pbuf_alloc_ram layer length (n_heap s) in (p, set_heap h s).

Definition MIN_PKT_LEN : Z := 60.
Definition MAX_TRANSFER_UNIT : Z := 1514.

(** [hdkif_output]: short packets are padded up to [MIN_PKT_LEN]; the packet is
    handed to the descriptors of the driver instance.  What happens to it there is
    in [EmacTx] ([hdkif_output_queues]): this definition is the driver as the stack
    sees it when the ring was set up and has free descriptors.  Without a ring the
    call has no result ([driver_took]). *)
Definition hdkif_output (state : netif_state_ptr) (p : pbuf) (s : net) : err_t * net :=
  let len := if p_tot_len p <? MIN_PKT_LEN then MIN_PKT_LEN else p_tot_len p in
  (ERR_OK, set_wire (n_wire s ++ [mk_frame state len (p_bytes p)]) s).

(** The driver could take the packets it was given since [s0].  [ready] says that
    [hdkif_hw_init] set the rings up; if it failed, [free_head] is null and the first
    packet given to [hdkif_transmit] follows it ([PortInit.hdkif_hw_init_rings]).  The
    code that runs [hdkif_hw_init] ([Main.EMAC_LwIP_Main], [PortInit.lwIPInit]) has no
    result where this is false. *)
Definition driver_took (ready : bool) (s0 s : net) : bool :=
  ready || bool_decide (length (n_wire s) <= length (n_wire s0))%nat.

(** [netif->linkoutput(netif, p)].  Every configured interface points to the
    driver ([netif_conf] in Etharp); a call through another pointer is
    recorded as an error. *)
Definition netif_linkoutput (np : netif_ptr) (p : pbuf) (s : net) : err_t * net :=
  match nif_linkoutput (netif_of s np) with
  | Fn_hdkif_output => hdkif_output (nif_state (netif_of s np)) p s
  | _ => (ERR_IF, s)
  end.

(** ** Frames of the setters *)

Lemma netif_of_upd_eq p f s : netif_of (upd_netif p f s) p = f (netif_of s p).
Proof. unfold netif_of, upd_netif. cbn. by rewrite lookup_total_insert_eq. Qed.

Lemma netif_of_upd_ne p q f s : p <> q -> netif_of (upd_netif p f s) q = netif_of s q.
Proof. intros. unfold netif_of, upd_netif. cbn. by rewrite lookup_total_insert_ne. Qed.

Lemma netif_of_upd p q f s :
  netif_of (upd_netif p f s) q = if decide (p = q) then f (netif_of s p) else netif_of s q.
Proof.
  destruct (decide (p = q)) as [-> |]; [apply netif_of_upd_eq | by apply netif_of_upd_ne].
Qed.

Lemma linkoutput_frame np p s err s' :
  netif_linkoutput np p s = (err, s') ->
  n_netifs s' = n_netifs s /\ netif_list s' = netif_list s /\ netif_default s' = netif_default s
  /\ netif_num s' = netif_num s /\ arp_table s' = arp_table s
  /\ etharp_cached_entry s' = etharp_cached_entry s /\ ip_id s' = ip_id s /\ n_heap s' = n_heap s.
Proof.
  unfold netif_linkoutput, hdkif_output.
  destruct (nif_linkoutput _); intros [= _ <-]; split_and!; done.
Qed.

(** Same interfaces: list, default, number counter and every [struct netif]. *)
Definition same_ifs (s s' : net) : Prop :=
  n_netifs s' = n_netifs s /\ netif_list s' = netif_list s
  /\ netif_default s' = netif_default s /\ netif_num s' = netif_num s.

#[export] Instance same_ifs_refl : Reflexive same_ifs.
Proof. by intros s. Qed.
#[export] Instance same_ifs_trans : Transitive same_ifs.
Proof. intros a b c (? & ? & ? & ?) (? & ? & ? & ?). split_and!; congruence. Qed.

Lemma same_ifs_netif_of s s' p : same_ifs s s' -> netif_of s' p = netif_of s p.
Proof. unfold netif_of. by intros [-> _]. Qed.
