(* ===== verification/Phy.v ===== *)
(** * The Ethernet PHY (HL_mdio.c, HL_phy_dp83640.c, hdkif_link_setup)

    The driver of the PHY: commands through the register [MDIO_USERACCESS0], the
    registers of the PHY behind it, and on top the link set-up of hdkif.c.  The
    chip's registers are a parameter ([Bus]); its behaviour, and that of the PHY
    behind the serial bus, is stated by [BusOk] as the data sheets have it. *)

From S2P Require Import Prelude.

(** ** Registers *)

(** [HWREG]: reading may change what is behind a register. *)
Class Bus (D : Type) := {
  hw_read : Z -> D -> Z * D;
  hw_write : Z -> Z -> D -> D
}.

(** What the hardware does is read and written; an endless wait has no result. *)
Definition HW (D A : Type) : Type := D -> option (A * D).
#[export] Instance HW_ret D : MRet (HW D) := fun A a d => Some (a, d).
#[export] Instance HW_bind D : MBind (HW D) := fun A B f m d => '(a, d) ← m d; f a d.

Definition MDIO_0_BASE : Z := 0xFCF78900.
Definition EMAC_0_BASE : Z := 0xFCF78000.
Definition EMAC_MACCONTROL : Z := 0x160.
Definition EMAC_MACCONTROL_FULLDUPLEX : Z := 1.
Definition EMAC_DUPLEX_FULL : Z := 1.
Definition EMAC_DUPLEX_HALF : Z := 0.
Definition MDIO_ALIVE : Z := 0x8.
Definition MDIO_LINK : Z := 0xC.
Definition MDIO_USERACCESS0 : Z := 0x80.
Definition MDIO_USERACCESS0_GO : Z := 0x80000000.
Definition MDIO_USERACCESS0_WRITE : Z := 0x40000000.
Definition MDIO_USERACCESS0_READ : Z := 0.
Definition MDIO_USERACCESS0_ACK : Z := 0x20000000.
Definition PHY_REG_MASK : Z := 0x1F.
Definition PHY_ADDR_MASK : Z := 0x1F.
Definition PHY_DATA_MASK : Z := 0xFFFF.
Definition PHY_REG_SHIFT : Z := 21.
Definition PHY_ADDR_SHIFT : Z := 16.
Definition PHY_BCR : Z := 0.
Definition PHY_BSR : Z := 1.
Definition PHY_ID1 : Z := 2.
Definition PHY_ID2 : Z := 3.
Definition PHY_AUTONEG_ADV : Z := 4.
Definition PHY_LINK_PARTNER_ABLTY : Z := 5.
Definition PHY_ID_SHIFT : Z := 16.
Definition PHY_AUTONEG_ENABLE : Z := 0x1000.
Definition PHY_AUTONEG_RESTART : Z := 0x0200.
Definition PHY_AUTONEG_INCOMPLETE : Z := 0.
Definition PHY_AUTONEG_STATUS : Z := 0x0020.
Definition PHY_AUTONEG_ABLE : Z := 0x0008.
Definition PHY_LINK_STATUS : Z := 0x0004.
Definition DP83640_100BTX_FD : Z := 0x0100.
Definition DP83640_100BTX : Z := 0x0080.
Definition DP83640_10BT_FD : Z := 0x0040.
Definition DP83640_10BT : Z := 0x0020.

Section Driver.
Context {D : Type} `{!Bus D}.
(** Rounds of the loops that wait for [MDIO_USERACCESS0_GO]. *)
Variable fuel : nat.

Definition HWREG (a : Z) : HW D Z := fun d => Some (hw_read a d).
Definition HWREG_set (a v : Z) : HW D unit := fun d => Some (tt, hw_write a v d).

(** ** The serial bus (HL_mdio.c) *)

Fixpoint wait_go (n : nat) (baseAddr : Z) : HW D unit :=
  match n with
  | O => fun _ => None
  | S n =>
      w ← HWREG (baseAddr + MDIO_USERACCESS0);
      if Z.land w MDIO_USERACCESS0_GO =? MDIO_USERACCESS0_GO then wait_go n baseAddr else mret tt
  end.
Definition command (dir phyAddr regNum data : Z) : Z :=
  Z.lor (Z.lor (Z.lor (Z.lor dir MDIO_USERACCESS0_GO) (Z.shiftl (Z.land regNum PHY_REG_MASK) PHY_REG_SHIFT))
    (Z.shiftl (Z.land phyAddr PHY_ADDR_MASK) PHY_ADDR_SHIFT)) data.

(** [MDIOPhyRegRead]: the value for [*dataPtr] with [TRUE], none with [FALSE]. *)
Definition MDIOPhyRegRead (baseAddr phyAddr regNum : Z) : HW D (option Z) :=
  wait_go fuel baseAddr ;;
  HWREG_set (baseAddr + MDIO_USERACCESS0) (command MDIO_USERACCESS0_READ phyAddr regNum 0) ;;
  wait_go fuel baseAddr ;;
  w ← HWREG (baseAddr + MDIO_USERACCESS0);
  if Z.land w MDIO_USERACCESS0_ACK =? MDIO_USERACCESS0_ACK then
    w ← HWREG (baseAddr + MDIO_USERACCESS0);
    mret (Some (u16 (Z.land w PHY_DATA_MASK)))
  else mret None.
Definition MDIOPhyRegWrite (baseAddr phyAddr regNum RegVal : Z) : HW D unit :=
  wait_go fuel baseAddr ;;
  HWREG_set (baseAddr + MDIO_USERACCESS0) (command MDIO_USERACCESS0_WRITE phyAddr regNum RegVal) ;;
  wait_go fuel baseAddr.
Definition MDIOPhyAliveStatusGet (baseAddr : Z) : HW D Z := HWREG (baseAddr + MDIO_ALIVE).
Definition MDIOPhyLinkStatusGet (baseAddr : Z) : HW D Z := HWREG (baseAddr + MDIO_LINK).

(** ** The PHY (HL_phy_dp83640.c) *)

(** A variable after [MDIOPhyRegRead(.., &data)]. *)
Definition into (data : Z) (r : option Z) : Z := from_option id data r.

Definition Dp83640IDGet (mdioBaseAddr phyAddr : Z) : HW D Z :=
  r ← MDIOPhyRegRead mdioBaseAddr phyAddr PHY_ID1;
  let data := into 0 r in
  let id := u32 (Z.shiftl data PHY_ID_SHIFT) in
  r ← MDIOPhyRegRead mdioBaseAddr phyAddr PHY_ID2;
  mret (Z.lor id (into data r)).

Fixpoint Dp83640LinkStatusGet (mdioBaseAddr phyAddr : Z) (retries : nat) (linkStatus : Z) : HW D bool :=
  r ← MDIOPhyRegRead mdioBaseAddr phyAddr PHY_BSR;
  let linkStatus := into linkStatus r in
  l ← (if negb (Z.land linkStatus PHY_LINK_STATUS =? 0)
       then l ← MDIOPhyLinkStatusGet mdioBaseAddr; mret (Some (u16 l)) else mret None);
  let linkStatus := into linkStatus l in
  if bool_decide (is_Some l) && negb (Z.land linkStatus (u16 (Z.shiftl 1 phyAddr)) =? 0) then mret true
  else match retries with
       | O => mret false
       | S retries => Dp83640LinkStatusGet mdioBaseAddr phyAddr retries linkStatus
       end.

(** The loop that waits for the negotiation, with [phyNegTries]. *)
Fixpoint wait_negotiation (mdioBaseAddr phyAddr : Z) (phyNegTries : nat) (retVal : bool) (data : Z) : HW D Z :=
  match phyNegTries with
  | O => mret data
  | S phyNegTries =>
      if (PHY_AUTONEG_INCOMPLETE =? Z.land data PHY_AUTONEG_STATUS) && retVal then
        r ← MDIOPhyRegRead mdioBaseAddr phyAddr PHY_BSR;
        wait_negotiation mdioBaseAddr phyAddr phyNegTries retVal (into data r)
      else mret data
  end.
Definition Dp83640AutoNegotiate (mdioBaseAddr phyAddr advVal : Z) : HW D bool :=
  r1 ← MDIOPhyRegRead mdioBaseAddr phyAddr PHY_BCR;
  let data := Z.lor (into 0 r1) PHY_AUTONEG_ENABLE in
  MDIOPhyRegWrite mdioBaseAddr phyAddr PHY_BCR data ;;
  r2 ← MDIOPhyRegRead mdioBaseAddr phyAddr PHY_BCR;
  let data := into data r2 in
  r ← MDIOPhyRegRead mdioBaseAddr phyAddr PHY_AUTONEG_ADV;
  let anar := Z.land (into 0 r) (u16 (Z.lnot 0xff10)) in
  MDIOPhyRegWrite mdioBaseAddr phyAddr PHY_AUTONEG_ADV (Z.lor anar advVal) ;;
  let data := Z.lor data PHY_AUTONEG_RESTART in
  MDIOPhyRegWrite mdioBaseAddr phyAddr PHY_BCR data ;;
  r3 ← MDIOPhyRegRead mdioBaseAddr phyAddr PHY_BSR;
  let retVal := bool_decide (is_Some r1) && bool_decide (is_Some r2) && bool_decide (is_Some r3) in
  data ← wait_negotiation mdioBaseAddr phyAddr (Z.to_nat 0xFFFF) retVal (into data r3);
  mret (negb (Z.land data PHY_AUTONEG_ABLE =? 0)).
Definition Dp83640PartnerAbilityGet (mdioBaseAddr phyAddr : Z) : HW D (option Z) :=
  MDIOPhyRegRead mdioBaseAddr phyAddr PHY_LINK_PARTNER_ABLTY.

(** ** The link (HL_emac.c, hdkif.c) *)

Definition EMACDuplexSet (emacBase duplexMode : Z) : HW D unit :=
  w ← HWREG (emacBase + EMAC_MACCONTROL);
  HWREG_set (emacBase + EMAC_MACCONTROL) (Z.land w (not32 EMAC_MACCONTROL_FULLDUPLEX)) ;;
  w ← HWREG (emacBase + EMAC_MACCONTROL);
  HWREG_set (emacBase + EMAC_MACCONTROL) (Z.lor w duplexMode).

(** [hdkif_link_setup] of the instance 0; [partnr_ablty] is what the uninitialised
    variable of this name holds. *)
Definition hdkif_link_setup (partnr_ablty : Z) : HW D err_t :=
  up ← Dp83640AutoNegotiate MDIO_0_BASE 1
         (Z.lor (Z.lor DP83640_100BTX DP83640_100BTX_FD) (Z.lor DP83640_10BT DP83640_10BT_FD));
  if up : bool then
    r ← Dp83640PartnerAbilityGet MDIO_0_BASE 1;
    let phyduplex := if negb (Z.land (into partnr_ablty r) DP83640_100BTX_FD =? 0) then EMAC_DUPLEX_FULL else EMAC_DUPLEX_HALF in
    EMACDuplexSet EMAC_0_BASE phyduplex ;;
    mret ERR_OK
  else mret ERR_CONN.

(** ** The PHY part of hdkif_hw_init *)

Fixpoint read_id (phyIdReadCount : nat) : HW D Z :=
  match phyIdReadCount with
  | O => mret 0
  | S phyIdReadCount =>
      phyID ← Dp83640IDGet MDIO_0_BASE 1;
      if phyID =? 0 then read_id phyIdReadCount else mret phyID
  end.
(** Without the messages.  The id and the link status are only reported. *)
Definition hdkif_phy_init (partnr_ablty : Z) : HW D err_t :=
  read_id (Z.to_nat 0xFFFF) ;;
  alive ← MDIOPhyAliveStatusGet MDIO_0_BASE;
  if Z.land (Z.shiftr alive 1) 0x01 =? 0 then mret ERR_CONN
  else
    Dp83640LinkStatusGet MDIO_0_BASE 1 (Z.to_nat 0xFFFF) 0 ;;
    e ← hdkif_link_setup partnr_ablty;
    if bool_decide (e = ERR_OK) then mret ERR_OK else mret ERR_CONN.
End Driver.

(** ** The hardware *)

(** A PHY: its registers as the serial bus sees them (an address may not answer,
    and a read may change the PHY), and the words of the status registers [ALIVE]
    and [LINK] of the MDIO module. *)
Class Phy (P : Type) := {
  phy_read : Z -> Z -> P -> option Z * P;
  phy_write : Z -> Z -> Z -> P -> P;
  phy_alive : P -> Z;
  phy_linked : P -> Z
}.

(** The word [w'] and the PHY [p'] after the command [cmd]. *)
Definition answers {P} `{Phy P} (cmd : Z) (p : P) (w' : Z) (p' : P) : Prop :=
  let rn := Z.land (Z.shiftr cmd 21) 31 in
  let pa := Z.land (Z.shiftr cmd 16) 31 in
  if Z.testbit cmd 30 then p' = phy_write pa rn (Z.land cmd 0xFFFF) p
  else p' = snd (phy_read pa rn p)
       /\ match fst (phy_read pa rn p) with
          | Some v => Z.testbit w' 29 = true /\ Z.land w' 0xFFFF = v
          | None => Z.testbit w' 29 = false
          end.

(** [bus_at d n w p c]: a command needs [n] more looks at [USERACCESS0], which then
    holds [w]; [p] is the PHY and [c] the register [MACCONTROL]. *)
Class BusOk (D P : Type) `{Bus D, Phy P} := {
  bus_at : D -> nat -> Z -> P -> Z -> Prop;
  busy_max : nat;
  bus_busy : forall d n w p c, bus_at d (S n) w p c ->
    exists x d', hw_read (MDIO_0_BASE + MDIO_USERACCESS0) d = (x, d') /\ Z.testbit x 31 = true /\ bus_at d' n w p c;
  bus_idle : forall d w p c, bus_at d 0 w p c ->
    exists d', hw_read (MDIO_0_BASE + MDIO_USERACCESS0) d = (w, d') /\ Z.testbit w 31 = false /\ bus_at d' 0 w p c;
  bus_command : forall d w p c cmd, bus_at d 0 w p c -> Z.testbit cmd 31 = true ->
    exists n w' p', (n <= busy_max)%nat /\ answers cmd p w' p' /\ bus_at (hw_write (MDIO_0_BASE + MDIO_USERACCESS0) cmd d) n w' p' c;
  bus_alive : forall d w p c, bus_at d 0 w p c -> exists d', hw_read (MDIO_0_BASE + MDIO_ALIVE) d = (phy_alive p, d') /\ bus_at d' 0 w p c;
  bus_link : forall d w p c, bus_at d 0 w p c -> exists d', hw_read (MDIO_0_BASE + MDIO_LINK) d = (phy_linked p, d') /\ bus_at d' 0 w p c;
  bus_mac : forall d w p c, bus_at d 0 w p c -> exists d', hw_read (EMAC_0_BASE + EMAC_MACCONTROL) d = (c, d') /\ bus_at d' 0 w p c;
  bus_set_mac : forall d w p c v, bus_at d 0 w p c -> bus_at (hw_write (EMAC_0_BASE + EMAC_MACCONTROL) v d) 0 w p v
}.

(** ** The driver against the PHY *)

Lemma bit_test w k : 0 <= k -> (Z.land w (2 ^ k) =? 2 ^ k) = Z.testbit w k.
Proof.
  intros Hk. destruct (Z.testbit w k) eqn:E.
  - apply Z.eqb_eq, Z.bits_inj'. intros n Hn. rewrite Z.land_spec. destruct (Z.eq_dec n k) as [-> |]; [by rewrite E |].
    by rewrite Z.pow2_bits_false, andb_false_r by lia.
  - apply Z.eqb_neq. intros Hc. apply (f_equal (fun x => Z.testbit x k)) in Hc. by rewrite Z.land_spec, E, Z.pow2_bits_true in Hc.
Qed.
Lemma go_test w : (Z.land w MDIO_USERACCESS0_GO =? MDIO_USERACCESS0_GO) = Z.testbit w 31.
Proof. exact (bit_test w 31 ltac:(lia)). Qed.
Lemma ack_test w : (Z.land w MDIO_USERACCESS0_ACK =? MDIO_USERACCESS0_ACK) = Z.testbit w 29.
Proof. exact (bit_test w 29 ltac:(lia)). Qed.

Lemma land_31 x : Z.land x 31 = x mod 32.
Proof. exact (Z.land_ones x 5 ltac:(lia)). Qed.

(** The fields of a command. *)
Lemma command_sum dir pa rn data : 0 <= pa < 32 -> 0 <= rn < 32 -> 0 <= data < 65536 -> dir = 0 \/ dir = 2 ^ 30 ->
  command dir pa rn data = dir + 2 ^ 31 + rn * 2 ^ 21 + pa * 2 ^ 16 + data.
Proof.
  intros Hp Hr Hd Hdir. unfold command. change PHY_REG_MASK with (Z.ones 5). change PHY_ADDR_MASK with (Z.ones 5).
  rewrite !Z.land_ones, !Z.mod_small by lia.
  assert (E : Z.lor dir MDIO_USERACCESS0_GO = Z.shiftl (Z.shiftr dir 30 + 2) 30) by (destruct Hdir; subst dir; reflexivity). rewrite E.
  unfold PHY_REG_SHIFT, PHY_ADDR_SHIFT.
  rewrite (Z.lor_comm (Z.shiftl (_ + 2) 30)), (lor_shiftl_add _ (_ + 2)) by (rewrite ?Z.shiftl_mul_pow2 by lia; lia). rewrite (Z.lor_comm _ (Z.shiftl pa 16)).
  replace (Z.shiftl rn 21 + (Z.shiftr dir 30 + 2) * 2 ^ 30) with (Z.shiftl (rn + (Z.shiftr dir 30 + 2) * 2 ^ 9) 21) by (rewrite !Z.shiftl_mul_pow2 by lia; lia).
  rewrite lor_shiftl_add by (rewrite ?Z.shiftl_mul_pow2 by lia; lia).
  replace (Z.shiftl pa 16 + (rn + (Z.shiftr dir 30 + 2) * 2 ^ 9) * 2 ^ 21) with (Z.shiftl (pa + (rn + (Z.shiftr dir 30 + 2) * 2 ^ 9) * 2 ^ 5) 16)
    by (rewrite !Z.shiftl_mul_pow2 by lia; lia).
  rewrite Z.lor_comm, lor_shiftl_add by lia.
  assert (Hs : Z.shiftr dir 30 * 2 ^ 30 = dir) by (destruct Hdir; subst dir; reflexivity). lia.
Qed.
Lemma command_fields (w : bool) pa rn data : 0 <= pa < 32 -> 0 <= rn < 32 -> 0 <= data < 65536 ->
  let cmd := command (if w then MDIO_USERACCESS0_WRITE else MDIO_USERACCESS0_READ) pa rn data in
  Z.testbit cmd 31 = true /\ Z.testbit cmd 30 = w /\ Z.land (Z.shiftr cmd 21) 31 = rn /\ Z.land (Z.shiftr cmd 16) 31 = pa /\ Z.land cmd 0xFFFF = data.
Proof.
  intros Hp Hr Hd. cbv zeta. rewrite command_sum by (try done; destruct w; by (left + right)).
  assert (Ew : (if w then MDIO_USERACCESS0_WRITE else MDIO_USERACCESS0_READ) = Z.b2z w * 2 ^ 30) by by destruct w. rewrite Ew.
  change 0xFFFF with (Z.ones 16). rewrite !land_31, Z.land_ones, !Z.shiftr_div_pow2 by lia.
  assert (Hw : 0 <= Z.b2z w <= 1) by (destruct w; cbn; lia).
  split_and!.
  - apply Z.testbit_true; [lia |]. Z.div_mod_to_equations; lia.
  - destruct w; [apply Z.testbit_true | apply Z.testbit_false]; try lia; cbn [Z.b2z] in *; Z.div_mod_to_equations; lia.
  - Z.div_mod_to_equations; lia.
  - Z.div_mod_to_equations; lia.
  - Z.div_mod_to_equations; lia.
Qed.

Section Correct.
Context {D P : Type} `{HB : Bus D, HP : Phy P, HO : !BusOk D P}.
Variable fuel : nat.
Hypothesis enough : (busy_max < fuel)%nat.

Definition idle (d : D) (p : P) (c : Z) : Prop := exists w, bus_at d 0 w p c.
(** From an idle bus, [m] returns [a] and leaves the bus idle; the PHY and
    [MACCONTROL] change from [p], [c] to [p'], [c']. *)
Definition does {A} (m : HW D A) (p : P) (c : Z) (a : A) (p' : P) (c' : Z) : Prop :=
  forall d, idle d p c -> exists d', m d = Some (a, d') /\ idle d' p' c'.

Lemma hw_does_ret {A} (a : A) p c : does (mret a) p c a p c.
Proof. intros d Hd. by exists d. Qed.
Lemma does_bind {A B} (m : HW D A) (f : A -> HW D B) p c a p1 c1 b p2 c2 :
  does m p c a p1 c1 -> does (f a) p1 c1 b p2 c2 -> does (m ≫= f) p c b p2 c2.
Proof.
  intros Hm Hf d Hd. destruct (Hm d Hd) as (d1 & E1 & H1). destruct (Hf d1 H1) as (d2 & E2 & H2). exists d2. split; [| done].
  unfold mbind, HW_bind. by rewrite E1.
Qed.

Lemma wait_go_ok n : forall k d w p c, (n < k)%nat -> bus_at d n w p c -> exists d', wait_go k MDIO_0_BASE d = Some (tt, d') /\ bus_at d' 0 w p c.
Proof.
  induction n as [| n IH]; intros [| k] d w p c Hk Hb; try lia; cbn [wait_go]; unfold mbind, HW_bind, HWREG; cbn [mbind option_bind].
  - destruct (bus_idle _ _ _ _ Hb) as (d' & -> & Hg & Hb'). cbn [mbind option_bind]. rewrite go_test, Hg. by exists d'.
  - destruct (bus_busy _ _ _ _ _ Hb) as (x & d' & -> & Hg & Hb'). cbn [mbind option_bind]. rewrite go_test, Hg. apply IH; [lia | done].
Qed.

(** A command up to its end. *)
Lemma command_ok d w p c cmd : bus_at d 0 w p c -> Z.testbit cmd 31 = true ->
  exists d' w' p', (wait_go fuel MDIO_0_BASE ;; HWREG_set (MDIO_0_BASE + MDIO_USERACCESS0) cmd ;; wait_go fuel MDIO_0_BASE) d = Some (tt, d')
    /\ answers cmd p w' p' /\ bus_at d' 0 w' p' c.
Proof.
  intros Hb Hc. destruct (wait_go_ok 0 fuel _ _ _ _ ltac:(lia) Hb) as (d1 & E1 & H1). destruct (bus_command _ _ _ _ _ H1 Hc) as (n & w' & p' & Hn & Ha & H2).
  destruct (wait_go_ok n fuel _ _ _ _ ltac:(lia) H2) as (d3 & E3 & H3). exists d3, w', p'. split; [| done].
  unfold mbind, HW_bind, HWREG_set in *. rewrite E1. cbn [mbind option_bind]. exact E3.
Qed.

Lemma write_does pa rn v p c : 0 <= pa < 32 -> 0 <= rn < 32 -> 0 <= v < 65536 ->
  does (MDIOPhyRegWrite fuel MDIO_0_BASE pa rn v) p c tt (phy_write pa rn v p) c.
Proof.
  intros Hp Hr Hv d [w Hd]. pose proof (command_fields true pa rn v Hp Hr Hv) as (Hgo & Hw & Ern & Epa & Ed).
  destruct (command_ok _ _ _ _ (command MDIO_USERACCESS0_WRITE pa rn v) Hd Hgo) as (d' & w' & p' & E & Ha & Hb). exists d'. split; [exact E |].
  unfold answers in Ha. cbn [MDIO_USERACCESS0_WRITE] in Ha. rewrite Hw, Ern, Epa, Ed in Ha. subst p'. by exists w'.
Qed.
Lemma read_does pa rn p c : 0 <= pa < 32 -> 0 <= rn < 32 ->
  does (MDIOPhyRegRead fuel MDIO_0_BASE pa rn) p c (fst (phy_read pa rn p)) (snd (phy_read pa rn p)) c.
Proof.
  intros Hp Hr d [w Hd]. pose proof (command_fields false pa rn 0 Hp Hr ltac:(lia)) as (Hgo & Hw & Ern & Epa & _).
  destruct (command_ok _ _ _ _ (command MDIO_USERACCESS0_READ pa rn 0) Hd Hgo) as (d' & w' & p' & E & Ha & Hb).
  unfold answers in Ha. rewrite Hw, Ern, Epa in Ha. destruct Ha as [-> Ha].
  unfold MDIOPhyRegRead, mbind, HW_bind, HWREG, HWREG_set in *. cbn [mbind option_bind] in E |- *.
  destruct (wait_go fuel MDIO_0_BASE d) as [[[] d1] |]; [| done]. cbn [mbind option_bind] in E |- *. rewrite E. cbn [mbind option_bind].
  destruct (bus_idle _ _ _ _ Hb) as (d2 & E2 & _ & H2). rewrite E2. cbn [mbind option_bind]. rewrite ack_test.
  destruct (fst (phy_read pa rn p)) as [v |].
  - destruct Ha as [-> <-]. destruct (bus_idle _ _ _ _ H2) as (d3 & E3 & _ & H3). rewrite E3. exists d3. split; [| by exists w'].
    cbn [mbind option_bind]. unfold mret, HW_ret. rewrite u16_small; [done |]. change PHY_DATA_MASK with (Z.ones 16). rewrite Z.land_ones by lia.
    apply Z.mod_pos_bound. lia.
  - rewrite Ha. exists d2. split; [done | by exists w'].
Qed.

(** ** A PHY that answers *)

Section Answering.
Context (answering : forall rn p, 0 <= rn < 32 -> exists v, fst (phy_read 1 rn p) = Some v /\ 0 <= v < 65536).

Definition reg (rn : Z) (p : P) : Z := into 0 (fst (phy_read 1 rn p)).
Definition next (rn : Z) (p : P) : P := snd (phy_read 1 rn p).
Definition set_reg (rn v : Z) (p : P) : P := phy_write 1 rn v p.

Lemma reg_does rn p c : 0 <= rn < 32 -> does (MDIOPhyRegRead fuel MDIO_0_BASE 1 rn) p c (Some (reg rn p)) (next rn p) c.
Proof.
  intros Hr. pose proof (read_does 1 rn p c ltac:(lia) Hr) as Hd. destruct (answering rn p Hr) as (v & E & _). unfold reg, next. rewrite E in *. exact Hd.
Qed.
Lemma reg_range rn p : 0 <= rn < 32 -> 0 <= reg rn p < 2 ^ 16.
Proof. intros Hr. destruct (answering rn p Hr) as (v & E & Hv). unfold reg. rewrite E. exact Hv. Qed.

(** The PHY when the driver has restarted the negotiation with the abilities [adv]
    on offer, and after [n] looks at its status. *)
Definition restarted (adv : Z) (p : P) : P :=
  let bcr := Z.lor (reg PHY_BCR p) PHY_AUTONEG_ENABLE in
  let p := set_reg PHY_BCR bcr (next PHY_BCR p) in
  let bcr := Z.lor (reg PHY_BCR p) PHY_AUTONEG_RESTART in
  let p := next PHY_BCR p in
  let anar := Z.lor (Z.land (reg PHY_AUTONEG_ADV p) 0x00ef) adv in
  set_reg PHY_BCR bcr (set_reg PHY_AUTONEG_ADV anar (next PHY_AUTONEG_ADV p)).
Definition watched (n : nat) (p : P) : P := Nat.iter n (next PHY_BSR) p.
Definition complete (w : Z) : Prop := Z.testbit w 5 = true.
Definition able (w : Z) : bool := Z.testbit w 3.

Lemma mask_test w k : 0 <= k -> negb (Z.land w (2 ^ k) =? 0) = Z.testbit w k.
Proof. intros Hk. rewrite <- Z.shiftl_1_l, land_bit_eq0 by done. by rewrite negb_involutive. Qed.
Lemma incomplete_test w : (PHY_AUTONEG_INCOMPLETE =? Z.land w PHY_AUTONEG_STATUS) = negb (Z.testbit w 5).
Proof. unfold PHY_AUTONEG_INCOMPLETE. rewrite Z.eqb_sym. exact (land_bit_eq0 w 5 ltac:(lia)). Qed.

Lemma wait_negotiation_does k c : forall q, exists j, (j <= k)%nat
  /\ (forall i, (i < j)%nat -> ~ complete (reg PHY_BSR (watched i q))) /\ ((j < k)%nat -> complete (reg PHY_BSR (watched j q)))
  /\ does (wait_negotiation fuel MDIO_0_BASE 1 k true (reg PHY_BSR q)) (next PHY_BSR q) c (reg PHY_BSR (watched j q)) (watched (S j) q) c.
Proof.
  induction k as [| k IH]; intros q.
  - exists 0%nat. split; [lia |]. split; [lia |]. split; [lia |]. apply hw_does_ret.
  - cbn [wait_negotiation]. rewrite incomplete_test, andb_true_r. destruct (Z.testbit (reg PHY_BSR q) 5) eqn:E; cbn [negb].
    + exists 0%nat. split; [lia |]. split; [lia |]. split; [done |]. apply hw_does_ret.
    + destruct (IH (next PHY_BSR q)) as (j & Hj & Hlt & Hlast & Hd). exists (S j). split; [lia |].
      assert (Ew : forall i, watched i (next PHY_BSR q) = watched (S i) q) by (intros i; unfold watched; symmetry; apply Nat.iter_succ_r).
      setoid_rewrite Ew in Hlast. setoid_rewrite Ew in Hd. split; [| split; [intros; apply Hlast; lia |]].
      * intros [| i] Hi; [cbn; unfold complete; congruence |]. rewrite <- Ew. apply Hlt. lia.
      * eapply does_bind; [apply reg_does; unfold PHY_BSR; lia | exact Hd].
Qed.

Lemma autonegotiate_does adv p c : 0 <= adv < 2 ^ 16 -> let q := restarted adv p in exists j, (j <= Z.to_nat 0xFFFF)%nat
  /\ (forall i, (i < j)%nat -> ~ complete (reg PHY_BSR (watched i q))) /\ ((j < Z.to_nat 0xFFFF)%nat -> complete (reg PHY_BSR (watched j q)))
  /\ does (Dp83640AutoNegotiate fuel MDIO_0_BASE 1 adv) p c (able (reg PHY_BSR (watched j q))) (watched (S j) q) c.
Proof.
  intros Ha. cbv zeta. destruct (wait_negotiation_does (Z.to_nat 0xFFFF) c (restarted adv p)) as (j & Hj & Hlt & Hlast & Hd).
  exists j. split; [done |]. split; [done |]. split; [done |]. unfold Dp83640AutoNegotiate.
  assert (Hb : 0 <= PHY_BCR < 32 /\ 0 <= PHY_BSR < 32 /\ 0 <= PHY_AUTONEG_ADV < 32) by (unfold PHY_BCR, PHY_BSR, PHY_AUTONEG_ADV; lia). destruct Hb as (Hb1 & Hb2 & Hb3).
  eapply does_bind; [by apply reg_does |]. cbn [into from_option id]. cbv zeta.
  eapply does_bind; [apply write_does; [lia | done |]; apply (lor_range _ _ 16); [lia | by apply reg_range | unfold PHY_AUTONEG_ENABLE; lia] |].
  eapply does_bind; [by apply reg_does |]. eapply does_bind; [by apply reg_does |]. cbn [into from_option id].
  eapply does_bind; [apply write_does; [lia | done |]; apply (lor_range _ _ 16); [lia | | done] |].
  { pose proof (land_range_r (reg PHY_AUTONEG_ADV (next PHY_BCR (phy_write 1 PHY_BCR (Z.lor (reg PHY_BCR p) PHY_AUTONEG_ENABLE) (next PHY_BCR p)))) 0xef ltac:(lia)).
    change (u16 (Z.lnot 0xff10)) with 0xef. lia. }
  eapply does_bind; [apply write_does; [lia | done |]; apply (lor_range _ _ 16); [lia | by apply reg_range | unfold PHY_AUTONEG_RESTART; lia] |].
  eapply does_bind; [by apply reg_does |]. cbn [into from_option id]. change (u16 (Z.lnot 0xff10)) with 0xef.
  eapply does_bind; [exact Hd |]. unfold able. rewrite <- (mask_test _ 3) by lia. apply hw_does_ret.
Qed.

Lemma duplex_does x p c : does (EMACDuplexSet EMAC_0_BASE x) p c tt p (Z.lor (Z.land c (not32 1)) x).
Proof.
  intros d [w Hd]. unfold EMACDuplexSet, mbind, HW_bind, HWREG, HWREG_set. cbn [mbind option_bind].
  destruct (bus_mac _ _ _ _ Hd) as (d1 & -> & H1). cbn [mbind option_bind].
  pose proof (bus_set_mac _ _ _ _ (Z.land c (not32 EMAC_MACCONTROL_FULLDUPLEX)) H1) as H2. destruct (bus_mac _ _ _ _ H2) as (d3 & -> & H3).
  cbn [mbind option_bind]. eexists. split; [done |]. exists w. by eapply bus_set_mac.
Qed.

(** The abilities the driver offers: 10 and 100 MBit/s, half and full duplex. *)
Definition OFFER : Z := 0x1e0.
(** The outcome of the link set-up from the PHY [p]: after [m] looks at most 65536,
    the last of which shows the negotiation complete unless it is the 65536th, the
    word then read decides by its ability bit; the partner register read next
    decides the duplex mode. *)
Definition linked_up (p : P) (c : Z) (e : err_t) (p' : P) (c' : Z) : Prop :=
  let q := restarted OFFER p in
  exists m, 1 <= Z.of_nat m <= 65536 /\ (forall i, (1 <= i < m)%nat -> ~ complete (reg PHY_BSR (watched (i - 1) q)))
  /\ (Z.of_nat m < 65536 -> complete (reg PHY_BSR (watched (m - 1) q)))
  /\ if able (reg PHY_BSR (watched (m - 1) q))
     then e = ERR_OK /\ p' = next PHY_LINK_PARTNER_ABLTY (watched m q)
          /\ c' = Z.lor (Z.land c (not32 1)) (Z.b2z (Z.testbit (reg PHY_LINK_PARTNER_ABLTY (watched m q)) 8))
     else e = ERR_CONN /\ p' = watched m q /\ c' = c.

Lemma link_setup_does stale p c : exists e p' c', linked_up p c e p' c' /\ does (hdkif_link_setup fuel stale) p c e p' c'.
Proof.
  destruct (autonegotiate_does OFFER p c ltac:(unfold OFFER; lia)) as (j & Hj & Hlt & Hlast & Hd). unfold hdkif_link_setup, linked_up.
  change (Z.lor (Z.lor DP83640_100BTX DP83640_100BTX_FD) (Z.lor DP83640_10BT DP83640_10BT_FD)) with OFFER.
  set (q := restarted OFFER p) in *. assert (Em : (S j - 1)%nat = j) by lia.
  destruct (able (reg PHY_BSR (watched j q))) eqn:Ea; do 3 eexists; (split; [exists (S j); rewrite Em, Ea; split; [lia |]; split; [intros i Hi; apply Hlt; lia |]; split; [intros; apply Hlast; lia | done] |]).
  - eapply does_bind; [exact Hd |]. cbv iota. eapply does_bind; [apply reg_does; unfold PHY_LINK_PARTNER_ABLTY; lia |]. cbn [into from_option id].
    change DP83640_100BTX_FD with (2 ^ 8). rewrite mask_test by lia. eapply does_bind; [apply duplex_does |].
    destruct (Z.testbit _ 8); apply hw_does_ret.
  - eapply does_bind; [exact Hd |]. cbv iota. apply hw_does_ret.
Qed.

(** The PHY was only looked at. *)
Definition looked : P -> P -> Prop := rtc (fun p p' => exists rn, p' = next rn p).

Lemma id_does p c : exists v p', looked p p' /\ does (Dp83640IDGet fuel MDIO_0_BASE 1) p c v p' c.
Proof.
  do 2 eexists. split; [| eapply does_bind; [apply reg_does; unfold PHY_ID1; lia |]; eapply does_bind; [apply reg_does; unfold PHY_ID2; lia |]; apply hw_does_ret].
  eapply rtc_l; [by eexists |]. apply rtc_once. by eexists.
Qed.
Lemma read_id_does n c : forall p, exists v p', looked p p' /\ does (read_id fuel n) p c v p' c.
Proof.
  induction n as [| n IH]; intros p; [exists 0, p; split; [constructor | apply hw_does_ret] |]. destruct (id_does p c) as (v & p1 & H1 & D1).
  cbn [read_id]. destruct (v =? 0) eqn:E.
  - destruct (IH p1) as (v2 & p2 & H2 & D2). exists v2, p2. split; [by etrans |]. eapply does_bind; [exact D1 |]. by rewrite E.
  - exists v, p1. split; [done |]. eapply does_bind; [exact D1 |]. rewrite E. apply hw_does_ret.
Qed.
Lemma link_status_does n c : forall s p, exists b p', looked p p' /\ does (Dp83640LinkStatusGet fuel MDIO_0_BASE 1 n s) p c b p' c.
Proof.
  assert (Hl : forall p, does (MDIOPhyLinkStatusGet MDIO_0_BASE) p c (phy_linked p) p c).
  { intros p d [w Hd]. destruct (bus_link _ _ _ _ Hd) as (d' & E & Hd'). exists d'. split; [| by exists w].
    unfold MDIOPhyLinkStatusGet, HWREG. by rewrite E. }
  assert (Hr : forall p, does (MDIOPhyRegRead fuel MDIO_0_BASE 1 PHY_BSR) p c (Some (reg PHY_BSR p)) (next PHY_BSR p) c) by (intros p; apply reg_does; unfold PHY_BSR; lia).
  assert (Hk : forall p, looked p (next PHY_BSR p)) by (intros p; apply rtc_once; by eexists).
  assert (Hs : forall p, exists l, does (if negb (Z.land (reg PHY_BSR p) PHY_LINK_STATUS =? 0) then l ← MDIOPhyLinkStatusGet MDIO_0_BASE; mret (Some (u16 l)) else mret None) (next PHY_BSR p) c l (next PHY_BSR p) c).
  { intros p. destruct (negb _); [| eexists; apply hw_does_ret]. eexists. eapply does_bind; [apply Hl | apply hw_does_ret]. }
  induction n as [| n IH]; intros s p; destruct (Hs p) as [l Dl]; cbn [Dp83640LinkStatusGet].
  - exists (bool_decide (is_Some l) && negb (Z.land (into (reg PHY_BSR p) l) (u16 (Z.shiftl 1 1)) =? 0)), (next PHY_BSR p).
    split; [apply Hk |]. eapply does_bind; [apply Hr |]. cbn [into from_option id]. eapply does_bind; [exact Dl |].
    cbv zeta. destruct (bool_decide _ && _); apply hw_does_ret.
  - destruct (bool_decide (is_Some l) && negb (Z.land (into (reg PHY_BSR p) l) (u16 (Z.shiftl 1 1)) =? 0)) eqn:E.
    + do 2 eexists. split; [apply Hk |]. eapply does_bind; [apply Hr |]. cbn [into from_option id]. eapply does_bind; [exact Dl |]. cbv zeta. rewrite E. apply hw_does_ret.
    + destruct (IH (into (reg PHY_BSR p) l) (next PHY_BSR p)) as (b & p' & H' & D'). exists b, p'. split; [by etrans; [apply Hk |] |].
      eapply does_bind; [apply Hr |]. cbn [into from_option id]. eapply does_bind; [exact Dl |]. cbv zeta. rewrite E. exact D'.
Qed.

Lemma alive_does p c : does (MDIOPhyAliveStatusGet MDIO_0_BASE) p c (phy_alive p) p c.
Proof.
  intros d [w Hd]. destruct (bus_alive _ _ _ _ Hd) as (d' & E & Hd'). exists d'. split; [| by exists w]. unfold MDIOPhyAliveStatusGet, HWREG. by rewrite E.
Qed.

Lemma phy_init_does stale p c : exists p1 p2 e p' c',
  (forall d, idle d p c -> exists d', hdkif_phy_init fuel stale d = Some (e, d') /\ idle d' p' c')
  /\ looked p p1
  /\ if Z.testbit (phy_alive p1) 1 then looked p1 p2 /\ linked_up p2 c e p' c' else e = ERR_CONN /\ p' = p1 /\ c' = c.
Proof.
  destruct (read_id_does (Z.to_nat 0xFFFF) c p) as (v & p1 & H1 & D1). destruct (link_status_does (Z.to_nat 0xFFFF) c 0 p1) as (b & p2 & H2 & D2).
  destruct (link_setup_does stale p2 c) as (e & p' & c' & Hl & D3).
  assert (Et : (Z.land (Z.shiftr (phy_alive p1) 1) 0x01 =? 0) = negb (Z.testbit (phy_alive p1) 1)).
  { rewrite (land_bit_eq0 _ 0), Z.shiftr_spec by lia. done. }
  exists p1, p2. destruct (Z.testbit (phy_alive p1) 1) eqn:Ea; cbn [negb] in Et.
  - exists e, p', c'. split; [| done]. eapply does_bind; [exact D1 |]. eapply does_bind; [apply alive_does |]. rewrite Et.
    eapply does_bind; [exact D2 |]. eapply does_bind; [exact D3 |]. destruct Hl as (m & _ & _ & _ & Hm).
    destruct (able _); destruct Hm as [-> _]; [rewrite bool_decide_true by done | rewrite bool_decide_false by done]; apply hw_does_ret.
  - exists ERR_CONN, p1, c. split; [| done]. eapply does_bind; [exact D1 |]. eapply does_bind; [apply alive_does |]. rewrite Et. apply hw_does_ret.
Qed.

(** C16. The PHY at start-up.  With the registers behaving as their data sheets say and
    a PHY that answers, the PHY part of the initialisation ends, whatever the PHY
    does.  If the MDIO module does not see the PHY alive the result is an error and
    the negotiation is not started; otherwise it is restarted with all abilities on
    offer, watched till it is complete or for 65536 looks, and the result is success
    exactly if the last word read has the ability bit, which tells that the PHY can
    negotiate, not that it has.  With success the EMAC is put into full duplex
    exactly if the partner's word, as it then is, offers 100BASE-TX full duplex, and
    nothing else of [MACCONTROL] changes. *)
Theorem hdkif_phy_init_result stale p c : exists p1 p2 e p' c',
  (forall d, idle d p c -> exists d', hdkif_phy_init fuel stale d = Some (e, d') /\ idle d' p' c')
  /\ looked p p1
  /\ if Z.testbit (phy_alive p1) 1 then looked p1 p2 /\ linked_up p2 c e p' c' else e = ERR_CONN /\ p' = p1 /\ c' = c.
Proof. apply phy_init_does. Qed.
End Answering.
End Correct.

(** ** A chip *)

(** A PHY whose negotiation takes [ep_left] looks at the status; until then the
    partner's word is empty. *)
Record ex_phy := mk_ex_phy { ep_bcr : Z; ep_adv : Z; ep_left : nat; ep_partner : Z }.
Definition ex_status (p : ex_phy) : Z := if decide (ep_left p = 0%nat) then 0x002c else 0x0008.
#[export] Instance ex_phy_phy : Phy ex_phy := {|
  phy_read pa rn p :=
    if pa =? 1 then
      if rn =? PHY_BCR then (Some (u16 (ep_bcr p)), p)
      else if rn =? PHY_BSR then (Some (ex_status p), mk_ex_phy (ep_bcr p) (ep_adv p) (pred (ep_left p)) (ep_partner p))
      else if rn =? PHY_ID1 then (Some 0x2000, p)
      else if rn =? PHY_ID2 then (Some 0x5ce1, p)
      else if rn =? PHY_AUTONEG_ADV then (Some (u16 (ep_adv p)), p)
      else if rn =? PHY_LINK_PARTNER_ABLTY then (Some (if decide (ep_left p = 0%nat) then u16 (ep_partner p) else 0), p)
      else (Some 0, p)
    else (None, p);
  phy_write pa rn v p :=
    if rn =? PHY_BCR then mk_ex_phy v (ep_adv p) (ep_left p) (ep_partner p)
    else if rn =? PHY_AUTONEG_ADV then mk_ex_phy (ep_bcr p) v (ep_left p) (ep_partner p)
    else p;
  phy_alive p := 2;
  phy_linked p := if decide (ep_left p = 0%nat) then 2 else 0
|}.

(** The MDIO module in front of it takes two more looks for every command. *)
Record ex_chip := mk_ex_chip { ec_left : nat; ec_word : Z; ec_phy : ex_phy; ec_mac : Z }.
Definition ex_command (cmd : Z) (p : ex_phy) : Z * ex_phy :=
  let rn := Z.land (Z.shiftr cmd 21) 31 in
  let pa := Z.land (Z.shiftr cmd 16) 31 in
  if Z.testbit cmd 30 then (0, phy_write pa rn (Z.land cmd 0xFFFF) p)
  else match phy_read pa rn p with
       | (Some v, p) => (MDIO_USERACCESS0_ACK + v mod 65536, p)
       | (None, p) => (0, p)
       end.
#[export] Instance ex_chip_bus : Bus ex_chip := {|
  hw_read a d :=
    if a =? MDIO_0_BASE + MDIO_USERACCESS0 then
      match ec_left d with
      | O => (ec_word d, d)
      | S n => (MDIO_USERACCESS0_GO, mk_ex_chip n (ec_word d) (ec_phy d) (ec_mac d))
      end
    else if a =? MDIO_0_BASE + MDIO_ALIVE then (phy_alive (ec_phy d), d)
    else if a =? MDIO_0_BASE + MDIO_LINK then (phy_linked (ec_phy d), d)
    else if a =? EMAC_0_BASE + EMAC_MACCONTROL then (ec_mac d, d)
    else (0, d);
  hw_write a v d :=
    if a =? MDIO_0_BASE + MDIO_USERACCESS0 then
      let '(w, p) := ex_command v (ec_phy d) in mk_ex_chip 2 w p (ec_mac d)
    else if a =? EMAC_0_BASE + EMAC_MACCONTROL then mk_ex_chip (ec_left d) (ec_word d) (ec_phy d) v
    else d
|}.
Lemma ex_phy_range pa rn p v : fst (phy_read pa rn p) = Some v -> 0 <= v < 65536.
Proof.
  cbn [phy_read ex_phy_phy]. repeat (case_match; try done); cbn [fst]; intros [= <-]; try apply u16_range; try lia; unfold ex_status; case_decide; lia.
Qed.
Lemma ex_answers cmd p : let '(w, p') := ex_command cmd p in answers cmd p w p' /\ Z.testbit w 31 = false.
Proof.
  unfold ex_command, answers. destruct (Z.testbit cmd 30); [done |]. destruct (phy_read _ _ p) as [[v |] p'] eqn:E; [| done]. cbn [fst snd].
  pose proof (ex_phy_range (Z.land (Z.shiftr cmd 16) 31) (Z.land (Z.shiftr cmd 21) 31) p v ltac:(by rewrite E)) as Hv. rewrite (Z.mod_small v) by lia.
  change 0xFFFF with (Z.ones 16). rewrite Z.land_ones by lia. unfold MDIO_USERACCESS0_ACK.
  split_and!; [done | apply Z.testbit_true; [lia |] | | apply Z.testbit_false; [lia |]]; Z.div_mod_to_equations; lia.
Qed.
Definition ex_at (d : ex_chip) (n : nat) (w : Z) (p : ex_phy) (c : Z) : Prop :=
  ec_left d = n /\ ec_word d = w /\ ec_phy d = p /\ ec_mac d = c /\ Z.testbit w 31 = false.
#[export] Instance ex_chip_ok : BusOk ex_chip ex_phy.
Proof.
  refine (Build_BusOk _ _ _ _ ex_at 2 _ _ _ _ _ _ _).
  - intros d n w p c (En & Ew & Ep & Ec & Hw). cbn [hw_read ex_chip_bus]. rewrite Z.eqb_refl, En. do 2 eexists. split; [done |]. by rewrite Ew, Ep, Ec.
  - intros d w p c (En & Ew & Ep & Ec & Hw). cbn [hw_read ex_chip_bus]. rewrite Z.eqb_refl, En, Ew. by eexists.
  - intros d w p c cmd (En & Ew & Ep & Ec & Hw) Hc. cbn [hw_write ex_chip_bus]. rewrite Z.eqb_refl, Ep. pose proof (ex_answers cmd p) as Ha.
    destruct (ex_command cmd p) as [w' p']. destruct Ha as [Ha Hg]. by exists 2%nat, w', p'.
  - intros d w p c (En & Ew & Ep & Ec & Hw). exists d. cbn. by rewrite Ep.
  - intros d w p c (En & Ew & Ep & Ec & Hw). exists d. cbn. by rewrite Ep.
  - intros d w p c (En & Ew & Ep & Ec & Hw). exists d. cbn. by rewrite Ec.
  - intros d w p c v (En & Ew & Ep & Ec & Hw). done.
Defined.

Lemma ex_enough : (busy_max (D := ex_chip) (P := ex_phy) < 3)%nat.
Proof. cbn. lia. Qed.

Definition ex_slow (left : nat) : ex_chip := mk_ex_chip 0 0 (mk_ex_phy 0 0 left 0x41e1) 0.
(** The partner offers full duplex.  A negotiation of 9 looks ends in full duplex;
    one of 200000 is taken for done, in half duplex. *)
Example ex_negotiated : (r ← hdkif_phy_init 3 0 (ex_slow 9); Some (fst r, ec_mac (snd r))) = Some (ERR_OK, EMAC_DUPLEX_FULL).
Proof. vm_compute. reflexivity. Qed.
Lemma ex_answering rn (p : ex_phy) : 0 <= rn < 32 -> exists v, fst (phy_read 1 rn p) = Some v /\ 0 <= v < 65536.
Proof.
  intros _. destruct (fst (phy_read 1 rn p)) as [v |] eqn:E; [exists v; split; [done | by apply (ex_phy_range 1 rn p)] |].
  exfalso. revert E. cbn. repeat (case_match; try done).
Qed.
Lemma ex_watched n (p : ex_phy) : ep_left (watched n p) = (ep_left p - n)%nat.
Proof. induction n as [| n IH]; [by rewrite Nat.sub_0_r |]. change (pred (ep_left (watched n p)) = (ep_left p - S n)%nat). rewrite IH. lia. Qed.
Example ex_not_negotiated : exists d, hdkif_link_setup 3 0 (ex_slow (Z.to_nat 200000)) = Some (ERR_OK, d) /\ ec_mac d = EMAC_DUPLEX_HALF.
Proof.
  destruct (link_setup_does (D := ex_chip) (P := ex_phy) 3 ex_enough ex_answering 0 (ec_phy (ex_slow (Z.to_nat 200000))) 0) as (e & p' & c' & (m & Hm & _ & Hc & Hr) & Hd).
  destruct (Hd (ex_slow (Z.to_nat 200000))) as (d & E & w & _ & _ & _ & Hmac & _); [by exists 0 |]. rewrite E. clear E. exists d. rewrite Hmac.
  set (q := restarted OFFER _) in *.
  assert (Hl : forall n, Z.of_nat n <= 65536 -> ep_left (watched n q) <> 0%nat) by (intros n Hn; rewrite ex_watched; subst q; change (ep_left (restarted OFFER (ec_phy (ex_slow (Z.to_nat 200000))))) with (Z.to_nat 200000); lia).
  clearbody q. clear Hc.
  assert (Hs : reg PHY_BSR (watched (m - 1) q) = 0x0008).
  { specialize (Hl (m - 1)%nat ltac:(lia)). unfold reg. cbn. unfold ex_status. by rewrite decide_False. }
  rewrite Hs in Hr. cbn [able] in Hr. destruct Hr as (-> & _ & ->). split; [done |].
  assert (Hp : reg PHY_LINK_PARTNER_ABLTY (watched m q) = 0); [| by rewrite Hp].
  specialize (Hl m ltac:(lia)). unfold reg. cbn. by rewrite decide_False.
Qed.

Lemma hdkif_phy_init_result_witness : exists p1 p2 e p' c',
  (exists d', hdkif_phy_init 3 0 (ex_slow 9) = Some (e, d') /\ idle d' p' c') /\ looked (ec_phy (ex_slow 9)) p1
  /\ if Z.testbit (phy_alive p1) 1 then looked p1 p2 /\ linked_up p2 0 e p' c' else e = ERR_CONN /\ p' = p1 /\ c' = 0.
Proof.
  destruct (hdkif_phy_init_result (D := ex_chip) (P := ex_phy) 3 ex_enough
    ex_answering 0 (ec_phy (ex_slow 9)) 0) as (p1 & p2 & e & p' & c' & Hd & Hl & Hr).
  exists p1, p2, e, p', c'. split; [apply Hd; by exists 0 |]. split; [exact Hl | exact Hr].
Defined.
