(* ===== verification/EmacTx.v ===== *)
(** * The transmit descriptors of the EMAC driver (ports/hdk/netif/hdkif.c)

    The ring of buffer descriptors in the EMAC's RAM, the output function that
    fills them and the transmit interrupt that takes them back, on the pbufs in
    memory of PbufRef.v.  Descriptors are numbered; the words are kept as the EMAC
    reads them ([hdkif_swizzle_data] turns the bytes of a word over on every access
    of the processor and is its own inverse).  The EMAC is not code of the
    repository: what it does while the driver waits for it is a parameter [dma],
    with the behaviour of its data sheet as hypotheses. *)

From stdpp Require Import gmultiset.
From S2P Require Import Prelude Memp Pbuf Heap Net PbufRef.

(** [hdkif_swizzle_data]. *)
Definition hdkif_swizzle_data (word : Z) : Z :=
  Z.lor (Z.lor (Z.lor (Z.land (u32 (Z.shiftl word 24)) 0xFF000000) (Z.land (u32 (Z.shiftl word 8)) 0x00FF0000))
    (Z.land (Z.shiftr word 8) 0x0000FF00)) (Z.land (Z.shiftr word 24) 0x000000FF).

Definition EMAC_BUF_DESC_OWNER : Z := 0x20000000.
Definition EMAC_BUF_DESC_SOP : Z := 0x80000000.
Definition EMAC_BUF_DESC_EOP : Z := 0x40000000.
Definition EMAC_BUF_DESC_EOQ : Z := 0x10000000.

(** [struct emac_tx_bdp]; a buffer is a pbuf with the offset of its payload. *)
Record txbd := mk_txbd {
  td_next : option nat;
  td_bufptr : option (pptr * Z);
  td_bufoff_len : Z;
  td_flags : Z;
  td_pbuf : option pptr
}.

(** The channel, the registers [TXHDP] and [TXCP] and the pbufs. *)
Record txch := mk_txch {
  tx_bds : list txbd;
  free_head : option nat;
  active_tail : option nat;
  next_bd_to_process : option nat;
  tx_hdp : option nat;
  tx_cp : option nat;
  tx_store : pstore
}.

Definition upd_bds f t := mk_txch (f (tx_bds t)) (free_head t) (active_tail t) (next_bd_to_process t) (tx_hdp t) (tx_cp t) (tx_store t).
Definition set_free_head x t := mk_txch (tx_bds t) x (active_tail t) (next_bd_to_process t) (tx_hdp t) (tx_cp t) (tx_store t).
Definition set_active_tail x t := mk_txch (tx_bds t) (free_head t) x (next_bd_to_process t) (tx_hdp t) (tx_cp t) (tx_store t).
Definition set_next_proc x t := mk_txch (tx_bds t) (free_head t) (active_tail t) x (tx_hdp t) (tx_cp t) (tx_store t).
Definition set_hdp x t := mk_txch (tx_bds t) (free_head t) (active_tail t) (next_bd_to_process t) x (tx_cp t) (tx_store t).
Definition set_cp x t := mk_txch (tx_bds t) (free_head t) (active_tail t) (next_bd_to_process t) (tx_hdp t) x (tx_store t).
Definition put_store s t := mk_txch (tx_bds t) (free_head t) (active_tail t) (next_bd_to_process t) (tx_hdp t) (tx_cp t) s.

Definition td_set_next n d := mk_txbd n (td_bufptr d) (td_bufoff_len d) (td_flags d) (td_pbuf d).
Definition td_set_flags f d := mk_txbd (td_next d) (td_bufptr d) (td_bufoff_len d) f (td_pbuf d).
Definition td_set_buf a l p d := mk_txbd (td_next d) (Some a) l (td_flags d) (Some p).

(** A store through a descriptor pointer; [None] for the null pointer or an
    address outside the ring. *)
Definition upd_bd (i : nat) (f : txbd -> txbd) (t : txch) : option txch :=
  _ ← tx_bds t !! i; Some (upd_bds (alter f i) t).
Definition flag (f word : Z) : bool := negb (Z.land word f =? 0).

(** ** Initialisation *)

Definition SIZE_EMAC_CTRL_RAM : Z := 0x2000.
(** [sizeof(emac_tx_bdp)] is 20. *)
Definition num_bd : nat := Z.to_nat (Z.shiftr SIZE_EMAC_CTRL_RAM 1 / 20).

(** The transmit part of [hdkif_hw_init], on whatever the RAM holds. *)
Fixpoint init_txbds (n curr : nat) (bds : list txbd) : list txbd :=
  match n with
  | O => bds
  | S n => init_txbds n (S curr) (alter (fun d => td_set_flags 0 (td_set_next (Some (S curr)) d)) curr bds)
  end.
Definition hdkif_hw_init_tx (ram : list txbd) (s : pstore) : txch :=
  let bds := init_txbds num_bd 0 ram in
  mk_txch (alter (td_set_next (Some 0%nat)) (pred num_bd) bds) (Some 0%nat) None (Some 0%nat) None None s.

(** ** Output *)

Section Driver.
Context (dma : txch -> txch).

(** The busy waits: for a flag of a descriptor, and for an idle channel.  When the
    EMAC has nothing more to do and the condition does not hold they last. *)
Definition wait_flag (f : Z) (want : bool) (i : nat) (t : txch) : option txch :=
  let holds t := match tx_bds t !! i with Some d => Bool.eqb (flag f (td_flags d)) want | None => false end in
  if holds t then Some t else if holds (dma t) then Some (dma t) else None.
Definition wait_hdp (t : txch) : option txch :=
  match tx_hdp t with
  | None => Some t
  | Some _ => match tx_hdp (dma t) with None => Some (dma t) | Some _ => None end
  end.

(** The loop of [hdkif_transmit] over the pbufs of the packet. *)
Fixpoint fill (fuel : nat) (pbuf : pptr) (q : option pptr) (curr bd_end : option nat) (t : txch)
  : option (option nat * option nat * txch) :=
  match q with
  | None => Some (curr, bd_end, t)
  | Some q =>
      match fuel with
      | O => None
      | S fuel =>
          b ← ps_mem (tx_store t) !! q;
          c ← curr;
          t ← upd_bd c (td_set_buf (q, sp_payload b) (Z.land (sp_len b) 0xFFFF) pbuf) t;
          d ← tx_bds t !! c;
          fill fuel pbuf (sp_next b) (td_next d) (Some c) t
      end
  end.

(** [hdkif_transmit]: the packet in the free descriptors, terminated, then queued
    behind the one before it. *)
Definition put_packet (pbuf : pptr) (t : txch) : option (nat * nat * txch) :=
  active_head ← free_head t;
  b ← ps_mem (tx_store t) !! pbuf;
  t ← upd_bd active_head (td_set_flags (Z.lor (sp_tot_len b) (Z.lor EMAC_BUF_DESC_SOP EMAC_BUF_DESC_OWNER))) t;
  '(curr, bd_end, t) ← fill (store_fuel (tx_store t)) pbuf (Some pbuf) (Some active_head) None t;
  bd_end ← bd_end;
  t ← upd_bd bd_end (td_set_next None) t;
  t ← upd_bd bd_end (fun d => td_set_flags (Z.lor (td_flags d) EMAC_BUF_DESC_EOP) d) t;
  Some (active_head, bd_end, set_free_head curr t).
Definition hdkif_transmit (pbuf : pptr) (t : txch) : option txch :=
  '(active_head, bd_end, t) ← put_packet pbuf t;
  t ← match active_tail t with
      | None => Some (set_hdp (Some active_head) t)
      | Some tail =>
          t ← wait_flag EMAC_BUF_DESC_EOQ true tail t;
          t ← wait_hdp t;
          t ← upd_bd tail (td_set_next (Some active_head)) t;
          d ← tx_bds t !! tail;
          Some (if flag EMAC_BUF_DESC_EOQ (td_flags d) then set_hdp (Some active_head) t else t)
      end;
  Some (set_active_tail (Some bd_end) t).

(** [hdkif_output]: pads by setting the lengths, takes a reference, transmits. *)
Definition hdkif_output_bds (p : pptr) (t : txch) : option txch :=
  b ← ps_mem (tx_store t) !! p;
  let s := tx_store t in
  let s := if sp_tot_len b <? MIN_PKT_LEN then put_pbuf p (with_lens MIN_PKT_LEN MIN_PKT_LEN b) s else s in
  '(_, s) ← pbuf_ref (Some p) s;
  hdkif_transmit p (put_store s t).

(** ** The transmit interrupt *)

(** The walk to the end of the packet. *)
Fixpoint walk_eop (fuel : nat) (curr : option nat) (t : txch) : option nat :=
  match fuel with
  | O => None
  | S fuel =>
      c ← curr; d ← tx_bds t !! c;
      if flag EMAC_BUF_DESC_EOP (td_flags d) then Some c else walk_eop fuel (td_next d) t
  end.
(** One packet. *)
Definition tx_packet (start : nat) (t : txch) : option txch :=
  t ← wait_flag EMAC_BUF_DESC_OWNER false start t;
  curr ← walk_eop num_bd (Some start) t;
  t ← upd_bd start (fun d => td_set_flags (Z.land (td_flags d) (not32 EMAC_BUF_DESC_SOP)) d) t;
  t ← upd_bd curr (fun d => td_set_flags (Z.land (td_flags d) (not32 EMAC_BUF_DESC_EOP)) d) t;
  d ← tx_bds t !! curr;
  let t := set_next_proc (match td_next d with None => free_head t | Some n => Some n end) t in
  let t := set_cp (Some curr) t in
  '(_, s) ← pbuf_free (td_pbuf d) (tx_store t);
  Some (put_store s t).
(** The loop of [hdkif_tx_inthandler]: as long as a packet starts at the next
    descriptor.  The ring has no more packets than descriptors. *)
Fixpoint tx_loop (fuel : nat) (t : txch) : option txch :=
  curr ← next_bd_to_process t;
  d ← tx_bds t !! curr;
  if flag EMAC_BUF_DESC_SOP (td_flags d) then
    match fuel with O => None | S fuel => t ← tx_packet curr t; tx_loop fuel t end
  else Some t.
Definition hdkif_tx_inthandler (t : txch) : option txch := tx_loop num_bd t.
End Driver.

(** ** The words *)

Lemma flag_bit k w : 0 <= k -> flag (Z.shiftl 1 k) w = Z.testbit w k.
Proof. intros Hk. unfold flag. by rewrite land_bit_eq0, negb_involutive. Qed.
Lemma flag_bits w : flag EMAC_BUF_DESC_SOP w = Z.testbit w 31 /\ flag EMAC_BUF_DESC_EOP w = Z.testbit w 30
  /\ flag EMAC_BUF_DESC_OWNER w = Z.testbit w 29 /\ flag EMAC_BUF_DESC_EOQ w = Z.testbit w 28.
Proof. repeat split; [apply (flag_bit 31) | apply (flag_bit 30) | apply (flag_bit 29) | apply (flag_bit 28)]; done. Qed.

(** The byte of a bit. *)
Definition turned (n : Z) : Z := 8 * (3 - n / 8) + n mod 8.
Lemma swizzle_bit w n : 0 <= n < 32 -> Z.testbit (hdkif_swizzle_data w) n = Z.testbit w (turned n).
Proof.
  intros Hn. unfold hdkif_swizzle_data, u32. change 4294967296 with (2 ^ 32).
  rewrite !Z.lor_spec, !Z.land_spec, !Z.mod_pow2_bits_low, !Z.shiftl_spec, !Z.shiftr_spec by lia.
  assert (Hc : n ∈ seqZ 0 32) by (apply elem_of_seqZ; lia). revert Hc. cbn [seqZ]. vm_compute (seqZ 0 32).
  intros Hc. repeat (apply elem_of_cons in Hc as [-> | Hc]); try by apply elem_of_nil in Hc.
  all: cbn -[Z.testbit]; rewrite ?andb_false_r, ?andb_true_r, ?orb_false_r, ?orb_false_l; try done.
Qed.

Lemma swizzle_high w n : 32 <= n -> Z.testbit (hdkif_swizzle_data w) n = false.
Proof.
  intros Hn. unfold hdkif_swizzle_data. rewrite !Z.lor_spec, !Z.land_spec.
  pose proof (fun c H => testbit_above c 32 n H Hn) as Hz.
  rewrite (Hz 0xFF000000), (Hz 0x00FF0000), (Hz 0x0000FF00), (Hz 0xFF) by done. by rewrite !andb_false_r.
Qed.

(** A descriptor's word read back is the word written: turning the four bytes
    over twice is no change, for every 32-bit word. *)
Theorem hdkif_swizzle_involutive w (Hw : is_u32 w) : hdkif_swizzle_data (hdkif_swizzle_data w) = w.
Proof.
  apply Z.bits_inj'. intros n Hn. destruct (Z.lt_ge_cases n 32) as [Hlt | Hge].
  - assert (Ht : 0 <= turned n < 32) by (unfold turned; Z.div_mod_to_equations; lia).
    rewrite !swizzle_bit by done. f_equal. unfold turned. Z.div_mod_to_equations; lia.
  - rewrite swizzle_high, (testbit_above w 32) by done. done.
Qed.
Lemma hdkif_swizzle_involutive_witness : hdkif_swizzle_data 0x80000040 = 0x40000080 /\ hdkif_swizzle_data (hdkif_swizzle_data 0x80000040) = 0x80000040.
Proof. split; [done |]. by apply hdkif_swizzle_involutive. Defined.

(** ** The ring *)

(** Descriptors linked in order, the last one to [e]. *)
Definition hd_or (e : option nat) (l : list nat) : option nat := match l with [] => e | i :: _ => Some i end.
Fixpoint linked (bds : list txbd) (l : list nat) (e : option nat) : Prop :=
  match l with [] => True | i :: l => td_next <$> bds !! i = Some (hd_or e l) /\ linked bds l e end.
(** What the first and the last descriptor of a packet carry, and no other. *)
Definition word (bds : list txbd) (i : nat) : Z := from_option td_flags 0 (bds !! i).
Definition bit (f : Z) (bds : list txbd) (i : nat) : bool := flag f (word bds i).
Fixpoint marked (bds : list txbd) (first : bool) (c : list nat) : Prop :=
  match c with
  | [] => True
  | i :: c => bit EMAC_BUF_DESC_SOP bds i = first /\ bit EMAC_BUF_DESC_EOP bds i = bool_decide (c = []) /\ marked bds false c
  end.
Definition clear (bds : list txbd) (i : nat) : Prop := bit EMAC_BUF_DESC_SOP bds i = false /\ bit EMAC_BUF_DESC_EOP bds i = false.

(** A packet in the ring: the pbuf and its descriptors. *)
Notation packet := (pptr * list nat)%type.
Definition packet_ok (bds : list txbd) (k : packet) : Prop :=
  snd k <> [] /\ marked bds true (snd k) /\ exists e d, last (snd k) = Some e /\ bds !! e = Some d /\ td_pbuf d = Some (fst k).
Definition sent (bds : list txbd) (k : packet) : Prop := forall h, head (snd k) = Some h -> bit EMAC_BUF_DESC_OWNER bds h = false.
Definition used (q : list packet) : list nat := mjoin (snd <$> q).
Definition pkts (q : list packet) : gmultiset pptr := list_to_set_disj (fst <$> q).

(** At most the last packet is with the EMAC; when none is, the last descriptor of
    all says so. *)
Record queue_ok (t : txch) (q : list packet) : Prop := {
  qk_packets : Forall (packet_ok (tx_bds t)) q;
  qk_linked : linked (tx_bds t) (used q) None;
  qk_tail : q <> [] -> active_tail t = last (used q);
  qk_dma : match tx_hdp t with
    | None => Forall (sent (tx_bds t)) q /\ forall e, active_tail t = Some e -> bit EMAC_BUF_DESC_EOQ (tx_bds t) e = true
    | Some h => exists q' p c, q = q' ++ [(p, h :: c)] /\ Forall (sent (tx_bds t)) q' /\ bit EMAC_BUF_DESC_OWNER (tx_bds t) h = true
    end
}.

(** The channel between calls: [free] are the free descriptors in the order they
    are filled, [q] the packets not yet taken back, each with a reference; the
    stack holds [ext]. *)
Record tx_ok (ext : gmultiset pptr) (t : txch) (q : list packet) (free : list nat) : Prop := {
  tk_NoDup : NoDup (free ++ used q);
  tk_length : length (free ++ used q) = num_bd;
  tk_free : free <> [];
  tk_head : free_head t = head free;
  tk_next : next_bd_to_process t = head (used q ++ free);
  tk_ring : match active_tail t with
    | None => q = [] /\ linked (tx_bds t) free (head free)
    | Some e => linked (tx_bds t) (free ++ used q) None /\ last (free ++ used q) = Some e
    end;
  tk_clear : Forall (clear (tx_bds t)) free;
  tk_queue : queue_ok t q;
  tk_store : store_at kind_ok (pkts q ⊎ ext) (tx_store t)
}.

(** What the EMAC has done when it is done with the packet at [h] that ends at [e]:
    it gives the packet back, marks the end of the queue and is idle. *)
Definition transmitted (h e : nat) (t : txch) : txch :=
  set_hdp None (set_cp (Some e) (upd_bds (fun bds =>
    alter (fun d => td_set_flags (Z.lor (td_flags d) EMAC_BUF_DESC_EOQ) d) e
      (alter (fun d => td_set_flags (Z.land (td_flags d) (not32 EMAC_BUF_DESC_OWNER)) d) h bds)) t)).
(** The EMAC as its data sheet has it, for a queue of one packet. *)
Class Emac (dma : txch -> txch) : Prop := {
  emac_idle : forall t, tx_hdp t = None -> dma t = t;
  emac_packet : forall t h c e, tx_hdp t = Some h -> linked (tx_bds t) (h :: c) None -> marked (tx_bds t) true (h :: c) ->
    last (h :: c) = Some e -> bit EMAC_BUF_DESC_OWNER (tx_bds t) h = true -> dma t = transmitted h e t
}.

(** ** Lemmas on the ring *)

Lemma linked_app bds l1 l2 e : linked bds (l1 ++ l2) e <-> linked bds l1 (hd_or e l2) /\ linked bds l2 e.
Proof.
  induction l1 as [| i l1 IH]; cbn; [tauto |]. rewrite IH. replace (hd_or e (l1 ++ l2)) with (hd_or (hd_or e l2) l1) by (by destruct l1). tauto.
Qed.
Lemma linked_ext bds bds' l e : (forall i, i ∈ l -> td_next <$> bds' !! i = td_next <$> bds !! i) -> linked bds l e -> linked bds' l e.
Proof.
  induction l as [| i l IH]; cbn; [done |]. intros Hb [Hi Hl]. rewrite Hb by left.
  split; [done |]. apply IH; [| done]. intros j Hj. apply Hb. by right.
Qed.
(** The last link changed. *)
Lemma linked_relink bds bds' l x e e' : NoDup l -> last l = Some x -> linked bds l e ->
  (forall i, i ∈ l -> i <> x -> td_next <$> bds' !! i = td_next <$> bds !! i) -> td_next <$> bds' !! x = Some e' -> linked bds' l e'.
Proof.
  intros Hnd [l' ->]%last_Some [Hl _]%linked_app Hb Hx. apply linked_app. split; [| done].
  apply NoDup_app in Hnd as (_ & Hni & _). apply (linked_ext bds); [| done].
  intros i Hi. apply Hb; [set_solver |]. intros ->. by apply (Hni x Hi), list_elem_of_singleton.
Qed.
Lemma linked_in bds l e i : linked bds l e -> i ∈ l -> exists d, bds !! i = Some d.
Proof.
  induction l as [| j l IH]; cbn; [by intros _ ?%elem_of_nil |]. intros [Hj Hl] [-> | Hi]%elem_of_cons; [| by apply IH].
  apply fmap_Some in Hj as (d & ? & _). eauto.
Qed.

(** Descriptors that differ in nothing the driver follows. *)
Record same_marks (bds bds' : list txbd) (i : nat) : Prop := {
  sm_pbuf : td_pbuf <$> bds' !! i = td_pbuf <$> bds !! i;
  sm_sop : bit EMAC_BUF_DESC_SOP bds' i = bit EMAC_BUF_DESC_SOP bds i;
  sm_eop : bit EMAC_BUF_DESC_EOP bds' i = bit EMAC_BUF_DESC_EOP bds i
}.
Record alike (bds bds' : list txbd) (i : nat) : Prop := {
  al_next : td_next <$> bds' !! i = td_next <$> bds !! i;
  al_marks : same_marks bds bds' i
}.
Lemma alike_eq bds bds' i : bds' !! i = bds !! i -> alike bds bds' i.
Proof. intros E. split; [by rewrite E |]. by split; unfold bit, word; rewrite E. Qed.
Lemma relink_marks n j bds i : same_marks bds (alter (td_set_next n) j bds) i /\
  forall f, bit f (alter (td_set_next n) j bds) i = bit f bds i.
Proof.
  unfold bit, word. destruct (decide (i = j)) as [-> | Hne].
  - by split; [split |]; unfold bit, word; rewrite list_lookup_alter_eq; destruct (bds !! j).
  - by split; [split |]; unfold bit, word; rewrite list_lookup_alter_ne.
Qed.

Lemma marked_ext bds bds' b c : (forall i, i ∈ c -> same_marks bds bds' i) -> marked bds b c -> marked bds' b c.
Proof.
  revert b. induction c as [| i c IH]; cbn; [done |]. intros b Ha (Hs & He & Hc).
  destruct (Ha i) as [_ -> ->]; [left |]. split; [done |]. split; [done |]. apply IH; [| done]. intros j Hj. apply Ha. by right.
Qed.
Lemma packet_ext bds bds' k : (forall i, i ∈ snd k -> same_marks bds bds' i) -> packet_ok bds k -> packet_ok bds' k.
Proof.
  intros Ha (Hne & Hm & e & d & He & Hd & Hp). split; [done |]. split; [by apply (marked_ext bds) |].
  destruct (Ha e) as [Hpb _ _]; [apply last_Some in He as [l ->]; set_solver |].
  rewrite Hd in Hpb. apply fmap_Some in Hpb as (d' & Hd' & Ed). exists e, d'. rewrite <- Ed. done.
Qed.
Lemma clear_ext bds bds' i : same_marks bds bds' i -> clear bds i -> clear bds' i.
Proof. unfold clear. by intros [_ -> ->]. Qed.

Lemma used_app q1 q2 : used (q1 ++ q2) = used q1 ++ used q2.
Proof. unfold used. by rewrite fmap_app, join_app. Qed.
Lemma used_cons p c q : used ((p, c) :: q) = c ++ used q.
Proof. done. Qed.
Lemma used_elem q k i : k ∈ q -> i ∈ snd k -> i ∈ used q.
Proof. intros Hk Hi. unfold used. apply list_elem_of_join. exists (snd k). split; [done |]. by apply list_elem_of_fmap_2. Qed.
Lemma queue_length t q : Forall (packet_ok (tx_bds t)) q -> (length q <= length (used q))%nat.
Proof.
  induction 1 as [| [p c] q (Hne & _) _ IH]; [done |]. rewrite used_cons, length_app. destruct c; [done |]. cbn. lia.
Qed.

(** The walk over a packet ends at its last descriptor. *)
Lemma walk_ok t e c : forall fuel h b n, linked (tx_bds t) (h :: c) n -> marked (tx_bds t) b (h :: c) -> last (h :: c) = Some e ->
  (length c < fuel)%nat -> walk_eop fuel (Some h) t = Some e.
Proof.
  induction c as [| j c IH]; intros [| fuel] h b n Hl Hm He Hf; try (cbn in Hf; lia);
    destruct Hl as [(d & Hd & En)%fmap_Some Hl], Hm as (_ & Hm & Hc); unfold bit, word in Hm; rewrite Hd in Hm; cbn in Hm |- *;
    rewrite Hd; cbn; rewrite Hm.
  - done.
  - rewrite <- En. apply (IH fuel j false n); [done | done | done | cbn in Hf; lia].
Qed.

(** ** The EMAC at work *)

Lemma alter_flags (g : Z -> Z) (bds : list txbd) (j i : nat) : (alter (fun d => td_set_flags (g (td_flags d)) d) j bds) !! i
  = (fun d => if decide (i = j) then td_set_flags (g (td_flags d)) d else d) <$> bds !! i.
Proof.
  destruct (decide (i = j)) as [-> | Hne]; [by rewrite list_lookup_alter_eq |].
  rewrite list_lookup_alter_ne by done. by destruct (bds !! i).
Qed.
Lemma alike_flags (g : Z -> Z) (bds : list txbd) (j i : nat) : (forall w, Z.testbit (g w) 31 = Z.testbit w 31 /\ Z.testbit (g w) 30 = Z.testbit w 30) ->
  alike bds (alter (fun d => td_set_flags (g (td_flags d)) d) j bds) i.
Proof.
  intros Hg. pose proof (fun w => proj1 (flag_bits w)) as Fs. pose proof (fun w => proj1 (proj2 (flag_bits w))) as Fe.
  split; [| split]; unfold bit, word; rewrite alter_flags; destruct (bds !! i) as [d |], (decide (i = j)); try done; cbn.
  - rewrite !Fs. apply Hg.
  - rewrite !Fe. apply Hg.
Qed.
Lemma alike_trans a b c i : alike a b i -> alike b c i -> alike a c i.
Proof. intros [? []] [? []]. split; [congruence |]. split; congruence. Qed.

Lemma transmitted_alike h e t i : alike (tx_bds t) (tx_bds (transmitted h e t)) i.
Proof.
  cbn. eapply alike_trans; [| apply (alike_flags (fun w => Z.lor w EMAC_BUF_DESC_EOQ))].
  - apply (alike_flags (fun w => Z.land w (not32 EMAC_BUF_DESC_OWNER))). intros w. by rewrite !Z.land_spec, !andb_true_r.
  - intros w. by rewrite !Z.lor_spec, !orb_false_r.
Qed.
Lemma transmitted_owner h e t i : bit EMAC_BUF_DESC_OWNER (tx_bds t) i = false \/ i = h ->
  bit EMAC_BUF_DESC_OWNER (tx_bds (transmitted h e t)) i = false.
Proof.
  unfold bit, word. cbn. rewrite (alter_flags (fun w => Z.lor w EMAC_BUF_DESC_EOQ)).
  rewrite (alter_flags (fun w => Z.land w (not32 EMAC_BUF_DESC_OWNER))).
  pose proof (fun w => proj1 (proj2 (proj2 (flag_bits w)))) as Fo. destruct (tx_bds t !! i) as [d |]; [| done]. cbn. rewrite !Fo.
  intros H. destruct (decide (i = h)), (decide (i = e)); cbn -[Z.testbit]; rewrite ?Z.lor_spec, ?Z.land_spec;
    change (Z.testbit EMAC_BUF_DESC_EOQ 29) with false; change (Z.testbit (not32 EMAC_BUF_DESC_OWNER) 29) with false;
    rewrite ?andb_false_r, ?orb_false_r; try done; by destruct H.
Qed.
Lemma transmitted_eoq h e t d : tx_bds t !! e = Some d -> bit EMAC_BUF_DESC_EOQ (tx_bds (transmitted h e t)) e = true.
Proof.
  intros Hd. unfold bit, word. cbn. rewrite (alter_flags (fun w => Z.lor w EMAC_BUF_DESC_EOQ)).
  rewrite (alter_flags (fun w => Z.land w (not32 EMAC_BUF_DESC_OWNER))), Hd. cbn. rewrite decide_True by done. cbn.
  destruct (flag_bits (Z.lor (td_flags (if decide (e = h) then td_set_flags (Z.land (td_flags d) (not32 EMAC_BUF_DESC_OWNER)) d else d)) EMAC_BUF_DESC_EOQ)) as (_ & _ & _ & ->).
  rewrite Z.lor_spec. apply orb_true_r.
Qed.

(** Taking a packet back: its marks cleared. *)
Definition unmark (h e : nat) (bds : list txbd) : list txbd :=
  alter (fun d => td_set_flags (Z.land (td_flags d) (not32 EMAC_BUF_DESC_EOP)) d) e
    (alter (fun d => td_set_flags (Z.land (td_flags d) (not32 EMAC_BUF_DESC_SOP)) d) h bds).
Lemma unmark_at h e bds i d : bds !! i = Some d -> exists w, unmark h e bds !! i = Some (td_set_flags w d)
  /\ (forall k, 0 <= k < 30 -> Z.testbit w k = Z.testbit (td_flags d) k)
  /\ Z.testbit w 31 = (if decide (i = h) then false else Z.testbit (td_flags d) 31)
  /\ Z.testbit w 30 = (if decide (i = e) then false else Z.testbit (td_flags d) 30).
Proof.
  intros Hd. unfold unmark. rewrite (alter_flags (fun w => Z.land w (not32 EMAC_BUF_DESC_EOP))).
  rewrite (alter_flags (fun w => Z.land w (not32 EMAC_BUF_DESC_SOP))), Hd.
  assert (Hk : forall k, 0 <= k < 30 -> Z.testbit (not32 EMAC_BUF_DESC_EOP) k = true /\ Z.testbit (not32 EMAC_BUF_DESC_SOP) k = true).
  { intros k Hk. assert (Hs : k ∈ seqZ 0 30) by (apply elem_of_seqZ; lia). revert Hs. vm_compute (seqZ 0 30). intros Hs.
    repeat (apply elem_of_cons in Hs as [-> | Hs]; [by split |]). by apply elem_of_nil in Hs. }
  destruct d as [n p l w o]. destruct (decide (i = h)), (decide (i = e)); eexists; cbn -[Z.testbit]; (split; [done |]);
    (split; [intros k Hlt; destruct (Hk k Hlt) as [H1 H2]; rewrite ?Z.land_spec, ?H1, ?H2, ?andb_true_r; done |]);
    rewrite ?Z.land_spec; cbn -[Z.testbit]; change (Z.testbit (not32 EMAC_BUF_DESC_EOP) 30) with false;
    change (Z.testbit (not32 EMAC_BUF_DESC_EOP) 31) with true; change (Z.testbit (not32 EMAC_BUF_DESC_SOP) 30) with true;
    change (Z.testbit (not32 EMAC_BUF_DESC_SOP) 31) with false; by rewrite ?andb_false_r, ?andb_true_r.
Qed.

Lemma unmark_other h e bds i : i <> h -> i <> e -> unmark h e bds !! i = bds !! i.
Proof. intros Hh He. unfold unmark. by rewrite !list_lookup_alter_ne. Qed.
Lemma unmark_keeps h e bds i : td_next <$> unmark h e bds !! i = td_next <$> bds !! i
  /\ bit EMAC_BUF_DESC_OWNER (unmark h e bds) i = bit EMAC_BUF_DESC_OWNER bds i
  /\ bit EMAC_BUF_DESC_EOQ (unmark h e bds) i = bit EMAC_BUF_DESC_EOQ bds i.
Proof.
  destruct (bds !! i) as [d |] eqn:E.
  - destruct (unmark_at h e bds i d E) as (w & Hw & Hk & _). unfold bit, word. rewrite Hw, E. cbn -[flag].
    destruct (flag_bits w) as (_ & _ & -> & ->), (flag_bits (td_flags d)) as (_ & _ & -> & ->). rewrite !Hk by lia. done.
  - unfold bit, word. assert (unmark h e bds !! i = None) as -> by (apply lookup_ge_None; unfold unmark;
      rewrite !length_alter; by apply lookup_ge_None). by rewrite E.
Qed.
Lemma marked_first bds i c : marked bds false c -> i ∈ c -> bit EMAC_BUF_DESC_SOP bds i = false.
Proof.
  induction c as [| j c IH]; [by intros _ ?%elem_of_nil |]. cbn. intros (Hs & _ & Hc) [-> | Hi]%elem_of_cons; [done | by apply IH].
Qed.
Lemma marked_last bds b i c : marked bds b c -> i ∈ c -> last c = Some i \/ bit EMAC_BUF_DESC_EOP bds i = false.
Proof.
  revert b. induction c as [| j c IH]; [by intros ? _ ?%elem_of_nil |]. intros b (_ & He & Hc) [-> | Hi]%elem_of_cons.
  - destruct c; [by left |]. right. rewrite He. by apply bool_decide_eq_false.
  - destruct (IH false Hc Hi) as [Hl | Hf]; [left | by right]. by destruct c.
Qed.
Lemma unmark_clear bds h c e i : marked bds true (h :: c) -> last (h :: c) = Some e -> i ∈ h :: c -> clear (unmark h e bds) i.
Proof.
  intros Hm He Hi. unfold clear, bit, word. destruct (bds !! i) as [d |] eqn:E.
  - destruct (unmark_at h e bds i d E) as (w & Hw & _ & Hs & Hp). rewrite Hw. cbn -[flag].
    destruct (flag_bits w) as (-> & -> & _ & _). rewrite Hs, Hp. destruct (flag_bits (td_flags d)) as (Fs & Fe & _ & _). split.
    + destruct (decide (i = h)) as [| Hne]; [done |]. apply elem_of_cons in Hi as [| Hi]; [done |]. destruct Hm as (_ & _ & Hc).
      pose proof (marked_first _ _ _ Hc Hi) as H. unfold bit, word in H. rewrite E in H. rewrite <- Fs. exact H.
    + destruct (decide (i = e)) as [| Hne]; [done |]. destruct (marked_last _ _ _ _ Hm Hi) as [| H]; [congruence |].
      unfold bit, word in H. rewrite E in H. rewrite <- Fe. exact H.
  - assert (unmark h e bds !! i = None) as -> by (apply lookup_ge_None; unfold unmark; rewrite !length_alter; by apply lookup_ge_None). done.
Qed.

Lemma last_used q p c : c <> [] -> last (used (q ++ [(p, c)])) = last c.
Proof.
  intros Hc. rewrite used_app, used_cons. change (used []) with (@nil nat). rewrite app_nil_r, last_app.
  destruct (last c) eqn:E; [done |]. by apply last_None in E.
Qed.

Section Safety.
Context (dma : txch -> txch) `{Hdma : Emac dma}.

Lemma dma_queue t q h : queue_ok t q -> tx_hdp t = Some h ->
  exists e, active_tail t = Some e /\ dma t = transmitted h e t /\ queue_ok (transmitted h e t) q.
Proof.
  intros [Hp Hl Ht Hd] Hh. rewrite Hh in Hd. destruct Hd as (q' & p & c & -> & Hs & Ho).
  rewrite last_used in Ht by done. assert (exists e, last (h :: c) = Some e) as [e He] by (apply last_is_Some; done).
  rewrite He in Ht. assert (Hte : active_tail t = Some e) by (apply Ht; by destruct q'). exists e. split; [done |].
  apply Forall_app in Hp as Hp'. destruct Hp' as [_ (_ & Hm & _)%Forall_singleton]. cbn in Hm.
  assert (Hlc : linked (tx_bds t) (h :: c) None).
  { rewrite used_app, used_cons in Hl. apply linked_app in Hl as [_ Hl]. by apply linked_app in Hl as [? _]. }
  split; [by apply (emac_packet t h c) |]. split.
  - eapply Forall_impl; [exact Hp |]. intros k. apply packet_ext. intros i _. apply al_marks, transmitted_alike.
  - apply (linked_ext (tx_bds t)); [| done]. intros i _. apply transmitted_alike.
  - intros _. by rewrite last_used, He.
  - cbn [tx_hdp transmitted set_hdp]. split.
    + apply Forall_app. split; [| apply Forall_singleton; intros i [= <-]; apply transmitted_owner; by right].
      eapply Forall_impl; [exact Hs |]. intros k Hk i Hi. apply transmitted_owner. left. by apply Hk.
    + change (active_tail (transmitted h e t)) with (active_tail t). rewrite Hte. intros e' [= <-].
      destruct (linked_in _ _ _ e Hlc) as [d Hde]; [apply last_Some in He as [l ->]; set_solver |]. by eapply transmitted_eoq.
Qed.

(** Letting the EMAC finish keeps the channel. *)
Lemma dma_idle t q : queue_ok t q -> queue_ok (dma t) q /\ tx_hdp (dma t) = None.
Proof.
  intros Hq. destruct (tx_hdp t) as [h |] eqn:Hh; [| by rewrite emac_idle].
  by destruct (dma_queue t q h Hq Hh) as (e & _ & -> & Hq').
Qed.
Lemma dma_alike t q i : queue_ok t q -> alike (tx_bds t) (tx_bds (dma t)) i.
Proof.
  intros Hq. destruct (tx_hdp t) as [h |] eqn:Hh; [| rewrite emac_idle by done; by apply alike_eq].
  destruct (dma_queue t q h Hq Hh) as (e & _ & -> & _). apply transmitted_alike.
Qed.
Lemma dma_same t q : queue_ok t q -> free_head (dma t) = free_head t /\ active_tail (dma t) = active_tail t
  /\ next_bd_to_process (dma t) = next_bd_to_process t /\ tx_store (dma t) = tx_store t.
Proof.
  intros Hq. destruct (tx_hdp t) as [h |] eqn:Hh; [| by rewrite emac_idle].
  by destruct (dma_queue t q h Hq Hh) as (e & _ & -> & _).
Qed.
Lemma dma_ok ext t q free : tx_ok ext t q free -> tx_ok ext (dma t) q free.
Proof.
  intros []. destruct (dma_same t q tk_queue0) as (Eh & Et & En & Es). pose proof (fun i => dma_alike t q i tk_queue0) as Ha.
  split; rewrite ?Eh, ?Et, ?En, ?Es; try done; [| | by apply dma_idle].
  - destruct (active_tail t); destruct tk_ring0; split; try done; (apply (linked_ext (tx_bds t)); [intros i _; apply Ha | done]).
  - eapply Forall_impl; [exact tk_clear0 |]. intros i. by apply clear_ext, al_marks.
Qed.

(** The waits end. *)
Lemma wait_flag_ok f want i t d : tx_bds (dma t) !! i = Some d -> bit f (tx_bds (dma t)) i = want ->
  exists t1, wait_flag dma f want i t = Some t1 /\ (t1 = t \/ t1 = dma t)
  /\ exists d1, tx_bds t1 !! i = Some d1 /\ flag f (td_flags d1) = want.
Proof.
  unfold bit, word. intros Hd Hf. rewrite Hd in Hf. cbn in Hf. unfold wait_flag. rewrite Hd, Hf, eqb_reflx.
  destruct (tx_bds t !! i) as [d1 |] eqn:E; [destruct (eqb (flag f (td_flags d1)) want) eqn:Ef |]; eexists; (split; [done |]); eauto 6.
  apply eqb_prop in Ef. eauto 6.
Qed.

Lemma upd_bd_eq i f t d : tx_bds t !! i = Some d -> upd_bd i f t = Some (upd_bds (alter f i) t).
Proof. intros Hd. unfold upd_bd. by rewrite Hd. Qed.

(** The queue without its first packet, its marks cleared. *)
Lemma queue_pop t p h c q e x y s : queue_ok t ((p, h :: c) :: q) -> NoDup (used ((p, h :: c) :: q)) -> last (h :: c) = Some e ->
  bit EMAC_BUF_DESC_OWNER (tx_bds t) h = false ->
  queue_ok (put_store s (set_cp x (set_next_proc y (upd_bds (unmark h e) t)))) q.
Proof.
  intros [Hp Hl Ht Hd] Hnd He Ho. apply Forall_cons in Hp as [_ Hp]. rewrite used_cons in *.
  apply linked_app in Hl as [_ Hl]. apply NoDup_app in Hnd as (_ & Hni & _).
  assert (He' : e ∈ h :: c) by (apply last_Some in He as [l ->]; set_solver). split; cbn.
  - apply Forall_forall. intros k Hk. apply (packet_ext (tx_bds t)); [| by eapply Forall_forall in Hp].
    intros i Hi. pose proof (used_elem _ _ _ Hk Hi) as Hu. apply al_marks, alike_eq, unmark_other; intros ->; [apply (Hni h); [left | done] | by apply (Hni e)].
  - apply (linked_ext (tx_bds t)); [| done]. intros i _. apply unmark_keeps.
  - intros Hq. rewrite Ht by done. rewrite last_app. destruct (last (used q)) eqn:El; [done |]. apply last_None in El.
    destruct q as [| [p' c'] q]; [done |]. exfalso. apply Forall_cons in Hp as [(Hne & _) _]. rewrite used_cons in El. by destruct c'.
  - destruct (tx_hdp t) as [h' |].
    + destruct Hd as ([| k q'] & p' & c' & E & Hs & Ho'); [cbn in E; simplify_eq; congruence |]. injection E as <- ->.
      exists q', p', c'. split; [done |]. apply Forall_cons in Hs as [_ Hs]. split; [| by rewrite (proj1 (proj2 (unmark_keeps h e (tx_bds t) h')))].
      eapply Forall_impl; [exact Hs |]. intros k' Hk' i Hi. rewrite (proj1 (proj2 (unmark_keeps h e (tx_bds t) i))). by apply Hk'.
    + destruct Hd as [[_ Hs]%Forall_cons Hq]. split.
      * eapply Forall_impl; [exact Hs |]. intros k' Hk' i Hi. rewrite (proj1 (proj2 (unmark_keeps h e (tx_bds t) i))). by apply Hk'.
      * intros e' E. rewrite (proj2 (proj2 (unmark_keeps h e (tx_bds t) e'))). by apply Hq.
Qed.

Lemma in_ring ext t q free i : tx_ok ext t q free -> i ∈ free ++ used q -> exists d, tx_bds t !! i = Some d.
Proof.
  intros [] Hi. destruct (active_tail t).
  - destruct tk_ring0 as [Hl _]. by eapply linked_in.
  - destruct tk_ring0 as [-> Hl]. apply elem_of_app in Hi as [Hi | Hi]; [by eapply linked_in | by apply elem_of_nil in Hi].
Qed.

(** One packet is taken back: its descriptors follow the free ones, its reference
    is dropped. *)
Lemma popped ext t p h c q free e : tx_ok ext t ((p, h :: c) :: q) free -> last (h :: c) = Some e ->
  bit EMAC_BUF_DESC_OWNER (tx_bds t) h = false -> exists n s, pbuf_free (Some p) (tx_store t) = Some (n, s)
  /\ tx_ok ext (put_store s (set_cp (Some e) (set_next_proc (head (used q ++ free ++ h :: c)) (upd_bds (unmark h e) t)))) q (free ++ h :: c).
Proof.
  intros [] He Ho. rewrite used_cons in *. rewrite app_assoc in tk_NoDup0, tk_length0.
  change (pkts ((p, h :: c) :: q)) with ({[+ p +]} ⊎ pkts q) in tk_store0. rewrite <- (assoc_L _) in tk_store0.
  destruct (pbuf_free_ok _ _ _ tk_store0) as (ps & s & _ & Ef & _ & Hs & _). eexists _, s. split; [exact Ef |].
  pose proof (proj1 (Forall_cons _ _ _) (qk_packets _ _ tk_queue0)) as [(_ & Hm & _) _]. cbn in Hm.
  split; cbn; try done.
  - by destruct free.
  - rewrite tk_head0. by destruct free.
  - destruct (active_tail t); [| by destruct tk_ring0]. rewrite <- app_assoc. destruct tk_ring0 as [Hl ?].
    split; [| done]. apply (linked_ext (tx_bds t)); [| done]. intros i _. apply unmark_keeps.
  - apply Forall_app. split; apply Forall_forall; intros i Hi; [| by apply (unmark_clear _ _ c)].
    apply (clear_ext (tx_bds t)); [| by eapply Forall_forall in tk_clear0].
    rewrite <- app_assoc in tk_NoDup0. apply NoDup_app in tk_NoDup0 as (_ & Hni & _).
    apply al_marks, alike_eq, unmark_other; intros ->; apply (Hni _ Hi); [left |]. apply last_Some in He as [l ->]. set_solver.
  - apply (queue_pop t p h c); try done. rewrite <- app_assoc in tk_NoDup0. by apply NoDup_app in tk_NoDup0 as (_ & _ & ?).
Qed.
Lemma linked_last bds c e n : linked bds c n -> last c = Some e -> td_next <$> bds !! e = Some n.
Proof. intros Hl [l ->]%last_Some. apply linked_app in Hl as [_ [He _]]. exact He. Qed.
Lemma front_ok ext t p h c q free : tx_ok ext t ((p, h :: c) :: q) free ->
  exists e d, last (h :: c) = Some e /\ tx_bds t !! e = Some d /\ td_pbuf d = Some p /\ td_next d = hd_or None (used q)
  /\ walk_eop num_bd (Some h) t = Some e.
Proof.
  intros [_ Hlen _ _ _ _ _ [Hp Hl _ _] _]. apply Forall_cons in Hp as [(_ & Hm & e & d & He & Hd & Hpb) _].
  rewrite used_cons in *. apply linked_app in Hl as [Hl _]. exists e, d. split; [done |]. split; [done |]. split; [done |]. split.
  - pose proof (linked_last _ _ _ _ Hl He) as Hn. rewrite Hd in Hn. by injection Hn.
  - eapply walk_ok; [exact Hl | exact Hm | exact He |]. rewrite !length_app in Hlen. cbn in Hlen. lia.
Qed.
Lemma packet_taken ext t p h c q free : tx_ok ext t ((p, h :: c) :: q) free ->
  exists t', tx_packet dma h t = Some t' /\ tx_ok ext t' q (free ++ h :: c).
Proof.
  intros H0. pose proof (dma_ok _ _ _ _ H0) as Hd. destruct (dma_idle _ _ (tk_queue _ _ _ _ H0)) as [[_ _ _ Hs] Hidle].
  assert (Hin : h ∈ free ++ used ((p, h :: c) :: q)) by (rewrite used_cons; set_solver).
  destruct (in_ring _ _ _ _ _ Hd Hin) as [d0 Hd0]. rewrite Hidle in Hs. destruct Hs as [[Hs _]%Forall_cons _].
  destruct (wait_flag_ok EMAC_BUF_DESC_OWNER false h t d0 Hd0 (Hs h eq_refl)) as (t1 & E1 & Ht1 & d1 & Hd1 & Ho1).
  assert (H1 : tx_ok ext t1 ((p, h :: c) :: q) free) by (destruct Ht1 as [-> | ->]; done).
  destruct (front_ok _ _ _ _ _ _ _ H1) as (e & d & He & Hde & Hpb & Hn & Hw).
  destruct (popped ext t1 p h c q free e H1 He) as (n & s & Ef & Hok); [unfold bit, word; by rewrite Hd1 |].
  destruct (unmark_at h e (tx_bds t1) e d Hde) as (w & Hu & _).
  unfold tx_packet. rewrite E1. cbn [mbind option_bind]. rewrite Hw. cbn [mbind option_bind].
  rewrite (upd_bd_eq _ _ _ _ Hd1). cbn [mbind option_bind].
  erewrite upd_bd_eq by (cbn; rewrite (alter_flags (fun w => Z.land w (not32 EMAC_BUF_DESC_SOP))), Hde; done).
  cbn [mbind option_bind tx_bds upd_bds]. fold (unmark h e (tx_bds t1)). rewrite Hu. cbn [mbind option_bind td_set_flags td_pbuf td_next].
  rewrite Hpb, Hn. cbn [tx_store set_cp set_next_proc upd_bds]. rewrite Ef. eexists. split; [done |].
  assert (En : (match hd_or None (used q) with None => free_head t1 | Some n => Some n end) = head (used q ++ free ++ h :: c)).
  { destruct H1. rewrite tk_head0. destruct (used q); [| done]. by destruct free. }
  cbn [free_head upd_bds]. rewrite En. exact Hok.
Qed.

(** The loop takes all packets back. *)
Lemma loop_drains ext q : forall fuel t free, tx_ok ext t q free -> (length q <= fuel)%nat ->
  exists t', tx_loop dma fuel t = Some t' /\ tx_ok ext t' [] (free ++ used q).
Proof.
  induction q as [| [p [| h c]] q IH]; intros fuel t free Hok Hf.
  - exists t. destruct free as [| h free]; [by destruct Hok |]. assert (Hc := tk_clear _ _ _ _ Hok). apply Forall_cons in Hc as [[Hs _] _].
    destruct (in_ring _ _ _ _ h Hok) as [d Hd]; [set_solver |]. unfold bit, word in Hs. rewrite Hd in Hs. cbn in Hs.
    change (used []) with (@nil nat). rewrite app_nil_r. split; [| done].
    destruct fuel; cbn; rewrite (tk_next _ _ _ _ Hok); cbn; rewrite Hd; cbn; by rewrite Hs.
  - pose proof (qk_packets _ _ (tk_queue _ _ _ _ Hok)) as [(? & _) _]%Forall_cons. done.
  - destruct fuel as [| fuel]; [cbn in Hf; lia |]. pose proof (qk_packets _ _ (tk_queue _ _ _ _ Hok)) as [(_ & (Hs & _) & _) _]%Forall_cons.
    destruct (in_ring _ _ _ _ h Hok) as [d Hd]; [rewrite used_cons; set_solver |]. unfold bit, word in Hs. rewrite Hd in Hs. cbn in Hs.
    destruct (packet_taken _ _ _ _ _ _ _ Hok) as (t1 & E1 & H1). destruct (IH fuel t1 _ H1) as (t' & E' & H'); [cbn in Hf; lia |].
    exists t'. rewrite used_cons, app_assoc. split; [| done].
    cbn [tx_loop]. rewrite (tk_next _ _ _ _ Hok), used_cons. cbn. rewrite Hd. cbn. rewrite Hs, E1. exact E'.
Qed.

(** *** Output *)

(** The loop over the packet's pbufs fills descriptors up to the end of the chain. *)
Definition filled (m : gmap pptr spbuf) (p q : pptr) (d : txbd) (d' : txbd) : Prop :=
  exists b, m !! q = Some b /\ d' = td_set_buf (q, sp_payload b) (Z.land (sp_len b) 0xFFFF) p d.
Lemma fill_ok p e ps : forall fuel c q bd_end t, chain (sp_next <$> ps_mem (tx_store t)) q ps -> length c = length ps ->
  linked (tx_bds t) c e -> NoDup c -> (length ps <= fuel)%nat ->
  exists bds, fill fuel p q (hd_or e c) bd_end t = Some (e, match last c with Some x => Some x | None => bd_end end, upd_bds (fun _ => bds) t)
  /\ (forall i, i ∉ c -> bds !! i = tx_bds t !! i)
  /\ forall k q i, ps !! k = Some q -> c !! k = Some i ->
       exists d d', tx_bds t !! i = Some d /\ bds !! i = Some d' /\ filled (ps_mem (tx_store t)) p q d d'.
Proof.
  induction ps as [| q0 ps IH]; intros fuel c q bd_end t Hc Hlen Hl Hnd Hf; apply chain_head in Hc.
  - subst q. destruct c; [| done]. exists (tx_bds t). split; [by destruct fuel, t |]. split; [done |]. by intros [] q i.
  - destruct Hc as (-> & b & Hb & Hc). destruct c as [| i c]; [done |]. destruct fuel as [| fuel]; [cbn in Hf; lia |].
    apply NoDup_cons in Hnd as [Hni Hnd]. destruct Hl as [(d & Hd & En)%fmap_Some Hl]. cbn [fill hd_or].
    rewrite Hb. cbn [mbind option_bind]. rewrite (upd_bd_eq _ _ _ _ Hd). cbn [mbind option_bind].
    set (t1 := upd_bds _ t).
    assert (Ho : forall j, j <> i -> tx_bds t1 !! j = tx_bds t !! j) by (intros j Hj; cbn; by rewrite list_lookup_alter_ne).
    assert (Hi : tx_bds t1 !! i = Some (td_set_buf (q0, sp_payload b) (Z.land (sp_len b) 0xFFFF) p d)) by (cbn; by rewrite list_lookup_alter_eq, Hd).
    rewrite Hi. cbn [mbind option_bind td_next td_set_buf]. rewrite <- En.
    destruct (IH fuel c (sp_next b) (Some i) t1) as (bds & E & Hout & Hin); [done | by injection Hlen | | done | cbn in Hf; lia |].
    { apply (linked_ext (tx_bds t)); [| done]. intros j Hj. rewrite Ho; [done |]. by intros ->. }
    exists bds. split; [| split].
    + rewrite E. destruct c as [| j c]; [done |]. change (last (i :: j :: c)) with (last (j :: c)).
      destruct (last (j :: c)) eqn:El; [done |]. by apply last_None in El.
    + intros j Hj. rewrite Hout by set_solver. apply Ho. set_solver.
    + intros [| k] x j Hx Hj; cbn in Hx, Hj; [injection Hx as <-; injection Hj as <- |].
      * exists d. eexists. split; [done |]. rewrite Hout by done. split; [exact Hi |]. by exists b.
      * destruct (Hin k x j Hx Hj) as (d0 & d' & H0 & H1). exists d0, d'. rewrite <- Ho; [done |].
        intros ->. apply Hni. by eapply list_elem_of_lookup_2.
Qed.

Lemma marked_intro bds c : forall b, (forall k i, c !! k = Some i -> bit EMAC_BUF_DESC_SOP bds i = b && (k =? 0)%nat
  /\ bit EMAC_BUF_DESC_EOP bds i = (S k =? length c)%nat) -> marked bds b c.
Proof.
  induction c as [| i c IH]; [done |]. intros b H. destruct (H 0%nat i eq_refl) as [Hs He]. cbn. split; [by rewrite Hs, andb_true_r |]. split.
  - rewrite He. by destruct c.
  - apply IH. intros k j Hj. destruct (H (S k) j Hj) as [Hs' He']. split; [rewrite Hs'; by rewrite andb_false_r | exact He'].
Qed.

(** The packet [p] with the pbufs [ps] in the descriptors [c], as the EMAC reads it. *)
Record framed (m : gmap pptr spbuf) (p : pptr) (ps : list pptr) (c : list nat) (bds : list txbd) : Prop := {
  fr_linked : linked bds c None;
  fr_packet : packet_ok bds (p, c);
  fr_owner : forall h, head c = Some h -> bit EMAC_BUF_DESC_OWNER bds h = true;
  fr_length : forall h b, head c = Some h -> m !! p = Some b -> Z.land (word bds h) 0xFFFF = sp_tot_len b;
  fr_buffers : forall k q i, ps !! k = Some q -> c !! k = Some i -> exists b d, m !! q = Some b /\ bds !! i = Some d
    /\ td_bufptr d = Some (q, sp_payload b) /\ td_bufoff_len d = Z.land (sp_len b) 0xFFFF
}.
(** The word of a descriptor of a packet, from the word it had. *)
Definition tx_word (tot : Z) (first last : bool) (w : Z) : Z :=
  let w := if first then Z.lor tot (Z.lor EMAC_BUF_DESC_SOP EMAC_BUF_DESC_OWNER) else w in
  if last then Z.lor w EMAC_BUF_DESC_EOP else w.
Lemma tx_word_bits tot f l w : 0 <= tot < 65536 -> Z.testbit w 31 = false -> Z.testbit w 30 = false ->
  flag EMAC_BUF_DESC_SOP (tx_word tot f l w) = f /\ flag EMAC_BUF_DESC_EOP (tx_word tot f l w) = l
  /\ flag EMAC_BUF_DESC_OWNER (tx_word tot true l w) = true /\ Z.land (tx_word tot true l w) 0xFFFF = tot.
Proof.
  intros Ht H31 H30. rewrite (proj1 (flag_bits _)), (proj1 (proj2 (flag_bits _))), (proj1 (proj2 (proj2 (flag_bits _)))).
  assert (Hz : forall k, 16 <= k -> Z.testbit tot k = false) by (intros k Hk; by apply (testbit_above tot 16)).
  unfold tx_word. split; [| split; [| split]].
  1-3: destruct f, l; rewrite ?Z.lor_spec, ?(Hz 31), ?(Hz 30), ?(Hz 29), ?H31, ?H30 by lia; done.
  assert (Hl : Z.land tot 0xFFFF = tot) by (change 0xFFFF with (Z.ones 16); rewrite Z.land_ones by lia; by apply Z.mod_small).
  destruct l; rewrite !Z.land_lor_distr_l, Hl; cbn -[Z.lor]; by rewrite !Z.lor_0_r.
Qed.

Lemma linked_lookup bds c e : linked bds c e <-> forall k i, c !! k = Some i -> td_next <$> bds !! i = Some (default e (Some <$> c !! S k)).
Proof.
  induction c as [| i c IH]; [by split |]. cbn [linked]. rewrite IH. split.
  - intros [Hi Hc] [| k] j Hj; [injection Hj as <-; rewrite Hi; by destruct c | by apply (Hc k)].
  - intros H. split; [rewrite (H 0%nat i eq_refl); by destruct c |]. intros k j Hj. by apply (H (S k)).
Qed.
Lemma framed_intro m p ps c bds bds' e b : (forall k q i, ps !! k = Some q -> c !! k = Some i -> exists d b', bds !! i = Some d /\ m !! q = Some b'
    /\ bds' !! i = Some (mk_txbd (if (S k =? length c)%nat then None else td_next d) (Some (q, sp_payload b')) (Z.land (sp_len b') 0xFFFF)
         (tx_word (sp_tot_len b) (k =? 0)%nat (S k =? length c)%nat (td_flags d)) (Some p))) ->
  length c = length ps -> c <> [] -> linked bds c e -> Forall (clear bds) c -> m !! p = Some b -> 0 <= sp_tot_len b < 65536 -> framed m p ps c bds'.
Proof.
  intros H Hlen Hne Hl Hcl Hb Ht.
  assert (H' : forall k i, c !! k = Some i -> exists q d b', ps !! k = Some q /\ bds !! i = Some d /\ m !! q = Some b'
    /\ bds' !! i = Some (mk_txbd (if (S k =? length c)%nat then None else td_next d) (Some (q, sp_payload b')) (Z.land (sp_len b') 0xFFFF)
         (tx_word (sp_tot_len b) (k =? 0)%nat (S k =? length c)%nat (td_flags d)) (Some p))
    /\ Z.testbit (td_flags d) 31 = false /\ Z.testbit (td_flags d) 30 = false).
  { intros k i Hk. assert (exists q, ps !! k = Some q) as [q Hq].
    { apply lookup_lt_is_Some. rewrite <- Hlen. by eapply lookup_lt_Some. }
    destruct (H k q i Hq Hk) as (d & b' & Hd & Hb' & E). exists q, d, b'. split; [done |]. split; [done |]. split; [done |]. split; [done |].
    rewrite Forall_forall in Hcl. destruct (Hcl i) as [Hs He]; [by eapply list_elem_of_lookup_2 |]. unfold bit, word in Hs, He. rewrite Hd in Hs, He.
    cbn -[flag] in Hs, He. by rewrite (proj1 (flag_bits _)) in Hs; rewrite (proj1 (proj2 (flag_bits _))) in He. }
  split.
  - apply linked_lookup. intros k i Hk. destruct (H' k i Hk) as (q & d & b' & _ & Hd & _ & -> & _). cbn -[Nat.eqb]. f_equal.
    rewrite linked_lookup in Hl. specialize (Hl k i Hk). rewrite Hd in Hl. cbn in Hl. injection Hl as ->.
    destruct (Nat.eqb_spec (S k) (length c)) as [E |]; [by rewrite (lookup_ge_None_2 c (S k)) by lia |].
    destruct (lookup_lt_is_Some_2 c (S k)) as [j ->]; [apply lookup_lt_Some in Hk; lia | done].
  - split; [done |]. split.
    + apply marked_intro. intros k i Hk. destruct (H' k i Hk) as (q & d & b' & _ & Hd & _ & E & H31 & H30). unfold bit, word. rewrite E. cbn -[flag tx_word Nat.eqb].
      destruct (tx_word_bits (sp_tot_len b) (k =? 0)%nat (S k =? length c)%nat (td_flags d) Ht H31 H30) as (-> & -> & _). done.
    + cbn. destruct (last c) as [x |] eqn:Hx; [| by apply last_None in Hx]. rewrite last_lookup in Hx.
      destruct (H' _ x Hx) as (q & d & b' & _ & _ & _ & E & _). eauto.
  - intros h Hh. rewrite head_lookup in Hh. destruct (H' 0%nat h Hh) as (q & d & b' & _ & _ & _ & E & H31 & H30). unfold bit, word. rewrite E. cbn -[flag tx_word Nat.eqb].
    exact (proj1 (proj2 (proj2 (tx_word_bits (sp_tot_len b) true (1 =? length c)%nat (td_flags d) Ht H31 H30)))).
  - intros h b0 Hh Hb0. rewrite head_lookup in Hh. destruct (H' 0%nat h Hh) as (q & d & b' & _ & _ & _ & E & H31 & H30). unfold word. rewrite E. cbn -[Z.land tx_word Nat.eqb].
    rewrite Hb in Hb0. injection Hb0 as <-.
    exact (proj2 (proj2 (proj2 (tx_word_bits (sp_tot_len b) true (1 =? length c)%nat (td_flags d) Ht H31 H30)))).
  - intros k q i Hq Hk. destruct (H k q i Hq Hk) as (d & b' & _ & Hb' & E). eauto 10.
Qed.

Lemma put_packet_ok t p ps b h c e : chain (sp_next <$> ps_mem (tx_store t)) (Some p) ps -> ps_mem (tx_store t) !! p = Some b ->
  0 <= sp_tot_len b < 65536 -> free_head t = Some h -> linked (tx_bds t) (h :: c) e -> NoDup (h :: c) ->
  Forall (clear (tx_bds t)) (h :: c) -> length (h :: c) = length ps ->
  exists bds x, put_packet p t = Some (h, x, set_free_head e (upd_bds (fun _ => bds) t)) /\ last (h :: c) = Some x
  /\ (forall i, i ∉ h :: c -> bds !! i = tx_bds t !! i) /\ framed (ps_mem (tx_store t)) p ps (h :: c) bds.
Proof.
  intros Hch Hb Htot Hfree Hl Hnd Hcl Hlen. destruct (linked_in _ _ _ h Hl) as [d Hd]; [left |].
  unfold put_packet. rewrite Hfree. cbn [mbind option_bind]. rewrite Hb. cbn [mbind option_bind]. rewrite (upd_bd_eq _ _ _ _ Hd). cbn [mbind option_bind].
  set (F := Z.lor _ _). set (t1 := upd_bds _ t).
  assert (Ho : forall j, j <> h -> tx_bds t1 !! j = tx_bds t !! j) by (intros j Hj; cbn; by rewrite list_lookup_alter_ne).
  assert (Hh : tx_bds t1 !! h = Some (td_set_flags F d)) by (cbn; by rewrite list_lookup_alter_eq, Hd).
  destruct (fill_ok p e ps (store_fuel (tx_store t1)) (h :: c) (Some p) None t1) as (bds & E & Hout & Hin); [done | done | | done | |].
  { apply (linked_ext (tx_bds t)); [| done]. intros j _. destruct (decide (j = h)) as [-> | Hj]; [by rewrite Hh, Hd | by rewrite Ho]. }
  { pose proof (chain_length _ _ _ Hch) as Hs. by rewrite map_size_fmap in Hs. }
  cbn [hd_or] in E. rewrite E. cbn [mbind option_bind]. destruct (last (h :: c)) as [x |] eqn:Hx; [| by apply last_None in Hx]. cbn [mbind option_bind].
  pose proof Hx as Hxk. rewrite last_lookup in Hxk.
  destruct (lookup_lt_is_Some_2 ps (pred (length (h :: c)))) as [qx Hqx]; [rewrite Hlen in *; destruct ps; [done | cbn; lia] |].
  destruct (Hin _ _ _ Hqx Hxk) as (dx & dx' & Hdx & Hdx' & _).
  erewrite upd_bd_eq by exact Hdx'. cbn [mbind option_bind].
  erewrite upd_bd_eq by (cbn; by rewrite list_lookup_alter_eq, Hdx'). cbn [mbind option_bind].
  eexists _, x. split; [done |]. split; [done |]. cbn [upd_bds tx_bds].
  assert (Hxin : x ∈ h :: c) by (by eapply list_elem_of_lookup_2). split.
  { intros i Hi. rewrite !list_lookup_alter_ne by (by intros ->). rewrite Hout by done. apply Ho. intros ->. by apply Hi; left. }
  apply (framed_intro _ _ _ _ (tx_bds t) _ e b); try done. intros k q i Hq Hk.
  destruct (Hin k q i Hq Hk) as (d1 & d2 & Hd1 & Hd2 & b' & Hb' & ->).
  assert (Hkx : (S k =? length (h :: c))%nat = bool_decide (i = x)).
  { apply eq_true_iff_eq. rewrite Nat.eqb_eq, bool_decide_eq_true. split; intros Hs.
    - rewrite <- Hs in Hxk. cbn [pred] in Hxk. congruence.
    - subst i. pose proof (NoDup_lookup _ _ _ _ Hnd Hk Hxk) as ->. cbn. lia. }
  rewrite Hkx. assert (exists d0, tx_bds t !! i = Some d0 /\ d1 = (if (k =? 0)%nat then td_set_flags F d0 else d0)) as (d0 & Hd0 & ->).
  { destruct k as [| k]; [injection Hk as <-; exists d; split; [done |]; rewrite Hh in Hd1; by injection Hd1 |].
    exists d1. split; [| done]. rewrite <- Ho; [done |]. intros ->. by pose proof (NoDup_lookup _ (S k) 0 _ Hnd Hk eq_refl). }
  exists d0, b'. split; [done |]. split; [done |].
  destruct (decide (i = x)) as [-> | Hne].
  - rewrite bool_decide_true by done. rewrite !list_lookup_alter_eq, Hd2. cbn -[Nat.eqb]. by destruct (k =? 0)%nat.
  - rewrite bool_decide_false by done. rewrite !list_lookup_alter_ne, Hd2 by congruence. cbn -[Nat.eqb]. by destruct (k =? 0)%nat.
Qed.

Lemma queue_ext t t' q : queue_ok t q -> tx_hdp t' = tx_hdp t -> active_tail t' = active_tail t ->
  (forall i, i ∈ used q -> tx_bds t' !! i = tx_bds t !! i) -> (forall e, active_tail t = Some e -> tx_bds t' !! e = tx_bds t !! e) -> queue_ok t' q.
Proof.
  intros [Hp Hl Ht Hd] Eh Ea Hu He.
  assert (Hs : forall k, k ∈ q -> sent (tx_bds t) k -> sent (tx_bds t') k).
  { intros k Hk Hs i Hi. unfold bit, word. rewrite Hu; [by apply Hs |]. apply (used_elem _ _ _ Hk). rewrite head_lookup in Hi. by eapply list_elem_of_lookup_2. }
  split; rewrite ?Eh, ?Ea; try done.
  - apply Forall_forall. intros k Hk. rewrite Forall_forall in Hp. apply (packet_ext (tx_bds t)); [| by apply Hp].
    intros i Hi. apply al_marks, alike_eq, Hu. by eapply used_elem.
  - apply (linked_ext (tx_bds t)); [| done]. intros i Hi. by rewrite Hu.
  - destruct (tx_hdp t) as [h |].
    + destruct Hd as (q' & p & c & -> & Hq & Ho). exists q', p, c. split; [done |]. split.
      * apply Forall_forall. intros k Hk. apply Hs; [set_solver |]. by eapply Forall_forall in Hq.
      * unfold bit, word. rewrite Hu; [done |]. apply (used_elem _ (p, h :: c)); set_solver.
    + destruct Hd as [Hq Ht']. split; [| intros e E; unfold bit, word; rewrite He by done; by apply Ht'].
      apply Forall_forall. intros k Hk. apply Hs; [done |]. by eapply Forall_forall in Hq.
Qed.
Lemma dma_other t q i : queue_ok t q -> i ∉ used q -> tx_bds (dma t) !! i = tx_bds t !! i.
Proof.
  intros Hq Hi. destruct (tx_hdp t) as [h |] eqn:Hh; [| by rewrite emac_idle].
  destruct (dma_queue t q h Hq Hh) as (e & Ea & -> & _). destruct Hq as [_ _ Ht Hd]. rewrite Hh in Hd.
  destruct Hd as (q' & p & c & -> & _). rewrite last_used, Ea in Ht by done. specialize (Ht ltac:(by destruct q')).
  rewrite used_app, used_cons in Hi. cbn. rewrite !list_lookup_alter_ne; [done | intros -> ..].
  - apply Hi, elem_of_app. right. apply elem_of_app. left. left.
  - apply Hi, elem_of_app. right. apply elem_of_app. left. symmetry in Ht. apply last_Some in Ht as [l ->]. set_solver.
Qed.
Lemma framed_ext m p ps c bds bds' : (forall i, i ∈ c -> bds' !! i = bds !! i) -> framed m p ps c bds -> framed m p ps c bds'.
Proof.
  intros Hi []. split.
  - apply (linked_ext bds); [| done]. intros i Hc. by rewrite Hi.
  - apply (packet_ext bds); [| done]. intros i Hc. by apply al_marks, alike_eq, Hi.
  - intros h Hh. unfold bit, word. rewrite Hi; [by apply fr_owner0 |]. rewrite head_lookup in Hh. by eapply list_elem_of_lookup_2.
  - intros h b Hh. unfold word. rewrite Hi; [by apply fr_length0 |]. rewrite head_lookup in Hh. by eapply list_elem_of_lookup_2.
  - intros k q i Hq Hk. rewrite Hi by (by eapply list_elem_of_lookup_2). by apply (fr_buffers0 k).
Qed.

(** The channel with the packet behind the queue, the EMAC started on it. *)
Lemma enqueued ext t m p ps h c q free x : tx_hdp t = Some h -> active_tail t = Some x -> last (h :: c) = Some x ->
  free_head t = head free -> next_bd_to_process t = head (used q ++ (h :: c) ++ free) -> NoDup ((h :: c) ++ free ++ used q) ->
  length ((h :: c) ++ free ++ used q) = num_bd -> free <> [] -> linked (tx_bds t) (free ++ used q) (Some h) ->
  Forall (packet_ok (tx_bds t)) q -> Forall (sent (tx_bds t)) q -> Forall (clear (tx_bds t)) free -> framed m p ps (h :: c) (tx_bds t) ->
  store_at kind_ok (pkts q ⊎ ({[+ p +]} ⊎ ext)) (tx_store t) -> tx_ok ext t (q ++ [(p, h :: c)]) free.
Proof.
  intros Eh Ea Hx Ef En Hnd Hlen Hne Hl Hp Hs Hcl [Hfl Hfp Hfo _ _] Hst.
  assert (Eu : used (q ++ [(p, h :: c)]) = used q ++ h :: c) by (rewrite used_app, used_cons; by rewrite app_nil_r).
  apply linked_app in Hl as Hl'. destruct Hl' as [_ Hlq].
  assert (Hperm : (h :: c) ++ free ++ used q ≡ₚ free ++ used q ++ h :: c) by (rewrite (Permutation_app_comm (h :: c)); by rewrite <- app_assoc).
  split; rewrite ?Eu, ?Ea; try done.
  - by rewrite <- Hperm.
  - by rewrite <- Hperm.
  - by rewrite En, <- app_assoc.
  - rewrite app_assoc. split; [apply linked_app; by split |]. by rewrite last_app, Hx.
  - split; rewrite ?Eu, ?Eh.
    + apply Forall_app. split; [done |]. by apply Forall_singleton.
    + apply linked_app. by split.
    + intros _. by rewrite Ea, last_app, Hx.
    + exists q, p, c. split; [done |]. split; [done |]. by apply Hfo.
  - unfold pkts. rewrite fmap_app, list_to_set_disj_app.
    change (list_to_set_disj (fst <$> [(p, h :: c)])) with ({[+ p +]} ⊎ (∅ : gmultiset pptr)).
    replace (list_to_set_disj (fst <$> q) ⊎ ({[+ p +]} ⊎ ∅) ⊎ ext) with (pkts q ⊎ ({[+ p +]} ⊎ ext)); [done |]. unfold pkts. multiset_solver.
Qed.

Lemma waits_ok t q tl : queue_ok t q -> active_tail t = Some tl -> (exists d, tx_bds t !! tl = Some d) ->
  (exists t1, wait_flag dma EMAC_BUF_DESC_EOQ true tl t = Some t1 /\ wait_hdp dma t1 = Some (dma t)) /\ bit EMAC_BUF_DESC_EOQ (tx_bds (dma t)) tl = true
  /\ exists d, tx_bds (dma t) !! tl = Some d.
Proof.
  intros Hq Ht (d & Hd). destruct (dma_idle t q Hq) as [[_ _ _ Hs] Hh]. rewrite Hh in Hs. destruct Hs as [_ Hs].
  destruct (dma_same t q Hq) as (_ & Ea & _ & _). rewrite <- Ea in Ht. specialize (Hs tl Ht).
  assert (exists d1, tx_bds (dma t) !! tl = Some d1) as [d1 Hd1].
  { pose proof (al_next _ _ _ (dma_alike t q tl Hq)) as E. rewrite Hd in E. apply fmap_Some in E as (d1 & ? & _). eauto. }
  destruct (wait_flag_ok EMAC_BUF_DESC_EOQ true tl t d1 Hd1 Hs) as (t1 & E1 & Ht1 & _).
  split; [| by eauto]. exists t1. split; [done |]. unfold wait_hdp. destruct Ht1 as [-> | ->]; [| by rewrite Hh].
  destruct (tx_hdp t) eqn:E; [by rewrite Hh | by rewrite emac_idle].
Qed.

(** Linking the packet at [h] behind the queue: the waits end, and nothing but the
    last link changes that the driver follows. *)
Lemma link_behind t q c rest tl h : queue_ok t q -> active_tail t = Some tl -> NoDup (c ++ rest ++ used q) ->
  linked (tx_bds t) (rest ++ used q) None -> last (rest ++ used q) = Some tl -> Forall (clear (tx_bds t)) rest ->
  let bds := alter (td_set_next (Some h)) tl (tx_bds (dma t)) in
  (exists t1 d, wait_flag dma EMAC_BUF_DESC_EOQ true tl t = Some t1 /\ wait_hdp dma t1 = Some (dma t)
    /\ tx_bds (dma t) !! tl = Some d /\ flag EMAC_BUF_DESC_EOQ (td_flags d) = true)
  /\ linked bds (rest ++ used q) (Some h) /\ Forall (packet_ok bds) q /\ Forall (sent bds) q /\ Forall (clear bds) rest
  /\ forall i, i ∈ c -> bds !! i = tx_bds t !! i.
Proof.
  intros Hq Ha (_ & Hdj & Hnd)%NoDup_app Hl Htl Hcl bds.
  assert (Hin : tl ∈ rest ++ used q) by (apply last_Some in Htl as [l ->]; set_solver).
  destruct (waits_ok t q tl Hq Ha (linked_in _ _ _ tl Hl Hin)) as ((t1 & E1 & E2) & Heoq & d & Hd).
  destruct (dma_idle t q Hq) as [[Hp _ _ Hs] Hh]. rewrite Hh in Hs. destruct Hs as [Hs _].
  split; [exists t1, d; unfold bit, word in Heoq; rewrite Hd in Heoq; done |].
  split; [| split; [| split; [| split]]].
  - apply (linked_relink (tx_bds (dma t)) _ _ tl None); [done | done | | |].
    + apply (linked_ext (tx_bds t)); [| done]. intros i _. apply (dma_alike t q i Hq).
    + intros i _ Hi. unfold bds. by rewrite list_lookup_alter_ne.
    + unfold bds. by rewrite list_lookup_alter_eq, Hd.
  - eapply Forall_impl; [exact Hp |]. intros k. apply packet_ext. intros i _. apply relink_marks.
  - eapply Forall_impl; [exact Hs |]. intros k Hk i Hi. unfold bds. rewrite (proj2 (relink_marks _ _ _ _)). by apply Hk.
  - eapply Forall_impl; [exact Hcl |]. intros i Hi. eapply clear_ext; [apply relink_marks |].
    eapply clear_ext; [apply al_marks, (dma_alike t q i Hq) | done].
  - intros i Hi. pose proof (Hdj i Hi) as Hni. unfold bds. rewrite list_lookup_alter_ne by (by intros <-).
    apply (dma_other t q); [done |]. set_solver.
Qed.

Lemma transmit_ok ext t q free p ps b : tx_ok ({[+ p +]} ⊎ ext) t q free -> chain (sp_next <$> ps_mem (tx_store t)) (Some p) ps ->
  ps_mem (tx_store t) !! p = Some b -> 0 <= sp_tot_len b < 65536 -> (length ps < length free)%nat ->
  let c := take (length ps) free in
  exists t', hdkif_transmit dma p t = Some t' /\ tx_ok ext t' (q ++ [(p, c)]) (drop (length ps) free)
  /\ framed (ps_mem (tx_store t)) p ps c (tx_bds t') /\ tx_store t' = tx_store t /\ tx_hdp t' = head c.
Proof.
  intros Hok Hch Hb Htot Hroom c. set (rest := drop (length ps) free).
  assert (Hne : rest <> []) by (intros E; apply (f_equal length) in E; unfold rest in E; rewrite length_drop in E; cbn in E; lia).
  assert (Hc : length c = length ps) by (unfold c; rewrite length_take; lia).
  assert (Hsplit : free = c ++ rest) by (unfold c, rest; by rewrite take_drop).
  clearbody c rest. subst free. destruct c as [| h c]; [destruct ps; [by apply chain_head in Hch | done] |].
  destruct Hok. rewrite <- app_assoc in tk_NoDup0, tk_length0. cbn in tk_head0.
  assert (Hcut : linked (tx_bds t) (h :: c) (head rest)).
  { destruct (active_tail t); [destruct tk_ring0 as [Hl _]; rewrite <- app_assoc in Hl | destruct tk_ring0 as [_ Hl]];
      apply linked_app in Hl as [Hl _]; by destruct rest. }
  apply Forall_app in tk_clear0 as [Hcc Hcr]. apply NoDup_app in tk_NoDup0 as Hdj. destruct Hdj as (Hndc & Hdj & Hndr).
  destruct (put_packet_ok t p ps b h c (head rest)) as (bds & x & E & Hx & Hout & Hf); try done.
  set (t4 := set_free_head (head rest) (upd_bds (fun _ => bds) t)) in E.
  assert (Hsame : forall i, i ∈ rest ++ used q -> tx_bds t4 !! i = tx_bds t !! i) by (intros i Hi; apply Hout; intros Hi'; by apply (Hdj i)).
  assert (Hcr4 : Forall (clear (tx_bds t4)) rest).
  { apply Forall_forall. intros i Hi. rewrite Forall_forall in Hcr. apply (clear_ext (tx_bds t)); [| by apply Hcr].
    apply al_marks, alike_eq, Hsame. set_solver. }
  unfold hdkif_transmit. rewrite E. cbn [mbind option_bind]. change (active_tail t4) with (active_tail t).
  destruct (active_tail t) as [tl |] eqn:Ha.
  - destruct tk_ring0 as [Hl Htl]. rewrite <- app_assoc in Hl, Htl. apply linked_app in Hl as [_ Hl].
    assert (Htl' : last (rest ++ used q) = Some tl).
    { rewrite last_app in Htl. destruct (last (rest ++ used q)) eqn:El; [done |]. apply last_None in El. by destruct rest. }
    assert (Hq4 : queue_ok t4 q).
    { apply (queue_ext t); [done | done | by rewrite Ha | intros i Hi; apply Hsame; set_solver |].
      rewrite Ha. intros e [= <-]. apply Hsame. apply last_Some in Htl' as [l ->]. set_solver. }
    destruct (link_behind t4 q (h :: c) rest tl h) as ((t1 & d & E1 & E2 & Hd & Heoq) & Hl5 & Hp5 & Hs5 & Hc5 & Hf5); try done.
    { apply (linked_ext (tx_bds t)); [| done]. intros i Hi. by rewrite Hsame. }
    destruct (dma_same t4 q Hq4) as (Eh & Ea & En & Es).
    rewrite E1. cbn [mbind option_bind]. rewrite E2. cbn [mbind option_bind]. rewrite (upd_bd_eq _ _ _ _ Hd). cbn [mbind option_bind tx_bds upd_bds].
    rewrite list_lookup_alter_eq, Hd. cbn [mbind option_bind option_fmap option_map fmap td_flags td_set_next].
    rewrite Heoq. eexists. split; [done |]. apply (framed_ext _ _ _ _ bds _ Hf5) in Hf. 
    split; [| split; [| split]]; [| done | cbn; by rewrite Es | done].
    apply (enqueued _ _ (ps_mem (tx_store t)) p ps h c q rest x); try done; cbn; rewrite ?Es, ?Eh, ?En; try done.
  - destruct tk_ring0 as [-> Hl]. cbn [mbind option_bind]. eexists. split; [done |]. split; [| split; [| split]]; [| done | done | done].
    apply (enqueued _ _ (ps_mem (tx_store t)) p ps h c [] rest x); try done; cbn.
    rewrite app_nil_r. apply linked_app in Hl as [_ Hl]. cbn in Hl. apply (linked_ext (tx_bds t)); [| done].
    intros i Hi. rewrite <- Hsame; [done |]. set_solver.
Qed.

(** *** The pbufs *)

Lemma with_pbufs ext ext' t q free s : tx_ok ext t q free -> store_at kind_ok (pkts q ⊎ ext') s -> tx_ok ext' (put_store s t) q free.
Proof. intros [? ? ? ? ? ? ? [] ?] Hs. by split. Qed.
Definition padded (b : spbuf) : spbuf := if sp_tot_len b <? MIN_PKT_LEN then with_lens MIN_PKT_LEN MIN_PKT_LEN b else b.
Lemma pad_ok ext s p b : store_at kind_ok ext s -> ps_mem s !! p = Some b -> store_at kind_ok ext (put_pbuf p (padded b) s).
Proof.
  intros [Hr (up & ur & L & Hp) Ht] Hb.
  assert (H : sp_next (padded b) = sp_next b /\ sp_ref (padded b) = sp_ref b /\ sp_block (padded b) = sp_block b /\ sp_type (padded b) = sp_type b)
    by (unfold padded; by case_match). destruct H as (En & Er & Eb & Et). split.
  - cbn. by rewrite (links_modify _ _ b), (counts_modify _ _ b).
  - exists up, ur, L. apply (pools_modify s up ur L p b); [done | done | by rewrite Eb].
  - cbn. apply map_Forall_insert_2; [| done]. specialize (Ht p b Hb). unfold kind_ok in *. by rewrite Et.
Qed.

(** The output queues the packet with a reference of its own. *)
Lemma output_ok ext t q free p ps b : tx_ok ext t q free -> p ∈ ext -> chain (sp_next <$> ps_mem (tx_store t)) (Some p) ps ->
  ps_mem (tx_store t) !! p = Some b -> sp_ref b < 65535 -> 0 <= sp_tot_len b < 65536 -> (length ps < length free)%nat ->
  let c := take (length ps) free in
  exists t', hdkif_output_bds dma p t = Some t' /\ tx_ok ext t' (q ++ [(p, c)]) (drop (length ps) free)
  /\ framed (ps_mem (tx_store t')) p ps c (tx_bds t') /\ tx_hdp t' = head c
  /\ ps_mem (tx_store t') = <[p := with_ref (sp_ref b + 1) (padded b)]> (ps_mem (tx_store t)).
Proof.
  intros Hok Hp Hch Hb Hr Htot Hroom c. unfold hdkif_output_bds. rewrite Hb. cbn [mbind option_bind].
  set (s1 := if _ <? _ then _ else _).
  assert (E1 : s1 = put_pbuf p (padded b) (tx_store t)).
  { unfold s1, padded. case_match; [done |]. by rewrite put_same. }
  rewrite E1. pose proof (pad_ok _ _ _ _ (tk_store _ _ _ _ Hok) Hb) as Hs1.
  assert (Hpad : sp_ref (padded b) = sp_ref b /\ sp_next (padded b) = sp_next b /\ 0 <= sp_tot_len (padded b) < 65536)
    by (unfold padded, MIN_PKT_LEN; case_match; cbn; lia || done). destruct Hpad as (Er & En & Htot1).
  destruct (ref_at (HT := kind_structs) (pkts q ⊎ ext) (put_pbuf p (padded b) (tx_store t)) p (padded b)) as (s2 & Ef & Hs2 & Hm2); [exact Hs1 | apply put_eq | lia |].
  rewrite Ef. cbn [mbind option_bind]. rewrite Er in Hm2. cbn in Hm2. rewrite insert_insert_eq in Hm2.
  assert (Hok2 : tx_ok ({[+ p +]} ⊎ ext) (put_store s2 t) q free).
  { apply (with_pbufs ext); [done |]. by replace (pkts q ⊎ ({[+ p +]} ⊎ ext)) with ({[+ p +]} ⊎ (pkts q ⊎ ext)) by multiset_solver. }
  destruct (transmit_ok ext (put_store s2 t) q free p ps (with_ref (sp_ref b + 1) (padded b)) Hok2) as (t' & E & Hok' & Hf & Hs & Hh); try done.
  - cbn. rewrite Hm2, (links_modify _ _ b) by done. done.
  - cbn. rewrite Hm2. by rewrite lookup_insert_eq.
  - exists t'. split; [exact E |]. split; [done |]. rewrite Hs. split; [exact Hf |]. split; [exact Hh | exact Hm2].
Qed.
End Safety.

(** *** Initialisation *)

Lemma init_txbds_at n : forall curr bds i, init_txbds n curr bds !! i =
  (fun d => if decide (curr <= i < curr + n)%nat then td_set_flags 0 (td_set_next (Some (S i)) d) else d) <$> bds !! i.
Proof.
  induction n as [| n IH]; intros curr bds i; cbn [init_txbds].
  - destruct (bds !! i); [| done]. cbn. by rewrite decide_False by lia.
  - rewrite IH. destruct (decide (i = curr)) as [-> | Hne].
    + rewrite list_lookup_alter_eq. destruct (bds !! curr); [| done]. cbn. by rewrite decide_False, decide_True by lia.
    + rewrite list_lookup_alter_ne by done. destruct (bds !! i); [| done]. cbn. f_equal. repeat case_decide; done || lia.
Qed.
Lemma ring_init_ok ram s ext : length ram = num_bd -> store_at kind_ok ext s -> tx_ok ext (hdkif_hw_init_tx ram s) [] (seq 0 num_bd).
Proof.
  intros Hlen Hs. unfold hdkif_hw_init_tx.
  assert (Hat : forall i, (i < num_bd)%nat -> exists d, alter (td_set_next (Some 0%nat)) (pred num_bd) (init_txbds num_bd 0 ram) !! i
    = Some (td_set_flags 0 (td_set_next (Some (if decide (S i = num_bd) then 0%nat else S i)) d))).
  { intros i Hi. destruct (lookup_lt_is_Some_2 ram i) as [d Hd]; [lia |]. exists d. destruct (decide (i = pred num_bd)) as [-> | Hne].
    - rewrite list_lookup_alter_eq, init_txbds_at, Hd. cbn [fmap option_fmap option_map]. by rewrite !decide_True by lia.
    - rewrite list_lookup_alter_ne, init_txbds_at, Hd by done. cbn [fmap option_fmap option_map]. rewrite decide_True by lia.
      by rewrite decide_False by lia. }
  split; cbn [tx_bds free_head active_tail next_bd_to_process tx_hdp tx_store]; try done.
  - cbn [used]. rewrite app_nil_r. apply NoDup_seq.
  - split; [done |]. apply linked_lookup. intros k i Hk. apply lookup_seq in Hk as [-> Hk].
    destruct (Hat (0 + k)%nat Hk) as [d ->]. cbn [fmap option_fmap option_map td_next td_set_flags td_set_next]. f_equal.
    case_decide as E; [by rewrite (lookup_seq_ge 0 num_bd (S k)) by lia | by rewrite lookup_seq_lt by lia].
  - apply Forall_forall. intros i [_ Hi]%elem_of_seq. destruct (Hat i Hi) as [d E]. unfold clear, bit, word. by rewrite E.
  - change (pkts []) with (∅ : gmultiset pptr). by rewrite (left_id_L ∅ (⊎)).
Qed.

(** *** A concrete EMAC *)

Lemma linked_det bds l1 : forall l2 i, linked bds (i :: l1) None -> linked bds (i :: l2) None -> l1 = l2.
Proof.
  induction l1 as [| j l1 IH]; intros [| k l2] i [H1 Hl1] [H2 Hl2]; rewrite H1 in H2; cbn in H2; try done.
  injection H2 as <-. f_equal. by apply (IH l2 j).
Qed.
Lemma linked_NoDup bds l : linked bds l None -> NoDup l.
Proof.
  induction l as [| i l IH]; [constructor |]. intros Hl. constructor; [| by apply IH; destruct Hl].
  intros (l1 & l2 & ->)%list_elem_of_split. pose proof Hl as [_ Hs]. apply linked_app in Hs as [_ Hs].
  pose proof (linked_det _ _ _ _ Hl Hs) as E. apply (f_equal length) in E. rewrite length_app in E. cbn in E. lia.
Qed.
Lemma linked_bound bds l : linked bds l None -> (length l <= length bds)%nat.
Proof.
  intros Hl. rewrite <- (length_seq (length bds) 0). apply submseteq_length, NoDup_submseteq; [by eapply linked_NoDup |].
  intros i Hi. destruct (linked_in _ _ _ i Hl Hi) as [d Hd]. apply elem_of_seq. split; [lia |]. by eapply lookup_lt_Some.
Qed.
(** It sends what is queued at once when the driver waits. *)
Definition emac (t : txch) : txch :=
  match tx_hdp t with
  | None => t
  | Some h => match walk_eop (length (tx_bds t)) (Some h) t with Some e => transmitted h e t | None => t end
  end.
#[export] Instance emac_works : Emac emac.
Proof.
  split; [intros t Hh; unfold emac; by rewrite Hh |]. intros t h c e Hh Hl Hm He _. unfold emac. rewrite Hh.
  rewrite (walk_ok t e c (length (tx_bds t)) h true None Hl Hm He); [done |].
  pose proof (linked_bound _ _ Hl) as Hb. cbn in Hb. lia.
Qed.

(** ** The channel in a run *)

(** The driver is initialised, called to output and interrupted in any order; in
    between the stack may do anything with the pbufs that keeps their counts right
    and leaves the references of the queue. *)
Inductive tx_run (dma : txch -> txch) : txch -> gmultiset pptr -> list packet -> list nat -> Prop :=
| run_init ram s ext : length ram = num_bd -> store_at kind_ok ext s -> tx_run dma (hdkif_hw_init_tx ram s) ext [] (seq 0 num_bd)
| run_output t t' ext q free p ps b : tx_run dma t ext q free -> p ∈ ext -> chain (sp_next <$> ps_mem (tx_store t)) (Some p) ps ->
    ps_mem (tx_store t) !! p = Some b -> sp_ref b < 65535 -> 0 <= sp_tot_len b < 65536 -> (length ps < length free)%nat ->
    hdkif_output_bds dma p t = Some t' -> tx_run dma t' ext (q ++ [(p, take (length ps) free)]) (drop (length ps) free)
| run_interrupt t t' ext q free : tx_run dma t ext q free -> hdkif_tx_inthandler dma t = Some t' -> tx_run dma t' ext [] (free ++ used q)
| run_stack t ext ext' q free s : tx_run dma t ext q free -> store_at kind_ok (pkts q ⊎ ext') s -> tx_run dma (put_store s t) ext' q free.

Lemma drain_ok dma `{Hdma : Emac dma} ext t q free : tx_ok ext t q free ->
  exists t', hdkif_tx_inthandler dma t = Some t' /\ tx_ok ext t' [] (free ++ used q).
Proof.
  intros Hok. apply loop_drains; [done.. |]. pose proof (queue_length t q (qk_packets _ _ (tk_queue _ _ _ _ Hok))) as Hq.
  pose proof (tk_length _ _ _ _ Hok) as Hl. rewrite length_app in Hl. lia.
Qed.
Lemma tx_run_ok dma `{Hdma : Emac dma} t ext q free : tx_run dma t ext q free -> tx_ok ext t q free.
Proof.
  induction 1 as [ram s ext Hlen Hs | t t' ext q free p ps b _ IH Hp Hc Hb Hr Ht Hroom E | t t' ext q free _ IH E | t ext ext' q free s _ IH Hs].
  - by apply ring_init_ok.
  - destruct (output_ok dma ext t q free p ps b) as (t1 & E1 & Hok & _); try done. congruence.
  - destruct (drain_ok dma ext t q free IH) as (t1 & E1 & Hok). congruence.
  - by eapply with_pbufs.
Qed.

(** C18. Output, in any run of the driver with the EMAC as its data sheet has it: a
    packet the stack holds, short enough for the free descriptors, is put into the
    next of them in order (every buffer and its length, the packet's length, the
    start, the end and the ownership marked, terminated), the EMAC is started on
    it, its waits end, and the driver has taken one reference of its own; a packet
    below 60 bytes has its lengths raised. *)
Theorem hdkif_output_queues dma `{Hdma : Emac dma} t ext q free p ps b (Hrun : tx_run dma t ext q free) (Hp : p ∈ ext)
    (Hps : chain (sp_next <$> ps_mem (tx_store t)) (Some p) ps) (Hb : ps_mem (tx_store t) !! p = Some b)
    (Href : sp_ref b < 65535) (Htot : 0 <= sp_tot_len b < 65536) (Hroom : (length ps < length free)%nat) :
  let c := take (length ps) free in
  exists t', hdkif_output_bds dma p t = Some t' /\ framed (ps_mem (tx_store t')) p ps c (tx_bds t')
  /\ tx_hdp t' = head c /\ free_head t' = head (drop (length ps) free)
  /\ ps_mem (tx_store t') = <[p := with_ref (sp_ref b + 1) (padded b)]> (ps_mem (tx_store t)).
Proof.
  intros c. destruct (output_ok dma ext t q free p ps b (tx_run_ok dma t ext q free Hrun) Hp Hps Hb Href Htot Hroom) as (t' & E & Hok & Hf & Hh & Hm).
  exists t'. split; [done |]. split; [done |]. split; [done |]. split; [by destruct Hok | done].
Qed.

(** C15. The transmit interrupt, in any run of the driver with the EMAC as its data
    sheet has it: the handler ends with every queued packet taken back and its
    reference dropped exactly once, so that the references left are the stack's;
    all 204 descriptors are free and linked again in the order they will be filled.
    Until then a packet given to the EMAC stays allocated. *)
Theorem hdkif_tx_drains dma `{Hdma : Emac dma} t ext q free (Hrun : tx_run dma t ext q free) :
  (forall p c, (p, c) ∈ q -> is_Some (ps_mem (tx_store t) !! p))
  /\ exists t', hdkif_tx_inthandler dma t = Some t' /\ store_at kind_ok ext (tx_store t')
  /\ length (free ++ used q) = num_bd /\ Forall (clear (tx_bds t')) (free ++ used q)
  /\ free_head t' = head (free ++ used q) /\ next_bd_to_process t' = free_head t'
  /\ linked (tx_bds t') (free ++ used q) (match active_tail t' with Some _ => None | None => free_head t' end).
Proof.
  pose proof (tx_run_ok dma t ext q free Hrun) as Hok. split.
  - intros p c Hp. destruct (held kind_ok (pkts q ⊎ ext) (tx_store t) p (tk_store _ _ _ _ Hok)) as [b Hb]; [| by eauto].
    apply gmultiset_elem_of_disj_union. left. apply elem_of_list_to_set_disj. by apply (list_elem_of_fmap_2 fst q (p, c)).
  - destruct (drain_ok dma ext t q free Hok) as (t' & E & [_ Hl _ Hh Hn Hr Hc _ Hs]). exists t'. split; [done |].
    change (used []) with (@nil nat) in *. rewrite app_nil_r in Hr, Hl. change (pkts []) with (∅ : gmultiset pptr) in Hs. rewrite (left_id_L ∅ (⊎)) in Hs.
    split; [done |]. split; [done |]. split; [done |]. split; [done |]. split; [by rewrite Hn, Hh |].
    destruct (active_tail t'); [by destruct Hr | rewrite Hh; by destruct Hr].
Qed.

(** *** Witnesses: a packet of two pbufs sent on a fresh ring *)

Definition ex_ram_words : list txbd := replicate num_bd (mk_txbd None None 0 0 None).
Definition ex_ch : txch := hdkif_hw_init_tx ex_ram_words ex_store.
Lemma ex_ch_run : tx_run emac ex_ch {[+ PoolPtr 95 +]} [] (seq 0 num_bd).
Proof.
  apply run_init; [apply length_replicate |]. pose proof (run_ok _ _ _ ex_run) as [[Hr Hp Ht] _].
  rewrite (right_id_L ∅ (⊎)) in Hr. split; [done | done |]. intros p b Hb. by apply (Ht p b Hb).
Qed.
Lemma ex_ch_packet : exists b, ps_mem (tx_store ex_ch) !! PoolPtr 95 = Some b /\ sp_ref b = 1 /\ sp_tot_len b = 300.
Proof.
  assert (E : (fun b => (sp_ref b, sp_tot_len b)) <$> ps_mem ex_store !! PoolPtr 95 = Some (1, 300)) by (vm_compute; reflexivity).
  apply fmap_Some in E as (b & Hb & [= E1 E2]). by exists b.
Qed.
Lemma ex_ch_chain : chain (sp_next <$> ps_mem (tx_store ex_ch)) (Some (PoolPtr 95)) [PoolPtr 95; PoolPtr 94].
Proof.
  assert (E : (sp_next <$> ps_mem (tx_store ex_ch)) !! PoolPtr 95 = Some (Some (PoolPtr 94)) /\ (sp_next <$> ps_mem (tx_store ex_ch)) !! PoolPtr 94 = Some None)
    by (vm_compute; split; reflexivity).
  destruct E as [E1 E2]. split; [reflexivity |]. exists (Some (PoolPtr 94)). split; [exact E1 |].
  split; [reflexivity |]. exists None. split; [exact E2 | reflexivity].
Qed.
Lemma ex_held : PoolPtr 95 ∈ ({[+ PoolPtr 95 +]} : gmultiset pptr).
Proof. multiset_solver. Qed.
Lemma ex_head : head (take 2 (seq 0 num_bd)) = Some 0%nat /\ head (drop 2 (seq 0 num_bd)) = Some 2%nat.
Proof. vm_compute. split; reflexivity. Qed.
Lemma ex_room : (2 < length (seq 0 num_bd))%nat.
Proof. rewrite length_seq. vm_compute. lia. Qed.
Lemma hdkif_output_queues_witness : exists t', hdkif_output_bds emac (PoolPtr 95) ex_ch = Some t' /\ tx_hdp t' = Some 0%nat /\ free_head t' = Some 2%nat.
Proof.
  destruct ex_ch_packet as (b & Hb & Hr & Ht).
  destruct (hdkif_output_queues emac ex_ch {[+ PoolPtr 95 +]} [] (seq 0 num_bd) (PoolPtr 95) [PoolPtr 95; PoolPtr 94] b ex_ch_run)
    as (t' & E & _ & Hh & Hn & _); [exact ex_held | exact ex_ch_chain | exact Hb | lia | lia | exact ex_room |].
  exists t'. split; [exact E |]. rewrite Hh, Hn. exact ex_head.
Defined.
Lemma hdkif_tx_drains_witness : exists t t', hdkif_output_bds emac (PoolPtr 95) ex_ch = Some t /\ hdkif_tx_inthandler emac t = Some t'
  /\ store_at kind_ok {[+ PoolPtr 95 +]} (tx_store t').
Proof.
  destruct ex_ch_packet as (b & Hb & Hr & Ht).
  destruct (output_ok emac {[+ PoolPtr 95 +]} ex_ch [] (seq 0 num_bd) (PoolPtr 95) [PoolPtr 95; PoolPtr 94] b (tx_run_ok emac _ _ _ _ ex_ch_run))
    as (t & E & _); [exact ex_held | exact ex_ch_chain | exact Hb | lia | lia | exact ex_room |].
  destruct (hdkif_tx_drains emac t {[+ PoolPtr 95 +]} _ _ (run_output emac ex_ch t {[+ PoolPtr 95 +]} [] (seq 0 num_bd) (PoolPtr 95) [PoolPtr 95; PoolPtr 94] b
    ex_ch_run ex_held ex_ch_chain Hb ltac:(lia) ltac:(lia) ex_room E)) as (_ & t' & E' & Hs & _).
  exists t, t'. split; [exact E |]. split; [exact E' | exact Hs].
Defined.
