(* ===== verification/EmacRx.v ===== *)
(** * The receive descriptors of the EMAC driver (ports/hdk/netif/hdkif.c)

    The ring of receive buffers: how it is set up, and the interrupt handler that
    makes packets of filled buffers, hands them up and puts fresh buffers behind
    the last one.  [struct emac_rx_bdp] has the members of the transmit descriptors
    ([EmacTx.txbd]).  Two parties are parameters: the EMAC, which writes frames into
    the buffers before any look of the driver at a descriptor, with the behaviour
    of its data sheet ([emac_rx]); and the stack above, which is handed a packet with
    its reference ([Upper], [UpperOk]). *)

From stdpp Require Import gmultiset.
From S2P Require Import Prelude Memp Pbuf Heap Net PbufRef PbufRope EmacTx.

(** ** State *)

(** [struct rxch], the registers [RXHDP] and [RXCP], the pbufs, and the frames the
    EMAC has taken from the wire. *)
Record rxch := mk_rxch {
  rx_bds : list txbd;
  rx_free_head : option nat;
  active_head : option nat;
  rx_active_tail : option nat;
  freed_pbuf_len : Z;
  rx_hdp : option nat;
  rx_cp : option nat;
  rx_store : pstore;
  rx_wire : list (list Z)
}.

Definition rx_upd_bds f t := mk_rxch (f (rx_bds t)) (rx_free_head t) (active_head t) (rx_active_tail t) (freed_pbuf_len t) (rx_hdp t) (rx_cp t) (rx_store t) (rx_wire t).
Definition rx_set_free x t := mk_rxch (rx_bds t) x (active_head t) (rx_active_tail t) (freed_pbuf_len t) (rx_hdp t) (rx_cp t) (rx_store t) (rx_wire t).
Definition rx_set_head x t := mk_rxch (rx_bds t) (rx_free_head t) x (rx_active_tail t) (freed_pbuf_len t) (rx_hdp t) (rx_cp t) (rx_store t) (rx_wire t).
Definition rx_set_tail x t := mk_rxch (rx_bds t) (rx_free_head t) (active_head t) x (freed_pbuf_len t) (rx_hdp t) (rx_cp t) (rx_store t) (rx_wire t).
Definition rx_set_freed x t := mk_rxch (rx_bds t) (rx_free_head t) (active_head t) (rx_active_tail t) x (rx_hdp t) (rx_cp t) (rx_store t) (rx_wire t).
Definition rx_set_hdp x t := mk_rxch (rx_bds t) (rx_free_head t) (active_head t) (rx_active_tail t) (freed_pbuf_len t) x (rx_cp t) (rx_store t) (rx_wire t).
Definition rx_set_cp x t := mk_rxch (rx_bds t) (rx_free_head t) (active_head t) (rx_active_tail t) (freed_pbuf_len t) (rx_hdp t) x (rx_store t) (rx_wire t).
Definition rx_put s t := mk_rxch (rx_bds t) (rx_free_head t) (active_head t) (rx_active_tail t) (freed_pbuf_len t) (rx_hdp t) (rx_cp t) s (rx_wire t).

(** Accesses through a descriptor pointer and to a pbuf. *)
Definition rx_upd (i : nat) (f : txbd -> txbd) (t : rxch) : option rxch :=
  _ ← rx_bds t !! i; Some (rx_upd_bds (alter f i) t).
Definition rx_do {A} (m : PM A) (t : rxch) : option (A * rxch) :=
  '(a, s) ← m (rx_store t); Some (a, rx_put s t).

(** ** Initialisation *)

(** [PBUF_LEN_MAX] and [MAX_RX_PBUF_ALLOC]. *)
Definition PBUF_LEN_MAX : Z := MAX_TRANSFER_UNIT.
Definition MAX_RX_PBUF_ALLOC : nat := 10.

(** A descriptor armed with the buffer of [q]. *)
Definition arm_bd (next : option nat) (q : pptr) (b : spbuf) : txbd :=
  mk_txbd next (Some (q, sp_payload b)) (sp_len b) EMAC_BUF_DESC_OWNER (Some q).
(** The loop over the pbufs of one chain, with the local variables [curr_bd],
    [last_bd] and [num_bd]. *)
Fixpoint arm_chain (fuel : nat) (q : option pptr) (curr last num : nat) (t : rxch) : option (nat * nat * nat * rxch) :=
  match q with
  | None => Some (curr, last, num, t)
  | Some q =>
      match fuel with
      | O => None
      | S fuel =>
          b ← ps_mem (rx_store t) !! q;
          t ← rx_upd curr (fun _ => arm_bd (Some (S curr)) q b) t;
          d ← rx_bds t !! curr;
          next ← td_next d;
          arm_chain fuel (sp_next b) next curr (pred num) t
      end
  end.
(** The loop that allocates the chains. *)
Fixpoint arm_chains (pbufs curr last num : nat) (t : rxch) : option (nat * rxch) :=
  match pbufs with
  | O => Some (last, t)
  | S pbufs =>
      '(p, t) ← rx_do (pbuf_alloc PBUF_RAW PBUF_LEN_MAX PBUF_POOL) t;
      match p with
      | None => Some (last, t)
      | Some p =>
          '(clen, t) ← rx_do (pbuf_clen (Some p)) t;
          if clen <=? Z.of_nat num then
            '(curr, last, num, t) ← arm_chain (store_fuel (rx_store t)) (Some p) curr last num t;
            arm_chains pbufs curr last num t
          else
            '(_, t) ← rx_do (pbuf_free (Some p)) t;
            Some (last, t)
      end
  end.
(** The receive part of [hdkif_hw_init]. *)
Definition hdkif_hw_init_rx (ram : list txbd) (s : pstore) : option rxch :=
  let t := mk_rxch ram None (Some 0%nat) None 0 None None s [] in
  '(last, t) ← arm_chains MAX_RX_PBUF_ALLOC 0 0 (pred num_bd) t;
  t ← rx_upd last (td_set_next None) t;
  Some (rx_set_hdp (active_head t) (rx_set_tail (Some last) t)).

(** ** The receive interrupt *)

(** The stack above the driver: [ethernet_input], the references it holds, the
    buffers of the pool it keeps and the frames it was handed. *)
Class Upper (W : Type) := {
  ethernet_input : pptr -> pstore -> W -> option (pstore * W);
  up_held : W -> gmultiset pptr;
  up_kept : W -> nat;
  up_frames : W -> list (list Z)
}.

Section Handler.
Context {W : Type} `{Upper W}.

(** The do loop over the buffers of one packet, with the local variables
    [curr_bd], [tot_len], [ex_len] and [len_to_alloc]; the result is [processed_bd]
    with its pbuf, [curr_bd] and [len_to_alloc]. *)
Fixpoint gather (fuel curr : nat) (tot_len ex_len len_to_alloc : Z) (t : rxch)
  : option (nat * pptr * option nat * Z * rxch) :=
  match fuel with
  | O => None
  | S fuel =>
      d ← rx_bds t !! curr;
      pbuf ← td_pbuf d;
      b ← ps_mem (rx_store t) !! pbuf;
      next ← match sp_next b with
             | Some n => Some (Some n)
             | None => n ← td_next d; dn ← rx_bds t !! n; Some (td_pbuf dn)
             end;
      let len := Z.land (td_bufoff_len d) 0xFFFF in
      let t := rx_put (put_pbuf pbuf (with_next next (with_lens (u16 (tot_len - ex_len)) len b)) (rx_store t)) t in
      let len_to_alloc := u32 (len_to_alloc + sp_len b) in
      if flag EMAC_BUF_DESC_EOP (td_flags d) then Some (curr, pbuf, td_next d, len_to_alloc, t)
      else n ← td_next d; gather fuel n tot_len (u32 (ex_len + len)) len_to_alloc t
  end.

(** The loop that arms the freed descriptors with the buffers of the chain [q],
    till either ends; the result is [curr_bd], [last_bd] and [q]. *)
Fixpoint refill (fuel : nat) (q : option pptr) (curr last : option nat) (t : rxch)
  : option (option nat * option nat * option pptr * rxch) :=
  match q with
  | None => Some (curr, last, None, t)
  | Some p =>
      if decide (curr = active_head t) then Some (curr, last, Some p, t)
      else
        match fuel with
        | O => None
        | S fuel =>
            c ← curr;
            b ← ps_mem (rx_store t) !! p;
            t ← rx_upd c (fun d => mk_txbd (td_next d) (Some (p, sp_payload b)) (Z.land (sp_len b) 0xFFFF) EMAC_BUF_DESC_OWNER (Some p)) t;
            let t := rx_set_freed (u32 (freed_pbuf_len t - sp_len b)) t in
            d ← rx_bds t !! c;
            refill fuel (sp_next b) (td_next d) (Some c) t
        end
  end.

(** The fresh buffers behind the last descriptor. *)
Definition replenish (last : option nat) (t : rxch) : option (option nat * rxch) :=
  '(new_pbuf, t) ← rx_do (pbuf_alloc PBUF_RAW (u16 (freed_pbuf_len t)) PBUF_POOL) t;
  match new_pbuf with
  | None => Some (last, t)
  | Some p =>
      '(curr, last, q, t) ← refill (store_fuel (rx_store t)) (Some p) (rx_free_head t) last t;
      '(_, t) ← match q with Some q => rx_do (pbuf_free (Some q)) t | None => Some (0, t) end;
      tail ← rx_active_tail t;
      last_bd ← last;
      t ← rx_upd last_bd (td_set_next None) t;
      t ← rx_upd tail (td_set_next (rx_free_head t)) t;
      d ← rx_bds t !! tail;
      let t := if flag EMAC_BUF_DESC_EOQ (td_flags d) then rx_set_hdp (rx_free_head t) t else t in
      Some (last, rx_set_tail last (rx_set_free curr t))
  end.

(** One packet, whose first descriptor is [start]. *)
Definition rx_packet (start : nat) (last : option nat) (t : rxch) (w : W) : option (option nat * rxch * W) :=
  let t := match rx_free_head t with None => rx_set_free (Some start) t | Some _ => t end in
  d ← rx_bds t !! start;
  q ← td_pbuf d;
  '(processed, pbuf, curr, len_to_alloc, t) ← gather (length (rx_bds t)) start (Z.land (td_flags d) 0xFFFF) 0 0 t;
  '(_, t) ← rx_do (modify (with_next None) pbuf) t;
  '(s, w) ← ethernet_input q (rx_store t) w;
  let t := rx_set_head curr (rx_set_cp (Some processed) (rx_put s t)) in
  '(last, t) ← replenish last (rx_set_freed (u32 (freed_pbuf_len t + len_to_alloc)) t);
  Some (last, t, w).

(** The loop of [hdkif_rx_inthandler].  Before each look at the first descriptor the
    EMAC has done the next element of [dma], and nothing when there is none. *)
Fixpoint rx_loop (fuel : nat) (dma : list (rxch -> rxch)) (last : option nat) (t : rxch) (w : W) : option (rxch * W) :=
  let t := match dma with [] => t | f :: _ => f t end in
  curr ← active_head t;
  d ← rx_bds t !! curr;
  if flag EMAC_BUF_DESC_SOP (td_flags d) then
    match fuel with
    | O => None
    | S fuel =>
        if flag EMAC_BUF_DESC_OWNER (td_flags d) then rx_loop fuel (tail dma) last t w
        else '(last, t, w) ← rx_packet curr last t w; rx_loop fuel (tail dma) last t w
    end
  else Some (t, w).
Definition hdkif_rx_inthandler (fuel : nat) (dma : list (rxch -> rxch)) (t : rxch) (w : W) : option (rxch * W) :=
  rx_loop fuel dma (rx_active_tail t) t w.
End Handler.

(** ** The EMAC *)

(** A descriptor the EMAC is done with: how much of the buffer it filled, where the
    packet starts and ends, and on the first one the length of the packet; the
    last one of the queue says that it was.  The other bits are left open. *)
Record filled_bd (tot : Z) (first last : bool) (n : Z) (d d' : txbd) : Prop := {
  fd_next : td_next d' = td_next d;
  fd_bufptr : td_bufptr d' = td_bufptr d;
  fd_pbuf : td_pbuf d' = td_pbuf d;
  fd_len : Z.land (td_bufoff_len d') 0xFFFF = n;
  fd_sop : flag EMAC_BUF_DESC_SOP (td_flags d') = first;
  fd_eop : flag EMAC_BUF_DESC_EOP (td_flags d') = last;
  fd_first : first = true -> flag EMAC_BUF_DESC_OWNER (td_flags d') = false /\ Z.land (td_flags d') 0xFFFF = tot;
  fd_eoq : last = true -> flag EMAC_BUF_DESC_EOQ (td_flags d') = bool_decide (td_next d = None)
}.
Definition put_data (off : Z) (f : list Z) (b : spbuf) : spbuf :=
  with_block (put (Z.to_nat (off - SIZEOF_STRUCT_PBUF)) f (sp_block b)) b.

(** The bytes [f] in the buffers of the descriptors [c], all but the last full. *)
Inductive writes (tot : Z) : bool -> list nat -> list Z -> list txbd * gmap pptr spbuf -> list txbd * gmap pptr spbuf -> Prop :=
| writes_last first i f d d' p off b bds m : bds !! i = Some d -> td_bufptr d = Some (p, off) -> m !! p = Some b ->
    0 < Zlen f <= td_bufoff_len d -> filled_bd tot first true (Zlen f) d d' ->
    writes tot first [i] f (bds, m) (<[i := d']> bds, <[p := put_data off f b]> m)
| writes_more first i j c f g d d' p off b bds m st : bds !! i = Some d -> td_bufptr d = Some (p, off) -> m !! p = Some b ->
    Zlen f = td_bufoff_len d -> td_next d = Some j -> filled_bd tot first false (Zlen f) d d' ->
    writes tot false (j :: c) g (<[i := d']> bds, <[p := put_data off f b]> m) st ->
    writes tot first (i :: j :: c) (f ++ g) (bds, m) st.

(** Frames longer than the reset value of [RXMAXLEN] are not taken. *)
Definition RXMAXLEN : Z := 1518.

Definition next_of (bds : list txbd) (c : list nat) : option nat := e ← last c; d ← bds !! e; td_next d.
Definition frame_in (f : list Z) (c : list nat) (bds : list txbd) (m : gmap pptr spbuf) (t : rxch) : rxch :=
  mk_rxch bds (rx_free_head t) (active_head t) (rx_active_tail t) (freed_pbuf_len t) (next_of bds c) (rx_cp t)
    (set_mem (fun _ => m) (rx_store t)) (rx_wire t ++ [f]).

(** The EMAC starts on a descriptor it owns, or takes a frame from the wire into the
    descriptors from [RXHDP] on. *)
Inductive emac_step : rxch -> rxch -> Prop :=
| emac_begins t h d w : rx_hdp t = Some h -> rx_bds t !! h = Some d -> flag EMAC_BUF_DESC_SOP w = true ->
    flag EMAC_BUF_DESC_OWNER w = true -> flag EMAC_BUF_DESC_EOQ w = false ->
    emac_step t (rx_upd_bds (<[h := td_set_flags w d]>) t)
| emac_frame t c f bds m : rx_hdp t = head c -> 0 < Zlen f <= RXMAXLEN ->
    writes (Zlen f) true c f (rx_bds t, ps_mem (rx_store t)) (bds, m) -> emac_step t (frame_in f c bds m t).
Definition emac_rx (f : rxch -> rxch) : Prop := forall t, rtc emac_step t (f t).

(** It is in the middle of a frame. *)
Definition receiving (t : rxch) : bool :=
  match rx_hdp t with
  | None => false
  | Some h => match rx_bds t !! h with Some d => flag EMAC_BUF_DESC_SOP (td_flags d) | None => false end
  end.

(** ** The stack above *)

(** The number of pool buffers the rest of the program may keep. *)
Definition MAX_KEPT : nat := PBUF_POOL_SIZE - 60.

(** It is handed a reference to a packet and takes care of it; pbufs out of its
    reach ([P], with the references [own]) stay as they are; it gives back the pool
    buffers it does not keep, and keeps few. *)
Class UpperOk (W : Type) `{Upper W} : Prop := {
  input_ok : forall P own q v s w,
    store_at kind_ok (own ⊎ ({[+ q +]} ⊎ up_held w)) s -> apart P ({[+ q +]} ⊎ up_held w) (nexts s) -> (forall p, p ∈ own -> p ∈ P) ->
    pbuf_at s q v -> p_tot_len v = tot s q ->
    exists s' w', ethernet_input q s w = Some (s', w') /\ store_at kind_ok (own ⊎ up_held w') s'
      /\ (forall p, p ∈ P -> ps_mem s' !! p = ps_mem s !! p) /\ up_frames w' = up_frames w ++ [p_bytes v]
      /\ (forall ps, chain (nexts s) (Some q) ps -> buffers (ps_mem s) ps -> (spare s + length ps + up_kept w <= spare s' + up_kept w')%nat);
  kept_few : forall w, (up_kept w <= MAX_KEPT)%nat
}.
