(* ===== verification/EmacRxOk.v ===== *)
(** * The receive path of the EMAC driver at work

    The invariant of the receive ring, that the EMAC and the interrupt handler keep
    it, and what it means for the frames: each one that was taken from the wire is
    handed up once, in order. *)

From stdpp Require Import gmultiset.
From S2P Require Import Prelude Memp Pbuf Heap Net PbufRef PbufRope EmacTx EmacRx.

(** ** The invariant *)

(** A packet in the ring: its descriptors and its bytes. *)
Notation packet := (list nat * list Z)%type.
Definition in_ring (q : list packet) : list nat := mjoin (fst <$> q).

(** A descriptor with its buffer. *)
Definition slot (bds : list txbd) (m : gmap pptr spbuf) (i : nat) (p : pptr) : Prop :=
  exists d b, bds !! i = Some d /\ td_pbuf d = Some p /\ td_bufptr d = Some (p, SIZEOF_STRUCT_PBUF) /\ m !! p = Some b /\ buffer b.
(** The bytes [f] received into the descriptors [c]. *)
Fixpoint stored (bds : list txbd) (m : gmap pptr spbuf) (tot : Z) (first : bool) (c : list nat) (f : list Z) : Prop :=
  match c with
  | [] => False
  | i :: c => exists d p b g h, bds !! i = Some d /\ td_pbuf d = Some p /\ m !! p = Some b /\ f = g ++ h
      /\ Z.land (td_bufoff_len d) 0xFFFF = Zlen g /\ g = take (length g) (sp_block b) /\ 0 < Zlen g
      /\ flag EMAC_BUF_DESC_SOP (td_flags d) = first /\ flag EMAC_BUF_DESC_EOP (td_flags d) = bool_decide (c = [])
      /\ (first = true -> flag EMAC_BUF_DESC_OWNER (td_flags d) = false /\ Z.land (td_flags d) 0xFFFF = tot)
      /\ match c with [] => h = [] | _ => Zlen g = sp_len b /\ stored bds m tot false c h end
  end.
(** A descriptor waiting for data. *)
Definition armed (bds : list txbd) (m : gmap pptr spbuf) (i : nat) : Prop :=
  exists d p b, bds !! i = Some d /\ td_pbuf d = Some p /\ m !! p = Some b /\ td_bufoff_len d = sp_len b
    /\ flag EMAC_BUF_DESC_OWNER (td_flags d) = true /\ flag EMAC_BUF_DESC_EOQ (td_flags d) = false.
Definition packet_in (bds : list txbd) (m : gmap pptr spbuf) (k : packet) : Prop :=
  0 < Zlen (snd k) <= RXMAXLEN /\ stored bds m (Zlen (snd k)) true (fst k) (snd k).

Definition RX_BUFS : nat := 60.
Definition RX_ROOM : Z := Z.of_nat MAX_RX_PBUF_ALLOC * PBUF_LEN_MAX.

(** The ring between calls: the packets [q], oldest first, then the armed
    descriptors [ar]; the buffers [ps] in the same order. *)
Record rx_ok (ext : gmultiset pptr) (t : rxch) (q : list packet) (ar : list nat) (ps : list pptr) : Prop := {
  rk_NoDup : NoDup (in_ring q ++ ar);
  rk_head : active_head t = head (in_ring q ++ ar);
  rk_tail : rx_active_tail t = last (in_ring q ++ ar);
  rk_linked : linked (rx_bds t) (in_ring q ++ ar) None;
  rk_free : rx_free_head t = None \/ rx_free_head t = active_head t;
  rk_freed : freed_pbuf_len t = 0;
  rk_hdp : rx_hdp t = head ar;
  rk_slots : Forall2 (slot (rx_bds t) (ps_mem (rx_store t))) (in_ring q ++ ar) ps;
  rk_packets : Forall (packet_in (rx_bds t) (ps_mem (rx_store t))) q;
  rk_armed : Forall (armed (rx_bds t) (ps_mem (rx_store t))) ar;
  rk_idle : Forall (fun i => bit EMAC_BUF_DESC_SOP (rx_bds t) i = false) (tail ar);
  rk_eoq : forall e, last (in_ring q ++ ar) = Some e -> bit EMAC_BUF_DESC_EOQ (rx_bds t) e = bool_decide (ar = []);
  rk_bufs : NoDup ps;
  rk_count : length ps = RX_BUFS;
  rk_room : room (ps_mem (rx_store t)) ps = RX_ROOM;
  rk_rope : rope (nexts (rx_store t)) ps;
  rk_store : store_at kind_ok (heads (nexts (rx_store t)) true ps ⊎ ext) (rx_store t)
}.

(** What the EMAC does while the handler runs, at one look after the other; in the
    end it is not in the middle of a frame. *)
Definition settled (f : rxch -> rxch) : Prop := forall ext t q ar ps, rx_ok ext t q ar ps -> receiving (f t) = false.
Definition script_ok (dma : list (rxch -> rxch)) : Prop := Forall emac_rx dma /\ forall f, last dma = Some f -> settled f.

(** ** What the predicates look at *)

Lemma Forall2_impl_in {A B} (P Q : A -> B -> Prop) l k : (forall x y, x ∈ l -> y ∈ k -> P x y -> Q x y) -> Forall2 P l k -> Forall2 Q l k.
Proof.
  intros HPQ H. induction H as [| x y l k HP _ IH]; constructor; [apply HPQ; [left | left | done] |].
  apply IH. intros x' y' Hx Hy. apply HPQ; by right.
Qed.
(** A descriptor but for its link. *)
Definition core (bds : list txbd) (i : nat) : option txbd := td_set_next None <$> bds !! i.
Lemma core_eq bds bds' i : bds' !! i = bds !! i -> core bds' i = core bds i.
Proof. unfold core. by intros ->. Qed.
Lemma core_at bds bds' i d : core bds' i = core bds i -> bds !! i = Some d -> exists d', bds' !! i = Some d' /\ td_pbuf d' = td_pbuf d
  /\ td_bufptr d' = td_bufptr d /\ td_bufoff_len d' = td_bufoff_len d /\ td_flags d' = td_flags d.
Proof. unfold core. intros E Hd. rewrite Hd in E. destruct (bds' !! i) as [d' |]; [| done]. exists d'. by injection E. Qed.
Lemma core_bit f bds bds' i : core bds' i = core bds i -> bit f bds' i = bit f bds i.
Proof.
  unfold core, bit, word. intros E. destruct (bds' !! i) as [d' |], (bds !! i) as [d |]; try done. injection E as _ _ E _. cbn. by rewrite E.
Qed.

Lemma slot_ext bds m bds' m' i p : core bds' i = core bds i -> m' !! p = m !! p -> slot bds m i p -> slot bds' m' i p.
Proof.
  intros Hc Hm (d & b & Hd & Hp & Ha & Hb & Hbuf). destruct (core_at _ _ _ _ Hc Hd) as (d' & Hd' & Ep & Ea & _).
  exists d', b. by rewrite Hm, Ep, Ea.
Qed.
Lemma slots_ext bds m bds' m' c ps : (forall i, i ∈ c -> core bds' i = core bds i) -> (forall p, p ∈ ps -> m' !! p = m !! p) ->
  Forall2 (slot bds m) c ps -> Forall2 (slot bds' m') c ps.
Proof. intros Hb Hm. apply Forall2_impl_in. intros i p Hi Hp. apply slot_ext; auto. Qed.
Lemma slot_pbuf bds m i p d : slot bds m i p -> bds !! i = Some d -> td_pbuf d = Some p.
Proof. intros (d' & b & Hd & Hp & _) Hd'. congruence. Qed.
Lemma slot_buffers bds m c ps : Forall2 (slot bds m) c ps -> buffers m ps.
Proof. induction 1 as [| i p c ps (d & b & _ & _ & _ & Hb & Hbuf) _ IH]; constructor; eauto. Qed.

(** [stored] depends on the descriptors and on their buffers. *)
Lemma stored_ext bds m bds' m' c ps : Forall2 (slot bds m) c ps -> (forall i, i ∈ c -> core bds' i = core bds i) ->
  (forall p, p ∈ ps -> m' !! p = m !! p) -> forall tot first f, stored bds m tot first c f -> stored bds' m' tot first c f.
Proof.
  induction 1 as [| i p c ps Hs Hsl IH]; intros Hb Hm tot first f; [done |].
  intros (d & p' & b & g & h & Hd & Hp & Hmp & Ef & Hg1 & Hg2 & Hg3 & Hsop & Heop & Hfst & Hrest).
  rewrite (slot_pbuf _ _ _ _ _ Hs Hd) in Hp. injection Hp as <-.
  destruct (core_at bds bds' i d) as (d' & Hd' & Ep & _ & El & Ef'); [apply Hb; left | done |].
  exists d', p, b, g, h. rewrite Hm, Ep, El, Ef' by left. split_and!; try done.
  - by apply (slot_pbuf bds m i).
  - destruct c; [done |]. destruct Hrest as [? Hrest]. split; [done |].
    apply IH; [| | done]; intros; [apply Hb | apply Hm]; by right.
Qed.
Lemma armed_ext bds m bds' m' i p : slot bds m i p -> core bds' i = core bds i -> m' !! p = m !! p -> armed bds m i -> armed bds' m' i.
Proof.
  intros Hs Hb Hm (d & p' & b & Hd & Hp & Hmp & El & Ho & Hq). rewrite (slot_pbuf _ _ _ _ _ Hs Hd) in Hp. injection Hp as <-.
  destruct (core_at bds bds' i d) as (d' & Hd' & Ep & _ & El' & Ef'); [done | done |].
  exists d', p, b. rewrite Hm, Ep, El', Ef'. split_and!; try done. by apply (slot_pbuf bds m i).
Qed.
Lemma Forall_armed_ext bds m bds' m' c ps : Forall2 (slot bds m) c ps -> (forall i, i ∈ c -> core bds' i = core bds i) ->
  (forall p, p ∈ ps -> m' !! p = m !! p) -> Forall (armed bds m) c -> Forall (armed bds' m') c.
Proof.
  induction 1 as [| i p c ps Hs Hsl IH]; intros Hb Hm; [constructor |]. intros [Ha Hc]%Forall_cons. constructor.
  - apply (armed_ext bds m _ _ _ p); [done | apply Hb; left | apply Hm; left | done].
  - apply IH; [| | done]; intros; [apply Hb | apply Hm]; by right.
Qed.

Lemma in_ring_app q q' : in_ring (q ++ q') = in_ring q ++ in_ring q'.
Proof. unfold in_ring. by rewrite fmap_app, join_app. Qed.
Lemma in_ring_one c f : in_ring [(c, f)] = c.
Proof. unfold in_ring. cbn. by rewrite app_nil_r. Qed.
Lemma in_ring_elem q k i : k ∈ q -> i ∈ fst k -> i ∈ in_ring q.
Proof. intros Hk Hi. apply list_elem_of_join. exists (fst k). split; [done |]. by apply list_elem_of_fmap_2. Qed.

(** The slots of one packet. *)
Lemma packet_slots bds m q ar ps k : Forall2 (slot bds m) (in_ring q ++ ar) ps -> k ∈ q ->
  exists pk, Forall2 (slot bds m) (fst k) pk /\ forall p, p ∈ pk -> p ∈ ps.
Proof.
  intros Hs (q1 & q2 & ->)%list_elem_of_split. rewrite in_ring_app in Hs. destruct k as [c f].
  change ((c, f) :: q2) with ([(c, f)] ++ q2) in Hs. rewrite in_ring_app, in_ring_one, <- !app_assoc in Hs.
  apply Forall2_app_inv_l in Hs as (p1 & p2 & _ & Hs & ->). apply Forall2_app_inv_l in Hs as (pk & p3 & Hk & _ & ->).
  exists pk. split; [done |]. intros p Hp. rewrite !elem_of_app. auto.
Qed.
Lemma packets_ext bds m bds' m' q ar ps : Forall2 (slot bds m) (in_ring q ++ ar) ps -> (forall i, i ∈ in_ring q -> core bds' i = core bds i) ->
  (forall p, p ∈ ps -> m' !! p = m !! p) -> Forall (packet_in bds m) q -> Forall (packet_in bds' m') q.
Proof.
  intros Hs Hb Hm Hq. apply Forall_forall. intros k Hk. destruct (packet_slots _ _ _ _ _ _ Hs Hk) as (pk & Hpk & Hin).
  pose proof (proj1 (Forall_forall _ _) Hq k Hk) as [Hl Hst]. split; [done |]. apply (stored_ext bds m _ _ _ pk Hpk); [| | done].
  - intros i Hi. apply Hb. by eapply in_ring_elem.
  - intros p Hp. by apply Hm, Hin.
Qed.

(** ** The EMAC keeps the invariant *)

Lemma buffer_shape b b' : shape b' = shape b -> buffer b -> buffer b'.
Proof. intros (_ & Ep & _ & El & Et & _ & Er & Ez)%shape_fields. unfold buffer, Zlen. by rewrite Ep, El, Et, Er, Ez. Qed.
Lemma slots_shape bds m m' c ps : same_shape m m' -> Forall2 (slot bds m) c ps -> Forall2 (slot bds m') c ps.
Proof.
  intros Hsh Hs. apply (Forall2_impl (slot bds m)); [done |]. intros i p (d & b & Hd & Hp & Ha & Hb & Hbuf). destruct (shape_at _ _ _ _ Hsh Hb) as (b' & Hb' & E).
  exists d, b'. split_and!; try done. by apply (buffer_shape b).
Qed.
Lemma put_data_shape f b : Zlen f <= Zlen (sp_block b) -> shape (put_data SIZEOF_STRUCT_PBUF f b) = shape b.
Proof.
  intros Hf. unfold put_data, shape. destruct b. cbn. f_equal. rewrite Z.sub_diag. cbn in *. unfold put. rewrite !length_app, length_take, length_drop.
  unfold Zlen in Hf. lia.
Qed.
Lemma put_data_take f b : take (length f) (sp_block (put_data SIZEOF_STRUCT_PBUF f b)) = f.
Proof. unfold put_data, put. rewrite Z.sub_diag. change (Z.to_nat 0) with 0%nat. cbn [sp_block with_block]. rewrite take_0, app_nil_l. apply take_app_length. Qed.
Lemma shape_insert m p b b' : m !! p = Some b -> shape b' = shape b -> same_shape m (<[p := b']> m).
Proof. intros Hp E. unfold same_shape. rewrite fmap_insert, E. apply insert_id. by rewrite lookup_fmap, Hp. Qed.

(** What a frame leaves behind. *)
Record written (tot : Z) (first : bool) (c : list nat) (f : list Z) (pc : list pptr)
    (bds : list txbd) (m : gmap pptr spbuf) (bds' : list txbd) (m' : gmap pptr spbuf) : Prop := {
  wr_slots : Forall2 (slot bds' m') c pc;
  wr_stored : stored bds' m' tot first c f;
  wr_bds : forall i, i ∉ c -> bds' !! i = bds !! i;
  wr_mem : forall p, p ∉ pc -> m' !! p = m !! p;
  wr_shape : same_shape m m';
  wr_next : forall i, td_next <$> bds' !! i = td_next <$> bds !! i;
  wr_linked : linked bds c (next_of bds c);
  wr_last : forall e, last c = Some e -> bit EMAC_BUF_DESC_EOQ bds' e = bool_decide (next_of bds c = None)
}.
Lemma slot_write bds m i p d d' b f tot first lst : slot bds m i p -> bds !! i = Some d -> m !! p = Some b -> armed bds m i ->
  Zlen f <= td_bufoff_len d -> filled_bd tot first lst (Zlen f) d d' ->
  slot (<[i := d']> bds) (<[p := put_data SIZEOF_STRUCT_PBUF f b]> m) i p /\ shape (put_data SIZEOF_STRUCT_PBUF f b) = shape b
  /\ td_pbuf d' = Some p /\ 0 < Zlen (sp_block b) <= 256.
Proof.
  intros (d1 & b1 & Hd1 & Hp1 & Ha1 & Hb1 & Hbuf) Hd Hb (d2 & p2 & b2 & Hd2 & Hp2 & Hb2 & El & _) Hf [En Eb Ep _ _ _ _ _].
  assert (d1 = d) as -> by congruence. assert (b1 = b) as -> by congruence. assert (d2 = d) as -> by congruence.
  assert (p2 = p) as -> by congruence. assert (b2 = b) as -> by congruence. destruct Hbuf as (Ht & Hpay & Hr & Hl & Hz).
  assert (Hsh : shape (put_data SIZEOF_STRUCT_PBUF f b) = shape b) by (apply put_data_shape; lia).
  split; [| split; [done |]; split; [congruence | rewrite Hz; unfold PBUF_POOL_BUFSIZE_ALIGNED; lia]]. exists d', (put_data SIZEOF_STRUCT_PBUF f b).
  rewrite list_lookup_insert_eq by (by eapply lookup_lt_Some). rewrite lookup_insert_eq, Eb, Ep.
  split_and!; try done. by apply (buffer_shape b).
Qed.
Lemma writes_ok tot first c f st st' : writes tot first c f st st' -> forall pc, Forall2 (slot (fst st) (snd st)) c pc -> NoDup c -> NoDup pc ->
  Forall (armed (fst st) (snd st)) c -> written tot first c f pc (fst st) (snd st) (fst st') (snd st').
Proof.
  induction 1 as [first i f d d' p off b bds m Hd Ha Hm Hf Hfd | first i j c f g d d' p off b bds m st Hd Ha Hm Hf Hn Hfd Hw IH];
    intros pc Hs Hc Hpc Hai; cbn [fst snd] in *.
  - apply Forall2_cons_inv_l in Hs as (p' & ? & Hsl & ->%Forall2_nil_inv_l & ->).
    assert (p' = p /\ off = SIZEOF_STRUCT_PBUF) as [-> ->] by (destruct Hsl as (d0 & b0 & ? & _ & ? & _); simplify_eq; done).
    apply Forall_cons in Hai as [Hai _]. destruct (slot_write bds m i p d d' b f tot first true Hsl Hd Hm Hai) as (Hsl' & Hsh & Hp' & Hz); [lia | done |].
    assert (Hi : (i < length bds)%nat) by (by eapply lookup_lt_Some). destruct Hfd as [En Eb Ep El Es Ee Ef Eq].
    assert (Enx : next_of bds [i] = td_next d) by (unfold next_of; cbn; by rewrite Hd). split.
    + by constructor.
    + exists d', p, (put_data SIZEOF_STRUCT_PBUF f b), f, []. rewrite list_lookup_insert_eq, lookup_insert_eq, app_nil_r, put_data_take by done.
      split_and!; try done; lia.
    + intros k Hk. apply list_lookup_insert_ne. intros ->. apply Hk. left.
    + intros k Hk. apply lookup_insert_ne. intros ->. apply Hk. left.
    + by apply (shape_insert _ _ b).
    + intros k. destruct (decide (k = i)) as [-> | Hne]; [rewrite list_lookup_insert_eq, Hd by done; cbn; by rewrite En | by rewrite list_lookup_insert_ne].
    + rewrite Enx. cbn [linked hd_or]. by rewrite Hd.
    + intros e [= <-]. unfold bit, word. rewrite list_lookup_insert_eq by done. rewrite Enx. by apply Eq.
  - apply Forall2_cons_inv_l in Hs as (p' & pc' & Hsl & Hsl' & ->).
    assert (p' = p /\ off = SIZEOF_STRUCT_PBUF) as [-> ->] by (destruct Hsl as (d0 & b0 & ? & _ & ? & _); simplify_eq; done).
    apply Forall_cons in Hai as [Hai Hac]. destruct (slot_write bds m i p d d' b f tot first false Hsl Hd Hm Hai) as (Hsl1 & Hsh & Hp' & Hz); [lia | done |].
    assert (Hi : (i < length bds)%nat) by (by eapply lookup_lt_Some).
    apply NoDup_cons in Hc as [Hic Hc]. apply NoDup_cons in Hpc as [Hpp Hpc].
    assert (Hne : forall k, k ∈ j :: c -> <[i:=d']> bds !! k = bds !! k) by (intros k Hk; apply list_lookup_insert_ne; by intros ->).
    assert (Hnm : forall k, k ∈ pc' -> <[p:=put_data SIZEOF_STRUCT_PBUF f b]> m !! k = m !! k) by (intros k Hk; apply lookup_insert_ne; by intros ->).
    assert (Hcr : forall k, k ∈ j :: c -> core (<[i:=d']> bds) k = core bds k) by (intros k Hk; by apply core_eq, Hne).
    destruct (IH pc') as [Ws Wst Wb Wm Wsh Wn Wl We]; [by apply (slots_ext bds m) | done | done | by apply (Forall_armed_ext bds m _ _ _ pc') |].
    assert (Enx : next_of (<[i:=d']> bds) (j :: c) = next_of bds (i :: j :: c)).
    { unfold next_of. change (last (i :: j :: c)) with (last (j :: c)). destruct (last (j :: c)) as [e |] eqn:Ee; [| done]. cbn.
      rewrite Hne; [done |]. by apply last_Some_elem_of. }
    assert (El : forall k, td_next <$> <[i:=d']> bds !! k = td_next <$> bds !! k).
    { intros k. destruct (decide (k = i)) as [-> | Hki]; [rewrite list_lookup_insert_eq, Hd by done; cbn; by rewrite (fd_next _ _ _ _ _ _ Hfd) |].
      by rewrite list_lookup_insert_ne. }
    assert (Hsl2 : slot (fst st) (snd st) i p) by (by apply (slot_ext (<[i:=d']> bds) (<[p:=put_data SIZEOF_STRUCT_PBUF f b]> m)); auto using core_eq).
    split.
    + by constructor.
    + exists d', p, (put_data SIZEOF_STRUCT_PBUF f b), f, g. rewrite Wb, Wm, list_lookup_insert_eq, lookup_insert_eq, put_data_take by done.
      assert (Hfb : 0 < Zlen f /\ Zlen f = sp_len b).
      { destruct Hai as (d2 & p2 & b2 & Hd2 & Hp2 & Hb2 & E2 & _).
        destruct Hsl as (d3 & b3 & Hd3 & Hp3 & _ & Hb3 & (_ & _ & _ & Hl & _)). simplify_eq. lia. }
      destruct Hfb, Hfd. by split_and!.
    + intros k [Hk1 Hk2]%not_elem_of_cons. rewrite Wb by done. by apply list_lookup_insert_ne.
    + intros k [Hk1 Hk2]%not_elem_of_cons. rewrite Wm by done. by apply lookup_insert_ne.
    + unfold same_shape in *. rewrite Wsh. by apply (shape_insert _ _ b).
    + intros k. by rewrite Wn.
    + split; [by rewrite Hd; cbn; rewrite Hn |]. apply (linked_ext (<[i:=d']> bds)); [done |]. by rewrite <- Enx.
    + intros e He. rewrite <- Enx. by apply We.
Qed.

Lemma receiving_bit t : receiving t = from_option (bit EMAC_BUF_DESC_SOP (rx_bds t)) false (rx_hdp t).
Proof. unfold receiving, bit, word. destruct (rx_hdp t) as [h |]; [| done]. cbn. by destruct (rx_bds t !! h). Qed.

(** A frame takes the first of the armed descriptors. *)
Lemma linked_prefix bds c : forall ar n, c <> [] -> linked bds c n -> linked bds ar None -> head c = head ar ->
  exists ar', ar = c ++ ar' /\ n = head ar'.
Proof.
  induction c as [| i c IH]; intros [| j ar] n Hc Hl Ha; [done.. |]. intros [= <-].
  destruct Hl as [Hi Hl], Ha as [Hj Ha]. rewrite Hi in Hj. injection Hj as Hj. destruct c as [| k c].
  - exists ar. split; [done |]. cbn in Hj. rewrite Hj. by destruct ar.
  - destruct (IH ar n) as (ar' & -> & ->); [done.. | | by exists ar']. cbn in Hj. by destruct ar; [| injection Hj as ->].
Qed.
Lemma hd_or_None l : hd_or None l = head l.
Proof. by destruct l. Qed.
Lemma last_app_some {A} (l1 l2 : list A) x : last (l1 ++ l2) = Some x -> l2 <> [] -> last l2 = Some x.
Proof. rewrite last_app. destruct (last l2) eqn:E; [done |]. intros _ H. by apply last_None in E. Qed.

Lemma writes_nonempty tot first c f st st' : writes tot first c f st st' -> c <> [].
Proof. by destruct 1. Qed.

Lemma writes_linked tot first c f st st' : writes tot first c f st st' -> exists n, linked (fst st) c n.
Proof.
  induction 1 as [first i f d d' p off b bds m Hd Ha Hm Hf Hfd | first i j c f g d d' p off b bds m st Hd Ha Hm Hf Hn Hfd Hw [n IH]]; cbn [fst].
  - exists (td_next d). cbn. by rewrite Hd.
  - exists n. split; [by rewrite Hd; cbn; rewrite Hn |]. apply (linked_ext (<[i:=d']> bds)); [| done]. intros k _.
    destruct (decide (k = i)) as [-> | Hki]; [| by rewrite list_lookup_insert_ne].
    rewrite list_lookup_insert_eq by (by eapply lookup_lt_Some). rewrite Hd. cbn. by rewrite (fd_next _ _ _ _ _ _ Hfd).
Qed.

Lemma frame_ok ext t q ar ps c f bds m : rx_ok ext t q ar ps -> rx_hdp t = head c -> 0 < Zlen f <= RXMAXLEN ->
  writes (Zlen f) true c f (rx_bds t, ps_mem (rx_store t)) (bds, m) ->
  exists ar', rx_ok ext (frame_in f c bds m t) (q ++ [(c, f)]) ar' ps /\ receiving (frame_in f c bds m t) = false.
Proof.
  intros [Hnd Hh Htl Hl Hf Hfr Hhdp Hs Hp Ha Hid He Hbn Hct Hrm Hrp Hst] Hc Hlen Hw.
  pose proof (writes_nonempty _ _ _ _ _ _ Hw) as Hcne. destruct (writes_linked _ _ _ _ _ _ Hw) as [n Hn].
  pose proof Hl as Hla. apply linked_app in Hla as [_ Hla].
  destruct (linked_prefix _ _ _ _ Hcne Hn Hla) as (ar' & -> & ->); [congruence |].
  assert (Hid' : Forall (fun i => bit EMAC_BUF_DESC_SOP (rx_bds t) i = false) ar').
  { destruct c as [| i c]; [done |]. cbn in Hid. by apply Forall_app in Hid as [_ ?]. }
  exists ar'.
  assert (EA : in_ring (q ++ [(c, f)]) ++ ar' = in_ring q ++ c ++ ar') by (by rewrite in_ring_app, in_ring_one, <- app_assoc).
  pose proof Hs as Hsp. apply Forall2_app_inv_l in Hsp as (p1 & p2 & H1 & Hsp & ->). apply Forall2_app_inv_l in Hsp as (pc & p3 & H2 & H3 & ->).
  pose proof Hnd as Hnd'. apply NoDup_app in Hnd' as (_ & Hd1 & Hnd'). apply NoDup_app in Hnd' as (Hcd & Hd2 & _).
  pose proof Hbn as Hbn'. apply NoDup_app in Hbn' as (_ & Hb1 & Hbn'). apply NoDup_app in Hbn' as (Hpcd & Hb2 & _).
  apply Forall_app in Ha as [Hac Haa].
  destruct (writes_ok _ _ _ _ _ _ Hw pc H2 Hcd Hpcd Hac) as [Ws Wst Wb Wm Wsh Wn Wl We]. cbn [fst snd] in *.
  assert (Hbq : forall i, i ∈ in_ring q -> bds !! i = rx_bds t !! i) by (intros i Hi; apply Wb; intros Hin; apply (Hd1 i Hi), elem_of_app; by left).
  assert (Hba : forall i, i ∈ ar' -> bds !! i = rx_bds t !! i) by (intros i Hi; apply Wb; intros Hin; by apply (Hd2 i)).
  assert (Hma : forall p, p ∈ p3 -> m !! p = ps_mem (rx_store t) !! p) by (intros i Hi; apply Wm; intros Hin; by apply (Hb2 i)).
  assert (Hmq : forall p, p ∈ p1 -> m !! p = ps_mem (rx_store t) !! p) by (intros i Hi; apply Wm; intros Hin; apply (Hb1 i Hi), elem_of_app; by left).
  assert (En : next_of bds c = head ar').
  { destruct (last c) as [e |] eqn:Ee; [| by apply last_None in Ee]. unfold next_of. rewrite Ee. cbn [mbind option_bind].
    pose proof (linked_last _ _ _ _ Hn Ee) as E2. pose proof (Wn e) as E. rewrite E2 in E. destruct (bds !! e) as [d |]; [| done]. cbn in E |- *. congruence. }
  split; [| rewrite receiving_bit; cbn [frame_in rx_hdp rx_bds]; rewrite En; destruct ar' as [| k ar']; [done |]; cbn [head from_option];
    apply Forall_cons in Hid' as [Hk _]; unfold bit, word; rewrite Hba by left; exact Hk].
  split; rewrite ?EA; cbn [frame_in rx_bds rx_store active_head rx_active_tail rx_free_head freed_pbuf_len rx_hdp set_mem ps_mem]; try done.
  - by apply (linked_ext (rx_bds t)).
  - repeat apply Forall2_app; [| done |]; apply (slots_ext (rx_bds t) (ps_mem (rx_store t))); auto using core_eq.
  - apply Forall_app. split; [| constructor; [by split | constructor]].
    apply (packets_ext (rx_bds t) (ps_mem (rx_store t)) _ _ q [] p1); [by rewrite app_nil_r | auto using core_eq | done | done].
  - apply (Forall_armed_ext (rx_bds t) (ps_mem (rx_store t)) _ _ _ p3); auto using core_eq.
  - apply Forall_forall. intros i Hi. assert (Hin : i ∈ ar') by (destruct ar'; [by apply elem_of_nil in Hi | by right]).
    unfold bit, word. rewrite Hba by done. by apply (proj1 (Forall_forall _ _) Hid').
  - intros e Hlast. destruct (decide (ar' = [])) as [-> | Hne].
    + rewrite app_nil_r in Hlast. apply last_app_some in Hlast; [| done]. rewrite (We e Hlast), !bool_decide_true; try done.
      pose proof (linked_last _ _ _ _ Wl Hlast) as E1. pose proof (linked_last _ _ _ _ Hn Hlast) as E2. cbn in E2. congruence.
    + rewrite app_assoc in Hlast. apply last_app_some in Hlast; [| done]. unfold bit, word. rewrite Hba by by apply last_Some_elem_of.
      specialize (He e). rewrite app_assoc, last_app, Hlast in He. unfold bit, word in He. rewrite He, !bool_decide_false; try done.
      by destruct c.
  - rewrite (room_ext (ps_mem (rx_store t))); [done |]. intros p _. by apply shape_lens.
  - unfold nexts. cbn. by rewrite (shape_nexts _ _ Wsh).
  - unfold nexts. cbn. rewrite (shape_nexts _ _ Wsh). by apply reshape_ok.
Qed.

Lemma begins_ok ext t q ar ps h d w : rx_ok ext t q ar ps -> rx_hdp t = Some h -> rx_bds t !! h = Some d ->
  flag EMAC_BUF_DESC_OWNER w = true -> flag EMAC_BUF_DESC_EOQ w = false -> rx_ok ext (rx_upd_bds (<[h := td_set_flags w d]>) t) q ar ps.
Proof.
  intros [Hnd Hh Htl Hl Hf Hfr Hhdp Hs Hp Ha Hid He Hbn Hct Hrm Hrp Hst] Hc Hd Ho Hq.
  assert (Hlt : (h < length (rx_bds t))%nat) by (by eapply lookup_lt_Some).
  assert (Hat : forall i, <[h:=td_set_flags w d]> (rx_bds t) !! i = if decide (i = h) then Some (td_set_flags w d) else rx_bds t !! i).
  { intros i. case_decide as E; [rewrite E; by apply list_lookup_insert_eq | by apply list_lookup_insert_ne]. }
  destruct ar as [| h' ar]; [cbn in Hhdp; congruence |]. assert (h' = h) as -> by (cbn in Hhdp; congruence).
  assert (Hni : h ∉ in_ring q) by (apply NoDup_app in Hnd as (_ & Hni & _); intros Hin; apply (Hni h Hin); left).
  assert (Hna : h ∉ ar) by (apply NoDup_app in Hnd as (_ & _ & Hnd); by apply NoDup_cons in Hnd as [? _]).
  split; cbn [rx_upd_bds rx_bds rx_store active_head rx_active_tail rx_free_head freed_pbuf_len rx_hdp]; try done.
  - apply (linked_ext (rx_bds t)); [| done]. intros i _. rewrite Hat. case_decide as E; [by rewrite E, Hd | done].
  - apply (Forall2_impl (slot (rx_bds t) (ps_mem (rx_store t)))); [done |]. intros i p (d0 & b & Hd0 & Hx). unfold slot. rewrite Hat.
    case_decide as E; [| by exists d0, b]. rewrite E, Hd in Hd0. injection Hd0 as <-. by exists (td_set_flags w d), b.
  - apply (packets_ext (rx_bds t) (ps_mem (rx_store t)) _ _ q (h :: ar) ps); try done. intros i Hi. apply core_eq. rewrite Hat, decide_False; [done |]. by intros ->.
  - apply Forall_cons in Ha as [(d1 & p & b & Hd1 & Hp1 & Hb & El & _) Ha]. constructor.
    + exists (td_set_flags w d), p, b. rewrite Hat, decide_True by done. assert (d1 = d) as -> by congruence. by split_and!.
    + apply Forall_forall. intros i Hi. pose proof (proj1 (Forall_forall _ _) Ha i Hi) as (d2 & ?). exists d2. rewrite Hat, decide_False; [done |]. by intros ->.
  - apply Forall_forall. intros i Hi. unfold bit, word. rewrite Hat, decide_False by (by intros ->). by apply (proj1 (Forall_forall _ _) Hid).
  - intros e Hlast. unfold bit, word. rewrite Hat. case_decide as E; [cbn; by rewrite Hq | by apply He].
Qed.

(** Whatever the EMAC does: the frames it took are behind those in the ring. *)
Lemma emac_ok ext t t' q ar ps : rx_ok ext t q ar ps -> rtc emac_step t t' ->
  exists q' ar', rx_ok ext t' (q ++ q') ar' ps /\ rx_wire t' = rx_wire t ++ (snd <$> q')
  /\ spare (rx_store t') = spare (rx_store t) /\ rx_active_tail t' = rx_active_tail t.
Proof.
  intros Hok Hr. revert q ar Hok. induction Hr as [t | t t1 t' Hstep _ IH]; intros q ar Hok.
  - exists [], ar. cbn. by rewrite !app_nil_r.
  - destruct Hstep as [t h d w Hh Hd _ Ho Hq | t c f bds m Hh Hlen Hw].
    + destruct (IH q ar) as (q' & ar' & Hok' & Hw & Hsp); [by apply begins_ok |]. by exists q', ar'.
    + destruct (frame_ok _ _ _ _ _ _ _ _ _ Hok Hh Hlen Hw) as (ar1 & Hok1 & _). destruct (IH _ _ Hok1) as (q' & ar' & Hok' & Hw' & Hsp).
      exists ((c, f) :: q'), ar'. rewrite <- app_assoc in Hok'. split; [done |]. split; [| done]. rewrite Hw'. cbn. by rewrite <- app_assoc.
Qed.

(** ** Making a packet of filled buffers *)

(** Pbufs linked in order, the last one to [e]. *)
Fixpoint path (l : links) (ps : list pptr) (e : option pptr) : Prop :=
  match ps with
  | [] => True
  | p :: ps => l !! p = Some (match ps with [] => e | q :: _ => Some q end) /\ path l ps e
  end.
Lemma path_ext l l' ps e : (forall p, p ∈ ps -> l' !! p = l !! p) -> path l ps e -> path l' ps e.
Proof.
  induction ps as [| p ps IH]; [done |]. intros Hl [Hp Hps]. split; [by rewrite Hl by left |]. apply IH; [| done]. intros q Hq. apply Hl. by right.
Qed.
Lemma path_chain l ps p : path l (p :: ps) None -> chain l (Some p) (p :: ps).
Proof.
  revert p. induction ps as [| q ps IH]; intros p [Hp Hps]; (split; [done |]); [by exists None |]. exists (Some q). split; [done | by apply IH].
Qed.
(** Closing it. *)
Lemma path_close l ps x e : NoDup (ps ++ [x]) -> path l (ps ++ [x]) e -> path (<[x := None]> l) (ps ++ [x]) None.
Proof.
  induction ps as [| p ps IH]; intros Hnd; [intros _; split; [apply lookup_insert_eq | done] |]. cbn in Hnd. apply NoDup_cons in Hnd as [Hni Hnd].
  intros [Hp Hps]. split; [| by apply IH]. rewrite lookup_insert_ne by (intros <-; apply Hni, elem_of_app; right; left). rewrite Hp. by destruct ps.
Qed.

(** The buffers [ps] as a packet with the bytes [f]. *)
Fixpoint received (m : gmap pptr spbuf) (ps : list pptr) (f : list Z) : Prop :=
  match ps with
  | [] => f = []
  | p :: ps => exists b g h, m !! p = Some b /\ buffer b /\ f = g ++ h /\ sp_len b = Zlen g /\ g = take (length g) (sp_block b)
      /\ sp_tot_len b = Zlen f /\ received m ps h
  end.
Lemma received_ext m m' ps : (forall p, p ∈ ps -> m' !! p = m !! p) -> forall f, received m ps f -> received m' ps f.
Proof.
  induction ps as [| p ps IH]; [done |]. intros Hm f (b & g & h & Hb & ? & ? & ? & ? & ? & Hr). exists b, g, h. rewrite Hm by left.
  split_and!; try done. apply IH; [| done]. intros q Hq. apply Hm. by right.
Qed.

(** One turn of the loop changes one pbuf. *)
Definition regather (next : option pptr) (tot n : Z) (b : spbuf) : spbuf := with_next next (with_lens tot n b).
Lemma taken_length {A} (g l : list A) : g = take (length g) l -> (length g <= length l)%nat.
Proof. intros E. apply (f_equal length) in E. rewrite length_take in E. lia. Qed.
Lemma regather_buffer next tot g b : buffer b -> 0 < Zlen g -> g = take (length g) (sp_block b) -> buffer (regather next tot (Zlen g) b).
Proof.
  intros (? & ? & ? & ? & Hz) Hpos Hg%taken_length. unfold buffer, Zlen, PBUF_POOL_BUFSIZE_ALIGNED in *. cbn. split_and!; try done; lia.
Qed.

Definition next_pbuf (ps : list pptr) (t : pptr) : pptr := match ps with [] => t | q :: _ => q end.

(** The next link the loop finds or makes. *)
Lemma find_next t i p c pc j n d b dj : slot (rx_bds t) (ps_mem (rx_store t)) i p -> Forall2 (slot (rx_bds t) (ps_mem (rx_store t))) c pc ->
  linked (rx_bds t) (i :: c) (Some j) -> rx_bds t !! j = Some dj -> td_pbuf dj = Some n -> rx_bds t !! i = Some d ->
  sp_next b = None \/ sp_next b = Some (next_pbuf pc n) ->
  (match sp_next b with Some n => Some (Some n) | None => n ← td_next d; dn ← rx_bds t !! n; Some (td_pbuf dn) end)
    = Some (Some (next_pbuf pc n)) /\ td_next d = Some (default j (head c)).
Proof.
  intros Hs Hsl [Hl _] Hj Hjp Hd Hn. rewrite Hd in Hl. cbn in Hl. injection Hl as Hl.
  assert (En : td_next d = Some (default j (head c))) by (rewrite Hl; by destruct c). split; [| done].
  destruct Hn as [-> | ->]; [| done]. rewrite En. destruct Hsl as [| i' p' c pc (d' & b' & Hd' & Hp' & _) _]; cbn.
  - by rewrite Hj; cbn; rewrite Hjp.
  - by rewrite Hd'; cbn; rewrite Hp'.
Qed.

(** One descriptor of the loop: its buffer is given its lengths and linked on. *)
Lemma gather_S fuel i tot ex lta t d p b n : rx_bds t !! i = Some d -> td_pbuf d = Some p -> ps_mem (rx_store t) !! p = Some b ->
  (match sp_next b with Some n => Some (Some n) | None => n ← td_next d; dn ← rx_bds t !! n; Some (td_pbuf dn) end) = Some (Some n) ->
  let g := Z.land (td_bufoff_len d) 0xFFFF in let t1 := rx_put (put_pbuf p (regather (Some n) (u16 (tot - ex)) g b) (rx_store t)) t in
  gather (S fuel) i tot ex lta t = if flag EMAC_BUF_DESC_EOP (td_flags d) then Some (i, p, td_next d, u32 (lta + sp_len b), t1)
    else k ← td_next d; gather fuel k tot (u32 (ex + g)) (u32 (lta + sp_len b)) t1.
Proof. intros Hd Hp Hb Hn. cbn [gather]. rewrite Hd. cbn. rewrite Hp. cbn. rewrite Hb. cbn. by rewrite Hn. Qed.

(** A row's first buffer is unlinked, or linked to the one after it. *)
Lemma row_next s pre p b n suf : rope (nexts s) (pre ++ p :: n :: suf) -> ps_mem s !! p = Some b ->
  sp_next b = None \/ sp_next b = Some n.
Proof.
  intros [[Hp' | (u & Hu & Hp')] _]%rope_tail Hb; unfold nexts in Hp'; rewrite lookup_fmap, Hb in Hp'; cbn in *; [left | right]; congruence.
Qed.

Lemma gather_ok ext j dj n suf tot : forall c pc pre fuel i first f ex lta t, head c = Some i ->
  rx_bds t !! j = Some dj -> td_pbuf dj = Some n -> linked (rx_bds t) c (Some j) ->
  Forall2 (slot (rx_bds t) (ps_mem (rx_store t))) c pc -> stored (rx_bds t) (ps_mem (rx_store t)) tot first c f ->
  NoDup (pre ++ pc ++ n :: suf) -> rope (nexts (rx_store t)) (pre ++ pc ++ n :: suf) ->
  store_at kind_ok (heads (nexts (rx_store t)) true (pre ++ pc ++ n :: suf) ⊎ ext) (rx_store t) ->
  0 <= ex -> ex + Zlen f < 65536 -> tot = ex + Zlen f -> 0 <= lta -> lta + room (ps_mem (rx_store t)) pc < 65536 -> (length c <= fuel)%nat ->
  exists e x s', last c = Some e /\ last pc = Some x /\ gather fuel i tot ex lta t = Some (e, x, Some j, lta + room (ps_mem (rx_store t)) pc, rx_put s' t)
  /\ rope (nexts s') (pre ++ pc ++ n :: suf) /\ store_at kind_ok (heads (nexts s') true (pre ++ pc ++ n :: suf) ⊎ ext) s'
  /\ received (ps_mem s') pc f /\ path (nexts s') pc (Some n) /\ (forall p, p ∉ pc -> ps_mem s' !! p = ps_mem (rx_store t) !! p)
  /\ spare s' = spare (rx_store t).
Proof.
  induction c as [| i c IH]; intros pc pre fuel i' first f ex lta t Hi Hj Hjp Hl Hs Hst Hnd Hr Hok Hex Hlt Htot Hlta Hroom Hfuel; [done |].
  injection Hi as <-. destruct fuel as [| fuel]; [cbn in Hfuel; lia |]. apply Forall2_cons_inv_l in Hs as (p & pc' & Hsl & Hs & ->).
  destruct Hst as (d & p' & b & g & h & Hd & Hp & Hb & -> & Hg1 & Hg2 & Hg3 & Hsop & Heop & _ & Hrest).
  assert (p' = p) as -> by (pose proof (slot_pbuf _ _ _ _ _ Hsl Hd); congruence).
  assert (Hbuf : buffer b) by (destruct Hsl as (d0 & b0 & _ & _ & _ & Hb0 & Hbuf); congruence).
  assert (Erow : pre ++ (p :: pc') ++ n :: suf = pre ++ p :: next_pbuf pc' n :: (tail (pc' ++ n :: suf))) by (by destruct pc').
  assert (Hnext : sp_next b = None \/ sp_next b = Some (next_pbuf pc' n)) by (rewrite Erow in Hr; by apply (row_next _ _ _ _ _ _ Hr)).
  destruct (find_next t i p c pc' j n d b dj Hsl Hs Hl Hj Hjp Hd Hnext) as [Efn Etd].
  rewrite (gather_S fuel i tot ex lta t d p b _ Hd Hp Hb Efn), Hg1. cbv zeta. rewrite Zlen_app in *. pose proof (Zlen_nonneg h) as Hh0.
  rewrite (u16_small (tot - ex)) by (unfold is_u16; lia).
  set (b' := regather _ _ _ _). set (s1 := put_pbuf p b' (rx_store t)).
  assert (Hb1 : buffer b') by (by apply regather_buffer).
  rewrite (room_cons _ _ _ _ Hb) in Hroom |- *.
  pose proof (room_bounds _ _ (slot_buffers _ _ _ _ Hs)) as Hrb.
  assert (Hlb : 0 < sp_len b) by (by destruct Hbuf as (_ & _ & _ & [? _] & _)).
  rewrite (u32_small (lta + sp_len b)) by (unfold is_u32; lia).
  destruct (relink_ok ext (rx_store t) pre p (next_pbuf pc' n) (tail (pc' ++ n :: suf)) b b') as [Hr1 Hok1];
    try (rewrite <- Erow); try done; [by right |]. rewrite <- Erow in Hr1, Hok1. fold s1 in Hr1, Hok1.
  assert (Hpn : p ∉ pc' ++ n :: suf) by (apply NoDup_app in Hnd as (_ & _ & Hnd); by apply NoDup_cons in Hnd as [? _]).
  assert (Hpc' : p ∉ pc') by (intros Hin; apply Hpn, elem_of_app; by left).
  assert (Hm1 : forall q, q ∈ pc' -> ps_mem s1 !! q = ps_mem (rx_store t) !! q) by (intros q Hq; unfold s1; apply put_ne; by intros ->).
  rewrite Heop. destruct c as [| k c]; [| destruct Hrest as [_ Hrest]].
  - apply Forall2_nil_inv_l in Hs as ->. subst h. rewrite bool_decide_true by done. exists i, p, s1. cbn [last].
    split; [done |]. split; [done |]. rewrite Etd. cbn [head default]. split; [by rewrite Z.add_0_r |].
    split; [done |]. split; [done |]. split; [| split; [| split; [| done]]].
    + exists b', g, []. unfold s1. rewrite put_eq. split_and!; try done. cbn. rewrite app_nil_r. unfold Zlen in *. cbn in Htot. lia.
    + split; [| done]. unfold nexts, s1. cbn. by rewrite fmap_insert, lookup_insert_eq.
    + intros q Hq. unfold s1. apply put_ne. intros ->. apply Hq. left.
  - rewrite bool_decide_false by done. change (default j (head (k :: c))) with k in Etd. rewrite Etd. cbn [mbind option_bind].
    rewrite (u32_small (ex + Zlen g)) by (unfold is_u32; lia).
    assert (Erow2 : pre ++ (p :: pc') ++ n :: suf = (pre ++ [p]) ++ pc' ++ n :: suf) by (by rewrite <- app_assoc).
    destruct (IH pc' (pre ++ [p]) fuel k false h (ex + Zlen g) (lta + sp_len b) (rx_put s1 t)) as
      (e & x & s' & He & Hx & Eg & Hr' & Hok' & Hrec & Hpath & Hsame & Hsp); try done; try (rewrite <- Erow2; done); cbn [rx_put rx_bds rx_store].
    + by destruct Hl as [_ Hl].
    + apply (slots_ext (rx_bds t) (ps_mem (rx_store t))); done.
    + by apply (stored_ext (rx_bds t) (ps_mem (rx_store t)) _ _ _ pc').
    + lia.
    + lia.
    + lia.
    + lia.
    + rewrite (room_ext (ps_mem (rx_store t))); [lia |]. intros q Hq. by rewrite Hm1.
    + cbn in Hfuel |- *. lia.
    + assert (Epp : pc' <> []) by (intros ->; by apply Forall2_nil_inv_r in Hs).
      assert (Hsp1 : ps_mem s' !! p = Some b') by (rewrite Hsame by done; unfold s1; apply put_eq).
      exists e, x, s'. rewrite <- Erow2 in Hr', Hok'. split; [done |]. split; [by destruct pc' |]. split.
      { rewrite Eg, (room_ext (ps_mem (rx_store t)) (ps_mem s1)) by (intros q Hq; by rewrite Hm1). do 3 f_equal. lia. }
      split; [done |]. split; [done |]. split; [| split; [| split; [| done]]].
      * exists b', g, h. split_and!; try done. cbn. rewrite Zlen_app. lia.
      * split; [| done]. unfold nexts. rewrite lookup_fmap, Hsp1. cbn. by destruct pc'.
      * intros q [Hq1 Hq2]%not_elem_of_cons. rewrite Hsame by done. unfold s1. by apply put_ne.
Qed.

(** ** Fresh buffers *)

Definition refilled (bds bds' : list txbd) (m : gmap pptr spbuf) (i : nat) (p : pptr) : Prop :=
  exists d b, bds !! i = Some d /\ m !! p = Some b /\ bds' !! i = Some (arm_bd (td_next d) p b).

Lemma refill_ok hA : forall c ns fuel last0 t, length c = length ns -> linked (rx_bds t) c (Some hA) -> hA ∉ c -> NoDup c ->
  active_head t = Some hA -> chain (nexts (rx_store t)) (head ns) ns -> buffers (ps_mem (rx_store t)) ns ->
  room (ps_mem (rx_store t)) ns <= freed_pbuf_len t < 65536 -> (length ns <= fuel)%nat ->
  exists bds', refill fuel (head ns) (hd_or (Some hA) c) last0 t
    = Some (Some hA, (match last c with Some e => Some e | None => last0 end), None,
        rx_set_freed (freed_pbuf_len t - room (ps_mem (rx_store t)) ns) (rx_upd_bds (fun _ => bds') t))
  /\ (forall i, i ∉ c -> bds' !! i = rx_bds t !! i) /\ Forall2 (refilled (rx_bds t) bds' (ps_mem (rx_store t))) c ns.
Proof.
  induction c as [| i c IH]; intros [| p ns] fuel last0 t Hlen Hl Hni Hnd HA Hc Hbuf Hroom Hfuel; try done.
  { exists (rx_bds t). split; [| done]. destruct fuel; cbn; rewrite ?Z.sub_0_r; by destruct t. }
  destruct fuel as [| fuel]; [cbn in Hfuel; lia |]. apply not_elem_of_cons in Hni as [Hne Hni]. apply NoDup_cons in Hnd as [Hic Hnd].
  destruct Hl as [Hi Hl]. apply fmap_Some in Hi as (d & Hd & Hnx). apply Forall_cons in Hbuf as [(b & Hb & Hbb) Hbuf].
  destruct Hc as [_ (n & Hn & Hc)]. unfold nexts in Hn. rewrite lookup_fmap, Hb in Hn. injection Hn as Hn.
  assert (Hhd : sp_next b = head ns) by (rewrite Hn; apply chain_head in Hc; destruct ns; [done | by destruct Hc]).
  cbn [head refill hd_or]. rewrite HA, decide_False by congruence. cbn [mbind option_bind]. rewrite Hb. cbn [mbind option_bind].
  unfold rx_upd. rewrite Hd. cbn [mbind option_bind].
  destruct Hbb as (Hty & Hpay & Href & Hbl & Hz). unfold PBUF_POOL_BUFSIZE_ALIGNED in Hbl.
  assert (Eland : Z.land (sp_len b) 0xFFFF = sp_len b) by (change 0xFFFF with (Z.ones 16); rewrite Z.land_ones by lia; apply Z.mod_small; lia).
  pose proof (room_bounds _ _ Hbuf) as Hrb. rewrite (room_cons _ _ _ _ Hb) in Hroom |- *.
  set (bds1 := alter (fun d => mk_txbd (td_next d) (Some (p, sp_payload b)) (Z.land (sp_len b) 0xFFFF) EMAC_BUF_DESC_OWNER (Some p)) i (rx_bds t)).
  assert (Hi1 : bds1 !! i = Some (arm_bd (td_next d) p b)) by (unfold bds1; rewrite list_lookup_alter_eq, Hd; cbn; by rewrite Eland).
  assert (Hb1 : forall k, k <> i -> bds1 !! k = rx_bds t !! k) by (intros k Hk; unfold bds1; by apply list_lookup_alter_ne).
  cbn [rx_set_freed rx_upd_bds rx_bds freed_pbuf_len]. fold bds1. rewrite Hi1. cbn [mbind option_bind arm_bd td_next]. rewrite (u32_small (freed_pbuf_len t - sp_len b)) by (unfold is_u32; lia).
  set (t1 := rx_set_freed _ _). rewrite <- Hnx, Hhd.
  destruct (IH ns fuel (Some i) t1) as (bds' & E & Hsame & Hfill); try done; cbn [t1 rx_set_freed rx_upd_bds rx_bds freed_pbuf_len rx_store].
  - cbn in Hlen. lia.
  - apply (linked_ext (rx_bds t)); [| done]. intros k Hk. rewrite Hb1; [done |]. by intros ->.
  - by rewrite <- Hhd, Hn.
  - lia.
  - cbn in Hfuel. lia.
  - exists bds'. split; [| split].
    + rewrite E. cbn [t1 rx_set_freed rx_upd_bds rx_bds freed_pbuf_len rx_store].
      rewrite Z.sub_add_distr, last_cons. by destruct (last c).
    + intros k [Hk1 Hk2]%not_elem_of_cons. rewrite Hsame by done. cbn. by rewrite Hb1.
    + constructor.
      * exists d, b. rewrite Hsame by done. done.
      * apply (Forall2_impl_in (refilled bds1 bds' (ps_mem (rx_store t)))); [| done].
        intros k q Hk Hq (d' & b' & Hd' & ?). exists d', b'. rewrite Hb1 in Hd'; [done |]. by intros ->.
Qed.

(** The descriptors after the fresh ones are linked behind the last one. *)
Definition relinked (bds : list txbd) (e e2 h : nat) : list txbd :=
  alter (td_set_next (Some h)) e2 (alter (td_set_next None) e bds).
Lemma relinked_at bds e e2 h i : e <> e2 -> core (relinked bds e e2 h) i = core bds i
  /\ (i <> e -> i <> e2 -> relinked bds e e2 h !! i = bds !! i)
  /\ (is_Some (bds !! e) -> td_next <$> relinked bds e e2 h !! e = Some None)
  /\ (is_Some (bds !! e2) -> td_next <$> relinked bds e e2 h !! e2 = Some (Some h)).
Proof.
  intros Hne. unfold relinked, core. split; [| split; [| split]].
  - destruct (decide (i = e2)) as [-> | H2].
    + rewrite list_lookup_alter_eq, list_lookup_alter_ne by done. by destruct (bds !! e2).
    + rewrite list_lookup_alter_ne by done. destruct (decide (i = e)) as [-> | H1]; [rewrite list_lookup_alter_eq; by destruct (bds !! e) |].
      by rewrite list_lookup_alter_ne.
  - intros H1 H2. by rewrite !list_lookup_alter_ne.
  - intros [d Hd]. rewrite list_lookup_alter_ne by done. rewrite list_lookup_alter_eq, Hd. done.
  - intros [d Hd]. rewrite list_lookup_alter_eq, list_lookup_alter_ne, Hd by done. done.
Qed.

(** What the fresh buffers [ns] in the descriptors [c] come to. *)
Record replenished (t : rxch) (rest c : list nat) (ns : list pptr) (s : pstore) (bds : list txbd) (t' : rxch) : Prop := {
  rp_eq : t' = mk_rxch bds (active_head t) (active_head t) (last c) 0
    (if from_option (bit EMAC_BUF_DESC_EOQ (rx_bds t)) false (rx_active_tail t) then head c else rx_hdp t) (rx_cp t) s (rx_wire t);
  rp_linked : linked bds (rest ++ c) None;
  rp_rest : forall i, i ∈ rest -> core bds i = core (rx_bds t) i;
  rp_fresh : Forall2 (fun i p => exists b n, ps_mem s !! p = Some b /\ bds !! i = Some (arm_bd n p b)) c ns
}.

Lemma replenish_ok E last0 rest c h hA e2 t : store_at kind_ok E (rx_store t) -> head c = Some h -> linked (rx_bds t) c (Some hA) ->
  head rest = Some hA -> linked (rx_bds t) rest None -> NoDup (rest ++ c) -> last rest = Some e2 -> active_head t = Some hA ->
  rx_active_tail t = Some e2 -> rx_free_head t = Some h -> 0 < freed_pbuf_len t < 65536 ->
  needed (freed_pbuf_len t) = length c -> (length c <= spare (rx_store t))%nat ->
  exists ns s bds t', replenish last0 t = Some (last c, t') /\ replenished t rest c ns s bds t'
  /\ store_at kind_ok (opt_ms (head ns) ⊎ E) s /\ chain (nexts s) (head ns) ns
  /\ added (ps_mem (rx_store t)) (ps_mem s) ns (freed_pbuf_len t)
  /\ (forall x, x ∉ ns -> ps_mem s !! x = ps_mem (rx_store t) !! x) /\ (spare s + length c = spare (rx_store t))%nat.
Proof.
  intros Hs Hh Hlc HhA Hlr Hnd Hlast Hah Hat Hfh Hfr Hneed Hsp. unfold replenish, rx_do.
  rewrite u16_small by (unfold is_u16; lia).
  destruct (alloc_row E (rx_store t) (freed_pbuf_len t) Hs Hfr) as (ns & s & Ea & Hok & Hch & Had & Hsame & Hspare); [lia |].
  rewrite Ea. cbn [mbind option_bind]. pose proof (ad_length _ _ _ _ Had) as Hln. rewrite Hneed in Hln.
  destruct ns as [| p ns]; [destruct c; done |]. cbn [head].
  apply NoDup_app in Hnd as (Hndr & Hrc & Hndc).
  assert (HAc : hA ∉ c) by (apply Hrc; destruct rest; [done | injection HhA as ->; left]).
  destruct (refill_ok hA c (p :: ns) (store_fuel s) last0 (rx_put s t)) as (bds & Er & Hbsame & Hfill); try done; cbn [rx_put rx_store freed_pbuf_len].
  { by eapply ad_buf. }
  { rewrite (ad_room _ _ _ _ Had). lia. }
  { pose proof (chain_length _ _ _ Hch) as Hl. unfold nexts in Hl. by rewrite map_size_fmap in Hl. }
  assert (Ehc : hd_or (Some hA) c = Some h) by (by destruct c). rewrite Ehc in Er. cbn [head rx_put rx_store freed_pbuf_len] in Er.
  rewrite (ad_room _ _ _ _ Had), Z.sub_diag in Er. cbn [rx_put rx_store rx_free_head]. rewrite Hfh, Er. cbn [mbind option_bind].
  cbn [rx_set_freed rx_upd_bds rx_put rx_active_tail]. rewrite Hat. cbn [mbind option_bind].
  destruct (last c) as [e |] eqn:Ee; [| apply last_None in Ee; by subst]. cbn [mbind option_bind].
  assert (Hec : e ∈ c) by by apply last_Some_elem_of. assert (He2 : e2 ∈ rest) by by apply last_Some_elem_of.
  assert (Hne : e <> e2) by (intros ->; by apply (Hrc e2)).
  assert (Hfe : forall i, i ∈ c -> exists d q b, rx_bds t !! i = Some d /\ bds !! i = Some (arm_bd (td_next d) q b)).
  { intros i [k Hk]%list_elem_of_lookup. destruct (Forall2_lookup_l _ _ _ _ _ Hfill Hk) as (q & _ & d & b & Hd & _ & Hb). by exists d, q, b. }
  destruct (Hfe e Hec) as (de & qe & be & Hde & Hbe). destruct (linked_in _ _ _ _ Hlr He2) as [d2 Hd2].
  assert (Hb2 : bds !! e2 = Some d2) by (rewrite Hbsame; [done |]; by apply Hrc).
  unfold rx_upd. cbn [rx_bds rx_upd_bds rx_set_freed rx_put]. rewrite Hbe. cbn [mbind option_bind rx_bds rx_upd_bds rx_set_freed rx_put].
  rewrite list_lookup_alter_ne, Hb2 by done. cbn [mbind option_bind rx_bds rx_upd_bds rx_free_head rx_put rx_set_freed].
  rewrite Hfh. fold (relinked bds e e2 h). destruct (relinked_at bds e e2 h e2 Hne) as (Hc2 & _ & _ & Hn2).
  destruct (core_at _ _ _ _ Hc2 Hb2) as (d2' & Hd2' & _ & _ & _ & Ef). rewrite Hd2'. cbn [mbind option_bind]. rewrite Ef.
  exists (p :: ns), s, (relinked bds e e2 h). eexists. split; [done |].
  split; [| split; [exact Hok |]; split; [exact Hch |]; split; [exact Had |]; split; [exact Hsame | lia]]. split.
  - rewrite Hah, Ee, Hat. cbn [from_option]. unfold bit, word. rewrite Hd2. cbn [from_option]. rewrite Hh. unfold rx_set_tail, rx_set_free, rx_set_hdp, rx_upd_bds. cbn.
    destruct (flag _ _); cbn; rewrite ?Hah; done.
  - apply linked_app. split.
    + assert (Eh : hd_or None c = Some h) by (by destruct c). rewrite Eh. apply (linked_relink (rx_bds t) _ rest e2 None); try done.
      * intros i Hi Hi2. destruct (relinked_at bds e e2 h i Hne) as (_ & Hr & _). rewrite Hr; [| intros ->; by apply (Hrc e) | done].
        rewrite Hbsame; [done |]. by apply Hrc.
      * apply Hn2. eauto.
    + apply (linked_relink (rx_bds t) _ c e (Some hA)); try done.
      * intros i Hi Hie. destruct (relinked_at bds e e2 h i Hne) as (_ & Hr & _). rewrite Hr; [| done | intros ->; by apply (Hrc e2)].
        destruct (Hfe i Hi) as (d & q & b & Hd & Hb). by rewrite Hd, Hb.
      * destruct (relinked_at bds e e2 h e Hne) as (_ & _ & Hr & _). apply Hr. eauto.
  - intros i Hi. destruct (relinked_at bds e e2 h i Hne) as (Hr & _). rewrite Hr. apply core_eq, Hbsame. by apply Hrc.
  - apply (Forall2_impl_in (refilled (rx_bds t) bds (ps_mem s))); [| done]. intros i q Hi _ (d & b & Hd & Hb & Hbi).
    destruct (relinked_at bds e e2 h i Hne) as (Hr & _). unfold core in Hr. rewrite Hbi in Hr.
    destruct (relinked bds e e2 h !! i) as [d' |]; [| done]. injection Hr as E1 E2 E3 E4. exists b, (td_next d'). split; [done |].
    destruct d' as [n' a l w q']. cbn [td_next td_bufptr td_bufoff_len td_flags td_pbuf] in *. by subst.
Qed.

(** ** One packet *)

(** The buffers are full but for little, so a packet needs few of them, and what it
    gives back is refilled whole. *)
Lemma part_room m ps1 ps2 : buffers m (ps1 ++ ps2) -> length (ps1 ++ ps2) = RX_BUFS -> room m (ps1 ++ ps2) = RX_ROOM ->
  256 * Z.of_nat (length ps1) - 220 <= room m ps1 <= 256 * Z.of_nat (length ps1).
Proof.
  intros Hb Hl Hr. apply Forall_app in Hb as [H1 H2]. pose proof (room_bounds _ _ H1). pose proof (room_bounds _ _ H2).
  rewrite length_app in Hl. rewrite room_app in Hr. unfold RX_BUFS, RX_ROOM, MAX_RX_PBUF_ALLOC, PBUF_LEN_MAX, MAX_TRANSFER_UNIT in *. lia.
Qed.
Lemma stored_room bds m c pc : Forall2 (slot bds m) c pc -> forall tot first f, stored bds m tot first c f -> room m pc < Zlen f + 256.
Proof.
  induction 1 as [| i p c pc Hs Hsl IH]; [done |]. intros tot first f (d & p' & b & g & h & Hd & Hp & Hb & -> & _ & _ & Hg & _ & _ & _ & Hrest).
  pose proof (slot_pbuf _ _ _ _ _ Hs Hd) as Hp2. assert (p' = p) as -> by congruence. destruct Hs as (d2 & b2 & _ & _ & _ & Hb2 & (_ & _ & _ & Hlen & _)).
  assert (b2 = b) as -> by congruence. unfold PBUF_POOL_BUFSIZE_ALIGNED in Hlen. unfold room in *. cbn [foldr]. rewrite Hb. cbn [from_option].
  rewrite Zlen_app. destruct Hsl as [| i' q c pc Hs' Hsl']; [cbn; pose proof (Zlen_nonneg h); lia |]. destruct Hrest as [E Hrest].
  specialize (IH _ _ _ Hrest). lia.
Qed.
Lemma needed_full len n : 256 * Z.of_nat n - 220 <= len <= 256 * Z.of_nat n -> needed len = n.
Proof. intros H. unfold needed. Z.div_mod_to_equations. lia. Qed.

(** The packet of the gathered buffers. *)
Lemma received_next m x b n ps : m !! x = Some b -> forall f, received m ps f -> received (<[x := with_next n b]> m) ps f.
Proof.
  intros Hx. induction ps as [| p ps IH]; intros f; [done |]. intros (c & g & h & Hc & Hbuf & ? & ? & ? & ? & Hr).
  destruct (decide (p = x)) as [-> | Hne].
  - assert (c = b) as -> by congruence. exists (with_next n b), g, h. rewrite lookup_insert_eq. split_and!; try done. by apply IH.
  - exists c, g, h. rewrite lookup_insert_ne by done. split_and!; try done. by apply IH.
Qed.
Lemma received_buffers m ps : forall f, received m ps f -> buffers m ps.
Proof. induction ps as [| p ps IH]; intros f; [constructor |]. intros (b & g & h & Hb & Hbuf & _ & _ & _ & _ & Hr). constructor; [eauto | by eapply IH]. Qed.

Lemma close_ok ext s pc n suf f p0 x : NoDup (pc ++ n :: suf) -> rope (nexts s) (pc ++ n :: suf) ->
  store_at kind_ok (heads (nexts s) true (pc ++ n :: suf) ⊎ ext) s -> received (ps_mem s) pc f -> path (nexts s) pc (Some n) ->
  head pc = Some p0 -> last pc = Some x ->
  exists s2, modify (with_next None) x s = Some (tt, s2) /\ rope (nexts s2) (n :: suf)
  /\ store_at kind_ok (heads (nexts s2) true (n :: suf) ⊎ ({[+ p0 +]} ⊎ ext)) s2 /\ chain (nexts s2) (Some p0) pc
  /\ received (ps_mem s2) pc f /\ (forall p, p ∉ pc -> ps_mem s2 !! p = ps_mem s !! p) /\ spare s2 = spare s.
Proof.
  intros Hnd Hr Hs Hrec Hpath H0 [pre ->]%last_Some.
  destruct (proj1 (Forall_forall _ _) (received_buffers _ _ _ Hrec) x) as (b & Hb & Hbuf); [apply elem_of_app; right; left |].
  exists (put_pbuf x (with_next None b) s). split; [by apply modify_eq |]. rewrite <- app_assoc in Hr, Hs, Hnd. cbn [app] in Hr, Hs, Hnd.
  destruct (relink_ok ext s pre x n suf b (with_next None b) Hnd Hr Hs Hb) as [Hr2 Hs2]; [by left | done | done | done |].
  set (s2 := put_pbuf _ _ _) in *.
  assert (Hn2 : nexts s2 = <[x := None]> (nexts s)) by (unfold nexts, s2; cbn; by rewrite fmap_insert).
  assert (Hch : chain (nexts s2) (Some p0) (pre ++ [x])).
  { assert (Hpp : path (nexts s2) (pre ++ [x]) None).
    { rewrite Hn2. apply (path_close _ _ _ (Some n)); [| done]. change (x :: n :: suf) with ([x] ++ n :: suf) in Hnd. rewrite app_assoc in Hnd. by apply NoDup_app in Hnd as (? & _). }
    destruct (pre ++ [x]) as [| y l]; [done |]. injection H0 as ->. by apply path_chain. }
  change (x :: n :: suf) with ([x] ++ n :: suf) in Hr2, Hs2. rewrite app_assoc in Hr2, Hs2.
  split; [by apply rope_tail in Hr2 |]. split; [| split; [done |]; split; [| split; [| done]]].
  - destruct (pre ++ [x]) as [| y l] eqn:E; [by destruct pre |]. injection H0 as ->.
    destruct (chain_rope _ _ _ Hch) as [Hrc Hh]. rewrite (rope_heads_app (nexts s2) (n :: suf) l p0 true Hrc), Hh in Hs2. cbn [opt_ms] in Hs2.
    replace (heads (nexts s2) true (n :: suf) ⊎ ({[+ p0 +]} ⊎ ext)) with ({[+ p0 +]} ⊎ heads (nexts s2) true (n :: suf) ⊎ ext) by multiset_solver.
    exact Hs2.
  - unfold s2. cbn. by apply received_next.
  - intros p Hp. unfold s2. apply put_ne. intros ->. apply Hp, elem_of_app. right. left.
Qed.

(** Its value. *)
Lemma received_value s pc f p0 : received (ps_mem s) pc f -> chain (nexts s) (Some p0) pc ->
  exists v, pbuf_at s p0 v /\ p_bytes v = f /\ p_tot_len v = tot s p0.
Proof.
  intros Hrec Hc. destruct pc as [| p pc]; [done |]. assert (p = p0) as -> by (by destruct Hc as [[= ->] _]).
  assert (Hsegs : forall ps f, received (ps_mem s) ps f -> mjoin (map ps_data (segs (ps_mem s) ps)) = f).
  { intros ps. induction ps as [| q ps IH]; intros f'; [done |]. intros (b & g & h & Hb & (Hty & Hpay & _) & -> & El & Eg & _ & Hr).
    rewrite (segs_cons _ _ _ _ Hb).
    change (ps_data (seg_of b) ++ mjoin (map ps_data (segs (ps_mem s) ps)) = g ++ h). rewrite (IH h Hr). f_equal. unfold seg_of, front, base. cbn [ps_data]. rewrite Hty, Hpay.
    rewrite Z.sub_diag, El. change (Z.to_nat 0) with 0%nat. rewrite drop_0. unfold Zlen. by rewrite Nat2Z.id. }
  pose proof Hrec as (b & g & h & Hb & Hbuf & _ & _ & _ & Etot & _).
  exists (mk_pbuf (seg_of b) (segs (ps_mem s) pc) (sp_flags b)).
  assert (Hbytes : p_bytes (mk_pbuf (seg_of b) (segs (ps_mem s) pc) (sp_flags b)) = f).
  { rewrite <- (Hsegs (p0 :: pc) f Hrec). by rewrite (segs_cons _ _ _ _ Hb). }
  split; [| split; [done |]].
  - exists b, pc. split; [done |]. split; [done |]. split; [| done]. intros x c Hx Hxc.
    destruct (proj1 (Forall_forall _ _) (received_buffers _ _ _ Hrec) x Hx) as (c' & Hc' & (Hty & Hpay & _ & Hl & Hz)).
    assert (c' = c) as -> by congruence. unfold backed, base. rewrite Hty, Hpay, Hz. lia.
  - unfold p_tot_len, tot, tot_of. rewrite Hbytes. cbn [from_option]. by rewrite Hb.
Qed.

(** The ring after the fresh buffers are in: the packet's descriptors are the last
    ones now. *)
Lemma ring_again ext t2 rest c q ar n suf ns s bds t' e2 : rest = in_ring q ++ ar -> replenished t2 rest c ns s bds t' ->
  NoDup (rest ++ c) -> c <> [] -> head rest = active_head t2 -> last rest = Some e2 -> rx_active_tail t2 = Some e2 ->
  rx_hdp t2 = head ar -> bit EMAC_BUF_DESC_EOQ (rx_bds t2) e2 = bool_decide (ar = []) ->
  Forall2 (slot (rx_bds t2) (ps_mem (rx_store t2))) rest (n :: suf) -> Forall (packet_in (rx_bds t2) (ps_mem (rx_store t2))) q ->
  Forall (armed (rx_bds t2) (ps_mem (rx_store t2))) ar -> Forall (fun i => bit EMAC_BUF_DESC_SOP (rx_bds t2) i = false) (tail ar) ->
  NoDup (n :: suf) -> rope (nexts (rx_store t2)) (n :: suf) ->
  store_at kind_ok (opt_ms (head ns) ⊎ (heads (nexts (rx_store t2)) true (n :: suf) ⊎ ext)) s ->
  chain (nexts s) (head ns) ns -> added (ps_mem (rx_store t2)) (ps_mem s) ns (freed_pbuf_len t2) ->
  (forall x, x ∉ ns -> ps_mem s !! x = ps_mem (rx_store t2) !! x) ->
  (length (n :: suf) + length ns)%nat = RX_BUFS -> room (ps_mem (rx_store t2)) (n :: suf) + freed_pbuf_len t2 = RX_ROOM ->
  rx_ok ext t' q (ar ++ c) ((n :: suf) ++ ns).
Proof.
  intros Erest [-> Hl Hcore Hfresh] Hnd Hc Hh He2 Htl Hhdp Heoq Hsl Hq Ha Hid Hps Hr Hs Hch [Hnew Hbuf Hroom Hlen] Hsame Hcnt Hrm.
  assert (Hold : forall p, p ∈ n :: suf -> ps_mem s !! p = ps_mem (rx_store t2) !! p).
  { intros p Hp. apply Hsame. intros Hin. apply Hnew in Hin.
    destruct (proj1 (Forall_forall _ _) (slot_buffers _ _ _ _ Hsl) p Hp) as (b & Hb & _). congruence. }
  assert (EA : in_ring q ++ ar ++ c = rest ++ c) by (by rewrite Erest, app_assoc). subst rest.
  assert (Hnx : forall p, p ∈ n :: suf -> nexts s !! p = nexts (rx_store t2) !! p) by (intros p Hp; unfold nexts; rewrite !lookup_fmap; by rewrite Hold).
  assert (Hfr : forall i, i ∈ c -> exists b p m', bds !! i = Some (arm_bd m' p b) /\ ps_mem s !! p = Some b /\ buffer b).
  { intros i [k Hk]%list_elem_of_lookup. destruct (Forall2_lookup_l _ _ _ _ _ Hfresh Hk) as (p & Hp & b & m' & Hb & Hi).
    destruct (proj1 (Forall_forall _ _) Hbuf p (list_elem_of_lookup_2 _ _ _ Hp)) as (b' & Hb' & Hbb). exists b, p, m'. split_and!; try done. congruence. }
  assert (Hne : in_ring q ++ ar <> []) by (intros E; by rewrite E in He2).
  split; rewrite ?EA; cbn [rx_bds rx_store active_head rx_active_tail rx_free_head freed_pbuf_len rx_hdp]; try done.
  - rewrite <- Hh. by destruct (in_ring q ++ ar).
  - rewrite last_app. destruct (last c) eqn:Ec; [done |]. by apply last_None in Ec.
  - by right.
  - rewrite Htl. cbn [from_option]. rewrite Heoq, Hhdp. destruct ar; [by rewrite bool_decide_true | by rewrite bool_decide_false].
  - apply Forall2_app.
    + by apply (slots_ext (rx_bds t2) (ps_mem (rx_store t2))).
    + apply (Forall2_impl_in (fun i p => exists b m', ps_mem s !! p = Some b /\ bds !! i = Some (arm_bd m' p b))); [| done].
      intros i p _ Hp (b & m' & Hb & Hi). destruct (proj1 (Forall_forall _ _) Hbuf p Hp) as (b' & Hb' & Hbb). assert (b' = b) as -> by congruence.
      exists (arm_bd m' p b), b. split_and!; try done. unfold arm_bd. cbn. by destruct Hbb as (_ & -> & _).
  - apply (packets_ext (rx_bds t2) (ps_mem (rx_store t2)) _ _ q ar (n :: suf)); try done. intros i Hi. apply Hcore, elem_of_app. by left.
  - apply Forall_app. split.
    + apply Forall2_app_inv_l in Hsl as (p1 & p2 & _ & Hsa & Ep). rewrite Ep in Hold.
      apply (Forall_armed_ext (rx_bds t2) (ps_mem (rx_store t2)) _ _ _ p2); try done.
      * intros i Hi. apply Hcore, elem_of_app. by right.
      * intros p Hp. apply Hold, elem_of_app. by right.
    + apply Forall_forall. intros i Hi. destruct (Hfr i Hi) as (b & p & m' & Hi' & Hb & _). exists (arm_bd m' p b), p, b. by split_and!.
  - assert (Hfc : Forall (fun i => bit EMAC_BUF_DESC_SOP bds i = false) c).
    { apply Forall_forall. intros i Hi. destruct (Hfr i Hi) as (b & p & m' & Hi' & _). unfold bit, word. by rewrite Hi'. }
    destruct ar as [| a ar]; cbn [app tail]; [by destruct c; [| inversion Hfc] |]. apply Forall_app. split; [| done].
    apply Forall_forall. intros i Hi. rewrite (core_bit _ (rx_bds t2)); [by apply (proj1 (Forall_forall _ _) Hid) |].
    apply Hcore, elem_of_app. right. by right.
  - intros e He. apply last_app_some in He; [| done]. destruct (Hfr e) as (b & p & m' & Hi' & _); [by apply last_Some_elem_of |].
    unfold bit, word. rewrite Hi'. cbn [from_option arm_bd td_flags]. rewrite bool_decide_false; [done |]. intros [_ ?]%app_eq_nil. done.
  - apply NoDup_app. split; [done |]. split; [| by eapply chain_NoDup]. intros p Hp Hin. apply Hnew in Hin.
    destruct (proj1 (Forall_forall _ _) (slot_buffers _ _ _ _ Hsl) p Hp) as (b & Hb & _). congruence.
  - by rewrite length_app.
  - rewrite room_app, (room_ext (ps_mem (rx_store t2)) (ps_mem s) (n :: suf)), Hroom; [done |]. intros p Hp. by rewrite Hold.
  - apply rope_app; [by apply (rope_ext (nexts (rx_store t2))) | by eapply chain_rope].
  - destruct (chain_rope _ _ _ Hch) as [_ Hh2]. rewrite (rope_heads_app (nexts s) ns suf n true), (Hh2 true);
      [| by apply (rope_ext (nexts (rx_store t2)))]. rewrite (heads_ext (nexts (rx_store t2))) by done.
    by rewrite (comm_L (⊎) (heads _ _ _)), <- (assoc_L (⊎)).
Qed.

(** What is left in the ring keeps the controller as it was. *)
Lemma receiving_after t2 q ar c ns s bds t' : replenished t2 (in_ring q ++ ar) c ns s bds t' -> rx_hdp t2 = head ar -> c <> [] ->
  from_option (bit EMAC_BUF_DESC_EOQ (rx_bds t2)) false (rx_active_tail t2) = bool_decide (ar = []) ->
  receiving t2 = false -> receiving t' = false.
Proof.
  intros [-> _ Hcore Hfresh] Hhdp Hc Heoq. rewrite !receiving_bit. cbn [rx_hdp rx_bds]. rewrite Heoq, Hhdp. destruct ar as [| k ar].
  - intros _. rewrite bool_decide_true by done. destruct c as [| i c]; [done |]. cbn [head from_option].
    destruct ns as [| p ns]; [by apply Forall2_nil_inv_r in Hfresh |]. apply Forall2_cons_1 in Hfresh as [(b' & n' & _ & Hbi) _].
    unfold bit, word. by rewrite Hbi.
  - rewrite bool_decide_false by done. cbn [head from_option]. intros Hbit. rewrite (core_bit _ (rx_bds t2)); [done |].
    apply Hcore, elem_of_app. right. left.
Qed.

Section Handler.
Context {W : Type} `{HU : UpperOk W}.

(** The pool can always replace what is handed up. *)
Definition budget (t : rxch) (w : W) : Prop := (PBUF_POOL_SIZE <= spare (rx_store t) + RX_BUFS + up_kept w)%nat.

(** Gathering, closing and handing up the first packet of the ring. *)
Lemma hand_up t t0 i c f q ar pc n suf w : rx_ok (up_held w) t ((i :: c, f) :: q) ar (pc ++ n :: suf) ->
  Forall2 (slot (rx_bds t) (ps_mem (rx_store t))) (i :: c) pc ->
  Forall2 (slot (rx_bds t) (ps_mem (rx_store t))) (in_ring q ++ ar) (n :: suf) ->
  rx_bds t0 = rx_bds t -> rx_store t0 = rx_store t ->
  exists hA e p0 x s1 s2 s3 w', head (in_ring q ++ ar) = Some hA /\ head pc = Some p0
  /\ gather (length (rx_bds t)) i (Zlen f) 0 0 t0 = Some (e, x, Some hA, room (ps_mem (rx_store t)) pc, rx_put s1 t0)
  /\ modify (with_next None) x s1 = Some (tt, s2)
  /\ ethernet_input p0 s2 w = Some (s3, w') /\ up_frames w' = up_frames w ++ [f]
  /\ store_at kind_ok (heads (nexts s3) true (n :: suf) ⊎ up_held w') s3 /\ rope (nexts s3) (n :: suf)
  /\ (forall p, p ∈ n :: suf -> ps_mem s3 !! p = ps_mem (rx_store t) !! p)
  /\ (spare (rx_store t) + length pc + up_kept w <= spare s3 + up_kept w')%nat.
Proof.
  intros Hok Hpc Hrest E1 E2. pose proof Hok as [Hnd _ _ Hl _ _ _ Hs Hq _ _ _ Hbn Hct Hrm Hr Hst].
  change ((i :: c, f) :: q) with ([(i :: c, f)] ++ q) in *. rewrite in_ring_app, in_ring_one, <- app_assoc in *.
  apply Forall_app in Hq as [[[Hlen Hstored] _]%Forall_cons _]. cbn [fst snd] in *. unfold RXMAXLEN in Hlen.
  apply linked_app in Hl as [Hlc Hlr].
  destruct (in_ring q ++ ar) as [| hA rest] eqn:Er; [by apply Forall2_nil_inv_l in Hrest |]. cbn [hd_or] in Hlc.
  pose proof (Forall2_cons_1 _ _ _ _ _ Hrest) as [(dj & bj & Hdj & Hpj & _) _].
  pose proof (stored_room _ _ _ _ Hpc _ _ _ Hstored) as Hroom.
  assert (Hlc2 : (length (i :: c) <= length (rx_bds t))%nat).
  { rewrite <- (length_seq (length (rx_bds t)) 0). apply submseteq_length, NoDup_submseteq; [by apply NoDup_app in Hnd as (? & _) |].
    intros k Hk. destruct (linked_in _ _ _ k Hlc Hk) as [d Hd]. apply elem_of_seq. split; [lia |]. by eapply lookup_lt_Some. }
  destruct (gather_ok (up_held w) hA dj n suf (Zlen f) (i :: c) pc [] (length (rx_bds t0)) i true f 0 0 t0) as
    (e & x & s1 & He & Hx & Eg & Hr1 & Hs1 & Hrec & Hpath & Hsame & Hsp1); rewrite ?E1, ?E2 in *; try done; try lia.
  assert (Hp0 : exists p0, head pc = Some p0) by (apply Forall2_cons_inv_l in Hpc as (p0 & ? & _ & _ & ->); by exists p0). destruct Hp0 as [p0 Hp0].
  destruct (close_ok (up_held w) s1 pc n suf f p0 x Hbn Hr1 Hs1 Hrec Hpath Hp0 Hx) as (s2 & Em & Hr2 & Hs2 & Hch & Hrec2 & Hsame2 & Hsp2).
  destruct (received_value s2 pc f p0 Hrec2 Hch) as (v & Hv & Hbytes & Htot).
  assert (Hold : forall p, p ∈ n :: suf -> ps_mem s2 !! p = ps_mem (rx_store t) !! p).
  { intros p Hp. apply NoDup_app in Hbn as (_ & Hd & _). rewrite Hsame2, Hsame; [done | |]; intros Hin; by apply (Hd p). }
  assert (Hones : forall p, p ∈ n :: suf -> exists b, ps_mem s2 !! p = Some b /\ sp_ref b = 1).
  { intros p Hp. rewrite Hold by done. destruct (proj1 (Forall_forall _ _) (slot_buffers _ _ _ _ Hrest) p Hp) as (b & Hb & (_ & _ & ? & _)). eauto. }
  destruct (input_ok (n :: suf) (heads (nexts s2) true (n :: suf)) p0 v s2 w Hs2) as (s3 & w' & Ei & Hs3 & Hsame3 & Hfr & Hkept); try done.
  { by apply (rope_apart kind_ok _ s2). }
  { intros p Hp. by eapply heads_elem. }
  assert (Hnx : forall p, p ∈ n :: suf -> nexts s3 !! p = nexts s2 !! p) by (intros p Hp; unfold nexts; rewrite !lookup_fmap; by rewrite Hsame3).
  exists hA, e, p0, x, s1, s2, s3, w'. split; [done |]. split; [done |]. split; [exact Eg |]. split; [exact Em |]. split; [exact Ei |].
  split; [by rewrite Hfr, Hbytes |]. split; [by rewrite (heads_ext (nexts s2)) |]. split; [by apply (rope_ext (nexts s2)) |].
  split; [intros p Hp; by rewrite Hsame3, Hold |]. specialize (Hkept pc Hch (received_buffers _ _ _ Hrec2)). rewrite Hsp2, Hsp1 in Hkept. lia.
Qed.

(** One turn of the loop, call by call. *)
Lemma packet_calls i p d last0 t t0 w e x hA len s1 s2 s3 w' tail' t' :
  t0 = match rx_free_head t with None => rx_set_free (Some i) t | Some _ => t end ->
  rx_bds t0 !! i = Some d -> td_pbuf d = Some p ->
  gather (length (rx_bds t0)) i (Z.land (td_flags d) 0xFFFF) 0 0 t0 = Some (e, x, hA, len, rx_put s1 t0) ->
  modify (with_next None) x s1 = Some (tt, s2) -> ethernet_input p s2 w = Some (s3, w') ->
  replenish last0 (let t1 := rx_set_head hA (rx_set_cp (Some e) (rx_put s3 (rx_put s2 (rx_put s1 t0)))) in
                   rx_set_freed (u32 (freed_pbuf_len t1 + len)) t1) = Some (tail', t') ->
  rx_packet i last0 t w = Some (tail', t', w').
Proof.
  intros -> Hd Hp Eg Em Ei Er. unfold rx_packet. rewrite Hd. cbn [mbind option_bind]. rewrite Hp. cbn [mbind option_bind].
  rewrite Eg. cbn [mbind option_bind]. unfold rx_do at 1. cbn [rx_put rx_store]. rewrite Em. cbn [mbind option_bind].
  cbn [rx_put rx_store]. rewrite Ei. cbn [mbind option_bind]. cbn zeta in Er. cbn [rx_put] in *. by rewrite Er.
Qed.

(** One turn of the handler's loop: the oldest frame goes up, and as many fresh
    buffers are behind the last descriptor. *)
Lemma packet_ok t w c f q ar ps : rx_ok (up_held w) t ((c, f) :: q) ar ps -> budget t w ->
  exists i t' w' ps', head c = Some i /\ rx_packet i (rx_active_tail t) t w = Some (rx_active_tail t', t', w')
  /\ rx_ok (up_held w') t' q (ar ++ c) ps' /\ budget t' w' /\ up_frames w' = up_frames w ++ [f] /\ rx_wire t' = rx_wire t
  /\ (receiving t = false -> receiving t' = false).
Proof.
  intros Hok Hbud. pose proof Hok as [Hnd Hh Htl Hl Hf Hfr Hhdp Hs Hq Ha Hid He Hbn Hct Hrm Hr Hst].
  change ((c, f) :: q) with ([(c, f)] ++ q) in Hnd, Hh, Htl, Hl, Hs, Hq, He. rewrite in_ring_app, in_ring_one, <- app_assoc in *.
  apply Forall_app in Hq as [[[Hlen Hstored] _]%Forall_cons Hq]. cbn [fst snd] in *.
  destruct c as [| i c]; [done |]. pose proof Hs as Hs'. apply Forall2_app_inv_l in Hs' as (pc & ps2 & Hpc & Hrest & ->).
  pose proof (stored_room _ _ _ _ Hpc _ _ _ Hstored) as Hroom. unfold RXMAXLEN in Hlen.
  pose proof (slot_buffers _ _ _ _ Hs) as Hbufs. destruct (part_room _ pc ps2 Hbufs Hct Hrm) as [Hlo Hhi].
  pose proof (Forall2_length _ _ _ Hpc) as Hlpc. pose proof (needed_full _ _ (conj Hlo Hhi)) as Hneed.
  destruct ps2 as [| n suf]; [rewrite app_nil_r in *; unfold RX_BUFS in Hct; lia |].
  set (t0 := match rx_free_head t with None => rx_set_free (Some i) t | Some _ => t end).
  assert (Ht0 : t0 = rx_set_free (Some i) t).
  { unfold t0. destruct Hf as [-> | E]; [done |]. rewrite Hh in E. cbn in E. rewrite E. destruct t. cbn in *. by rewrite E. }
  destruct (hand_up t t0 i c f q ar pc n suf w Hok Hpc Hrest) as
    (hA & e & p0 & x & s1 & s2 & s3 & w' & HhA & Hp0 & Eg & Em & Ei & Hfrm & Hs3 & Hr3 & Hold & Hkept); [by rewrite Ht0 | by rewrite Ht0 |].
  pose proof Hstored as (d & p & b & g & h & Hd & Hdp & _ & _ & _ & _ & _ & _ & _ & Hfirst & _). destruct (Hfirst eq_refl) as [_ Htot].
  assert (p = p0) as -> by (pose proof Hpc as (p' & ? & Hsi & _ & ->)%Forall2_cons_inv_l; pose proof (slot_pbuf _ _ _ _ _ Hsi Hd); cbn in Hp0; congruence).
  destruct (last (in_ring q ++ ar)) as [e2 |] eqn:He2; [| apply last_None in He2; by rewrite He2 in HhA].
  assert (Hlst : last ((i :: c) ++ in_ring q ++ ar) = Some e2) by (by rewrite last_app, He2).
  set (t2 := mk_rxch (rx_bds t) (Some i) (Some hA) (Some e2) (room (ps_mem (rx_store t)) pc) (rx_hdp t) (Some e) s3 (rx_wire t)).
  pose proof Hl as [Hlc Hlr]%linked_app. rewrite hd_or_None, HhA in Hlc.
  assert (Hnd' : NoDup ((in_ring q ++ ar) ++ i :: c)) by (by rewrite (comm app)).
  unfold budget in Hbud. cbn [length] in Hlpc. pose proof (room_bounds _ _ (slot_buffers _ _ _ _ Hpc)) as Hrb.
  set (t1 := rx_set_head (Some hA) (rx_set_cp (Some e) (rx_put s3 (rx_put s2 (rx_put s1 t0))))).
  assert (Et2 : rx_set_freed (u32 (freed_pbuf_len t1 + room (ps_mem (rx_store t)) pc)) t1 = t2).
  { unfold t1. rewrite Ht0. cbn [rx_set_head rx_set_cp rx_put rx_set_free freed_pbuf_len]. rewrite Hfr, Z.add_0_l, u32_small by (unfold is_u32; lia).
    unfold t2. by rewrite <- Hlst, <- Htl. }
  destruct (replenish_ok (heads (nexts s3) true (n :: suf) ⊎ up_held w') (rx_active_tail t) (in_ring q ++ ar) (i :: c) i hA e2 t2) as
    (ns & s4 & bds & t' & Er & Hrep & Hs4 & Hch4 & Had & Hsame4 & Hsp4); try done.
  { change (0 < room (ps_mem (rx_store t)) pc < 65536). lia. }
  { change (needed (room (ps_mem (rx_store t)) pc) = S (length c)). by rewrite Hneed. }
  { change (S (length c) <= spare s3)%nat. pose proof (kept_few w') as Hk. unfold MAX_KEPT, RX_BUFS in *. lia. }
  exists i, t', w', ((n :: suf) ++ ns). split; [done |].
  assert (Etail : rx_active_tail t' = last (i :: c)) by (by destruct Hrep as [-> _ _ _]).
  split; [| split; [| split; [| split; [done |]]]].
  - assert (Et0 : rx_bds t0 = rx_bds t) by (by rewrite Ht0).
    eapply (packet_calls i p0 d _ t t0); try done; [by rewrite Et0 | by rewrite Et0, Htot |].
    cbv zeta. fold t1. by rewrite Et2, Er, Etail.
  - pose proof (He e2 Hlst) as Heoq. apply NoDup_app in Hbn as (_ & _ & Hbn). rewrite room_app in Hrm. rewrite length_app in Hct.
    apply (ring_again (up_held w') t2 _ (i :: c) q ar n suf ns s4 bds t' e2 eq_refl); try done.
    + by apply (slots_ext (rx_bds t) (ps_mem (rx_store t))).
    + by apply (packets_ext (rx_bds t) (ps_mem (rx_store t)) _ _ q ar (n :: suf)).
    + pose proof Hrest as (p1 & p2 & _ & Hsa & Ep)%Forall2_app_inv_l. rewrite Ep in Hold.
      apply (Forall_armed_ext (rx_bds t) (ps_mem (rx_store t)) _ _ _ p2); try done. intros p Hp. apply Hold, elem_of_app. by right.
    + rewrite (ad_length _ _ _ _ Had). change (freed_pbuf_len t2) with (room (ps_mem (rx_store t)) pc). rewrite Hneed. lia.
    + change (freed_pbuf_len t2) with (room (ps_mem (rx_store t)) pc). change (rx_store t2) with s3.
      rewrite (room_ext (ps_mem (rx_store t)) (ps_mem s3)); [lia |]. intros p Hp. by rewrite Hold.
  - unfold budget. destruct Hrep as [-> _ _ _]. cbn [rx_store]. change (rx_store t2) with s3 in Hsp4. cbn [length] in Hsp4. lia.
  - split; [by destruct Hrep as [-> _ _ _] |]. change (receiving t) with (receiving t2).
    apply (receiving_after t2 q ar _ _ _ _ _ Hrep); [exact Hhdp | done |]. exact (He e2 Hlst).
Qed.

(** What the loop sees. *)
Lemma look_packet ext t c f q ar ps : rx_ok ext t ((c, f) :: q) ar ps ->
  exists i d, active_head t = Some i /\ head c = Some i /\ rx_bds t !! i = Some d
  /\ flag EMAC_BUF_DESC_SOP (td_flags d) = true /\ flag EMAC_BUF_DESC_OWNER (td_flags d) = false.
Proof.
  intros [_ Hh _ _ _ _ _ _ Hq _ _ _ _ _ _ _ _]. apply Forall_cons in Hq as [[_ Hst] _]. cbn [fst snd] in Hst. destruct c as [| i c]; [done |].
  destruct Hst as (d & p & b & g & h & Hd & _ & _ & _ & _ & _ & _ & Hs & _ & Hf & _). destruct (Hf eq_refl) as [Ho _]. by exists i, d.
Qed.
Lemma look_idle ext t ar ps : rx_ok ext t [] ar ps ->
  exists i d, active_head t = Some i /\ rx_bds t !! i = Some d /\ flag EMAC_BUF_DESC_SOP (td_flags d) = receiving t
  /\ flag EMAC_BUF_DESC_OWNER (td_flags d) = true.
Proof.
  intros [_ Hh _ _ _ _ Hhdp Hs _ Ha _ _ _ Hct _ _ _]. cbn in *. apply Forall2_length in Hs. destruct ar as [| i ar]; [cbn in Hs; unfold RX_BUFS in Hct; lia |].
  apply Forall_cons in Ha as [(d & p & b & Hd & _ & _ & _ & Ho & _) _]. exists i, d. split; [done |]. split; [done |]. split; [| done].
  rewrite receiving_bit, Hhdp. cbn. unfold bit, word. by rewrite Hd.
Qed.

(** The ring at rest, everything handed up. *)
Record drained (t t' : rxch) (w' : W) : Prop := {
  dr_ok : exists ar ps, rx_ok (up_held w') t' [] ar ps;
  dr_budget : budget t' w';
  dr_quiet : receiving t' = false;
  dr_frames : up_frames w' = rx_wire t';
  dr_wire : rx_wire t `prefix_of` rx_wire t'
}.
Lemma drained_trans t t1 t' w' : rx_wire t `prefix_of` rx_wire t1 -> drained t1 t' w' -> drained t t' w'.
Proof. intros Hp [? ? ? ? ?]. split; try done. by transitivity (rx_wire t1). Qed.

(** A look, with the EMAC's action done, and what comes after it. *)
Definition rx_look (fuel : nat) (dma : list (rxch -> rxch)) (last : option nat) (t : rxch) (w : W) : option (rxch * W) :=
  curr ← active_head t;
  d ← rx_bds t !! curr;
  if flag EMAC_BUF_DESC_SOP (td_flags d) then
    match fuel with
    | O => None
    | S fuel =>
        if flag EMAC_BUF_DESC_OWNER (td_flags d) then rx_loop fuel dma last t w
        else '(last, t, w) ← rx_packet curr last t w; rx_loop fuel dma last t w
    end
  else Some (t, w).
Lemma rx_loop_look fuel dma last0 t w :
  rx_loop fuel dma last0 t w = rx_look fuel (tail dma) last0 (match dma with [] => t | f :: _ => f t end) w.
Proof. by destruct fuel. Qed.

Definition pending (t : rxch) (w : W) (q : list packet) : Prop :=
  (exists ar ps, rx_ok (up_held w) t q ar ps) /\ budget t w /\ rx_wire t = up_frames w ++ (snd <$> q).
Definition drains (run : nat -> option (rxch * W)) (t : rxch) : Prop :=
  exists n t' w', (forall fuel, (n <= fuel)%nat -> run fuel = Some (t', w')) /\ drained t t' w'.

Lemma look_ok dma t w q : pending t w q -> (dma = [] -> receiving t = false) ->
  (forall t2 w2 q2, pending t2 w2 q2 -> (dma = [] -> receiving t2 = false /\ (length q2 < length q)%nat) ->
     drains (fun fuel => rx_loop fuel dma (rx_active_tail t2) t2 w2) t2) ->
  drains (fun fuel => rx_look fuel dma (rx_active_tail t) t w) t.
Proof.
  intros ((ar & ps & Hok) & Hbud & Hwire) Hrcv Hnext. unfold rx_look. destruct q as [| [c f] q].
  - destruct (look_idle _ _ _ _ Hok) as (i & d & Hh & Hd & Hs & Ho). rewrite Hh. cbn [mbind option_bind]. rewrite Hd. cbn [mbind option_bind].
    rewrite Hs, Ho. destruct (receiving t) eqn:Er.
    + destruct (Hnext t w []) as (n & t' & w' & Hrun & Hdr); [by split; [eauto |] | intros ->; by specialize (Hrcv eq_refl) |].
      exists (S n), t', w'. split; [| done]. intros [| fuel] Hf; [lia |]. apply Hrun. lia.
    + exists 0%nat, t, w. split; [done |]. split; [eauto | done | done | | done]. by rewrite Hwire, app_nil_r.
  - destruct (look_packet _ _ _ _ _ _ _ Hok) as (i & d & Hh & Hc & Hd & Hs & Ho). rewrite Hh. cbn [mbind option_bind]. rewrite Hd. cbn [mbind option_bind].
    rewrite Hs, Ho. destruct (packet_ok t w c f q ar ps Hok Hbud) as (i' & t2 & w2 & ps2 & Hc' & Ep & Hok2 & Hbud2 & Hfr & Hw2 & Hrc).
    assert (i' = i) as -> by congruence. destruct (Hnext t2 w2 q) as (n & t' & w' & Hrun & Hdr).
    + split; [eauto |]. split; [done |]. rewrite Hw2, Hwire, Hfr. cbn. by rewrite <- app_assoc.
    + intros ->. split; [apply Hrc, Hrcv; done | cbn; lia].
    + exists (S n), t', w'. split; [| apply (drained_trans t t2); [by rewrite Hw2 | done]]. intros [| fuel] Hf; [lia |].
      rewrite Ep. cbn [mbind option_bind]. apply Hrun. lia.
Qed.

Lemma loop_quiet : forall k t w q, (length q < k)%nat -> pending t w q -> receiving t = false ->
  drains (fun fuel => rx_loop fuel [] (rx_active_tail t) t w) t.
Proof.
  induction k as [| k IH]; intros t w q Hk Hp Hr; [lia |].
  destruct (look_ok [] t w q Hp (fun _ => Hr)) as (n & t' & w' & Hrun & Hdr).
  - intros t2 w2 q2 Hp2 H2. destruct (H2 eq_refl) as [Hr2 Hl]. apply (IH t2 w2 q2); [lia | done | done].
  - exists n, t', w'. split; [| done]. intros fuel Hf. rewrite rx_loop_look. by apply Hrun.
Qed.
Lemma loop_ok dma : forall t w q, script_ok dma -> pending t w q -> (dma = [] -> receiving t = false) ->
  drains (fun fuel => rx_loop fuel dma (rx_active_tail t) t w) t.
Proof.
  induction dma as [| f dma IH]; intros t w q [Hdma Hlast] Hp Hr; [by eapply loop_quiet; [apply Nat.lt_succ_diag_r | | apply Hr] |].
  apply Forall_cons in Hdma as [Hf Hdma]. destruct Hp as ((ar & ps & Hok) & Hbud & Hwire).
  destruct (emac_ok _ _ _ _ _ _ Hok (Hf t)) as (q' & ar' & Hok1 & Hw1 & Hsp & Htl).
  assert (Hp1 : pending (f t) w (q ++ q')).
  { split; [eauto |]. split; [unfold budget; by rewrite Hsp |]. by rewrite Hw1, Hwire, fmap_app, app_assoc. }
  assert (Hscr : script_ok dma).
  { split; [done |]. intros g Hg. apply Hlast. rewrite last_cons, Hg. done. }
  assert (Hr1 : dma = [] -> receiving (f t) = false) by (intros ->; by eapply Hlast).
  destruct (look_ok dma (f t) w (q ++ q') Hp1 Hr1) as (n & t' & w' & Hrun & Hdr).
  - intros t2 w2 q2 Hp2 H2. apply (IH t2 w2 q2); [done | done |]. intros E. by apply H2.
  - exists n, t', w'. split; [| apply (drained_trans t (f t)); [rewrite Hw1; by apply prefix_app_r | done]].
    intros fuel Hf'. rewrite rx_loop_look. cbn [tail]. rewrite <- Htl. by apply Hrun.
Qed.
End Handler.

(** ** Initialisation *)

Lemma rx_do_eq {A} (m : PM A) t a s : m (rx_store t) = Some (a, s) -> rx_do m t = Some (a, rx_put s t).
Proof. unfold rx_do. by intros ->. Qed.

Definition armed_with (bds : list txbd) (m : gmap pptr spbuf) (i : nat) (p : pptr) : Prop :=
  exists b, m !! p = Some b /\ bds !! i = Some (arm_bd (Some (S i)) p b).

Lemma arm_chain_ok ns : forall fuel curr last0 num t, chain (nexts (rx_store t)) (head ns) ns -> (curr + length ns <= length (rx_bds t))%nat ->
  (length ns <= fuel)%nat -> exists bds, arm_chain fuel (head ns) curr last0 num t
    = Some (curr + length ns, (match ns with [] => last0 | _ => pred (curr + length ns) end), num - length ns, rx_upd_bds (fun _ => bds) t)%nat
  /\ length bds = length (rx_bds t) /\ (forall i, (i < curr)%nat -> bds !! i = rx_bds t !! i)
  /\ Forall2 (armed_with bds (ps_mem (rx_store t))) (seq curr (length ns)) ns.
Proof.
  induction ns as [| p ns IH]; intros fuel curr last0 num t Hc Hl Hf.
  { exists (rx_bds t). split; [| by split_and!]. cbn. rewrite Nat.add_0_r, Nat.sub_0_r. destruct fuel; by destruct t. }
  destruct fuel as [| fuel]; [cbn in Hf; lia |]. destruct Hc as (_ & n & Hn & Hc). unfold nexts in Hn. rewrite lookup_fmap in Hn.
  destruct (ps_mem (rx_store t) !! p) as [b |] eqn:Hb; [| done]. injection Hn as Hn.
  assert (Hhd : sp_next b = head ns) by (rewrite Hn; apply chain_head in Hc; destruct ns; [done | by destruct Hc]).
  cbn [length] in Hl, Hf. cbn [head arm_chain]. rewrite Hb. cbn [mbind option_bind]. unfold rx_upd. destruct (lookup_lt_is_Some_2 (rx_bds t) curr) as [d Hd]; [lia |].
  rewrite Hd. cbn [mbind option_bind rx_upd_bds rx_bds]. rewrite list_lookup_alter_eq, Hd. cbn [fmap option_fmap option_map mbind option_bind arm_bd td_next].
  set (t1 := rx_upd_bds (alter (fun _ => arm_bd (Some (S curr)) p b) curr) t).
  assert (Hl1 : length (rx_bds t1) = length (rx_bds t)) by (unfold t1; cbn; by rewrite length_alter).
  destruct (IH fuel (S curr) curr (pred num) t1) as (bds & E & Hlen & Hsame & Harm); [by rewrite <- Hhd, Hn | rewrite Hl1; lia | lia |].
  exists bds. rewrite Hhd, E. split; [| split; [by rewrite Hlen | split]].
  - change (rx_upd_bds (fun _ => bds) t1) with (rx_upd_bds (fun _ => bds) t). f_equal. f_equal. f_equal; [f_equal |]; cbn [length]; [lia | | lia].
    destruct ns; cbn [length]; lia.
  - intros i Hi. rewrite Hsame by lia. unfold t1. cbn. rewrite list_lookup_alter_ne; [done | lia].
  - cbn [length seq]. constructor; [| done]. exists b. split; [done |]. rewrite Hsame by lia. unfold t1. cbn. by rewrite list_lookup_alter_eq, Hd.
Qed.

(** The chains of the first [k] descriptors. *)
Record arming (ext : gmultiset pptr) (t : rxch) (k : nat) (ps : list pptr) : Prop := {
  am_bds : Forall2 (armed_with (rx_bds t) (ps_mem (rx_store t))) (seq 0 k) ps;
  am_bufs : buffers (ps_mem (rx_store t)) ps;
  am_NoDup : NoDup ps;
  am_rope : rope (nexts (rx_store t)) ps;
  am_store : store_at kind_ok (heads (nexts (rx_store t)) true ps ⊎ ext) (rx_store t)
}.
Definition CHAIN_LEN : nat := 6.

Lemma arm_chains_ok ext : forall left k last0 t ps, arming ext t k ps -> (k + CHAIN_LEN * left <= pred num_bd)%nat ->
  (num_bd <= length (rx_bds t))%nat -> (CHAIN_LEN * left <= spare (rx_store t))%nat ->
  exists t' ps', arm_chains left k last0 (pred num_bd - k) t = Some ((match left with O => last0 | _ => pred (k + CHAIN_LEN * left) end)%nat, t')
  /\ arming ext t' (k + CHAIN_LEN * left) ps' /\ (spare (rx_store t') + CHAIN_LEN * left = spare (rx_store t))%nat
  /\ room (ps_mem (rx_store t')) ps' = room (ps_mem (rx_store t)) ps + Z.of_nat left * PBUF_LEN_MAX
  /\ t' = rx_upd_bds (fun _ => rx_bds t') (rx_put (rx_store t') t) /\ length (rx_bds t') = length (rx_bds t).
Proof.
  induction left as [| left IH]; intros k last0 t ps Ham Hk Hlen Hsp.
  { exists t, ps. rewrite Nat.mul_0_r, !Nat.add_0_r. split; [done |]. split; [done |]. split; [done |]. split; [lia |]. split; [by destruct t | done]. }
  destruct Ham as [Hbds Hbufs Hnd Hr Hs]. cbn [arm_chains].
  destruct (alloc_row _ (rx_store t) PBUF_LEN_MAX Hs) as (ns & s & Ea & Hok & Hch & [Hnew Hbuf Hroom Hln] & Hsame & Hspare); [done | change (needed PBUF_LEN_MAX) with CHAIN_LEN; lia |].
  change (needed PBUF_LEN_MAX) with CHAIN_LEN in Hln. rewrite (rx_do_eq _ _ _ _ Ea). cbn [mbind option_bind].
  destruct ns as [| p ns]; [done |]. cbn [head].
  assert (Hch' : chain (nexts s) (Some p) (p :: ns)) by done.
  destruct (clen_ok _ (store_fuel s) s (Some p) 0 Hch') as (len & Ec & Elen).
  { pose proof (chain_length _ _ _ Hch) as Hl. unfold nexts in Hl. by rewrite map_size_fmap in Hl. }
  specialize (Elen ltac:(by split)). rewrite Hln in Elen. change (u8 (0 + Z.of_nat CHAIN_LEN)) with 6 in Elen. subst len.
  assert (Ecl : pbuf_clen (Some p) s = Some (6, s)) by exact Ec.
  rewrite (rx_do_eq (pbuf_clen (Some p)) (rx_put s t) _ _ Ecl). cbn [mbind option_bind].
  replace (6 <=? Z.of_nat (pred num_bd - k)) with true by (symmetry; apply Z.leb_le; unfold CHAIN_LEN in *; lia).
  set (t1 := rx_put s (rx_put s t)).
  destruct (arm_chain_ok (p :: ns) (store_fuel s) k last0 (pred num_bd - k) t1 Hch) as (bds & E & Hlb & Hsb & Harm).
  { rewrite Hln. change (rx_bds t1) with (rx_bds t). unfold CHAIN_LEN in *. lia. }
  { pose proof (chain_length _ _ _ Hch) as Hl. unfold nexts in Hl. by rewrite map_size_fmap in Hl. }
  cbn [head] in E. change (store_fuel (rx_store t1)) with (store_fuel s). rewrite E, Hln. cbn [mbind option_bind].
  replace (pred num_bd - k - CHAIN_LEN)%nat with (pred num_bd - (k + CHAIN_LEN))%nat by lia.
  assert (Hold : forall q, q ∈ ps -> ps_mem s !! q = ps_mem (rx_store t) !! q).
  { intros q Hq. apply Hsame. intros Hin%Hnew. destruct (proj1 (Forall_forall _ _) Hbufs q Hq) as (b & Hb & _). congruence. }
  assert (Hnx : forall q, q ∈ ps -> nexts s !! q = nexts (rx_store t) !! q) by (intros q Hq; unfold nexts; rewrite !lookup_fmap; by rewrite Hold).
  set (t2 := rx_upd_bds (fun _ => bds) t1).
  assert (Ham2 : arming ext t2 (k + CHAIN_LEN) (ps ++ p :: ns)).
  { split; cbn [t2 t1 rx_upd_bds rx_put rx_bds rx_store].
    - rewrite seq_app, Nat.add_0_l. apply Forall2_app; [| by rewrite <- Hln].
      apply (Forall2_impl_in (armed_with (rx_bds t) (ps_mem (rx_store t)))); [| done]. intros i q Hi%elem_of_seq Hq (b & Hb & Hbi).
      exists b. rewrite Hold by done. split; [done |]. rewrite Hsb by lia. done.
    - apply Forall_app. split; [| done]. by apply (buffers_ext (ps_mem (rx_store t))).
    - apply NoDup_app. split; [done |]. split; [| by eapply chain_NoDup]. intros q Hq Hin%Hnew.
      destruct (proj1 (Forall_forall _ _) Hbufs q Hq) as (b & Hb & _). congruence.
    - apply rope_app; [by apply (rope_ext (nexts (rx_store t))) | by eapply chain_rope].
    - assert (Hr' : rope (nexts s) ps) by (by apply (rope_ext (nexts (rx_store t)))). destruct (chain_rope _ _ _ Hch) as [_ Hh2].
      assert (Ehd : heads (nexts s) true (ps ++ p :: ns) = heads (nexts s) true ps ⊎ {[+ p +]}).
      { destruct ps as [| x ps']; [cbn [app]; rewrite (Hh2 true); cbn [heads opt_ms head]; by rewrite (left_id_L ∅ (⊎)) |].
        by rewrite (rope_heads_app (nexts s) (p :: ns) ps' x true Hr'), (Hh2 true). }
      rewrite Ehd, (heads_ext (nexts (rx_store t))) by done. cbn [opt_ms head] in Hok.
      by rewrite (comm_L (⊎) (heads _ _ _)), <- (assoc_L (⊎)). }
  destruct (IH (k + CHAIN_LEN)%nat (pred (k + CHAIN_LEN)) t2 (ps ++ p :: ns) Ham2) as (t' & ps' & E' & Ham' & Hsp' & Hrm' & Et' & Hl').
  { unfold CHAIN_LEN in *. lia. }
  { change (rx_bds t2) with bds. by rewrite Hlb. }
  { change (rx_store t2) with s. lia. }
  exists t', ps'. fold t2. rewrite E'. replace (k + CHAIN_LEN * S left)%nat with (k + CHAIN_LEN + CHAIN_LEN * left)%nat by lia.
  split; [destruct left; [by rewrite Nat.mul_0_r, Nat.add_0_r | done] |]. split; [done |]. change (rx_store t2) with s in *. split; [lia |].
  split; [| split; [by rewrite Et' | by rewrite Hl'; exact Hlb]].
  rewrite Hrm', room_app, (room_ext (ps_mem (rx_store t)) (ps_mem s) ps), Hroom by (intros q Hq; by rewrite Hold). unfold PBUF_LEN_MAX. lia.
Qed.

(** The ring as it is set up: sixty buffers, all armed. *)
Lemma rx_init_ok ext ram s : store_at kind_ok ext s -> length ram = num_bd -> (RX_BUFS <= spare s)%nat ->
  exists t ps, hdkif_hw_init_rx ram s = Some t /\ rx_ok ext t [] (seq 0 RX_BUFS) ps /\ (spare (rx_store t) + RX_BUFS = spare s)%nat
  /\ rx_wire t = [] /\ receiving t = false.
Proof.
  intros Hs Hram Hsp. unfold hdkif_hw_init_rx. set (t0 := mk_rxch ram None (Some 0%nat) None 0 None None s []).
  assert (Ham : arming ext t0 0 []) by (split; cbn [heads]; try done; [constructor.. |]; by rewrite (left_id_L ∅ (⊎))).
  destruct (arm_chains_ok ext MAX_RX_PBUF_ALLOC 0 0%nat t0 [] Ham) as (t1 & ps & E & [Hbds Hbufs Hnd Hr Hst] & Hsp1 & Hrm & Et1 & Hl1);
    [vm_compute; lia | change (rx_bds t0) with ram; by rewrite Hram | exact Hsp |].
  rewrite Nat.sub_0_r in E. rewrite E. change (0 + CHAIN_LEN * MAX_RX_PBUF_ALLOC)%nat with RX_BUFS in *. cbn [mbind option_bind].
  change (pred RX_BUFS) with 59%nat. unfold rx_upd. change (rx_bds t0) with ram in Hl1.
  destruct (lookup_lt_is_Some_2 (rx_bds t1) 59%nat) as [d Hd]; [rewrite Hl1, Hram; vm_compute; lia |]. cbn [MAX_RX_PBUF_ALLOC]. rewrite Hd. cbn [mbind option_bind].
  set (bds := alter (td_set_next None) 59%nat (rx_bds t1)).
  exists (mk_rxch bds None (Some 0%nat) (Some 59%nat) 0 (Some 0%nat) None (rx_store t1) []), ps. split; [by rewrite Et1 |].
  assert (Hlps : length ps = RX_BUFS) by (apply Forall2_length in Hbds; by rewrite length_seq in Hbds).
  assert (Hat : forall i, (i < RX_BUFS)%nat -> exists p b, ps !! i = Some p /\ ps_mem (rx_store t1) !! p = Some b /\ buffer b
    /\ bds !! i = Some (arm_bd (if decide (i = 59)%nat then None else Some (S i)) p b)).
  { intros i Hi. destruct (lookup_lt_is_Some_2 ps i) as [p Hp]; [lia |].
    destruct (Forall2_lookup_r _ _ _ _ _ Hbds Hp) as (i' & Hi' & b & Hb & Hbi). apply lookup_seq in Hi' as [-> _].
    destruct (proj1 (Forall_forall _ _) Hbufs p (list_elem_of_lookup_2 _ _ _ Hp)) as (b' & Hb' & Hbb). assert (b' = b) as -> by congruence.
    exists p, b. split; [done |]. split; [done |]. split; [done |]. unfold bds. rewrite Nat.add_0_l in Hbi. case_decide as E59.
    - subst i. by rewrite list_lookup_alter_eq, Hbi.
    - by rewrite list_lookup_alter_ne, Hbi. }
  assert (Hq : forall i, i ∈ seq 0 RX_BUFS -> exists p b n, ps !! i = Some p /\ ps_mem (rx_store t1) !! p = Some b /\ buffer b /\ bds !! i = Some (arm_bd n p b)).
  { intros i [_ Hi]%elem_of_seq. destruct (Hat i Hi) as (p & b & ? & ? & ? & ?). by exists p, b, (if decide (i = 59)%nat then None else Some (S i)). }
  split; [split; change (in_ring [] ++ seq 0 RX_BUFS) with (seq 0 RX_BUFS);
    cbn [rx_bds rx_store active_head rx_active_tail rx_free_head freed_pbuf_len rx_hdp]; try done |].
  - apply NoDup_seq.
  - apply linked_lookup. intros k i Hk. apply lookup_seq in Hk as [-> Hk]. cbn [Nat.add]. destruct (Hat k Hk) as (p & b & _ & _ & _ & ->). cbn [fmap option_fmap option_map td_next arm_bd].
    f_equal. unfold RX_BUFS in *. case_decide as E59; [subst k; done |]. by rewrite lookup_seq_lt by lia.
  - by left.
  - apply Forall2_same_length_lookup_2; [by rewrite length_seq |]. intros k i p Hk Hp. apply lookup_seq in Hk as [-> Hk]. cbn [Nat.add].
    destruct (Hat k Hk) as (p' & b & Hp' & Hb & Hbb & Hbi). assert (p' = p) as -> by congruence. eexists _, b. split; [exact Hbi |]. split_and!; try done.
    cbn. by destruct Hbb as (_ & -> & _).
  - apply Forall_forall. intros i Hi. destruct (Hq i Hi) as (p & b & n & _ & Hb & _ & Hbi). exists (arm_bd n p b), p, b. by split_and!.
  - apply Forall_forall. intros i Hi. destruct (Hq i) as (p & b & n & _ & _ & _ & Hbi); [by apply (list_elem_of_further i 0%nat) |]. unfold bit, word. by rewrite Hbi.
  - intros e He. apply last_Some_elem_of in He. destruct (Hq e He) as (p & b & n & _ & _ & _ & Hbi). unfold bit, word. by rewrite Hbi.
  - split; [exact Hsp1 |]. split; [done |]. rewrite receiving_bit. cbn [rx_hdp rx_bds rx_set_hdp from_option].
    destruct (Hat 0%nat) as (p & b & _ & _ & _ & Hbi); [vm_compute; lia |]. unfold bit, word. by rewrite Hbi.
Qed.
