(* ===== verification/EmacRxRun.v ===== *)
(** * Frames from the wire to the stack

    The driver's receive side in a run: set-up, the EMAC, interrupts and the stack in
    any order.  An EMAC and two stacks above are given as programs: one that copies
    every packet and frees it, and one that keeps every packet. *)

From stdpp Require Import gmultiset.
From S2P Require Import Prelude Memp Pbuf Heap Net PbufRef PbufRope EmacTx EmacRx EmacRxOk.

(** ** The ring as the pointers have it *)

Fixpoint walk (bds : list txbd) (fuel : nat) (i : option nat) : list nat :=
  match fuel, i with
  | S fuel, Some i => i :: walk bds fuel (d ← bds !! i; td_next d)
  | _, _ => []
  end.
Definition ring (t : rxch) : list nat := walk (rx_bds t) (length (rx_bds t)) (active_head t).
Definition ring_bufs (t : rxch) : list pptr := omap (fun i => d ← rx_bds t !! i; td_pbuf d) (ring t).
(** The references of the driver. *)
Definition driver_refs (t : rxch) : gmultiset pptr := heads (nexts (rx_store t)) true (ring_bufs t).

Lemma walk_linked bds l : forall fuel, linked bds l None -> (length l <= fuel)%nat -> walk bds fuel (head l) = l.
Proof.
  induction l as [| i l IH]; intros fuel Hl Hf; [by destruct fuel |]. destruct fuel as [| fuel]; [cbn in Hf; lia |].
  destruct Hl as [Hi Hl]. cbn [head walk]. f_equal. rewrite hd_or_None in Hi. apply fmap_Some in Hi as (d & -> & En). cbn [mbind option_bind].
  rewrite <- En. apply IH; [done | cbn in Hf; lia].
Qed.
Lemma ring_eq ext t q ar ps : rx_ok ext t q ar ps -> ring t = in_ring q ++ ar /\ ring_bufs t = ps.
Proof.
  intros Hok. assert (E : ring t = in_ring q ++ ar).
  { unfold ring. rewrite (rk_head _ _ _ _ _ Hok). apply walk_linked; [by eapply rk_linked |]. apply linked_bound. by eapply rk_linked. }
  split; [done |]. unfold ring_bufs. rewrite E. pose proof (rk_slots _ _ _ _ _ Hok) as Hs. clear -Hs.
  induction Hs as [| i p c ps (d & b & Hd & Hp & _) _ IH]; [done |]. cbn. rewrite Hd. cbn. by rewrite Hp, IH.
Qed.

(** ** The run *)

(** Between the driver's own steps the stack does what it likes with pbufs out of
    the driver's reach. *)
Inductive rx_run {W} `{Upper W} : rxch -> W -> Prop :=
| rx_starts ram s w t : length ram = num_bd -> store_at kind_ok (up_held w) s -> (PBUF_POOL_SIZE <= spare s + up_kept w)%nat ->
    up_frames w = [] -> hdkif_hw_init_rx ram s = Some t -> rx_run t w
| rx_receives t t' w : rx_run t w -> emac_step t t' -> rx_run t' w
| rx_interrupts t w dma fuel t' w' : rx_run t w -> script_ok dma -> (dma = [] -> receiving t = false) ->
    hdkif_rx_inthandler fuel dma t w = Some (t', w') -> rx_run t' w'
| rx_stack_runs t w s w' : rx_run t w -> store_at kind_ok (driver_refs t ⊎ up_held w') s ->
    (forall p, p ∈ ring_bufs t -> ps_mem s !! p = ps_mem (rx_store t) !! p) -> (PBUF_POOL_SIZE <= spare s + RX_BUFS + up_kept w')%nat ->
    up_frames w' = up_frames w -> rx_run (rx_put s t) w'.

Lemma rx_ok_store ext ext' t q ar ps s : rx_ok ext t q ar ps -> store_at kind_ok (heads (nexts (rx_store t)) true ps ⊎ ext') s ->
  (forall p, p ∈ ps -> ps_mem s !! p = ps_mem (rx_store t) !! p) -> rx_ok ext' (rx_put s t) q ar ps.
Proof.
  intros [Hnd Hh Htl Hl Hf Hfr Hhdp Hs Hp Ha Hid He Hbn Hct Hrm Hrp Hst] Hs' Hm.
  assert (Hnx : forall p, p ∈ ps -> nexts s !! p = nexts (rx_store t) !! p) by (intros p Hin; unfold nexts; rewrite !lookup_fmap; by rewrite Hm).
  split; cbn [rx_put rx_bds rx_store active_head rx_active_tail rx_free_head freed_pbuf_len rx_hdp]; try done.
  - by apply (slots_ext (rx_bds t) (ps_mem (rx_store t))).
  - by apply (packets_ext (rx_bds t) (ps_mem (rx_store t)) _ _ q ar ps).
  - apply Forall2_app_inv_l in Hs as (p1 & p2 & _ & Hsa & ->). apply (Forall_armed_ext (rx_bds t) (ps_mem (rx_store t)) _ _ _ p2); try done.
    intros p Hin. apply Hm, elem_of_app. by right.
  - rewrite (room_ext (ps_mem (rx_store t))); [done |]. intros p Hin. by rewrite Hm.
  - by apply (rope_ext (nexts (rx_store t))).
  - by rewrite (heads_ext (nexts (rx_store t))).
Qed.

Lemma run_drains {W} `{UpperOk W} dma t w q : script_ok dma -> pending t w q -> (dma = [] -> receiving t = false) ->
  exists n t' w', (forall fuel, (n <= fuel)%nat -> hdkif_rx_inthandler fuel dma t w = Some (t', w')) /\ drained t t' w'.
Proof. intros Hs Hp Hr. exact (loop_ok dma t w q Hs Hp Hr). Qed.

(** More fuel does not change a result. *)
Lemma rx_loop_more {W} `{Upper W} fuel : forall n dma last0 t w r, rx_loop fuel dma last0 t w = Some r -> (fuel <= n)%nat -> rx_loop n dma last0 t w = Some r.
Proof.
  induction fuel as [| fuel IH]; intros [| n] dma last0 t w r E Hn; try lia; try done; rewrite rx_loop_look in E |- *; unfold rx_look in *;
    destruct (active_head _) as [i |]; try done; cbn [mbind option_bind] in *; destruct (rx_bds _ !! i) as [d |]; try done; cbn [mbind option_bind] in *;
    destruct (flag EMAC_BUF_DESC_SOP _); try done.
  destruct (flag EMAC_BUF_DESC_OWNER _); [apply IH; [done | lia] |]. destruct (rx_packet _ _ _ _) as [[[l t1] w1] |]; [| done].
  cbn [mbind option_bind] in *. apply IH; [done | lia].
Qed.

Lemma rx_run_ok {W} `{UpperOk W} t w : rx_run t w -> exists q, pending t w q.
Proof.
  induction 1 as [ram s w t Hram Hs Hsp Hfr E | t t' w _ (q & (ar & ps & Hok) & Hb & Hw) Hstep | t w dma fuel t' w' _ (q & Hp) Hscr Hr E
    | t w s w' _ (q & (ar & ps & Hok) & Hb & Hw) Hs Hm Hsp Hfr].
  - pose proof (kept_few w) as Hk. destruct (rx_init_ok _ ram s Hs Hram) as (t1 & ps & E1 & Hok & Hsp1 & Hw & _); [unfold MAX_KEPT, PBUF_POOL_SIZE, RX_BUFS in *; lia |].
    assert (t1 = t) as -> by congruence. exists []. split; [by exists (seq 0 RX_BUFS), ps |]. split; [unfold budget; lia |]. by rewrite Hw, Hfr.
  - destruct (emac_ok _ _ t' _ _ _ Hok) as (q' & ar' & Hok' & Hw' & Hsp & _); [by apply rtc_once |]. exists (q ++ q').
    split; [eauto |]. split; [unfold budget; by rewrite Hsp |]. by rewrite Hw', Hw, fmap_app, app_assoc.
  - destruct (run_drains dma t w q Hscr Hp Hr) as (n & t1 & w1 & Hrun & [Hok Hb _ Hf _]).
    pose proof (rx_loop_more _ (n + fuel) _ _ _ _ _ E ltac:(lia)) as E2. specialize (Hrun (n + fuel)%nat ltac:(lia)).
    unfold hdkif_rx_inthandler in Hrun. rewrite E2 in Hrun. injection Hrun as -> ->. exists []. split; [done |]. split; [done |]. by rewrite Hf, app_nil_r.
  - destruct (ring_eq _ _ _ _ _ Hok) as [_ Ep]. unfold driver_refs in Hs. rewrite Ep in *. exists q. split; [| split; [done | by rewrite Hfr]].
    exists ar, ps. by apply (rx_ok_store (up_held w)).
Qed.

(** C12. Receiving, in any run of the driver with the EMAC as its data sheet has it and
    a stack that keeps at most 36 of the 96 pool buffers: the interrupt handler ends,
    follows no null pointer and touches no freed pbuf; every frame the EMAC has
    taken from the wire since the start has then been handed up once, whole and in
    order, those that arrived while the handler ran included; and sixty buffers,
    shared with nobody, are in the ring again for the EMAC to go on with. *)
Theorem hdkif_rx_delivers {W} `{UpperOk W} t w dma (Hrun : rx_run t w) (Hdma : script_ok dma) (Hquiet : dma = [] -> receiving t = false) :
  exists n t' w', (forall fuel, (n <= fuel)%nat -> hdkif_rx_inthandler fuel dma t w = Some (t', w'))
  /\ up_frames w' = rx_wire t' /\ rx_wire t `prefix_of` rx_wire t'
  /\ length (ring t') = RX_BUFS /\ Forall (armed (rx_bds t') (ps_mem (rx_store t'))) (ring t') /\ rx_hdp t' = active_head t'
  /\ room (ps_mem (rx_store t')) (ring_bufs t') = RX_ROOM
  /\ store_at kind_ok (driver_refs t' ⊎ up_held w') (rx_store t') /\ apart (ring_bufs t') (up_held w') (nexts (rx_store t')).
Proof.
  destruct (rx_run_ok t w Hrun) as [q Hp]. destruct (run_drains dma t w q Hdma Hp Hquiet) as (n & t' & w' & Hn & [(ar & ps & Hok) _ _ Hfr Hw]).
  exists n, t', w'. split; [done |]. split; [done |]. split; [done |]. destruct (ring_eq _ _ _ _ _ Hok) as [Er Ep]. unfold driver_refs. rewrite Er, Ep.
  destruct Hok as [_ Hh _ _ _ _ Hhdp Hs _ Ha _ _ _ Hct Hrm Hrp Hst]. cbn [in_ring app fmap list_fmap mjoin list_join] in *.
  split; [by rewrite (Forall2_length _ _ _ Hs) |]. split; [done |]. split; [by rewrite Hhdp |]. split; [done |]. split; [done |].
  apply (rope_apart kind_ok _ (rx_store t')); [done | done |]. intros p Hpin.
  destruct (proj1 (Forall_forall _ _) (slot_buffers _ _ _ _ Hs) p Hpin) as (b & Hb & (_ & _ & ? & _)). eauto.
Qed.

(** ** An EMAC *)

(** The word of a finished descriptor. *)
Definition rx_word (tot : Z) (first last eoq : bool) : Z :=
  Z.lor (if first then Z.lor tot EMAC_BUF_DESC_SOP else 0)
    (Z.lor (if last then EMAC_BUF_DESC_EOP else 0) (if eoq then EMAC_BUF_DESC_EOQ else 0)).
Definition finish_bd (tot : Z) (first last : bool) (n : Z) (d : txbd) : txbd :=
  mk_txbd (td_next d) (td_bufptr d) n (rx_word tot first last (last && bool_decide (td_next d = None))) (td_pbuf d).
Fixpoint emac_fill (fuel : nat) (tot : Z) (first : bool) (i : nat) (f : list Z) (bds : list txbd) (m : gmap pptr spbuf)
  : option (list nat * (list txbd * gmap pptr spbuf)) :=
  d ← bds !! i;
  '(p, off) ← td_bufptr d;
  b ← m !! p;
  let cap := td_bufoff_len d in
  if Zlen f <=? cap then
    if 0 <? Zlen f then Some ([i], (<[i := finish_bd tot first true (Zlen f) d]> bds, <[p := put_data off f b]> m)) else None
  else if cap <? 0 then None
  else
    match fuel with
    | O => None
    | S fuel =>
        j ← td_next d;
        let g := take (Z.to_nat cap) f in
        '(c, st) ← emac_fill fuel tot false j (drop (Z.to_nat cap) f) (<[i := finish_bd tot first false cap d]> bds) (<[p := put_data off g b]> m);
        Some (i :: c, st)
    end.
(** It takes a frame if the armed buffers have room for it. *)
Definition emac_receive (f : list Z) (t : rxch) : rxch :=
  match rx_hdp t with
  | Some h =>
      if (0 <? Zlen f) && (Zlen f <=? RXMAXLEN) then
        match emac_fill (length (rx_bds t)) (Zlen f) true h f (rx_bds t) (ps_mem (rx_store t)) with
        | Some (c, (bds, m)) => frame_in f c bds m t
        | None => t
        end
      else t
  | None => t
  end.
(** A frame that was begun ends after one byte. *)
Definition emac_finish (t : rxch) : rxch := if receiving t then emac_receive [0] t else t.

Lemma rx_word_bits tot first last eoq : 0 <= tot < 65536 ->
  flag EMAC_BUF_DESC_SOP (rx_word tot first last eoq) = first /\ flag EMAC_BUF_DESC_EOP (rx_word tot first last eoq) = last
  /\ flag EMAC_BUF_DESC_OWNER (rx_word tot first last eoq) = false /\ flag EMAC_BUF_DESC_EOQ (rx_word tot first last eoq) = eoq
  /\ (first = true -> Z.land (rx_word tot first last eoq) 0xFFFF = tot).
Proof.
  intros Ht. destruct (flag_bits (rx_word tot first last eoq)) as (-> & -> & -> & ->).
  assert (Hz : forall k, 16 <= k -> Z.testbit tot k = false) by (intros k Hk; by apply (testbit_above tot 16)).
  unfold rx_word. split_and!.
  1-4: destruct first, last, eoq; rewrite ?Z.lor_spec, ?(Hz 31), ?(Hz 30), ?(Hz 29), ?(Hz 28) by lia; done.
  intros ->. assert (Hl : Z.land tot 0xFFFF = tot) by (change 0xFFFF with (Z.ones 16); rewrite Z.land_ones by lia; by apply Z.mod_small).
  destruct last, eoq; rewrite !Z.land_lor_distr_l, Hl; cbn -[Z.lor]; by rewrite !Z.lor_0_r.
Qed.
Lemma finish_bd_ok tot first last n d : 0 <= tot < 65536 -> 0 <= n < 65536 -> filled_bd tot first last n d (finish_bd tot first last n d).
Proof.
  intros Ht Hn. destruct (rx_word_bits tot first last (last && bool_decide (td_next d = None)) Ht) as (Es & Ee & Eo & Eq & El).
  split; cbn [finish_bd td_next td_bufptr td_pbuf td_bufoff_len td_flags]; try done.
  - change 0xFFFF with (Z.ones 16). rewrite Z.land_ones by lia. by apply Z.mod_small.
  - intros Hf. split; [done | by apply El].
  - intros ->. by rewrite Eq.
Qed.
Lemma emac_fill_ok tot : 0 <= tot < 65536 -> forall fuel first i f bds m c st, emac_fill fuel tot first i f bds m = Some (c, st) -> Zlen f < 65536 ->
  writes tot first c f (bds, m) st /\ head c = Some i.
Proof.
  intros Ht. induction fuel as [| fuel IH]; intros first i f bds m c st E Hlen; cbn [emac_fill] in E;
    destruct (bds !! i) as [d |] eqn:Hd; try done; cbn [mbind option_bind] in E; destruct (td_bufptr d) as [[p off] |] eqn:Ha; try done;
    cbn [mbind option_bind] in E; destruct (m !! p) as [b |] eqn:Hb; try done; cbn [mbind option_bind] in E; pose proof (Zlen_nonneg f) as H0.
  1,2: destruct (Z.leb_spec (Zlen f) (td_bufoff_len d)) as [Hle | Hgt];
    [destruct (Z.ltb_spec 0 (Zlen f)) as [Hpos |]; [| done]; injection E as <- <-; split; [| done];
     apply (writes_last tot first i f d _ p off b); try done; by apply finish_bd_ok |].
  - by destruct (td_bufoff_len d <? 0).
  - destruct (Z.ltb_spec (td_bufoff_len d) 0) as [Hneg | Hcap]; [done |]. destruct (td_next d) as [j |] eqn:En; [| done]. cbn [mbind option_bind] in E.
    set (cap := Z.to_nat (td_bufoff_len d)) in *. assert (Ecap : Zlen (take cap f) = td_bufoff_len d) by (unfold Zlen in *; rewrite length_take; lia).
    destruct (emac_fill _ _ _ _ _ _ _) as [[c' st'] |] eqn:E'; [| done]. cbn [mbind option_bind] in E. injection E as <- <-.
    apply IH in E' as [Hw Hh]; [| unfold Zlen in *; rewrite length_drop; lia]. split; [| done].
    destruct c' as [| j' c']; [done |]. injection Hh as ->. rewrite <- (take_drop cap f).
    apply (writes_more tot first i j c' _ _ d (finish_bd tot first false (td_bufoff_len d) d) p off b); try done.
    rewrite Ecap. apply finish_bd_ok; [done | unfold Zlen in *; lia].
Qed.

Lemma emac_receive_rx f : emac_rx (emac_receive f).
Proof.
  intros t. unfold emac_receive. destruct (rx_hdp t) as [h |] eqn:Hh; [| done]. destruct (_ && _) eqn:El; [| done]. zb.
  destruct (emac_fill _ _ _ _ _ _ _) as [[c [bds m]] |] eqn:E; [| done].
  unfold RXMAXLEN in *. destruct (emac_fill_ok (Zlen f) ltac:(lia) _ _ _ _ _ _ _ _ E ltac:(lia)) as [Hw Hc]. apply rtc_once, emac_frame; [by rewrite Hh | unfold RXMAXLEN; lia | done].
Qed.
Lemma emac_finish_rx : emac_rx emac_finish.
Proof. intros t. unfold emac_finish. destruct (receiving t); [apply emac_receive_rx | done]. Qed.
Lemma emac_finish_settled : settled emac_finish.
Proof.
  intros ext t q ar ps Hok. unfold emac_finish. destruct (receiving t) eqn:Er; [| done]. pose proof Hok as [_ _ _ _ _ _ Hhdp Hs _ Ha _ _ _ _ _ _ _].
  destruct ar as [| h ar]; [rewrite receiving_bit, Hhdp in Er; done |]. cbn in Hhdp. unfold emac_receive. rewrite Hhdp. cbn [Zlen length].
  apply Forall_cons in Ha as [(d & p & b & Hd & Hp & Hb & El & _) _].
  apply Forall2_app_inv_l in Hs as (p1 & p2 & _ & Hs & _). apply Forall2_cons_inv_l in Hs as (p' & ? & (d' & b' & Hd' & Hp' & Ha' & Hb' & (_ & _ & _ & Hl & _)) & _ & _).
  assert (d' = d) as -> by congruence. assert (p' = p) as -> by congruence. assert (b' = b) as -> by congruence.
  change ((0 <? Zlen [0]) && (Zlen [0] <=? RXMAXLEN)) with true. cbv iota.
  destruct (emac_fill (length (rx_bds t)) (Zlen [0]) true h [0] (rx_bds t) (ps_mem (rx_store t))) as [[c [bds m]] |] eqn:E.
  - destruct (emac_fill_ok (Zlen [0]) ltac:(vm_compute; done) _ _ _ _ _ _ _ _ E ltac:(vm_compute; done)) as [Hw Hc].
    destruct (frame_ok ext t q (h :: ar) ps c [0] bds m Hok) as (ar' & _ & Hr); [congruence | by vm_compute | done | done].
  - exfalso. revert E. destruct (length (rx_bds t)); cbn [emac_fill]; rewrite Hd; cbn [mbind option_bind]; rewrite Ha'; cbn [mbind option_bind];
      rewrite Hb; cbn [mbind option_bind]; (destruct (Z.leb_spec (Zlen [0]) (td_bufoff_len d)) as [_ | Hgt]; [done | rewrite El in Hgt; change (Zlen [0]) with 1 in Hgt; lia]).
Qed.

(** ** Two stacks *)

(** The packet at [q]. *)
Fixpoint chain_segs (fuel : nat) (m : gmap pptr spbuf) (q : option pptr) : list pseg :=
  match fuel, q with
  | S fuel, Some q => match m !! q with Some b => seg_of b :: chain_segs fuel m (sp_next b) | None => [] end
  | _, _ => []
  end.
Definition packet_at (s : pstore) (q : pptr) : option pbuf :=
  b ← ps_mem s !! q; Some (mk_pbuf (seg_of b) (chain_segs (store_fuel s) (ps_mem s) (sp_next b)) (sp_flags b)).

Definition copier : Type := list (list Z).
#[export] Instance copier_upper : Upper copier := {|
  ethernet_input q s w := v ← packet_at s q; '(_, s') ← pbuf_free (Some q) s; Some (s', w ++ [p_bytes v]);
  up_held _ := ∅; up_kept _ := 0%nat; up_frames w := w
|}.
Definition keeper : Type := list pptr.
#[export] Instance keeper_upper : Upper keeper := {|
  ethernet_input q s w := Some (s, w ++ [q]);
  up_held w := list_to_set_disj w; up_kept := length; up_frames _ := []
|}.

Lemma chain_segs_ok m ps : forall fuel q, chain (sp_next <$> m) q ps -> (length ps <= fuel)%nat -> chain_segs fuel m q = segs m ps.
Proof.
  induction ps as [| p ps IH]; intros fuel q Hc%chain_head Hf; [subst q; by destruct fuel |]. destruct Hc as (-> & b & Hb & Hc).
  destruct fuel as [| fuel]; [cbn in Hf; lia |]. cbn [chain_segs]. rewrite Hb, (segs_cons _ _ _ _ Hb), (IH fuel (sp_next b)); [done | done | cbn in Hf; lia].
Qed.
Lemma packet_at_ok s q v : pbuf_at s q v -> packet_at s q = Some v.
Proof.
  intros (b & ps & Hb & Hc & _ & ->). unfold packet_at. rewrite Hb. cbn [mbind option_bind]. do 2 f_equal. apply chain_segs_ok.
  - apply chain_head in Hc as (_ & b' & Hb' & Hc). by assert (b' = b) as -> by congruence.
  - pose proof (chain_length _ _ _ Hc) as Hl. rewrite map_size_fmap in Hl. unfold store_fuel. cbn in Hl. lia.
Qed.
Lemma chain_apart l P ext ps : apart P ext l -> forall q, (forall p, q = Some p -> p ∉ P) -> chain l q ps -> forall p, p ∈ P -> p ∉ ps.
Proof.
  intros [_ Hin]. induction ps as [| x ps IH]; intros q Hq Hc p Hp; [by intros ?%elem_of_nil |]. destruct Hc as (-> & n & Hn & Hc).
  intros [-> | Hx]%elem_of_cons; [by apply (Hq x) |]. revert Hx. apply (IH n); [| done | done]. intros y ->. intros Hy. by apply (Hq x), (Hin x y).
Qed.

(** Elements of the pool are free or hold a pbuf. *)
Definition in_pool (m : gmap pptr spbuf) : list nat := omap (fun e => _ ← m !! PoolPtr e; Some e) (seq 0 PBUF_POOL_SIZE).
Lemma in_pool_elem m e : e ∈ in_pool m <-> (e < PBUF_POOL_SIZE)%nat /\ is_Some (m !! PoolPtr e).
Proof.
  unfold in_pool. rewrite list_elem_of_omap. split.
  - intros (x & Hx%elem_of_seq & E). destruct (m !! PoolPtr x) eqn:Hm; [| done]. injection E as ->. split; [lia | eauto].
  - intros [He [b Hb]]. exists e. split; [apply elem_of_seq; lia |]. by rewrite Hb.
Qed.
Lemma in_pool_NoDup m : NoDup (in_pool m).
Proof.
  unfold in_pool. generalize PBUF_POOL_SIZE, 0%nat. intros n. induction n as [| n IH]; intros k; [constructor |]. cbn.
  destruct (m !! PoolPtr k); cbn; [| apply IH]. constructor; [| apply IH]. rewrite list_elem_of_omap. intros (x & Hx%elem_of_seq & E).
  destruct (m !! PoolPtr x); [injection E as -> | done]. lia.
Qed.
Lemma pool_split T ext s : store_at T ext s -> (spare s + length (in_pool (ps_mem s)))%nat = PBUF_POOL_SIZE.
Proof.
  intros [_ (up & ur & L & [(Hnd & Hin & Hup) Hmem _ _ _ _ _]) _]. unfold spare. rewrite <- length_app, <- (length_seq PBUF_POOL_SIZE 0) at 1.
  apply Permutation_length, NoDup_Permutation; [apply NoDup_app; split; [done |]; split; [| apply in_pool_NoDup] | apply NoDup_seq |].
  - intros e He [_ Hp]%in_pool_elem. apply Hin in He as [_ Hn]. by apply Hn, Hmem.
  - intros e. rewrite elem_of_app, Hin, in_pool_elem, <- Hmem, elem_of_seq. split; [intros [[? _] | [? _]]; lia |].
    intros [_ He]. destruct (decide (e ∈ up)); auto.
Qed.
Lemma freed_spare ext ext' s s' ps : store_at kind_ok ext s -> store_at kind_ok ext' s' -> buffers (ps_mem s) ps -> NoDup ps ->
  (forall k, ps_mem s' !! k = if decide (k ∈ ps) then None else ps_mem s !! k) -> spare s' = (spare s + length ps)%nat.
Proof.
  intros Hs Hs' Hb Hnd Hm. pose proof (pool_split _ _ _ Hs) as E. pose proof (pool_split _ _ _ Hs') as E'.
  assert (Hp : forall p, p ∈ ps -> exists e, p = PoolPtr e /\ e ∈ in_pool (ps_mem s)).
  { intros p Hp. destruct (proj1 (Forall_forall _ _) Hb p Hp) as (b & Hpb & (Hty & _)). pose proof (so_typed _ _ _ Hs p b Hpb) as Hk.
    destruct p as [e | e | o]; cbn in Hk; rewrite Hty in Hk; [| by destruct Hk | done]. exists e. split; [done |]. apply in_pool_elem.
    split; [| eauto]. destruct Hs as [_ (up & ur & L & [(_ & _ & Hup) Hmem _ _ _ _ _]) _]. apply Hup, Hmem. eauto. }
  assert (Hl : length (in_pool (ps_mem s)) = (length (in_pool (ps_mem s')) + length ps)%nat).
  { rewrite <- (length_fmap PoolPtr (in_pool (ps_mem s))), <- (length_fmap PoolPtr (in_pool (ps_mem s'))), <- length_app.
    apply Permutation_length, NoDup_Permutation.
    - apply NoDup_fmap_2; [by intros ?? [=] | apply in_pool_NoDup].
    - apply NoDup_app. split; [apply NoDup_fmap_2; [by intros ?? [=] | apply in_pool_NoDup] |]. split; [| done].
      intros p (e & -> & [_ [b He]]%in_pool_elem)%list_elem_of_fmap Hin. rewrite Hm, decide_True in He by done. done.
    - intros p. rewrite elem_of_app, !list_elem_of_fmap. split.
      + intros (e & -> & [He [b Hb']]%in_pool_elem). destruct (decide (PoolPtr e ∈ ps)); [by right | left]. exists e. split; [done |].
        apply in_pool_elem. split; [done |]. rewrite Hm, decide_False by done. eauto.
      + intros [(e & -> & [He [b Hb']]%in_pool_elem) | Hin]; [| by destruct (Hp p Hin) as (e & -> & ?); exists e].
        exists e. split; [done |]. apply in_pool_elem. split; [done |]. rewrite Hm in Hb'. case_decide; [done | eauto]. }
  lia.
Qed.

(** A packet that is freed after it was looked at. *)
Lemma taken_ok P own q v s : store_at kind_ok (own ⊎ {[+ q +]}) s -> apart P {[+ q +]} (nexts s) -> pbuf_at s q v ->
  exists n s', packet_at s q = Some v /\ pbuf_free (Some q) s = Some (n, s') /\ store_at kind_ok own s'
    /\ (forall p, p ∈ P -> ps_mem s' !! p = ps_mem s !! p)
    /\ (forall ps, chain (nexts s) (Some q) ps -> buffers (ps_mem s) ps -> (spare s + length ps <= spare s')%nat).
Proof.
  intros Hs Hap Hv. pose proof (packet_at_ok _ _ _ Hv) as Ev. destruct Hv as (b & ps & Hb & Hc & _). rewrite (comm_L (⊎)) in Hs.
  destruct (pbuf_free_ok (HT := kind_structs) _ _ _ Hs) as (ps' & s' & Hc' & Ef & Hm & Hs' & _).
  assert (ps' = ps) as -> by (pose proof (chain_det _ _ _ _ Hc Hc') as E; by injection E as ->).
  pose proof (chain_apart _ _ _ _ Hap (Some q) ltac:(intros p [= <-] Hp; destruct Hap as [Ha _]; apply (Ha q Hp); by apply gmultiset_elem_of_singleton) Hc) as Hni.
  eexists _, s'. split; [done |]. split; [exact Ef |]. split; [done |]. split.
  - intros p Hp. rewrite Hm. apply release_other. by apply Hni.
  - intros ps2 Hc2 Hbuf. assert (ps2 = q :: ps) as -> by (by eapply chain_det).
    rewrite (freed_spare _ _ s s' (q :: ps) Hs Hs' Hbuf); [lia | by eapply chain_NoDup |]. intros k. rewrite Hm. apply release_all; [by eapply chain_NoDup |].
    intros x Hx. destruct (proj1 (Forall_forall _ _) Hbuf x Hx) as (c & Hxc & (_ & _ & ? & _)). eauto.
Qed.
#[export] Instance copier_ok : UpperOk copier.
Proof.
  split; [| intros w; apply Nat.le_0_l]. intros P own q v s w Hs Hap _ Hv _. cbn [up_held up_kept up_frames copier_upper] in *.
  rewrite (right_id_L ∅ (⊎)) in *. destruct (taken_ok _ _ _ _ _ Hs Hap Hv) as (n & s' & Ev & Ef & Hs' & Hsame & Hsp).
  exists s', (w ++ [p_bytes v]). cbn [ethernet_input copier_upper]. rewrite Ev. cbn [mbind option_bind]. rewrite Ef.
  split_and!; try done. intros ps Hc Hb. specialize (Hsp ps Hc Hb). lia.
Qed.

(** ** Two runs *)

Definition ex_rx_ram : list txbd := replicate num_bd (mk_txbd None None 0 0 None).
Definition ex_rx_store : pstore := pstore_init ∅.
Definition ex_rx : rxch := from_option id (mk_rxch [] None None None 0 None None ex_rx_store []) (hdkif_hw_init_rx ex_rx_ram ex_rx_store).
(** A long frame and a short one. *)
Definition ex_long : list Z := replicate 600 7.
Definition ex_short : list Z := replicate 60 9.
Definition ex_dma : list (rxch -> rxch) := [emac_receive ex_long; emac_receive ex_short; emac_finish].

Lemma ex_rx_store_ok : store_at kind_ok ∅ ex_rx_store.
Proof. destruct (init_ok ∅) as [[Hr Hp Ht] _]. split; [done | done |]. intros p b Hb. by apply (structs_kind (T := typed)), Ht. Qed.
Lemma ex_rx_init : hdkif_hw_init_rx ex_rx_ram ex_rx_store = Some ex_rx.
Proof.
  destruct (rx_init_ok ∅ ex_rx_ram ex_rx_store ex_rx_store_ok) as (t & ps & E & _); [done | vm_compute; lia |]. unfold ex_rx. by rewrite E.
Qed.
Lemma ex_dma_ok : script_ok ex_dma.
Proof.
  split; [repeat constructor; apply emac_receive_rx || apply emac_finish_rx |]. intros f [= <-]. apply emac_finish_settled.
Qed.
Example ex_rx_frames : (r ← hdkif_rx_inthandler 9 ex_dma ex_rx ([] : copier); Some (snd r, length (ring (fst r)))) = Some ([ex_long; ex_short], 60%nat).
Proof. vm_compute. reflexivity. Qed.

Lemma hdkif_rx_delivers_witness : exists n t' w', (forall fuel, (n <= fuel)%nat -> hdkif_rx_inthandler fuel ex_dma ex_rx ([] : copier) = Some (t', w'))
  /\ up_frames w' = rx_wire t' /\ length (ring t') = RX_BUFS.
Proof.
  destruct (hdkif_rx_delivers (W := copier) ex_rx [] ex_dma) as (n & t' & w' & Hn & Hf & _ & Hl & _).
  - apply (rx_starts ex_rx_ram ex_rx_store); [done | exact ex_rx_store_ok | vm_compute; lia | done | exact ex_rx_init].
  - exact ex_dma_ok.
  - done.
  - exists n, t', w'. done.
Defined.

(** Short frames, each followed by an interrupt, for a stack that keeps them all. *)
Fixpoint rx_flood (n : nat) (t : rxch) (w : keeper) : option (rxch * keeper) :=
  match n with
  | O => Some (t, w)
  | S n => '(t, w) ← hdkif_rx_inthandler 3 [] (emac_receive ex_short t) w; rx_flood n t w
  end.

(** C26. The last buffer.  A stack that keeps the packets it is handed (as one that
    queues them would) uses the pool up: after ninety-five frames of sixty bytes
    one buffer is left in the ring and no descriptor behind it, and the handler of
    the next frame, whatever time it has, follows the null link of that descriptor. *)
Theorem hdkif_rx_last_buffer : exists t w, rx_flood 95 ex_rx [] = Some (t, w) /\ length w = 95%nat /\ length (ring t) = 1%nat
  /\ forall fuel, hdkif_rx_inthandler fuel [] (emac_receive ex_short t) w = None.
Proof.
  assert (Hc : (r ← rx_flood 95 ex_rx []; Some (length (snd r), length (ring (fst r)))) = Some (95, 1)%nat) by (vm_compute; reflexivity).
  assert (Hp : (r ← rx_flood 95 ex_rx []; let t := emac_receive ex_short (fst r) in i ← active_head t; d ← rx_bds t !! i;
    Some (flag EMAC_BUF_DESC_SOP (td_flags d), flag EMAC_BUF_DESC_OWNER (td_flags d), rx_packet i (rx_active_tail t) t (snd r))) = Some (true, false, None))
    by (vm_compute; reflexivity).
  generalize dependent (rx_flood 95 ex_rx []). intros [[t w] |] Hc Hp; [| discriminate Hc].
  cbn [mbind option_bind fst snd] in Hc, Hp. injection Hc as Hw Hr. exists t, w. split; [done |]. split; [done |]. split; [done |].
  set (t1 := emac_receive ex_short t) in *. clearbody t1. intros fuel. unfold hdkif_rx_inthandler. rewrite rx_loop_look. unfold rx_look.
  destruct (active_head t1) as [i |]; [| done]. cbn [mbind option_bind] in *. destruct (rx_bds t1 !! i) as [d |]; [| done]. cbn [mbind option_bind] in *.
  injection Hp as -> -> Hp. destruct fuel as [| fuel]; [done |]. by rewrite Hp.
Qed.
