(* ===== verification/EmacRxBuf.v ===== *)
(** * The sizes of the receive buffers

    Every chain of buffers the driver starts with ends in one of 234 bytes, and a
    packet's buffers are replaced by a chain for as many bytes as they held: full
    ones and one with the rest.  The missing bytes of two short buffers of one packet
    come together in one buffer, so traffic decides how small a buffer can get; how
    small exactly is shown here. *)

From stdpp Require Import gmultiset.
From S2P Require Import Prelude Memp Pbuf Heap Net PbufRef PbufRope EmacTx EmacRx EmacRxOk EmacRxRun.

(** ** A run with one interrupt per frame *)

Fixpoint rx_frames (ls : list Z) (t : rxch) (w : copier) : option (rxch * copier) :=
  match ls with
  | [] => Some (t, w)
  | l :: ls => '(t, w) ← hdkif_rx_inthandler 9 [emac_receive (replicate (Z.to_nat l) 7); emac_finish] t w; rx_frames ls t w
  end.
Definition ring_sizes (t : rxch) : list Z := map (fun p => from_option sp_len 0 (ps_mem (rx_store t) !! p)) (ring_bufs t).

(** Frame lengths that bring the short buffers together: each frame but the short
    ones ends one byte into the buffer the missing bytes are to move to. *)
Definition merging_lengths : list Z :=
  [1025; 1259; 1259; 1259; 1259; 1259; 1259; 1259; 1259; 1259; 60; 1281; 769; 1259; 1259; 1259; 1259; 1259; 1259; 1259; 1259; 235;
   1281; 1281; 513; 1259; 1259; 1259; 1259; 1259; 1259; 1259; 491; 1281; 1281; 1281; 257; 1259; 1259; 1259; 1259; 1259; 1259; 747;
   1281; 1281; 1281; 1281; 60; 1259; 1259; 1259; 1259; 1259; 1003; 1281; 1281; 1281; 1281; 1281; 1259; 1259; 1259; 1259; 1259;
   1281; 1281; 1281; 1281; 1281; 1025; 1259; 1259; 1259; 1259; 60; 1281; 1281; 1281; 1281; 1281; 1281; 769; 1259; 1259; 1259; 235;
   1281; 1281; 1281; 1281; 1281; 1281; 1281; 513; 1259; 1259; 491; 1281; 1281; 1281; 1281; 1281; 1281; 1281; 1281; 257; 1259; 747;
   1281; 1281; 1281; 1281; 1281; 1281; 1281; 1281; 1281; 60; 1003;
   (* the ring turns until the small buffer is first *)
   1281; 1281; 1281; 1281; 1281; 1281; 1281; 1281; 1281; 1025].

Lemma merging_sizes : (r ← rx_frames merging_lengths ex_rx []; Some (ring_sizes (fst r))) = Some (36 :: replicate 59 256).
Proof. vm_compute. reflexivity. Qed.

Lemma one_frame_script f : script_ok [emac_receive f; emac_finish].
Proof. split; [repeat constructor; apply emac_receive_rx || apply emac_finish_rx |]. intros g [= <-]. apply emac_finish_settled. Qed.
Lemma rx_frames_run ls : forall t w t' w', rx_run t w -> rx_frames ls t w = Some (t', w') -> rx_run t' w'.
Proof.
  induction ls as [| l ls IH]; intros t w t' w' Hr E; [by injection E as -> -> |]. cbn [rx_frames] in E.
  destruct (hdkif_rx_inthandler _ _ _ _) as [[t1 w1] |] eqn:E1; [| done]. apply (IH t1 w1); [| done].
  apply (rx_interrupts t w _ 9 _ _ Hr (one_frame_script _) ltac:(done) E1).
Qed.
Lemma ex_rx_run : rx_run ex_rx ([] : copier).
Proof. apply (rx_starts ex_rx_ram ex_rx_store); [done | exact ex_rx_store_ok | vm_compute; lia | done | exact ex_rx_init]. Qed.

(** ** The bound *)

Lemma head_size (r : option (rxch * copier)) n l : (x ← r; Some (ring_sizes (fst x))) = Some (Zpos n :: l) ->
  exists t w p b, r = Some (t, w) /\ head (ring_bufs t) = Some p /\ ps_mem (rx_store t) !! p = Some b /\ sp_len b = Zpos n.
Proof.
  destruct r as [[t w] |]; [| done]. intros [= E]. cbn [fst] in E. unfold ring_sizes in E. destruct (ring_bufs t) as [| p ps] eqn:Eb; [done |].
  injection E as Ep _. destruct (ps_mem (rx_store t) !! p) as [b |] eqn:Hp; [| done]. exists t, w, p, b. by rewrite Eb.
Qed.

(** One buffer of many holds what the others leave of the sum. *)
Lemma room_share m ps p b : buffers m ps -> p ∈ ps -> m !! p = Some b ->
  room m ps - 256 * (Z.of_nat (length ps) - 1) <= sp_len b <= 256.
Proof.
  intros Hb [l1 [l2 ->]]%list_elem_of_split Hp. pose proof Hb as [H1 H2]%Forall_app. apply Forall_cons in H2 as [(b' & Hb' & (_ & _ & _ & Hl & _)) H2].
  assert (b' = b) as -> by congruence. pose proof (room_bounds _ _ H1). pose proof (room_bounds _ _ H2).
  rewrite (room_app m l1 (p :: l2)), length_app. cbn [length]. change (room m (p :: l2)) with (from_option sp_len 0 (m !! p) + room m l2).
  rewrite Hp. cbn [from_option]. unfold PBUF_POOL_BUFSIZE_ALIGNED in Hl. lia.
Qed.

(** C14. Sizes of the receive buffers.  In any run of the driver every buffer of the
    ring keeps between 36 and 256 bytes, so the Ethernet and IP headers of a packet
    (34 bytes) are always in its first buffer.  The bound is reached: there is a
    run with frames of 60 to 1281 bytes only after which the next frame starts in a
    buffer of 36 bytes, where the header of a UDP datagram (up to byte 42) does not
    fit. *)
Theorem hdkif_rx_buffer_sizes :
  (forall W (HU : Upper W) (HO : UpperOk W) t (w : W) p, rx_run t w -> p ∈ ring_bufs t ->
     exists b, ps_mem (rx_store t) !! p = Some b /\ 36 <= sp_len b <= 256)
  /\ exists t (w : copier) p b, rx_run t w /\ rx_frames merging_lengths ex_rx [] = Some (t, w)
     /\ head (ring_bufs t) = Some p /\ ps_mem (rx_store t) !! p = Some b /\ sp_len b = 36.
Proof.
  split.
  - intros W HU HO t w p Hrun Hin. destruct (rx_run_ok t w Hrun) as (q & (ar & ps & Hok) & _). rewrite (proj2 (ring_eq _ _ _ _ _ Hok)) in Hin.
    pose proof (slot_buffers _ _ _ _ (rk_slots _ _ _ _ _ Hok)) as Hb. destruct (proj1 (Forall_forall _ _) Hb p Hin) as (b & Hp & _).
    exists b. split; [done |]. pose proof (room_share _ _ _ _ Hb Hin Hp) as Hs. rewrite (rk_room _ _ _ _ _ Hok), (rk_count _ _ _ _ _ Hok) in Hs.
    unfold RX_ROOM, RX_BUFS, MAX_RX_PBUF_ALLOC, PBUF_LEN_MAX, MAX_TRANSFER_UNIT in Hs. lia.
  - destruct (head_size _ _ _ merging_sizes) as (t & w & p & b & Er & Eb & Hp & Hl). exists t, w, p, b.
    split; [exact (rx_frames_run _ _ _ _ _ ex_rx_run Er) |]. repeat split; assumption.
Qed.

Lemma hdkif_rx_buffer_sizes_witness : exists p b, head (ring_bufs ex_rx) = Some p /\ ps_mem (rx_store ex_rx) !! p = Some b /\ 36 <= sp_len b <= 256.
Proof.
  assert (Hh : exists p, head (ring_bufs ex_rx) = Some p) by (eexists; vm_compute; reflexivity). destruct Hh as [p Hh].
  destruct (proj1 hdkif_rx_buffer_sizes copier _ _ ex_rx [] p ex_rx_run) as (b & Hb & Hl); [by apply list_elem_of_lookup_2 with 0%nat; rewrite <- head_lookup |].
  exists p, b. split; [exact Hh |]. split; [exact Hb | exact Hl].
Defined.
