(* ===== verification/Timers.v ===== *)
(** * Timeouts (core/timers.c)

    The list of pending timeouts, each with the milliseconds after the one before
    it, with the elements of the pool [MEMP_SYS_TIMEOUT]; requesting, cancelling and
    the check of the main loop that calls what is due.  The specification is an
    agenda of absolute times: the differences in the list implement it. *)

From S2P Require Import Prelude Memp.

(** The timer functions of the configuration. *)
Inductive handler : Set := arp_timer | dhcp_timer_coarse | dhcp_timer_fine | tcpip_tcp_timer.
#[export] Instance handler_eq_dec : EqDecision handler.
Proof. solve_decision. Defined.

Definition ARP_TMR_INTERVAL : Z := 5000.
Definition DHCP_COARSE_TIMER_MSECS : Z := 60 * 1000.
Definition DHCP_FINE_TIMER_MSECS : Z := 500.
Definition TCP_TMR_INTERVAL : Z := 250.
(** [LWIP_TCP + IP_REASSEMBLY + LWIP_ARP + (2*LWIP_DHCP) + ...] *)
Definition MEMP_NUM_SYS_TIMEOUT : nat := 4.

(** [struct sys_timeo], with the pool element it is in. *)
Record sys_timeo := mk_timeo { to_elem : nat; to_time : Z; to_h : handler; to_arg : Z }.
Definition set_time (x : Z) (t : sys_timeo) : sys_timeo := mk_timeo (to_elem t) x (to_h t) (to_arg t).

Record timers := mk_timers {
  next_timeout : list sys_timeo;
  timeo_pool : memp;
  timeouts_last_time : Z;
  tcpip_tcp_timer_active : bool
}.
Definition set_list l t := mk_timers l (timeo_pool t) (timeouts_last_time t) (tcpip_tcp_timer_active t).
Definition set_tpool m t := mk_timers (next_timeout t) m (timeouts_last_time t) (tcpip_tcp_timer_active t).
Definition set_last n t := mk_timers (next_timeout t) (timeo_pool t) n (tcpip_tcp_timer_active t).
Definition set_active b t := mk_timers (next_timeout t) (timeo_pool t) (timeouts_last_time t) b.

(** ** Requesting and cancelling *)

(** The loop of [sys_timeout] from [t] on. *)
Fixpoint timeout_walk (timeout t : sys_timeo) (rest : list sys_timeo) : list sys_timeo :=
  let timeout := set_time (u32 (to_time timeout - to_time t)) timeout in
  match rest with
  | [] => [t; timeout]
  | n :: rest =>
      if to_time n >? to_time timeout then t :: timeout :: set_time (u32 (to_time n - to_time timeout)) n :: rest
      else t :: timeout_walk timeout n rest
  end.
Definition timeout_insert (timeout : sys_timeo) (l : list sys_timeo) : list sys_timeo :=
  match l with
  | [] => [timeout]
  | h :: rest =>
      if to_time h >? to_time timeout then timeout :: set_time (u32 (to_time h - to_time timeout)) h :: rest
      else timeout_walk timeout h rest
  end.

(** [sys_timeout]; an empty pool leaves everything as it is (the assertion is
    compiled out). *)
Definition sys_timeout (msecs : Z) (h : handler) (arg : Z) (t : timers) : timers :=
  match memp_malloc (timeo_pool t) with
  | (None, _) => t
  | (Some e, pool) => set_list (timeout_insert (mk_timeo e msecs h arg) (next_timeout t)) (set_tpool pool t)
  end.

(** [sys_untimeout]: the element taken out, if any. *)
Fixpoint untimeout_walk (h : handler) (arg : Z) (l : list sys_timeo) : option nat * list sys_timeo :=
  match l with
  | [] => (None, [])
  | t :: rest =>
      if bool_decide (to_h t = h) && (to_arg t =? arg) then
        (Some (to_elem t), match rest with [] => [] | n :: rest => set_time (u32 (to_time n + to_time t)) n :: rest end)
      else let '(e, rest) := untimeout_walk h arg rest in (e, t :: rest)
  end.
Definition sys_untimeout (h : handler) (arg : Z) (t : timers) : timers :=
  let '(e, l) := untimeout_walk h arg (next_timeout t) in set_list l (set_tpool (memp_free e (timeo_pool t)) t).

(** ** The protocols' timers *)

(** What the timer functions do in the rest of the program, the state [W]. *)
Class Protocols (W : Type) := {
  etharp_tmr : W -> W;
  dhcp_coarse_tmr : W -> W;
  dhcp_fine_tmr : W -> W;
  tcp_tmr : W -> W;
  tcp_pcbs : W -> bool
}.

Section Check.
Context {W : Type} `{Protocols W}.

(** [arp_timer] and the others. *)
Definition run_handler (h : handler) (t : timers) (w : W) : timers * W :=
  match h with
  | arp_timer => let w := etharp_tmr w in (sys_timeout ARP_TMR_INTERVAL arp_timer 0 t, w)
  | dhcp_timer_coarse => let w := dhcp_coarse_tmr w in (sys_timeout DHCP_COARSE_TIMER_MSECS dhcp_timer_coarse 0 t, w)
  | dhcp_timer_fine => let w := dhcp_fine_tmr w in (sys_timeout DHCP_FINE_TIMER_MSECS dhcp_timer_fine 0 t, w)
  | tcpip_tcp_timer =>
      let w := tcp_tmr w in
      if tcp_pcbs w then (sys_timeout TCP_TMR_INTERVAL tcpip_tcp_timer 0 t, w) else (set_active false t, w)
  end.

(** [tcp_timer_needed]. *)
Definition tcp_timer_needed (t : timers) (w : W) : timers :=
  if negb (tcpip_tcp_timer_active t) && tcp_pcbs w
  then sys_timeout TCP_TMR_INTERVAL tcpip_tcp_timer 0 (set_active true t) else t.

(** [sys_check_timeouts]; [None] when the fuel does not suffice. *)
Fixpoint check_loop (fuel : nat) (now diff : Z) (t : timers) (w : W) : option (timers * W) :=
  match next_timeout t with
  | tmp :: rest =>
      if to_time tmp <=? diff then
        match fuel with
        | O => None
        | S fuel =>
            let t := set_last now t in
            let diff := u32 (diff - to_time tmp) in
            let t := set_tpool (memp_free (Some (to_elem tmp)) (timeo_pool t)) (set_list rest t) in
            let '(t, w) := run_handler (to_h tmp) t w in
            check_loop fuel now diff t w
        end
      else Some (t, w)
  | [] => Some (t, w)
  end.
(** Every pending timeout is due at most once in each millisecond. *)
Definition check_fuel (diff : Z) (t : timers) : nat := length (next_timeout t) * S (Z.to_nat diff).
Definition sys_check_timeouts (now : Z) (t : timers) (w : W) : option (timers * W) :=
  match next_timeout t with
  | [] => Some (t, w)
  | _ => let diff := u32 (now - timeouts_last_time t) in check_loop (check_fuel diff t) now diff t w
  end.
End Check.

(** [sys_now] of ports/hdk/sys_arch.c. *)
Definition sys_now : Z := 0.
(** [sys_restart_timeouts]. *)
Definition sys_restart_timeouts (t : timers) : timers := set_last sys_now t.
(** [sys_timeouts_init]. *)
Definition sys_timeouts_init (t : timers) : timers :=
  let t := sys_timeout ARP_TMR_INTERVAL arp_timer 0 t in
  let t := sys_timeout DHCP_COARSE_TIMER_MSECS dhcp_timer_coarse 0 t in
  let t := sys_timeout DHCP_FINE_TIMER_MSECS dhcp_timer_fine 0 t in
  set_last sys_now t.
(** The memory at the start. *)
Definition timers0 : timers := mk_timers [] (memp_init MEMP_NUM_SYS_TIMEOUT) 0 false.

(** ** The agenda *)

(** A pending call: when, what, with what. *)
Notation event := (Z * handler * Z)%type.
Definition at_time (x : event) : Z := fst (fst x).
(** The calls the list stands for, counted from [from]. *)
Fixpoint agenda (from : Z) (l : list sys_timeo) : list event :=
  match l with
  | [] => []
  | t :: l => (from + to_time t, to_h t, to_arg t) :: agenda (from + to_time t) l
  end.
(** A call entered behind those of the same time. *)
Fixpoint book (x : event) (l : list event) : list event :=
  match l with
  | [] => [x]
  | y :: l => if at_time y >? at_time x then x :: y :: l else y :: book x l
  end.
(** The first call of [h] with [arg] struck out. *)
Fixpoint strike (h : handler) (arg : Z) (l : list event) : list event :=
  match l with
  | [] => []
  | y :: l => if bool_decide (snd (fst y) = h) && (snd y =? arg) then l else y :: strike h arg l
  end.

(** No difference is negative, the last call is less than 2^32 ms ahead. *)
Fixpoint span (l : list sys_timeo) : Z := match l with [] => 0 | t :: l => to_time t + span l end.
Definition list_ok (l : list sys_timeo) : Prop := Forall (fun t => 0 <= to_time t) l /\ span l < 4294967296.

Lemma span_nonneg l : Forall (fun t => 0 <= to_time t) l -> 0 <= span l.
Proof. induction 1; cbn; lia. Qed.
Lemma list_ok_cons t l : list_ok (t :: l) <-> 0 <= to_time t /\ list_ok l /\ to_time t + span l < 4294967296.
Proof.
  unfold list_ok. rewrite Forall_cons. cbn. split; [| tauto]. intros [[Ht Hl] Hs]. pose proof (span_nonneg l Hl).
  split; [done |]. split; [split; [done | lia] | done].
Qed.
Lemma agenda_shift l a b : agenda (a + b) l = (fun x => (a + at_time x, snd (fst x), snd x)) <$> agenda b l.
Proof. revert b. induction l as [| t l IH]; intros b; cbn; [done |]. by rewrite <- Z.add_assoc, IH. Qed.
Lemma agenda_length l from : length (agenda from l) = length l.
Proof. revert from. induction l as [| t l IH]; intros from; cbn; [done |]. by rewrite IH. Qed.
Lemma agenda_later l from x : list_ok l -> x ∈ agenda from l -> from <= at_time x <= from + span l.
Proof.
  revert from. induction l as [| t l IH]; intros from; [by intros _ ?%elem_of_nil |].
  intros (Ht & Hok & Hs)%list_ok_cons [-> | Hx]%elem_of_cons; pose proof (span_nonneg l (proj1 Hok));
    change (span (t :: l)) with (to_time t + span l); [cbn; lia |]. apply IH in Hx; [lia | done].
Qed.

Lemma timeo_walk_ok rest : forall x t from, list_ok (t :: rest) -> to_time t <= to_time x < 4294967296 ->
  agenda from (timeout_walk x t rest) = book (from + to_time x, to_h x, to_arg x) (agenda from (t :: rest))
  /\ list_ok (timeout_walk x t rest) /\ span (timeout_walk x t rest) = Z.max (span (t :: rest)) (to_time x)
  /\ to_elem <$> timeout_walk x t rest ≡ₚ to_elem x :: (to_elem <$> t :: rest).
Proof.
  induction rest as [| n rest IH]; intros x t from (Ht & Hok & Hs)%list_ok_cons Hx; cbn [timeout_walk];
    rewrite (u32_small (to_time x - to_time t)) by (unfold is_u32; lia); cbn [agenda book to_time set_time at_time fst snd];
    (destruct (Z.gtb_spec (from + to_time t) (from + to_time x)) as [? | _]; [lia |]).
  - cbn. replace (from + to_time t + (to_time x - to_time t)) with (from + to_time x) by lia.
    split; [done |]. split; [| split; [lia | by apply Permutation_swap]]. rewrite !list_ok_cons. cbn. unfold list_ok. cbn. repeat split; done || lia.
  - apply list_ok_cons in Hok as Hok'. destruct Hok' as (Hn & Hr & Hrs). pose proof (span_nonneg rest (proj1 Hr)). cbn in Hs.
    destruct (Z.gtb_spec (to_time n) (to_time x - to_time t)) as [Hgt | Hle];
      destruct (Z.gtb_spec (from + to_time t + to_time n) (from + to_time x)) as [? | ?]; try lia.
    + rewrite (u32_small (to_time n - _)) by (unfold is_u32; lia). cbn [agenda to_time set_time to_h to_arg].
      replace (from + to_time t + (to_time x - to_time t)) with (from + to_time x) by lia.
      replace (from + to_time x + (to_time n - (to_time x - to_time t))) with (from + to_time t + to_time n) by lia.
      split; [done |]. split; [| split; [cbn; lia | cbn; by rewrite Permutation_swap]].
      rewrite !list_ok_cons. cbn. repeat split; try done; try lia; apply Hr.
    + destruct (IH (set_time (to_time x - to_time t) x) n (from + to_time t)) as (E & Hk & Hsp & Hp); [done | cbn; lia |].
      cbn [to_time set_time to_h to_arg to_elem] in *. cbn [agenda]. rewrite E.
      replace (from + to_time t + (to_time x - to_time t)) with (from + to_time x) by lia. cbn [book agenda at_time fst snd].
      destruct (Z.gtb_spec (from + to_time t + to_time n) (from + to_time x)) as [? | _]; [lia |].
      split; [done |]. cbn [span] in *. split; [| split; [lia |]].
      * apply list_ok_cons. split; [done |]. split; [done | lia].
      * rewrite !fmap_cons in *. rewrite Hp. by rewrite Permutation_swap.
Qed.

Lemma timeo_insert_ok x l from : list_ok l -> 0 <= to_time x < 4294967296 ->
  agenda from (timeout_insert x l) = book (from + to_time x, to_h x, to_arg x) (agenda from l)
  /\ list_ok (timeout_insert x l) /\ span (timeout_insert x l) = Z.max (span l) (to_time x)
  /\ to_elem <$> timeout_insert x l ≡ₚ to_elem x :: (to_elem <$> l).
Proof.
  destruct l as [| t rest]; intros Hok Hx; cbn [timeout_insert].
  - split; [done |]. split; [apply list_ok_cons; cbn; repeat split; done || lia |]. split; [cbn; lia | done].
  - destruct (Z.gtb_spec (to_time t) (to_time x)) as [Hgt | Hle]; [| apply timeo_walk_ok; [done | lia]].
    apply list_ok_cons in Hok as (Ht & Hok & Hs). pose proof (span_nonneg rest (proj1 Hok)).
    rewrite (u32_small (to_time t - to_time x)) by (unfold is_u32; lia). cbn [agenda book to_time set_time to_h to_arg at_time fst snd span].
    destruct (Z.gtb_spec (from + to_time t) (from + to_time x)) as [_ | ?]; [| lia].
    replace (from + to_time x + (to_time t - to_time x)) with (from + to_time t) by lia.
    split; [done |]. split; [| split; [lia | done]]. rewrite !list_ok_cons. cbn. repeat split; try done; try lia; apply Hok.
Qed.

Lemma untimeout_ok h arg l : forall from, list_ok l ->
  agenda from (snd (untimeout_walk h arg l)) = strike h arg (agenda from l)
  /\ list_ok (snd (untimeout_walk h arg l)) /\ span (snd (untimeout_walk h arg l)) <= span l
  /\ match fst (untimeout_walk h arg l) with
     | Some e => to_elem <$> l ≡ₚ e :: (to_elem <$> snd (untimeout_walk h arg l))
     | None => snd (untimeout_walk h arg l) = l
     end.
Proof.
  induction l as [| t l IH]; intros from Hok; [by repeat split |]. apply list_ok_cons in Hok as Hok'. destruct Hok' as (Ht & Hl & Hs).
  cbn [untimeout_walk agenda strike fst snd]. destruct (bool_decide (to_h t = h) && (to_arg t =? arg)) eqn:E.
  - destruct l as [| n l]; cbn [fst snd].
    + split; [done |]. split; [by split |]. split; [cbn; lia | done].
    + apply list_ok_cons in Hl as (Hn & Hl & Hns). pose proof (span_nonneg l (proj1 Hl)). cbn [span] in *.
      rewrite (u32_small (to_time n + to_time t)) by (unfold is_u32; lia). cbn [agenda to_time set_time to_h to_arg span].
      replace (from + (to_time n + to_time t)) with (from + to_time t + to_time n) by lia.
      split; [done |]. split; [apply list_ok_cons; cbn; split; [lia |]; split; [done | lia] |]. split; [lia | done].
  - destruct (IH (from + to_time t) Hl) as (Ea & Hk & Hsp & He). destruct (untimeout_walk h arg l) as [e l']. cbn [fst snd agenda span] in *.
    rewrite Ea. split; [done |]. split; [apply list_ok_cons; split; [done |]; split; [done | lia] |]. split; [lia |].
    destruct e as [e |]; [| by rewrite He]. rewrite !fmap_cons, He. apply Permutation_swap.
Qed.

(** The timeouts' memory: every pending one has an element of the pool. *)
Record timers_ok (t : timers) : Prop := {
  tm_list : list_ok (next_timeout t);
  tm_NoDup : NoDup (to_elem <$> next_timeout t);
  tm_pool : memp_ok MEMP_NUM_SYS_TIMEOUT (list_to_set (to_elem <$> next_timeout t)) (timeo_pool t);
  tm_last : is_u32 (timeouts_last_time t)
}.
(** The pending calls, counted from the last check. *)
Definition pending (t : timers) : list event := agenda 0 (next_timeout t).

Lemma timeout_ok msecs h arg t : timers_ok t -> is_u32 msecs -> (length (pending t) < MEMP_NUM_SYS_TIMEOUT)%nat ->
  timers_ok (sys_timeout msecs h arg t) /\ pending (sys_timeout msecs h arg t) = book (msecs, h, arg) (pending t).
Proof.
  intros [Hl Hnd Hp Hu] Hm Hlen. unfold pending in Hlen. rewrite agenda_length in Hlen.
  unfold sys_timeout. destruct (memp_malloc_avail _ _ _ Hp) as (e & m & E).
  { rewrite size_list_to_set by done. rewrite length_fmap. lia. }
  rewrite E. destruct (memp_malloc_ok _ _ _ _ _ Hp E) as (Hne & _ & Hp').
  destruct (timeo_insert_ok (mk_timeo e msecs h arg) (next_timeout t) 0 Hl Hm) as (Ea & Hk & _ & Hperm). cbn [to_elem to_time to_h to_arg] in *.
  split; [| exact Ea]. split; cbn [next_timeout set_list set_tpool timeo_pool timeouts_last_time]; try done.
  - rewrite Hperm. constructor; [| done]. by rewrite elem_of_list_to_set in Hne.
  - rewrite Hperm. exact Hp'.
Qed.
Lemma pool_drop n e (l : list nat) m : NoDup (e :: l) -> memp_ok n (list_to_set (e :: l)) m -> memp_ok n (list_to_set l) (memp_free (Some e) m).
Proof.
  intros [Hne _]%NoDup_cons Hp. apply (memp_free_ok _ _ _ e) in Hp; [| cbn; set_solver]. cbn in Hp.
  replace (list_to_set l) with (({[e]} ∪ list_to_set l) ∖ {[e]} : gset nat); [exact Hp |].
  apply set_eq. intros x. rewrite elem_of_difference, elem_of_union, elem_of_singleton, elem_of_list_to_set.
  destruct (decide (x = e)) as [-> |]; tauto.
Qed.
Lemma untimeout_keeps h arg t : timers_ok t ->
  timers_ok (sys_untimeout h arg t) /\ pending (sys_untimeout h arg t) = strike h arg (pending t).
Proof.
  intros [Hl Hnd Hp Hu]. unfold sys_untimeout, pending. destruct (untimeout_ok h arg (next_timeout t) 0 Hl) as (Ea & Hk & _ & He).
  destruct (untimeout_walk h arg (next_timeout t)) as [[e |] l]; cbn [fst snd] in *; (split; [| exact Ea]); [| subst l; by split].
  rewrite He in Hnd, Hp. apply NoDup_cons in Hnd as Hnd'. destruct Hnd' as [_ Hnd']. split; [done | done | by apply pool_drop | done].
Qed.

(** ** The check *)

(** What a run of the main loop's check does to the agenda up to the time [D]:
    calls in order, each entering its next call counted from its own time. *)
Section Fires.
Context {W : Type} `{Protocols W}.

Definition effect (h : handler) : W -> W :=
  match h with arp_timer => etharp_tmr | dhcp_timer_coarse => dhcp_coarse_tmr | dhcp_timer_fine => dhcp_fine_tmr | tcpip_tcp_timer => tcp_tmr end.
Definition again (h : handler) (w : W) : option Z :=
  match h with
  | arp_timer => Some ARP_TMR_INTERVAL
  | dhcp_timer_coarse => Some DHCP_COARSE_TIMER_MSECS
  | dhcp_timer_fine => Some DHCP_FINE_TIMER_MSECS
  | tcpip_tcp_timer => if tcp_pcbs w then Some TCP_TMR_INTERVAL else None
  end.
Definition rebook (x : event) (w : W) (l : list event) : list event :=
  match again (snd (fst x)) w with Some i => book (at_time x + i, snd (fst x), 0) l | None => l end.
Inductive fires (D : Z) : list event -> W -> list event -> list event -> W -> Prop :=
| fires_none l w : Forall (fun x => D < at_time x) l -> fires D l w [] l w
| fires_call x l w calls l' w' : at_time x <= D ->
    fires D (rebook x (effect (snd (fst x)) w) l) (effect (snd (fst x)) w) calls l' w' -> fires D (x :: l) w (x :: calls) l' w'.

Lemma fires_done D l w calls l' w' : fires D l w calls l' w' -> Forall (fun x => D < at_time x) l'.
Proof. by induction 1. Qed.

Definition shift (a : Z) (x : event) : event := (a + at_time x, snd (fst x), snd x).
Lemma agenda_from a l : agenda a l = shift a <$> agenda 0 l.
Proof. rewrite <- (Z.add_0_r a) at 1. apply agenda_shift. Qed.
Lemma book_shift a x l : book (shift a x) (shift a <$> l) = shift a <$> book x l.
Proof.
  induction l as [| y l IH]; [done |]. rewrite fmap_cons. cbn [book].
  change (at_time (shift a y)) with (a + at_time y). change (at_time (shift a x)) with (a + at_time x).
  destruct (Z.gtb_spec (a + at_time y) (a + at_time x)), (Z.gtb_spec (at_time y) (at_time x)); try lia; [done |].
  by rewrite fmap_cons, IH.
Qed.
Lemma book_perm x l : book x l ≡ₚ x :: l.
Proof.
  induction l as [| y l IH]; cbn; [done |]. destruct (at_time y >? at_time x); [done |]. rewrite IH. apply Permutation_swap.
Qed.
Lemma book_length x l : length (book x l) = S (length l).
Proof. by rewrite book_perm. Qed.
Lemma again_range h w i : again h w = Some i -> 250 <= i <= 60000.
Proof. destruct h; cbn; [..| destruct (tcp_pcbs w)]; intros [= <-]; unfold ARP_TMR_INTERVAL, DHCP_COARSE_TIMER_MSECS, DHCP_FINE_TIMER_MSECS, TCP_TMR_INTERVAL; lia. Qed.

Lemma run_handler_ok h t w : timers_ok t -> (length (pending t) < MEMP_NUM_SYS_TIMEOUT)%nat ->
  exists t', run_handler h t w = (t', effect h w) /\ timers_ok t' /\ timeouts_last_time t' = timeouts_last_time t
  /\ pending t' = match again h (effect h w) with Some i => book (i, h, 0) (pending t) | None => pending t end.
Proof.
  intros Hok Hlen.
  assert (Ht : forall i g, is_u32 i -> timers_ok (sys_timeout i g 0 t) /\ timeouts_last_time (sys_timeout i g 0 t) = timeouts_last_time t
    /\ pending (sys_timeout i g 0 t) = book (i, g, 0) (pending t)).
  { intros i g Hi. destruct (timeout_ok i g 0 t Hok Hi Hlen) as [H1 H2]. split; [done |]. split; [| done].
    unfold sys_timeout. by destruct (memp_malloc (timeo_pool t)) as [[] ?]. }
  destruct h; cbn [run_handler effect again]; [| | | destruct (tcp_pcbs (tcp_tmr w))]; eexists; (split; [reflexivity |]);
    try (apply Ht; unfold is_u32, ARP_TMR_INTERVAL, DHCP_COARSE_TIMER_MSECS, DHCP_FINE_TIMER_MSECS, TCP_TMR_INTERVAL; lia).
  by destruct Hok.
Qed.

(** What is still due, in milliseconds. *)
Definition due (D : Z) (l : list event) : nat := sum_list_with (fun x => Z.to_nat (D + 1 - at_time x)) l.
Lemma due_rebook D x w l : at_time x <= D -> (due D (rebook x w l) < due D (x :: l))%nat.
Proof.
  intros Hx. unfold rebook. destruct (again _ w) as [i |] eqn:E; unfold due; [| cbn; lia].
  apply again_range in E. rewrite book_perm. cbn. lia.
Qed.

Lemma popped_ok t tmp rest now : timers_ok t -> next_timeout t = tmp :: rest -> is_u32 now ->
  timers_ok (set_tpool (memp_free (Some (to_elem tmp)) (timeo_pool t)) (set_list rest (set_last now t))).
Proof.
  intros [Hl Hnd Hp _] El Hn. rewrite El in *. apply list_ok_cons in Hl as (_ & Hl & _). rewrite fmap_cons in Hnd, Hp.
  apply NoDup_cons in Hnd as Hnd'. split; cbn; [done | tauto | by apply pool_drop | done].
Qed.
Lemma agenda_above D base tmp rest : list_ok (tmp :: rest) -> D < base + to_time tmp -> Forall (fun x => D < at_time x) (agenda base (tmp :: rest)).
Proof.
  intros (Ht & Hr & _)%list_ok_cons Hlt. apply Forall_cons. split; [done |]. apply Forall_forall. intros x Hx.
  apply agenda_later in Hx; [lia | done].
Qed.
Definition loop_post (D base now : Z) (t : timers) (w : W) (r : option (timers * W)) : Prop :=
  exists t' w' calls base', r = Some (t', w') /\ timers_ok t' /\ base <= base' <= D
  /\ fires D (agenda base (next_timeout t)) w calls (agenda base' (next_timeout t')) w'
  /\ timeouts_last_time t' = (match calls with [] => timeouts_last_time t | _ => now end)
  /\ base' = from_option at_time base (last calls).
Lemma loop_stops D base now t w : timers_ok t -> 0 <= D - base -> Forall (fun x => D < at_time x) (agenda base (next_timeout t)) ->
  loop_post D base now t w (Some (t, w)).
Proof. intros Hok Hd Hf. exists t, w, [], base. split; [done |]. split; [done |]. split; [lia |]. split; [by apply fires_none | done]. Qed.

(** The loop, with the time [base] of the last call and [D - base] ms still to run. *)
Lemma check_loop_ok fuel : forall D base now t w, timers_ok t -> is_u32 now -> is_u32 (D - base) -> (due D (agenda base (next_timeout t)) <= fuel)%nat ->
  (length (pending t) <= MEMP_NUM_SYS_TIMEOUT)%nat -> loop_post D base now t w (check_loop fuel now (D - base) t w).
Proof.
  induction fuel as [| fuel IH]; intros D base now t w Hok Hn Hd Hf Hlen; cbn [check_loop];
    destruct (next_timeout t) as [| tmp rest] eqn:El; try (apply loop_stops; [done | apply Hd | by rewrite El]);
    pose proof (tm_list _ Hok) as Hl; rewrite El in Hl; apply list_ok_cons in Hl as Hl'; destruct Hl' as (Ht & Hr & Hs);
    (destruct (Z.leb_spec (to_time tmp) (D - base)) as [Hle | Hgt]; [| apply loop_stops; [done | apply Hd | rewrite El; apply agenda_above; [done | lia]]]).
  - exfalso. unfold due in Hf. cbn in Hf. lia.
  - set (t1 := set_tpool _ _). pose proof (popped_ok t tmp rest now Hok El Hn) as Hok1. fold t1 in Hok1.
    rewrite u32_small by (unfold is_u32 in *; lia). replace (D - base - to_time tmp) with (D - (base + to_time tmp)) by lia.
    unfold pending in Hlen. rewrite El, agenda_length in Hlen. cbn in Hlen.
    destruct (run_handler_ok (to_h tmp) t1 w Hok1) as (t2 & E2 & Hok2 & Hlast & Hpend); [unfold pending; rewrite agenda_length; cbn; lia |].
    rewrite E2. set (x := (base + to_time tmp, to_h tmp, to_arg tmp) : event). set (w2 := effect (to_h tmp) w) in *.
    assert (Ea : agenda (base + to_time tmp) (next_timeout t2) = rebook x w2 (agenda (base + to_time tmp) rest)).
    { rewrite agenda_from, (agenda_from _ rest). fold (pending t2). rewrite Hpend. unfold rebook. cbn [x fst snd].
      destruct (again (to_h tmp) w2); [by rewrite <- book_shift | done]. }
    pose proof (due_rebook D x w2 (agenda (base + to_time tmp) rest) ltac:(cbn; lia)) as Hdue. cbn [agenda] in Hf. fold x in Hf.
    destruct (IH D (base + to_time tmp) now t2 w2) as (t' & w' & calls & base' & E & Hok' & Hb & Hfire & Hl2 & Eb).
    { done. } { done. } { unfold is_u32 in *; lia. } { rewrite Ea. lia. }
    { rewrite Hpend. destruct (again (to_h tmp) w2); rewrite ?book_length; unfold pending; rewrite agenda_length; cbn; lia. }
    exists t', w', (x :: calls), base'. split; [exact E |]. split; [done |]. split; [lia |]. split; [| split].
    + rewrite El. cbn [agenda]. fold x. apply fires_call; [cbn; lia |]. cbn [x fst snd]. fold w2. by rewrite Ea in Hfire.
    + rewrite Hl2. by destruct calls.
    + rewrite Eb. destruct calls as [| y calls]; [done |]. change (last (x :: y :: calls)) with (last (y :: calls)).
      destruct (last (y :: calls)) eqn:E'; [done |]. by apply last_None in E'.
Qed.
End Fires.

(** ** Reachable states *)

Lemma pool_size t : timers_ok t -> (length (next_timeout t) <= MEMP_NUM_SYS_TIMEOUT)%nat.
Proof.
  intros [_ Hnd (_ & _ & Hu) _]. rewrite <- (length_fmap to_elem), <- (length_seq MEMP_NUM_SYS_TIMEOUT 0).
  apply submseteq_length, NoDup_submseteq; [done |]. intros e He. apply elem_of_seq. split; [lia |]. apply Hu. by apply elem_of_list_to_set.
Qed.
Lemma timeout_full msecs h arg t : timers_ok t -> (MEMP_NUM_SYS_TIMEOUT <= length (next_timeout t))%nat -> sys_timeout msecs h arg t = t.
Proof.
  intros [_ Hnd Hp _] Hlen. unfold sys_timeout. destruct (memp_malloc (timeo_pool t)) as [[e |] m] eqn:E; [| done].
  destruct (memp_malloc_ok _ _ _ _ _ Hp E) as (Hne & _ & _ & _ & Hu). rewrite elem_of_list_to_set in Hne. exfalso.
  assert (Hs : (length (e :: (to_elem <$> next_timeout t)) <= length (seq 0 MEMP_NUM_SYS_TIMEOUT))%nat).
  { apply submseteq_length, NoDup_submseteq; [by constructor |]. intros x Hx. apply elem_of_seq. split; [lia |]. apply Hu. set_solver. }
  rewrite length_seq in Hs. cbn [length] in Hs. rewrite length_fmap in Hs. lia.
Qed.
Lemma set_last_ok n t : timers_ok t -> is_u32 n -> timers_ok (set_last n t).
Proof. by intros [] Hn. Qed.
Lemma timeout_keeps msecs h arg t : timers_ok t -> is_u32 msecs -> timers_ok (sys_timeout msecs h arg t).
Proof.
  intros Hok Hm. destruct (decide (length (next_timeout t) < MEMP_NUM_SYS_TIMEOUT)%nat) as [Hlt | Hge].
  - apply timeout_ok; [done | done |]. unfold pending. by rewrite agenda_length.
  - by rewrite timeout_full by (done || lia).
Qed.
Lemma timers0_ok : timers_ok timers0.
Proof. split; [by split | constructor | exact (memp_init_ok _) | by split]. Qed.

Section Run.
Context {W : Type} `{Protocols W}.

(** From [lwip_init] on: requests, cancellations, checks at any time, and whatever
    else changes the program's state. *)
Inductive timers_run : timers -> W -> Prop :=
| run_init w : timers_run (sys_timeouts_init timers0) w
| run_timeout t w msecs h arg : timers_run t w -> is_u32 msecs -> timers_run (sys_timeout msecs h arg t) w
| run_untimeout t w h arg : timers_run t w -> timers_run (sys_untimeout h arg t) w
| run_needed t w : timers_run t w -> timers_run (tcp_timer_needed t w) w
| run_restart t w : timers_run t w -> timers_run (sys_restart_timeouts t) w
| run_check t w now t' w' : timers_run t w -> is_u32 now -> sys_check_timeouts now t w = Some (t', w') -> timers_run t' w'
| run_world t w w' : timers_run t w -> timers_run t w'.

Lemma check_ok now t w : timers_ok t -> is_u32 now ->
  let D := u32 (now - timeouts_last_time t) in loop_post D 0 now t w (sys_check_timeouts now t w).
Proof.
  intros Hok Hn D. unfold sys_check_timeouts. fold D. pose proof (u32_range (now - timeouts_last_time t)) as HD. fold D in HD.
  assert (HD0 : D - 0 = D) by lia. destruct (next_timeout t) as [| tmp rest] eqn:El; [apply loop_stops; [done | unfold is_u32 in HD; lia | by rewrite El] |].
  pose proof (check_loop_ok (check_fuel D t) D 0 now t w Hok Hn) as Hloop. rewrite HD0 in Hloop.
  apply Hloop; [done | | unfold pending; rewrite agenda_length; by apply pool_size].
  unfold check_fuel. rewrite El. assert (Hl := tm_list _ Hok). rewrite El in Hl. clear El HD0. unfold due.
  assert (Hb : forall x, x ∈ agenda 0 (tmp :: rest) -> (Z.to_nat (D + 1 - at_time x) <= S (Z.to_nat D))%nat).
  { intros x Hx. apply agenda_later in Hx; [unfold is_u32 in HD; lia | done]. }
  rewrite <- (agenda_length (tmp :: rest) 0). induction (agenda 0 (tmp :: rest)) as [| x l IH]; [done |].
  cbn [length sum_list_with Nat.mul]. pose proof (Hb x ltac:(left)). specialize (IH ltac:(intros y Hy; apply Hb; by right)). lia.
Qed.
Lemma timers_run_ok t w : timers_run t w -> timers_ok t.
Proof.
  induction 1 as [w | t w msecs h arg _ IH Hm | t w h arg _ IH | t w _ IH | t w _ IH | t w now t' w' _ IH Hn E |]; try done.
  - unfold sys_timeouts_init. apply set_last_ok; [| done]. apply timeout_keeps; [| done]. apply timeout_keeps; [| done]. apply timeout_keeps; [exact timers0_ok | done].
  - by apply timeout_keeps.
  - by apply untimeout_keeps.
  - unfold tcp_timer_needed. destruct (_ && _); [| done]. apply timeout_keeps; [by destruct IH | done].
  - by apply set_last_ok.
  - destruct (check_ok now t w IH Hn) as (t1 & w1 & calls & base' & E1 & Hok & _). congruence.
Qed.

(** C19. The list of differences implements an agenda of times, in every reachable
    state: a request enters the call behind those of the same time and leaves the
    others (unless all four elements of the pool are in use, when nothing
    changes), a cancellation strikes out the first call of the function and leaves
    the times of the others. *)
Theorem timeouts_refine_agenda t w (Hrun : timers_run t w) :
  (forall msecs h arg, is_u32 msecs -> pending (sys_timeout msecs h arg t) =
    if (length (pending t) <? MEMP_NUM_SYS_TIMEOUT)%nat then book (msecs, h, arg) (pending t) else pending t)
  /\ (forall h arg, pending (sys_untimeout h arg t) = strike h arg (pending t))
  /\ (length (pending t) <= MEMP_NUM_SYS_TIMEOUT)%nat.
Proof.
  pose proof (timers_run_ok t w Hrun) as Hok. assert (Hlen : length (pending t) = length (next_timeout t)) by apply agenda_length.
  rewrite Hlen. split; [| split; [| by apply pool_size]].
  - intros msecs h arg Hm. destruct (Nat.ltb_spec (length (next_timeout t)) MEMP_NUM_SYS_TIMEOUT) as [Hlt | Hge].
    + apply timeout_ok; [done | done |]. unfold pending. by rewrite agenda_length.
    + by rewrite timeout_full.
  - intros h arg. by apply untimeout_keeps.
Qed.

(** C20. The check of the main loop ends, in every reachable state and at every
    reading of the clock, the wrap-around included: it calls what is due in the
    [D] milliseconds since the last call, in the order of the agenda, periodic
    functions as often as their period fits, and nothing that is not due.  The
    remaining calls are then counted from [now] though the list counts them from
    the last call: each is put off by the milliseconds between the two. *)
Theorem sys_check_timeouts_fires t w now (Hrun : timers_run t w) (Hnow : is_u32 now) :
  let D := u32 (now - timeouts_last_time t) in
  exists t' w' calls l', sys_check_timeouts now t w = Some (t', w') /\ fires D (pending t) w calls l' w'
  /\ Forall (fun x => D < at_time x) l'
  /\ pending t' = shift (- from_option at_time 0 (last calls)) <$> l'
  /\ timeouts_last_time t' = (match calls with [] => timeouts_last_time t | _ => now end).
Proof.
  intros D. destruct (check_ok now t w (timers_run_ok t w Hrun) Hnow) as (t' & w' & calls & base' & E & _ & _ & Hf & Hl & ->).
  fold D in Hf. eexists t', w', calls, _. split; [exact E |]. split; [exact Hf |]. split; [| split; [| exact Hl]].
  - by eapply fires_done.
  - rewrite (agenda_from (from_option at_time 0 (last calls))). unfold pending. rewrite <- list_fmap_compose.
    rewrite <- (list_fmap_id (agenda 0 (next_timeout t'))) at 1. apply list_fmap_ext. intros i [[x h] a] _.
    unfold shift, at_time. cbn. do 2 f_equal. lia.
Qed.
End Run.

(** *** Witnesses *)

(** A program that counts its timer calls and has no TCP connection. *)
#[local] Instance counting : Protocols (Z * Z) :=
  {| etharp_tmr w := (fst w + 1, snd w); dhcp_coarse_tmr w := w; dhcp_fine_tmr w := (fst w, snd w + 1); tcp_tmr w := w; tcp_pcbs _ := false |}.
Definition ex_timers : timers := sys_timeouts_init timers0.
Lemma ex_timers_run : timers_run ex_timers (0, 0).
Proof. apply run_init. Qed.
Lemma timeouts_refine_agenda_witness : pending ex_timers = [(500, dhcp_timer_fine, 0); (5000, arp_timer, 0); (60000, dhcp_timer_coarse, 0)]
  /\ pending (sys_timeout 5000 tcpip_tcp_timer 0 ex_timers)
     = [(500, dhcp_timer_fine, 0); (5000, arp_timer, 0); (5000, tcpip_tcp_timer, 0); (60000, dhcp_timer_coarse, 0)].
Proof.
  split; [reflexivity |]. destruct (timeouts_refine_agenda ex_timers (0, 0) ex_timers_run) as (H & _ & _).
  rewrite H by (unfold is_u32; lia). reflexivity.
Defined.
Lemma sys_check_timeouts_fires_witness : exists t' w' calls l', sys_check_timeouts 700 ex_timers (0, 0) = Some (t', w')
  /\ fires 700 (pending ex_timers) (0, 0) calls l' w' /\ pending t' = shift (- from_option at_time 0 (last calls)) <$> l'.
Proof.
  destruct (sys_check_timeouts_fires ex_timers (0, 0) 700 ex_timers_run ltac:(unfold is_u32; lia)) as (t' & w' & calls & l' & E & Hf & _ & Hp & _).
  exists t', w', calls, l'. split; [exact E |]. split; [exact Hf | exact Hp].
Defined.
(** The milliseconds lost: checked at 700, the call that was due every 500 comes
    next at 1200 and not at 1000. *)
Lemma sys_check_drift : (fun r => (timeouts_last_time (fst r), pending (fst r), snd r)) <$> sys_check_timeouts 700 ex_timers (0, 0)
  = Some (700, [(500, dhcp_timer_fine, 0); (4500, arp_timer, 0); (59500, dhcp_timer_coarse, 0)], (0, 1)).
Proof. vm_compute. reflexivity. Qed.
(** A request is counted from the last check and not from now: one for 300 ms made
    600 ms after the last check is called at once. *)
Lemma sys_timeout_early : (fun r => timeouts_last_time (fst r)) <$> sys_check_timeouts 600 (sys_timeout 300 tcpip_tcp_timer 0 ex_timers) (0, 0) = Some 600
  /\ head (pending (sys_timeout 300 tcpip_tcp_timer 0 ex_timers)) = Some (300, tcpip_tcp_timer, 0).
Proof. vm_compute. done. Qed.
