(* ===== verification/DhcpOpt.v ===== *)
(** * Reading a DHCP reply (core/dhcp.c, [dhcp_parse_reply])

    The options of a reply that may span several pbufs, as the code walks them:
    with 16-bit offsets into the current pbuf.  Reading outside a pbuf, through a
    null pointer or outside an array has no result ([None]), and neither has a
    loop that does not end. *)

From S2P Require Import Prelude Pbuf.

(** ** Constants (lwip/dhcp.h) *)

Definition DHCP_SNAME_OFS : Z := 44.
Definition DHCP_FILE_OFS : Z := 108.
Definition DHCP_MSG_LEN : Z := 236.
Definition DHCP_OPTIONS_OFS : Z := DHCP_MSG_LEN + 4.
Definition DHCP_SNAME_LEN : Z := 64.
Definition DHCP_FILE_LEN : Z := 128.

Definition DHCP_OPTION_PAD : Z := 0.
Definition DHCP_OPTION_SUBNET_MASK : Z := 1.
Definition DHCP_OPTION_ROUTER : Z := 3.
Definition DHCP_OPTION_DNS_SERVER : Z := 6.
Definition DHCP_OPTION_LEASE_TIME : Z := 51.
Definition DHCP_OPTION_OVERLOAD : Z := 52.
Definition DHCP_OPTION_MESSAGE_TYPE : Z := 53.
Definition DHCP_OPTION_SERVER_ID : Z := 54.
Definition DHCP_OPTION_T1 : Z := 58.
Definition DHCP_OPTION_T2 : Z := 59.
Definition DHCP_OPTION_END : Z := 255.

Definition DHCP_OVERLOAD_FILE : Z := 1.
Definition DHCP_OVERLOAD_SNAME : Z := 2.
Definition DHCP_OVERLOAD_SNAME_FILE : Z := 3.

Definition DNS_MAX_SERVERS : nat := 2.
Definition DHCP_OPTION_IDX_OVERLOAD : nat := 0.
Definition DHCP_OPTION_IDX_MSG_TYPE : nat := 1.
Definition DHCP_OPTION_IDX_SERVER_ID : nat := 2.
Definition DHCP_OPTION_IDX_LEASE_TIME : nat := 3.
Definition DHCP_OPTION_IDX_T1 : nat := 4.
Definition DHCP_OPTION_IDX_T2 : nat := 5.
Definition DHCP_OPTION_IDX_SUBNET_MASK : nat := 6.
Definition DHCP_OPTION_IDX_ROUTER : nat := 7.
Definition DHCP_OPTION_IDX_DNS_SERVER : nat := 8.
Definition DHCP_OPTION_IDX_MAX : nat := DHCP_OPTION_IDX_DNS_SERVER + DNS_MAX_SERVERS.

(** [dhcp_rx_options_given] with [dhcp_rx_options_val]: the value is looked at
    only when the option is given. *)
Notation rx_options := (list (option Z)).
Definition dhcp_clear_all_options : rx_options := replicate DHCP_OPTION_IDX_MAX None.
Definition dhcp_get_option (idx : nat) (o : rx_options) : option Z := mjoin (o !! idx).

(** ** One pass over the options *)

(** The [switch] over the option code: how many bytes to decode into which
    entry, or [ERR_VAL]. *)
Definition opt_switch (op len : Z) : err_t + (Z * nat) :=
  let fixed n idx := if len =? n then inr (len, idx) else inl ERR_VAL in
  if op =? DHCP_OPTION_PAD then inr (0, 0%nat)
  else if op =? DHCP_OPTION_SUBNET_MASK then fixed 4 DHCP_OPTION_IDX_SUBNET_MASK
  else if op =? DHCP_OPTION_ROUTER then if 4 <=? len then inr (4, DHCP_OPTION_IDX_ROUTER) else inl ERR_VAL
  else if op =? DHCP_OPTION_DNS_SERVER then
    if negb (len mod 4 =? 0) then inl ERR_VAL
    else let decode_len := Z.min len (4 * Z.of_nat DNS_MAX_SERVERS) in
         if decode_len <=? len then inr (decode_len, DHCP_OPTION_IDX_DNS_SERVER) else inl ERR_VAL
  else if op =? DHCP_OPTION_LEASE_TIME then fixed 4 DHCP_OPTION_IDX_LEASE_TIME
  else if op =? DHCP_OPTION_OVERLOAD then fixed 1 DHCP_OPTION_IDX_OVERLOAD
  else if op =? DHCP_OPTION_MESSAGE_TYPE then fixed 1 DHCP_OPTION_IDX_MSG_TYPE
  else if op =? DHCP_OPTION_SERVER_ID then fixed 4 DHCP_OPTION_IDX_SERVER_ID
  else if op =? DHCP_OPTION_T1 then fixed 4 DHCP_OPTION_IDX_T1
  else if op =? DHCP_OPTION_T2 then fixed 4 DHCP_OPTION_IDX_T2
  else inr (0, 0%nat).

(** The code at [decode_next]; [q] are the payloads from the current pbuf on. *)
Fixpoint decode_next (fuel : nat) (q : list (list Z)) (decode_len val_offset : Z) (idx : nat) (o : rx_options)
  : option (err_t * rx_options) :=
  match fuel with
  | O => None
  | S fuel =>
      given ← o !! idx;
      match given with
      | Some _ => Some (ERR_OK, o)
      | None =>
          let value := put 0 (copy_partial_loop q (Z.min decode_len 4) val_offset []) [0; 0; 0; 0] in
          if 4 <? decode_len then
            if decode_len mod 4 =? 0
            then decode_next fuel q (decode_len - 4) (u16 (val_offset + 4)) (S idx) (<[idx := Some (get32 value 0)]> o)
            else Some (ERR_VAL, o)
          else if decode_len =? 4 then Some (ERR_OK, <[idx := Some (get32 value 0)]> o)
          else if decode_len =? 1 then Some (ERR_OK, <[idx := Some (byte_at value 0)]> o)
          else Some (ERR_VAL, o)
      end
  end.
Definition decode_fuel : nat := S DNS_MAX_SERVERS.

(** The [while] loop over the options. *)
Fixpoint scan (fuel : nat) (q : list (list Z)) (offset offset_max : Z) (o : rx_options) : option (err_t * rx_options) :=
  match fuel, q with
  | S fuel, seg :: next =>
      op ← seg !! Z.to_nat offset;
      if (op =? DHCP_OPTION_END) || (offset_max <=? offset) then Some (ERR_OK, o)
      else
        len ← (if offset + 1 <? Zlen seg then seg !! Z.to_nat (offset + 1)
               else match next with n :: _ => n !! 0%nat | [] => Some 0 end);
        match opt_switch op len with
        | inl e => Some (e, o)
        | inr (decode_len, idx) =>
            let val_offset := u16 (offset + 2) in
            let offset := if op =? DHCP_OPTION_PAD then u16 (u16 (offset - 1) + 0 + 2) else u16 (offset + len + 2) in
            '(e, o) ← (if 0 <? decode_len then decode_next decode_fuel q decode_len val_offset idx o else Some (ERR_OK, o));
            if negb (bool_decide (e = ERR_OK)) then Some (e, o)
            else if Zlen seg <=? offset then
              let offset := u16 (offset - Zlen seg) in
              let offset_max := u16 (offset_max - Zlen seg) in
              if (offset <? offset_max) && negb (offset_max =? 0) then scan fuel next offset offset_max o
              else Some (ERR_OK, o)
            else scan fuel q offset offset_max o
        end
  | _, _ => None
  end.

(** The loop at [again] to the pbuf where the field starts. *)
Fixpoint seek (q : list (list Z)) (options_idx options_idx_max : Z) : option (list (list Z) * Z * Z) :=
  match q with
  | [] => None
  | seg :: next =>
      if Zlen seg <=? options_idx then seek next (u16 (options_idx - Zlen seg)) (u16 (options_idx_max - Zlen seg))
      else Some (q, options_idx, options_idx_max)
  end.
Definition scan_fuel : nat := Z.to_nat 65536.
Definition scan_field (p : list (list Z)) (options_idx options_idx_max : Z) (o : rx_options) : option (err_t * rx_options) :=
  match seek p options_idx options_idx_max with
  | None => Some (ERR_BUF, o)
  | Some (q, offset, offset_max) => scan scan_fuel q offset offset_max o
  end.

(** ** The whole reply *)

(** From [again] on, with the field to parse and the two flags; every [goto again]
    takes fuel. *)
Fixpoint parse_fields (fuel : nat) (p : list (list Z)) (options_idx options_idx_max : Z) (file sname : bool) (o : rx_options)
  : option (err_t * rx_options) :=
  match fuel with
  | O => None
  | S fuel =>
      '(e, o) ← scan_field p options_idx options_idx_max o;
      if negb (bool_decide (e = ERR_OK)) then Some (e, o)
      else
        let '(file, sname, o) :=
          match dhcp_get_option DHCP_OPTION_IDX_OVERLOAD o with
          | None => (file, sname, o)
          | Some overload =>
              let o := <[DHCP_OPTION_IDX_OVERLOAD := None]> o in
              if overload =? DHCP_OVERLOAD_FILE then (true, sname, o)
              else if overload =? DHCP_OVERLOAD_SNAME then (file, true, o)
              else if overload =? DHCP_OVERLOAD_SNAME_FILE then (true, true, o)
              else (file, sname, o)
          end in
        if (file : bool) then parse_fields fuel p DHCP_FILE_OFS (DHCP_FILE_OFS + DHCP_FILE_LEN) false sname o
        else if (sname : bool) then parse_fields fuel p DHCP_SNAME_OFS (DHCP_SNAME_OFS + DHCP_SNAME_LEN) file false o
        else Some (ERR_OK, o)
  end.

(** [dhcp_parse_reply] on the payloads of a packet; [fuel] bounds the fields
    parsed. *)
Definition dhcp_parse_reply (fuel : nat) (p : list (list Z)) : option (err_t * rx_options) :=
  let o := dhcp_clear_all_options in
  match p with
  | [] => None
  | first :: _ =>
      if Zlen first <? DHCP_SNAME_OFS then Some (ERR_BUF, o)
      else parse_fields fuel p DHCP_OPTIONS_OFS (u16 (Zlen (mjoin p))) false false o
  end.

(** ** Reference reading of a list of options *)

(** The [n] bytes of the value that are kept, from entry [idx] on, unless given. *)
Definition store (n : Z) (idx : nat) (v : list Z) (o : rx_options) : rx_options :=
  if n =? 0 then o
  else match dhcp_get_option idx o with
  | Some _ => o
  | None =>
      if n =? 1 then <[idx := Some (byte_at v 0)]> o
      else
        let o := <[idx := Some (get32 v 0)]> o in
        if n =? 4 then o
        else match dhcp_get_option (S idx) o with Some _ => o | None => <[S idx := Some (get32 v 4)]> o end
  end.
(** The options in a string of bytes: a missing length is 0, a value that is cut
    off is filled with zeros, and the string may end anywhere. *)
Fixpoint read_options (fuel : nat) (bs : list Z) (o : rx_options) : err_t * rx_options :=
  match fuel, bs with
  | S fuel, op :: bs =>
      if op =? DHCP_OPTION_END then (ERR_OK, o)
      else
        let len := byte_at bs 0 in
        match opt_switch op len with
        | inl e => (e, o)
        | inr (n, idx) =>
            let o := store n idx (drop 1 bs) o in
            read_options fuel (if op =? DHCP_OPTION_PAD then bs else drop (S (Z.to_nat len)) bs) o
        end
  | _, _ => (ERR_OK, o)
  end.

(** Codes with their values, the first of a code wins; a bad length ends it. *)
Fixpoint collect (l : list (Z * list Z)) (o : rx_options) : err_t * rx_options :=
  match l with
  | [] => (ERR_OK, o)
  | (op, v) :: l =>
      match opt_switch op (Zlen v) with
      | inl e => (e, o)
      | inr (n, idx) => collect l (store n idx v o)
      end
  end.
Definition enc_opt (x : Z * list Z) : list Z := fst x :: Zlen (snd x) :: snd x.
Definition enc (l : list (Z * list Z)) : list Z := mjoin (enc_opt <$> l).
(** An option with a value of at most [m] bytes. *)
Definition opt_ok (m : Z) (x : Z * list Z) : Prop := fst x <> DHCP_OPTION_PAD /\ fst x <> DHCP_OPTION_END /\ Zlen (snd x) <= m.

Lemma switch_cases op len n idx : 0 <= len -> opt_switch op len = inr (n, idx) ->
  n = 0 \/ ((n = 1 \/ n = 4) /\ n <= len /\ (idx < DHCP_OPTION_IDX_DNS_SERVER)%nat) \/
  ((n = 4 \/ n = 8 \/ n = 0) /\ n <= len /\ idx = DHCP_OPTION_IDX_DNS_SERVER).
Proof.
  intros Hl. unfold opt_switch. unfold DHCP_OPTION_IDX_DNS_SERVER.
  repeat (destruct (op =? _); [
    try (destruct (Z.eqb_spec len 4); [| done]); try (destruct (Z.eqb_spec len 1); [| done]); try (destruct (Z.leb_spec 4 len); [| done]); zb;
    try (intros [= <- <-]; unfold DHCP_OPTION_IDX_OVERLOAD, DHCP_OPTION_IDX_MSG_TYPE, DHCP_OPTION_IDX_SERVER_ID, DHCP_OPTION_IDX_LEASE_TIME,
       DHCP_OPTION_IDX_T1, DHCP_OPTION_IDX_T2, DHCP_OPTION_IDX_SUBNET_MASK, DHCP_OPTION_IDX_ROUTER; lia) |]).
  - destruct (Z.eqb_spec (len mod 4) 0) as [Hm | ?]; [| done]. cbn [negb]. destruct (Z.leb_spec (Z.min len (4 * Z.of_nat DNS_MAX_SERVERS)) len); [| done].
    intros [= <- <-]. unfold DHCP_OPTION_IDX_DNS_SERVER. right. right. change (4 * Z.of_nat DNS_MAX_SERVERS) with 8. split; [| split; [lia | done]].
    Z.div_mod_to_equations. lia.
  - intros [= <- <-]. by left.
Qed.

(** ** The walk over the pbufs reads the bytes of the packet *)

(** The pbufs after the current one: none is empty, and all but the last are longer
    than an option with [m] bytes of value.  So what follows an option that starts
    in one pbuf is in that pbuf or in the next: the walk goes on by one pbuf at
    most. *)
Fixpoint roomy (m : Z) (q : list (list Z)) : Prop :=
  match q with
  | [] => True
  | seg :: next => match next with [] => 0 < Zlen seg | _ => m + 2 <= Zlen seg end /\ roomy m next
  end.
(** The lengths met when the options are read are at most [m]. *)
Inductive short (m : Z) : list Z -> Prop :=
| short_nil : short m []
| short_end bs : short m (DHCP_OPTION_END :: bs)
| short_pad bs : short m bs -> short m (DHCP_OPTION_PAD :: bs)
| short_opt op bs : op <> DHCP_OPTION_END -> op <> DHCP_OPTION_PAD -> byte_at bs 0 <= m ->
    short m (drop (S (Z.to_nat (byte_at bs 0))) bs) -> short m (op :: bs).
Lemma short_cons m op bs : short m (op :: bs) -> op <> DHCP_OPTION_END ->
  if op =? DHCP_OPTION_PAD then short m bs else byte_at bs 0 <= m /\ short m (drop (S (Z.to_nat (byte_at bs 0))) bs).
Proof.
  inversion 1 as [| bs' | bs' H1 | op' bs' H1 H2 H3 H4]; subst; intros He; [done | done |]. destruct (Z.eqb_spec op DHCP_OPTION_PAD); done.
Qed.
(** Every string of bytes is short for 255. *)
Lemma short_bytes bs : Forall is_u8 bs -> short 255 bs.
Proof.
  assert (H : forall n bs, (length bs <= n)%nat -> Forall is_u8 bs -> short 255 bs); [| by apply (H (length bs))].
  clear bs. induction n as [| n IH]; intros [| op bs] Hn Hb; [apply short_nil | cbn in Hn; lia | apply short_nil |]. cbn in Hn. apply Forall_cons in Hb as [_ Hb].
  destruct (decide (op = DHCP_OPTION_END)) as [-> |]; [constructor |]. destruct (decide (op = DHCP_OPTION_PAD)) as [-> |].
  - constructor. apply IH; [lia | done].
  - constructor; [done | done | |].
    + destruct Hb as [| x l Hx _]; [by vm_compute | cbn; unfold is_u8 in Hx; lia].
    + apply IH; [rewrite length_drop; lia | by apply Forall_drop].
Qed.

Lemma value4 w : get32 (put 0 (take 4 w) [0; 0; 0; 0]) 0 = get32 w 0.
Proof. by destruct w as [| a [| b [| c [| d w]]]]. Qed.
Lemma value1 w : byte_at (put 0 (take 1 w) [0; 0; 0; 0]) 0 = byte_at w 0.
Proof. by destruct w. Qed.
Lemma get32_drop l k : get32 l k = get32 (drop k l) 0.
Proof. unfold get32, get16, byte_at. rewrite !nth_skipn. by rewrite !Nat.add_succ_r, Nat.add_0_r. Qed.
Lemma get_option_lookup (o : rx_options) idx : (idx < length o)%nat -> exists g, o !! idx = Some g /\ dhcp_get_option idx o = g.
Proof. intros [g Hg]%lookup_lt_is_Some_2. exists g. unfold dhcp_get_option. by rewrite Hg. Qed.
Lemma length_store n idx v o : length (store n idx v o) = length o.
Proof. unfold store. repeat case_match; rewrite ?length_insert; done. Qed.

Lemma decode_ok q op len n idx off o : length o = DHCP_OPTION_IDX_MAX -> 0 <= len -> opt_switch op len = inr (n, idx) -> 0 < n ->
  0 <= off < 65500 -> decode_next decode_fuel q n off idx o = Some (ERR_OK, store n idx (drop (Z.to_nat off) (mjoin q)) o).
Proof.
  intros Ho Hl Hsw Hn Hoff. apply switch_cases in Hsw; [| done]. set (w := drop (Z.to_nat off) (mjoin q)).
  assert (Hidx : (idx < length o)%nat).
  { rewrite Ho. change DHCP_OPTION_IDX_MAX with 10%nat. change DHCP_OPTION_IDX_DNS_SERVER with 8%nat in Hsw. destruct Hsw as [? | [(_ & _ & ?) | (_ & _ & ->)]]; lia. }
  destruct (get_option_lookup o idx Hidx) as (g & Hg & Eg).
  unfold decode_fuel, store. destruct (Z.eqb_spec n 0) as [? | _]; [lia |]. rewrite Eg.
  cbn [decode_next DNS_MAX_SERVERS]. rewrite Hg. cbn [mbind option_bind]. destruct g as [g |]; [done |].
  rewrite copy_partial_loop_spec by lia. cbn [app].
  destruct Hsw as [? | [([-> | ->] & _) | ([-> | [-> | ->]] & Hle & ->)]]; try lia; cbn -[put byte_at get32 Z.to_nat take drop insert].
  - change (Z.to_nat 1) with 1%nat. by rewrite value1.
  - change (Z.to_nat 4) with 4%nat. by rewrite value4.
  - change (Z.to_nat 4) with 4%nat. by rewrite value4.
  - change (Z.to_nat 4) with 4%nat. rewrite value4. set (o1 := <[_ := _]> o).
    destruct (get_option_lookup o1 9) as (g1 & Hg1 & Eg1); [unfold o1; rewrite length_insert, Ho; vm_compute; lia |].
    change (S DHCP_OPTION_IDX_DNS_SERVER) with 9%nat. rewrite Hg1, Eg1. cbn [mbind option_bind]. destruct g1; [done |].
    rewrite u16_small by (unfold is_u16; lia). rewrite copy_partial_loop_spec by lia. cbn [app Nat.add].
    change (Z.to_nat (Z.min (8 - 4) 4)) with 4%nat. rewrite value4. rewrite (get32_drop w 4). unfold w. rewrite drop_drop.
    by replace (Z.to_nat (off + 4)) with (Z.to_nat off + 4)%nat by lia.
Qed.

Lemma drop_join (q : list (list Z)) seg k : drop (length seg + k) (mjoin (seg :: q)) = drop k (mjoin q).
Proof. cbn. by rewrite drop_app_add. Qed.
Lemma Zlen_join (seg : list Z) next : Zlen (mjoin (seg :: next)) = Zlen seg + Zlen (mjoin next).
Proof. apply Zlen_app. Qed.
Lemma head_byte (seg : list Z) next off op : seg !! off = Some op -> drop off (mjoin (seg :: next)) = op :: drop (S off) (mjoin (seg :: next)).
Proof. intros H. apply drop_S. cbn. by rewrite lookup_app_l by (by eapply lookup_lt_Some). Qed.
(** The length byte, possibly the first of the next pbuf. *)
Lemma length_byte m (seg : list Z) next off : 0 <= m -> roomy m next -> 0 <= off < Zlen seg ->
  (if off + 1 <? Zlen seg then seg !! Z.to_nat (off + 1) else match next with n :: _ => n !! 0%nat | [] => Some 0 end)
  = Some (byte_at (drop (S (Z.to_nat off)) (mjoin (seg :: next))) 0).
Proof.
  intros Hm Hr Ho. unfold Zlen in *. unfold byte_at. rewrite nth_skipn, Nat.add_0_r.
  destruct (Z.ltb_spec (off + 1) (Z.of_nat (length seg))) as [Hlt | Hge]; cbn.
  - replace (S (Z.to_nat off)) with (Z.to_nat (off + 1)) by lia. rewrite app_nth1 by lia.
    destruct (lookup_lt_is_Some_2 seg (Z.to_nat (off + 1))) as [x Hx]; [lia |]. rewrite Hx. by rewrite (nth_lookup_Some _ _ _ _ Hx).
  - replace (S (Z.to_nat off)) with (length seg) by lia. rewrite app_nth2, Nat.sub_diag by lia. destruct next as [| n next]; [done |].
    destruct n as [| b n]; [exfalso | done]. destruct Hr as [Hn _]. destruct next; unfold Zlen in Hn; cbn in Hn; lia.
Qed.

Lemma read_nil fuel o : read_options fuel [] o = (ERR_OK, o).
Proof. by destruct fuel. Qed.
Lemma read_fuel fuel : forall bs o, (length bs <= fuel)%nat -> read_options fuel bs o = read_options (length bs) bs o.
Proof.
  assert (H : forall f1 f2 bs o, (length bs <= f1)%nat -> (length bs <= f2)%nat -> read_options f1 bs o = read_options f2 bs o).
  { induction f1 as [| f1 IH]; intros [| f2] [| op bs] o H1 H2; cbn in H1, H2; try lia; try done. cbn [read_options].
    destruct (op =? DHCP_OPTION_END); [done |]. destruct (opt_switch op (byte_at bs 0)) as [| [n idx]]; [done |].
    destruct (op =? DHCP_OPTION_PAD); apply IH; rewrite ?length_drop; lia. }
  intros bs o Hf. by apply H.
Qed.
Definition read (bs : list Z) (o : rx_options) : err_t * rx_options := read_options (length bs) bs o.
Lemma read_cons op bs o : read (op :: bs) o =
  if op =? DHCP_OPTION_END then (ERR_OK, o)
  else match opt_switch op (byte_at bs 0) with
  | inl e => (e, o)
  | inr (n, idx) => read (if op =? DHCP_OPTION_PAD then bs else drop (S (Z.to_nat (byte_at bs 0))) bs) (store n idx (drop 1 bs) o)
  end.
Proof.
  unfold read. cbn [length read_options]. destruct (op =? DHCP_OPTION_END); [done |].
  destruct (opt_switch op (byte_at bs 0)) as [| [n idx]]; [done |]. apply read_fuel. destruct (op =? DHCP_OPTION_PAD); rewrite ?length_drop; lia.
Qed.

Lemma scan_read m fuel : 0 <= m <= 255 -> forall seg next off o, roomy m next -> short m (drop (Z.to_nat off) (mjoin (seg :: next))) -> Forall is_u8 (mjoin (seg :: next)) -> Zlen (mjoin (seg :: next)) < 65000 ->
  length o = DHCP_OPTION_IDX_MAX -> 0 <= off < Zlen seg -> Zlen (mjoin (seg :: next)) - off < Z.of_nat fuel ->
  scan fuel (seg :: next) off (Zlen (mjoin (seg :: next))) o = Some (read (drop (Z.to_nat off) (mjoin (seg :: next))) o).
Proof.
  intros Hm. induction fuel as [| fuel IH]; intros seg next off o Hr Hsh Hb Htot Ho Hoff Hf.
  { rewrite Zlen_join in Hf. pose proof (Zlen_nonneg (mjoin next)). lia. }
  destruct (lookup_lt_is_Some_2 seg (Z.to_nat off)) as [op Hop]; [unfold Zlen in Hoff; lia |].
  cbn [scan]. rewrite Hop. cbn [mbind option_bind]. rewrite (head_byte _ _ _ _ Hop) in Hsh |- *. rewrite read_cons.
  pose proof (length_byte m seg next off ltac:(lia) Hr Hoff) as Hlb. set (rest := drop (S (Z.to_nat off)) (mjoin (seg :: next))) in *.
  pose proof (Zlen_join seg next) as Hsum.
  pose proof (Zlen_nonneg (mjoin next)) as Hn0. destruct (Z.eqb_spec op DHCP_OPTION_END) as [| Hend]; [done |]. cbn [orb]. apply short_cons in Hsh; [| done].
  destruct (Z.leb_spec (Zlen (mjoin (seg :: next))) off) as [? | _]; [lia |]. rewrite Hlb. cbn [mbind option_bind].
  set (len := byte_at rest 0) in *.
  assert (Hlen : 0 <= len < 256).
  { unfold len, byte_at. assert (Hz : Forall is_u8 rest) by (by apply Forall_drop). destruct Hz as [| x l Hx _]; [cbn; lia | exact Hx]. }
  destruct (opt_switch op len) as [| [n idx]] eqn:Esw; [done |].
  rewrite (u16_small (off + 2)) by (unfold is_u16; lia).
  assert (Ed : (if 0 <? n then decode_next decode_fuel (seg :: next) n (off + 2) idx o else Some (ERR_OK, o)) = Some (ERR_OK, store n idx (drop 1 rest) o)).
  { destruct (Z.ltb_spec 0 n) as [Hn | Hn].
    - rewrite (decode_ok _ op len n idx (off + 2) o) by (done || lia). unfold rest. rewrite drop_drop. by replace (Z.to_nat (off + 2)) with (S (Z.to_nat off) + 1)%nat by lia.
    - apply switch_cases in Esw; [| lia]. unfold store. replace (n =? 0) with true by (symmetry; apply Z.eqb_eq; lia). done. }
  rewrite Ed. cbn [mbind option_bind]. rewrite bool_decide_true by done. cbn [negb].
  set (o1 := store n idx (drop 1 rest) o). assert (Ho1 : length o1 = DHCP_OPTION_IDX_MAX) by (unfold o1; by rewrite length_store).
  set (off1 := if op =? DHCP_OPTION_PAD then u16 (u16 (off - 1) + 0 + 2) else u16 (off + len + 2)).
  assert (Hoff1 : off + 1 <= off1 <= off + m + 2 /\ short m (drop (Z.to_nat off1) (mjoin (seg :: next))) /\ drop (Z.to_nat off1) (mjoin (seg :: next)) = (if op =? DHCP_OPTION_PAD then rest else drop (S (Z.to_nat len)) rest)).
  { unfold off1, rest. destruct (op =? DHCP_OPTION_PAD).
    - assert (E : u16 (u16 (off - 1) + 0 + 2) = off + 1) by word. rewrite E. split; [lia |]. replace (Z.to_nat (off + 1)) with (S (Z.to_nat off)) by lia. done.
    - destruct Hsh as [Hlm Hsh]. fold len in Hlm, Hsh. rewrite u16_small by (unfold is_u16; lia). split; [lia |].
      replace (Z.to_nat (off + len + 2)) with (S (Z.to_nat off) + S (Z.to_nat len))%nat by lia. rewrite <- drop_drop. done. }
  destruct Hoff1 as (Hb1 & Hsh1 & Ed1). rewrite <- Ed1. clearbody off1 o1. clear Ed Ed1 Hlb.
  destruct (Z.leb_spec (Zlen seg) off1) as [Hge | Hlt]; [| apply IH; try done; lia].
  rewrite !u16_small by (unfold is_u16; lia). replace (Zlen (mjoin (seg :: next)) - Zlen seg) with (Zlen (mjoin next)) by lia.
  assert (Edrop : drop (Z.to_nat off1) (mjoin (seg :: next)) = drop (Z.to_nat (off1 - Zlen seg)) (mjoin next)).
  { rewrite <- (drop_join next seg). f_equal. unfold Zlen in *. lia. }
  rewrite Edrop in Hsh1 |- *. destruct (Z.ltb_spec (off1 - Zlen seg) (Zlen (mjoin next))) as [Hin | Hout]; cbn [andb].
  - destruct (Z.eqb_spec (Zlen (mjoin next)) 0) as [? | _]; [lia |]. cbn [negb]. destruct next as [| n0 next]; [change (Zlen (mjoin (@nil (list Z)))) with 0 in Hin; lia |].
    destruct Hr as [Hn0' Hr]. apply IH; [done | done | | lia | done | | lia].
    + cbn in Hb. by apply Forall_app in Hb as [_ ?].
    + split; [lia |]. destruct next; [rewrite Zlen_join in Hin; change (Zlen (mjoin (@nil (list Z)))) with 0 in Hin; lia | lia].
  - rewrite drop_ge by (unfold Zlen in *; lia). done.
Qed.

Lemma seek_ok m p : forall idx, roomy m (tail p) -> Zlen (mjoin p) < 65000 -> 0 <= idx < Zlen (mjoin p) -> exists seg next off,
  seek p idx (Zlen (mjoin p)) = Some (seg :: next, off, Zlen (mjoin (seg :: next))) /\ roomy m next /\ 0 <= off < Zlen seg
  /\ drop (Z.to_nat off) (mjoin (seg :: next)) = drop (Z.to_nat idx) (mjoin p) /\ Zlen (mjoin (seg :: next)) <= Zlen (mjoin p)
  /\ (Forall is_u8 (mjoin p) -> Forall is_u8 (mjoin (seg :: next))).
Proof.
  induction p as [| seg next IH]; intros idx Hr Htot Hidx; [change (Zlen (mjoin (@nil (list Z)))) with 0 in Hidx; lia |].
  pose proof (Zlen_join seg next) as Hsum. pose proof (Zlen_nonneg seg). pose proof (Zlen_nonneg (mjoin next)). cbn [seek].
  destruct (Z.leb_spec (Zlen seg) idx) as [Hle | Hlt].
  - rewrite !u16_small by (unfold is_u16; lia). replace (Zlen (mjoin (seg :: next)) - Zlen seg) with (Zlen (mjoin next)) by lia.
    destruct (IH (idx - Zlen seg)) as (sg & nx & off & E & Hn & Ho & Ed & Hle' & Hb); [| lia | lia |].
    { cbn [tail] in Hr. destruct next; [done | by destruct Hr]. }
    exists sg, nx, off. split; [done |]. split; [done |]. split; [done |]. split; [| split; [lia |]].
    + rewrite Ed, <- (drop_join next seg). f_equal. unfold Zlen in *. lia.
    + intros Hall. apply Hb. cbn in Hall. by apply Forall_app in Hall as [_ ?].
  - exists seg, next, idx. split; [done |]. split; [done |]. split; [lia |]. split; [done |]. split; [lia | done].
Qed.
(** A packet: bytes, of a length that leaves room in 16 bits, the fixed fields it
    must have in the first pbuf, no empty pbuf after it, and no pbuf in the middle
    shorter than an option of [m] bytes.  The driver's buffers have 256 bytes when
    they are new, which is room for values of up to 254 bytes, and 36 at least
    ([EmacRxBuf.hdkif_rx_buffer_sizes]). *)
Record reply_ok (m : Z) (p : list (list Z)) : Prop := {
  rp_bytes : Forall is_u8 (mjoin p);
  rp_total : Zlen (mjoin p) < 65000;
  rp_roomy : roomy m (tail p);
  rp_first : exists first rest, p = first :: rest /\ DHCP_SNAME_OFS <= Zlen first
}.
Lemma scan_field_read m p idx o : 0 <= m <= 255 -> reply_ok m p -> short m (drop (Z.to_nat idx) (mjoin p)) -> length o = DHCP_OPTION_IDX_MAX ->
  0 <= idx < Zlen (mjoin p) -> scan_field p idx (Zlen (mjoin p)) o = Some (read (drop (Z.to_nat idx) (mjoin p)) o).
Proof.
  intros Hm [Hb Ht Hr _] Hsh Ho Hidx. destruct (seek_ok m p idx Hr Ht Hidx) as (seg & next & off & E & Hn & Hoff & Ed & Hle & Hb').
  unfold scan_field. rewrite E, (scan_read m); [by rewrite Ed | done | done | by rewrite Ed | by apply Hb' | lia | done | done |].
  unfold scan_fuel. rewrite Z2Nat.id by lia. lia.
Qed.

Lemma enc_cons op v l : enc ((op, v) :: l) = op :: Zlen v :: v ++ enc l.
Proof. done. Qed.
Lemma get32_app v w k : (k + 4 <= length v)%nat -> get32 (v ++ w) k = get32 v k.
Proof. intros H. unfold get32, get16, byte_at. by rewrite !app_nth1 by lia. Qed.
Lemma store_app n idx op v w o : opt_switch op (Zlen v) = inr (n, idx) -> store n idx (v ++ w) o = store n idx v o.
Proof.
  intros H. apply switch_cases in H; [| apply Zlen_nonneg]. unfold store. destruct (Z.eqb_spec n 0) as [| H0]; [done |].
  assert (Hn : (n = 1 \/ n = 4 \/ n = 8) /\ n <= Zlen v) by lia. destruct Hn as [Hn Hle]. unfold Zlen in Hle.
  destruct (dhcp_get_option idx o); [done |]. destruct (Z.eqb_spec n 1) as [-> | H1].
  - unfold byte_at. by rewrite app_nth1 by lia.
  - rewrite (get32_app v w 0) by lia. destruct (Z.eqb_spec n 4) as [-> | H4]; [done |]. by rewrite (get32_app v w 4) by lia.
Qed.
(** The encoded options are read back. *)
Lemma read_enc m l : forall post o, Forall (opt_ok m) l -> read (enc l ++ DHCP_OPTION_END :: post) o = collect l o.
Proof.
  induction l as [| [op v] l IH]; intros post o Hl; [change (read (DHCP_OPTION_END :: post) o = collect [] o); by rewrite read_cons |]. apply Forall_cons in Hl as [(Hp & He & Hv) Hl]. cbn [fst snd] in *.
  rewrite enc_cons. cbn [app]. rewrite read_cons. destruct (Z.eqb_spec op DHCP_OPTION_END) as [| _]; [done |]. cbn [collect byte_at nth].
  destruct (opt_switch op (Zlen v)) as [| [n idx]] eqn:E; [done |]. destruct (Z.eqb_spec op DHCP_OPTION_PAD) as [| _]; [done |].
  cbn [drop]. rewrite drop_0, <- app_assoc, (store_app n idx op) by done.
  replace (Z.to_nat (Zlen v)) with (length v) by (unfold Zlen; lia). rewrite drop_app_length. by apply IH.
Qed.

Lemma short_enc m l post : Forall (opt_ok m) l -> short m (enc l ++ DHCP_OPTION_END :: post).
Proof.
  induction 1 as [| [op v] l (Hp & He & Hv) _ IH]; [apply short_end |]. cbn [fst snd] in *. rewrite enc_cons. cbn [app]. apply short_opt; [done | done | exact Hv |].
  cbn [byte_at nth drop]. rewrite <- app_assoc. replace (Z.to_nat (Zlen v)) with (length v) by (unfold Zlen; lia). by rewrite drop_app_length.
Qed.

(** C24. What a server puts into the options field is what the client reads: for
    every list of options (a code other than padding and end, a value of at most
    [m] bytes) in the options field of a reply, whatever follows its end marker and
    however the reply is split over pbufs of which those in the middle have [m + 2]
    bytes at least, the parse ends without reading outside the packet, with the
    value of the first option of each code, or with the error of the first option
    of a wrong length; unless the overload option points it to other fields.  (With
    a shorter pbuf in the middle it can read outside: [dhcp_option_skips_pbuf].) *)
Theorem dhcp_options_roundtrip m p l post fuel (Hm : 0 <= m <= 255) (Hp : reply_ok m p) (Hl : Forall (opt_ok m) l)
    (Hopts : drop (Z.to_nat DHCP_OPTIONS_OFS) (mjoin p) = enc l ++ DHCP_OPTION_END :: post)
    (Hplain : dhcp_get_option DHCP_OPTION_IDX_OVERLOAD (snd (collect l dhcp_clear_all_options)) = None) :
  dhcp_parse_reply (S fuel) p = Some (collect l dhcp_clear_all_options).
Proof.
  pose proof (rp_total m p Hp) as Ht. destruct (rp_first m p Hp) as (first & rest & E & Hf).
  assert (Hlong : DHCP_OPTIONS_OFS < Zlen (mjoin p)).
  { apply (f_equal length) in Hopts. rewrite length_drop, length_app in Hopts. cbn [length] in Hopts. unfold Zlen. lia. }
  unfold dhcp_parse_reply. rewrite E. destruct (Z.ltb_spec (Zlen first) DHCP_SNAME_OFS) as [? | _]; [lia |]. rewrite <- E.
  pose proof (Zlen_nonneg (mjoin p)). rewrite u16_small by (unfold is_u16; lia). cbn [parse_fields].
  rewrite (scan_field_read m); [| done | done | rewrite Hopts; by apply short_enc | done | split; [done | lia]].
  rewrite Hopts, (read_enc m) by done. cbn [mbind option_bind]. destruct (collect l dhcp_clear_all_options) as [e o].
  destruct (decide (e = ERR_OK)) as [-> |]; [| by rewrite bool_decide_false]. rewrite bool_decide_true by done. cbn [snd] in Hplain. cbn [negb].
  by rewrite Hplain.
Qed.

(** The walk goes on by one pbuf only.  In a reply over pbufs of 244, 256 and 10
    bytes an option of 255 bytes whose code is the last byte of the first pbuf ends
    with the second one: the next code is looked for after the end of the second
    pbuf. *)
Definition skipping : list (list Z) :=
  [replicate 240 0 ++ [DHCP_OPTION_MESSAGE_TYPE; 1; 2; 12]; 255 :: replicate 255 65; DHCP_OPTION_END :: replicate 9 0].
Theorem dhcp_option_skips_pbuf fuel : drop (Z.to_nat DHCP_OPTIONS_OFS) (mjoin skipping)
    = enc [(DHCP_OPTION_MESSAGE_TYPE, [2]); (12, replicate 255 65)] ++ DHCP_OPTION_END :: replicate 9 0
  /\ dhcp_parse_reply fuel skipping = None.
Proof.
  assert (E : scan_field skipping DHCP_OPTIONS_OFS (u16 (Zlen (mjoin skipping))) dhcp_clear_all_options = None) by (vm_compute; reflexivity).
  split; [vm_compute; reflexivity |]. unfold dhcp_parse_reply. cbn [skipping]. fold skipping.
  change (Zlen (replicate 240 0 ++ [DHCP_OPTION_MESSAGE_TYPE; 1; 2; 12]) <? DHCP_SNAME_OFS) with false. cbv iota.
  destruct fuel as [| fuel]; [done |]. cbn [parse_fields]. by rewrite E.
Qed.

(** ** Hostile replies *)

(** A reply of one pbuf whose options field says "file holds options". *)
Definition hostile (file : list Z) : list Z :=
  replicate 108 0 ++ file ++ replicate 4 0 ++ [DHCP_OPTION_OVERLOAD; 1; DHCP_OVERLOAD_FILE; DHCP_OPTION_END].
(** The file field says so again. *)
Definition file_loop : list Z := [DHCP_OPTION_OVERLOAD; 1; DHCP_OVERLOAD_FILE; DHCP_OPTION_END] ++ replicate 124 0.
(** Its last byte starts an option of 255 bytes. *)
Definition file_long : list Z := replicate 126 0 ++ [12; 255].

(** C25. Two replies the client does not survive, each of one short pbuf: when the
    file field, read as options, carries the overload option itself, the parse
    never ends; and when an option in it runs past the end of the packet, the rest
    is counted below zero in 16 bits and the walk goes on in the pbuf after the
    last one, a null pointer. *)
Theorem dhcp_parse_hostile fuel :
  dhcp_parse_reply fuel [hostile file_loop] = None
  /\ scan_field [hostile file_long] DHCP_FILE_OFS (DHCP_FILE_OFS + DHCP_FILE_LEN) dhcp_clear_all_options = None
  /\ dhcp_parse_reply (S (S fuel)) [hostile file_long] = None.
Proof.
  assert (Hloop : forall f, parse_fields f [hostile file_loop] DHCP_FILE_OFS (DHCP_FILE_OFS + DHCP_FILE_LEN) false false dhcp_clear_all_options = None).
  { assert (E : scan_field [hostile file_loop] DHCP_FILE_OFS (DHCP_FILE_OFS + DHCP_FILE_LEN) dhcp_clear_all_options
      = Some (ERR_OK, <[DHCP_OPTION_IDX_OVERLOAD := Some 1]> dhcp_clear_all_options)) by (vm_compute; reflexivity).
    induction f as [| f IH]; [done |]. cbn [parse_fields]. rewrite E. exact IH. }
  assert (Hlong : scan_field [hostile file_long] DHCP_FILE_OFS (DHCP_FILE_OFS + DHCP_FILE_LEN) dhcp_clear_all_options = None) by (vm_compute; reflexivity).
  assert (Hfirst : forall file, file = file_loop \/ file = file_long ->
    scan_field [hostile file] DHCP_OPTIONS_OFS (u16 (Zlen (mjoin [hostile file]))) dhcp_clear_all_options
    = Some (ERR_OK, <[DHCP_OPTION_IDX_OVERLOAD := Some 1]> dhcp_clear_all_options)) by (intros file [-> | ->]; vm_compute; reflexivity).
  split; [| split; [exact Hlong |]].
  - unfold dhcp_parse_reply. change (Zlen (hostile file_loop) <? DHCP_SNAME_OFS) with false. cbv iota.
    destruct fuel as [| fuel]; [done |]. cbn [parse_fields]. rewrite Hfirst by (by left). exact (Hloop fuel).
  - unfold dhcp_parse_reply. change (Zlen (hostile file_long) <? DHCP_SNAME_OFS) with false. cbv iota.
    cbn [parse_fields]. rewrite Hfirst by (by right). cbn [mbind option_bind]. rewrite bool_decide_true by done. cbn [negb].
    change (dhcp_get_option DHCP_OPTION_IDX_OVERLOAD (<[DHCP_OPTION_IDX_OVERLOAD:=Some 1]> dhcp_clear_all_options)) with (Some 1). cbv iota beta.
    change (1 =? DHCP_OVERLOAD_FILE) with true. cbv iota beta.
    change (<[DHCP_OPTION_IDX_OVERLOAD:=None]> (<[DHCP_OPTION_IDX_OVERLOAD:=Some 1]> dhcp_clear_all_options)) with dhcp_clear_all_options.
    by rewrite Hlong.
Qed.

(** *** Witnesses: an offer in three pbufs *)

Definition ex_options : list (Z * list Z) :=
  [(DHCP_OPTION_MESSAGE_TYPE, [2]); (DHCP_OPTION_SERVER_ID, [10; 0; 0; 1]); (12, [104; 105]); (DHCP_OPTION_LEASE_TIME, [0; 0; 14; 16]);
   (DHCP_OPTION_DNS_SERVER, [10; 0; 0; 2; 10; 0; 0; 3])].
Definition ex_reply : list (list Z) :=
  [replicate 240 0 ++ take 9 (enc ex_options); take 10 (drop 9 (enc ex_options)); drop 19 (enc ex_options) ++ [DHCP_OPTION_END; 0; 0]].
Lemma dhcp_options_roundtrip_witness : dhcp_parse_reply 1 ex_reply = Some (ERR_OK,
  [None; Some 2; Some 0x0a000001; Some 3600; None; None; None; None; Some 0x0a000002; Some 0x0a000003]).
Proof.
  rewrite (dhcp_options_roundtrip 8 ex_reply ex_options [0; 0] 0).
  - vm_compute. reflexivity.
  - split; [discriminate | discriminate].
  - split.
    + vm_compute. repeat (constructor; [split; [discriminate | reflexivity] |]). constructor.
    + vm_compute. reflexivity.
    + vm_compute. split; [discriminate | split; [reflexivity | exact I]].
    + eexists _, _. split; [reflexivity | vm_compute; discriminate].
  - repeat (constructor; [split; [discriminate | split; [discriminate | vm_compute; discriminate]] |]). constructor.
  - vm_compute. reflexivity.
  - vm_compute. reflexivity.
Defined.
