(* ===== verification/Etharp.v ===== *)
(** * ARP cache and Ethernet output (netif/etharp.c)

    Configuration: no packet queueing beyond one packet per entry, no static
    entries, no address hints ([ARP_QUEUEING], [ETHARP_SUPPORT_STATIC_ENTRIES],
    [LWIP_NETIF_HWADDRHINT] are 0).  [dhcp_arp_reply] belongs to the
    address check of the DHCP client, which is switched off. *)

From S2P Require Import Prelude NetTypes IpAddr Pbuf Net.

Definition ARP_MAXAGE : Z := 240.
Definition ARP_AGE_REREQUEST_USED : Z := 240 - 12.
Definition ARP_MAXPENDING : Z := 2.
Definition ETHARP_FLAG_TRY_HARD : Z := 1.
Definition ETHARP_FLAG_FIND_ONLY : Z := 2.
Definition HWTYPE_ETHERNET : Z := 1.
Definition ETHTYPE_ARP : Z := 0x0806.
Definition ETHTYPE_IP : Z := 0x0800.
Definition ARP_REQUEST : Z := 1.
Definition ARP_REPLY : Z := 2.
Definition ETHARP_HWADDR_LEN : Z := 6.
Definition SIZEOF_ETH_HDR : Z := 14.
Definition SIZEOF_ETHARP_HDR : Z := 28.
Definition SIZEOF_ETHARP_PACKET : Z := SIZEOF_ETH_HDR + SIZEOF_ETHARP_HDR.
Definition ethbroadcast : list Z := [0xff; 0xff; 0xff; 0xff; 0xff; 0xff].
Definition ethzero : list Z := [0; 0; 0; 0; 0; 0].

(** ** The table *)

Definition free_entry (e : etharp_entry) : etharp_entry :=
  ae_set_state ETHARP_STATE_EMPTY (ae_set_q None e).
Definition etharp_free_entry (i : nat) (s : net) : net := upd_entry i free_entry s.

(** The body of the loop of [etharp_tmr] for one entry. *)
Definition tmr_entry (e : etharp_entry) : etharp_entry :=
  if bool_decide (ae_state e = ETHARP_STATE_EMPTY) then e
  else
    let e := ae_set_ctime (u8 (ae_ctime e + 1)) e in
    if (ARP_MAXAGE <=? ae_ctime e)
       || (bool_decide (ae_state e = ETHARP_STATE_PENDING) && (ARP_MAXPENDING <=? ae_ctime e))
    then free_entry e
    else if bool_decide (ae_state e = ETHARP_STATE_STABLE_REREQUESTING)
    then ae_set_state ETHARP_STATE_STABLE e
    else e.
Definition etharp_tmr (s : net) : net := set_arp_table (map tmr_entry (arp_table s)) s.

(** The local variables of the search sweep of [etharp_find_entry];
    [ARP_TABLE_SIZE] in an index means none seen. *)
Record scan := mk_scan {
  sc_empty : nat;
  old_pending : nat; age_pending : Z;
  old_stable : nat; age_stable : Z;
  old_queue : nat; age_queue : Z
}.
Definition scan_init : scan :=
  mk_scan ARP_TABLE_SIZE ARP_TABLE_SIZE 0 ARP_TABLE_SIZE 0 ARP_TABLE_SIZE 0.

(** One iteration: [inl i] is the early return of a match. *)
Definition scan_entry (ipaddr : option Z) (i : nat) (e : etharp_entry) (c : scan)
  : nat + scan :=
  if bool_decide (sc_empty c = ARP_TABLE_SIZE) && bool_decide (ae_state e = ETHARP_STATE_EMPTY)
  then inr (mk_scan i (old_pending c) (age_pending c) (old_stable c) (age_stable c)
              (old_queue c) (age_queue c))
  else if bool_decide (ae_state e = ETHARP_STATE_EMPTY) then inr c
  else if match ipaddr with Some a => ip_addr_cmp a (ae_ipaddr e) | None => false end
  then inl i
  else if bool_decide (ae_state e = ETHARP_STATE_PENDING) then
    match ae_q e with
    | Some _ =>
        if age_queue c <=? ae_ctime e
        then inr (mk_scan (sc_empty c) (old_pending c) (age_pending c) (old_stable c)
                    (age_stable c) i (ae_ctime e))
        else inr c
    | None =>
        if age_pending c <=? ae_ctime e
        then inr (mk_scan (sc_empty c) i (ae_ctime e) (old_stable c) (age_stable c)
                    (old_queue c) (age_queue c))
        else inr c
    end
  else if age_stable c <=? ae_ctime e
  then inr (mk_scan (sc_empty c) (old_pending c) (age_pending c) i (ae_ctime e)
              (old_queue c) (age_queue c))
  else inr c.

(** The sweep [for (i = 0; i < ARP_TABLE_SIZE; ++i)]. *)
Fixpoint scan_table (ipaddr : option Z) (i : nat) (es : list etharp_entry) (c : scan)
  : nat + scan :=
  match es with
  | [] => inr c
  | e :: es' =>
      match scan_entry ipaddr i e c with
      | inl j => inl j
      | inr c' => scan_table ipaddr (S i) es' c'
      end
  end.

(** Step b): the entry to recycle, [None] when there is none. *)
Definition select_entry (c : scan) : option nat :=
  if (old_stable c <? ARP_TABLE_SIZE)%nat then Some (old_stable c)
  else if (old_pending c <? ARP_TABLE_SIZE)%nat then Some (old_pending c)
  else if (old_queue c <? ARP_TABLE_SIZE)%nat then Some (old_queue c)
  else None.

(** Step c): initialise the chosen entry. *)
Definition new_entry (ipaddr : option Z) (i : nat) (s : net) : net :=
  upd_entry i (fun e =>
    ae_set_ctime 0 (match ipaddr with Some a => ae_set_ipaddr a e | None => e end)) s.

(** [etharp_find_entry]; [None] is the return value [ERR_MEM]. *)
Definition etharp_find_entry (ipaddr : option Z) (flags : Z) (s : net) : option nat * net :=
  match scan_table ipaddr 0 (arp_table s) scan_init with
  | inl i => (Some i, s)
  | inr c =>
      if negb (Z.land flags ETHARP_FLAG_FIND_ONLY =? 0)
         || ((sc_empty c =? ARP_TABLE_SIZE)%nat && (Z.land flags ETHARP_FLAG_TRY_HARD =? 0))
      then (None, s)
      else if (sc_empty c <? ARP_TABLE_SIZE)%nat
      then (Some (sc_empty c), new_entry ipaddr (sc_empty c) s)
      else
        match select_entry c with
        | None => (None, s)
        | Some i => (Some i, new_entry ipaddr i (etharp_free_entry i s))
        end
  end.

(** [etharp_send_ip]: fill in the Ethernet header in front of the packet. *)
Definition eth_header (dst src : list Z) (type : Z) : list Z := dst ++ src ++ be16 type.
Definition etharp_send_ip (np : netif_ptr) (p : pbuf) (src dst : list Z) (s : net)
  : err_t * net :=
  netif_linkoutput np (set_payload (put 0 (eth_header dst src ETHTYPE_IP) (p_payload p)) p) s.

(** [etharp_update_arp_entry]. *)
Definition etharp_update_arp_entry (np : netif_ptr) (ipaddr : Z) (ethaddr : list Z)
  (flags : Z) (s : net) : err_t * net :=
  if ip_addr_isany ipaddr || ip4_addr_isbroadcast ipaddr (netif_of s np)
     || ip_addr_ismulticast ipaddr
  then (ERR_ARG, s)
  else
    match etharp_find_entry (Some ipaddr) flags s with
    | (None, s) => (ERR_MEM, s)
    | (Some i, s) =>
        let s := upd_entry i (fun e =>
          ae_set_ctime 0 (ae_set_ethaddr ethaddr
            (ae_set_netif (Some np) (ae_set_state ETHARP_STATE_STABLE e)))) s in
        match ae_q (arp_entry s i) with
        | None => (ERR_OK, s)
        | Some p =>
            let s := upd_entry i (ae_set_q None) s in
            let '(_, s) := etharp_send_ip np p (nif_hwaddr (netif_of s np)) ethaddr s in
            (ERR_OK, s)
        end
    end.

(** [etharp_cleanup_netif]. *)
Definition cleanup_entry (np : netif_ptr) (e : etharp_entry) : etharp_entry :=
  if negb (bool_decide (ae_state e = ETHARP_STATE_EMPTY))
     && bool_decide (ae_netif e = Some np)
  then free_entry e else e.
Definition etharp_cleanup_netif (np : netif_ptr) (s : net) : net :=
  set_arp_table (map (cleanup_entry np) (arp_table s)) s.

(** [etharp_find_addr]: the index and the two addresses it returns pointers
    to. *)
Definition etharp_find_addr (ipaddr : Z) (s : net) : option (nat * list Z * Z) * net :=
  match etharp_find_entry (Some ipaddr) ETHARP_FLAG_FIND_ONLY s with
  | (Some i, s) =>
      if is_stable (ae_state (arp_entry s i))
      then (Some (i, ae_ethaddr (arp_entry s i), ae_ipaddr (arp_entry s i)), s)
      else (None, s)
  | (None, s) => (None, s)
  end.

(** ** ARP packets *)

(** The 42 bytes of an ARP packet. *)
Definition arp_packet (ethdst ethsrc : list Z) (opcode : Z) (hwsrc : list Z) (ipsrc : Z)
  (hwdst : list Z) (ipdst : Z) : list Z :=
  eth_header ethdst ethsrc ETHTYPE_ARP
  ++ be16 HWTYPE_ETHERNET ++ be16 ETHTYPE_IP ++ [ETHARP_HWADDR_LEN; 4]
  ++ be16 opcode ++ hwsrc ++ be32 ipsrc ++ hwdst ++ be32 ipdst.

Definition etharp_raw (np : netif_ptr) (ethsrc ethdst hwsrc : list Z) (ipsrc : Z)
  (hwdst : list Z) (ipdst opcode : Z) (s : net) : err_t * net :=
  match net_pbuf_alloc PBUF_RAW SIZEOF_ETHARP_PACKET s with
  | (None, s) => (ERR_MEM, s)
  | (Some p, s) =>
      netif_linkoutput np
        (set_payload (put 0 (arp_packet ethdst ethsrc opcode hwsrc ipsrc hwdst ipdst)
                        (p_payload p)) p) s
  end.

Definition etharp_request (np : netif_ptr) (ipaddr : Z) (s : net) : err_t * net :=
  let n := netif_of s np in
  etharp_raw np (nif_hwaddr n) ethbroadcast (nif_hwaddr n) (nif_ip_addr n) ethzero ipaddr
    ARP_REQUEST s.

(** [etharp_gratuitous(netif)] of netif/etharp.h. *)
Definition etharp_gratuitous (np : netif_ptr) (s : net) : err_t * net :=
  etharp_request np (nif_ip_addr (netif_of s np)) s.

(** ** Output *)

Definition etharp_output_to_arp_index (np : netif_ptr) (q : pbuf) (i : nat) (s : net)
  : err_t * net :=
  let s :=
    if bool_decide (ae_state (arp_entry s i) = ETHARP_STATE_STABLE)
       && (ARP_AGE_REREQUEST_USED <=? ae_ctime (arp_entry s i))
    then
      match etharp_request np (ae_ipaddr (arp_entry s i)) s with
      | (ERR_OK, s) => upd_entry i (ae_set_state ETHARP_STATE_STABLE_REREQUESTING) s
      | (_, s) => s
      end
    else s in
  etharp_send_ip np q (nif_hwaddr (netif_of s np)) (ae_ethaddr (arp_entry s i)) s.

(** The part of a chain from its first segment that is not [PBUF_ROM]. *)
Fixpoint first_not_rom (segs : list pseg) : option (list pseg) :=
  match segs with
  | [] => None
  | g :: segs' =>
      match ps_type g with PBUF_ROM => first_not_rom segs' | _ => Some segs end
  end.

(** The packet [etharp_query] keeps for a pending entry: a copy in RAM, or the
    packet itself when it lies in ROM. *)
Definition query_take (q : pbuf) (s : net) : option pbuf * net :=
  match first_not_rom (pb_first q :: pb_next q) with
  | None => (Some q, s)
  | Some p =>
      match net_pbuf_alloc PBUF_RAW (Zlen (mjoin (map ps_data p))) s with
      | (None, s) => (None, s)
      | (Some p, s) =>
          match pbuf_copy p q with
          | (ERR_OK, p) => (Some p, s)
          | (_, _) => (None, s)
          end
      end
  end.

(** [etharp_query]. *)
Definition etharp_query (np : netif_ptr) (ipaddr : Z) (q : option pbuf) (s : net)
  : err_t * net :=
  if ip4_addr_isbroadcast ipaddr (netif_of s np) || ip_addr_ismulticast ipaddr
     || ip_addr_isany ipaddr
  then (ERR_ARG, s)
  else
    match etharp_find_entry (Some ipaddr) ETHARP_FLAG_TRY_HARD s with
    | (None, s) => (ERR_MEM, s)
    | (Some i, s) =>
        let s :=
          if bool_decide (ae_state (arp_entry s i) = ETHARP_STATE_EMPTY)
          then upd_entry i (ae_set_state ETHARP_STATE_PENDING) s else s in
        let '(result, s) :=
          if bool_decide (ae_state (arp_entry s i) = ETHARP_STATE_PENDING)
             || bool_decide (q = None)
          then etharp_request np ipaddr s
          else (ERR_MEM, s) in
        match q with
        | None => (result, s)
        | Some q =>
            if is_stable (ae_state (arp_entry s i)) then
              let s := set_cached_entry i s in
              etharp_send_ip np q (nif_hwaddr (netif_of s np)) (ae_ethaddr (arp_entry s i)) s
            else if bool_decide (ae_state (arp_entry s i) = ETHARP_STATE_PENDING) then
              match query_take q s with
              | (Some p, s) => (ERR_OK, upd_entry i (ae_set_q (Some p)) s)
              | (None, s) => (ERR_MEM, s)
              end
            else (result, s)
        end
    end.

(** The loop of [etharp_output] over the stable entries. *)
Fixpoint find_stable (dst : Z) (i : nat) (es : list etharp_entry) : option nat :=
  match es with
  | [] => None
  | e :: es' =>
      if is_stable (ae_state e) && ip_addr_cmp dst (ae_ipaddr e) then Some i
      else find_stable dst (S i) es'
  end.

(** The address to resolve: the destination itself on the local network, else
    the gateway if there is one. *)
Definition next_hop (n : netif) (ipaddr : Z) : option Z :=
  if negb (ip_addr_netcmp ipaddr (nif_ip_addr n) (nif_netmask n))
     && negb (ip_addr_islinklocal ipaddr)
  then if negb (ip_addr_isany (nif_gw n)) then Some (nif_gw n) else None
  else Some ipaddr.

(** The unicast part of [etharp_output]: next hop, cached entry, table,
    query. *)
Definition output_unicast (np : netif_ptr) (q : pbuf) (ipaddr : Z) (s : net)
  : err_t * net :=
  match next_hop (netif_of s np) ipaddr with
  | None => (ERR_RTE, s)
  | Some dst =>
      let c := arp_entry s (etharp_cached_entry s) in
      if is_stable (ae_state c) && ip_addr_cmp dst (ae_ipaddr c)
      then etharp_output_to_arp_index np q (etharp_cached_entry s) s
      else
        match find_stable dst 0 (arp_table s) with
        | Some i => etharp_output_to_arp_index np q i (set_cached_entry i s)
        | None => etharp_query np dst (Some q) s
        end
  end.

(** [etharp_output]. *)
Definition etharp_output (np : netif_ptr) (q : pbuf) (ipaddr : Z) (s : net) : err_t * net :=
  match pbuf_header q SIZEOF_ETH_HDR with
  | None => (ERR_BUF, s)
  | Some q =>
      let n := netif_of s np in
      if ip4_addr_isbroadcast ipaddr n then
        etharp_send_ip np q (nif_hwaddr n) ethbroadcast s
      else if ip_addr_ismulticast ipaddr then
        etharp_send_ip np q (nif_hwaddr n)
          [0x01; 0x00; 0x5e; Z.land (ip4_addr2 ipaddr) 0x7f; ip4_addr3 ipaddr; ip4_addr4 ipaddr] s
      else output_unicast np q ipaddr s
  end.

(** ** Input *)

(** [etharp_arp_input]: the packet is freed on every path. *)
Definition arp_reply_payload (np_ip : Z) (hwaddr : list Z) (d : list Z) : list Z :=
  (* the stores into the received packet, in order *)
  let d := put 20 (be16 ARP_REPLY) d in
  let d := put 38 (take 4 (drop 28 d)) d in
  let d := put 28 (be32 np_ip) d in
  let d := put 32 (take 6 (drop 22 d)) d in
  let d := put 0 (take 6 (drop 22 d)) d in
  let d := put 22 hwaddr d in
  put 6 hwaddr d.

Definition etharp_arp_input (np : netif_ptr) (ethaddr : list Z) (p : pbuf) (s : net) : net :=
  let d := p_payload p in
  if p_len p <? SIZEOF_ETHARP_PACKET then s
  else if negb (get16 d 14 =? HWTYPE_ETHERNET) || negb (byte_at d 18 =? ETHARP_HWADDR_LEN)
          || negb (byte_at d 19 =? 4) || negb (get16 d 16 =? ETHTYPE_IP)
  then s
  else
    let sipaddr := get32 d 28 in
    let dipaddr := get32 d 38 in
    let for_us :=
      if ip_addr_isany (nif_ip_addr (netif_of s np)) then false
      else ip_addr_cmp dipaddr (nif_ip_addr (netif_of s np)) in
    let '(_, s) := etharp_update_arp_entry np sipaddr (take 6 (drop 22 d))
                     (if for_us then ETHARP_FLAG_TRY_HARD else ETHARP_FLAG_FIND_ONLY) s in
    if get16 d 20 =? ARP_REQUEST then
      if for_us then
        snd (netif_linkoutput np
               (set_payload (arp_reply_payload (nif_ip_addr (netif_of s np)) ethaddr d) p) s)
      else s
    else s.

(** ** The search sweep *)

Definition nonempty (e : etharp_entry) : Prop := ae_state e <> ETHARP_STATE_EMPTY.
Definition stable (e : etharp_entry) : Prop := is_stable (ae_state e) = true.
Definition pending_noq (e : etharp_entry) : Prop :=
  ae_state e = ETHARP_STATE_PENDING /\ ae_q e = None.
Definition pending_q (e : etharp_entry) : Prop :=
  ae_state e = ETHARP_STATE_PENDING /\ ae_q e <> None.
Definition matches (ipaddr : option Z) (e : etharp_entry) : Prop :=
  nonempty e /\ ipaddr = Some (ae_ipaddr e).

(** [i] is the sentinel and no entry of [es] satisfies [P], or [i] is an oldest
    entry satisfying [P], [age] its age. *)
Definition best (P : etharp_entry -> Prop) (es : list etharp_entry) (i : nat) (age : Z) : Prop :=
  (i = ARP_TABLE_SIZE /\ age = 0 /\ forall e, e ∈ es -> ~ P e)
  \/ ((i < ARP_TABLE_SIZE)%nat /\ exists e, es !! i = Some e /\ P e /\ ae_ctime e = age
      /\ forall e', e' ∈ es -> P e' -> ae_ctime e' <= age).

Lemma best_other P es i age e : best P es i age -> ~ P e -> best P (es ++ [e]) i age.
Proof.
  intros [(-> & -> & H) | (Hi & e0 & H0 & HP & Ha & H)] Hn.
  - left. split_and!; [done | done |]. intros e' [? | ->%list_elem_of_singleton]%elem_of_app; auto.
  - right. split; [done |]. exists e0. split_and!; [by apply lookup_app_l_Some | done | done |].
    intros e' [? | ->%list_elem_of_singleton]%elem_of_app ?; [auto | done].
Qed.

Lemma best_older P es i age e :
  best P es i age -> (i = ARP_TABLE_SIZE -> age <= ae_ctime e) -> ae_ctime e < age ->
  best P (es ++ [e]) i age.
Proof.
  intros [(-> & -> & H) | (Hi & e0 & H0 & HP & Ha & H)] Hs Hlt; [specialize (Hs eq_refl); lia |].
  right. split; [done |]. exists e0. split_and!; [by apply lookup_app_l_Some | done | done |].
  intros e' [? | ->%list_elem_of_singleton]%elem_of_app ?; [auto | lia].
Qed.

Lemma best_new P es i age e :
  best P es i age -> (length es < ARP_TABLE_SIZE)%nat -> P e -> age <= ae_ctime e ->
  best P (es ++ [e]) (length es) (ae_ctime e).
Proof.
  intros Hb Hl HP Hage. right. split; [done |]. exists e.
  split_and!; [by apply list_lookup_middle | done | done |].
  intros e' [He | ->%list_elem_of_singleton]%elem_of_app HP'; [| lia].
  destruct Hb as [(_ & _ & H) | (_ & e0 & _ & _ & _ & H)]; [by destruct (H e') | specialize (H e' He HP'); lia].
Qed.

Lemma best_age P es i age : best P es i age -> i = ARP_TABLE_SIZE -> age = 0.
Proof. intros [(_ & -> & _) | (H & _)] ->; [done | lia]. Qed.

(** What the local variables say about the entries [es] swept so far. *)
Record scan_inv (ipaddr : option Z) (es : list etharp_entry) (c : scan) : Prop := {
  si_nomatch : forall e, e ∈ es -> ~ matches ipaddr e;
  si_empty : (sc_empty c = ARP_TABLE_SIZE /\ forall e, e ∈ es -> nonempty e)
    \/ ((sc_empty c < ARP_TABLE_SIZE)%nat
        /\ exists e, es !! sc_empty c = Some e /\ ~ nonempty e);
  si_stable : best stable es (old_stable c) (age_stable c);
  si_pending : best pending_noq es (old_pending c) (age_pending c);
  si_queue : best pending_q es (old_queue c) (age_queue c)
}.

Lemma scan_inv_init ipaddr : scan_inv ipaddr [] scan_init.
Proof.
  split; try (left; split_and!; [done.. |]); intros e He%not_elem_of_nil; done.
Qed.

Lemma si_empty_keep es c e :
  (sc_empty c = ARP_TABLE_SIZE /\ forall e, e ∈ es -> nonempty e)
    \/ ((sc_empty c < ARP_TABLE_SIZE)%nat /\ exists e, es !! sc_empty c = Some e /\ ~ nonempty e) ->
  (sc_empty c = ARP_TABLE_SIZE -> nonempty e) ->
  (sc_empty c = ARP_TABLE_SIZE /\ forall e', e' ∈ es ++ [e] -> nonempty e')
    \/ ((sc_empty c < ARP_TABLE_SIZE)%nat
        /\ exists e', (es ++ [e]) !! sc_empty c = Some e' /\ ~ nonempty e').
Proof.
  intros [[H1 H2] | (H1 & e0 & H2 & H3)] He; [left | right]; (split; [done |]).
  - intros e' [? | ->%list_elem_of_singleton]%elem_of_app; auto.
  - exists e0. split; [by apply lookup_app_l_Some | done].
Qed.

(** One iteration. *)
Lemma scan_entry_spec ipaddr es e c :
  scan_inv ipaddr es c -> (length es < ARP_TABLE_SIZE)%nat -> 0 <= ae_ctime e ->
  match scan_entry ipaddr (length es) e c with
  | inl i => i = length es /\ matches ipaddr e
  | inr c' => scan_inv ipaddr (es ++ [e]) c'
  end.
Proof.
  intros [Hm He Hs Hp Hq] Hl Ht. unfold scan_entry.
  assert (Hnm : ~ matches ipaddr e -> forall e', e' ∈ es ++ [e] -> ~ matches ipaddr e')
    by (intros Hn e' [? | ->%list_elem_of_singleton]%elem_of_app; auto).
  destruct (decide (ae_state e = ETHARP_STATE_EMPTY)) as [Em | Em].
  - assert (Hn1 : ~ stable e) by (unfold stable; by rewrite Em).
    assert (Hn2 : ~ pending_noq e) by (intros [? _]; congruence).
    assert (Hn3 : ~ pending_q e) by (intros [? _]; congruence).
    assert (Hn4 : ~ matches ipaddr e) by (intros [? _]; done).
    rewrite (bool_decide_true _ Em), andb_true_r.
    destruct (decide (sc_empty c = ARP_TABLE_SIZE)) as [E10 | E10].
    + rewrite bool_decide_true by done. split; cbn; auto using best_other.
      right. split; [done |]. exists e. split; [by apply list_lookup_middle | intros []; done].
    + rewrite bool_decide_false by done. split; cbn; auto using best_other.
      apply si_empty_keep; [done | intros; done].
  - rewrite (bool_decide_false _ Em), andb_false_r.
    assert (Hne : nonempty e) by exact Em.
    destruct (match ipaddr with Some a => ip_addr_cmp a (ae_ipaddr e) | None => false end) eqn:Ec.
    { split; [done |]. split; [done |]. destruct ipaddr as [a |]; [| done].
      unfold ip_addr_cmp in Ec. zb. by subst. }
    assert (Hn4 : ~ matches ipaddr e).
    { intros [_ ->]. cbn in Ec. unfold ip_addr_cmp in Ec. by rewrite Z.eqb_refl in Ec. }
    destruct (decide (ae_state e = ETHARP_STATE_PENDING)) as [Ep | Ep].
    + rewrite (bool_decide_true _ Ep).
      assert (Hn1 : ~ stable e) by (unfold stable; by rewrite Ep).
      destruct (ae_q e) as [q |] eqn:Eq.
      * assert (Hn2 : ~ pending_noq e) by (intros [_ ?]; congruence).
        assert (Hy : pending_q e) by (split; congruence).
        destruct (Z.leb_spec (age_queue c) (ae_ctime e));
          split; cbn; auto using best_other, si_empty_keep; try (eapply best_new; eassumption).
        eapply best_older; [eassumption | intros Hi; apply (best_age _ _ _ _ Hq) in Hi; lia | done].
      * assert (Hn3 : ~ pending_q e) by (intros [_ ?]; congruence).
        assert (Hy : pending_noq e) by (split; congruence).
        destruct (Z.leb_spec (age_pending c) (ae_ctime e));
          split; cbn; auto using best_other, si_empty_keep; try (eapply best_new; eassumption).
        eapply best_older; [eassumption | intros Hi; apply (best_age _ _ _ _ Hp) in Hi; lia | done].
    + rewrite (bool_decide_false _ Ep).
      assert (Hy : stable e) by (unfold stable; destruct (ae_state e); done).
      assert (Hn2 : ~ pending_noq e) by (intros [? _]; congruence).
      assert (Hn3 : ~ pending_q e) by (intros [? _]; congruence).
      destruct (Z.leb_spec (age_stable c) (ae_ctime e));
        split; cbn; auto using best_other, si_empty_keep; try (eapply best_new; eassumption).
      eapply best_older; [eassumption | intros Hi; apply (best_age _ _ _ _ Hs) in Hi; lia | done].
Qed.

Lemma scan_table_spec ipaddr es pre c :
  scan_inv ipaddr pre c -> (length (pre ++ es) <= ARP_TABLE_SIZE)%nat ->
  Forall (fun e => 0 <= ae_ctime e) es ->
  match scan_table ipaddr (length pre) es c with
  | inl i => exists e, (pre ++ es) !! i = Some e /\ matches ipaddr e
  | inr c' => scan_inv ipaddr (pre ++ es) c'
  end.
Proof.
  revert pre c; induction es as [| e es IH]; intros pre c Hi Hl Ht; cbn [scan_table].
  - by rewrite app_nil_r.
  - apply Forall_cons in Ht as [He Ht]. rewrite length_app in Hl. cbn in Hl.
    pose proof (scan_entry_spec ipaddr pre e c Hi ltac:(lia) He) as Hs.
    destruct (scan_entry ipaddr (length pre) e c) as [i | c'].
    + destruct Hs as [-> Hm]. exists e. split; [by apply list_lookup_middle | done].
    + specialize (IH (pre ++ [e]) c' Hs).
      replace (length (pre ++ [e])) with (S (length pre)) in IH by (rewrite length_app; cbn; lia).
      rewrite <- app_assoc in IH. apply IH; [rewrite length_app; cbn; lia | done].
Qed.

(** ** The table invariant *)

(** An entry: empty and stable entries queue nothing, ages stay below the
    limits [etharp_tmr] enforces. *)
Record entry_ok (e : etharp_entry) : Prop := {
  eo_queue : ae_state e <> ETHARP_STATE_PENDING -> ae_q e = None;
  eo_age : 0 <= ae_ctime e;
  eo_maxage : nonempty e -> ae_ctime e < ARP_MAXAGE;
  eo_maxpending : ae_state e = ETHARP_STATE_PENDING -> ae_ctime e < ARP_MAXPENDING
}.

(** At most one live entry per address. *)
Definition arp_unique (t : list etharp_entry) : Prop :=
  forall i j ei ej, t !! i = Some ei -> t !! j = Some ej ->
    nonempty ei -> nonempty ej -> ae_ipaddr ei = ae_ipaddr ej -> i = j.

Record arp_ok (t : list etharp_entry) : Prop := {
  ao_length : length t = ARP_TABLE_SIZE;
  ao_entries : Forall entry_ok t;
  ao_unique : arp_unique t
}.

Definition arp_inv (s : net) : Prop :=
  arp_ok (arp_table s) /\ (etharp_cached_entry s < ARP_TABLE_SIZE)%nat.

Lemma entry_ok_zero : entry_ok entry_zero.
Proof. split; cbn; [done | lia | intros []; done | done]. Qed.

Lemma arp_inv_init : arp_inv net_init.
Proof.
  split; [| cbn; unfold ARP_TABLE_SIZE; lia]. split; cbn [arp_table net_init].
  - apply length_replicate.
  - apply Forall_replicate, entry_ok_zero.
  - intros i j ei ej [-> _]%lookup_replicate _ H. by destruct H.
Qed.

Lemma arp_entry_lookup s i e : arp_table s !! i = Some e -> arp_entry s i = e.
Proof. intros H. unfold arp_entry. by apply nth_lookup_Some. Qed.

Lemma arp_lookup s i : (i < length (arp_table s))%nat -> arp_table s !! i = Some (arp_entry s i).
Proof.
  intros Hi. destruct (lookup_lt_is_Some_2 (arp_table s) i Hi) as [e He].
  by rewrite (arp_entry_lookup s i e He).
Qed.

(** Replacing one entry by one whose address nobody else holds. *)
Lemma arp_ok_insert t i e :
  arp_ok t -> entry_ok e ->
  (nonempty e -> forall j ej, t !! j = Some ej -> j <> i -> nonempty ej ->
     ae_ipaddr ej <> ae_ipaddr e) ->
  arp_ok (<[i := e]> t).
Proof.
  intros [Hl He Hu] Hok Hfresh. split.
  - by rewrite length_insert.
  - by apply Forall_insert.
  - intros j k ej ek Hj Hk Hnj Hnk Heq.
    apply list_lookup_insert_Some in Hj as [(<- & <- & Hi) | [Hij Hj]];
      apply list_lookup_insert_Some in Hk as [(<- & <- & Hi') | [Hik Hk]].
    + done.
    + by destruct (Hfresh Hnj k ek Hk (not_eq_sym Hik) Hnk).
    + by destruct (Hfresh Hnk j ej Hj (not_eq_sym Hij) Hnj).
    + by apply (Hu j k ej ek).
Qed.

(** Applying to every entry a step that may only empty it. *)
Lemma arp_ok_map t (f : etharp_entry -> etharp_entry) :
  arp_ok t -> (forall e, entry_ok e -> entry_ok (f e)) ->
  (forall e, nonempty (f e) -> nonempty e /\ ae_ipaddr (f e) = ae_ipaddr e) ->
  arp_ok (map f t).
Proof.
  intros [Hl He Hu] Hok Hne. split.
  - by rewrite length_map.
  - apply Forall_fmap. eapply Forall_impl; [exact He | exact Hok].
  - intros i j ei ej Hi Hj Hni Hnj Heq.
    apply list_lookup_fmap_Some in Hi as (ei0 & -> & Hi).
    apply list_lookup_fmap_Some in Hj as (ej0 & -> & Hj).
    destruct (Hne ei0 Hni) as [Hni0 Ei], (Hne ej0 Hnj) as [Hnj0 Ej].
    apply (Hu i j ei0 ej0); [done.. | congruence].
Qed.

Lemma free_entry_ok e : entry_ok e -> entry_ok (free_entry e).
Proof. intros [? ? ? ?]. split; cbn; [done | done | intros []; done | done]. Qed.

Lemma free_entry_empty e : ~ nonempty (free_entry e).
Proof. intros []. done. Qed.

(** [i] is the entry step b) prescribes to recycle. *)
Definition oldest (P : etharp_entry -> Prop) (t : list etharp_entry) (i : nat) : Prop :=
  exists e, t !! i = Some e /\ P e /\ forall e', e' ∈ t -> P e' -> ae_ctime e' <= ae_ctime e.
Definition none (P : etharp_entry -> Prop) (t : list etharp_entry) : Prop :=
  forall e, e ∈ t -> ~ P e.
Definition recyclable (t : list etharp_entry) (i : nat) : Prop :=
  (exists e, t !! i = Some e /\ ~ nonempty e)
  \/ ((forall e, e ∈ t -> nonempty e) /\
      (oldest stable t i
       \/ (none stable t /\ oldest pending_noq t i)
       \/ (none stable t /\ none pending_noq t /\ oldest pending_q t i))).

Lemma nonempty_cases e : nonempty e -> stable e \/ pending_noq e \/ pending_q e.
Proof.
  unfold nonempty, stable, pending_noq, pending_q.
  destruct (ae_state e), (ae_q e); naive_solver.
Qed.

Lemma best_cases P t i age :
  best P t i age -> (i = ARP_TABLE_SIZE /\ none P t) \/ ((i < ARP_TABLE_SIZE)%nat /\ oldest P t i).
Proof.
  intros [(-> & _ & H) | (Hi & e & H1 & H2 & H3 & H4)]; [by left | right].
  split; [done |]. exists e. split_and!; [done | done |]. intros. rewrite H3. auto.
Qed.

(** The choice of step b) on a full table always finds an entry. *)
Lemma select_entry_spec ipaddr t c :
  scan_inv ipaddr t c -> t <> [] -> (forall e, e ∈ t -> nonempty e) ->
  exists i, select_entry c = Some i /\ (i < ARP_TABLE_SIZE)%nat /\ recyclable t i.
Proof.
  intros [_ _ Hs Hp Hq] Hne Hall. unfold select_entry.
  apply best_cases in Hs as [[-> Hs] | [Hi Hs]].
  2: { rewrite (proj2 (Nat.ltb_lt _ _) Hi). eexists. split_and!; [done | done |]. right. auto. }
  apply best_cases in Hp as [[-> Hp] | [Hi Hp]].
  2: { rewrite (proj2 (Nat.ltb_lt _ _) Hi). cbn.
       eexists. split_and!; [done | done |]. right. auto. }
  apply best_cases in Hq as [[-> Hq] | [Hi Hq]].
  2: { rewrite (proj2 (Nat.ltb_lt _ _) Hi). cbn.
       eexists. split_and!; [done | done |]. right. auto 6. }
  destruct t as [| e t]; [done |]. exfalso.
  destruct (nonempty_cases e (Hall e (list_elem_of_here _ _))) as [H | [H | H]];
    [apply (Hs e) | apply (Hp e) | apply (Hq e)]; auto using list_elem_of_here.
Qed.

(** A reset entry for address [a]. *)
Definition fresh_entry (a : Z) (e : etharp_entry) : etharp_entry :=
  mk_entry None a (ae_netif e) (ae_ethaddr e) ETHARP_STATE_EMPTY 0.

Lemma upd_entry_upd i f g s : (i < length (arp_table s))%nat ->
  upd_entry i f (upd_entry i g s) = upd_entry i (fun e => f (g e)) s.
Proof.
  intros Hi. unfold upd_entry, set_arp_table, arp_entry. cbn.
  f_equal. rewrite nth_lookup, list_lookup_insert_eq by done. cbn.
  by rewrite list_insert_insert_eq.
Qed.

Lemma upd_entry_ext i f g s : f (arp_entry s i) = g (arp_entry s i) -> upd_entry i f s = upd_entry i g s.
Proof. unfold upd_entry. by intros ->. Qed.

Lemma new_entry_empty a i s : arp_ok (arp_table s) -> (i < ARP_TABLE_SIZE)%nat ->
  ~ nonempty (arp_entry s i) ->
  new_entry (Some a) i s = upd_entry i (fresh_entry a) s.
Proof.
  intros [Hl He _] Hi Hn. apply upd_entry_ext.
  assert (Hok : entry_ok (arp_entry s i)).
  { rewrite Forall_lookup in He. eapply He. apply arp_lookup. lia. }
  unfold nonempty in Hn. apply dec_stable in Hn.
  unfold fresh_entry, ae_set_ctime, ae_set_ipaddr. cbn. rewrite Hn.
  by rewrite (eo_queue _ Hok) by congruence.
Qed.

Lemma new_entry_recycle a i s : arp_ok (arp_table s) -> (i < ARP_TABLE_SIZE)%nat ->
  new_entry (Some a) i (etharp_free_entry i s) = upd_entry i (fresh_entry a) s.
Proof.
  intros [Hl _ _] Hi. unfold new_entry, etharp_free_entry.
  rewrite upd_entry_upd by lia. by apply upd_entry_ext.
Qed.

Definition find_only (flags : Z) : Prop := Z.land flags ETHARP_FLAG_FIND_ONLY <> 0.
Definition try_hard (flags : Z) : Prop := Z.land flags ETHARP_FLAG_TRY_HARD <> 0.

Lemma find_entry_spec a flags s : arp_inv s ->
  match etharp_find_entry (Some a) flags s with
  | (None, s') =>
      s' = s /\ none (matches (Some a)) (arp_table s)
      /\ (find_only flags \/ ((forall e, e ∈ arp_table s -> nonempty e) /\ ~ try_hard flags))
  | (Some i, s') =>
      (i < ARP_TABLE_SIZE)%nat /\
      ((s' = s /\ matches (Some a) (arp_entry s i))
       \/ (~ find_only flags /\ none (matches (Some a)) (arp_table s)
           /\ recyclable (arp_table s) i /\ (nonempty (arp_entry s i) -> try_hard flags)
           /\ s' = upd_entry i (fresh_entry a) s))
  end.
Proof.
  intros [Hok Hc]. pose proof Hok as [Hl He Hu]. unfold etharp_find_entry.
  pose proof (scan_table_spec (Some a) (arp_table s) [] scan_init
    (scan_inv_init _) ltac:(cbn; lia) ltac:(eapply Forall_impl; [exact He | intros ? []; done])) as Hs.
  cbn [app length] in Hs. destruct (scan_table _ _ _ _) as [i | c].
  { destruct Hs as (e & Hi & Hm). split; [apply lookup_lt_Some in Hi; lia |]. left.
    by rewrite (arp_entry_lookup s i e Hi). }
  destruct (negb _ || _) eqn:Eg.
  { split; [done | split; [exact (si_nomatch _ _ _ Hs) |]]. apply orb_true_iff in Eg as [Eg | Eg].
    - left. unfold find_only. by apply negb_true_iff, Z.eqb_neq in Eg.
    - right. apply andb_true_iff in Eg as [E1 E2]. apply Nat.eqb_eq in E1. apply Z.eqb_eq in E2.
      split; [| unfold try_hard; congruence].
      destruct (si_empty _ _ _ Hs) as [[_ H] | [H _]]; [done | lia]. }
  apply orb_false_iff in Eg as [E1 E2]. apply negb_false_iff, Z.eqb_eq in E1.
  assert (Hfo : ~ find_only flags) by (unfold find_only; congruence).
  destruct (si_empty _ _ _ Hs) as [[Ee Hall] | (Hlt & e & Hi & Hn)].
  - rewrite Ee, Nat.ltb_irrefl.
    destruct (select_entry_spec (Some a) (arp_table s) c Hs) as (i & -> & Hi & Hr);
      [intros E0; rewrite E0 in Hl; done | done |].
    split; [done |]. right. split_and!; [done | exact (si_nomatch _ _ _ Hs) | done | | by apply new_entry_recycle].
    intros _. rewrite Ee in E2. unfold ARP_TABLE_SIZE in E2. cbn in E2. by apply Z.eqb_neq in E2.
  - rewrite (proj2 (Nat.ltb_lt _ _) Hlt). split; [done |]. right.
    assert (Hem : ~ nonempty (arp_entry s (sc_empty c))) by (by rewrite (arp_entry_lookup s _ e Hi)).
    split_and!; [done | exact (si_nomatch _ _ _ Hs) | left; eauto | done | by apply new_entry_empty].
Qed.

(** ** Preservation *)

Lemma arp_entry_upd_eq i f s : (i < length (arp_table s))%nat ->
  arp_entry (upd_entry i f s) i = f (arp_entry s i).
Proof.
  intros Hi. unfold arp_entry at 1. cbn. by rewrite nth_lookup, list_lookup_insert_eq.
Qed.

Lemma arp_entry_upd_ne i j f s : i <> j -> arp_entry (upd_entry i f s) j = arp_entry s j.
Proof. intros. unfold arp_entry at 1. cbn. by rewrite nth_lookup, list_lookup_insert_ne, <- nth_lookup. Qed.

Lemma arp_len s : arp_inv s -> length (arp_table s) = ARP_TABLE_SIZE.
Proof. intros [[] _]. done. Qed.

Lemma arp_entry_ok s i : arp_inv s -> (i < ARP_TABLE_SIZE)%nat -> entry_ok (arp_entry s i).
Proof.
  intros H Hi. pose proof (arp_len s H). destruct H as [[_ He _] _].
  rewrite Forall_lookup in He. eapply He. apply arp_lookup. lia.
Qed.

Lemma arp_inv_table s s' :
  arp_table s' = arp_table s -> etharp_cached_entry s' = etharp_cached_entry s ->
  arp_inv s -> arp_inv s'.
Proof. unfold arp_inv. by intros -> ->. Qed.

(** Updating an entry in place keeps the table well formed when the address is
    unchanged and the entry was live. *)
Lemma arp_inv_upd i f s :
  arp_inv s -> (i < ARP_TABLE_SIZE)%nat -> entry_ok (f (arp_entry s i)) ->
  (nonempty (f (arp_entry s i)) -> forall j, (j < ARP_TABLE_SIZE)%nat -> j <> i ->
     nonempty (arp_entry s j) -> ae_ipaddr (arp_entry s j) <> ae_ipaddr (f (arp_entry s i))) ->
  arp_inv (upd_entry i f s).
Proof.
  intros [Hok Hc] Hi Hf Hfresh. split; [| done]. apply arp_ok_insert; [done | done |].
  intros Hn j ej Hj Hji Hnj. pose proof (arp_entry_lookup s j ej Hj) as <-.
  apply Hfresh; [done | | done | done]. apply lookup_lt_Some in Hj. destruct Hok. lia.
Qed.

Lemma arp_unique_ne s i j :
  arp_inv s -> (i < ARP_TABLE_SIZE)%nat -> (j < ARP_TABLE_SIZE)%nat -> j <> i ->
  nonempty (arp_entry s i) -> nonempty (arp_entry s j) ->
  ae_ipaddr (arp_entry s j) <> ae_ipaddr (arp_entry s i).
Proof.
  intros H Hi Hj Hne Hni Hnj Heq. pose proof (arp_len s H). destruct H as [[_ _ Hu] _].
  apply Hne. eapply Hu; [apply arp_lookup; lia | apply arp_lookup; lia | done..].
Qed.

(** The entry [etharp_find_entry] returns: the address is [a] and no other live
    entry has it. *)
Lemma find_entry_inv a flags s i s' :
  arp_inv s -> etharp_find_entry (Some a) flags s = (Some i, s') ->
  arp_inv s' /\ same_ifs s s' /\ n_wire s' = n_wire s /\ n_heap s' = n_heap s /\ ip_id s' = ip_id s
  /\ (i < ARP_TABLE_SIZE)%nat /\ ae_ipaddr (arp_entry s' i) = a
  /\ forall j, (j < ARP_TABLE_SIZE)%nat -> j <> i -> nonempty (arp_entry s' j) ->
       ae_ipaddr (arp_entry s' j) <> a.
Proof.
  intros Hinv E. pose proof (find_entry_spec a flags s Hinv) as H. rewrite E in H.
  destruct H as [Hi [[-> [Hn [= ->]]] | (_ & Hnone & _ & _ & ->)]].
  - split_and!; try done. intros j Hj Hji Hnj. by apply arp_unique_ne.
  - assert (Hlen : (i < length (arp_table s))%nat) by (rewrite arp_len; done).
    assert (Hoth : forall j, (j < ARP_TABLE_SIZE)%nat -> nonempty (arp_entry s j) ->
              ae_ipaddr (arp_entry s j) <> a).
    { intros j Hj Hnj Heq. apply (Hnone (arp_entry s j)); [| by rewrite <- Heq].
      eapply list_elem_of_lookup_2, arp_lookup. by rewrite arp_len. }
    split_and!; try done.
    + apply arp_inv_upd; [done | done | | intros []; done].
      split; cbn; [done | lia | intros []; done | done].
    + by rewrite arp_entry_upd_eq.
    + intros j Hj Hji. rewrite arp_entry_upd_ne by done. auto.
Qed.

Lemma find_entry_none a flags s s' :
  arp_inv s -> etharp_find_entry (Some a) flags s = (None, s') -> s' = s.
Proof. intros Hinv E. pose proof (find_entry_spec a flags s Hinv) as H. rewrite E in H. tauto. Qed.

(** What one tick does to an entry. *)
Lemma tmr_entry_ok e : entry_ok e -> entry_ok (tmr_entry e).
Proof.
  intros He. pose proof He as [Hq Ha Hm Hp]. unfold tmr_entry.
  destruct (decide (ae_state e = ETHARP_STATE_EMPTY)) as [E | E]; [by rewrite bool_decide_true |].
  rewrite bool_decide_false by done. specialize (Hm E). unfold ARP_MAXAGE, ARP_MAXPENDING in *.
  cbn [ae_ctime ae_state ae_set_ctime]. rewrite u8_small by (unfold is_u8; lia).
  destruct (_ || _) eqn:Eo.
  { split; cbn; [done | lia | intros []; done | done]. }
  apply orb_false_iff in Eo as [E1 E2]. zb.
  destruct (decide (ae_state e = ETHARP_STATE_STABLE_REREQUESTING)) as [Er | Er].
  - rewrite bool_decide_true by done.
    split; cbn; unfold ARP_MAXAGE; [intros _; apply Hq; congruence | lia | lia | done].
  - rewrite bool_decide_false by done.
    split; cbn; unfold ARP_MAXAGE, ARP_MAXPENDING; [done | lia | lia |].
    intros Hpe. rewrite bool_decide_true in E2 by done. cbn in E2. zb. lia.
Qed.

Lemma tmr_entry_live e : nonempty (tmr_entry e) ->
  nonempty e /\ ae_ipaddr (tmr_entry e) = ae_ipaddr e
  /\ (entry_ok e -> ae_ctime (tmr_entry e) = ae_ctime e + 1).
Proof.
  unfold tmr_entry. destruct (decide (ae_state e = ETHARP_STATE_EMPTY)) as [E | E].
  { by rewrite bool_decide_true by done. }
  rewrite bool_decide_false by done. destruct (_ || _); [by intros ?%free_entry_empty |].
  intros _. split; [done |].
  assert (Hc : entry_ok e -> u8 (ae_ctime e + 1) = ae_ctime e + 1).
  { intros [_ Ha Hm _]. specialize (Hm E). unfold ARP_MAXAGE in Hm. apply u8_small. unfold is_u8. lia. }
  destruct (bool_decide _); cbn; auto.
Qed.

Lemma tmr_inv s : arp_inv s -> arp_inv (etharp_tmr s).
Proof.
  intros [Hok Hc]. split; [| done].
  apply arp_ok_map; [done | apply tmr_entry_ok | intros e H%tmr_entry_live; tauto].
Qed.

Lemma cleanup_inv np s : arp_inv s -> arp_inv (etharp_cleanup_netif np s).
Proof.
  intros [Hok Hc]. split; [| done].
  apply arp_ok_map; [done | |]; intros e; unfold cleanup_entry; destruct (_ && _);
    [apply free_entry_ok | done | by intros ?%free_entry_empty | done].
Qed.

Lemma linkoutput_inv np p s err s' :
  netif_linkoutput np p s = (err, s') -> arp_inv s -> arp_inv s'.
Proof. intros H%linkoutput_frame. apply arp_inv_table; tauto. Qed.

Lemma linkoutput_ifs np p s err s' : netif_linkoutput np p s = (err, s') -> same_ifs s s'.
Proof. intros H%linkoutput_frame. unfold same_ifs. tauto. Qed.

Lemma upd_entry_ifs i f s : same_ifs s (upd_entry i f s).
Proof. done. Qed.

Lemma pbuf_alloc_ifs layer n s p s' : net_pbuf_alloc layer n s = (p, s') -> same_ifs s s'.
Proof. unfold net_pbuf_alloc. destruct (pbuf_alloc_ram _ _ _). by intros [= _ <-]. Qed.

Lemma pbuf_alloc_inv layer n s p s' : net_pbuf_alloc layer n s = (p, s') -> arp_inv s -> arp_inv s'.
Proof.
  unfold net_pbuf_alloc. destruct (pbuf_alloc_ram _ _ _). intros [= _ <-]. by apply arp_inv_table.
Qed.

(** The properties every operation of the cache keeps. *)
Definition keeps (s s' : net) : Prop := same_ifs s s' /\ (arp_inv s -> arp_inv s').

#[export] Instance keeps_refl : Reflexive keeps.
Proof. by intros s. Qed.
#[export] Instance keeps_trans : Transitive keeps.
Proof. intros a b c [? ?] [? ?]. split; [by etrans | auto]. Qed.

Lemma linkoutput_keeps np p s err s' : netif_linkoutput np p s = (err, s') -> keeps s s'.
Proof. intros H. split; [by eapply linkoutput_ifs | by eapply linkoutput_inv]. Qed.

Lemma pbuf_alloc_keeps layer n s p s' : net_pbuf_alloc layer n s = (p, s') -> keeps s s'.
Proof. intros H. split; [by eapply pbuf_alloc_ifs | by eapply pbuf_alloc_inv]. Qed.

Lemma raw_keeps np a b c d e f g s err s' : etharp_raw np a b c d e f g s = (err, s') -> keeps s s'.
Proof.
  unfold etharp_raw. destruct (net_pbuf_alloc _ _ _) as [[p |] s1] eqn:E.
  - intros H. etrans; [by eapply pbuf_alloc_keeps | by eapply linkoutput_keeps].
  - intros [= _ <-]. by eapply pbuf_alloc_keeps.
Qed.

Lemma request_keeps np a s err s' : etharp_request np a s = (err, s') -> keeps s s'.
Proof. apply raw_keeps. Qed.

(** Besides the heap and the wire an ARP request changes nothing. *)
Lemma raw_table np a b c d e f g s err s' : etharp_raw np a b c d e f g s = (err, s') ->
  arp_table s' = arp_table s /\ etharp_cached_entry s' = etharp_cached_entry s.
Proof.
  unfold etharp_raw, net_pbuf_alloc. destruct (pbuf_alloc_ram _ _ _) as [[p |] h].
  - intros H%linkoutput_frame. cbn in H. tauto.
  - by intros [= _ <-].
Qed.

Lemma request_table np a s err s' : etharp_request np a s = (err, s') ->
  arp_table s' = arp_table s /\ etharp_cached_entry s' = etharp_cached_entry s.
Proof. apply raw_table. Qed.

Lemma find_entry_ifs a flags s r s' : etharp_find_entry a flags s = (r, s') -> same_ifs s s'.
Proof.
  unfold etharp_find_entry. destruct (scan_table _ _ _ _); [by intros [= _ <-] |].
  repeat case_match; by intros [= _ <-].
Qed.

(** An in-place update of a live entry that leaves its address alone. *)
Lemma upd_live_inv i f s :
  arp_inv s -> (i < ARP_TABLE_SIZE)%nat -> nonempty (arp_entry s i) ->
  entry_ok (f (arp_entry s i)) -> ae_ipaddr (f (arp_entry s i)) = ae_ipaddr (arp_entry s i) ->
  arp_inv (upd_entry i f s).
Proof.
  intros Hinv Hi Hn Hok Ha. apply arp_inv_upd; [done | done | done |].
  intros _ j Hj Hji Hnj. rewrite Ha. by apply arp_unique_ne.
Qed.

(** The queued packet leaves before the entry is observed again, so the first
    update and the removal of [q] are looked at together. *)
Lemma learn_inv np ethaddr a s i s1 :
  arp_inv s1 -> (i < ARP_TABLE_SIZE)%nat -> ae_ipaddr (arp_entry s1 i) = a ->
  (forall j, (j < ARP_TABLE_SIZE)%nat -> j <> i -> nonempty (arp_entry s1 j) ->
     ae_ipaddr (arp_entry s1 j) <> a) ->
  s = upd_entry i (fun e => ae_set_q None (ae_set_ctime 0 (ae_set_ethaddr ethaddr
        (ae_set_netif (Some np) (ae_set_state ETHARP_STATE_STABLE e))))) s1 ->
  arp_inv s.
Proof.
  intros Hinv Hi Ha Hoth ->. apply arp_inv_upd; [done | done | |].
  - split; cbn; unfold ARP_MAXAGE; [done | lia | lia | done].
  - intros _ j Hj Hji Hnj. cbn. rewrite Ha. auto.
Qed.

Lemma upd_entry_q_id i f s : (i < length (arp_table s))%nat -> ae_q (f (arp_entry s i)) = None ->
  upd_entry i f s = upd_entry i (fun e => ae_set_q None (f e)) s.
Proof.
  intros Hi Hq. apply upd_entry_ext. destruct (f (arp_entry s i)). cbn in *. by subst.
Qed.

Lemma update_arp_keeps np a eth flags s err s' :
  etharp_update_arp_entry np a eth flags s = (err, s') -> keeps s s'.
Proof.
  unfold etharp_update_arp_entry. destruct (_ || _ || _); [by intros [= _ <-] |].
  destruct (etharp_find_entry _ _ _) as [[i |] s1] eqn:E.
  2: { intros [= _ <-]. split; [by eapply find_entry_ifs |].
       intros Hinv. by rewrite (find_entry_none _ _ _ _ Hinv E). }
  set (f := fun e => ae_set_ctime 0 _). intros H. split.
  - etrans; [by eapply find_entry_ifs |].
    destruct (ae_q (arp_entry (upd_entry i f s1) i)); [| by injection H as _ <-].
    destruct (etharp_send_ip _ _ _ _ _) as [e2 s2] eqn:E2. injection H as _ <-.
    apply linkoutput_ifs in E2. exact E2.
  - intros Hinv. destruct (find_entry_inv _ _ _ _ _ Hinv E) as (Hinv1 & _ & _ & _ & _ & Hi & Ha & Hoth).
    pose proof (arp_len _ Hinv1) as Hl.
    assert (Hk : arp_inv (upd_entry i (fun e => ae_set_q None (f e)) s1))
      by (eapply (learn_inv np eth); eauto).
    rewrite arp_entry_upd_eq in H by lia.
    destruct (ae_q (f (arp_entry s1 i))) as [p |] eqn:Eq.
    + destruct (etharp_send_ip _ _ _ _ _) as [e2 s2] eqn:E2. injection H as _ <-.
      apply linkoutput_inv in E2; [done |]. rewrite upd_entry_upd by lia. exact Hk.
    + injection H as _ <-. rewrite upd_entry_q_id by (done || lia). exact Hk.
Qed.

Lemma query_take_keeps q s r s' : query_take q s = (r, s') ->
  keeps s s' /\ arp_table s' = arp_table s.
Proof.
  unfold query_take. destruct (first_not_rom _); [| by intros [= _ <-]].
  destruct (net_pbuf_alloc _ _ _) as [[p |] s1] eqn:E.
  - assert (Ht : arp_table s1 = arp_table s)
      by (unfold net_pbuf_alloc in E; destruct (pbuf_alloc_ram _ _ _); by injection E as _ <-).
    apply pbuf_alloc_keeps in E. destruct (pbuf_copy p q) as [[] ?]; by intros [= _ <-].
  - intros [= _ <-]. split; [by eapply pbuf_alloc_keeps |].
    unfold net_pbuf_alloc in E; destruct (pbuf_alloc_ram _ _ _); by injection E as _ <-.
Qed.

(** The entry after [etharp_query] marked a fresh one as pending. *)
Definition mark_pending (i : nat) (s : net) : net :=
  if bool_decide (ae_state (arp_entry s i) = ETHARP_STATE_EMPTY)
  then upd_entry i (ae_set_state ETHARP_STATE_PENDING) s else s.

Lemma mark_pending_ifs i s : same_ifs s (mark_pending i s).
Proof. unfold mark_pending. destruct (bool_decide _); [apply upd_entry_ifs | reflexivity]. Qed.

Lemma mark_pending_spec a flags s0 i s :
  arp_inv s0 -> etharp_find_entry (Some a) flags s0 = (Some i, s) ->
  let s' := mark_pending i s in
  arp_inv s' /\ same_ifs s s' /\ nonempty (arp_entry s' i) /\ ae_ipaddr (arp_entry s' i) = a.
Proof.
  intros Hinv0 E. destruct (find_entry_inv _ _ _ _ _ Hinv0 E) as (Hinv & _ & _ & _ & _ & Hi & Ha & Hoth).
  pose proof (arp_len s Hinv) as Hl. unfold mark_pending; cbn zeta.
  destruct (decide (ae_state (arp_entry s i) = ETHARP_STATE_EMPTY)) as [Em | Em].
  - rewrite bool_decide_true by done. split_and!.
    + apply arp_inv_upd; [done | done | |].
      * pose proof (find_entry_spec a flags s0 Hinv0) as Hs. rewrite E in Hs.
        destruct Hs as [_ [[-> [Hn _]] | (_ & _ & _ & _ & ->)]]; [done |].
        rewrite arp_entry_upd_eq by (rewrite arp_len; done).
        split; cbn; unfold ARP_MAXAGE, ARP_MAXPENDING; [done | lia..].
      * intros _ j Hj Hji Hnj. cbn. rewrite Ha. auto.
    + done.
    + rewrite arp_entry_upd_eq by lia. done.
    + rewrite arp_entry_upd_eq by lia. done.
  - rewrite bool_decide_false by done. split_and!; done.
Qed.

(** [etharp_query] after the entry was found. *)
Lemma query_unfold np a q s :
  etharp_query np a q s =
  if ip4_addr_isbroadcast a (netif_of s np) || ip_addr_ismulticast a || ip_addr_isany a
  then (ERR_ARG, s)
  else
    match etharp_find_entry (Some a) ETHARP_FLAG_TRY_HARD s with
    | (None, s) => (ERR_MEM, s)
    | (Some i, s) =>
        let s := mark_pending i s in
        let '(result, s) :=
          if bool_decide (ae_state (arp_entry s i) = ETHARP_STATE_PENDING)
             || bool_decide (q = None)
          then etharp_request np a s else (ERR_MEM, s) in
        match q with
        | None => (result, s)
        | Some q =>
            if is_stable (ae_state (arp_entry s i)) then
              let s := set_cached_entry i s in
              etharp_send_ip np q (nif_hwaddr (netif_of s np)) (ae_ethaddr (arp_entry s i)) s
            else if bool_decide (ae_state (arp_entry s i) = ETHARP_STATE_PENDING) then
              match query_take q s with
              | (Some p, s) => (ERR_OK, upd_entry i (ae_set_q (Some p)) s)
              | (None, s) => (ERR_MEM, s)
              end
            else (result, s)
        end
    end.
Proof. reflexivity. Qed.

Lemma set_cached_inv i s : arp_inv s -> (i < ARP_TABLE_SIZE)%nat -> arp_inv (set_cached_entry i s).
Proof. intros [Hok _] Hi. by split. Qed.

Lemma query_keeps np a q s err s' : etharp_query np a q s = (err, s') -> keeps s s'.
Proof.
  rewrite query_unfold. destruct (_ || _ || _); [by intros [= _ <-] |].
  destruct (etharp_find_entry _ _ _) as [[i |] s1] eqn:E.
  2: { intros [= _ <-]. split; [by eapply find_entry_ifs |].
       intros Hinv. by rewrite (find_entry_none _ _ _ _ Hinv E). }
  cbn zeta. destruct (if _ || _ then _ else _) as [r s2] eqn:E2.
  assert (H12 : keeps (mark_pending i s1) s2 /\ arp_table s2 = arp_table (mark_pending i s1)).
  { destruct (_ || _) in E2; [| by injection E2 as _ <-].
    split; [by eapply request_keeps |]. by apply request_table in E2 as [? _]. }
  destruct H12 as [H12 Ht]. intros H.
  (* from the state s2 on, entry i being the live entry of a *)
  assert (Hk : same_ifs s2 s' /\ ((i < ARP_TABLE_SIZE)%nat -> nonempty (arp_entry s2 i) ->
                                  arp_inv s2 -> arp_inv s')).
  { destruct q as [q |]; [| by injection H as _ <-].
    destruct (is_stable _) eqn:Es.
    { split; [apply linkoutput_ifs in H; exact H |]. intros Hi Hn Hinv.
      eapply linkoutput_inv; [exact H | by apply set_cached_inv]. }
    destruct (decide (ae_state (arp_entry s2 i) = ETHARP_STATE_PENDING)) as [Ep | Ep].
    2: { rewrite bool_decide_false in H by done. by injection H as _ <-. }
    rewrite bool_decide_true in H by done.
    destruct (query_take q s2) as [[p |] s3] eqn:E3;
      apply query_take_keeps in E3 as [[Hs3 Hi3] Ht3]; injection H as _ <-.
    - split; [exact Hs3 |]. intros Hi Hn Hinv. specialize (Hi3 Hinv).
      assert (Hen : arp_entry s3 i = arp_entry s2 i) by (unfold arp_entry; by rewrite Ht3).
      apply upd_live_inv; rewrite ?Hen; [done | done | done | | done].
      pose proof (arp_entry_ok s2 i Hinv Hi) as [Hq Ha Hm Hp].
      split; cbn; [done | done | done | done].
    - split; [exact Hs3 | auto]. }
  split.
  - etrans; [by eapply find_entry_ifs |]. etrans; [| apply Hk].
    etrans; [apply mark_pending_ifs | apply H12].
  - intros Hinv. destruct (find_entry_inv _ _ _ _ _ Hinv E) as (Hinv1 & _ & _ & _ & _ & Hi & Ha & Hoth).
    destruct (mark_pending_spec a _ s i s1 Hinv E) as (Hm & _ & Hn & _).
    apply Hk; [done | | by apply H12]. unfold arp_entry. rewrite Ht. exact Hn.
Qed.

Lemma output_idx_keeps np q i s err s' :
  etharp_output_to_arp_index np q i s = (err, s') ->
  same_ifs s s' /\ ((i < ARP_TABLE_SIZE)%nat -> arp_inv s -> arp_inv s').
Proof.
  unfold etharp_output_to_arp_index. set (s1 := if _ && _ then _ else s).
  assert (H1 : same_ifs s s1 /\ ((i < ARP_TABLE_SIZE)%nat -> arp_inv s -> arp_inv s1)).
  { unfold s1. destruct (bool_decide _) eqn:Eb; [| by cbn]. apply bool_decide_eq_true in Eb.
    destruct (_ <=? _); cbn [andb]; [| done].
    destruct (etharp_request _ _ _) as [e s2] eqn:E.
    pose proof (request_keeps _ _ _ _ _ E) as [Hs Hi]. pose proof (request_table _ _ _ _ _ E) as [Ht _].
    destruct e; [| by auto..]. split; [exact Hs |]. intros Hlt Hinv. specialize (Hi Hinv).
    assert (Hen : arp_entry s2 i = arp_entry s i) by (unfold arp_entry; by rewrite Ht).
    pose proof (arp_entry_ok s i Hinv Hlt) as [Hq Ha Hm Hp].
    assert (Hne : nonempty (arp_entry s i)) by (unfold nonempty; congruence).
    apply upd_live_inv; rewrite ?Hen; [done | done | done | | done].
    split; cbn; [intros _; apply Hq; congruence | done | intros _; by apply Hm | done]. }
  intros H. split; [etrans; [apply H1 | by eapply linkoutput_ifs] |].
  intros Hi Hinv. eapply linkoutput_inv; [exact H |]. by apply H1.
Qed.

Lemma find_stable_spec dst k es i :
  find_stable dst k es = Some i ->
  (k <= i)%nat /\ exists e, es !! (i - k)%nat = Some e /\ stable e /\ ae_ipaddr e = dst.
Proof.
  revert k; induction es as [| e es IH]; intros k; cbn [find_stable]; [done |].
  destruct (_ && _) eqn:E.
  - intros [= ->]. split; [lia |]. rewrite Nat.sub_diag. exists e.
    apply andb_true_iff in E as [E1 E2]. unfold ip_addr_cmp in E2. zb. done.
  - intros [Hk He]%IH. split; [lia |].
    destruct (i - k)%nat as [| m] eqn:Em; [lia |]. cbn.
    by replace m with (i - S k)%nat by lia.
Qed.

Lemma find_stable_none dst k es :
  find_stable dst k es = None -> forall e, e ∈ es -> stable e -> ae_ipaddr e <> dst.
Proof.
  revert k; induction es as [| e es IH]; intros k; cbn [find_stable]; [intros _ e ?%not_elem_of_nil; done |].
  destruct (_ && _) eqn:E; [done |]. intros H e' [-> | He']%elem_of_cons Hs; [| by eapply IH].
  unfold stable in Hs. rewrite Hs in E. cbn in E. unfold ip_addr_cmp in E. zb. congruence.
Qed.

Lemma output_unicast_keeps np q a s err s' : output_unicast np q a s = (err, s') -> keeps s s'.
Proof.
  unfold output_unicast. destruct (next_hop _ _) as [dst |]; [| by intros [= _ <-]].
  destruct (_ && _).
  { intros H%output_idx_keeps. split; [apply H |]. intros Hinv. apply H; [apply Hinv | done]. }
  destruct (find_stable dst 0 (arp_table s)) as [i |] eqn:E; [| apply query_keeps].
  intros H%output_idx_keeps. split; [apply H |]. intros Hinv.
  apply find_stable_spec in E as (_ & e & He & _). rewrite Nat.sub_0_r in He.
  apply lookup_lt_Some in He. rewrite arp_len in He by done.
  apply H; [done | by apply set_cached_inv].
Qed.

Lemma output_keeps np q a s err s' : etharp_output np q a s = (err, s') -> keeps s s'.
Proof.
  unfold etharp_output. destruct (pbuf_header _ _); [| by intros [= _ <-]].
  destruct (ip4_addr_isbroadcast _ _); [apply linkoutput_keeps |].
  destruct (ip_addr_ismulticast _); [apply linkoutput_keeps | apply output_unicast_keeps].
Qed.

Lemma arp_input_keeps np eth p s : keeps s (etharp_arp_input np eth p s).
Proof.
  unfold etharp_arp_input. destruct (_ <? _); [done |]. destruct (_ || _); [done |].
  destruct (etharp_update_arp_entry _ _ _ _ _) as [e s1] eqn:E.
  apply update_arp_keeps in E.
  destruct (get16 (p_payload p) 20 =? ARP_REQUEST); [| done].
  match goal with |- keeps _ (if ?b then _ else _) => destruct b end; [| done].
  etrans; [exact E |].
  destruct (netif_linkoutput _ _ s1) as [e2 s2] eqn:E2. by eapply linkoutput_keeps.
Qed.

(** ** Ageing *)

Lemma tmr_iter_age k e :
  entry_ok e -> nonempty (Nat.iter k tmr_entry e) ->
  nonempty e /\ ae_ctime (Nat.iter k tmr_entry e) = ae_ctime e + Z.of_nat k
  /\ entry_ok (Nat.iter k tmr_entry e).
Proof.
  induction k as [| k IH]; intros He Hn.
  - split_and!; [done | cbn; lia | done].
  - change (Nat.iter (S k) tmr_entry e) with (tmr_entry (Nat.iter k tmr_entry e)) in *.
    destruct (tmr_entry_live _ Hn) as (Hn' & _ & Hc).
    destruct (IH He Hn') as (H0 & Hck & Hok). specialize (Hc Hok).
    split_and!; [done | lia | by apply tmr_entry_ok].
Qed.

Lemma tmr_pending e : ae_state (tmr_entry e) = ETHARP_STATE_PENDING -> ae_state e = ETHARP_STATE_PENDING.
Proof.
  unfold tmr_entry. destruct (bool_decide _); [done |]. destruct (_ || _); [done |].
  destruct (bool_decide _); done.
Qed.

Lemma tmr_iter_table k s :
  arp_table (Nat.iter k etharp_tmr s) = map (Nat.iter k tmr_entry) (arp_table s).
Proof.
  induction k as [| k IH].
  - symmetry. apply map_id.
  - change (Nat.iter (S k) etharp_tmr s) with (etharp_tmr (Nat.iter k etharp_tmr s)).
    cbn [arp_table etharp_tmr set_arp_table]. rewrite IH. by rewrite map_map.
Qed.

(** ** Frames *)

(** The driver sends the packet unchanged. *)
Lemma linkoutput_sent np p s :
  nif_linkoutput (netif_of s np) = Fn_hdkif_output ->
  netif_linkoutput np p s =
  (ERR_OK, set_wire (n_wire s ++ [mk_frame (nif_state (netif_of s np))
     (if p_tot_len p <? MIN_PKT_LEN then MIN_PKT_LEN else p_tot_len p) (p_bytes p)]) s).
Proof. unfold netif_linkoutput. by intros ->. Qed.

(** The frame [etharp_send_ip] emits for a packet with room for the header. *)
Definition ip_frame (n : netif) (dst : list Z) (bytes : list Z) : frame :=
  mk_frame (nif_state n)
    (if Zlen bytes <? MIN_PKT_LEN then MIN_PKT_LEN else Zlen bytes)
    (eth_header dst (nif_hwaddr n) ETHTYPE_IP ++ drop 14 bytes).

Lemma put0_drop bs l k : length bs = k -> (k <= length l)%nat -> put 0 bs l = bs ++ drop k l.
Proof. intros <- H. unfold put. by rewrite take_0. Qed.

Lemma eth_header_len dst src t : length dst = 6%nat -> length src = 6%nat ->
  length (eth_header dst src t) = 14%nat.
Proof. intros H1 H2. unfold eth_header, be16. rewrite !length_app, H1, H2. done. Qed.

Lemma send_ip_sent np p dst s :
  nif_linkoutput (netif_of s np) = Fn_hdkif_output ->
  length dst = 6%nat -> length (nif_hwaddr (netif_of s np)) = 6%nat -> 14 <= p_len p ->
  etharp_send_ip np p (nif_hwaddr (netif_of s np)) dst s =
  (ERR_OK, set_wire (n_wire s ++ [ip_frame (netif_of s np) dst (p_bytes p)]) s).
Proof.
  intros Hl Hd Hs Hp. unfold etharp_send_ip. rewrite linkoutput_sent by done.
  assert (H14 : (14 <= length (p_payload p))%nat) by (unfold p_len, Zlen in Hp; lia).
  set (h := eth_header dst _ _).
  assert (Hh : length h = 14%nat) by (by apply eth_header_len).
  assert (Hb : p_bytes (set_payload (put 0 h (p_payload p)) p) = h ++ drop 14 (p_bytes p)).
  { unfold p_bytes at 1. cbn. unfold p_payload at 1. cbn.
    rewrite (put0_drop h _ 14) by done. rewrite <- app_assoc. f_equal.
    unfold p_bytes. by rewrite drop_app_le. }
  assert (Ht : p_tot_len (set_payload (put 0 h (p_payload p)) p) = p_tot_len p).
  { unfold p_tot_len. rewrite Hb. unfold Zlen. f_equal.
    rewrite length_app, length_drop, Hh. unfold p_bytes. rewrite length_app. lia. }
  rewrite Ht. unfold ip_frame. fold h. by rewrite Hb.
Qed.

(** The configuration [netif_add] leaves an Ethernet interface in. *)
Definition netif_conf (n : netif) : Prop :=
  nif_linkoutput n = Fn_hdkif_output /\ nif_output n = Fn_etharp_output
  /\ length (nif_hwaddr n) = 6%nat.

(** The broadcast frame of a request, when its pbuf can be allocated. *)
Definition request_frame (n : netif) (a : Z) : frame :=
  mk_frame (nif_state n) MIN_PKT_LEN
    (arp_packet ethbroadcast (nif_hwaddr n) ARP_REQUEST (nif_hwaddr n) (nif_ip_addr n) ethzero a).

Lemma arp_packet_len ed es op hs ipsrc hd ipdst :
  length ed = 6%nat -> length es = 6%nat -> length hs = 6%nat -> length hd = 6%nat ->
  length (arp_packet ed es op hs ipsrc hd ipdst) = 42%nat.
Proof.
  intros H1 H2 H3 H4. unfold arp_packet. rewrite !length_app, H3, H4.
  rewrite eth_header_len by done. done.
Qed.

Lemma request_sent np a s :
  netif_conf (netif_of s np) -> n_heap s = [] ->
  etharp_request np a s
  = (ERR_OK, set_wire (n_wire s ++ [request_frame (netif_of s np) a]) s).
Proof.
  intros (Hl & _ & Hh) Hheap. unfold etharp_request, etharp_raw, net_pbuf_alloc.
  rewrite Hheap. cbn [pbuf_alloc_ram]. 
  destruct (pbuf_alloc_ram_ok PBUF_RAW SIZEOF_ETHARP_PACKET) as [p E]; [cbv; split; discriminate |].
  rewrite E. apply pbuf_alloc_ram_some in E as (E1 & E2 & _); [| by cbv].
  replace (set_heap [] s) with s by (destruct s; cbn in *; by subst).
  rewrite linkoutput_sent by done. set (k := arp_packet _ _ _ _ _ _ _).
  assert (Hk : length k = 42%nat) by (by apply arp_packet_len).
  assert (Hb : p_bytes (set_payload (put 0 k (p_payload p)) p) = k).
  { clearbody k. unfold p_bytes, p_payload at 1. cbn. rewrite E2. cbn. rewrite app_nil_r.
    unfold p_len, Zlen in E1. unfold put. rewrite take_0. cbn [app Nat.add].
    rewrite drop_ge; [apply app_nil_r |]. rewrite Hk. change SIZEOF_ETHARP_PACKET with 42 in E1. lia. }
  unfold p_tot_len. rewrite Hb. unfold Zlen at 1. rewrite Hk. done.
Qed.

Lemma request_wire np a s e s' :
  netif_conf (netif_of s np) -> etharp_request np a s = (e, s') ->
  exists w, n_wire s' = n_wire s ++ w /\ (w = [] \/ w = [request_frame (netif_of s np) a]).
Proof.
  intros Hconf H. unfold etharp_request, etharp_raw, net_pbuf_alloc in H.
  destruct (pbuf_alloc_ram _ _ (n_heap s)) as [[p |] h] eqn:Ea.
  2: { injection H as _ <-. exists []. rewrite app_nil_r. auto. }
  (* a served request is the one of the all-success heap *)
  pose proof (request_sent np a (set_heap [] s) Hconf eq_refl) as Hr.
  unfold etharp_request, etharp_raw, net_pbuf_alloc in Hr.
  assert (Ep : pbuf_alloc_ram PBUF_RAW SIZEOF_ETHARP_PACKET (n_heap (set_heap [] s)) = (Some p, [])).
  { revert Ea. unfold pbuf_alloc_ram. cbn [n_heap set_heap].
    change (mem_malloc _ []) with (true, @nil bool).
    destruct (mem_malloc _ (n_heap s)) as [[] ?]; [| done]. by intros [= <- _]. }
  rewrite Ep in Hr. destruct Hconf as (Hl & _ & _).
  rewrite linkoutput_sent in Hr, H by done. injection Hr as Hr. injection H as _ <-.
  eexists. split; [reflexivity | right]. cbn in Hr |- *.
  apply app_inv_head in Hr. exact Hr.
Qed.

(** Only interfaces and heap matter for what a request sends. *)
Lemma set_wire_table w s : arp_table (set_wire w s) = arp_table s.
Proof. done. Qed.
Lemma set_wire_netif_of w s p : netif_of (set_wire w s) p = netif_of s p.
Proof. done. Qed.
Lemma set_wire_entry w s i : arp_entry (set_wire w s) i = arp_entry s i.
Proof. done. Qed.

(** An address the cache may hold. *)
Definition unicast (n : netif) (a : Z) : Prop :=
  ip_addr_isany a = false /\ ip4_addr_isbroadcast a n = false /\ ip_addr_ismulticast a = false.

(** Learning an address that has a live entry. *)
Lemma update_known np a mac flags s i :
  arp_inv s -> netif_conf (netif_of s np) -> unicast (netif_of s np) a -> length mac = 6%nat ->
  (i < ARP_TABLE_SIZE)%nat -> nonempty (arp_entry s i) -> ae_ipaddr (arp_entry s i) = a ->
  (forall p, ae_q (arp_entry s i) = Some p -> 14 <= p_len p) ->
  exists s', etharp_update_arp_entry np a mac flags s = (ERR_OK, s')
    /\ arp_entry s' i = mk_entry None a (Some np) mac ETHARP_STATE_STABLE 0
    /\ n_wire s' = n_wire s ++
       match ae_q (arp_entry s i) with
       | Some p => [ip_frame (netif_of s np) mac (p_bytes p)]
       | None => [] end.
Proof.
  intros Hinv (Hl & Ho & Hh) (H1 & H2 & H3) Hmac Hi Hn Ha Hq.
  pose proof (arp_len s Hinv) as Hlen.
  unfold etharp_update_arp_entry. rewrite H1, H2, H3. cbn [orb].
  pose proof (find_entry_spec a flags s Hinv) as Hs.
  destruct (etharp_find_entry (Some a) flags s) as [[j |] s1].
  2: { destruct Hs as (_ & Hnone & _). exfalso. apply (Hnone (arp_entry s i)).
       - eapply list_elem_of_lookup_2, arp_lookup. lia.
       - split; [done | by rewrite Ha]. }
  assert (Hj : j = i /\ s1 = s).
  { destruct Hs as [Hj [[-> [Hnj [= Haj]]] | (_ & Hnone & _)]].
    - split; [| done]. destruct (decide (j = i)) as [| Hne]; [done |].
      exfalso. apply (arp_unique_ne s i j Hinv Hi Hj Hne Hn Hnj). congruence.
    - exfalso. apply (Hnone (arp_entry s i)); [| split; [done | by rewrite Ha]].
      eapply list_elem_of_lookup_2, arp_lookup. lia. }
  destruct Hj as [-> ->].
  rewrite arp_entry_upd_eq by lia. cbn [ae_q ae_set_ctime ae_set_ethaddr ae_set_netif ae_set_state].
  destruct (ae_q (arp_entry s i)) as [p |] eqn:Eq.
  - rewrite upd_entry_upd by lia. set (s2 := upd_entry i _ s).
    rewrite (send_ip_sent np p mac s2); [| done.. | auto].
    eexists. split_and!; [reflexivity | | done].
    rewrite set_wire_entry. unfold s2. rewrite arp_entry_upd_eq by lia.
    destruct (arp_entry s i). cbn in *. by subst.
  - eexists. split_and!; [reflexivity | | cbn; by rewrite app_nil_r].
    rewrite arp_entry_upd_eq by lia. destruct (arp_entry s i). cbn in *. by subst.
Qed.

Lemma query_take_single q s :
  n_heap s = [] -> pb_next q = [] -> ps_type (pb_first q) = PBUF_RAM -> p_len q <= 30000 ->
  exists p, query_take q s = (Some p, s) /\ p_bytes p = p_bytes q /\ p_len p = p_len q.
Proof.
  intros Hh Hn Ht Hl. unfold query_take. cbn [first_not_rom]. rewrite Ht, Hn.
  unfold net_pbuf_alloc. rewrite Hh. cbn [map]. change (mjoin [ps_data (pb_first q)]) with (p_payload q ++ []).
  rewrite app_nil_r. fold (p_len q).
  destruct (pbuf_alloc_ram_ok PBUF_RAW (p_len q)) as [p E]; [split; [apply Zlen_nonneg | done] |].
  rewrite E. apply pbuf_alloc_ram_some in E as (E1 & E2 & _); [| apply Zlen_nonneg].
  replace (set_heap [] s) with s by (destruct s; cbn in *; by subst).
  destruct (pbuf_copy_single p q Hn E2 E1) as (p' & -> & Hb & Hn' & _).
  exists p'. split_and!; [done | done |]. unfold p_bytes in Hb. rewrite Hn, Hn' in Hb. cbn in Hb.
  rewrite !app_nil_r in Hb. unfold p_len. by rewrite Hb.
Qed.

(** Queueing on an unresolved address. *)
Lemma query_unresolved np a q s :
  arp_inv s -> netif_conf (netif_of s np) -> unicast (netif_of s np) a ->
  (forall e, e ∈ arp_table s -> stable e -> ae_ipaddr e <> a) ->
  n_heap s = [] -> pb_next q = [] -> ps_type (pb_first q) = PBUF_RAM -> p_len q <= 30000 ->
  exists s' i p, etharp_query np a (Some q) s = (ERR_OK, s')
    /\ (i < ARP_TABLE_SIZE)%nat /\ ae_state (arp_entry s' i) = ETHARP_STATE_PENDING
    /\ ae_ipaddr (arp_entry s' i) = a /\ ae_q (arp_entry s' i) = Some p
    /\ p_bytes p = p_bytes q /\ p_len p = p_len q
    /\ n_wire s' = n_wire s ++ [request_frame (netif_of s np) a]
    /\ arp_inv s' /\ same_ifs s s'.
Proof.
  intros Hinv Hconf (H1 & H2 & H3) Hns Hheap Hqn Hqt Hql.
  destruct (etharp_query np a (Some q) s) as [err s'] eqn:Eq.
  pose proof (query_keeps _ _ _ _ _ _ Eq) as [Hifs Hk]. specialize (Hk Hinv).
  rewrite query_unfold, H1, H2, H3 in Eq. cbn [orb] in Eq.
  pose proof (find_entry_spec a ETHARP_FLAG_TRY_HARD s Hinv) as Hs.
  destruct (etharp_find_entry (Some a) ETHARP_FLAG_TRY_HARD s) as [[i |] s1] eqn:E.
  2: { destruct Hs as (_ & _ & [Hf | [_ Ht]]); [by destruct Hf | by destruct Ht]. }
  destruct (find_entry_inv _ _ _ _ _ Hinv E) as (Hinv1 & Hif1 & Hw1 & Hh1 & _ & Hi & Ha & Hoth).
  destruct (mark_pending_spec _ _ _ _ _ Hinv E) as (Hinv2 & Hif2 & Hn2 & Ha2).
  set (s2 := mark_pending i s1) in *. cbn zeta in Eq.
  assert (Hp : ae_state (arp_entry s2 i) = ETHARP_STATE_PENDING).
  { destruct Hs as [_ [[-> Hm] | (_ & _ & _ & _ & ->)]].
    - unfold s2, mark_pending in *. rewrite bool_decide_false in * by apply Hm.
      destruct (nonempty_cases _ (proj1 Hm)) as [Hst | [[? _] | [? _]]]; [| done | done].
      exfalso. apply (Hns (arp_entry s i)); [| done | done].
      eapply list_elem_of_lookup_2, arp_lookup. by rewrite arp_len.
    - unfold s2, mark_pending. rewrite !arp_entry_upd_eq by (rewrite ?arp_len; done).
      cbn. rewrite bool_decide_true by done.
      rewrite arp_entry_upd_eq by (rewrite arp_len; done). done. }
  assert (Hw2 : n_wire s2 = n_wire s /\ n_heap s2 = []).
  { assert (H12 : n_wire s2 = n_wire s1 /\ n_heap s2 = n_heap s1)
      by (unfold s2, mark_pending; destruct (bool_decide (ae_state (arp_entry s1 i) = ETHARP_STATE_EMPTY)); split; reflexivity).
    destruct H12 as [-> ->]. by rewrite Hw1, Hh1. }
  destruct Hw2 as [Hw2 Hh2].
  assert (Hnp : netif_of s2 np = netif_of s np)
    by (rewrite (same_ifs_netif_of s1 s2) by done; by apply same_ifs_netif_of).
  rewrite (bool_decide_true _ Hp) in Eq. cbn [orb] in Eq.
  rewrite (request_sent np a s2) in Eq by (rewrite ?Hnp; done).
  rewrite !set_wire_entry, Hp, bool_decide_true in Eq by done. cbn [is_stable] in Eq.
  set (s3 := set_wire _ s2) in *.
  destruct (query_take_single q s3) as (p & Ep & Hpb & Hpl); [done.. |].
  rewrite Ep in Eq. injection Eq as <- <-.
  assert (Hl3 : (i < length (arp_table s3))%nat)
    by (unfold s3; rewrite set_wire_table, arp_len; done).
  exists (upd_entry i (ae_set_q (Some p)) s3), i, p.
  rewrite !arp_entry_upd_eq by done. cbn [ae_state ae_ipaddr ae_q ae_set_q].
  unfold s3. rewrite set_wire_entry. split_and!; try done. cbn. by rewrite Hw2, Hnp.
Qed.

Lemma p_bytes_set_payload' d p : p_bytes (set_payload d p) = d ++ mjoin (map ps_data (pb_next p)).
Proof. reflexivity. Qed.

(** Reading back the fields of the rewritten request. *)
Lemma reply_fields ip hw d rest :
  length hw = 6%nat -> (42 <= length d)%nat -> 0 < ip < 4294967296 ->
  let f := arp_reply_payload ip hw d ++ rest in
  take 6 f = take 6 (drop 22 d) /\ take 6 (drop 6 f) = hw
  /\ take 10 (drop 12 f) = take 8 (drop 12 d) ++ be16 ARP_REPLY
  /\ take 6 (drop 22 f) = hw /\ get32 f 28 = ip
  /\ take 6 (drop 32 f) = take 6 (drop 22 d) /\ take 4 (drop 38 f) = take 4 (drop 28 d).
Proof.
  intros Hh Hd Hip.
  do 6 (destruct hw as [| ? hw]; [discriminate Hh |]). destruct hw; [| discriminate Hh].
  do 42 (destruct d as [| ? d]; [exfalso; cbn in Hd; lia |]).
  cbn zeta. split_and!; try reflexivity.
  change (get32 _ 28) with (get32 (be32 ip) 0).
  unfold get32, get16, byte_at, be32. cbn [nth].
  rewrite !Z.shiftr_div_pow2 by lia. change (2 ^ 24) with 16777216. change (2 ^ 16) with 65536.
  change (2 ^ 8) with 256. Z.div_mod_to_equations. lia.
Qed.

(** Sending through a stable entry, preceded by a new request when the entry is
    about to expire. *)
Lemma output_idx_sent np q i s :
  arp_inv s -> netif_conf (netif_of s np) -> (i < ARP_TABLE_SIZE)%nat ->
  length (ae_ethaddr (arp_entry s i)) = 6%nat -> 14 <= p_len q ->
  exists s' w, etharp_output_to_arp_index np q i s = (ERR_OK, s')
    /\ n_wire s' = n_wire s ++ w ++ [ip_frame (netif_of s np) (ae_ethaddr (arp_entry s i)) (p_bytes q)]
    /\ (w = [] \/ w = [request_frame (netif_of s np) (ae_ipaddr (arp_entry s i))]).
Proof.
  intros Hinv Hconf Hi Hmac Hq. pose proof Hconf as (Hl & Ho & Hh).
  unfold etharp_output_to_arp_index. set (s1 := if _ && _ then _ else s).
  assert (H1 : netif_of s1 np = netif_of s np /\ ae_ethaddr (arp_entry s1 i) = ae_ethaddr (arp_entry s i)
     /\ exists w, n_wire s1 = n_wire s ++ w
       /\ (w = [] \/ w = [request_frame (netif_of s np) (ae_ipaddr (arp_entry s i))])).
  { unfold s1. destruct (bool_decide _ && _); [| split_and!; [done | done |]; exists []; rewrite app_nil_r; auto].
    destruct (etharp_request np (ae_ipaddr (arp_entry s i)) s) as [e s2] eqn:E.
    pose proof (request_keeps _ _ _ _ _ E) as [Hifs _]. pose proof (request_table _ _ _ _ _ E) as [Ht _].
    assert (Hen : arp_entry s2 i = arp_entry s i) by (unfold arp_entry; by rewrite Ht).
    assert (Hlen : (i < length (arp_table s2))%nat) by (rewrite Ht, arp_len; done).
    assert (Hw : exists w, n_wire s2 = n_wire s ++ w
       /\ (w = [] \/ w = [request_frame (netif_of s np) (ae_ipaddr (arp_entry s i))])).
    { by apply request_wire with e. }
    destruct e; (split_and!; [by apply same_ifs_netif_of | | done]);
      rewrite ?arp_entry_upd_eq by done; cbn; by rewrite Hen. }
  destruct H1 as (Hnp & Hea & w & Hw & Hwc). rewrite Hnp, Hea.
  pose proof (send_ip_sent np q (ae_ethaddr (arp_entry s i)) s1) as Hsend.
  rewrite Hnp in Hsend. rewrite Hsend by done.
  eexists _, w. split_and!; [reflexivity | | done]. cbn. by rewrite Hw, app_assoc.
Qed.

Lemma header_bytes q q' n :
  0 < n -> pbuf_header q n = Some q' -> n <= p_len q' /\ drop (Z.to_nat n) (p_bytes q') = p_bytes q
    /\ Zlen (p_bytes q') = n + Zlen (p_bytes q).
Proof.
  intros Hn H. apply pbuf_header_grow in H as (hd & Hl & Hp & Hnx & _); [| done].
  unfold p_len, p_bytes. rewrite Hp, Hnx. split_and!.
  - rewrite Zlen_app. pose proof (Zlen_nonneg (p_payload q)). lia.
  - rewrite <- app_assoc. rewrite drop_app_ge by (unfold Zlen in Hl; lia).
    replace (Z.to_nat n - length hd)%nat with 0%nat by (unfold Zlen in Hl; lia). by rewrite drop_0.
  - rewrite !Zlen_app. lia.
Qed.

(** The frame carrying the IP packet [bytes]. *)
Definition data_frame (n : netif) (dst : list Z) (bytes : list Z) : frame :=
  mk_frame (nif_state n)
    (if 14 + Zlen bytes <? MIN_PKT_LEN then MIN_PKT_LEN else 14 + Zlen bytes)
    (eth_header dst (nif_hwaddr n) ETHTYPE_IP ++ bytes).

Lemma ip_frame_header n dst q q' :
  pbuf_header q SIZEOF_ETH_HDR = Some q' -> ip_frame n dst (p_bytes q') = data_frame n dst (p_bytes q).
Proof.
  intros H. apply header_bytes in H as (_ & Hd & Hl); [| done].
  unfold ip_frame, data_frame. change (Z.to_nat SIZEOF_ETH_HDR) with 14%nat in Hd.
  change SIZEOF_ETH_HDR with 14 in Hl. by rewrite Hd, Hl.
Qed.

Lemma update_arp_wire np a mac flags s err s' :
  etharp_update_arp_entry np a mac flags s = (err, s') ->
  exists w, n_wire s' = n_wire s ++ w /\ (length w <= 1)%nat.
Proof.
  unfold etharp_update_arp_entry.
  destruct (_ || _ || _); [intros [= _ <-]; exists []; rewrite app_nil_r; auto |].
  destruct (etharp_find_entry _ _ _) as [r s1] eqn:E.
  assert (Hw : n_wire s1 = n_wire s).
  { unfold etharp_find_entry in E. repeat case_match; by injection E as _ <-. }
  destruct r as [i |]; [| intros [= _ <-]; exists []; rewrite app_nil_r; auto].
  destruct (ae_q _) as [p |]; [| intros [= _ <-]; exists []; rewrite app_nil_r; auto].
  unfold etharp_send_ip, netif_linkoutput, hdkif_output.
  destruct (nif_linkoutput _); intros [= _ <-]; cbn; rewrite Hw;
    (eexists; split; [reflexivity | cbn; lia]) || (exists []; rewrite app_nil_r; split; [done | cbn; lia]).
Qed.

Lemma output_resolved_sent np q ipaddr dst i s
  (Hinv : arp_inv s) (Hconf : netif_conf (netif_of s np))
  (Hq : exists q', pbuf_header q SIZEOF_ETH_HDR = Some q')
  (Hbc : ip4_addr_isbroadcast ipaddr (netif_of s np) = false)
  (Hmc : ip_addr_ismulticast ipaddr = false)
  (Hhop : next_hop (netif_of s np) ipaddr = Some dst)
  (Hi : (i < ARP_TABLE_SIZE)%nat) (Hst : stable (arp_entry s i))
  (Hip : ae_ipaddr (arp_entry s i) = dst) (Hmac : length (ae_ethaddr (arp_entry s i)) = 6%nat) :
  exists s' w, etharp_output np q ipaddr s = (ERR_OK, s')
    /\ n_wire s' = n_wire s ++ w
         ++ [data_frame (netif_of s np) (ae_ethaddr (arp_entry s i)) (p_bytes q)]
    /\ (w = [] \/ w = [request_frame (netif_of s np) dst]).
Proof.
  destruct Hq as [q' Eq]. unfold etharp_output. rewrite Eq, Hbc, Hmc.
  unfold output_unicast. rewrite Hhop.
  assert (Hne : forall j, stable (arp_entry s j) -> nonempty (arp_entry s j))
    by (unfold stable, nonempty; intros j Hj E; by rewrite E in Hj).
  assert (Huniq : forall j, (j < ARP_TABLE_SIZE)%nat -> stable (arp_entry s j) ->
            ae_ipaddr (arp_entry s j) = dst -> j = i).
  { intros j Hj Hsj Hdj. destruct (decide (j = i)) as [| Hji]; [done |].
    exfalso. apply (arp_unique_ne s i j Hinv Hi Hj Hji); auto. congruence. }
  assert (Hsend : forall s0, s0 = set_cached_entry i s -> exists s' w,
    etharp_output_to_arp_index np q' i s0 = (ERR_OK, s')
    /\ n_wire s' = n_wire s ++ w
         ++ [data_frame (netif_of s np) (ae_ethaddr (arp_entry s i)) (p_bytes q)]
    /\ (w = [] \/ w = [request_frame (netif_of s np) dst])).
  { intros s0 ->. destruct (header_bytes q q' SIZEOF_ETH_HDR) as (Hp & _ & _); [done | done |].
    destruct (output_idx_sent np q' i (set_cached_entry i s)) as (s' & w & E & Hw & Hc);
      [by apply set_cached_inv | done | done | done | done |].
    exists s', w. split; [done |]. split.
    - rewrite <- (ip_frame_header _ _ _ _ Eq). exact Hw.
    - rewrite <- Hip. exact Hc. }
  destruct (is_stable _ && _) eqn:Ec.
  { apply andb_true_iff in Ec as [Es Ed]. unfold ip_addr_cmp in Ed. zb.
    assert (Hci : etharp_cached_entry s = i) by (apply Huniq; [apply Hinv | done | done]).
    rewrite Hci. apply Hsend. destruct s; cbn in *; by subst. }
  destruct (find_stable dst 0 (arp_table s)) as [j |] eqn:Ef.
  - apply find_stable_spec in Ef as (_ & e & He & Hse & Hde). rewrite Nat.sub_0_r in He.
    pose proof (lookup_lt_Some _ _ _ He) as Hj. rewrite arp_len in Hj by done.
    apply arp_entry_lookup in He. subst e. assert (j = i) as -> by (apply Huniq; done).
    by apply Hsend.
  - exfalso. apply (find_stable_none _ _ _ Ef (arp_entry s i)); [| done | done].
    eapply list_elem_of_lookup_2, arp_lookup. by rewrite arp_len.
Qed.

(** The answer to a request for the interface's address. *)
Lemma arp_reply_sent np p s
  (Hconf : netif_conf (netif_of s np)) (Hp : SIZEOF_ETHARP_PACKET <= p_len p)
  (Hhw : get16 (p_payload p) 14 = HWTYPE_ETHERNET) (Hpr : get16 (p_payload p) 16 = ETHTYPE_IP)
  (Hhl : byte_at (p_payload p) 18 = 6) (Hpl : byte_at (p_payload p) 19 = 4)
  (Hop : get16 (p_payload p) 20 = ARP_REQUEST)
  (Hdst : get32 (p_payload p) 38 = nif_ip_addr (netif_of s np))
  (Hip : 0 < nif_ip_addr (netif_of s np) < 4294967296) :
  exists w f, n_wire (etharp_arp_input np (nif_hwaddr (netif_of s np)) p s) = n_wire s ++ w ++ [f]
    /\ (length w <= 1)%nat
    /\ fr_hdkif f = nif_state (netif_of s np)
    /\ take 6 (fr_data f) = take 6 (drop 22 (p_payload p))
    /\ take 6 (drop 6 (fr_data f)) = nif_hwaddr (netif_of s np)
    /\ take 10 (drop 12 (fr_data f)) = take 8 (drop 12 (p_payload p)) ++ be16 ARP_REPLY
    /\ take 6 (drop 22 (fr_data f)) = nif_hwaddr (netif_of s np)
    /\ get32 (fr_data f) 28 = nif_ip_addr (netif_of s np)
    /\ take 6 (drop 32 (fr_data f)) = take 6 (drop 22 (p_payload p))
    /\ take 4 (drop 38 (fr_data f)) = take 4 (drop 28 (p_payload p)).
Proof.
  unfold etharp_arp_input.
  destruct (Z.ltb_spec (p_len p) SIZEOF_ETHARP_PACKET); [lia |].
  rewrite Hhw, Hpr, Hhl, Hpl, Hop, Hdst. cbn [negb orb Z.eqb].
  assert (Hany : ip_addr_isany (nif_ip_addr (netif_of s np)) = false)
    by (apply Z.eqb_neq; unfold IPADDR_ANY; lia).
  rewrite Hany. unfold ip_addr_cmp. rewrite !Z.eqb_refl. cbn [negb orb].
  destruct (etharp_update_arp_entry _ _ _ _ _) as [e s1] eqn:E.
  destruct (update_arp_wire _ _ _ _ _ _ _ E) as (w & Hw & Hlw).
  apply update_arp_keeps in E as [Hifs _]. pose proof (same_ifs_netif_of _ _ np Hifs) as Hnp.
  destruct Hconf as (Hl & _ & Hh). rewrite linkoutput_sent by (by rewrite Hnp).
  rewrite Hnp. eexists w, _. cbn [snd n_wire set_wire]. split; [rewrite Hw, <- app_assoc; reflexivity |].
  split; [done |]. split; [done |]. cbn [fr_data]. rewrite p_bytes_set_payload'.
  apply reply_fields; [done | | done]. unfold p_len, Zlen in Hp. change SIZEOF_ETHARP_PACKET with 42 in Hp. lia.
Qed.

(** ** Properties *)

(** The operations of the cache, in any order. *)
Inductive arp_step : net -> net -> Prop :=
| arp_step_tmr s : arp_step s (etharp_tmr s)
| arp_step_update np a mac flags s err s' :
    etharp_update_arp_entry np a mac flags s = (err, s') -> arp_step s s'
| arp_step_cleanup np s : arp_step s (etharp_cleanup_netif np s)
| arp_step_query np a q s err s' : etharp_query np a q s = (err, s') -> arp_step s s'
| arp_step_output np q a s err s' : etharp_output np q a s = (err, s') -> arp_step s s'
| arp_step_input np mac p s : arp_step s (etharp_arp_input np mac p s).

(** The ARP cache stays well formed: in every state reachable from reset by
    ticks, cache updates, interface clean-ups, queries, transmissions and
    received ARP packets, the table has its 10 entries, no two live entries hold
    the same IP address, only pending entries queue a packet, and the ages are
    below the limits of the timer. *)
Theorem arp_reachable_ok s (Hr : rtc arp_step net_init s) : arp_ok (arp_table s).
Proof.
  assert (H : arp_inv s); [| by destruct H].
  revert Hr. generalize arp_inv_init. generalize net_init. intros s0 Hinv Hr.
  induction Hr as [| s1 s2 s3 Hstep _ IH]; [done |]. apply IH. clear IH.
  destruct Hstep.
  - by apply tmr_inv.
  - eapply update_arp_keeps; eassumption.
  - by apply cleanup_inv.
  - eapply query_keeps; eassumption.
  - eapply output_keeps; eassumption.
  - by apply arp_input_keeps.
Qed.

Lemma arp_reachable_ok_witness :
  arp_ok (arp_table (etharp_tmr (snd (etharp_update_arp_entry (HdkNetIF 0) 0x0a000001
    [1; 2; 3; 4; 5; 6] ETHARP_FLAG_TRY_HARD net_init)))).
Proof.
  apply (arp_reachable_ok). eapply rtc_l; [eapply (arp_step_update (HdkNetIF 0) 0x0a000001
    [1; 2; 3; 4; 5; 6] ETHARP_FLAG_TRY_HARD); apply surjective_pairing |].
  eapply rtc_l; [apply arp_step_tmr | apply rtc_refl].
Defined.

(** Looking up an address for transmission always succeeds and destroys as
    little as possible: with [ETHARP_FLAG_TRY_HARD] alone [etharp_find_entry]
    returns either the live entry of the address, the table unchanged, or an
    entry it reset for the address, every other entry unchanged; the entry given
    up is an empty one if there is any, else the oldest stable one, else the
    oldest pending one without a queued packet, else the oldest pending one. *)
Theorem find_entry_try_hard a s (Hinv : arp_inv s) :
  exists i s', etharp_find_entry (Some a) ETHARP_FLAG_TRY_HARD s = (Some i, s')
  /\ (i < ARP_TABLE_SIZE)%nat
  /\ ((s' = s /\ nonempty (arp_entry s i) /\ ae_ipaddr (arp_entry s i) = a)
      \/ ((forall e, e ∈ arp_table s -> nonempty e -> ae_ipaddr e <> a)
          /\ recyclable (arp_table s) i /\ s' = upd_entry i (fresh_entry a) s)).
Proof.
  pose proof (find_entry_spec a ETHARP_FLAG_TRY_HARD s Hinv) as H.
  destruct (etharp_find_entry _ _ _) as [[i |] s'].
  - exists i, s'. destruct H as [Hi [[-> [Hn [= ->]]] | (_ & Hnone & Hr & _ & ->)]].
    + split_and!; auto.
    + split_and!; [done | done |]. right. split_and!; [| done | done].
      intros e He Hn Ha. apply (Hnone e He). split; [done | by rewrite Ha].
  - destruct H as (_ & _ & [Hf | [_ Ht]]); exfalso; [by apply Hf | by apply Ht].
Qed.

Lemma find_entry_try_hard_witness :
  exists i s', etharp_find_entry (Some 7) ETHARP_FLAG_TRY_HARD net_init = (Some i, s')
  /\ (i < ARP_TABLE_SIZE)%nat
  /\ ((s' = net_init /\ nonempty (arp_entry net_init i) /\ ae_ipaddr (arp_entry net_init i) = 7)
      \/ ((forall e, e ∈ arp_table net_init -> nonempty e -> ae_ipaddr e <> 7)
          /\ recyclable (arp_table net_init) i /\ s' = upd_entry i (fresh_entry 7) net_init)).
Proof. apply (find_entry_try_hard 7 net_init arp_inv_init). Defined.

(** C36. Stale mappings disappear: whatever a well-formed cache holds, after 2
    ticks of [etharp_tmr] nothing is pending any more, and after 240 ticks (20
    minutes) without an update every entry is empty. *)
Theorem arp_expiry s (Hinv : arp_inv s) :
  (forall e, e ∈ arp_table (Nat.iter 2 etharp_tmr s) -> ae_state e <> ETHARP_STATE_PENDING)
  /\ (forall e, e ∈ arp_table (Nat.iter 240 etharp_tmr s) -> ae_state e = ETHARP_STATE_EMPTY).
Proof.
  destruct Hinv as [[_ He _] _]. rewrite Forall_forall in He. split; intros e;
    rewrite tmr_iter_table; intros (e0 & -> & He0)%list_elem_of_fmap; specialize (He e0 He0).
  - intros Hp.
    destruct (tmr_iter_age 2 e0 He) as (_ & Hc & Hok);
      [intros E; rewrite E in Hp; discriminate Hp |].
    pose proof (eo_maxpending _ Hok Hp) as Hm. unfold ARP_MAXPENDING in Hm.
    pose proof (eo_age _ He). lia.
  - destruct (decide (ae_state (Nat.iter 240 tmr_entry e0) = ETHARP_STATE_EMPTY)) as [| Hn]; [done |].
    destruct (tmr_iter_age 240 e0 He Hn) as (_ & Hc & Hok).
    pose proof (eo_maxage _ Hok Hn) as Hm. unfold ARP_MAXAGE in Hm.
    pose proof (eo_age _ He). lia.
Qed.

Lemma arp_expiry_witness :
  (forall e, e ∈ arp_table (Nat.iter 2 etharp_tmr net_init) -> ae_state e <> ETHARP_STATE_PENDING)
  /\ (forall e, e ∈ arp_table (Nat.iter 240 etharp_tmr net_init) -> ae_state e = ETHARP_STATE_EMPTY).
Proof. apply (arp_expiry net_init arp_inv_init). Defined.

(** C37. Address resolution delivers the packet: sending to a unicast address
    without a stable mapping answers [ERR_OK], broadcasts one ARP request of the
    sending interface for that address and queues a copy of the packet; when the
    address is then learned (any flags), exactly the queued bytes leave in one
    frame addressed to the learned MAC, with this interface's MAC as source and
    the IP type, and nothing stays queued. *)
Theorem arp_resolve_sends np a q mac flags s
  (Hinv : arp_inv s) (Hconf : netif_conf (netif_of s np)) (Ha : unicast (netif_of s np) a)
  (Hns : forall e, e ∈ arp_table s -> stable e -> ae_ipaddr e <> a)
  (Hheap : n_heap s = []) (Hqn : pb_next q = []) (Hqt : ps_type (pb_first q) = PBUF_RAM)
  (Hql : 14 <= p_len q <= 30000) (Hmac : length mac = 6%nat) :
  exists s1 s2, etharp_query np a (Some q) s = (ERR_OK, s1)
    /\ n_wire s1 = n_wire s ++ [request_frame (netif_of s np) a]
    /\ etharp_update_arp_entry np a mac flags s1 = (ERR_OK, s2)
    /\ n_wire s2 = n_wire s1 ++ [ip_frame (netif_of s np) mac (p_bytes q)]
    /\ exists i, arp_entry s2 i = mk_entry None a (Some np) mac ETHARP_STATE_STABLE 0.
Proof.
  destruct (query_unresolved np a q s) as
    (s1 & i & p & E & Hi & Hst & Hip & Hq & Hb & Hlen & Hw & Hinv1 & Hifs); [done.. | lia |].
  pose proof (same_ifs_netif_of _ _ np Hifs) as Hnp.
  destruct (update_known np a mac flags s1 i) as (s2 & E2 & He & Hw2);
    [done | by rewrite Hnp | by rewrite Hnp | done | done | | done | |].
  { unfold nonempty. by rewrite Hst. }
  { intros p0. rewrite Hq. intros [= <-]. lia. }
  rewrite Hq, Hnp, Hb in Hw2. exists s1, s2. split_and!; eauto.
Qed.

(** The interface of the witnesses: 10.0.0.10/24 with the EMAC behind it. *)
Definition ex_netif : netif :=
  mk_netif None 0x0a00000a 0xffffff00 0x0a000001 Fn_ip_input Fn_etharp_output
    Fn_hdkif_output (St_hdkif 0) None MAX_TRANSFER_UNIT 6 [2; 0; 0; 0; 0; 1] 0x33 (101, 110) 0.
Definition ex_net : net := set_netifs {[ HdkNetIF 0 := ex_netif ]} net_init.
Definition ex_packet : pbuf :=
  mk_pbuf (mk_pseg PBUF_RAM (replicate 16 0) [0x45; 0; 0; 20; 1; 2; 3; 4; 5; 6; 7; 8; 9; 10; 11; 12])
    [] 0.

Lemma ex_arp_inv : arp_inv ex_net.
Proof. exact arp_inv_init. Qed.

Lemma arp_resolve_sends_witness :
  exists s1 s2, etharp_query (HdkNetIF 0) 0x0a000001 (Some ex_packet) ex_net = (ERR_OK, s1)
    /\ n_wire s1 = n_wire ex_net ++ [request_frame (netif_of ex_net (HdkNetIF 0)) 0x0a000001]
    /\ etharp_update_arp_entry (HdkNetIF 0) 0x0a000001 [9; 8; 7; 6; 5; 4] 2 s1 = (ERR_OK, s2)
    /\ n_wire s2 = n_wire s1 ++
         [ip_frame (netif_of ex_net (HdkNetIF 0)) [9; 8; 7; 6; 5; 4] (p_bytes ex_packet)]
    /\ exists i, arp_entry s2 i =
         mk_entry None 0x0a000001 (Some (HdkNetIF 0)) [9; 8; 7; 6; 5; 4] ETHARP_STATE_STABLE 0.
Proof.
  apply (arp_resolve_sends (HdkNetIF 0) 0x0a000001 ex_packet [9; 8; 7; 6; 5; 4] 2 ex_net ex_arp_inv);
    try (repeat split; reflexivity).
  - intros e (j & Hj)%list_elem_of_lookup. cbn in Hj.
    repeat (destruct j as [| j]; [injection Hj as <-; discriminate |]). discriminate Hj.
  - split; discriminate.
Defined.

(** Transmission over a resolved next hop: when the next hop of a unicast
    destination (itself on the local network, else the gateway) has a stable
    entry, [etharp_output] returns [ERR_OK] and puts on the wire the packet's
    bytes behind an Ethernet header from this interface to the MAC of that
    entry, preceded by at most one ARP request refreshing the entry. *)
Theorem output_resolved np q ipaddr dst i s
  (Hinv : arp_inv s) (Hconf : netif_conf (netif_of s np))
  (Hq : exists q', pbuf_header q SIZEOF_ETH_HDR = Some q')
  (Hbc : ip4_addr_isbroadcast ipaddr (netif_of s np) = false)
  (Hmc : ip_addr_ismulticast ipaddr = false)
  (Hhop : next_hop (netif_of s np) ipaddr = Some dst)
  (Hi : (i < ARP_TABLE_SIZE)%nat) (Hst : stable (arp_entry s i))
  (Hip : ae_ipaddr (arp_entry s i) = dst) (Hmac : length (ae_ethaddr (arp_entry s i)) = 6%nat) :
  exists s' w, etharp_output np q ipaddr s = (ERR_OK, s')
    /\ n_wire s' = n_wire s ++ w
         ++ [data_frame (netif_of s np) (ae_ethaddr (arp_entry s i)) (p_bytes q)]
    /\ (w = [] \/ w = [request_frame (netif_of s np) dst]).
Proof. by apply output_resolved_sent. Qed.

Definition ex_net_resolved : net :=
  snd (etharp_update_arp_entry (HdkNetIF 0) 0x0a000001 [9; 8; 7; 6; 5; 4] ETHARP_FLAG_TRY_HARD ex_net).

Lemma ex_arp_inv_resolved : arp_inv ex_net_resolved.
Proof.
  unfold ex_net_resolved. destruct (etharp_update_arp_entry _ _ _ _ _) as [e s] eqn:E.
  eapply update_arp_keeps; [exact E | exact ex_arp_inv].
Qed.

Lemma output_resolved_witness :
  exists s' w, etharp_output (HdkNetIF 0) ex_packet 0xc0a80101 ex_net_resolved = (ERR_OK, s')
    /\ n_wire s' = n_wire ex_net_resolved ++ w
         ++ [data_frame (netif_of ex_net_resolved (HdkNetIF 0)) [9; 8; 7; 6; 5; 4] (p_bytes ex_packet)]
    /\ (w = [] \/ w = [request_frame (netif_of ex_net_resolved (HdkNetIF 0)) 0x0a000001]).
Proof.
  apply (output_resolved (HdkNetIF 0) ex_packet 0xc0a80101 0x0a000001 0 ex_net_resolved
           ex_arp_inv_resolved); try reflexivity.
  - repeat split; reflexivity.
  - eexists. reflexivity.
  - apply Nat.lt_0_succ.
Defined.

(** ARP requests for the interface's own address are answered: a well-formed
    request whose target is the address of the interface produces, after at most
    one packet that was waiting for the requester, one frame to the requester's
    MAC from the interface's MAC: an ARP reply (opcode 2) binding the
    interface's IP address to its MAC and addressed to the requester's IP and
    MAC. *)
Theorem arp_input_replies np p s
  (Hconf : netif_conf (netif_of s np)) (Hp : SIZEOF_ETHARP_PACKET <= p_len p)
  (Hhw : get16 (p_payload p) 14 = HWTYPE_ETHERNET) (Hpr : get16 (p_payload p) 16 = ETHTYPE_IP)
  (Hhl : byte_at (p_payload p) 18 = 6) (Hpl : byte_at (p_payload p) 19 = 4)
  (Hop : get16 (p_payload p) 20 = ARP_REQUEST)
  (Hdst : get32 (p_payload p) 38 = nif_ip_addr (netif_of s np))
  (Hip : 0 < nif_ip_addr (netif_of s np) < 4294967296) :
  exists w f, n_wire (etharp_arp_input np (nif_hwaddr (netif_of s np)) p s) = n_wire s ++ w ++ [f]
    /\ (length w <= 1)%nat
    /\ fr_hdkif f = nif_state (netif_of s np)
    /\ take 6 (fr_data f) = take 6 (drop 22 (p_payload p))
    /\ take 6 (drop 6 (fr_data f)) = nif_hwaddr (netif_of s np)
    /\ take 10 (drop 12 (fr_data f)) = take 8 (drop 12 (p_payload p)) ++ be16 ARP_REPLY
    /\ take 6 (drop 22 (fr_data f)) = nif_hwaddr (netif_of s np)
    /\ get32 (fr_data f) 28 = nif_ip_addr (netif_of s np)
    /\ take 6 (drop 32 (fr_data f)) = take 6 (drop 22 (p_payload p))
    /\ take 4 (drop 38 (fr_data f)) = take 4 (drop 28 (p_payload p)).
Proof. by apply arp_reply_sent. Qed.

(** A request of 10.0.0.1 for 10.0.0.10. *)
Definition ex_request : pbuf :=
  mk_pbuf (mk_pseg PBUF_POOL [] (arp_packet ethbroadcast [9; 8; 7; 6; 5; 4] ARP_REQUEST
    [9; 8; 7; 6; 5; 4] 0x0a000001 ethzero 0x0a00000a)) [] 0.

Lemma arp_input_replies_witness :
  exists w f, n_wire (etharp_arp_input (HdkNetIF 0) [2; 0; 0; 0; 0; 1] ex_request ex_net)
      = n_wire ex_net ++ w ++ [f]
    /\ (length w <= 1)%nat
    /\ fr_hdkif f = St_hdkif 0
    /\ take 6 (fr_data f) = [9; 8; 7; 6; 5; 4]
    /\ take 6 (drop 6 (fr_data f)) = [2; 0; 0; 0; 0; 1]
    /\ take 10 (drop 12 (fr_data f)) = [8; 6; 0; 1; 8; 0; 6; 4; 0; 2]
    /\ take 6 (drop 22 (fr_data f)) = [2; 0; 0; 0; 0; 1]
    /\ get32 (fr_data f) 28 = 0x0a00000a
    /\ take 6 (drop 32 (fr_data f)) = [9; 8; 7; 6; 5; 4]
    /\ take 4 (drop 38 (fr_data f)) = [10; 0; 0; 1].
Proof.
  apply (arp_input_replies (HdkNetIF 0) ex_request ex_net);
    try (split; reflexivity); try reflexivity; try discriminate.
  repeat split; reflexivity.
Defined.
