(* ===== verification/Netif.v ===== *)
(** * The interface list (core/netif.c)

    [netif_list] is an intrusive list through the [next] fields of the two
    arrays of interfaces.  Loops over it are bounded by [NETIF_MAX], the number
    of [struct netif] objects of the program.  No TCP connection is ever opened
    by the program (the web server is not started), so the lists of TCP control
    blocks [netif_set_ipaddr] walks are empty; SNMP, IGMP, AutoIP, loopback and
    the status and link callbacks are not configured.  The program starts no DHCP
    client; what a link change does to one is in Dhcp.v. *)

From S2P Require Import Prelude NetTypes IpAddr Pbuf Net Chain Etharp.

Definition MAX_EMAC_INSTANCE : nat := 1.
Definition MAX_ALIAS_NETIF : nat := 7.
Definition NETIF_MAX : nat := MAX_EMAC_INSTANCE + MAX_ALIAS_NETIF.

(** The nodes [for (n = netif_list; n != NULL; n = n->next)] visits. *)
Definition netifs (s : net) : list netif_ptr := walk NETIF_MAX (netif_next s) (netif_list s).

Definition netif_set_ipaddr (p : netif_ptr) (ipaddr : Z) (s : net) : net :=
  upd_netif p (nif_set_ip_addr ipaddr) s.
Definition netif_set_gw (p : netif_ptr) (gw : Z) (s : net) : net :=
  upd_netif p (nif_set_gw gw) s.
Definition netif_set_netmask (p : netif_ptr) (netmask : Z) (s : net) : net :=
  upd_netif p (nif_set_netmask netmask) s.

Definition netif_set_addr (p : netif_ptr) (ipaddr netmask gw : Z) (s : net) : net :=
  let s := netif_set_ipaddr p ipaddr s in
  let s := netif_set_netmask p netmask s in
  netif_set_gw p gw s.

Definition netif_set_default (d : option netif_ptr) (s : net) : net := set_netif_default d s.

(** The fields [netif_add] resets and assigns before [netif_set_addr]. *)
Definition netif_reset (state : netif_state_ptr) (num : Z) (input : netif_fn) (n : netif) : netif :=
  mk_netif (nif_next n) 0 0 0 input (nif_output n) (nif_linkoutput n) state None
    (nif_mtu n) (nif_hwaddr_len n) (nif_hwaddr n) 0 (nif_name n) num.

(** [netif_add]: the value is whether the interface was added ([netif] or
    [NULL]).  [init] is the initialisation callback. *)
Definition netif_add (p : netif_ptr) (ipaddr netmask gw : Z) (state : netif_state_ptr)
  (init : netif_ptr -> net -> err_t * net) (input : netif_fn) (s : net) : bool * net :=
  let s := upd_netif p (netif_reset state (netif_num s) input) s in
  let s := set_netif_num (u8 (netif_num s + 1)) s in
  let s := netif_set_addr p ipaddr netmask gw s in
  let '(err, s) := init p s in
  if negb (bool_decide (err = ERR_OK)) && negb (bool_decide (err = ERR_CONN)) then (false, s)
  else
    let s := upd_netif p (nif_set_next (netif_list s)) s in
    (true, set_netif_list (Some p) s).

(** [netif_set_up], [netif_set_down]. *)
Definition netif_set_up (p : netif_ptr) (s : net) : net :=
  if has_flag (netif_of s p) NETIF_FLAG_UP then s
  else
    let s := upd_netif p (fun n => nif_set_flags (Z.lor (nif_flags n) NETIF_FLAG_UP) n) s in
    if has_flag (netif_of s p) NETIF_FLAG_LINK_UP && has_flag (netif_of s p) NETIF_FLAG_ETHARP
    then snd (etharp_gratuitous p s) else s.

Definition netif_set_down (p : netif_ptr) (s : net) : net :=
  if has_flag (netif_of s p) NETIF_FLAG_UP then
    let s := upd_netif p (fun n => nif_set_flags (Z.land (nif_flags n) (Z.lnot NETIF_FLAG_UP)) n) s in
    if has_flag (netif_of s p) NETIF_FLAG_ETHARP then etharp_cleanup_netif p s else s
  else s.

Definition netif_set_link_up (p : netif_ptr) (s : net) : net :=
  if has_flag (netif_of s p) NETIF_FLAG_LINK_UP then s
  else
    let s := upd_netif p (fun n => nif_set_flags (Z.lor (nif_flags n) NETIF_FLAG_LINK_UP) n) s in
    if has_flag (netif_of s p) NETIF_FLAG_UP && has_flag (netif_of s p) NETIF_FLAG_ETHARP
    then snd (etharp_gratuitous p s) else s.

Definition netif_set_link_down (p : netif_ptr) (s : net) : net :=
  if has_flag (netif_of s p) NETIF_FLAG_LINK_UP
  then upd_netif p (fun n => nif_set_flags (Z.land (nif_flags n) (Z.lnot NETIF_FLAG_LINK_UP)) n) s
  else s.

(** The search loop of [netif_remove]: the node whose [next] is [p]. *)
Fixpoint find_pred (fuel : nat) (next : netif_ptr -> option netif_ptr) (p : netif_ptr)
  (t : option netif_ptr) : option netif_ptr :=
  match fuel, t with
  | S k, Some q => if bool_decide (next q = Some p) then Some q else find_pred k next p (next q)
  | _, _ => None
  end.

(** [netif_remove(NULL)] does nothing. *)
Definition netif_remove (p : option netif_ptr) (s : net) : net :=
  match p with
  | None => s
  | Some p =>
      let s := if netif_is_up (netif_of s p) then netif_set_down p s else s in
      let unlinked :=
        if bool_decide (netif_list s = Some p)
        then Some (set_netif_list (netif_next s p) s)
        else
          match find_pred NETIF_MAX (netif_next s) p (netif_list s) with
          | Some t => Some (upd_netif t (nif_set_next (netif_next s p)) s)
          | None => None
          end in
      match unlinked with
      | None => s
      | Some s =>
          if bool_decide (netif_default s = Some p) then netif_set_default None s else s
      end
  end.

(** [netif_find]: by the two characters and the digit of a name. *)
Definition netif_find (name : Z * Z * Z) (s : net) : option netif_ptr :=
  let '(c0, c1, c2) := name in
  let num := u8 (c2 - 48) in
  List.find (fun p =>
    (num =? nif_num (netif_of s p)) && (c0 =? fst (nif_name (netif_of s p)))
    && (c1 =? snd (nif_name (netif_of s p)))) (netifs s).

(** [ip_route] of core/ipv4/ip.c. *)
Definition ip_route (dest : Z) (s : net) : option netif_ptr :=
  match List.find (fun p =>
          netif_is_up (netif_of s p)
          && ip_addr_netcmp dest (nif_ip_addr (netif_of s p)) (nif_netmask (netif_of s p)))
          (netifs s) with
  | Some p => Some p
  | None =>
      match netif_default s with
      | None => None
      | Some d => if netif_is_up (netif_of s d) then Some d else None
      end
  end.

(** ** The list invariant *)

(** The objects of the two arrays. *)
Definition valid_netif (p : netif_ptr) : Prop :=
  match p with
  | HdkNetIF k => (k < MAX_EMAC_INSTANCE)%nat
  | AliasNetif k => (k < MAX_ALIAS_NETIF)%nat
  end.

(** [netif_list] runs exactly through [l]. *)
Record net_list (s : net) (l : list netif_ptr) : Prop := {
  nl_chain : chain (netif_next s) (netif_list s) l;
  nl_nodup : NoDup l;
  nl_valid : Forall valid_netif l
}.

Definition all_netifs : list netif_ptr :=
  map HdkNetIF (seq 0 MAX_EMAC_INSTANCE) ++ map AliasNetif (seq 0 MAX_ALIAS_NETIF).

Lemma all_netifs_valid p : valid_netif p -> p ∈ all_netifs.
Proof.
  unfold all_netifs. rewrite elem_of_app, !list_elem_of_fmap.
  destruct p as [k | k]; unfold valid_netif; intros Hk; [left | right]; exists k;
    (split; [done |]); apply elem_of_seq; lia.
Qed.

Lemma net_list_length s l : net_list s l -> (length l <= NETIF_MAX)%nat.
Proof.
  intros [_ Hnd Hv].
  assert (Hs : l ⊆+ all_netifs).
  { apply NoDup_submseteq; [done |]. intros p Hp. rewrite Forall_forall in Hv.
    by apply all_netifs_valid, Hv. }
  apply submseteq_length in Hs. exact Hs.
Qed.

(** Every loop over the list sees all of it. *)
Lemma net_list_netifs s l : net_list s l -> netifs s = l.
Proof. intros H. unfold netifs. apply chain_walk; [apply H | by eapply net_list_length]. Qed.

Lemma net_list_init : net_list net_init [].
Proof. split; [done | apply NoDup_nil_2 | done]. Qed.

(** Only the head and the [next] fields matter. *)
Lemma net_list_ext s s' l :
  net_list s l -> netif_list s' = netif_list s ->
  (forall p, netif_next s' p = netif_next s p) -> net_list s' l.
Proof.
  intros [Hc Hn Hv] Hl Hx. split; [rewrite Hl | done | done].
  eapply chain_ext; [exact Hc | auto].
Qed.

Lemma same_ifs_list s s' l : same_ifs s s' -> net_list s l -> net_list s' l.
Proof.
  intros (H1 & H2 & _) H. eapply net_list_ext; [exact H | done |].
  intros p. unfold netif_next, netif_of. by rewrite H1.
Qed.

(** An update of an interface that leaves [next] alone. *)
Lemma upd_netif_next p f s q :
  (forall n, nif_next (f n) = nif_next n) -> netif_next (upd_netif p f s) q = netif_next s q.
Proof.
  intros Hf. unfold netif_next. rewrite netif_of_upd. destruct (decide (p = q)) as [-> |]; [apply Hf | done].
Qed.

Lemma upd_netif_list p f s l :
  (forall n, nif_next (f n) = nif_next n) -> net_list s l -> net_list (upd_netif p f s) l.
Proof. intros Hf H. eapply net_list_ext; [exact H | done | intros; by apply upd_netif_next]. Qed.

Lemma set_addr_list p a m g s l : net_list s l -> net_list (netif_set_addr p a m g s) l.
Proof.
  intros H. unfold netif_set_addr, netif_set_ipaddr, netif_set_netmask, netif_set_gw.
  by repeat (apply upd_netif_list; [done |]).
Qed.

Lemma gratuitous_ifs p s : same_ifs s (snd (etharp_gratuitous p s)).
Proof. unfold etharp_gratuitous. destruct (etharp_request _ _ _) as [e s'] eqn:E. by eapply request_keeps. Qed.

Lemma set_up_list p s l : net_list s l -> net_list (netif_set_up p s) l.
Proof.
  intros H. unfold netif_set_up. destruct (has_flag _ _); [done |].
  destruct (_ && _); [eapply same_ifs_list; [apply gratuitous_ifs |] |]; by apply upd_netif_list.
Qed.

Lemma set_down_list p s l : net_list s l -> net_list (netif_set_down p s) l.
Proof.
  intros H. unfold netif_set_down. destruct (has_flag _ _); [| done].
  destruct (has_flag _ _); [eapply (same_ifs_list (upd_netif _ _ _)); [done |] |]; by apply upd_netif_list.
Qed.

(** ** Adding and removing *)

Lemma find_pred_found next h l1 t p l2 fuel :
  chain next h (l1 ++ t :: p :: l2) -> NoDup (l1 ++ t :: p :: l2) ->
  (length (l1 ++ t :: p :: l2) <= fuel)%nat ->
  find_pred fuel next p h = Some t.
Proof.
  revert h fuel; induction l1 as [| x l1 IH]; intros h fuel Hc Hnd Hf.
  - destruct Hc as (-> & Hn & _). destruct fuel as [| k]; [cbn in Hf; lia |].
    cbn. by rewrite bool_decide_true.
  - destruct Hc as [-> Hc]. destruct fuel as [| k]; [cbn in Hf; lia |].
    cbn in Hnd, Hf. apply NoDup_cons in Hnd as [Hx Hnd]. cbn.
    rewrite bool_decide_false; [apply IH; [done | done | lia] |].
    intros Hxp. rewrite Hxp in Hc. destruct l1 as [| y l1]; destruct Hc as [[= ->] _];
      cbn in *; apply NoDup_cons in Hnd as [Hy _]; apply Hy; cbn; rewrite ?elem_of_app, !elem_of_cons; auto.
Qed.

Lemma find_pred_missing next h l p fuel :
  chain next h l -> p ∉ l -> find_pred fuel next p h = None.
Proof.
  revert h fuel; induction l as [| x l IH]; intros h [| k] Hc Hp; cbn in Hc; try done.
  - by subst.
  - destruct Hc as [-> Hc]. apply not_elem_of_cons in Hp as [Hpx Hp]. cbn.
    rewrite bool_decide_false; [by apply IH |].
    intros Hxp. rewrite Hxp in Hc. destruct l as [| y l]; [done |].
    destruct Hc as [[= ->] _]. apply Hp. left.
Qed.

(** An initialisation callback touches only the interface it is given, and not
    its link. *)
Definition init_local (init : netif_ptr -> net -> err_t * net) : Prop :=
  forall p s err s', init p s = (err, s') ->
    (exists f, s' = upd_netif p f s /\ (forall n, nif_next (f n) = nif_next n)
       /\ (forall n, nif_ip_addr (f n) = nif_ip_addr n)
       /\ (forall n, nif_netmask (f n) = nif_netmask n)
       /\ (forall n, nif_gw (f n) = nif_gw n)) \/ s' = s.

Lemma netif_add_list p a m g st init inp s l ok s' :
  init_local init -> net_list s l -> valid_netif p -> p ∉ l ->
  netif_add p a m g st init inp s = (ok, s') ->
  net_list s' (if ok then p :: l else l).
Proof.
  intros Hinit Hl Hv Hp. unfold netif_add.
  set (s1 := netif_set_addr p a m g _).
  assert (H1 : net_list s1 l).
  { unfold s1. apply set_addr_list.
    eapply (net_list_ext (upd_netif p (netif_reset st (netif_num s) inp) s)); [| done | done].
    by apply upd_netif_list. }
  clearbody s1. destruct (init p s1) as [err s2] eqn:Ei.
  assert (H2 : net_list s2 l).
  { apply Hinit in Ei as [(f & -> & Hf & _) | ->]; [by apply upd_netif_list | done]. }
  destruct (_ && _); intros [= <- <-]; [done |].
  destruct H2 as [Hc Hnd Hva]. split; [| by apply NoDup_cons | by apply Forall_cons].
  cbn [netif_list set_netif_list].
  eapply (chain_cons (netif_next s2)); [exact Hc | done | |].
  - unfold netif_next. change (netif_of (set_netif_list ?h ?s) p) with (netif_of s p).
    change (netif_of (set_netif_list (Some p) (upd_netif p (nif_set_next (netif_list s2)) s2)) p)
      with (netif_of (upd_netif p (nif_set_next (netif_list s2)) s2) p).
    by rewrite netif_of_upd_eq.
  - intros q Hq. unfold netif_next.
    change (netif_of (set_netif_list (Some p) (upd_netif p (nif_set_next (netif_list s2)) s2)) q)
      with (netif_of (upd_netif p (nif_set_next (netif_list s2)) s2) q).
    by rewrite netif_of_upd_ne by done.
Qed.

Lemma netif_remove_list p s l :
  net_list s l -> net_list (netif_remove (Some p) s) (remove1 p l).
Proof.
  intros Hl. unfold netif_remove. set (s1 := if netif_is_up _ then _ else s).
  assert (H1 : net_list s1 l)
    by (unfold s1; destruct (netif_is_up _); [by apply set_down_list | done]).
  clearbody s1. clear Hl s. pose proof (net_list_length _ _ H1) as Hlen.
  assert (Hdef : forall s, net_list s (remove1 p l) ->
    net_list (if bool_decide (netif_default s = Some p) then netif_set_default None s else s) (remove1 p l))
    by (intros s Hs; destruct (bool_decide _); [eapply net_list_ext; [exact Hs | done | done] | done]).
  pose proof H1 as [Hc Hnd Hv].
  destruct (decide (netif_list s1 = Some p)) as [Eh | Eh].
  - rewrite bool_decide_true by done. apply Hdef.
    destruct l as [| x l]; cbn in Hc; [congruence |]. destruct Hc as [Ex Hc].
    assert (x = p) as -> by congruence. apply NoDup_cons in Hnd as [Hpl Hnd].
    rewrite remove1_cons_eq by done. apply Forall_cons in Hv as [_ Hv]. by split.
  - rewrite bool_decide_false by done.
    destruct (decide (p ∈ l)) as [Hp | Hp].
    + destruct (NoDup_split_last p l Hp) as (l0 & l2 & -> & Hp1).
      assert (Hp2 : p ∉ l2).
      { apply NoDup_app in Hnd as (_ & _ & Hnd). by apply NoDup_cons in Hnd as [? _]. }
      destruct l0 as [| t l1 _] using rev_ind; [by destruct Hc as [? _] |].
      rewrite <- app_assoc in *. cbn [app] in *.
      rewrite (find_pred_found _ _ l1 t p l2) by done. apply Hdef.
      assert (Hrm : remove1 p (l1 ++ t :: p :: l2) = l1 ++ t :: l2).
      { rewrite (cons_middle t), app_assoc, remove1_app_mid, <- app_assoc; done. }
      split; [| by apply NoDup_remove1 |].
      * rewrite Hrm. cbn [netif_list upd_netif set_netifs].
        eapply (chain_unlink (netif_next s1)); [exact Hnd | exact Hc | |].
        -- unfold netif_next at 1. by rewrite netif_of_upd_eq.
        -- intros z Hz. unfold netif_next at 1. by rewrite netif_of_upd_ne.
      * rewrite Forall_forall in Hv |- *. intros x [Hx _]%elem_of_remove1. auto.
    + rewrite (find_pred_missing _ _ l) by done. by rewrite remove1_notin.
Qed.
