(* ===== verification/Lwiplib.v ===== *)
(** * The multi-IP extension of the port (ports/hdk/lwiplib.c, hdkif.c)

    One physical interface, [hdkNetIF[0]], and a pool of seven aliases that
    share its driver instance, its MAC address and its output functions. *)

From S2P Require Import Prelude NetTypes IpAddr Pbuf Net Chain Etharp Netif.

(** The static variables of lwiplib.c, the MAC address the driver keeps in
    [hdkif_data[0]] (in reverse order) and the network state below. *)
Record lwl := mk_lwl {
  l_net : net;
  lwIPCoreReady : bool;
  alias_used : list bool;
  aliasSourceNetif : option netif_ptr;
  hdkif_mac_addr : list Z
}.

Definition lwl_init : lwl :=
  mk_lwl net_init false (replicate MAX_ALIAS_NETIF false) None [0; 0; 0; 0; 0; 0].

Definition set_l_net s l := mk_lwl s (lwIPCoreReady l) (alias_used l) (aliasSourceNetif l) (hdkif_mac_addr l).
Definition set_alias_used u l := mk_lwl (l_net l) (lwIPCoreReady l) u (aliasSourceNetif l) (hdkif_mac_addr l).
Definition set_alias_source a l := mk_lwl (l_net l) (lwIPCoreReady l) (alias_used l) a (hdkif_mac_addr l).

(** ** Driver *)

(** [hdkif_macaddrset]. *)
Definition hdkif_macaddrset (mac : list Z) (l : lwl) : lwl :=
  mk_lwl (l_net l) (lwIPCoreReady l) (alias_used l) (aliasSourceNetif l) (reverse (take 6 mac)).

(** What [hdkif_init] and [hdkif_hw_init] write into the interface. *)
Definition hdkif_init_netif (inst : nat) (mac_addr : list Z) (n : netif) : netif :=
  mk_netif (nif_next n) (nif_ip_addr n) (nif_netmask n) (nif_gw n) (nif_input n)
    Fn_etharp_output Fn_hdkif_output (St_hdkif inst) (nif_dhcp n) MAX_TRANSFER_UNIT
    ETHARP_HWADDR_LEN (reverse mac_addr)
    (Z.lor (Z.lor NETIF_FLAG_BROADCAST NETIF_FLAG_ETHARP) NETIF_FLAG_LINK_UP)
    (101, 110) (Z.of_nat inst).

(** [hdkif_init]: the instance number is read through [netif->state]; the PHY
    decides between [ERR_OK] and [ERR_CONN]. *)
Definition hdkif_init (mac_addr : list Z) (phy_ok : bool) (p : netif_ptr) (s : net) : err_t * net :=
  match nif_state (netif_of s p) with
  | St_instNum inst =>
      (if phy_ok then ERR_OK else ERR_CONN, upd_netif p (hdkif_init_netif inst mac_addr) s)
  | _ => (ERR_CONN, s)
  end.

(** ** Start-up and the physical interface *)

(** [lwIPCoreInit]; the pools and lists [lwip_init] sets up have their initial
    values in the [init] states of the components. *)
Definition lwIPCoreInit (instNum : nat) (mac : list Z) (l : lwl) : Z * lwl :=
  if lwIPCoreReady l then (1, l)
  else
    let l := hdkif_macaddrset mac l in
    (1, mk_lwl (l_net l) true (alias_used l) (aliasSourceNetif l) (hdkif_mac_addr l)).

(** [lwIPNetifAdd]. *)
Definition lwIPNetifAdd (instNum : nat) (ipAddr netMask gwAddr : Z) (makeDefault phy_ok : bool)
  (l : lwl) : Z * lwl :=
  if negb (lwIPCoreReady l) then (0, l)
  else
    let p := HdkNetIF instNum in
    let '(ok, s) := netif_add p (htonl ipAddr) (htonl netMask) (htonl gwAddr)
                      (St_instNum instNum) (hdkif_init (hdkif_mac_addr l) phy_ok)
                      Fn_ip_input (l_net l) in
    if negb ok then (0, set_l_net s l)
    else
      let s := if makeDefault then netif_set_default (Some p) s else s in
      let s := netif_set_up p s in
      (nif_ip_addr (netif_of s p), set_l_net s l).

(** ** Aliases *)

(** The fields [hdkif_alias_init] copies from the source interface. *)
Definition alias_copy (src n : netif) : netif :=
  mk_netif (nif_next n) (nif_ip_addr n) (nif_netmask n) (nif_gw n) (nif_input n)
    (nif_output src) (nif_linkoutput src) (nif_state src) (nif_dhcp n) (nif_mtu src)
    (nif_hwaddr_len src)
    (put 0 (take (Z.to_nat (nif_hwaddr_len src)) (nif_hwaddr src)) (nif_hwaddr n))
    (nif_flags src) (nif_name n) (nif_num n).

(** [hdkif_alias_init]. *)
Definition hdkif_alias_init (source : option netif_ptr) (p : netif_ptr) (s : net) : err_t * net :=
  match source with
  | None => (ERR_ARG, s)
  | Some src => (ERR_OK, upd_netif p (alias_copy (netif_of s src)) s)
  end.

(** The search loops of [lwIPAliasAdd]: the first unused slot. *)
Fixpoint first_free (k : nat) (used : list bool) : option nat :=
  match used with
  | [] => None
  | u :: used' => if negb u then Some k else first_free (S k) used'
  end.

(** [lwIPAliasAdd]. *)
Definition lwIPAliasAdd (primaryInstNum : nat) (ipAddr netMask gwAddr : Z) (l : lwl) : Z * lwl :=
  if negb (lwIPCoreReady l) then (0, l)
  else
    match first_free 0 (alias_used l) with
    | None => (0, l)
    | Some idx =>
        let p := AliasNetif idx in
        let l := set_alias_source (Some (HdkNetIF primaryInstNum)) l in
        let '(ok, s) := netif_add p (htonl ipAddr) (htonl netMask) (htonl gwAddr) St_null
                          (hdkif_alias_init (aliasSourceNetif l)) Fn_ip_input (l_net l) in
        let l := set_alias_source None (set_l_net s l) in
        if negb ok then (0, l)
        else
          let s := netif_set_up p (l_net l) in
          let l := set_alias_used (<[idx := true]> (alias_used l)) (set_l_net s l) in
          (nif_ip_addr (netif_of (l_net l) p), l)
    end.

(** The loop of [lwIPAliasRemove] with its [break]. *)
Fixpoint alias_remove_loop (k : nat) (used : list bool) (p : netif_ptr) : option nat :=
  match used with
  | [] => None
  | u :: used' =>
      if bool_decide (p = AliasNetif k) && u then Some k else alias_remove_loop (S k) used' p
  end.

(** [lwIPAliasRemove]. *)
Definition lwIPAliasRemove (p : option netif_ptr) (l : lwl) : lwl :=
  match p with
  | None => l
  | Some q =>
      match alias_remove_loop 0 (alias_used l) q with
      | None => l
      | Some idx =>
          let l := set_l_net (netif_remove p (l_net l)) l in
          set_alias_used (<[idx := false]> (alias_used l)) l
      end
  end.

Definition lwIPNetifPtrGet (instNum : nat) : netif_ptr := HdkNetIF instNum.

Definition lwIPAliasNetifPtrGet (aliasIdx : nat) (l : lwl) : option netif_ptr :=
  if (MAX_ALIAS_NETIF <=? aliasIdx)%nat || negb (nth aliasIdx (alias_used l) false)
  then None else Some (AliasNetif aliasIdx).

(** ** The pool and the list agree *)

Lemma hdkif_init_local mac phy : init_local (hdkif_init mac phy).
Proof.
  intros p s err s'. unfold hdkif_init. destruct (nif_state _); intros [= _ <-];
    [by right | left | by right]. eexists. split; [reflexivity | done].
Qed.

Lemma alias_init_local src : init_local (hdkif_alias_init src).
Proof.
  intros p s err s'. unfold hdkif_alias_init. destruct src; intros [= _ <-]; [left | by right].
  eexists. split; [reflexivity | done].
Qed.

Lemma first_free_spec k used i :
  first_free k used = Some i -> (k <= i < k + length used)%nat /\ used !! (i - k)%nat = Some false.
Proof.
  revert k; induction used as [| u used IH]; intros k; cbn [first_free]; [done |].
  destruct u; cbn [negb].
  - intros [H1 H2]%IH. cbn [length]. split; [lia |].
    replace (i - k)%nat with (S (i - S k)) by lia. done.
  - intros [= <-]. rewrite Nat.sub_diag. cbn [length]. split; [lia | done].
Qed.

Lemma first_free_none k used : first_free k used = None -> Forall (fun u => u = true) used.
Proof.
  revert k; induction used as [| u used IH]; intros k; cbn [first_free]; [done |].
  destruct u; cbn [negb]; [| done]. intros H. apply List.Forall_cons; eauto.
Qed.

Lemma alias_remove_loop_spec k used p i :
  alias_remove_loop k used p = Some i ->
  p = AliasNetif i /\ (k <= i < k + length used)%nat /\ used !! (i - k)%nat = Some true.
Proof.
  revert k; induction used as [| u used IH]; intros k; cbn [alias_remove_loop]; [done |].
  destruct (bool_decide (p = AliasNetif k) && u) eqn:E.
  - intros [= <-]. apply andb_true_iff in E as [E1%bool_decide_eq_true ->].
    rewrite Nat.sub_diag. cbn [length]. split_and!; [done | lia | lia | done].
  - intros (H1 & H2 & H3)%IH. cbn [length]. split_and!; [done | lia | lia |].
    replace (i - k)%nat with (S (i - S k)) by lia. done.
Qed.

Lemma alias_remove_loop_found k used i :
  used !! i = Some true -> alias_remove_loop k used (AliasNetif (k + i)) = Some (k + i)%nat.
Proof.
  revert k i; induction used as [| u used IH]; intros k [| i] H; cbn [alias_remove_loop]; try done.
  - cbn in H. injection H as ->. rewrite Nat.add_0_r, bool_decide_true by done. done.
  - rewrite bool_decide_false by (intros [= ?]; lia). cbn.
    replace (k + S i)%nat with (S k + i)%nat by lia. by apply IH.
Qed.

(** [L] is the interface list: the physical interface is on it exactly when
    [phys], an alias exactly when its slot is used. *)
Record lwl_ok (phys : bool) (l : lwl) (L : list netif_ptr) : Prop := {
  lo_list : net_list (l_net l) L;
  lo_used_len : length (alias_used l) = MAX_ALIAS_NETIF;
  lo_phys : HdkNetIF 0 ∈ L <-> phys = true;
  lo_alias : forall k, AliasNetif k ∈ L <-> alias_used l !! k = Some true;
  lo_source : aliasSourceNetif l = None
}.

Lemma lwl_ok_init : lwl_ok false lwl_init [].
Proof.
  split; cbn; [apply net_list_init | done | | | done].
  - split; [intros ?%not_elem_of_nil; done | done].
  - intros k. split; [intros ?%not_elem_of_nil; done |].
    intros H. apply (list_elem_of_lookup_2 (replicate 7 false)) in H.
    by apply elem_of_replicate in H as [? _].
Qed.

Lemma alias_add_ok phys inst a m g l L r l' :
  lwl_ok phys l L -> lwIPAliasAdd inst a m g l = (r, l') ->
  (l' = l /\ r = 0 /\ (lwIPCoreReady l = false \/ first_free 0 (alias_used l) = None))
  \/ (exists idx, lwIPCoreReady l = true /\ first_free 0 (alias_used l) = Some idx
      /\ lwl_ok phys l' (AliasNetif idx :: L) /\ AliasNetif idx ∉ L
      /\ lwIPCoreReady l' = lwIPCoreReady l /\ hdkif_mac_addr l' = hdkif_mac_addr l).
Proof.
  intros [Hl Hu Hp Ha Hs]. unfold lwIPAliasAdd.
  destruct (lwIPCoreReady l) eqn:Er; cbn [negb]; [| intros [= <- <-]; auto].
  destruct (first_free 0 (alias_used l)) as [idx |] eqn:Ef; [| intros [= <- <-]; auto].
  apply first_free_spec in Ef as [Hi Hfree]. rewrite Nat.sub_0_r in Hfree.
  assert (Hnin : AliasNetif idx ∉ L) by (rewrite Ha; congruence).
  cbn [aliasSourceNetif set_alias_source l_net].
  destruct (netif_add _ _ _ _ _ _ _ (l_net l)) as [ok s] eqn:Ea.
  assert (ok = true) as ->.
  { unfold netif_add, hdkif_alias_init in Ea. by injection Ea as <- _. }
  eapply netif_add_list in Ea; [| apply alias_init_local | exact Hl | cbn; lia | done].
  cbn [negb]. intros [= <- <-]. right. exists idx.
  split_and!; try done. split; cbn.
  - by apply set_up_list.
  - by rewrite length_insert.
  - rewrite elem_of_cons, <- Hp. split; [intros [[=] | ?]; done | auto].
  - intros k. rewrite elem_of_cons, Ha. split.
    + intros [[= ->] | Hk]; [apply list_lookup_insert_eq; lia |].
      rewrite list_lookup_insert_ne; [done |]. intros ->. congruence.
    + intros [(<- & _ & _) | [Hk H]]%list_lookup_insert_Some; auto.
  - done.
Qed.

Lemma alias_remove_ok phys p l L :
  lwl_ok phys l L ->
  exists L', lwl_ok phys (lwIPAliasRemove p l) L'
    /\ lwIPCoreReady (lwIPAliasRemove p l) = lwIPCoreReady l
    /\ hdkif_mac_addr (lwIPAliasRemove p l) = hdkif_mac_addr l
    /\ ((exists k, p = Some (AliasNetif k) /\ AliasNetif k ∈ L /\ L' = remove1 (AliasNetif k) L)
        \/ (L' = L /\ lwIPAliasRemove p l = l
            /\ forall k, p = Some (AliasNetif k) -> AliasNetif k ∉ L)).
Proof.
  intros Hok. pose proof Hok as [Hl Hu Hp Ha Hs].
  destruct p as [q |]; [| exists L; split_and!; auto; right; split_and!; done].
  unfold lwIPAliasRemove. destruct (alias_remove_loop 0 (alias_used l) q) as [idx |] eqn:E.
  - apply alias_remove_loop_spec in E as (-> & Hi & Hx). rewrite Nat.sub_0_r in Hx.
    exists (remove1 (AliasNetif idx) L). split_and!; [| done | done |].
    2: { left. exists idx. split_and!; [done | by rewrite Ha | done]. }
    split; cbn.
    + by apply netif_remove_list.
    + by rewrite length_insert.
    + rewrite elem_of_remove1, <- Hp. split; [tauto | by split].
    + intros k. rewrite elem_of_remove1, Ha. split.
      * intros [Hk Hne]. rewrite list_lookup_insert_ne; [done |]. intros ->. done.
      * intros [(<- & [=] & _) | [Hk H]]%list_lookup_insert_Some. split; [done | congruence].
    + done.
  - exists L. split_and!; [done.. |]. right. split_and!; [done | done |].
    intros k [= ->]. rewrite Ha. intros Hx.
    pose proof (alias_remove_loop_found 0 _ k Hx) as H. cbn [Nat.add] in H. congruence.
Qed.

Lemma netif_of_set_num k s p : netif_of (set_netif_num k s) p = netif_of s p.
Proof. done. Qed.
Lemma netif_of_set_list h s p : netif_of (set_netif_list h s) p = netif_of s p.
Proof. done. Qed.

Lemma lor_up f : Z.land f NETIF_FLAG_UP <> 0 -> Z.lor f NETIF_FLAG_UP = f.
Proof.
  intros H. apply Z.bits_inj'; intros k Hk. rewrite Z.lor_spec.
  destruct (Z.eq_dec k 0) as [-> | Hk0].
  - destruct (Z.testbit f 0) eqn:E; [done |]. exfalso. apply H. apply Z.bits_inj'; intros j Hj.
    rewrite Z.land_spec, Z.bits_0. destruct (Z.eq_dec j 0) as [-> |]; [by rewrite E |].
    change NETIF_FLAG_UP with (2 ^ 0). rewrite Z.pow2_bits_false by lia. apply andb_false_r.
  - change NETIF_FLAG_UP with (2 ^ 0). rewrite Z.pow2_bits_false by lia. apply orb_false_r.
Qed.

(** What [netif_set_up] leaves in every interface. *)
Lemma set_up_netif_of p s q :
  netif_of (netif_set_up p s) q =
  if decide (q = p) then nif_set_flags (Z.lor (nif_flags (netif_of s p)) NETIF_FLAG_UP) (netif_of s p)
  else netif_of s q.
Proof.
  unfold netif_set_up. destruct (has_flag (netif_of s p) NETIF_FLAG_UP) eqn:E.
  - destruct (decide (q = p)) as [-> |]; [| done].
    unfold has_flag in E. apply negb_true_iff, Z.eqb_neq in E. rewrite lor_up by done.
    by destruct (netif_of s p).
  - assert (H : netif_of (upd_netif p (fun n => nif_set_flags (Z.lor (nif_flags n) NETIF_FLAG_UP) n) s) q
       = if decide (q = p) then nif_set_flags (Z.lor (nif_flags (netif_of s p)) NETIF_FLAG_UP) (netif_of s p)
         else netif_of s q).
    { rewrite netif_of_upd. destruct (decide (p = q)), (decide (q = p)); congruence. }
    destruct (_ && _); [| done]. rewrite <- H. apply same_ifs_netif_of, gratuitous_ifs.
Qed.

(** The structure a new alias becomes. *)
Definition alias_netif (src old : netif) (next : option netif_ptr) (a m g num : Z) : netif :=
  mk_netif next a m g Fn_ip_input (nif_output src) (nif_linkoutput src) (nif_state src) None
    (nif_mtu src) (nif_hwaddr_len src)
    (put 0 (take (Z.to_nat (nif_hwaddr_len src)) (nif_hwaddr src)) (nif_hwaddr old))
    (Z.lor (nif_flags src) NETIF_FLAG_UP) (nif_name old) num.

Lemma alias_add_result inst a m g l idx :
  lwIPCoreReady l = true -> first_free 0 (alias_used l) = Some idx ->
  exists l', lwIPAliasAdd inst a m g l = (a, l')
    /\ netif_of (l_net l') (AliasNetif idx)
       = alias_netif (netif_of (l_net l) (HdkNetIF inst)) (netif_of (l_net l) (AliasNetif idx))
           (netif_list (l_net l)) a m g (netif_num (l_net l))
    /\ (forall q, q <> AliasNetif idx -> netif_of (l_net l') q = netif_of (l_net l) q)
    /\ netif_list (l_net l') = Some (AliasNetif idx)
    /\ netif_default (l_net l') = netif_default (l_net l)
    /\ arp_table (l_net l') = arp_table (l_net l)
    /\ alias_used l' = <[idx := true]> (alias_used l)
    /\ (netif_is_up (netif_of (l_net l) (HdkNetIF inst)) = true ->
        n_wire (l_net l') = n_wire (l_net l)).
Proof.
  intros Hr Hf. unfold lwIPAliasAdd. rewrite Hr, Hf. cbn [negb].
  unfold netif_add, hdkif_alias_init. cbn [aliasSourceNetif set_alias_source l_net].
  rewrite !bool_decide_true by done. cbn [negb andb].
  set (p := AliasNetif idx). set (src := HdkNetIF inst). set (s := l_net l).
  set (s1 := netif_set_addr p _ _ _ _).
  set (s2 := set_netif_list (Some p) _).
  assert (Hq1 : forall q, q <> p -> netif_of s1 q = netif_of s q)
    by (intros q Hq; unfold s1, netif_set_addr, netif_set_gw, netif_set_netmask, netif_set_ipaddr;
        rewrite !netif_of_upd_ne, netif_of_set_num, netif_of_upd_ne by done; done).
  assert (Hp1 : netif_of s1 p = mk_netif (nif_next (netif_of s p)) a m g Fn_ip_input
      (nif_output (netif_of s p)) (nif_linkoutput (netif_of s p)) St_null None
      (nif_mtu (netif_of s p)) (nif_hwaddr_len (netif_of s p)) (nif_hwaddr (netif_of s p)) 0
      (nif_name (netif_of s p)) (netif_num s)).
  { unfold s1, netif_set_addr, netif_set_gw, netif_set_netmask, netif_set_ipaddr.
    by rewrite !netif_of_upd_eq, netif_of_set_num, netif_of_upd_eq. }
  assert (Hsrc : netif_of s1 src = netif_of s src) by (by apply Hq1).
  assert (Hq2 : forall q, q <> p -> netif_of s2 q = netif_of s q)
    by (intros q Hq; unfold s2; rewrite netif_of_set_list, !netif_of_upd_ne by done; auto).
  assert (Hp2 : netif_of s2 p = nif_set_next (netif_list s) (alias_copy (netif_of s src) (netif_of s1 p)))
    by (unfold s2; rewrite netif_of_set_list, !netif_of_upd_eq, Hsrc; done).
  cbn [l_net set_l_net set_alias_source set_alias_used].
  assert (Hup : forall f t, (f = netif_list \/ f = netif_default) -> f (netif_set_up p t) = f t).
  { intros f t Hff. unfold netif_set_up. destruct (has_flag _ _); [done |]. destruct (_ && _).
    - destruct (gratuitous_ifs p (upd_netif p (fun n => nif_set_flags (Z.lor (nif_flags n) NETIF_FLAG_UP) n) t))
        as (_ & H1 & H2 & _). destruct Hff as [-> | ->]; done.
    - destruct Hff as [-> | ->]; done. }
  eexists. split; [f_equal |]; cbn [l_net set_l_net set_alias_source set_alias_used alias_used].
  { rewrite set_up_netif_of, decide_True, Hp2, Hp1 by done. done. }
  split; [rewrite set_up_netif_of, decide_True, Hp2, Hp1 by done; done |].
  split; [intros q Hq; rewrite set_up_netif_of, decide_False by done; auto |].
  split; [by rewrite (Hup netif_list) by auto |].
  split; [by rewrite (Hup netif_default) by auto |].
  split; [| split; [done |]].
  - unfold netif_set_up. destruct (has_flag _ _); [done |]. destruct (_ && _); [| done].
    unfold etharp_gratuitous. destruct (etharp_request _ _ _) as [e s'] eqn:E.
    apply request_table in E as [Ht _]. exact Ht.
  - intros Hupsrc. unfold netif_set_up. rewrite Hp2.
    change (has_flag (nif_set_next _ (alias_copy (netif_of s src) _)) NETIF_FLAG_UP)
      with (netif_is_up (netif_of s src)).
    by rewrite Hupsrc.
Qed.

(** ** Properties *)

(** The operations on interfaces after the physical one was added. *)
Inductive lwl_step : lwl -> lwl -> Prop :=
| ls_alias_add inst a m g l : lwl_step l (snd (lwIPAliasAdd inst a m g l))
| ls_alias_remove p l : lwl_step l (lwIPAliasRemove p l)
| ls_set_addr p a m g l : lwl_step l (set_l_net (netif_set_addr p a m g (l_net l)) l)
| ls_set_up p l : lwl_step l (set_l_net (netif_set_up p (l_net l)) l)
| ls_set_down p l : lwl_step l (set_l_net (netif_set_down p (l_net l)) l)
| ls_arp s l : keeps (l_net l) s -> lwl_step l (set_l_net s l).

Lemma lwl_step_ok phys l l' L : lwl_step l l' -> lwl_ok phys l L -> exists L', lwl_ok phys l' L'.
Proof.
  assert (Hset : forall s l, lwl_ok phys l L -> net_list s L -> lwl_ok phys (set_l_net s l) L)
    by (intros s0 l0 [? ? ? ? ?] ?; by split).
  intros Hstep Hok. pose proof (lo_list _ _ _ Hok) as Hl. destruct Hstep.
  - destruct (lwIPAliasAdd inst a m g l) as [r l'] eqn:E.
    destruct (alias_add_ok _ _ _ _ _ _ _ _ _ Hok E) as [(-> & _) | (idx & _ & _ & H & _)]; eauto.
  - destruct (alias_remove_ok phys p l L Hok) as (L' & H & _). eauto.
  - exists L. apply Hset; [done | by apply set_addr_list].
  - exists L. apply Hset; [done | by apply set_up_list].
  - exists L. apply Hset; [done | by apply set_down_list].
  - exists L. apply Hset; [done |]. destruct H as [H _]. by eapply same_ifs_list.
Qed.

(** The state after [lwIPCoreInit] and [lwIPNetifAdd] as [EMAC_LwIP_Main] calls
    them. *)
Definition lwl_start (mac : list Z) (ip mask gw : Z) (phy_ok : bool) : lwl :=
  snd (lwIPNetifAdd 0 ip mask gw true phy_ok (snd (lwIPCoreInit 0 mac lwl_init))).

Lemma lwl_start_ok mac ip mask gw phy_ok : lwl_ok true (lwl_start mac ip mask gw phy_ok) [HdkNetIF 0].
Proof.
  unfold lwl_start, lwIPNetifAdd. cbn [lwIPCoreInit lwIPCoreReady lwl_init snd negb].
  destruct (netif_add _ _ _ _ _ _ _ _) as [ok s] eqn:E.
  assert (ok = true) as ->.
  { unfold netif_add, hdkif_init in E. destruct (nif_state _); destruct phy_ok; by injection E as <- _. }
  eapply (netif_add_list _ _ _ _ _ _ _ _ []) in E;
    [| apply hdkif_init_local | apply net_list_init | cbn; unfold MAX_EMAC_INSTANCE; lia | apply not_elem_of_nil].
  cbn [negb snd]. split; cbn.
  - apply set_up_list. eapply net_list_ext; [exact E | done | done].
  - done.
  - split; [done | intros _; apply list_elem_of_here].
  - intros k. split; [intros [[=] |?%not_elem_of_nil]%elem_of_cons; done |].
    intros H. apply (list_elem_of_lookup_2 (replicate 7 false)) in H.
    by apply elem_of_replicate in H as [? _].
  - done.
Qed.

(** Interface list and alias pool agree in every reachable state: after
    start-up and any sequence of alias additions, removals, address changes,
    interfaces going up or down and ARP activity, [netif_list] is a finite
    duplicate-free list of objects of the two arrays, the physical interface is
    on it, an alias is on it exactly when its pool slot is marked used, and
    walking the list with a bound of 8 nodes sees all of it. *)
Theorem lwl_reachable_ok mac ip mask gw phy_ok l
  (Hr : rtc lwl_step (lwl_start mac ip mask gw phy_ok) l) :
  exists L, net_list (l_net l) L /\ netifs (l_net l) = L /\ HdkNetIF 0 ∈ L
    /\ (forall k, AliasNetif k ∈ L <-> alias_used l !! k = Some true)
    /\ (length L <= 8)%nat.
Proof.
  assert (H : exists L, lwl_ok true l L).
  { revert Hr. generalize (lwl_start_ok mac ip mask gw phy_ok).
    generalize [HdkNetIF 0] (lwl_start mac ip mask gw phy_ok). intros L s Hok Hr. revert L Hok.
    induction Hr as [| s1 s2 s3 Hs _ IH]; intros L Hok; [eauto |].
    destruct (lwl_step_ok _ _ _ _ Hs Hok) as [L' Hok']. eauto. }
  destruct H as [L [Hl Hu Hp Ha Hs]]. exists L. split_and!.
  - done.
  - by apply net_list_netifs.
  - by apply Hp.
  - done.
  - by apply (net_list_length (l_net l)).
Qed.

Definition ex_mac : list Z := [2; 0; 0; 0; 0; 1].
Definition ex_lwl : lwl := lwl_start ex_mac 0x0a00000a 0xffffff00 0x0a000001 true.
Definition ex_lwl2 : lwl := snd (lwIPAliasAdd 0 0x0a00000b 0xffffff00 0x0a000001 ex_lwl).

Lemma lwl_reachable_ok_witness :
  netifs (l_net ex_lwl2) = [AliasNetif 0; HdkNetIF 0] /\
  exists L, net_list (l_net ex_lwl2) L /\ netifs (l_net ex_lwl2) = L /\ HdkNetIF 0 ∈ L
    /\ (forall k, AliasNetif k ∈ L <-> alias_used ex_lwl2 !! k = Some true)
    /\ (length L <= 8)%nat.
Proof.
  split; [vm_compute; reflexivity |].
  apply (lwl_reachable_ok ex_mac 0x0a00000a 0xffffff00 0x0a000001 true ex_lwl2).
  exact (rtc_once _ _ (ls_alias_add 0 0x0a00000b 0xffffff00 0x0a000001 ex_lwl)).
Defined.

(** C6. Adding an alias: once the core is initialised and a pool slot is free,
    [lwIPAliasAdd] takes the lowest free slot, returns the given address, puts the
    alias at the head of the interface list with that address, netmask and
    gateway, marked up, sharing the MAC, driver instance, output functions, MTU
    and flags of the physical interface; every other interface, the default
    route and the ARP cache are unchanged.  When the physical interface is up
    nothing is transmitted: since the flags are copied first, [netif_set_up] finds
    the alias already up and sends no gratuitous ARP for it. *)
Theorem alias_add_spec a m g l idx
  (Hr : lwIPCoreReady l = true) (Hf : first_free 0 (alias_used l) = Some idx) :
  exists l', lwIPAliasAdd 0 a m g l = (a, l')
    /\ netif_of (l_net l') (AliasNetif idx)
       = alias_netif (netif_of (l_net l) (HdkNetIF 0)) (netif_of (l_net l) (AliasNetif idx))
           (netif_list (l_net l)) a m g (netif_num (l_net l))
    /\ (forall q, q <> AliasNetif idx -> netif_of (l_net l') q = netif_of (l_net l) q)
    /\ netif_list (l_net l') = Some (AliasNetif idx)
    /\ netif_default (l_net l') = netif_default (l_net l)
    /\ arp_table (l_net l') = arp_table (l_net l)
    /\ alias_used l' = <[idx := true]> (alias_used l)
    /\ (netif_is_up (netif_of (l_net l) (HdkNetIF 0)) = true ->
        n_wire (l_net l') = n_wire (l_net l)).
Proof. by apply alias_add_result. Qed.

Lemma alias_add_spec_witness :
  n_wire (l_net ex_lwl2) = n_wire (l_net ex_lwl) /\
  exists l', lwIPAliasAdd 0 0x0a00000c 0xffffff00 0 ex_lwl2 = (0x0a00000c, l')
    /\ netif_of (l_net l') (AliasNetif 1)
       = alias_netif (netif_of (l_net ex_lwl2) (HdkNetIF 0)) (netif_of (l_net ex_lwl2) (AliasNetif 1))
           (netif_list (l_net ex_lwl2)) 0x0a00000c 0xffffff00 0 (netif_num (l_net ex_lwl2))
    /\ (forall q, q <> AliasNetif 1 -> netif_of (l_net l') q = netif_of (l_net ex_lwl2) q)
    /\ netif_list (l_net l') = Some (AliasNetif 1)
    /\ netif_default (l_net l') = netif_default (l_net ex_lwl2)
    /\ arp_table (l_net l') = arp_table (l_net ex_lwl2)
    /\ alias_used l' = <[1%nat := true]> (alias_used ex_lwl2)
    /\ (netif_is_up (netif_of (l_net ex_lwl2) (HdkNetIF 0)) = true ->
        n_wire (l_net l') = n_wire (l_net ex_lwl2)).
Proof.
  split; [vm_compute; reflexivity |].
  apply (alias_add_spec 0x0a00000c 0xffffff00 0 ex_lwl2 1); vm_compute; reflexivity.
Defined.
