(* ===== verification/Udp.v ===== *)
(** * UDP control blocks (core/udp.c)

    The control blocks live in the pool [MEMP_UDP_PCB]; the bound ones are on
    the intrusive list [udp_pcbs].  Loops over the list are bounded by the size
    of the pool. *)

From S2P Require Import Prelude NetTypes IpAddr Chain Memp Pbuf.

Definition MEMP_NUM_UDP_PCB : nat := 20.
Definition UDP_TTL : Z := 255.
Definition UDP_FLAGS_CONNECTED : Z := 0x04.
Definition UDP_FLAGS_NOCHKSUM : Z := 0x01.
Definition UDP_LOCAL_PORT_RANGE_START : Z := 0xc000.
Definition UDP_LOCAL_PORT_RANGE_END : Z := 0xffff.
Definition DHCP_CLIENT_PORT : Z := 68.
Definition DHCP_SERVER_PORT : Z := 67.

(** The receive callbacks of the program: the one of the socket registry and
    the one of the locator service. *)
Inductive udp_recv_fn : Set := Recv_null | Recv_udp_rx_callback | Recv_LocatorReceive.

Record udp_pcb := mk_udp_pcb {
  up_local_ip : Z;
  up_remote_ip : Z;
  up_tos : Z;
  up_ttl : Z;
  up_next : option nat;
  up_flags : Z;
  up_local_port : Z;
  up_remote_port : Z;
  up_recv : udp_recv_fn;
  up_recv_arg : Z
}.

Definition udp_pcb_zero : udp_pcb := mk_udp_pcb 0 0 0 0 None 0 0 0 Recv_null 0.
#[export] Instance udp_pcb_inhabited : Inhabited udp_pcb := populate udp_pcb_zero.

(** The pool's memory, the list head, the last port given out, the free list. *)
Record udp_st := mk_udp_st {
  u_pcbs : gmap nat udp_pcb;
  udp_pcbs : option nat;
  udp_port : Z;
  u_memp : memp
}.

Definition udp_init : udp_st :=
  mk_udp_st ∅ None UDP_LOCAL_PORT_RANGE_START (memp_init MEMP_NUM_UDP_PCB).

Definition pcb_of (u : udp_st) (i : nat) : udp_pcb := u_pcbs u !!! i.
Definition pcb_next (u : udp_st) (i : nat) : option nat := up_next (pcb_of u i).

Definition set_pcb (i : nat) (p : udp_pcb) (u : udp_st) : udp_st :=
  mk_udp_st (<[i := p]> (u_pcbs u)) (udp_pcbs u) (udp_port u) (u_memp u).
Definition upd_pcb (i : nat) (f : udp_pcb -> udp_pcb) (u : udp_st) : udp_st :=
  set_pcb i (f (pcb_of u i)) u.
Definition set_udp_pcbs h (u : udp_st) := mk_udp_st (u_pcbs u) h (udp_port u) (u_memp u).
Definition set_udp_port k (u : udp_st) := mk_udp_st (u_pcbs u) (udp_pcbs u) k (u_memp u).
Definition set_u_memp m (u : udp_st) := mk_udp_st (u_pcbs u) (udp_pcbs u) (udp_port u) m.

Definition up_set_local_ip a p := mk_udp_pcb a (up_remote_ip p) (up_tos p) (up_ttl p) (up_next p)
  (up_flags p) (up_local_port p) (up_remote_port p) (up_recv p) (up_recv_arg p).
Definition up_set_next n p := mk_udp_pcb (up_local_ip p) (up_remote_ip p) (up_tos p) (up_ttl p) n
  (up_flags p) (up_local_port p) (up_remote_port p) (up_recv p) (up_recv_arg p).
Definition up_set_local_port k p := mk_udp_pcb (up_local_ip p) (up_remote_ip p) (up_tos p)
  (up_ttl p) (up_next p) (up_flags p) k (up_remote_port p) (up_recv p) (up_recv_arg p).
Definition up_set_remote a k f p := mk_udp_pcb (up_local_ip p) a (up_tos p)
  (up_ttl p) (up_next p) f (up_local_port p) k (up_recv p) (up_recv_arg p).
Definition up_set_recv r a p := mk_udp_pcb (up_local_ip p) (up_remote_ip p) (up_tos p)
  (up_ttl p) (up_next p) (up_flags p) (up_local_port p) (up_remote_port p) r a.

(** The nodes a loop over [udp_pcbs] visits. *)
Definition pcbs (u : udp_st) : list nat := walk MEMP_NUM_UDP_PCB (pcb_next u) (udp_pcbs u).

(** ** Ports *)

(** [if (udp_port++ == UDP_LOCAL_PORT_RANGE_END) udp_port = START]. *)
Definition port_next (p : Z) : Z :=
  if p =? UDP_LOCAL_PORT_RANGE_END then UDP_LOCAL_PORT_RANGE_START else u16 (p + 1).

(** Some control block on the list has local port [k]. *)
Definition port_taken (u : udp_st) (k : Z) : bool :=
  existsb (fun i => up_local_port (pcb_of u i) =? k) (pcbs u).

(** The [again:] loop; [n] counts the ports found taken. *)
Fixpoint new_port_loop (fuel : nat) (n : Z) (u : udp_st) : Z * udp_st :=
  match fuel with
  | O => (0, u)
  | S f =>
      let u := set_udp_port (port_next (udp_port u)) u in
      if port_taken u (udp_port u) then
        let n := u16 (n + 1) in
        if UDP_LOCAL_PORT_RANGE_END - UDP_LOCAL_PORT_RANGE_START <? n then (0, u)
        else new_port_loop f n u
      else (udp_port u, u)
  end.

(** At most [MEMP_NUM_UDP_PCB] ports can be taken, so this many rounds
    suffice ([new_port_loop_ok]). *)
Definition NEW_PORT_FUEL : nat := S MEMP_NUM_UDP_PCB.
Definition udp_new_port (u : udp_st) : Z * udp_st := new_port_loop NEW_PORT_FUEL 0 u.

(** ** Control blocks *)

(** [udp_new]. *)
Definition udp_new (u : udp_st) : option nat * udp_st :=
  match memp_malloc (u_memp u) with
  | (None, m) => (None, set_u_memp m u)
  | (Some i, m) =>
      (Some i, set_pcb i (mk_udp_pcb 0 0 0 UDP_TTL None 0 0 0 Recv_null 0) (set_u_memp m u))
  end.

(** The loop of [udp_bind]: [None] is the return of [ERR_USE], else the value of
    [rebind]. *)
Fixpoint bind_scan (u : udp_st) (pcb : nat) (ipaddr port : Z) (l : list nat) (rebind : bool)
  : option bool :=
  match l with
  | [] => Some rebind
  | i :: l' =>
      if bool_decide (pcb = i) then bind_scan u pcb ipaddr port l' true
      else
        let q := pcb_of u i in
        if (up_local_port q =? port)
           && (ip_addr_isany (up_local_ip q) || ip_addr_isany ipaddr
               || ip_addr_cmp (up_local_ip q) ipaddr)
        then None
        else bind_scan u pcb ipaddr port l' rebind
  end.

(** [udp_bind]. *)
Definition udp_bind (pcb : nat) (ipaddr port : Z) (u : udp_st) : err_t * udp_st :=
  match bind_scan u pcb ipaddr port (pcbs u) false with
  | None => (ERR_USE, u)
  | Some rebind =>
      let u := upd_pcb pcb (up_set_local_ip ipaddr) u in
      let '(port, u) := if port =? 0 then udp_new_port u else (port, u) in
      if port =? 0 then (ERR_USE, u)
      else
        let u := upd_pcb pcb (up_set_local_port port) u in
        if rebind then (ERR_OK, u)
        else
          let u := upd_pcb pcb (up_set_next (udp_pcbs u)) u in
          (ERR_OK, set_udp_pcbs (Some pcb) u)
  end.

(** [udp_connect]. *)
Definition udp_connect (pcb : nat) (ipaddr port : Z) (u : udp_st) : err_t * udp_st :=
  let '(err, u) :=
    if up_local_port (pcb_of u pcb) =? 0
    then udp_bind pcb (up_local_ip (pcb_of u pcb)) (up_local_port (pcb_of u pcb)) u
    else (ERR_OK, u) in
  if negb (bool_decide (err = ERR_OK)) then (err, u)
  else
    let u := upd_pcb pcb (fun p =>
      up_set_remote ipaddr port (Z.lor (up_flags p) UDP_FLAGS_CONNECTED) p) u in
    if bool_decide (pcb ∈ pcbs u) then (ERR_OK, u)
    else
      let u := upd_pcb pcb (up_set_next (udp_pcbs u)) u in
      (ERR_OK, set_udp_pcbs (Some pcb) u).

(** [udp_disconnect], [udp_recv]. *)
Definition udp_disconnect (pcb : nat) (u : udp_st) : udp_st :=
  upd_pcb pcb (fun p =>
    up_set_remote 0 0 (Z.land (up_flags p) (Z.lnot UDP_FLAGS_CONNECTED)) p) u.
Definition udp_recv (pcb : nat) (recv : udp_recv_fn) (arg : Z) (u : udp_st) : udp_st :=
  upd_pcb pcb (up_set_recv recv arg) u.

(** The loop of [udp_remove], which goes on after unlinking. *)
Fixpoint remove_loop (fuel : nat) (pcb : nat) (pcb2 : option nat) (u : udp_st) : udp_st :=
  match fuel, pcb2 with
  | S f, Some q =>
      let u := if bool_decide (pcb_next u q = Some pcb)
               then upd_pcb q (up_set_next (pcb_next u pcb)) u else u in
      remove_loop f pcb (pcb_next u q) u
  | _, _ => u
  end.

(** [udp_remove]. *)
Definition udp_remove (pcb : nat) (u : udp_st) : udp_st :=
  let u :=
    if bool_decide (udp_pcbs u = Some pcb) then set_udp_pcbs (pcb_next u pcb) u
    else remove_loop MEMP_NUM_UDP_PCB pcb (udp_pcbs u) u in
  set_u_memp (memp_free (Some pcb) (u_memp u)) u.

(** ** Demultiplexing (the list search of [udp_input]) *)

(** A received datagram as the search sees it. *)
Record dgram := mk_dgram {
  dg_src_ip : Z;
  dg_dest_ip : Z;
  dg_src : Z;
  dg_dest : Z
}.

(** The control block is bound to the destination of the datagram. *)
Definition local_match (inp : netif) (broadcast : bool) (d : dgram) (p : udp_pcb) : bool :=
  (up_local_port p =? dg_dest d)
  && ((negb broadcast && ip_addr_isany (up_local_ip p))
      || ip_addr_cmp (up_local_ip p) (dg_dest_ip d)
      || (broadcast && (ip_addr_isany (up_local_ip p)
            || ip_addr_netcmp (up_local_ip p) (dg_dest_ip d) (nif_netmask inp)))).

Definition remote_match (d : dgram) (p : udp_pcb) : bool :=
  (up_remote_port p =? dg_src d)
  && (ip_addr_isany (up_remote_ip p) || ip_addr_cmp (up_remote_ip p) (dg_src_ip d)).

Definition connected (p : udp_pcb) : bool :=
  negb (Z.land (up_flags p) UDP_FLAGS_CONNECTED =? 0).

(** The loop: the perfect match with its predecessor, else the first
    unconnected local match. *)
Fixpoint demux_loop (inp : netif) (broadcast : bool) (d : dgram) (u : udp_st)
  (l : list nat) (prev uncon : option nat) : (option nat * nat) + option nat :=
  match l with
  | [] => inr uncon
  | i :: l' =>
      let p := pcb_of u i in
      let lm := local_match inp broadcast d p in
      let uncon := if lm && bool_decide (uncon = None) && negb (connected p)
                   then Some i else uncon in
      if lm && remote_match d p then inl (prev, i)
      else demux_loop inp broadcast d u l' (Some i) uncon
  end.

(** The control block that gets the datagram; a perfect match further down
    moves to the front of the list. *)
Definition udp_demux (inp : netif) (broadcast : bool) (d : dgram) (u : udp_st)
  : option nat * udp_st :=
  if dg_dest d =? DHCP_CLIENT_PORT then (None, u)
  else
    match demux_loop inp broadcast d u (pcbs u) None None with
    | inl (Some prev, i) =>
        let u := upd_pcb prev (up_set_next (pcb_next u i)) u in
        let u := upd_pcb i (up_set_next (udp_pcbs u)) u in
        (Some i, set_udp_pcbs (Some i) u)
    | inl (None, i) => (Some i, u)
    | inr uncon => (uncon, u)
    end.

(** ** The list invariant *)

(** [used] are the allocated control blocks, [l] the bound ones in list
    order. *)
Record udp_ok (used : gset nat) (l : list nat) (u : udp_st) : Prop := {
  uo_chain : chain (pcb_next u) (udp_pcbs u) l;
  uo_nodup : NoDup l;
  uo_used : forall i, i ∈ l -> i ∈ used;
  uo_memp : memp_ok MEMP_NUM_UDP_PCB used (u_memp u)
}.

(** The port counter stays in the dynamic range. *)
Definition port_ok (u : udp_st) : Prop :=
  UDP_LOCAL_PORT_RANGE_START <= udp_port u <= UDP_LOCAL_PORT_RANGE_END.

Lemma udp_ok_init : udp_ok ∅ [] udp_init.
Proof.
  split; [done | apply NoDup_nil_2 | intros i ?%not_elem_of_nil; done | apply memp_init_ok].
Qed.

Lemma udp_ok_length used l u : udp_ok used l u -> (length l <= MEMP_NUM_UDP_PCB)%nat.
Proof.
  intros [_ Hnd Hu (_ & _ & Hlt)].
  assert (Hs : l ⊆+ seq 0 MEMP_NUM_UDP_PCB).
  { apply NoDup_submseteq; [done |]. intros i Hi. apply elem_of_seq. specialize (Hlt i (Hu i Hi)). lia. }
  apply submseteq_length in Hs. by rewrite length_seq in Hs.
Qed.

Lemma udp_ok_pcbs used l u : udp_ok used l u -> pcbs u = l.
Proof. intros H. unfold pcbs. apply chain_walk; [apply H | by eapply udp_ok_length]. Qed.

Lemma pcb_of_upd i j f u :
  pcb_of (upd_pcb i f u) j = if decide (i = j) then f (pcb_of u i) else pcb_of u j.
Proof.
  unfold pcb_of, upd_pcb, set_pcb. cbn. destruct (decide (i = j)) as [-> |];
    [by rewrite lookup_total_insert_eq | by rewrite lookup_total_insert_ne].
Qed.
Lemma pcb_of_upd_eq i f u : pcb_of (upd_pcb i f u) i = f (pcb_of u i).
Proof. by rewrite pcb_of_upd, decide_True. Qed.
Lemma pcb_of_upd_ne i j f u : i <> j -> pcb_of (upd_pcb i f u) j = pcb_of u j.
Proof. intros. by rewrite pcb_of_upd, decide_False. Qed.

(** Updates that keep [next] keep the list. *)
Lemma upd_pcb_ok used l u i f :
  udp_ok used l u -> (forall p, up_next (f p) = up_next p) -> udp_ok used l (upd_pcb i f u).
Proof.
  intros [Hc Hn Hu Hm] Hf. split; [| done | done | done].
  eapply chain_ext; [exact Hc |]. intros j _. unfold pcb_next. rewrite pcb_of_upd.
  destruct (decide (i = j)) as [-> |]; [apply Hf | done].
Qed.

(** Pushing an allocated block that is not on the list. *)
Lemma push_ok used l u i :
  udp_ok used l u -> i ∈ used -> i ∉ l ->
  udp_ok used (i :: l) (set_udp_pcbs (Some i) (upd_pcb i (up_set_next (udp_pcbs u)) u)).
Proof.
  intros [Hc Hn Hu Hm] Hi Hil. split.
  - eapply (chain_cons (pcb_next u)); [exact Hc | done | |].
    + unfold pcb_next. change (pcb_of (set_udp_pcbs ?h ?v) i) with (pcb_of v i).
      change (pcb_of (set_udp_pcbs (Some i) (upd_pcb i (up_set_next (udp_pcbs u)) u)) i)
        with (pcb_of (upd_pcb i (up_set_next (udp_pcbs u)) u) i).
      by rewrite pcb_of_upd_eq.
    + intros j Hj. unfold pcb_next.
      change (pcb_of (set_udp_pcbs (Some i) (upd_pcb i (up_set_next (udp_pcbs u)) u)) j)
        with (pcb_of (upd_pcb i (up_set_next (udp_pcbs u)) u) j).
      by rewrite pcb_of_upd_ne by done.
  - by apply NoDup_cons.
  - intros j [-> | Hj]%elem_of_cons; auto.
  - done.
Qed.

(** ** Port allocation *)

(** The [j]-th port tried after [p]. *)
Definition port_at (p j : Z) : Z :=
  UDP_LOCAL_PORT_RANGE_START + (p - UDP_LOCAL_PORT_RANGE_START + j) mod 16384.

Lemma port_at_0 u : port_ok u -> port_at (udp_port u) 0 = udp_port u.
Proof.
  unfold port_ok, port_at, UDP_LOCAL_PORT_RANGE_START, UDP_LOCAL_PORT_RANGE_END.
  intros H. Z.div_mod_to_equations. lia.
Qed.

Lemma port_next_at p j : port_next (port_at p j) = port_at p (j + 1).
Proof.
  unfold port_next, port_at, UDP_LOCAL_PORT_RANGE_START, UDP_LOCAL_PORT_RANGE_END, u16.
  destruct (Z.eqb_spec (49152 + (p - 49152 + j) mod 16384) 65535); Z.div_mod_to_equations; lia.
Qed.

Lemma port_at_range p j :
  UDP_LOCAL_PORT_RANGE_START <= port_at p j <= UDP_LOCAL_PORT_RANGE_END.
Proof.
  unfold port_at, UDP_LOCAL_PORT_RANGE_START, UDP_LOCAL_PORT_RANGE_END.
  Z.div_mod_to_equations. lia.
Qed.

Lemma port_at_inj p i j : 0 <= i < 16384 -> 0 <= j < 16384 -> port_at p i = port_at p j -> i = j.
Proof. unfold port_at. intros. Z.div_mod_to_equations. lia. Qed.

Lemma port_taken_set u k k' : port_taken (set_udp_port k u) k' = port_taken u k'.
Proof. done. Qed.

Lemma port_taken_elem u k :
  port_taken u k = true <-> k ∈ map (fun i => up_local_port (pcb_of u i)) (pcbs u).
Proof.
  unfold port_taken. rewrite existsb_exists, list_elem_of_fmap. split.
  - intros (i & Hi & Hk). zb. exists i. split; [done | by apply list_elem_of_In].
  - intros (i & -> & Hi). exists i. split; [by apply list_elem_of_In | apply Z.eqb_refl].
Qed.

(** Fewer taken ports than candidates: one of them is free. *)
Lemma taken_bound u p n :
  (length (pcbs u) <= MEMP_NUM_UDP_PCB)%nat -> (n <= 100)%nat ->
  (forall j, (1 <= j <= n)%nat -> port_taken u (port_at p (Z.of_nat j)) = true) ->
  (n <= MEMP_NUM_UDP_PCB)%nat.
Proof.
  intros Hl Hn Ht.
  assert (Hs : map (fun j => port_at p (Z.of_nat j)) (seq 1 n)
               ⊆+ map (fun i => up_local_port (pcb_of u i)) (pcbs u)).
  { apply NoDup_submseteq.
    - apply NoDup_fmap_2_strong; [| apply NoDup_seq].
      intros x y Hx%elem_of_seq Hy%elem_of_seq H. apply port_at_inj in H; lia.
    - intros k (j & -> & Hj%elem_of_seq)%list_elem_of_fmap. apply port_taken_elem, Ht. lia. }
  apply submseteq_length in Hs. rewrite !length_map, length_seq in Hs. lia.
Qed.

Lemma new_port_loop_ok u p : forall f n,
  (length (pcbs u) <= MEMP_NUM_UDP_PCB)%nat -> (f + n = NEW_PORT_FUEL)%nat ->
  (forall j, (1 <= j <= n)%nat -> port_taken u (port_at p (Z.of_nat j)) = true) ->
  exists j, (1 <= j <= NEW_PORT_FUEL)%nat
    /\ new_port_loop f (Z.of_nat n) (set_udp_port (port_at p (Z.of_nat n)) u)
       = (port_at p (Z.of_nat j), set_udp_port (port_at p (Z.of_nat j)) u)
    /\ port_taken u (port_at p (Z.of_nat j)) = false.
Proof.
  induction f as [| f IH]; intros n Hl Hf Ht.
  - exfalso. pose proof (taken_bound u p n Hl) as H. unfold NEW_PORT_FUEL, MEMP_NUM_UDP_PCB in *.
    specialize (H ltac:(lia) Ht). lia.
  - cbn [new_port_loop]. cbn [udp_port set_udp_port u_pcbs udp_pcbs u_memp].
    rewrite port_next_at. change (port_taken _ (port_at p (Z.of_nat n + 1)))
      with (port_taken u (port_at p (Z.of_nat n + 1))).
    replace (Z.of_nat n + 1) with (Z.of_nat (S n)) by lia.
    unfold NEW_PORT_FUEL, MEMP_NUM_UDP_PCB in Hf.
    destruct (port_taken u (port_at p (Z.of_nat (S n)))) eqn:E.
    + rewrite u16_small by (unfold is_u16; lia).
      destruct (Z.ltb_spec (UDP_LOCAL_PORT_RANGE_END - UDP_LOCAL_PORT_RANGE_START) (Z.of_nat (S n)));
        [unfold UDP_LOCAL_PORT_RANGE_END, UDP_LOCAL_PORT_RANGE_START in *; lia |].
      apply (IH (S n)); [done | unfold NEW_PORT_FUEL, MEMP_NUM_UDP_PCB; lia |].
      intros j Hj. destruct (decide (j = S n)) as [-> |]; [done | apply Ht; lia].
    + exists (S n). split_and!; [lia | unfold NEW_PORT_FUEL, MEMP_NUM_UDP_PCB; lia | done | done].
Qed.

(** A free port of the dynamic range, within [NEW_PORT_FUEL] rounds. *)
Lemma new_port_ok used l u :
  udp_ok used l u -> port_ok u ->
  exists k, udp_new_port u = (k, set_udp_port k u)
    /\ UDP_LOCAL_PORT_RANGE_START <= k <= UDP_LOCAL_PORT_RANGE_END
    /\ forall i, i ∈ l -> up_local_port (pcb_of u i) <> k.
Proof.
  intros Hok Hp. pose proof (udp_ok_pcbs _ _ _ Hok) as Hl.
  destruct (new_port_loop_ok u (udp_port u) NEW_PORT_FUEL 0) as (j & Hj & E & Hfree);
    [rewrite Hl; by eapply udp_ok_length | lia | intros; lia |].
  change (Z.of_nat 0) with 0 in E. rewrite port_at_0 in E by done.
  replace (set_udp_port (udp_port u) u) with u in E by (by destruct u).
  exists (port_at (udp_port u) (Z.of_nat j)). split; [exact E |].
  split; [apply port_at_range |]. intros i Hi Heq.
  assert (Ht : port_taken u (port_at (udp_port u) (Z.of_nat j)) = true); [| congruence].
  apply port_taken_elem, list_elem_of_fmap. exists i. rewrite Hl. done.
Qed.

(** ** Binding *)

(** Two local endpoints that may not coexist. *)
Definition clash (p : udp_pcb) (ipaddr port : Z) : bool :=
  (up_local_port p =? port)
  && (ip_addr_isany (up_local_ip p) || ip_addr_isany ipaddr
      || ip_addr_cmp (up_local_ip p) ipaddr).

Lemma bind_scan_spec u pcb a k l rb :
  match bind_scan u pcb a k l rb with
  | None => exists i, i ∈ l /\ i <> pcb /\ clash (pcb_of u i) a k = true
  | Some rb' => (forall i, i ∈ l -> i <> pcb -> clash (pcb_of u i) a k = false)
                /\ rb' = rb || bool_decide (pcb ∈ l)
  end.
Proof.
  revert rb; induction l as [| i l IH]; intros rb; cbn [bind_scan].
  - split; [intros i ?%not_elem_of_nil; done |].
    rewrite bool_decide_false by apply not_elem_of_nil. by rewrite orb_false_r.
  - destruct (decide (pcb = i)) as [-> | Hne].
    + rewrite bool_decide_true by done. specialize (IH true).
      destruct (bind_scan _ _ _ _ _ _) as [rb' |].
      * destruct IH as [IH ->]. split.
        -- intros j [-> | Hj]%elem_of_cons Hji; [done | auto].
        -- rewrite (bool_decide_true (i ∈ i :: l)) by left. by rewrite orb_true_r.
      * destruct IH as (j & Hj & H). exists j. split; [by right | done].
    + rewrite (bool_decide_false (pcb = i)) by done. fold (clash (pcb_of u i) a k).
      destruct (clash (pcb_of u i) a k) eqn:Ec.
      { exists i. split_and!; [left | congruence | done]. }
      specialize (IH rb). destruct (bind_scan _ _ _ _ _ _) as [rb' |].
      * destruct IH as [IH ->]. split.
        -- intros j [-> | Hj]%elem_of_cons Hji; [done | auto].
        -- f_equal. apply bool_decide_ext. rewrite elem_of_cons. tauto.
      * destruct IH as (j & Hj & H). exists j. split; [by right | done].
Qed.

(** [udp_bind] on every branch. *)
Lemma bind_spec used l u pcb a k :
  udp_ok used l u -> port_ok u -> pcb ∈ used ->
  exists err u', udp_bind pcb a k u = (err, u') /\
  ((err = ERR_USE /\ u' = u /\ exists i, i ∈ l /\ i <> pcb /\ clash (pcb_of u i) a k = true)
   \/ (err = ERR_OK
       /\ udp_ok used (if bool_decide (pcb ∈ l) then l else pcb :: l) u' /\ port_ok u'
       /\ (forall i, i ∈ l -> i <> pcb -> clash (pcb_of u i) a k = false)
       /\ (k <> 0 -> up_local_port (pcb_of u' pcb) = k)
       /\ (k = 0 -> UDP_LOCAL_PORT_RANGE_START <= up_local_port (pcb_of u' pcb)
                      <= UDP_LOCAL_PORT_RANGE_END
                    /\ forall i, i ∈ l -> up_local_port (pcb_of u i) <> up_local_port (pcb_of u' pcb)
                         \/ i = pcb)
       /\ up_local_ip (pcb_of u' pcb) = a
       /\ up_recv (pcb_of u' pcb) = up_recv (pcb_of u pcb)
       /\ up_recv_arg (pcb_of u' pcb) = up_recv_arg (pcb_of u pcb)
       /\ (forall j, j <> pcb -> pcb_of u' j = pcb_of u j))).
Proof.
  intros Hok Hp Hpu. unfold udp_bind. rewrite (udp_ok_pcbs _ _ _ Hok).
  pose proof (bind_scan_spec u pcb a k l false) as Hs.
  destruct (bind_scan u pcb a k l false) as [rb |]; [| eexists _, _; split; [reflexivity | auto]].
  destruct Hs as [Hcl ->]. cbn [orb].
  set (u1 := upd_pcb pcb (up_set_local_ip a) u).
  assert (Hok1 : udp_ok used l u1) by (by apply upd_pcb_ok).
  (* the port and the state after choosing it *)
  assert (H2 : exists k' u2, (if k =? 0 then udp_new_port u1 else (k, u1)) = (k', u2)
     /\ k' <> 0 /\ udp_ok used l u2 /\ port_ok u2 /\ (forall j, pcb_of u2 j = pcb_of u1 j)
     /\ (k <> 0 -> k' = k)
     /\ (k = 0 -> UDP_LOCAL_PORT_RANGE_START <= k' <= UDP_LOCAL_PORT_RANGE_END
           /\ forall i, i ∈ l -> up_local_port (pcb_of u i) <> k' \/ i = pcb)).
  { destruct (Z.eqb_spec k 0) as [-> | Hk].
    - destruct (new_port_ok used l u1 Hok1 Hp) as (k' & E & Hr & Hfree).
      exists k', (set_udp_port k' u1). split; [done |].
      split; [unfold UDP_LOCAL_PORT_RANGE_START in Hr; lia |].
      split; [destruct Hok1; by split |]. split; [exact Hr |]. split; [done |]. split; [done |].
      intros _. split; [done |]. intros i Hi. destruct (decide (i = pcb)); [by right | left].
      specialize (Hfree i Hi). unfold u1 in Hfree. by rewrite pcb_of_upd_ne in Hfree.
    - exists k, u1. split_and!; done. }
  destruct H2 as (k' & u2 & -> & Hk0 & Hok2 & Hp2 & Hpo & Hkk & Hk00).
  destruct (Z.eqb_spec k' 0); [done |].
  set (u3 := upd_pcb pcb (up_set_local_port k') u2).
  assert (Hok3 : udp_ok used l u3) by (by apply upd_pcb_ok).
  assert (H3 : pcb_of u3 pcb = up_set_local_port k' (up_set_local_ip a (pcb_of u pcb)))
    by (unfold u3; rewrite pcb_of_upd_eq, Hpo; unfold u1; by rewrite pcb_of_upd_eq).
  assert (H3' : forall j, j <> pcb -> pcb_of u3 j = pcb_of u j)
    by (intros j Hj; unfold u3; rewrite pcb_of_upd_ne by done; rewrite Hpo; unfold u1;
        by rewrite pcb_of_upd_ne).
  set (u4 := set_udp_pcbs (Some pcb) (upd_pcb pcb (up_set_next (udp_pcbs u3)) u3)).
  assert (H4 : pcb_of u4 pcb = up_set_next (udp_pcbs u3) (pcb_of u3 pcb))
    by (change (pcb_of u4 pcb) with (pcb_of (upd_pcb pcb (up_set_next (udp_pcbs u3)) u3) pcb);
        by rewrite pcb_of_upd_eq).
  assert (H4' : forall j, j <> pcb -> pcb_of u4 j = pcb_of u j).
  { intros j Hj. change (pcb_of u4 j) with (pcb_of (upd_pcb pcb (up_set_next (udp_pcbs u3)) u3) j).
    rewrite pcb_of_upd_ne by done. auto. }
  destruct (decide (pcb ∈ l)) as [Hin | Hin].
  - rewrite bool_decide_true by done. exists ERR_OK, u3. split; [done |]. right.
    rewrite H3. cbn. split_and!; auto; by apply Hk00.
  - rewrite bool_decide_false by done. exists ERR_OK, u4. split; [done |]. right.
    rewrite H4, H3. cbn. split_and!; auto; [by apply push_ok | by apply Hk00..].
Qed.

(** ** Removal *)

Lemma remove_loop_missing u pcb : forall l h fuel,
  chain (pcb_next u) h l -> pcb ∉ l -> remove_loop fuel pcb h u = u.
Proof.
  induction l as [| x l IH]; intros h [| f] Hc Hp; cbn in Hc; try done.
  - by subst.
  - destruct Hc as [-> Hc]. apply not_elem_of_cons in Hp as [Hpx Hp]. cbn [remove_loop].
    rewrite bool_decide_false; [by apply IH |].
    intros Hx. rewrite Hx in Hc. destruct l as [| y l]; [done |].
    destruct Hc as [[= ->] _]. apply Hp. left.
Qed.

Lemma remove_loop_found pcb : forall l1 u t l2 h fuel,
  chain (pcb_next u) h (l1 ++ t :: pcb :: l2) -> NoDup (l1 ++ t :: pcb :: l2) ->
  (length (l1 ++ t :: pcb :: l2) <= fuel)%nat ->
  remove_loop fuel pcb h u = upd_pcb t (up_set_next (pcb_next u pcb)) u.
Proof.
  induction l1 as [| x l1 IH]; intros u t l2 h fuel Hc Hnd Hf.
  - destruct Hc as (-> & Hn & Hc2). cbn [app] in Hnd.
    destruct fuel as [| f]; [cbn in Hf; lia |]. cbn [remove_loop].
    rewrite bool_decide_true by done. set (u' := upd_pcb t _ u).
    assert (Hnx : pcb_next u' t = pcb_next u pcb)
      by (unfold u', pcb_next at 1; by rewrite pcb_of_upd_eq).
    apply NoDup_cons in Hnd as [Ht Hnd]. apply NoDup_cons in Hnd as [Hpl Hnd].
    rewrite Hnx. apply (remove_loop_missing u' pcb l2); [| done].
    eapply chain_ext; [exact Hc2 |]. intros y Hy. unfold u', pcb_next.
    rewrite pcb_of_upd_ne; [done |]. intros <-. apply Ht. by right.
  - destruct Hc as [-> Hc]. cbn [app length] in *.
    destruct fuel as [| f]; [lia |]. apply NoDup_cons in Hnd as [Hx Hnd]. cbn [remove_loop].
    rewrite bool_decide_false; [apply (IH u t l2); [done | done | lia] |].
    intros Hxp. rewrite Hxp in Hc. destruct l1 as [| y l1]; cbn [app] in *; destruct Hc as [[= ->] _];
      apply NoDup_cons in Hnd as [Hy _]; apply Hy; rewrite ?elem_of_app, !elem_of_cons; auto.
Qed.

Lemma remove_spec used l u pcb :
  udp_ok used l u -> pcb ∈ used ->
  udp_ok (used ∖ {[pcb]}) (remove1 pcb l) (udp_remove pcb u)
  /\ udp_port (udp_remove pcb u) = udp_port u
  /\ forall i, up_local_ip (pcb_of (udp_remove pcb u) i) = up_local_ip (pcb_of u i)
      /\ up_local_port (pcb_of (udp_remove pcb u) i) = up_local_port (pcb_of u i)
      /\ up_recv (pcb_of (udp_remove pcb u) i) = up_recv (pcb_of u i)
      /\ up_recv_arg (pcb_of (udp_remove pcb u) i) = up_recv_arg (pcb_of u i).
Proof.
  intros Hok Hp. pose proof (udp_ok_length _ _ _ Hok) as Hlen. destruct Hok as [Hc Hn Hu Hm].
  unfold udp_remove.
  assert (Hfin : forall u1, chain (pcb_next u1) (udp_pcbs u1) (remove1 pcb l) -> u_memp u1 = u_memp u ->
     udp_ok (used ∖ {[pcb]}) (remove1 pcb l) (set_u_memp (memp_free (Some pcb) (u_memp u1)) u1)).
  { intros u1 Hc1 Hm1. split; [exact Hc1 | by apply NoDup_remove1 | |].
    - intros i [Hi Hne]%elem_of_remove1. rewrite elem_of_difference, elem_of_singleton. auto.
    - cbn. rewrite Hm1. by apply memp_free_ok. }
  destruct (decide (udp_pcbs u = Some pcb)) as [Eh | Eh].
  - rewrite bool_decide_true by done. split; [| split; [done | done]]. apply Hfin; [| done].
    destruct l as [| x l]; cbn in Hc; [congruence |]. destruct Hc as [Ex Hc].
    assert (x = pcb) as -> by congruence. apply NoDup_cons in Hn as [Hpl Hn].
    rewrite remove1_cons_eq by done. exact Hc.
  - rewrite bool_decide_false by done. destruct (decide (pcb ∈ l)) as [Hin | Hin].
    + destruct (NoDup_split_last pcb l Hin) as (l0 & l2 & -> & Hp1).
      assert (Hp2 : pcb ∉ l2).
      { apply NoDup_app in Hn as (_ & _ & Hn). by apply NoDup_cons in Hn as [? _]. }
      destruct l0 as [| t l1 _] using rev_ind; [by destruct Hc as [? _] |].
      rewrite <- app_assoc in *. cbn [app] in *.
      rewrite (remove_loop_found pcb l1 u t l2) by done.
      assert (Hrm : remove1 pcb (l1 ++ t :: pcb :: l2) = l1 ++ t :: l2).
      { rewrite (cons_middle t), app_assoc, remove1_app_mid, <- app_assoc; done. }
      split; [apply Hfin; [rewrite Hrm | done] |].
      * eapply (chain_unlink (pcb_next u)); [exact Hn | exact Hc | |].
        -- unfold pcb_next at 1. by rewrite pcb_of_upd_eq.
        -- intros z Hz. unfold pcb_next at 1. by rewrite pcb_of_upd_ne.
      * split; [done |]. intros i.
        change (pcb_of (set_u_memp ?m ?v) i) with (pcb_of v i).
        change (pcb_of (set_u_memp (memp_free (Some pcb) (u_memp (upd_pcb t (up_set_next (pcb_next u pcb)) u)))
                 (upd_pcb t (up_set_next (pcb_next u pcb)) u)) i)
          with (pcb_of (upd_pcb t (up_set_next (pcb_next u pcb)) u) i).
        rewrite pcb_of_upd. destruct (decide (t = i)) as [-> |]; done.
    + rewrite (remove_loop_missing u pcb l) by done. split; [| split; [done | done]].
      apply Hfin; [by rewrite remove1_notin | done].
Qed.

(** ** Allocation *)

Lemma udp_new_spec used l u :
  udp_ok used l u ->
  match udp_new u with
  | (None, u') => u' = u /\ (forall i, (i < MEMP_NUM_UDP_PCB)%nat -> i ∈ used)
  | (Some i, u') =>
      i ∉ used /\ i ∉ l /\ udp_ok ({[i]} ∪ used) l u' /\ udp_port u' = udp_port u
      /\ pcb_of u' i = mk_udp_pcb 0 0 0 UDP_TTL None 0 0 0 Recv_null 0
      /\ forall j, j <> i -> pcb_of u' j = pcb_of u j
  end.
Proof.
  intros [Hc Hn Hu Hm]. unfold udp_new.
  destruct (memp_malloc (u_memp u)) as [[i |] m] eqn:E.
  - destruct (memp_malloc_ok _ _ _ _ _ Hm E) as (Hi & Hlt & Hm').
    assert (Hil : i ∉ l) by auto.
    assert (Hof : forall j, pcb_of (set_pcb i (mk_udp_pcb 0 0 0 UDP_TTL None 0 0 0 Recv_null 0)
                               (set_u_memp m u)) j
              = if decide (i = j) then mk_udp_pcb 0 0 0 UDP_TTL None 0 0 0 Recv_null 0 else pcb_of u j).
    { intros j. unfold pcb_of. cbn. destruct (decide (i = j)) as [-> |];
        [by rewrite lookup_total_insert_eq | by rewrite lookup_total_insert_ne]. }
    split_and!; [done | done | | done | by rewrite Hof, decide_True | ].
    + split; [| done | | exact Hm'].
      * eapply chain_ext; [exact Hc |]. intros j Hj. unfold pcb_next. rewrite Hof, decide_False; [done |].
        intros ->. done.
      * intros j Hj. apply elem_of_union_r. auto.
    + intros j Hj. rewrite Hof, decide_False; congruence.
  - destruct (memp_malloc_fail _ _ _ _ Hm E) as [-> Hall]. split; [by destruct u | done].
Qed.

(** ** Demultiplexing *)

Lemma demux_loop_spec inp b d u : forall l prev uncon,
  match demux_loop inp b d u l prev uncon with
  | inl (pv, i) => exists l1 l2, l = l1 ++ i :: l2
      /\ local_match inp b d (pcb_of u i) = true /\ remote_match d (pcb_of u i) = true
      /\ (forall j, j ∈ l1 -> local_match inp b d (pcb_of u j) && remote_match d (pcb_of u j) = false)
      /\ pv = match last l1 with Some t => Some t | None => prev end
  | inr un =>
      (forall j, j ∈ l -> local_match inp b d (pcb_of u j) && remote_match d (pcb_of u j) = false)
      /\ un = match uncon with
              | Some i => Some i
              | None => List.find (fun i => local_match inp b d (pcb_of u i)
                                            && negb (connected (pcb_of u i))) l end
  end.
Proof.
  induction l as [| i l IH]; intros prev uncon; cbn [demux_loop].
  - split; [intros j ?%not_elem_of_nil; done | by destruct uncon].
  - destruct (local_match inp b d (pcb_of u i) && remote_match d (pcb_of u i)) eqn:Em.
    + apply andb_true_iff in Em as [? ?]. exists [], l. split_and!; try done.
      intros j ?%not_elem_of_nil; done.
    + specialize (IH (Some i)
        (if local_match inp b d (pcb_of u i) && bool_decide (uncon = None)
            && negb (connected (pcb_of u i)) then Some i else uncon)).
      destruct (demux_loop _ _ _ _ _ _ _) as [[pv k] | un].
      * destruct IH as (l1 & l2 & -> & H1 & H2 & H3 & ->). exists (i :: l1), l2.
        split_and!; [done | done | done | |].
        -- intros j [-> | Hj]%elem_of_cons; auto.
        -- destruct l1 as [| x l1]; [done |]. rewrite last_cons_cons.
           destruct (last (x :: l1)) eqn:El; [done |]. by apply last_None in El.
      * destruct IH as [H1 ->]. split; [intros j [-> | Hj]%elem_of_cons; auto |].
        destruct uncon as [k |].
        { rewrite bool_decide_false by done. by rewrite andb_false_r. }
        rewrite bool_decide_true, andb_true_r by done. cbn [List.find].
        destruct (local_match inp b d (pcb_of u i)), (connected (pcb_of u i)); reflexivity.
Qed.

(** Moving the found block to the front. *)
Lemma move_front_ok used l1 t i l2 u :
  udp_ok used (l1 ++ t :: i :: l2) u ->
  udp_ok used (i :: l1 ++ t :: l2)
    (set_udp_pcbs (Some i)
       (upd_pcb i (up_set_next (udp_pcbs (upd_pcb t (up_set_next (pcb_next u i)) u)))
          (upd_pcb t (up_set_next (pcb_next u i)) u))).
Proof.
  intros [Hc Hn Hu Hm].
  assert (Eapp : l1 ++ t :: i :: l2 = (l1 ++ [t]) ++ i :: l2) by (by rewrite <- app_assoc).
  assert (Hi : i ∉ l1 ++ [t] /\ i ∉ l2) by (apply NoDup_mid; by rewrite <- Eapp).
  assert (Hr : remove1 i (l1 ++ t :: i :: l2) = l1 ++ t :: l2).
  { rewrite Eapp, remove1_app_mid, <- app_assoc; tauto. }
  assert (Hok : udp_ok used (l1 ++ t :: l2) (upd_pcb t (up_set_next (pcb_next u i)) u)).
  { split.
    - eapply (chain_unlink (pcb_next u)); [exact Hn | exact Hc | |].
      + unfold pcb_next at 1. by rewrite pcb_of_upd_eq.
      + intros z Hz. unfold pcb_next at 1. by rewrite pcb_of_upd_ne.
    - rewrite <- Hr. by apply NoDup_remove1.
    - intros j Hj. apply Hu. rewrite <- Hr in Hj. by apply elem_of_remove1 in Hj as [? _].
    - done. }
  apply push_ok; [exact Hok | apply Hu; rewrite Eapp; apply elem_of_app; right; left |].
  rewrite <- Hr, elem_of_remove1. tauto.
Qed.

(** ** No two sockets on one endpoint *)

Definition udp_excl (u : udp_st) (l : list nat) : Prop :=
  forall i j, i ∈ l -> j ∈ l -> i <> j ->
    clash (pcb_of u i) (up_local_ip (pcb_of u j)) (up_local_port (pcb_of u j)) = false.

Lemma clash_sym p q :
  clash p (up_local_ip q) (up_local_port q) = clash q (up_local_ip p) (up_local_port p).
Proof.
  unfold clash, ip_addr_cmp, ip_addr_isany.
  rewrite (Z.eqb_sym (up_local_port p)), (Z.eqb_sym (up_local_ip p) (up_local_ip q)).
  by rewrite (orb_comm (up_local_ip p =? IPADDR_ANY)).
Qed.

(** Exclusivity depends on local addresses and ports only. *)
Lemma udp_excl_ext u u' l l' :
  udp_excl u l -> (forall i, i ∈ l' -> i ∈ l) ->
  (forall i, i ∈ l' -> up_local_ip (pcb_of u' i) = up_local_ip (pcb_of u i)
        /\ up_local_port (pcb_of u' i) = up_local_port (pcb_of u i)) ->
  udp_excl u' l'.
Proof.
  intros He Hs Hf i j Hi Hj Hij. destruct (Hf i Hi) as [E1 E2], (Hf j Hj) as [E3 E4].
  rewrite E3, E4. unfold clash. rewrite E1, E2. by apply (He i j); auto.
Qed.

Lemma bind_excl used l u pcb a k u' :
  udp_ok used l u -> port_ok u -> pcb ∈ used -> udp_excl u l ->
  udp_bind pcb a k u = (ERR_OK, u') ->
  udp_excl u' (if bool_decide (pcb ∈ l) then l else pcb :: l).
Proof.
  intros Hok Hp Hpu He Hb.
  destruct (bind_spec used l u pcb a k Hok Hp Hpu) as (err & u0 & Hb' & H).
  rewrite Hb in Hb'. injection Hb' as <- <-.
  destruct H as [[? _] | (_ & _ & _ & Hcl & Hk & Hk0 & Ha & _ & _ & Hoth)]; [done |].
  assert (Hnew : forall j, j ∈ l -> j <> pcb ->
    clash (pcb_of u' j) (up_local_ip (pcb_of u' pcb)) (up_local_port (pcb_of u' pcb)) = false).
  { intros j Hj Hne. rewrite (Hoth j Hne), Ha. destruct (decide (k = 0)) as [-> | Hk1].
    - destruct (Hk0 eq_refl) as [_ Hfree]. destruct (Hfree j Hj) as [Hf | ?]; [| done].
      unfold clash. apply Z.eqb_neq in Hf. by rewrite Hf.
    - rewrite (Hk Hk1). auto. }
  assert (Hmem : forall j, j ∈ (if bool_decide (pcb ∈ l) then l else pcb :: l) -> j = pcb \/ j ∈ l)
    by (intros j; destruct (bool_decide _); [auto | by intros ?%elem_of_cons]).
  intros i j Hi%Hmem Hj%Hmem Hij.
  destruct (decide (i = pcb)) as [-> | Hip]; [| destruct (decide (j = pcb)) as [-> | Hjp]].
  - rewrite clash_sym. apply Hnew; [by destruct Hj | congruence].
  - apply Hnew; [by destruct Hi | done].
  - rewrite (Hoth i), (Hoth j) by done. apply He; [by destruct Hi | by destruct Hj | done].
Qed.

(** The calls of the raw UDP interface; a control block is passed to them
    between [udp_new] and [udp_remove].  A send ([UdpSend.udp_sendto_if_step]) does to
    the control blocks what one [udp_bind] does, or nothing; start-up and the DHCP
    client use [udp_connect]. *)
Inductive udp_step : gset nat * udp_st -> gset nat * udp_st -> Prop :=
| us_new used u i u' : udp_new u = (Some i, u') -> udp_step (used, u) ({[i]} ∪ used, u')
| us_new_fail used u u' : udp_new u = (None, u') -> udp_step (used, u) (used, u')
| us_bind used u i a k err u' : i ∈ used -> udp_bind i a k u = (err, u') -> udp_step (used, u) (used, u')
| us_connect used u i a k err u' : i ∈ used -> udp_connect i a k u = (err, u') -> udp_step (used, u) (used, u')
| us_disconnect used u i : i ∈ used -> udp_step (used, u) (used, udp_disconnect i u)
| us_recv used u i f arg : i ∈ used -> udp_step (used, u) (used, udp_recv i f arg u)
| us_remove used u i : i ∈ used -> udp_step (used, u) (used ∖ {[i]}, udp_remove i u)
| us_demux used u inp b d r u' : udp_demux inp b d u = (r, u') -> udp_step (used, u) (used, u').

Lemma udp_excl_ports u l : udp_excl u l -> forall i j, i ∈ l -> j ∈ l -> i <> j ->
  up_local_port (pcb_of u i) = up_local_port (pcb_of u j) ->
  up_local_ip (pcb_of u i) <> 0 /\ up_local_ip (pcb_of u j) <> 0
  /\ up_local_ip (pcb_of u i) <> up_local_ip (pcb_of u j).
Proof.
  intros He i j Hi Hj Hij Hp. specialize (He i j Hi Hj Hij). unfold clash in He.
  rewrite Hp, Z.eqb_refl in He. cbn [andb] in He.
  apply orb_false_iff in He as [He E3]. apply orb_false_iff in He as [E1 E2].
  unfold ip_addr_isany, ip_addr_cmp, IPADDR_ANY in *. zb. done.
Qed.


(** What every state keeps. *)
Definition udp_inv (used : gset nat) (l : list nat) (u : udp_st) : Prop :=
  udp_ok used l u /\ port_ok u /\ udp_excl u l.

Lemma udp_inv_init : udp_inv ∅ [] udp_init.
Proof.
  split; [apply udp_ok_init | split].
  - by unfold port_ok, UDP_LOCAL_PORT_RANGE_START, UDP_LOCAL_PORT_RANGE_END.
  - intros i j ?%not_elem_of_nil. done.
Qed.

Lemma udp_new_inv used l u i u' :
  udp_inv used l u -> udp_new u = (Some i, u') -> udp_inv ({[i]} ∪ used) l u'.
Proof.
  intros (Hok & Hp & He) E. pose proof (udp_new_spec _ _ _ Hok) as H. rewrite E in H.
  destruct H as (Hi & Hil & Hok' & Hport & _ & Hoth). split; [done | split].
  - unfold port_ok. by rewrite Hport.
  - eapply udp_excl_ext; [exact He | auto |]. intros j Hj.
    rewrite Hoth; [done |]. intros ->. done.
Qed.

Lemma udp_bind_inv used l u i a k err u' :
  udp_inv used l u -> i ∈ used -> udp_bind i a k u = (err, u') ->
  exists l', udp_inv used l' u' /\ (forall j, j ∈ l -> j ∈ l').
Proof.
  intros (Hok & Hp & He) Hi E.
  destruct (bind_spec used l u i a k Hok Hp Hi) as (err0 & u0 & E0 & H).
  rewrite E in E0. injection E0 as <- <-.
  destruct H as [(-> & -> & _) | (-> & Hok' & Hp' & _)]; [exists l; by split |].
  exists (if bool_decide (i ∈ l) then l else i :: l). split.
  - split; [done | split; [done | by eapply bind_excl]].
  - intros j Hj. destruct (bool_decide _); [done | by right].
Qed.

Lemma udp_remove_inv used l u i :
  udp_inv used l u -> i ∈ used -> udp_inv (used ∖ {[i]}) (remove1 i l) (udp_remove i u).
Proof.
  intros (Hok & Hp & He) Hi. destruct (remove_spec used l u i Hok Hi) as (Hok' & Hport & Hf).
  split; [done | split].
  - unfold port_ok. by rewrite Hport.
  - eapply udp_excl_ext; [exact He | by intros j [? _]%elem_of_remove1 |].
    intros j _. by destruct (Hf j) as (? & ? & _).
Qed.

(** Updates of other fields of a block. *)
Lemma upd_other_inv used l u i f :
  udp_inv used l u ->
  (forall p, up_next (f p) = up_next p /\ up_local_ip (f p) = up_local_ip p
             /\ up_local_port (f p) = up_local_port p) ->
  udp_inv used l (upd_pcb i f u).
Proof.
  intros (Hok & Hp & He) Hf. split; [apply upd_pcb_ok; [done | intros p; apply Hf] | split; [done |]].
  eapply udp_excl_ext; [exact He | auto |]. intros j _. rewrite pcb_of_upd.
  destruct (decide (i = j)) as [-> |]; [| done]. destruct (Hf (pcb_of u j)) as (_ & ? & ?). done.
Qed.

Lemma udp_demux_inv used l u inp b d r u' :
  udp_inv used l u -> udp_demux inp b d u = (r, u') ->
  exists l', udp_inv used l' u' /\ l' ≡ₚ l
    /\ forall j, up_recv (pcb_of u' j) = up_recv (pcb_of u j)
         /\ up_recv_arg (pcb_of u' j) = up_recv_arg (pcb_of u j)
         /\ up_local_ip (pcb_of u' j) = up_local_ip (pcb_of u j)
         /\ up_local_port (pcb_of u' j) = up_local_port (pcb_of u j).
Proof.
  intros (Hok & Hp & He). unfold udp_demux. rewrite (udp_ok_pcbs _ _ _ Hok).
  destruct (_ =? _); [intros [= _ <-]; exists l; done |].
  pose proof (demux_loop_spec inp b d u l None None) as Hs.
  destruct (demux_loop _ _ _ _ _ _ _) as [[[t |] i] | un];
    [| intros [= _ <-]; exists l; done | intros [= _ <-]; exists l; done].
  destruct Hs as (l1 & l2 & -> & _ & _ & _ & Ht). intros [= _ <-].
  destruct l1 as [| t' l1 _] using rev_ind; [done |]. rewrite last_snoc in Ht. injection Ht as <-.
  rewrite <- app_assoc in *. cbn [app] in *.
  assert (Hfld : forall j, let u' := set_udp_pcbs (Some i)
      (upd_pcb i (up_set_next (udp_pcbs (upd_pcb t (up_set_next (pcb_next u i)) u)))
         (upd_pcb t (up_set_next (pcb_next u i)) u)) in
    up_recv (pcb_of u' j) = up_recv (pcb_of u j)
    /\ up_recv_arg (pcb_of u' j) = up_recv_arg (pcb_of u j)
    /\ up_local_ip (pcb_of u' j) = up_local_ip (pcb_of u j)
    /\ up_local_port (pcb_of u' j) = up_local_port (pcb_of u j)).
  { intros j. cbn zeta. change (pcb_of (set_udp_pcbs ?h ?v) j) with (pcb_of v j).
    change (pcb_of (set_udp_pcbs (Some i)
      (upd_pcb i (up_set_next (udp_pcbs (upd_pcb t (up_set_next (pcb_next u i)) u)))
         (upd_pcb t (up_set_next (pcb_next u i)) u))) j)
      with (pcb_of (upd_pcb i (up_set_next (udp_pcbs (upd_pcb t (up_set_next (pcb_next u i)) u)))
         (upd_pcb t (up_set_next (pcb_next u i)) u)) j).
    rewrite !pcb_of_upd. destruct (decide (i = j)) as [-> |], (decide (t = j)) as [-> |];
      try destruct (decide _); subst; done. }
  exists (i :: l1 ++ t :: l2). split; [split; [by apply move_front_ok | split; [done |]] | split].
  - eapply udp_excl_ext; [exact He | | intros j _; by destruct (Hfld j) as (_ & _ & ? & ?)].
    intros j. rewrite !elem_of_cons, !elem_of_app, !elem_of_cons. tauto.
  - rewrite (Permutation_middle l1 (t :: l2) i). f_equiv. apply perm_swap.
  - done.
Qed.

(** The control block found is on the list. *)
Lemma udp_demux_found inp b d u i u' : udp_demux inp b d u = (Some i, u') -> i ∈ pcbs u.
Proof.
  unfold udp_demux. destruct (_ =? _); [done |].
  pose proof (demux_loop_spec inp b d u (pcbs u) None None) as Hs.
  destruct (demux_loop _ _ _ _ _ _ _) as [[pv j] | un].
  - destruct Hs as (l1 & l2 & -> & _). intros H.
    assert (j = i) as -> by (destruct pv; by injection H as -> _). apply elem_of_app. right. left.
  - destruct Hs as [_ ->]. intros [= Hf _]. apply find_some in Hf as [Hf _]. by apply list_elem_of_In.
Qed.

(** With exclusive endpoints the unconnected block bound to the destination is
    the one found. *)
Lemma udp_demux_socket used l u inp d pcb :
  udp_inv used l u -> pcb ∈ l -> connected (pcb_of u pcb) = false ->
  up_local_port (pcb_of u pcb) = dg_dest d -> up_local_ip (pcb_of u pcb) = dg_dest_ip d ->
  dg_dest d <> DHCP_CLIENT_PORT -> exists u', udp_demux inp false d u = (Some pcb, u').
Proof.
  intros (Hok & _ & He) Hin Hc Hp Ha Hd. unfold udp_demux. apply Z.eqb_neq in Hd.
  rewrite Hd, (udp_ok_pcbs _ _ _ Hok).
  assert (Hu : forall i, i ∈ l -> local_match inp false d (pcb_of u i) = true -> i = pcb).
  { intros i Hi Hm. destruct (decide (i = pcb)) as [| Hne]; [done |].
    pose proof (He i pcb Hi Hin Hne) as Hcl. unfold local_match, clash in *. rewrite Hp, Ha in Hcl.
    cbn [negb andb] in Hm. rewrite orb_false_r in Hm.
    apply andb_true_iff in Hm as [Hm1 [Hm2 | Hm2]%orb_true_iff]; rewrite Hm1, Hm2 in Hcl;
      by destruct (ip_addr_isany _), (ip_addr_isany _). }
  assert (Hself : local_match inp false d (pcb_of u pcb) = true).
  { unfold local_match, ip_addr_cmp. rewrite Hp, Ha, !Z.eqb_refl. cbn.
    by rewrite orb_true_r. }
  pose proof (demux_loop_spec inp false d u l None None) as Hs.
  destruct (demux_loop _ _ _ _ _ _ _) as [[pv i] | un].
  - destruct Hs as (l1 & l2 & -> & Hm & _).
    assert (i = pcb) as -> by (apply Hu; [apply elem_of_app; right; left | done]).
    destruct pv; eauto.
  - destruct Hs as [_ ->]. eexists. f_equal.
    destruct (List.find _ l) as [i |] eqn:Ef.
    + apply find_some in Ef as [Hi%list_elem_of_In Hm]. apply andb_true_iff in Hm as [Hm _].
      f_equal. by apply Hu.
    + pose proof (find_none _ _ Ef pcb) as Hn. rewrite <- list_elem_of_In in Hn.
      specialize (Hn Hin). cbn in Hn. by rewrite Hself, Hc in Hn.
Qed.

(** An allocated block with a port is on the list: what [udp_connect] relies on when
    it puts a block on the list without looking for a clash. *)
Definition bound_listed (used : gset nat) (l : list nat) (u : udp_st) : Prop :=
  forall i, i ∈ used -> up_local_port (pcb_of u i) <> 0 -> i ∈ l.
Definition udp_reach (used : gset nat) (u : udp_st) : Prop := exists l, udp_inv used l u /\ bound_listed used l u.

Lemma bound_listed_ext used l l' u u' : bound_listed used l u -> (forall i, i ∈ l -> i ∈ l') ->
  (forall i, up_local_port (pcb_of u' i) = up_local_port (pcb_of u i)) -> bound_listed used l' u'.
Proof. intros Hb Hl Hp i Hi. rewrite Hp. auto. Qed.

Lemma udp_bind_reach used u i a k err u' : udp_reach used u -> i ∈ used -> udp_bind i a k u = (err, u') ->
  udp_reach used u' /\ (err = ERR_OK -> i ∈ pcbs u').
Proof.
  intros (l & (Hok & Hp & He) & Hb) Hi E. destruct (bind_spec used l u i a k Hok Hp Hi) as (err0 & u0 & E0 & H).
  rewrite E in E0. injection E0 as <- <-.
  destruct H as [(-> & -> & _) | (-> & Hok' & Hp' & _ & _ & _ & _ & _ & _ & Hoth)]; [split; [by exists l | done] |].
  set (l' := if bool_decide (i ∈ l) then l else i :: l) in *.
  assert (Hl : forall j, j ∈ l -> j ∈ l') by (intros j Hj; unfold l'; case_bool_decide; [done | by right]).
  assert (Hil : i ∈ l') by (unfold l'; case_bool_decide; [done | left]).
  split; [| intros _; by rewrite (udp_ok_pcbs _ _ _ Hok')]. exists l'. split; [split; [done | split; [done | by eapply bind_excl]] |].
  intros j Hj Hjp. destruct (decide (j = i)) as [-> | Hne]; [done |]. rewrite Hoth in Hjp by done. auto.
Qed.

Lemma udp_connect_reach used u i a k err u' : udp_reach used u -> i ∈ used -> udp_connect i a k u = (err, u') -> udp_reach used u'.
Proof.
  intros Hr Hi. unfold udp_connect.
  destruct (if up_local_port _ =? 0 then _ else _) as [e u1] eqn:E1.
  assert (H1 : udp_reach used u1 /\ (e = ERR_OK -> i ∈ pcbs u1)).
  { revert E1. destruct (Z.eqb_spec (up_local_port (pcb_of u i)) 0) as [_ | Hne]; [by apply udp_bind_reach |].
    intros [= <- <-]. split; [done |]. intros _. destruct Hr as (l & (Hok & _) & Hb). rewrite (udp_ok_pcbs _ _ _ Hok). by apply Hb. }
  destruct H1 as [(l & Hinv & Hb) Hin]. destruct (bool_decide_reflect (e = ERR_OK)) as [-> | _]; cbn [negb]; [| intros [= _ <-]; by exists l].
  set (f := fun p => up_set_remote a k (Z.lor (up_flags p) UDP_FLAGS_CONNECTED) p).
  assert (Hinv' : udp_inv used l (upd_pcb i f u1)) by (by apply upd_other_inv). cbv zeta. rewrite (udp_ok_pcbs _ _ _ (proj1 Hinv')).
  specialize (Hin eq_refl). rewrite (udp_ok_pcbs _ _ _ (proj1 Hinv)) in Hin. rewrite bool_decide_true by done. intros [= _ <-].
  exists l. split; [done |]. apply (bound_listed_ext used l l u1); [done | done |]. intros j. rewrite pcb_of_upd. by destruct (decide (i = j)) as [-> |].
Qed.

Lemma udp_step_reach s s' : udp_step s s' -> udp_reach (fst s) (snd s) -> udp_reach (fst s') (snd s').
Proof.
  intros Hs Hr. destruct Hs as [used u i u' E | used u u' E | used u i a k e u' Hi E | used u i a k e u' Hi E | used u i Hi | used u i f x Hi | used u i Hi | used u inp b d r u' E]; cbn [fst snd] in *.
  - destruct Hr as (l & Hinv & Hb). pose proof (udp_new_spec _ _ _ (proj1 Hinv)) as Hn. rewrite E in Hn. destruct Hn as (_ & _ & _ & _ & Hp & Hoth).
    exists l. split; [by eapply udp_new_inv |]. intros j Hj Hjp. destruct (decide (j = i)) as [-> | Hne]; [by rewrite Hp in Hjp |].
    rewrite Hoth in Hjp by done. apply Hb; [| done]. by apply elem_of_union in Hj as [?%elem_of_singleton |].
  - destruct Hr as (l & Hinv & Hb). pose proof (udp_new_spec _ _ _ (proj1 Hinv)) as Hn. rewrite E in Hn. destruct Hn as [-> _]. by exists l.
  - by eapply udp_bind_reach.
  - by eapply udp_connect_reach.
  - destruct Hr as (l & Hinv & Hb). exists l. split; [by apply upd_other_inv |]. apply (bound_listed_ext used l l u); [done | done |].
    intros j. unfold udp_disconnect. rewrite pcb_of_upd. by destruct (decide (i = j)) as [-> |].
  - destruct Hr as (l & Hinv & Hb). exists l. split; [by apply upd_other_inv |]. apply (bound_listed_ext used l l u); [done | done |].
    intros j. unfold udp_recv. rewrite pcb_of_upd. by destruct (decide (i = j)) as [-> |].
  - destruct Hr as (l & Hinv & Hb). exists (remove1 i l). split; [by apply udp_remove_inv |]. destruct (remove_spec _ _ _ _ (proj1 Hinv) Hi) as (_ & _ & Hf).
    intros j [Hj Hne]%elem_of_difference. destruct (Hf j) as (_ & -> & _). intros Hjp. apply elem_of_remove1. split; [by apply Hb |]. intros ->. by apply Hne, elem_of_singleton.
  - destruct Hr as (l & Hinv & Hb). destruct (udp_demux_inv _ _ _ _ _ _ _ _ Hinv E) as (l' & Hinv' & Hperm & Hf). exists l'. split; [done |].
    apply (bound_listed_ext used l l' u); [done | intros j; by rewrite Hperm |]. intros j. by destruct (Hf j) as (_ & _ & _ & ?).
Qed.

Lemma udp_steps_reach s s' : rtc udp_step s s' -> udp_reach (fst s) (snd s) -> udp_reach (fst s') (snd s').
Proof. induction 1 as [| s s1 s2 Hs _ IH]; [done |]. intros H0. by apply IH, (udp_step_reach s). Qed.

(** ** Properties *)

(** C7. Local endpoints are exclusive in every reachable state: after any
    sequence of allocations, binds (to a port or to an automatic one, which is what
    a send through an unbound block does first), rebinds, connects, callback
    registrations, disconnects, removals and received datagrams, the
    list of bound control blocks is finite and duplicate-free, consists of
    allocated blocks, and no two of them have the same local port with equal or
    wildcard local addresses. *)
Theorem udp_reachable_exclusive used u (Hr : rtc udp_step (∅, udp_init) (used, u)) :
  exists l, pcbs u = l /\ NoDup l /\ (forall i, i ∈ l -> i ∈ used)
    /\ forall i j, i ∈ l -> j ∈ l -> i <> j -> up_local_port (pcb_of u i) = up_local_port (pcb_of u j) ->
         up_local_ip (pcb_of u i) <> 0 /\ up_local_ip (pcb_of u j) <> 0
         /\ up_local_ip (pcb_of u i) <> up_local_ip (pcb_of u j).
Proof.
  assert (H : udp_reach used u).
  { apply (udp_steps_reach _ _ Hr). exists []. split; [apply udp_inv_init | by intros i Hi%not_elem_of_empty]. }
  destruct H as (l & (Hok & _ & He) & _). exists l. pose proof Hok as [_ Hn Hu _].
  split; [by apply (udp_ok_pcbs used) | split; [done | split; [done |]]].
  by apply udp_excl_ports.
Qed.

(** Two sockets on one port of two addresses. *)
Definition ex_udp1 : udp_st := snd (udp_new udp_init).
Definition ex_udp2 : udp_st := snd (udp_bind 19 0x0a00000a 5000 ex_udp1).
Definition ex_udp3 : udp_st := snd (udp_new ex_udp2).
Definition ex_udp : udp_st := snd (udp_bind 18 0x0a00000b 5000 ex_udp3).

Lemma udp_reachable_exclusive_witness :
  pcbs ex_udp = [18; 19]%nat /\
  exists l, pcbs ex_udp = l /\ NoDup l /\ (forall i, i ∈ l -> i ∈ ({[18%nat]} ∪ ({[19%nat]} ∪ ∅) : gset nat))
    /\ forall i j, i ∈ l -> j ∈ l -> i <> j ->
         up_local_port (pcb_of ex_udp i) = up_local_port (pcb_of ex_udp j) ->
         up_local_ip (pcb_of ex_udp i) <> 0 /\ up_local_ip (pcb_of ex_udp j) <> 0
         /\ up_local_ip (pcb_of ex_udp i) <> up_local_ip (pcb_of ex_udp j).
Proof.
  split; [vm_compute; reflexivity |]. apply udp_reachable_exclusive.
  eapply rtc_l; [apply (us_new ∅ udp_init 19 ex_udp1); vm_compute; reflexivity |].
  eapply rtc_l; [apply (us_bind _ ex_udp1 19 0x0a00000a 5000 ERR_OK ex_udp2);
    [apply elem_of_union_l, elem_of_singleton_2; reflexivity | vm_compute; reflexivity] |].
  eapply rtc_l; [apply (us_new _ ex_udp2 18 ex_udp3); vm_compute; reflexivity |].
  eapply rtc_l; [apply (us_bind _ ex_udp3 18 0x0a00000b 5000 ERR_OK ex_udp);
    [apply elem_of_union_l, elem_of_singleton_2; reflexivity | vm_compute; reflexivity] |].
  apply rtc_refl.
Defined.

(** C8. Automatic ports: [udp_new_port] terminates after trying at most 21 ports
    and returns a port of the dynamic range (49152 to 65535) that no bound
    control block uses; it never reports exhaustion. *)
Theorem udp_new_port_spec used l u (Hok : udp_ok used l u) (Hp : port_ok u) :
  exists k, udp_new_port u = (k, set_udp_port k u) /\ 49152 <= k <= 65535
    /\ forall i, i ∈ l -> up_local_port (pcb_of u i) <> k.
Proof. by apply (new_port_ok used l u). Qed.

Lemma udp_new_port_spec_witness :
  exists k, udp_new_port udp_init = (k, set_udp_port k udp_init) /\ 49152 <= k <= 65535
    /\ forall i, i ∈ (@nil nat) -> up_local_port (pcb_of udp_init i) <> k.
Proof.
  apply (udp_new_port_spec ∅ [] udp_init udp_ok_init). split; vm_compute; discriminate.
Defined.

(** C9. Demultiplexing: with exclusive endpoints, a datagram to a unicast
    address and a port that is not the DHCP client's is given to a bound control
    block of that port whose local address is the destination or the wildcard,
    never to a block bound to another address; if an unconnected such block
    exists the datagram finds one; and the list keeps the same control blocks. *)
Theorem udp_demux_target used l u inp d r u'
  (Hinv : udp_inv used l u) (Hport : dg_dest d <> DHCP_CLIENT_PORT)
  (Hd : udp_demux inp false d u = (r, u')) :
  (forall i, r = Some i -> i ∈ l /\ up_local_port (pcb_of u i) = dg_dest d
     /\ (up_local_ip (pcb_of u i) = dg_dest_ip d \/ up_local_ip (pcb_of u i) = 0))
  /\ (r = None -> forall i, i ∈ l -> up_local_port (pcb_of u i) = dg_dest d ->
        up_local_ip (pcb_of u i) = dg_dest_ip d \/ up_local_ip (pcb_of u i) = 0 ->
        connected (pcb_of u i) = true)
  /\ pcbs u' ≡ₚ l.
Proof.
  destruct (udp_demux_inv _ _ _ _ _ _ _ _ Hinv Hd) as (l' & (Hok' & _) & Hperm & _).
  assert (Hl' : pcbs u' ≡ₚ l) by (by rewrite (udp_ok_pcbs _ _ _ Hok')).
  destruct Hinv as (Hok & Hp & He). unfold udp_demux in Hd.
  rewrite (udp_ok_pcbs _ _ _ Hok) in Hd. apply Z.eqb_neq in Hport. rewrite Hport in Hd.
  assert (Hlm : forall i, local_match inp false d (pcb_of u i) = true <->
     up_local_port (pcb_of u i) = dg_dest d
     /\ (up_local_ip (pcb_of u i) = dg_dest_ip d \/ up_local_ip (pcb_of u i) = 0)).
  { intros i. unfold local_match, ip_addr_isany, ip_addr_cmp, IPADDR_ANY. cbn [negb andb].
    rewrite orb_false_r, andb_true_iff, orb_true_iff, !Z.eqb_eq. tauto. }
  pose proof (demux_loop_spec inp false d u l None None) as Hs.
  destruct (demux_loop _ _ _ _ _ _ _) as [[pv i] | un].
  - destruct Hs as (l1 & l2 & -> & H1 & _).
    assert (Hr : r = Some i) by (destruct pv; by injection Hd as <- _). subst r.
    split; [| split; [done | done]]. intros j [= <-].
    split; [apply elem_of_app; right; left | by apply Hlm].
  - injection Hd as <- <-. destruct Hs as [_ ->]. split; [| split; [| done]].
    + intros i Hf. apply find_some in Hf as [Hi%list_elem_of_In Hm].
      apply andb_true_iff in Hm as [Hm _]. split; [done | by apply Hlm].
    + intros Hf i Hi Hpi Hai. pose proof (find_none _ _ Hf i) as Hn.
      rewrite <- list_elem_of_In in Hn. specialize (Hn Hi). cbn in Hn.
      rewrite (proj2 (Hlm i)) in Hn by done. cbn in Hn. by apply negb_false_iff in Hn.
Qed.

Lemma ex_udp_inv : exists l, udp_inv ({[18%nat]} ∪ ({[19%nat]} ∪ ∅)) l ex_udp.
Proof.
  assert (E1 : udp_new udp_init = (Some 19%nat, ex_udp1)) by (vm_compute; reflexivity).
  assert (E2 : udp_bind 19 0x0a00000a 5000 ex_udp1 = (ERR_OK, ex_udp2)) by (vm_compute; reflexivity).
  assert (E3 : udp_new ex_udp2 = (Some 18%nat, ex_udp3)) by (vm_compute; reflexivity).
  assert (E4 : udp_bind 18 0x0a00000b 5000 ex_udp3 = (ERR_OK, ex_udp)) by (vm_compute; reflexivity).
  pose proof (udp_new_inv _ _ _ _ _ udp_inv_init E1) as H1.
  destruct (udp_bind_inv _ _ _ _ _ _ _ _ H1 (elem_of_union_l _ _ _ (elem_of_singleton_2 _ _ eq_refl)) E2)
    as (l2 & H2 & _).
  pose proof (udp_new_inv _ _ _ _ _ H2 E3) as H3.
  destruct (udp_bind_inv _ _ _ _ _ _ _ _ H3 (elem_of_union_l _ _ _ (elem_of_singleton_2 _ _ eq_refl)) E4)
    as (l4 & H4 & _). by exists l4.
Qed.

Definition ex_dgram : dgram := mk_dgram 0x0a000001 0x0a00000a 4000 5000.

Lemma udp_demux_target_witness :
  exists l u', udp_demux netif_zero false ex_dgram ex_udp = (Some 19%nat, u') /\
  (forall i, Some 19%nat = Some i -> i ∈ l /\ up_local_port (pcb_of ex_udp i) = dg_dest ex_dgram
     /\ (up_local_ip (pcb_of ex_udp i) = dg_dest_ip ex_dgram \/ up_local_ip (pcb_of ex_udp i) = 0))
  /\ (Some 19%nat = None -> forall i, i ∈ l -> up_local_port (pcb_of ex_udp i) = dg_dest ex_dgram ->
        up_local_ip (pcb_of ex_udp i) = dg_dest_ip ex_dgram \/ up_local_ip (pcb_of ex_udp i) = 0 ->
        connected (pcb_of ex_udp i) = true)
  /\ pcbs u' ≡ₚ l.
Proof.
  destruct ex_udp_inv as [l Hinv]. exists l, (snd (udp_demux netif_zero false ex_dgram ex_udp)).
  split; [vm_compute; reflexivity |].
  apply (udp_demux_target _ l ex_udp netif_zero ex_dgram (Some 19%nat) _ Hinv);
    [discriminate | vm_compute; reflexivity].
Defined.
