(* ===== verification/Ip.v ===== *)
(** * IP output (core/ipv4/ip.c)

    Neither IP options, fragmentation, forwarding nor loopback are configured.
    The header checksum is computed while the header is built
    ([CHECKSUM_GEN_IP_INLINE]). *)

From S2P Require Import Prelude NetTypes IpAddr Pbuf Chksum Net Chain Etharp Netif.

Definition IP_HLEN : Z := 20.
Definition IP_PROTO_ICMP : Z := 1.
Definition IP_PROTO_UDP : Z := 17.

(** The IP header with the checksum field [chksum]. *)
Definition ip_header (tos len id ttl proto chksum src dest : Z) : list Z :=
  [0x45; tos] ++ be16 len ++ be16 id ++ [0; 0] ++ [ttl; proto] ++ be16 chksum
  ++ be32 src ++ be32 dest.

(** [LWIP_MAKE_U16(a, b)] on this big-endian target. *)
Definition LWIP_MAKE_U16 (a b : Z) : Z := Z.lor (Z.shiftl b 8) a.

(** The running sum of [ip_output_if] and its two folds. *)
Definition ip_chksum_inline (tos len id ttl proto src dest : Z) : Z :=
  let s := u32 (LWIP_MAKE_U16 proto ttl) in
  let s := u32 (s + Z.land dest 0xffff) in
  let s := u32 (s + Z.shiftr dest 16) in
  let s := u32 (s + LWIP_MAKE_U16 tos 0x45) in
  let s := u32 (s + len) in
  let s := u32 (s + id) in
  let s := u32 (s + Z.land src 0xffff) in
  let s := u32 (s + Z.shiftr src 16) in
  let s := u32 (Z.shiftr s 16 + Z.land s 0xffff) in
  let s := u32 (Z.shiftr s 16 + s) in
  u16 (not32 s).

(** [netif->output(netif, p, dest)].  Every configured interface points to
    [etharp_output]; a call through another pointer is recorded as an error. *)
Definition netif_output (np : netif_ptr) (p : pbuf) (dest : Z) (s : net) : err_t * net :=
  match nif_output (netif_of s np) with
  | Fn_etharp_output => etharp_output np p dest s
  | _ => (ERR_IF, s)
  end.

(** [ip_output_if]; [dest] is [None] for [IP_HDRINCL]. *)
Definition ip_output_if (p : pbuf) (src : Z) (dest : option Z) (ttl tos proto : Z)
  (np : netif_ptr) (s : net) : err_t * net :=
  match dest with
  | None => netif_output np p (get32 (p_payload p) 16) s
  | Some dest =>
      match pbuf_header p IP_HLEN with
      | None => (ERR_BUF, s)
      | Some p =>
          let len := htons (u16 (p_tot_len p)) in
          let id := htons (ip_id s) in
          let s := set_ip_id (u16 (ip_id s + 1)) s in
          let src := if ip_addr_isany src then nif_ip_addr (netif_of s np) else src in
          let chksum := ip_chksum_inline tos len id ttl proto src dest in
          let hdr := ip_header tos len id ttl proto chksum src dest in
          netif_output np (set_payload (put 0 hdr (p_payload p)) p) dest s
      end
  end.

(** [ip_output]. *)
Definition ip_output (p : pbuf) (src dest ttl tos proto : Z) (s : net) : err_t * net :=
  match ip_route dest s with
  | None => (ERR_RTE, s)
  | Some np => ip_output_if p src (Some dest) ttl tos proto np s
  end.

(** ** Header checksum *)

Lemma make_u16 a b : is_u8 a -> is_u8 b -> LWIP_MAKE_U16 a b = b * 256 + a.
Proof.
  intros Ha Hb. unfold LWIP_MAKE_U16. rewrite Z.lor_comm, lor_shiftl_add by (unfold is_u8 in *; lia).
  change (2 ^ 8) with 256. lia.
Qed.

Lemma be16_sum x r : is_u16 x -> word_sum (be16 x ++ r) = x + word_sum r.
Proof.
  intros Hx. cbn. rewrite Z.shiftr_div_pow2 by lia. change (2 ^ 8) with 256. word.
Qed.

Lemma be32_sum x r : is_u32 x -> word_sum (be32 x ++ r) = x / 65536 + x mod 65536 + word_sum r.
Proof.
  intros Hx. cbn. rewrite !Z.shiftr_div_pow2 by lia.
  change (2 ^ 8) with 256. change (2 ^ 16) with 65536. change (2 ^ 24) with 16777216. word.
Qed.

Lemma ip_header_sum tos len id ttl proto c src dest :
  is_u8 tos -> is_u16 len -> is_u16 id -> is_u8 ttl -> is_u8 proto -> is_u16 c ->
  is_u32 src -> is_u32 dest ->
  word_sum (ip_header tos len id ttl proto c src dest)
  = c + (0x45 * 256 + tos + len + id + (ttl * 256 + proto)
         + (src / 65536 + src mod 65536) + (dest / 65536 + dest mod 65536)).
Proof.
  intros. unfold ip_header.
  change (word_sum ([0x45; tos] ++ be16 len ++ be16 id ++ [0; 0] ++ [ttl; proto] ++ be16 c ++ be32 src ++ be32 dest))
    with (0x45 * 256 + tos + word_sum (be16 len ++ be16 id ++ [0; 0] ++ [ttl; proto] ++ be16 c ++ be32 src ++ be32 dest)).
  rewrite !be16_sum by done.
  change (word_sum ([0; 0] ++ [ttl; proto] ++ be16 c ++ be32 src ++ be32 dest))
    with (0 * 256 + 0 + (ttl * 256 + proto + word_sum (be16 c ++ be32 src ++ be32 dest))).
  rewrite be16_sum by done. rewrite <- (app_nil_r (be32 dest)), !be32_sum by done.
  cbn [word_sum]. lia.
Qed.

Lemma ip_chksum_inline_spec tos len id ttl proto src dest :
  is_u8 tos -> is_u16 len -> is_u16 id -> is_u8 ttl -> is_u8 proto -> is_u32 src -> is_u32 dest ->
  is_u16 (ip_chksum_inline tos len id ttl proto src dest) /\
  ceq (ip_chksum_inline tos len id ttl proto src dest
       + (0x45 * 256 + tos + len + id + (ttl * 256 + proto)
         + (src / 65536 + src mod 65536) + (dest / 65536 + dest mod 65536))) 0.
Proof.
  intros Ht Hl Hi Htt Hp Hs Hd. unfold ip_chksum_inline.
  rewrite !make_u16 by (done || by split). rewrite !land_ffff, !Z.shiftr_div_pow2 by lia.
  change (2 ^ 16) with 65536.
  set (x := u32 (u32 _ + src / 65536)).
  assert (Hx : x = 0x45 * 256 + tos + len + id + (ttl * 256 + proto)
         + (src / 65536 + src mod 65536) + (dest / 65536 + dest mod 65536)).
  { unfold x. rewrite !u32_small; [lia | ..]; word. }
  assert (Hxr : 0 <= x <= 589815) by (rewrite Hx; unfold is_u8, is_u16, is_u32 in *; Z.div_mod_to_equations; lia).
  rewrite <- Hx. clearbody x. clear Hx.
  rewrite (u32_small (x / 65536 + x mod 65536)) by (unfold is_u32; Z.div_mod_to_equations; lia).
  set (y := x / 65536 + x mod 65536).
  assert (Hy : 0 <= y <= 65544 /\ ceq y x).
  { unfold y. split; [Z.div_mod_to_equations; lia |]. apply (ceq_step _ _ (- (x / 65536))).
    Z.div_mod_to_equations; lia. }
  clearbody y. destruct Hy as [Hy Hyc].
  rewrite (u32_small (y / 65536 + y)) by (unfold is_u32; Z.div_mod_to_equations; lia).
  split; [apply u16_range |]. rewrite <- Hyc.
  set (z := y / 65536 + y). assert (Hz : u16 (not32 z) = 65535 - z mod 65536).
  { unfold u16, not32, z. Z.div_mod_to_equations; lia. }
  rewrite Hz. unfold z. destruct (Z_lt_le_dec y 65536).
  - apply (ceq_step _ _ 1). Z.div_mod_to_equations; lia.
  - apply (ceq_step _ _ 2). Z.div_mod_to_equations; lia.
Qed.

Lemma ip_header_u8 tos len id ttl proto c src dest :
  is_u8 tos -> is_u8 ttl -> is_u8 proto -> Forall is_u8 (ip_header tos len id ttl proto c src dest).
Proof.
  intros. unfold ip_header. repeat (apply Forall_app; split); try apply be16_u8; try apply be32_u8;
    repeat (apply List.Forall_cons; [by (split; lia) || done |]); apply List.Forall_nil.
Qed.

(** The receiver's check of the header [ip_output_if] builds. *)
Lemma ip_header_verifies tos len id ttl proto src dest :
  is_u8 tos -> is_u16 len -> is_u16 id -> is_u8 ttl -> is_u8 proto -> is_u32 src -> is_u32 dest ->
  inet_chksum (ip_header tos len id ttl proto
                 (ip_chksum_inline tos len id ttl proto src dest) src dest) = 0.
Proof.
  intros Ht Hl Hi Htt Hp Hs Hd.
  destruct (ip_chksum_inline_spec tos len id ttl proto src dest) as [Hc Hceq]; [done.. |].
  set (c := ip_chksum_inline _ _ _ _ _ _ _) in *. clearbody c.
  set (h := ip_header tos len id ttl proto c src dest).
  assert (Hh : Forall is_u8 h) by (by apply ip_header_u8).
  destruct (chksum_spec false h Hh) as (Hr & Hcs & Hz).
  { change (Zlen h) with 20. lia. }
  assert (Hsum : word_sum h = c + (0x45 * 256 + tos + len + id + (ttl * 256 + proto)
         + (src / 65536 + src mod 65536) + (dest / 65536 + dest mod 65536)))
    by (by apply ip_header_sum).
  rewrite Hsum in Hcs, Hz. rewrite Hceq in Hcs. unfold inet_chksum, LWIP_CHKSUM.
  set (v := lwip_standard_chksum false h) in *. clearbody v.
  destruct Hcs as [k Hk].
  assert (Hv : v = 65535); [| by rewrite Hv].
  assert (v <> 0) by (unfold is_u8, is_u16, is_u32 in *; Z.div_mod_to_equations; lia). lia.
Qed.

(** ** What reaches the wire *)

Lemma p_len_set_payload d p : p_len (set_payload d p) = Zlen d.
Proof. reflexivity. Qed.

(** The header replaces the bytes [pbuf_header] uncovered. *)
Lemma put_header_bytes q q' hdr n :
  0 < n -> pbuf_header q n = Some q' -> Zlen hdr = n ->
  p_bytes (set_payload (put 0 hdr (p_payload q')) q') = hdr ++ p_bytes q.
Proof.
  intros Hn H Hl. pose proof (header_bytes _ _ _ Hn H) as (Hp & Hd & _).
  rewrite p_bytes_set_payload. rewrite (put0_drop hdr _ (Z.to_nat n)).
  - rewrite <- app_assoc. f_equal. rewrite <- Hd. unfold p_bytes.
    rewrite drop_app_le; [done |]. unfold p_len, Zlen in Hp. lia.
  - unfold Zlen in Hl. lia.
  - unfold p_len, Zlen in Hp. lia.
Qed.

(** The room in front of the payload after taking [n] bytes of it. *)
Lemma header_room q q' n :
  0 < n -> pbuf_header q n = Some q' ->
  Zlen (ps_pre (pb_first q')) = Zlen (ps_pre (pb_first q)) - n
  /\ ps_type (pb_first q') = ps_type (pb_first q) /\ pb_next q' = pb_next q.
Proof. intros Hn H. apply pbuf_header_grow in H as (hd & _ & _ & ? & _ & ? & ?); auto. Qed.

Lemma ip_header_len tos len id ttl proto c src dest :
  Zlen (ip_header tos len id ttl proto c src dest) = 20.
Proof. reflexivity. Qed.

Lemma netif_output_keeps np p d s err s' : netif_output np p d s = (err, s') -> keeps s s'.
Proof. unfold netif_output. destruct (nif_output _); try (by intros [= _ <-]). apply output_keeps. Qed.

Lemma set_ip_id_keeps i s : keeps s (set_ip_id i s).
Proof. split; [done |]. by apply arp_inv_table. Qed.

Lemma ip_output_if_keeps p src dest ttl tos proto np s err s' :
  ip_output_if p src dest ttl tos proto np s = (err, s') -> keeps s s'.
Proof.
  unfold ip_output_if. destruct dest as [dest |]; [| apply netif_output_keeps].
  destruct (pbuf_header p IP_HLEN); [| by intros [= _ <-]].
  intros H%netif_output_keeps. etrans; [apply set_ip_id_keeps | exact H].
Qed.

(** The IP layer's part for a packet with room for its headers. *)
Lemma ip_output_if_sent q src dst ttl tos proto np hop i s
  (Hinv : arp_inv s) (Hconf : netif_conf (netif_of s np))
  (Hroom : 34 <= Zlen (ps_pre (pb_first q))) (Hty : ps_type (pb_first q) = PBUF_RAM)
  (Hlen : 20 + p_tot_len q <= 65535) (Hsrc : ip_addr_isany src = false)
  (Hbc : ip4_addr_isbroadcast dst (netif_of s np) = false)
  (Hmc : ip_addr_ismulticast dst = false)
  (Hhop : next_hop (netif_of s np) dst = Some hop)
  (Hi : (i < ARP_TABLE_SIZE)%nat) (Hst : stable (arp_entry s i))
  (Hip : ae_ipaddr (arp_entry s i) = hop) (Hmac : length (ae_ethaddr (arp_entry s i)) = 6%nat) :
  let len := 20 + p_tot_len q in
  exists s' w, ip_output_if q src (Some dst) ttl tos proto np s = (ERR_OK, s')
    /\ n_wire s' = n_wire s ++ w
         ++ [data_frame (netif_of s np) (ae_ethaddr (arp_entry s i))
              (ip_header tos len (ip_id s) ttl proto
                 (ip_chksum_inline tos len (ip_id s) ttl proto src dst) src dst ++ p_bytes q)]
    /\ (w = [] \/ w = [request_frame (netif_of s np) hop]).
Proof.
  cbn zeta. unfold ip_output_if.
  destruct (pbuf_header_room q IP_HLEN) as [q1 Eq1]; [unfold IP_HLEN; lia | by left |].
  rewrite Eq1, Hsrc.
  destruct (header_bytes _ _ _ (eq_refl : 0 < IP_HLEN) Eq1) as (_ & _ & Hl1).
  destruct (header_room _ _ _ (eq_refl : 0 < IP_HLEN) Eq1) as (Hr1 & Ht1 & _).
  change IP_HLEN with 20 in *. change (Zlen (p_bytes q1) = 20 + p_tot_len q) in Hl1.
  assert (E16 : htons (u16 (p_tot_len q1)) = 20 + p_tot_len q).
  { unfold htons, p_tot_len at 1. rewrite Hl1. apply u16_small.
    pose proof (Zlen_nonneg (p_bytes q)). unfold is_u16, p_tot_len in *. lia. }
  rewrite E16. change (htons (ip_id s)) with (ip_id s).
  set (hdr := ip_header _ _ _ _ _ _ _ _).
  pose proof (put_header_bytes _ _ hdr 20 ltac:(lia) Eq1 eq_refl) as Hb.
  set (q2 := set_payload _ q1) in *.
  destruct (pbuf_header_room q2 SIZEOF_ETH_HDR) as [q3 Eq3].
  { change (pb_first q2) with (mk_pseg (ps_type (pb_first q1)) (ps_pre (pb_first q1)) (put 0 hdr (p_payload q1))).
    cbn [ps_pre]. change SIZEOF_ETH_HDR with 14. lia. }
  { left. change (ps_type (pb_first q2)) with (ps_type (pb_first q1)). congruence. }
  set (s1 := set_ip_id _ s).
  unfold netif_output. change (netif_of s1 np) with (netif_of s np).
  destruct Hconf as (Hlo & Ho & Hh). rewrite Ho.
  destruct (output_resolved_sent np q2 dst hop i s1) as (s' & w & E & Hw & Hc); try done.
  { by eexists. }
  exists s', w. rewrite <- Hb. done.
Qed.

(** ** Properties *)

(** The IP header every output packet gets verifies: for all field values
    the checksum computed on the fly by [ip_output_if] makes the receiver's
    [inet_chksum] over the 20 bytes of the header 0. *)
Theorem ip_header_checksum tos len id ttl proto src dest
  (Ht : is_u8 tos) (Hl : is_u16 len) (Hi : is_u16 id) (Htt : is_u8 ttl) (Hp : is_u8 proto)
  (Hs : is_u32 src) (Hd : is_u32 dest) :
  inet_chksum (ip_header tos len id ttl proto
                 (ip_chksum_inline tos len id ttl proto src dest) src dest) = 0.
Proof. by apply ip_header_verifies. Qed.

Lemma ip_header_checksum_witness :
  inet_chksum (ip_header 0 60 7 255 17
                 (ip_chksum_inline 0 60 7 255 17 0x0a00000a 0x0a000001) 0x0a00000a 0x0a000001) = 0.
Proof. apply (ip_header_checksum 0 60 7 255 17 0x0a00000a 0x0a000001); split; vm_compute; congruence. Defined.
