(* ===== verification/UdpSend.v ===== *)
(** * Sending datagrams (core/udp.c)

    [udp_sendto_if] and its two wrappers over the control blocks and the network
    state. *)

From S2P Require Import Prelude NetTypes IpAddr Pbuf Chksum Net Chain Memp Etharp Netif Udp Ip.

Definition UDP_HLEN : Z := 8.

(** The UDP header with the checksum field [chksum]. *)
Definition udp_header (src dest len chksum : Z) : list Z :=
  be16 src ++ be16 dest ++ be16 len ++ be16 chksum.

(** The pbuf with room for the UDP header: [p] itself or a new one in front of
    it. *)
Definition udp_header_pbuf (p : pbuf) (s : net) : option pbuf * net :=
  match pbuf_header p UDP_HLEN with
  | Some q => (Some q, s)
  | None =>
      match net_pbuf_alloc PBUF_IP UDP_HLEN s with
      | (None, s) => (None, s)
      | (Some q, s) => (Some (if p_tot_len p =? 0 then q else pbuf_chain q p), s)
      end
  end.

(** [udp_sendto_if]. *)
Definition udp_sendto_if (pcb : nat) (p : pbuf) (dst_ip dst_port : Z) (np : netif_ptr)
  (u : udp_st) (s : net) : err_t * udp_st * net :=
  let '(err, u) :=
    if up_local_port (pcb_of u pcb) =? 0
    then udp_bind pcb (up_local_ip (pcb_of u pcb)) (up_local_port (pcb_of u pcb)) u
    else (ERR_OK, u) in
  if negb (bool_decide (err = ERR_OK)) then (err, u, s)
  else
    match udp_header_pbuf p s with
    | (None, s) => (ERR_MEM, u, s)
    | (Some q, s) =>
        let b := pcb_of u pcb in
        if negb (ip_addr_isany (up_local_ip b))
           && negb (ip_addr_cmp (up_local_ip b) (nif_ip_addr (netif_of s np)))
        then (ERR_VAL, u, s)
        else
          let src_ip := if ip_addr_isany (up_local_ip b) then nif_ip_addr (netif_of s np)
                        else up_local_ip b in
          let tot_len := u16 (p_tot_len q) in
          let q := set_payload (put 0 (udp_header (up_local_port b) dst_port tot_len 0)
                                  (p_payload q)) q in
          let q :=
            if Z.land (up_flags b) UDP_FLAGS_NOCHKSUM =? 0 then
              let c := chksum_field (inet_chksum_pseudo q src_ip dst_ip IP_PROTO_UDP tot_len) in
              set_payload (put 6 (be16 c) (p_payload q)) q
            else q in
          let '(err, s) := ip_output_if q src_ip (Some dst_ip) (up_ttl b) (up_tos b)
                             IP_PROTO_UDP np s in
          (err, u, s)
    end.

(** [udp_sendto], [udp_send]. *)
Definition udp_sendto (pcb : nat) (p : pbuf) (dst_ip dst_port : Z) (u : udp_st) (s : net)
  : err_t * udp_st * net :=
  match ip_route dst_ip s with
  | None => (ERR_RTE, u, s)
  | Some np => udp_sendto_if pcb p dst_ip dst_port np u s
  end.
Definition udp_send (pcb : nat) (p : pbuf) (u : udp_st) (s : net) : err_t * udp_st * net :=
  udp_sendto pcb p (up_remote_ip (pcb_of u pcb)) (up_remote_port (pcb_of u pcb)) u s.

(** Sending touches the ARP cache, the heap, the packet id and the wire only. *)
Lemma udp_header_pbuf_keeps p s q s' : udp_header_pbuf p s = (q, s') -> keeps s s'.
Proof.
  unfold udp_header_pbuf. destruct (pbuf_header p UDP_HLEN); [by intros [= _ <-] |].
  destruct (net_pbuf_alloc PBUF_IP UDP_HLEN s) as [[r |] s1] eqn:E; intros [= _ <-];
    by eapply pbuf_alloc_keeps.
Qed.

Lemma udp_sendto_if_keeps pcb p dst port np u s err u' s' :
  udp_sendto_if pcb p dst port np u s = (err, u', s') -> keeps s s'.
Proof.
  unfold udp_sendto_if. destruct (if _ =? 0 then _ else _) as [e u1].
  destruct (negb _); [by intros [= _ _ <-] |].
  destruct (udp_header_pbuf p s) as [[q |] s1] eqn:E; apply udp_header_pbuf_keeps in E as Hk;
    [| by intros [= _ _ <-]].
  destruct (negb _ && _); [by intros [= _ _ <-] |].
  destruct (ip_output_if _ _ _ _ _ _ _ s1) as [e2 s2] eqn:E2. intros [= _ _ <-].
  etrans; [exact Hk | by eapply ip_output_if_keeps].
Qed.

(** ** The datagram on the wire *)

(** The IP packet of a datagram. *)
Definition udp_packet (tos ttl id src dst sport dport uc : Z) (data : list Z) : list Z :=
  let ulen := 8 + Zlen data in
  ip_header tos (20 + ulen) id ttl IP_PROTO_UDP
    (ip_chksum_inline tos (20 + ulen) id ttl IP_PROTO_UDP src dst) src dst
  ++ udp_header sport dport ulen uc ++ data.

(** A chain of one RAM pbuf with the room [pbuf_alloc(PBUF_TRANSPORT)] gives. *)
Record send_pbuf (p : pbuf) (data : list Z) : Prop := {
  sp_next : pb_next p = [];
  sp_type : ps_type (pb_first p) = PBUF_RAM;
  sp_room : Zlen (ps_pre (pb_first p)) = 56;
  sp_data : p_payload p = data
}.

(** What a send does to the control blocks: an automatic bind, or nothing. *)
Lemma udp_sendto_if_step used pcb p dst port np u s err u' s' : pcb ∈ used ->
  udp_sendto_if pcb p dst port np u s = (err, u', s') -> u' = u \/ udp_step (used, u) (used, u').
Proof.
  intros Hp. unfold udp_sendto_if. destruct (if _ =? 0 then _ else _) as [e u1] eqn:E1.
  assert (H1 : u1 = u \/ udp_step (used, u) (used, u1)).
  { revert E1. destruct (_ =? 0); [| intros [= _ <-]; by left]. intros E1. right. by eapply us_bind. }
  destruct (negb _); [by intros [= _ <- _] |]. destruct (udp_header_pbuf p s) as [[q |] s1]; [| by intros [= _ <- _]].
  cbv zeta. destruct (_ && _); [by intros [= _ <- _] |]. destruct (ip_output_if _ _ _ _ _ _ _ _) as [e2 s2]. by intros [= _ <- _].
Qed.

(** The header and checksum [udp_sendto_if] writes make the datagram verify. *)
Lemma udp_verify sport dport len q src dst :
  Forall is_u8 (drop 8 (p_payload q)) -> pb_next q = [] -> 8 <= p_len q -> p_len q <= 65535 ->
  is_u32 src -> is_u32 dst -> is_u16 len ->
  let q0 := set_payload (put 0 (udp_header sport dport len 0) (p_payload q)) q in
  let c := chksum_field (inet_chksum_pseudo q0 src dst IP_PROTO_UDP len) in
  0 < c <= 65535 /\
  inet_chksum_pseudo (set_payload (put 0 (udp_header sport dport len c) (p_payload q)) q)
    src dst IP_PROTO_UDP len = 0.
Proof.
  intros H8 Hn Hlen Hmax Hs Hd Hl. cbn zeta. set (q0 := set_payload _ q).
  assert (Hu : forall c, Zlen (udp_header sport dport len c) = 8) by reflexivity.
  assert (Hq0l : length (p_payload q0) = length (p_payload q)).
  { apply length_put. change (length (udp_header sport dport len 0)) with 8%nat.
    unfold p_len, Zlen in Hlen. lia. }
  assert (Hpl : p_payload q0 = udp_header sport dport len 0 ++ drop 8 (p_payload q)).
  { change (p_payload q0) with (put 0 (udp_header sport dport len 0) (p_payload q)).
    apply put0_drop; [reflexivity |]. unfold p_len, Zlen in Hlen. lia. }
  assert (Hok : pbuf_ok q0).
  { unfold pbuf_ok, p_tot_len. change (p_bytes q0) with (p_payload q0 ++ mjoin (map ps_data (pb_next q))).
    rewrite Hn, app_nil_r. split.
    - rewrite Hpl. apply Forall_app; split; [| done].
      unfold udp_header. repeat (apply Forall_app; split); apply be16_u8.
    - unfold p_len, Zlen in *. rewrite Hq0l. lia. }
  assert (Hz : forall n, (n = 6 \/ n = 7)%nat -> byte_at (p_payload q0) n = 0)
    by (intros n [-> | ->]; unfold byte_at; by rewrite Hpl).
  assert (Hlt : (7 < length (p_payload q0))%nat)
    by (rewrite Hq0l; unfold p_len, Zlen in Hlen; lia).
  destruct (pseudo_verify_put q0 src dst IP_PROTO_UDP len 6 Hok Hs Hd ltac:(done) Hl eq_refl Hlt
    (Hz 6%nat ltac:(auto)) (Hz 7%nat ltac:(auto))) as [Hc Hv].
  split; [exact Hc |]. set (c := chksum_field _) in *.
  rewrite <- Hv. f_equal.
Qed.

Lemma sp_header p data : send_pbuf p data ->
  exists q, pbuf_header p UDP_HLEN = Some q /\ Zlen (ps_pre (pb_first q)) = 48
    /\ ps_type (pb_first q) = PBUF_RAM /\ pb_next q = []
    /\ exists hd, Zlen hd = 8 /\ p_payload q = hd ++ data.
Proof.
  intros [Hn Ht Hr Hd]. destruct (pbuf_header_room p UDP_HLEN) as [q Eq];
    [rewrite Hr; split; done | by left |].
  exists q. destruct (pbuf_header_grow _ _ _ (eq_refl : 0 < UDP_HLEN) Eq)
    as (hd & Hl & Hp & Hn' & _ & Ht' & Hr').
  rewrite Hn in Hn'. rewrite Ht in Ht'. rewrite Hr in Hr'. rewrite Hd in Hp.
  split_and!; [done | exact Hr' | done | done |]. by exists hd.
Qed.

(** The pseudo checksum depends on the bytes of the packet only, not on their
    division into pbufs. *)
Lemma pseudo_division p r src dest proto len :
  pbuf_ok p -> p_bytes r = p_bytes p ->
  is_u32 src -> is_u32 dest -> 0 < proto < 256 -> is_u16 len ->
  inet_chksum_pseudo r src dest proto len = inet_chksum_pseudo p src dest proto len.
Proof.
  intros Hp Hb Hs Hd Hpr Hl.
  assert (Hr : pbuf_ok r) by (unfold pbuf_ok, p_tot_len in *; by rewrite Hb).
  destruct (pseudo_spec p src dest proto len) as (y & -> & Hy & Hc); [done.. |].
  destruct (pseudo_spec r src dest proto len) as (z & -> & Hz & Hc'); [done.. |].
  rewrite Hb in Hc'. assert (H : ceq y z) by (by rewrite Hc, Hc'). destruct H as [k Hk]. lia.
Qed.

(** The datagram [udp_sendto_if] hands to the IP layer: filled header, and a
    checksum that verifies at the receiver. *)
Lemma udp_fill_spec q hd data sport dport src dst :
  p_payload q = hd ++ data -> Zlen hd = 8 -> pb_next q = [] -> Forall is_u8 data ->
  Zlen data <= 65507 -> is_u32 src -> is_u32 dst ->
  let len := u16 (p_tot_len q) in
  let q1 := set_payload (put 0 (udp_header sport dport len 0) (p_payload q)) q in
  let uc := chksum_field (inet_chksum_pseudo q1 src dst IP_PROTO_UDP len) in
  let q2 := set_payload (put 6 (be16 uc) (p_payload q1)) q1 in
  len = 8 + Zlen data /\ p_bytes q2 = udp_header sport dport len uc ++ data
  /\ 0 < uc <= 65535
  /\ forall r, p_bytes r = udp_header sport dport len uc ++ data ->
     inet_chksum_pseudo r src dst IP_PROTO_UDP len = 0.
Proof.
  intros Hpq Hhd Hnx Hd Hl Hs Hdst. cbn zeta.
  pose proof (Zlen_nonneg data) as H0.
  assert (Hlen : u16 (p_tot_len q) = 8 + Zlen data).
  { unfold p_tot_len, p_bytes. rewrite Hpq, Hnx, app_nil_r, Zlen_app, Hhd. apply u16_small.
    unfold is_u16. lia. }
  rewrite Hlen. set (len := 8 + Zlen data) in *.
  set (q1 := set_payload (put 0 _ (p_payload q)) q).
  set (uc := chksum_field _). set (q2 := set_payload (put 6 _ _) q1).
  assert (Hdrop : drop 8 (p_payload q) = data).
  { rewrite Hpq, drop_app_ge by (unfold Zlen in Hhd; lia).
    replace (8 - length hd)%nat with 0%nat by (unfold Zlen in Hhd; lia). apply drop_0. }
  assert (Hb : p_bytes q2 = udp_header sport dport len uc ++ data).
  { change (p_bytes q2) with (put 0 (udp_header sport dport len uc) (p_payload q)
                              ++ mjoin (map ps_data (pb_next q))).
    rewrite Hnx, app_nil_r, (put0_drop _ _ 8); [by rewrite Hdrop | done |].
    rewrite Hpq, length_app. unfold Zlen in *. lia. }
  destruct (udp_verify sport dport len q src dst) as [Huc Hv]; try done;
    try (unfold p_len; rewrite ?Hpq, ?Zlen_app; lia); [by rewrite Hdrop | unfold is_u16, len; lia |].
  change (set_payload (put 0 (udp_header sport dport len _) (p_payload q)) q) with q2 in Hv.
  split_and!; [done | done | apply Huc | apply Huc |].
  intros r Hr. rewrite <- Hv. apply pseudo_division; try done; [| by rewrite Hr, Hb | unfold is_u16, len; lia].
  unfold pbuf_ok, p_tot_len. rewrite Hb. split.
  - apply Forall_app; split; [| done].
    unfold udp_header. repeat (apply Forall_app; split); apply be16_u8.
  - rewrite Zlen_app. change (Zlen (udp_header sport dport len uc)) with 8. lia.
Qed.

Lemma udp_sendto_if_ok pcb p data dst dport np hop i u s
  (Hp : send_pbuf p data) (Hdata : Forall is_u8 data) (Hlen : Zlen data <= 65507)
  (Hport : up_local_port (pcb_of u pcb) <> 0)
  (Hlocal : up_local_ip (pcb_of u pcb) = 0
            \/ up_local_ip (pcb_of u pcb) = nif_ip_addr (netif_of s np))
  (Hflags : Z.land (up_flags (pcb_of u pcb)) UDP_FLAGS_NOCHKSUM = 0)
  (Htos : is_u8 (up_tos (pcb_of u pcb))) (Httl : is_u8 (up_ttl (pcb_of u pcb)))
  (Hid : is_u16 (ip_id s))
  (Hsrc : is_u32 (nif_ip_addr (netif_of s np))) (Hsrc0 : nif_ip_addr (netif_of s np) <> 0)
  (Hdst : is_u32 dst)
  (Hinv : arp_inv s) (Hconf : netif_conf (netif_of s np))
  (Hbc : ip4_addr_isbroadcast dst (netif_of s np) = false)
  (Hmc : ip_addr_ismulticast dst = false)
  (Hhop : next_hop (netif_of s np) dst = Some hop)
  (Hi : (i < ARP_TABLE_SIZE)%nat) (Hst : stable (arp_entry s i))
  (Hip : ae_ipaddr (arp_entry s i) = hop) (Hmac : length (ae_ethaddr (arp_entry s i)) = 6%nat) :
  let b := pcb_of u pcb in
  let src := nif_ip_addr (netif_of s np) in
  let ulen := 8 + Zlen data in
  let ic := ip_chksum_inline (up_tos b) (20 + ulen) (ip_id s) (up_ttl b) IP_PROTO_UDP src dst in
  exists s' w uc, udp_sendto_if pcb p dst dport np u s = (ERR_OK, u, s')
    /\ n_wire s' = n_wire s ++ w
         ++ [data_frame (netif_of s np) (ae_ethaddr (arp_entry s i))
              (udp_packet (up_tos b) (up_ttl b) (ip_id s) src dst (up_local_port b) dport uc data)]
    /\ (w = [] \/ w = [request_frame (netif_of s np) hop])
    /\ inet_chksum (ip_header (up_tos b) (20 + ulen) (ip_id s) (up_ttl b) IP_PROTO_UDP ic src dst) = 0
    /\ 0 < uc <= 65535
    /\ forall r, p_bytes r = udp_header (up_local_port b) dport ulen uc ++ data ->
       inet_chksum_pseudo r src dst IP_PROTO_UDP ulen = 0.
Proof.
  cbn zeta. unfold udp_sendto_if. set (b := pcb_of u pcb) in *.
  rewrite (proj2 (Z.eqb_neq _ _) Hport). cbn [negb bool_decide decide].
  destruct (sp_header p data Hp) as (q & Eq & Hroom & Hty & Hnx & hd & Hhd & Hpq).
  unfold udp_header_pbuf. rewrite Eq. rewrite bool_decide_eq_true_2 by done. cbn [negb].
  change (pcb_of u pcb) with b. set (src := nif_ip_addr (netif_of s np)) in *.
  assert (El : (if ip_addr_isany (up_local_ip b) then src else up_local_ip b) = src
     /\ negb (ip_addr_isany (up_local_ip b)) && negb (ip_addr_cmp (up_local_ip b) src) = false).
  { unfold ip_addr_isany, ip_addr_cmp. destruct Hlocal as [-> | ->]; [done |].
    rewrite Z.eqb_refl, andb_false_r. split; [| done]. case_match; reflexivity. }
  destruct El as [El Ec]. rewrite Ec, El. rewrite (proj2 (Z.eqb_eq _ _) Hflags).
  destruct (udp_fill_spec q hd data (up_local_port b) dport src dst)
    as (Hl & Hb & Huc & Hv); [done.. |].
  rewrite Hl in *. set (uc := chksum_field _) in *. set (q2 := set_payload (put 6 _ _) _) in *.
  assert (Ht2 : p_tot_len q2 = 8 + Zlen data) by (unfold p_tot_len; rewrite Hb, Zlen_app; reflexivity).
  destruct (ip_output_if_sent q2 src dst (up_ttl b) (up_tos b) IP_PROTO_UDP np hop i s)
    as (s' & w & E & Hw & Hc); try done.
  { change (ps_pre (pb_first q2)) with (ps_pre (pb_first q)). lia. }
  { rewrite Ht2. lia. } { by apply Z.eqb_neq. }
  rewrite E. exists s', w, uc. rewrite Hb, Ht2 in Hw. pose proof (Zlen_nonneg data).
  split_and!; try done; try apply Huc.
  apply ip_header_verifies; try done. unfold is_u16. lia.
Qed.

(** ** Properties *)

(** A datagram sent by the program arrives intact: for a bound control block
    whose local address is that of the interface (or any), and a destination
    whose next hop is resolved, [udp_sendto_if] returns [ERR_OK], leaves the
    control blocks unchanged and puts on the wire, after at most one ARP refresh,
    one frame to the MAC of the next hop with the IP header, the UDP header with
    the ports of the control block and of the call, and the data.  The
    receiver's check over the IP header yields 0; the UDP checksum is not 0 and
    the receiver's check over the datagram yields 0, however the datagram is
    divided into pbufs. *)
Theorem udp_sendto_if_sent pcb p data dst dport np hop i u s
  (Hp : send_pbuf p data) (Hdata : Forall is_u8 data) (Hlen : Zlen data <= 65507)
  (Hport : up_local_port (pcb_of u pcb) <> 0)
  (Hlocal : up_local_ip (pcb_of u pcb) = 0
            \/ up_local_ip (pcb_of u pcb) = nif_ip_addr (netif_of s np))
  (Hflags : Z.land (up_flags (pcb_of u pcb)) UDP_FLAGS_NOCHKSUM = 0)
  (Htos : is_u8 (up_tos (pcb_of u pcb))) (Httl : is_u8 (up_ttl (pcb_of u pcb)))
  (Hid : is_u16 (ip_id s))
  (Hsrc : is_u32 (nif_ip_addr (netif_of s np))) (Hsrc0 : nif_ip_addr (netif_of s np) <> 0)
  (Hdst : is_u32 dst)
  (Hinv : arp_inv s) (Hconf : netif_conf (netif_of s np))
  (Hbc : ip4_addr_isbroadcast dst (netif_of s np) = false)
  (Hmc : ip_addr_ismulticast dst = false)
  (Hhop : next_hop (netif_of s np) dst = Some hop)
  (Hi : (i < ARP_TABLE_SIZE)%nat) (Hst : stable (arp_entry s i))
  (Hip : ae_ipaddr (arp_entry s i) = hop) (Hmac : length (ae_ethaddr (arp_entry s i)) = 6%nat) :
  let b := pcb_of u pcb in
  let src := nif_ip_addr (netif_of s np) in
  let ulen := 8 + Zlen data in
  let ic := ip_chksum_inline (up_tos b) (20 + ulen) (ip_id s) (up_ttl b) IP_PROTO_UDP src dst in
  exists s' w uc, udp_sendto_if pcb p dst dport np u s = (ERR_OK, u, s')
    /\ n_wire s' = n_wire s ++ w
         ++ [data_frame (netif_of s np) (ae_ethaddr (arp_entry s i))
              (udp_packet (up_tos b) (up_ttl b) (ip_id s) src dst (up_local_port b) dport uc data)]
    /\ (w = [] \/ w = [request_frame (netif_of s np) hop])
    /\ inet_chksum (ip_header (up_tos b) (20 + ulen) (ip_id s) (up_ttl b) IP_PROTO_UDP ic src dst) = 0
    /\ 0 < uc <= 65535
    /\ forall r, p_bytes r = udp_header (up_local_port b) dport ulen uc ++ data ->
       inet_chksum_pseudo r src dst IP_PROTO_UDP ulen = 0.
Proof. by apply udp_sendto_if_ok. Qed.

(** A datagram from the bound control block of [ex_udp] over [ex_net_resolved]. *)
Definition ex_send_pbuf : pbuf :=
  set_payload [104; 105; 33] (default ex_packet (fst (pbuf_alloc_ram PBUF_TRANSPORT 3 []))).

Lemma udp_sendto_if_sent_witness :
  exists s' w uc, udp_sendto_if 19 ex_send_pbuf 0x0a000001 7 (HdkNetIF 0) ex_udp ex_net_resolved
                  = (ERR_OK, ex_udp, s')
    /\ n_wire s' = n_wire ex_net_resolved ++ w
         ++ [data_frame (netif_of ex_net_resolved (HdkNetIF 0)) [9; 8; 7; 6; 5; 4]
              (udp_packet 0 255 0 0x0a00000a 0x0a000001 5000 7 uc [104; 105; 33])].
Proof.
  destruct (udp_sendto_if_sent 19 ex_send_pbuf [104; 105; 33] 0x0a000001 7 (HdkNetIF 0)
    0x0a000001 0 ex_udp ex_net_resolved) as (s' & w & uc & E & Hw & _);
    try reflexivity; try exact ex_arp_inv_resolved; try (split; vm_compute; congruence).
  - repeat (apply List.Forall_cons; [split; done |]). apply List.Forall_nil.
  - vm_compute. congruence.
  - vm_compute. congruence.
  - right. reflexivity.
  - vm_compute. congruence.
  - repeat split; reflexivity.
  - apply Nat.lt_0_succ.
  - exists s', w, uc. split; [exact E | exact Hw].
Defined.
