(* ===== verification/Dhcp.v ===== *)
(** * The DHCP client (core/dhcp.c)

    The state machine of a client, its messages and its two timers, on the control
    blocks of Udp.v, the interfaces of Netif.v and the sending path of UdpSend.v.
    Dereferencing a null pointer, writing past the options of a message and an
    endless parse have no result. *)

From S2P Require Import Prelude NetTypes IpAddr Pbuf Net Etharp Netif Udp Ip UdpSend DhcpOpt.

(** ** Constants *)

Definition DHCP_OFF : Z := 0.
Definition DHCP_REQUESTING : Z := 1.
Definition DHCP_REBOOTING : Z := 3.
Definition DHCP_REBINDING : Z := 4.
Definition DHCP_RENEWING : Z := 5.
Definition DHCP_SELECTING : Z := 6.
Definition DHCP_BOUND : Z := 10.
Definition DHCP_BACKING_OFF : Z := 12.

Definition DHCP_BOOTREQUEST : Z := 1.
Definition DHCP_BOOTREPLY : Z := 2.
Definition DHCP_DISCOVER : Z := 1.
Definition DHCP_OFFER : Z := 2.
Definition DHCP_REQUEST : Z := 3.
Definition DHCP_DECLINE : Z := 4.
Definition DHCP_ACK : Z := 5.
Definition DHCP_NAK : Z := 6.
Definition DHCP_RELEASE : Z := 7.
Definition DHCP_INFORM : Z := 8.
Definition DHCP_HTYPE_ETH : Z := 1.
Definition DHCP_MAGIC_COOKIE : Z := 0x63825363.

Definition DHCP_OPTION_BROADCAST : Z := 28.
Definition DHCP_OPTION_REQUESTED_IP : Z := 50.
Definition DHCP_OPTION_MESSAGE_TYPE_LEN : Z := 1.
Definition DHCP_OPTION_PARAMETER_REQUEST_LIST : Z := 55.
Definition DHCP_OPTION_MAX_MSG_SIZE : Z := 57.
Definition DHCP_OPTION_MAX_MSG_SIZE_LEN : Z := 2.

Definition DHCP_MIN_OPTIONS_LEN : Z := 68.
Definition DHCP_OPTIONS_LEN : Z := DHCP_MIN_OPTIONS_LEN.
(** [sizeof(struct dhcp_msg)], [sizeof(struct dhcp)]. *)
Definition SIZEOF_DHCP_MSG : Z := DHCP_OPTIONS_OFS + DHCP_OPTIONS_LEN.
Definition SIZEOF_STRUCT_DHCP : Z := 60.
Definition DHCP_CHADDR_LEN : nat := 16.
Definition DHCP_MIN_REPLY_LEN : Z := 44.
Definition DHCP_MAX_MSG_LEN_MIN_REQUIRED : Z := 576.
Definition DHCP_COARSE_TIMER_SECS : Z := 60.
Definition DHCP_FINE_TIMER_MSECS : Z := 500.
Definition REBOOT_TRIES : Z := 2.
Definition NETIF_FLAG_DHCP : Z := 0x08.

(** ** State *)

(** [struct dhcp]; [msg_in] is the payload of the first pbuf of the reply being
    read, [p_out] the message being built, with [msg_out] its payload. *)
Record dhcp := mk_dhcp {
  d_xid : Z;
  d_pcb : option nat;
  d_msg_in : option (list Z);
  d_state : Z;
  d_tries : Z;
  d_subnet_mask_given : Z;
  d_p_out : option pbuf;
  d_options_out_len : Z;
  d_request_timeout : Z;
  d_t1_timeout : Z;
  d_t2_timeout : Z;
  d_server_ip_addr : Z;
  d_offered_ip_addr : Z;
  d_offered_sn_mask : Z;
  d_offered_gw_addr : Z;
  d_offered_t0_lease : Z;
  d_offered_t1_renew : Z;
  d_offered_t2_rebind : Z
}.
Definition dhcp_zero : dhcp := mk_dhcp 0 None None 0 0 0 None 0 0 0 0 0 0 0 0 0 0 0.
Definition d_set_xid x d := mk_dhcp x (d_pcb d) (d_msg_in d) (d_state d) (d_tries d) (d_subnet_mask_given d) (d_p_out d) (d_options_out_len d) (d_request_timeout d) (d_t1_timeout d) (d_t2_timeout d) (d_server_ip_addr d) (d_offered_ip_addr d) (d_offered_sn_mask d) (d_offered_gw_addr d) (d_offered_t0_lease d) (d_offered_t1_renew d) (d_offered_t2_rebind d).
Definition d_set_pcb x d := mk_dhcp (d_xid d) x (d_msg_in d) (d_state d) (d_tries d) (d_subnet_mask_given d) (d_p_out d) (d_options_out_len d) (d_request_timeout d) (d_t1_timeout d) (d_t2_timeout d) (d_server_ip_addr d) (d_offered_ip_addr d) (d_offered_sn_mask d) (d_offered_gw_addr d) (d_offered_t0_lease d) (d_offered_t1_renew d) (d_offered_t2_rebind d).
Definition d_set_msg_in x d := mk_dhcp (d_xid d) (d_pcb d) x (d_state d) (d_tries d) (d_subnet_mask_given d) (d_p_out d) (d_options_out_len d) (d_request_timeout d) (d_t1_timeout d) (d_t2_timeout d) (d_server_ip_addr d) (d_offered_ip_addr d) (d_offered_sn_mask d) (d_offered_gw_addr d) (d_offered_t0_lease d) (d_offered_t1_renew d) (d_offered_t2_rebind d).
Definition d_set_state x d := mk_dhcp (d_xid d) (d_pcb d) (d_msg_in d) x (d_tries d) (d_subnet_mask_given d) (d_p_out d) (d_options_out_len d) (d_request_timeout d) (d_t1_timeout d) (d_t2_timeout d) (d_server_ip_addr d) (d_offered_ip_addr d) (d_offered_sn_mask d) (d_offered_gw_addr d) (d_offered_t0_lease d) (d_offered_t1_renew d) (d_offered_t2_rebind d).
Definition d_set_tries x d := mk_dhcp (d_xid d) (d_pcb d) (d_msg_in d) (d_state d) x (d_subnet_mask_given d) (d_p_out d) (d_options_out_len d) (d_request_timeout d) (d_t1_timeout d) (d_t2_timeout d) (d_server_ip_addr d) (d_offered_ip_addr d) (d_offered_sn_mask d) (d_offered_gw_addr d) (d_offered_t0_lease d) (d_offered_t1_renew d) (d_offered_t2_rebind d).
Definition d_set_subnet_mask_given x d := mk_dhcp (d_xid d) (d_pcb d) (d_msg_in d) (d_state d) (d_tries d) x (d_p_out d) (d_options_out_len d) (d_request_timeout d) (d_t1_timeout d) (d_t2_timeout d) (d_server_ip_addr d) (d_offered_ip_addr d) (d_offered_sn_mask d) (d_offered_gw_addr d) (d_offered_t0_lease d) (d_offered_t1_renew d) (d_offered_t2_rebind d).
Definition d_set_p_out x d := mk_dhcp (d_xid d) (d_pcb d) (d_msg_in d) (d_state d) (d_tries d) (d_subnet_mask_given d) x (d_options_out_len d) (d_request_timeout d) (d_t1_timeout d) (d_t2_timeout d) (d_server_ip_addr d) (d_offered_ip_addr d) (d_offered_sn_mask d) (d_offered_gw_addr d) (d_offered_t0_lease d) (d_offered_t1_renew d) (d_offered_t2_rebind d).
Definition d_set_options_out_len x d := mk_dhcp (d_xid d) (d_pcb d) (d_msg_in d) (d_state d) (d_tries d) (d_subnet_mask_given d) (d_p_out d) x (d_request_timeout d) (d_t1_timeout d) (d_t2_timeout d) (d_server_ip_addr d) (d_offered_ip_addr d) (d_offered_sn_mask d) (d_offered_gw_addr d) (d_offered_t0_lease d) (d_offered_t1_renew d) (d_offered_t2_rebind d).
Definition d_set_request_timeout x d := mk_dhcp (d_xid d) (d_pcb d) (d_msg_in d) (d_state d) (d_tries d) (d_subnet_mask_given d) (d_p_out d) (d_options_out_len d) x (d_t1_timeout d) (d_t2_timeout d) (d_server_ip_addr d) (d_offered_ip_addr d) (d_offered_sn_mask d) (d_offered_gw_addr d) (d_offered_t0_lease d) (d_offered_t1_renew d) (d_offered_t2_rebind d).
Definition d_set_t1_timeout x d := mk_dhcp (d_xid d) (d_pcb d) (d_msg_in d) (d_state d) (d_tries d) (d_subnet_mask_given d) (d_p_out d) (d_options_out_len d) (d_request_timeout d) x (d_t2_timeout d) (d_server_ip_addr d) (d_offered_ip_addr d) (d_offered_sn_mask d) (d_offered_gw_addr d) (d_offered_t0_lease d) (d_offered_t1_renew d) (d_offered_t2_rebind d).
Definition d_set_t2_timeout x d := mk_dhcp (d_xid d) (d_pcb d) (d_msg_in d) (d_state d) (d_tries d) (d_subnet_mask_given d) (d_p_out d) (d_options_out_len d) (d_request_timeout d) (d_t1_timeout d) x (d_server_ip_addr d) (d_offered_ip_addr d) (d_offered_sn_mask d) (d_offered_gw_addr d) (d_offered_t0_lease d) (d_offered_t1_renew d) (d_offered_t2_rebind d).
Definition d_set_server_ip_addr x d := mk_dhcp (d_xid d) (d_pcb d) (d_msg_in d) (d_state d) (d_tries d) (d_subnet_mask_given d) (d_p_out d) (d_options_out_len d) (d_request_timeout d) (d_t1_timeout d) (d_t2_timeout d) x (d_offered_ip_addr d) (d_offered_sn_mask d) (d_offered_gw_addr d) (d_offered_t0_lease d) (d_offered_t1_renew d) (d_offered_t2_rebind d).
Definition d_set_offered_ip_addr x d := mk_dhcp (d_xid d) (d_pcb d) (d_msg_in d) (d_state d) (d_tries d) (d_subnet_mask_given d) (d_p_out d) (d_options_out_len d) (d_request_timeout d) (d_t1_timeout d) (d_t2_timeout d) (d_server_ip_addr d) x (d_offered_sn_mask d) (d_offered_gw_addr d) (d_offered_t0_lease d) (d_offered_t1_renew d) (d_offered_t2_rebind d).
Definition d_set_offered_sn_mask x d := mk_dhcp (d_xid d) (d_pcb d) (d_msg_in d) (d_state d) (d_tries d) (d_subnet_mask_given d) (d_p_out d) (d_options_out_len d) (d_request_timeout d) (d_t1_timeout d) (d_t2_timeout d) (d_server_ip_addr d) (d_offered_ip_addr d) x (d_offered_gw_addr d) (d_offered_t0_lease d) (d_offered_t1_renew d) (d_offered_t2_rebind d).
Definition d_set_offered_gw_addr x d := mk_dhcp (d_xid d) (d_pcb d) (d_msg_in d) (d_state d) (d_tries d) (d_subnet_mask_given d) (d_p_out d) (d_options_out_len d) (d_request_timeout d) (d_t1_timeout d) (d_t2_timeout d) (d_server_ip_addr d) (d_offered_ip_addr d) (d_offered_sn_mask d) x (d_offered_t0_lease d) (d_offered_t1_renew d) (d_offered_t2_rebind d).
Definition d_set_offered_t0_lease x d := mk_dhcp (d_xid d) (d_pcb d) (d_msg_in d) (d_state d) (d_tries d) (d_subnet_mask_given d) (d_p_out d) (d_options_out_len d) (d_request_timeout d) (d_t1_timeout d) (d_t2_timeout d) (d_server_ip_addr d) (d_offered_ip_addr d) (d_offered_sn_mask d) (d_offered_gw_addr d) x (d_offered_t1_renew d) (d_offered_t2_rebind d).
Definition d_set_offered_t1_renew x d := mk_dhcp (d_xid d) (d_pcb d) (d_msg_in d) (d_state d) (d_tries d) (d_subnet_mask_given d) (d_p_out d) (d_options_out_len d) (d_request_timeout d) (d_t1_timeout d) (d_t2_timeout d) (d_server_ip_addr d) (d_offered_ip_addr d) (d_offered_sn_mask d) (d_offered_gw_addr d) (d_offered_t0_lease d) x (d_offered_t2_rebind d).
Definition d_set_offered_t2_rebind x d := mk_dhcp (d_xid d) (d_pcb d) (d_msg_in d) (d_state d) (d_tries d) (d_subnet_mask_given d) (d_p_out d) (d_options_out_len d) (d_request_timeout d) (d_t1_timeout d) (d_t2_timeout d) (d_server_ip_addr d) (d_offered_ip_addr d) (d_offered_sn_mask d) (d_offered_gw_addr d) (d_offered_t0_lease d) (d_offered_t1_renew d) x.

(** The lower stack, the UDP control blocks, the clients in memory, the static
    transaction id, the options of the last reply, and for the control blocks of
    clients the argument of their callback [dhcp_recv]. *)
Record dsys := mk_dsys {
  ds_net : net;
  ds_udp : udp_st;
  ds_mem : gmap nat dhcp;
  ds_xid : Z;
  ds_options : rx_options;
  ds_recv : gmap nat netif_ptr
}.
Definition ds_set_net x s := mk_dsys x (ds_udp s) (ds_mem s) (ds_xid s) (ds_options s) (ds_recv s).
Definition ds_set_udp x s := mk_dsys (ds_net s) x (ds_mem s) (ds_xid s) (ds_options s) (ds_recv s).
Definition ds_set_mem x s := mk_dsys (ds_net s) (ds_udp s) x (ds_xid s) (ds_options s) (ds_recv s).
Definition ds_set_xid x s := mk_dsys (ds_net s) (ds_udp s) (ds_mem s) x (ds_options s) (ds_recv s).
Definition ds_set_options x s := mk_dsys (ds_net s) (ds_udp s) (ds_mem s) (ds_xid s) x (ds_recv s).
Definition ds_set_recv x s := mk_dsys (ds_net s) (ds_udp s) (ds_mem s) (ds_xid s) (ds_options s) x.
Definition nif_set_dhcp d (n : netif) : netif :=
  mk_netif (nif_next n) (nif_ip_addr n) (nif_netmask n) (nif_gw n) (nif_input n)
    (nif_output n) (nif_linkoutput n) (nif_state n) d (nif_mtu n)
    (nif_hwaddr_len n) (nif_hwaddr n) (nif_flags n) (nif_name n) (nif_num n).

(** Functions on the client of an interface: the struct it works on, the rest of
    the state and the interface change; [None] is an access the code must not
    make. *)
Record cl := mk_cl { c_dhcp : dhcp; c_sys : dsys }.
Definition DM (A : Type) : Type := cl -> option (A * cl).
#[export] Instance DM_ret : MRet DM := fun A a c => Some (a, c).
#[export] Instance DM_bind : MBind DM := fun A B f m c =>
  match m c with Some (a, c') => f a c' | None => None end.
Definition dhcp_get : DM dhcp := fun c => Some (c_dhcp c, c).
Definition dhcp_mod (f : dhcp -> dhcp) : DM unit := fun c => Some (tt, mk_cl (f (c_dhcp c)) (c_sys c)).
Definition dhcp_try (f : dhcp -> option dhcp) : DM unit := fun c =>
  d ← f (c_dhcp c); Some (tt, mk_cl d (c_sys c)).
Definition sys_get : DM dsys := fun c => Some (c_sys c, c).
Definition sys_mod (f : dsys -> dsys) : DM unit := fun c => Some (tt, mk_cl (c_dhcp c) (f (c_sys c))).
Definition on_net (f : net -> net) : DM unit := sys_mod (fun s => ds_set_net (f (ds_net s)) s).
Definition deref {A} (p : option A) : DM A := fun c => a ← p; Some (a, c).
Definition get_netif (np : netif_ptr) : DM netif := fun c => Some (netif_of (ds_net (c_sys c)) np, c).
Definition when_ok (e : err_t) (m : DM unit) : DM unit :=
  if bool_decide (e = ERR_OK) then m else mret tt.

(** A function of [netif->dhcp], which it dereferences. *)
Definition on_client {A} (np : netif_ptr) (m : DM A) (s : dsys) : option (A * dsys) :=
  i ← nif_dhcp (netif_of (ds_net s) np);
  d ← ds_mem s !! i;
  '(a, c) ← m (mk_cl d s);
  Some (a, ds_set_mem (<[i := c_dhcp c]> (ds_mem (c_sys c))) (c_sys c)).

(** ** Messages *)

(** [dhcp_set_state]. *)
Definition dhcp_set_state (new_state : Z) (d : dhcp) : dhcp :=
  if new_state =? d_state d then d
  else d_set_request_timeout 0 (d_set_tries 0 (d_set_state new_state d)).

(** [dhcp->msg_out->options[dhcp->options_out_len++] = x]. *)
Definition emit (x : Z) (d : dhcp) : option dhcp :=
  p ← d_p_out d;
  if d_options_out_len d <? DHCP_OPTIONS_LEN then
    let off := Z.to_nat (DHCP_OPTIONS_OFS + d_options_out_len d) in
    Some (d_set_options_out_len (u16 (d_options_out_len d + 1))
            (d_set_p_out (Some (set_payload (put off [x] (p_payload p)) p)) d))
  else None.
Definition dhcp_option (option_type option_len : Z) (d : dhcp) : option dhcp :=
  d ← emit option_type d; emit option_len d.
Definition dhcp_option_byte (value : Z) (d : dhcp) : option dhcp := emit value d.
Definition dhcp_option_short (value : Z) (d : dhcp) : option dhcp :=
  d ← emit (Z.shiftr (Z.land value 0xff00) 8) d; emit (Z.land value 0xff) d.
Definition dhcp_option_long (value : Z) (d : dhcp) : option dhcp :=
  d ← emit (Z.shiftr (Z.land value 0xff000000) 24) d;
  d ← emit (Z.shiftr (Z.land value 0x00ff0000) 16) d;
  d ← emit (Z.shiftr (Z.land value 0x0000ff00) 8) d;
  emit (Z.land value 0x000000ff) d.

(** The padding loop of [dhcp_option_trailer]; it ends at [DHCP_OPTIONS_LEN]. *)
Fixpoint pad_loop (fuel : nat) (d : dhcp) : option dhcp :=
  match fuel with
  | O => None
  | S fuel =>
      let n := d_options_out_len d in
      if ((n <? DHCP_MIN_OPTIONS_LEN) || negb (Z.land n 3 =? 0)) && (n <? DHCP_OPTIONS_LEN)
      then d ← emit 0 d; pad_loop fuel d
      else Some d
  end.
Definition pad_fuel : nat := S (Z.to_nat DHCP_OPTIONS_LEN).
Definition dhcp_option_trailer (d : dhcp) : option dhcp :=
  d ← emit DHCP_OPTION_END d; pad_loop pad_fuel d.

(** The fixed part of [struct dhcp_msg] of a request. *)
Definition dhcp_msg_header (n : netif) (xid ciaddr : Z) : list Z :=
  [DHCP_BOOTREQUEST; DHCP_HTYPE_ETH; nif_hwaddr_len n; 0] ++ be32 xid ++ be16 0 ++ be16 0
  ++ be32 ciaddr ++ be32 0 ++ be32 0 ++ be32 0
  ++ map (fun i => if Z.of_nat i <? nif_hwaddr_len n then byte_at (nif_hwaddr n) i else 0) (seq 0 DHCP_CHADDR_LEN)
  ++ replicate (Z.to_nat DHCP_SNAME_LEN) 0 ++ replicate (Z.to_nat DHCP_FILE_LEN) 0
  ++ be32 DHCP_MAGIC_COOKIE.

(** [dhcp_create_msg]. *)
Definition dhcp_create_msg (np : netif_ptr) (message_type : Z) : DM err_t :=
  s ← sys_get;
  let '(p, net) := net_pbuf_alloc PBUF_TRANSPORT SIZEOF_DHCP_MSG (ds_net s) in
  on_net (fun _ => net) ;;
  dhcp_mod (d_set_p_out p) ;;
  match p with
  | None => mret ERR_MEM
  | Some p =>
      d ← dhcp_get;
      (if d_tries d =? 0 then sys_mod (fun s => ds_set_xid (u32 (ds_xid s + 1)) s) else mret tt) ;;
      s ← sys_get;
      dhcp_mod (d_set_xid (ds_xid s)) ;;
      n ← get_netif np;
      let ciaddr :=
        if (message_type =? DHCP_INFORM) || (message_type =? DHCP_DECLINE)
           || ((message_type =? DHCP_REQUEST)
               && ((d_state d =? DHCP_RENEWING) || (d_state d =? DHCP_REBINDING)))
        then nif_ip_addr n else 0 in
      let msg := dhcp_msg_header n (ds_xid s) ciaddr
                 ++ map Z.of_nat (seq 0 (Z.to_nat DHCP_OPTIONS_LEN)) in
      dhcp_mod (d_set_p_out (Some (set_payload (put 0 msg (p_payload p)) p))) ;;
      dhcp_mod (d_set_options_out_len 0) ;;
      dhcp_try (dhcp_option DHCP_OPTION_MESSAGE_TYPE DHCP_OPTION_MESSAGE_TYPE_LEN) ;;
      dhcp_try (dhcp_option_byte message_type) ;;
      mret ERR_OK
  end.

(** [dhcp_delete_msg]. *)
Definition dhcp_delete_msg (d : dhcp) : dhcp := d_set_p_out None d.

(** The end of every message: trailer, the pbuf cut to the content, and the
    message to port [DHCP_SERVER_PORT] of [dst] through [pcb]. *)
Definition dhcp_send_msg (np : netif_ptr) (pcb : option nat) (dst : Z) : DM unit :=
  dhcp_try dhcp_option_trailer ;;
  d ← dhcp_get;
  p ← deref (d_p_out d);
  let p := pbuf_realloc p (SIZEOF_DHCP_MSG - DHCP_OPTIONS_LEN + d_options_out_len d) in
  pcb ← deref pcb;
  s ← sys_get;
  let '(_, u, net) := udp_sendto_if pcb p dst DHCP_SERVER_PORT np (ds_udp s) (ds_net s) in
  sys_mod (fun s => ds_set_udp u (ds_set_net net s)) ;;
  dhcp_mod dhcp_delete_msg.

(** ** The requests of the state machine *)

(** [dhcp->tries++] and the timeout of [msecs] (16 bits) it gives. *)
Definition dhcp_retry (msecs : Z -> Z) (d : dhcp) : dhcp :=
  let d := d_set_tries (u8 (d_tries d + 1)) d in
  d_set_request_timeout
    (u16 ((u16 (msecs (d_tries d)) + DHCP_FINE_TIMER_MSECS - 1) / DHCP_FINE_TIMER_MSECS)) d.
(** [(dhcp->tries < 6 ? 1 << dhcp->tries : 60) * 1000], and the back-off by steps
    of 2 or 1 seconds. *)
Definition backoff_exp (tries : Z) : Z := (if tries <? 6 then Z.shiftl 1 tries else 60) * 1000.
Definition backoff_renew (tries : Z) : Z := if tries <? 10 then tries * 2000 else 20 * 1000.
Definition backoff_lin (tries : Z) : Z := if tries <? 10 then tries * 1000 else 10 * 1000.

(** The two options the requests share. *)
Definition opt_max_msg_size (size : Z) : DM unit :=
  dhcp_try (dhcp_option DHCP_OPTION_MAX_MSG_SIZE DHCP_OPTION_MAX_MSG_SIZE_LEN) ;;
  dhcp_try (dhcp_option_short size).
Definition opt_parameter_request_list : DM unit :=
  dhcp_try (dhcp_option DHCP_OPTION_PARAMETER_REQUEST_LIST 4) ;;
  dhcp_try (dhcp_option_byte DHCP_OPTION_SUBNET_MASK) ;;
  dhcp_try (dhcp_option_byte DHCP_OPTION_ROUTER) ;;
  dhcp_try (dhcp_option_byte DHCP_OPTION_BROADCAST) ;;
  dhcp_try (dhcp_option_byte DHCP_OPTION_DNS_SERVER).

(** [dhcp_discover]. *)
Definition dhcp_discover (np : netif_ptr) : DM err_t :=
  dhcp_mod (d_set_offered_ip_addr 0) ;;
  dhcp_mod (dhcp_set_state DHCP_SELECTING) ;;
  result ← dhcp_create_msg np DHCP_DISCOVER;
  when_ok result (
    n ← get_netif np;
    opt_max_msg_size (nif_mtu n) ;;
    opt_parameter_request_list ;;
    d ← dhcp_get;
    dhcp_send_msg np (d_pcb d) IPADDR_BROADCAST) ;;
  dhcp_mod (dhcp_retry backoff_exp) ;;
  mret result.

(** [dhcp_select]. *)
Definition dhcp_select (np : netif_ptr) : DM err_t :=
  dhcp_mod (dhcp_set_state DHCP_REQUESTING) ;;
  result ← dhcp_create_msg np DHCP_REQUEST;
  when_ok result (
    n ← get_netif np;
    d ← dhcp_get;
    opt_max_msg_size (nif_mtu n) ;;
    dhcp_try (dhcp_option DHCP_OPTION_REQUESTED_IP 4) ;;
    dhcp_try (dhcp_option_long (ntohl (d_offered_ip_addr d))) ;;
    dhcp_try (dhcp_option DHCP_OPTION_SERVER_ID 4) ;;
    dhcp_try (dhcp_option_long (ntohl (d_server_ip_addr d))) ;;
    opt_parameter_request_list ;;
    d ← dhcp_get;
    dhcp_send_msg np (d_pcb d) IPADDR_BROADCAST) ;;
  dhcp_mod (dhcp_retry backoff_exp) ;;
  mret result.

(** [dhcp_renew]. *)
Definition dhcp_renew (np : netif_ptr) : DM err_t :=
  dhcp_mod (dhcp_set_state DHCP_RENEWING) ;;
  result ← dhcp_create_msg np DHCP_REQUEST;
  when_ok result (
    n ← get_netif np;
    opt_max_msg_size (nif_mtu n) ;;
    d ← dhcp_get;
    dhcp_send_msg np (d_pcb d) (d_server_ip_addr d)) ;;
  dhcp_mod (dhcp_retry backoff_renew) ;;
  mret result.

(** [dhcp_rebind]. *)
Definition dhcp_rebind (np : netif_ptr) : DM err_t :=
  dhcp_mod (dhcp_set_state DHCP_REBINDING) ;;
  result ← dhcp_create_msg np DHCP_REQUEST;
  when_ok result (
    n ← get_netif np;
    opt_max_msg_size (nif_mtu n) ;;
    d ← dhcp_get;
    dhcp_send_msg np (d_pcb d) IPADDR_BROADCAST) ;;
  dhcp_mod (dhcp_retry backoff_lin) ;;
  mret result.

(** [dhcp_reboot]. *)
Definition dhcp_reboot (np : netif_ptr) : DM err_t :=
  dhcp_mod (dhcp_set_state DHCP_REBOOTING) ;;
  result ← dhcp_create_msg np DHCP_REQUEST;
  when_ok result (
    d ← dhcp_get;
    opt_max_msg_size 576 ;;
    dhcp_try (dhcp_option DHCP_OPTION_REQUESTED_IP 4) ;;
    dhcp_try (dhcp_option_long (ntohl (d_offered_ip_addr d))) ;;
    d ← dhcp_get;
    dhcp_send_msg np (d_pcb d) IPADDR_BROADCAST) ;;
  dhcp_mod (dhcp_retry backoff_lin) ;;
  mret result.

(** [dhcp_release]. *)
Definition dhcp_release (np : netif_ptr) : DM err_t :=
  dhcp_mod (dhcp_set_state DHCP_OFF) ;;
  dhcp_mod (d_set_server_ip_addr 0) ;;
  dhcp_mod (d_set_offered_ip_addr 0) ;;
  dhcp_mod (d_set_offered_sn_mask 0) ;;
  dhcp_mod (d_set_offered_gw_addr 0) ;;
  dhcp_mod (d_set_offered_t2_rebind 0) ;;
  dhcp_mod (d_set_offered_t1_renew 0) ;;
  dhcp_mod (d_set_offered_t0_lease 0) ;;
  result ← dhcp_create_msg np DHCP_RELEASE;
  when_ok result (
    d ← dhcp_get;
    dhcp_send_msg np (d_pcb d) (d_server_ip_addr d)) ;;
  dhcp_mod (dhcp_retry backoff_lin) ;;
  on_net (netif_set_down np) ;;
  on_net (netif_set_ipaddr np 0) ;;
  on_net (netif_set_gw np 0) ;;
  on_net (netif_set_netmask np 0) ;;
  mret result.

(** ** Replies *)

(** One of the two timers of [dhcp_bind], from the seconds offered. *)
Definition lease_timer (secs : Z) : Z :=
  let timeout := u32 (secs + DHCP_COARSE_TIMER_SECS / 2) / DHCP_COARSE_TIMER_SECS in
  let timeout := if 0xffff <? timeout then 0xffff else timeout in
  if u16 timeout =? 0 then 1 else u16 timeout.
(** The mask for an address whose reply gave none, and the first host of its
    network. *)
Definition class_mask (addr : Z) : Z :=
  let first_octet := ip4_addr1 addr in
  if first_octet <=? 127 then 0xff000000
  else if 192 <=? first_octet then 0xffffff00
  else 0xffff0000.
Definition dhcp_timers (d : dhcp) : dhcp :=
  let d := if d_offered_t1_renew d =? 0xffffffff then d
           else d_set_t1_timeout (lease_timer (d_offered_t1_renew d)) d in
  let d := if d_offered_t2_rebind d =? 0xffffffff then d
           else d_set_t2_timeout (lease_timer (d_offered_t2_rebind d)) d in
  if (d_t2_timeout d <=? d_t1_timeout d) && (0 <? d_t2_timeout d) then d_set_t1_timeout 0 d else d.

(** [dhcp_bind]. *)
Definition dhcp_bind (np : netif_ptr) : DM unit :=
  dhcp_mod dhcp_timers ;;
  d ← dhcp_get;
  let sn_mask := if d_subnet_mask_given d =? 0 then class_mask (d_offered_ip_addr d)
                 else d_offered_sn_mask d in
  let gw_addr := d_offered_gw_addr d in
  let gw_addr := if ip_addr_isany gw_addr
                 then Z.lor (Z.land (d_offered_ip_addr d) sn_mask) 1 else gw_addr in
  on_net (netif_set_ipaddr np (d_offered_ip_addr d)) ;;
  on_net (netif_set_netmask np sn_mask) ;;
  on_net (netif_set_gw np gw_addr) ;;
  on_net (netif_set_up np) ;;
  dhcp_mod (dhcp_set_state DHCP_BOUND).

(** [yiaddr] of [dhcp->msg_in]. *)
Definition yiaddr (msg : list Z) : Z := get32 msg 16.

(** [dhcp_handle_ack]. *)
Definition dhcp_handle_ack (o : rx_options) (d : dhcp) : option dhcp :=
  let d := d_set_offered_gw_addr 0 (d_set_offered_sn_mask 0 d) in
  let d := match dhcp_get_option DHCP_OPTION_IDX_LEASE_TIME o with
           | Some v => d_set_offered_t0_lease v d | None => d end in
  let d := match dhcp_get_option DHCP_OPTION_IDX_T1 o with
           | Some v => d_set_offered_t1_renew v d
           | None => d_set_offered_t1_renew (d_offered_t0_lease d / 2) d end in
  let d := match dhcp_get_option DHCP_OPTION_IDX_T2 o with
           | Some v => d_set_offered_t2_rebind v d
           | None => d_set_offered_t2_rebind (d_offered_t0_lease d) d end in
  msg ← d_msg_in d;
  let d := d_set_offered_ip_addr (yiaddr msg) d in
  let d := match dhcp_get_option DHCP_OPTION_IDX_SUBNET_MASK o with
           | Some v => d_set_subnet_mask_given 1 (d_set_offered_sn_mask (htonl v) d)
           | None => d_set_subnet_mask_given 0 d end in
  Some (match dhcp_get_option DHCP_OPTION_IDX_ROUTER o with
        | Some v => d_set_offered_gw_addr (htonl v) d | None => d end).

(** [dhcp_handle_nak]. *)
Definition dhcp_handle_nak (np : netif_ptr) : DM unit :=
  on_net (netif_set_down np) ;;
  on_net (netif_set_ipaddr np 0) ;;
  on_net (netif_set_gw np 0) ;;
  on_net (netif_set_netmask np 0) ;;
  dhcp_mod (dhcp_set_state DHCP_BACKING_OFF) ;;
  dhcp_discover np ;;
  mret tt.

(** [dhcp_handle_offer]. *)
Definition dhcp_handle_offer (np : netif_ptr) : DM unit :=
  s ← sys_get;
  match dhcp_get_option DHCP_OPTION_IDX_SERVER_ID (ds_options s) with
  | None => mret tt
  | Some v =>
      dhcp_mod (d_set_server_ip_addr (htonl v)) ;;
      d ← dhcp_get;
      msg ← deref (d_msg_in d);
      dhcp_mod (d_set_offered_ip_addr (yiaddr msg)) ;;
      dhcp_select np ;;
      mret tt
  end.

(** The comparisons of [dhcp_recv] before it reads the options. *)
Definition reply_matches (n : netif) (xid : Z) (msg : list Z) : bool :=
  (byte_at msg 0 =? DHCP_BOOTREPLY)
  && forallb (fun i => byte_at (nif_hwaddr n) i =? byte_at msg (28 + i)) (seq 0 (Z.to_nat (nif_hwaddr_len n)))
  && (ntohl (get32 msg 4) =? xid).
(** The state machine on a message type. *)
Definition dhcp_message (np : netif_ptr) (msg_type : Z) (o : rx_options) : DM unit :=
  d ← dhcp_get;
  if msg_type =? DHCP_ACK then
    if d_state d =? DHCP_REQUESTING then
      dhcp_try (dhcp_handle_ack o) ;; dhcp_bind np
    else if (d_state d =? DHCP_REBOOTING) || (d_state d =? DHCP_REBINDING) || (d_state d =? DHCP_RENEWING)
    then dhcp_bind np
    else mret tt
  else if (msg_type =? DHCP_NAK)
          && ((d_state d =? DHCP_REBOOTING) || (d_state d =? DHCP_REQUESTING)
              || (d_state d =? DHCP_REBINDING) || (d_state d =? DHCP_RENEWING))
  then dhcp_handle_nak np
  else if (msg_type =? DHCP_OFFER) && (d_state d =? DHCP_SELECTING) then
    dhcp_mod (d_set_request_timeout 0) ;; dhcp_handle_offer np
  else mret tt.

(** [dhcp_recv] on the payloads of the packet; [fuel] is that of the parse. *)
Definition dhcp_recv_body (fuel : nat) (np : netif_ptr) (p : list (list Z)) : DM unit :=
  reply_msg ← deref (head p);
  n ← get_netif np;
  d ← dhcp_get;
  if Zlen reply_msg <? DHCP_MIN_REPLY_LEN then mret tt
  else if negb (reply_matches n (d_xid d) reply_msg) then mret tt
  else
    '(e, o) ← deref (dhcp_parse_reply fuel p);
    sys_mod (ds_set_options o) ;;
    dhcp_mod (d_set_msg_in (Some reply_msg)) ;;
    when_ok e
      (match dhcp_get_option DHCP_OPTION_IDX_MSG_TYPE o with
       | None => mret tt
       | Some v => dhcp_message np (u8 v) o
       end).
Definition dhcp_recv (fuel : nat) (np : netif_ptr) (p : list (list Z)) : DM unit :=
  dhcp_recv_body fuel np p ;; dhcp_mod (d_set_msg_in None).

(** The branch of [udp_input] for port [DHCP_CLIENT_PORT] and the call of the
    callback with the payload behind the UDP header. *)
Definition dhcp_udp_input (fuel : nat) (inp : netif_ptr) (src_ip src_port : Z) (p : list (list Z)) (s : dsys)
  : option dsys :=
  if src_port =? DHCP_SERVER_PORT then
    match nif_dhcp (netif_of (ds_net s) inp) with
    | None => Some s
    | Some i =>
        d ← ds_mem s !! i;
        match d_pcb d with
        | None => Some s
        | Some pcb =>
            let remote := up_remote_ip (pcb_of (ds_udp s) pcb) in
            if ip_addr_isany remote || ip_addr_cmp remote src_ip then
              match ds_recv s !! pcb with
              | None => Some s
              | Some np => '(_, s) ← on_client np (dhcp_recv fuel np p) s; Some s
              end
            else Some s
        end
    end
  else Some s.

(** ** Timers *)

(** [dhcp_timeout]. *)
Definition dhcp_timeout (np : netif_ptr) : DM unit :=
  d ← dhcp_get;
  if (d_state d =? DHCP_BACKING_OFF) || (d_state d =? DHCP_SELECTING) then
    dhcp_discover np ;; mret tt
  else if d_state d =? DHCP_REQUESTING then
    if d_tries d <=? 5 then dhcp_select np ;; mret tt
    else dhcp_release np ;; dhcp_discover np ;; mret tt
  else if d_state d =? DHCP_RENEWING then dhcp_renew np ;; mret tt
  else if d_state d =? DHCP_REBINDING then
    if d_tries d <=? 8 then dhcp_rebind np ;; mret tt
    else dhcp_release np ;; dhcp_discover np ;; mret tt
  else if d_state d =? DHCP_REBOOTING then
    if d_tries d <? REBOOT_TRIES then dhcp_reboot np ;; mret tt
    else dhcp_discover np ;; mret tt
  else mret tt.

(** [dhcp_t1_timeout], [dhcp_t2_timeout]. *)
Definition has_lease (d : dhcp) : bool :=
  (d_state d =? DHCP_REQUESTING) || (d_state d =? DHCP_BOUND) || (d_state d =? DHCP_RENEWING).
Definition dhcp_t1_timeout (np : netif_ptr) : DM unit :=
  d ← dhcp_get; if has_lease d then dhcp_renew np ;; mret tt else mret tt.
Definition dhcp_t2_timeout (np : netif_ptr) : DM unit :=
  d ← dhcp_get; if has_lease d then dhcp_rebind np ;; mret tt else mret tt.

(** The bodies of the loops of [dhcp_coarse_tmr] and [dhcp_fine_tmr]. *)
Definition coarse_body (np : netif_ptr) : DM unit :=
  d ← dhcp_get;
  dhcp_mod (d_set_t2_timeout (u16 (d_t2_timeout d - 1))) ;;
  if d_t2_timeout d =? 1 then dhcp_t2_timeout np
  else
    dhcp_mod (d_set_t1_timeout (u16 (d_t1_timeout d - 1))) ;;
    if d_t1_timeout d =? 1 then dhcp_t1_timeout np else mret tt.
Definition fine_body (np : netif_ptr) : DM unit :=
  d ← dhcp_get;
  if 1 <? d_request_timeout d then dhcp_mod (d_set_request_timeout (u16 (d_request_timeout d - 1)))
  else if d_request_timeout d =? 1 then
    dhcp_mod (d_set_request_timeout (u16 (d_request_timeout d - 1))) ;; dhcp_timeout np
  else mret tt.
Fixpoint each_netif (body : netif_ptr -> DM unit) (l : list netif_ptr) (s : dsys) : option dsys :=
  match l with
  | [] => Some s
  | np :: l =>
      s ← (match nif_dhcp (netif_of (ds_net s) np) with
           | None => Some s
           | Some _ => '(_, s) ← on_client np (body np) s; Some s
           end);
      each_netif body l s
  end.
Definition dhcp_coarse_tmr (s : dsys) : option dsys := each_netif coarse_body (netifs (ds_net s)) s.
Definition dhcp_fine_tmr (s : dsys) : option dsys := each_netif fine_body (netifs (ds_net s)) s.

(** ** Starting and stopping *)

Definition upd_flags (f : Z -> Z) (np : netif_ptr) (s : dsys) : dsys :=
  ds_set_net (upd_netif np (fun n => nif_set_flags (f (nif_flags n)) n) (ds_net s)) s.
(** [udp_remove] of a client's control block. *)
Definition remove_pcb (pcb : nat) (s : dsys) : dsys :=
  ds_set_recv (delete pcb (ds_recv s)) (ds_set_udp (udp_remove pcb (ds_udp s)) s).

(** [dhcp_stop]. *)
Definition dhcp_stop (np : netif_ptr) (s : dsys) : option dsys :=
  let s := upd_flags (fun f => Z.land f (Z.lnot NETIF_FLAG_DHCP)) np s in
  match nif_dhcp (netif_of (ds_net s) np) with
  | None => Some s
  | Some _ =>
      '(_, s) ← on_client np (
        d ← dhcp_get;
        (match d_pcb d with
         | Some pcb => sys_mod (remove_pcb pcb) ;; dhcp_mod (d_set_pcb None)
         | None => mret tt
         end) ;;
        dhcp_mod (dhcp_set_state DHCP_OFF)) s;
      Some s
  end.

(** [dhcp_set_struct], [dhcp_cleanup]: the pointer given and the memory behind it. *)
Definition dhcp_set_struct (np : netif_ptr) (i : nat) (s : dsys) : dsys :=
  ds_set_net (upd_netif np (nif_set_dhcp (Some i)) (ds_net s)) (ds_set_mem (<[i := dhcp_zero]> (ds_mem s)) s).
Definition dhcp_cleanup (np : netif_ptr) (s : dsys) : dsys :=
  match nif_dhcp (netif_of (ds_net s) np) with
  | None => s
  | Some i => ds_set_net (upd_netif np (nif_set_dhcp None) (ds_net s)) (ds_set_mem (delete i (ds_mem s)) s)
  end.

(** The client of [dhcp_start]: a new struct from the heap, or the old one without
    its control block; an old pointer must point to a struct. *)
Definition start_struct (np : netif_ptr) (s : dsys) : option (option nat * dsys) :=
  match nif_dhcp (netif_of (ds_net s) np) with
  | None =>
      let '(ok, h) := mem_malloc SIZEOF_STRUCT_DHCP (n_heap (ds_net s)) in
      let s := ds_set_net (set_heap h (ds_net s)) s in
      if ok then
        let i := fresh (dom (ds_mem s)) in
        Some (Some i, ds_set_net (upd_netif np (nif_set_dhcp (Some i)) (ds_net s)) s)
      else Some (None, s)
  | Some i =>
      d ← ds_mem s !! i;
      Some (Some i, match d_pcb d with Some pcb => remove_pcb pcb s | None => s end)
  end.

(** The control block of [dhcp_start], bound and connected. [ip_set_option] sets
    an option nothing reads in this configuration. *)
Definition start_pcb (np : netif_ptr) (pcb : nat) (s : dsys) : dsys :=
  let u := snd (udp_bind pcb 0 DHCP_CLIENT_PORT (ds_udp s)) in
  let u := snd (udp_connect pcb 0 DHCP_SERVER_PORT u) in
  ds_set_recv (<[pcb := np]> (ds_recv s)) (ds_set_udp u s).

(** [dhcp_start]. *)
Definition dhcp_start (np : netif_ptr) (s : dsys) : option (err_t * dsys) :=
  let s := upd_flags (fun f => Z.land f (Z.lnot NETIF_FLAG_DHCP)) np s in
  let n := netif_of (ds_net s) np in
  if negb (has_flag n NETIF_FLAG_ETHARP) then Some (ERR_ARG, s)
  else if nif_mtu n <? DHCP_MAX_MSG_LEN_MIN_REQUIRED then Some (ERR_MEM, s)
  else
    '(client, s) ← start_struct np s;
    match client with
    | None => Some (ERR_MEM, s)
    | Some i =>
        let '(pcb, u) := udp_new (ds_udp s) in
        let s := ds_set_udp u (ds_set_mem (<[i := d_set_pcb pcb dhcp_zero]> (ds_mem s)) s) in
        match pcb with
        | None => Some (ERR_MEM, s)
        | Some pcb =>
            '(result, s) ← on_client np (dhcp_discover np) (start_pcb np pcb s);
            if bool_decide (result = ERR_OK)
            then Some (result, upd_flags (fun f => Z.lor f NETIF_FLAG_DHCP) np s)
            else s ← dhcp_stop np s; Some (ERR_MEM, s)
        end
    end.

(** [dhcp_inform], whose struct is a local variable. *)
Definition dhcp_inform (np : netif_ptr) (s : dsys) : option dsys :=
  let dhcp := dhcp_set_state DHCP_INFORM dhcp_zero in
  existing ← (match nif_dhcp (netif_of (ds_net s) np) with
              | None => Some None
              | Some i => d ← ds_mem s !! i; Some (d_pcb d)
              end);
  let '(pcb, own, s) :=
    match existing with
    | Some pcb => (Some pcb, None, s)
    | None =>
        let '(pcb, u) := udp_new (ds_udp s) in
        match pcb with
        | None => (None, None, ds_set_udp u s)
        | Some pcb => (Some pcb, Some pcb, ds_set_udp (snd (udp_bind pcb 0 DHCP_CLIENT_PORT u)) s)
        end
    end in
  match pcb with
  | None => Some s
  | Some _ =>
      '(_, c) ← (result ← dhcp_create_msg np DHCP_INFORM;
                 when_ok result (
                   n ← get_netif np;
                   opt_max_msg_size (nif_mtu n) ;;
                   dhcp_send_msg np pcb IPADDR_BROADCAST)) (mk_cl (d_set_pcb own dhcp) s);
      Some (match d_pcb (c_dhcp c) with Some pcb => remove_pcb pcb (c_sys c) | None => c_sys c end)
  end.

(** [dhcp_network_changed]. *)
Definition dhcp_network_changed (np : netif_ptr) (s : dsys) : option dsys :=
  match nif_dhcp (netif_of (ds_net s) np) with
  | None => Some s
  | Some _ =>
      '(_, s) ← on_client np (
        d ← dhcp_get;
        if (d_state d =? DHCP_REBINDING) || (d_state d =? DHCP_RENEWING)
           || (d_state d =? DHCP_BOUND) || (d_state d =? DHCP_REBOOTING) then
          on_net (netif_set_down np) ;;
          dhcp_mod (d_set_tries 0) ;;
          dhcp_reboot np ;; mret tt
        else if d_state d =? DHCP_OFF then mret tt
        else
          dhcp_mod (d_set_tries 0) ;;
          dhcp_discover np ;; mret tt) s;
      Some s
  end.

