(* ===== verification/DhcpMsg.v ===== *)
(** * The messages of the DHCP client

    The bytes [Dhcp.dhcp_option] and its kin build, and for each request of the state
    machine the one message it hands to UDP ([outcome]). *)

From S2P Require Import Prelude NetTypes IpAddr Pbuf Net Etharp Netif Udp Ip UdpSend DhcpOpt Dhcp.

(** ** Building a message *)

(** [o] are the options written behind the fixed part [hdr] so far. *)
Definition building (hdr o : list Z) (d : dhcp) : Prop :=
  exists p rest, d_p_out d = Some p /\ send_pbuf p (hdr ++ o ++ rest) /\ Zlen hdr = DHCP_OPTIONS_OFS
    /\ d_options_out_len d = Zlen o /\ Zlen o + Zlen rest = DHCP_OPTIONS_LEN.
(** Only the message changed. *)
Definition rebuilt (d d' : dhcp) : Prop :=
  exists p n, d' = d_set_options_out_len n (d_set_p_out p d).
#[export] Instance rebuilt_refl : Reflexive rebuilt.
Proof. intros []. by eexists _, _. Qed.
#[export] Instance rebuilt_trans : Transitive rebuilt.
Proof. intros d d' d'' (p & n & ->) (q & k & ->). by eexists _, _. Qed.

(** [f] appends the options [l] when there is room. *)
Definition emits (f : dhcp -> option dhcp) (l : list Z) : Prop :=
  forall hdr o d, building hdr o d -> Zlen o + Zlen l <= DHCP_OPTIONS_LEN ->
  exists d', f d = Some d' /\ building hdr (o ++ l) d' /\ rebuilt d d'.

Lemma emits_seq f g l k : emits f l -> emits g k -> emits (fun d => d ← f d; g d) (l ++ k).
Proof.
  intros Hf Hg hdr o d Hb Hl. rewrite Zlen_app in Hl. pose proof (Zlen_nonneg k). pose proof (Zlen_nonneg l).
  destruct (Hf hdr o d Hb) as (d1 & E1 & Hb1 & H1); [lia |].
  destruct (Hg hdr (o ++ l) d1 Hb1) as (d2 & E2 & Hb2 & H2); [rewrite Zlen_app; lia |].
  exists d2. cbn. rewrite E1. cbn. rewrite app_assoc. split; [done |]. split; [done |]. by etrans.
Qed.

Lemma put_mid (a b c : list Z) x y k : k = length (a ++ b) -> put k [x] (a ++ b ++ y :: c) = a ++ (b ++ [x]) ++ c.
Proof.
  intros ->. unfold put. rewrite (app_assoc a b (y :: c)), take_app_length, drop_app_add.
  by rewrite <- !app_assoc.
Qed.

Lemma emit_emits x : emits (emit x) [x].
Proof.
  intros hdr o d (p & rest & Hp & Hs & Hh & Hn & Hr) Hl. change (Zlen [x]) with 1 in Hl.
  unfold emit. rewrite Hp, Hn. cbn [mbind option_bind]. unfold DHCP_OPTIONS_LEN, DHCP_MIN_OPTIONS_LEN in *.
  destruct (Z.ltb_spec (Zlen o) 68) as [_ |]; [| lia]. pose proof (Zlen_nonneg o).
  destruct rest as [| y rest]; [rewrite Zlen_nil in Hr; lia |]. rewrite Zlen_cons in Hr.
  eexists. split; [done |]. split; [| by eexists _, _].
  exists (set_payload (hdr ++ (o ++ [x]) ++ rest) p), rest. destruct Hs as [H1 H2 H3 H4].
  split.
  { cbn. do 2 f_equal. rewrite H4. apply put_mid. rewrite length_app. unfold Zlen in *. lia. }
  split; [by split |]. split; [done |]. split; [| rewrite Zlen_app; change (Zlen [x]) with 1; unfold DHCP_OPTIONS_LEN, DHCP_MIN_OPTIONS_LEN; lia].
  cbn. rewrite Zlen_app. change (Zlen [x]) with 1. apply u16_small. unfold is_u16. lia.
Qed.

Lemma land_shiftr_byte x k : 0 <= k -> Z.shiftr (Z.land x (Z.shiftl 255 k)) k = Z.shiftr x k mod 256.
Proof.
  intros Hk. rewrite Z.shiftr_land, Z.shiftr_shiftl_l, Z.sub_diag by lia.
  change (Z.shiftl 255 0) with (Z.ones 8). by rewrite Z.land_ones by lia.
Qed.
Lemma land_byte x : Z.land x 255 = x mod 256.
Proof. change 255 with (Z.ones 8). by rewrite Z.land_ones by lia. Qed.

Lemma option_emits t n : emits (dhcp_option t n) [t; n].
Proof. apply (emits_seq _ _ [t] [n]); apply emit_emits. Qed.
Lemma short_emits x : emits (dhcp_option_short x) (be16 x).
Proof.
  assert (E : be16 x = [Z.shiftr (Z.land x 0xff00) 8] ++ [Z.land x 0xff]).
  { change 0xff00 with (Z.shiftl 255 8). by rewrite land_byte, land_shiftr_byte by lia. }
  rewrite E. apply (emits_seq _ _ [_] [_]); apply emit_emits.
Qed.
Lemma long_emits x : emits (dhcp_option_long x) (be32 x).
Proof.
  assert (E : be32 x = [Z.shiftr (Z.land x 0xff000000) 24] ++ [Z.shiftr (Z.land x 0x00ff0000) 16]
                       ++ [Z.shiftr (Z.land x 0x0000ff00) 8] ++ [Z.land x 0xff]).
  { change 0xff000000 with (Z.shiftl 255 24). change 0x00ff0000 with (Z.shiftl 255 16). change 0x0000ff00 with (Z.shiftl 255 8).
    by rewrite land_byte, !land_shiftr_byte by lia. }
  rewrite E. repeat (apply (emits_seq _ _ [_]); [apply emit_emits |]). apply emit_emits.
Qed.

Lemma pad_loop_ok fuel : forall hdr o d, building hdr o d -> DHCP_OPTIONS_LEN - Zlen o < Z.of_nat fuel ->
  exists d', pad_loop fuel d = Some d'
    /\ building hdr (o ++ replicate (Z.to_nat (DHCP_OPTIONS_LEN - Zlen o)) 0) d' /\ rebuilt d d'.
Proof.
  unfold DHCP_OPTIONS_LEN, DHCP_MIN_OPTIONS_LEN in *.
  induction fuel as [| fuel IH]; intros hdr o d Hb Hf.
  { destruct Hb as (p & rest & _ & _ & _ & _ & Hr). pose proof (Zlen_nonneg rest). unfold DHCP_OPTIONS_LEN, DHCP_MIN_OPTIONS_LEN in *. lia. }
  pose proof Hb as (p & rest & Hp & Hs & Hh & Hn & Hr). unfold DHCP_OPTIONS_LEN, DHCP_MIN_OPTIONS_LEN in Hr.
  pose proof (Zlen_nonneg rest). cbn [pad_loop]. rewrite Hn. unfold DHCP_OPTIONS_LEN, DHCP_MIN_OPTIONS_LEN.
  destruct (Z.ltb_spec (Zlen o) 68) as [Hlt | Hge]; cbn [orb andb].
  - destruct (emit_emits 0 hdr o d Hb) as (d1 & E1 & Hb1 & H1); [change (Zlen [0]) with 1; unfold DHCP_OPTIONS_LEN, DHCP_MIN_OPTIONS_LEN; lia |].
    rewrite E1. cbn [mbind option_bind]. destruct (IH _ _ _ Hb1) as (d2 & E2 & Hb2 & H2).
    { rewrite Zlen_app. change (Zlen [0]) with 1. lia. }
    exists d2. split; [done |]. split; [| by etrans].
    rewrite Zlen_app, <- app_assoc in Hb2. change (Zlen [0]) with 1 in Hb2.
    replace (Z.to_nat (68 - Zlen o)) with (S (Z.to_nat (68 - (Zlen o + 1)))) by lia. exact Hb2.
  - rewrite andb_false_r. exists d. split; [done |]. split; [| done].
    replace (Z.to_nat (68 - Zlen o)) with 0%nat by lia. by rewrite app_nil_r.
Qed.

(** The options field of a request with options [o]. *)
Definition opts_field (o : list Z) : list Z :=
  o ++ DHCP_OPTION_END :: replicate (Z.to_nat (DHCP_OPTIONS_LEN - Zlen o - 1)) 0.
Lemma trailer_ok hdr o d : building hdr o d -> Zlen o < DHCP_OPTIONS_LEN ->
  exists p, dhcp_option_trailer d = Some (d_set_options_out_len DHCP_OPTIONS_LEN (d_set_p_out (Some p) d))
    /\ send_pbuf p (hdr ++ opts_field o) /\ Zlen hdr = DHCP_OPTIONS_OFS.
Proof.
  intros Hb Hl. unfold dhcp_option_trailer.
  destruct (emit_emits DHCP_OPTION_END hdr o d Hb) as (d1 & E1 & Hb1 & H1); [change (Zlen [DHCP_OPTION_END]) with 1; lia |].
  rewrite E1. cbn [mbind option_bind].
  destruct (pad_loop_ok pad_fuel hdr _ d1 Hb1) as (d2 & E2 & Hb2 & H2).
  { unfold pad_fuel, DHCP_OPTIONS_LEN, DHCP_MIN_OPTIONS_LEN. rewrite Zlen_app. pose proof (Zlen_nonneg o). change (Zlen [DHCP_OPTION_END]) with 1. lia. }
  rewrite E2. assert (H : rebuilt d d2) by (by etrans). destruct H as (q & n & ->).
  destruct Hb2 as (p & rest & Hp & Hs & Hh & Hn & Hr). cbn in Hp, Hn. subst q n.
  assert (E1' : Zlen (o ++ [DHCP_OPTION_END]) = Zlen o + 1) by (rewrite Zlen_app; done).
  assert (Ez : Zlen (replicate (Z.to_nat (DHCP_OPTIONS_LEN - (Zlen o + 1))) 0) = DHCP_OPTIONS_LEN - (Zlen o + 1)) by (apply Zlen_replicate; lia).
  rewrite E1' in Hs, Hr |- *. rewrite Zlen_app, E1', Ez in Hr. rewrite (Zlen_app (o ++ _)), E1', Ez.
  assert (E0 : Zlen rest = 0) by lia. destruct rest; [| rewrite Zlen_cons in E0; pose proof (Zlen_nonneg rest); lia].
  exists p. split; [do 2 f_equal; lia |]. split; [| done].
  rewrite app_nil_r, <- app_assoc in Hs. unfold opts_field. cbn [app] in Hs.
  by replace (DHCP_OPTIONS_LEN - Zlen o - 1) with (DHCP_OPTIONS_LEN - (Zlen o + 1)) by lia.
Qed.

(** ** Requests *)

Lemma bind_run {A B} (m : DM A) (f : A -> DM B) c a c' : m c = Some (a, c') -> (a ← m; f a) c = f a c'.
Proof. intros E. unfold mbind, DM_bind. by rewrite E. Qed.

(** [m] appends the options [l]. *)
Definition does (m : DM unit) (l : list Z) : Prop :=
  forall hdr o d s, building hdr o d -> Zlen o + Zlen l <= DHCP_OPTIONS_LEN ->
  exists d', m (mk_cl d s) = Some (tt, mk_cl d' s) /\ building hdr (o ++ l) d' /\ rebuilt d d'.
Lemma does_try f l : emits f l -> does (dhcp_try f) l.
Proof.
  intros Hf hdr o d s Hb Hl. destruct (Hf hdr o d Hb Hl) as (d' & E & Hb' & Hr).
  exists d'. split; [| done]. unfold dhcp_try. cbn. by rewrite E.
Qed.
Lemma does_seq m k l l' : does m l -> does k l' -> does (m ;; k) (l ++ l').
Proof.
  intros Hm Hk hdr o d s Hb Hl. rewrite Zlen_app in Hl. pose proof (Zlen_nonneg l). pose proof (Zlen_nonneg l').
  destruct (Hm hdr o d s Hb) as (d1 & E1 & Hb1 & H1); [lia |].
  destruct (Hk hdr (o ++ l) d1 s Hb1) as (d2 & E2 & Hb2 & H2); [rewrite Zlen_app; lia |].
  exists d2. rewrite (bind_run _ _ _ _ _ E1), E2, app_assoc. split; [done |]. split; [done |]. by etrans.
Qed.
Lemma does_ret : does (mret tt) [].
Proof. intros hdr o d s Hb _. exists d. by rewrite app_nil_r. Qed.
Definition max_msg_option (size : Z) : list Z := [DHCP_OPTION_MAX_MSG_SIZE; DHCP_OPTION_MAX_MSG_SIZE_LEN] ++ be16 size.
Definition request_list_option : list Z :=
  [DHCP_OPTION_PARAMETER_REQUEST_LIST; 4; DHCP_OPTION_SUBNET_MASK; DHCP_OPTION_ROUTER; DHCP_OPTION_BROADCAST; DHCP_OPTION_DNS_SERVER].
Definition addr_option (t a : Z) : list Z := [t; 4] ++ be32 a.
Lemma max_msg_does size : does (opt_max_msg_size size) (max_msg_option size).
Proof. apply does_seq; apply does_try; [apply option_emits | apply short_emits]. Qed.
Lemma request_list_does : does opt_parameter_request_list request_list_option.
Proof.
  apply (does_seq _ _ [_; _]); [apply does_try, option_emits |].
  repeat (apply (does_seq _ _ [_]); [apply does_try, emit_emits |]). apply does_try, emit_emits.
Qed.

(** The client after a message went out. *)
Definition sent_dhcp (d : dhcp) : dhcp := d_set_options_out_len DHCP_OPTIONS_LEN (d_set_p_out None d).
Lemma realloc_full p n : p_tot_len p <= n -> pbuf_realloc p n = p.
Proof. intros H. unfold pbuf_realloc. by destruct (Z.leb_spec (p_tot_len p) n); [| lia]. Qed.

Lemma send_msg_ok np pcb dst hdr o d s : building hdr o d -> Zlen o < DHCP_OPTIONS_LEN -> exists p e u net,
  dhcp_send_msg np (Some pcb) dst (mk_cl d s) = Some (tt, mk_cl (sent_dhcp d) (ds_set_udp u (ds_set_net net s)))
  /\ send_pbuf p (hdr ++ opts_field o)
  /\ udp_sendto_if pcb p dst DHCP_SERVER_PORT np (ds_udp s) (ds_net s) = (e, u, net).
Proof.
  intros Hb Hl. destruct (trailer_ok hdr o d Hb Hl) as (p & Et & Hp & Hh).
  destruct (udp_sendto_if pcb p dst DHCP_SERVER_PORT np (ds_udp s) (ds_net s)) as [[e u] net] eqn:Eu.
  exists p, e, u, net. split; [| done]. unfold dhcp_send_msg.
  erewrite bind_run; [| unfold dhcp_try; cbn; by rewrite Et]. cbn.
  unfold mbind, DM_bind, dhcp_get, deref, sys_get. cbn. rewrite realloc_full; [by rewrite Eu |].
  unfold p_tot_len, p_bytes. rewrite (sp_next p _ Hp), (sp_data p _ Hp), app_nil_r, Zlen_app, Hh.
  unfold opts_field. rewrite Zlen_app, Zlen_cons, Zlen_replicate by lia.
  unfold SIZEOF_DHCP_MSG. lia.
Qed.

(** The transaction id, [ciaddr] and bytes of a request with options [opts]. *)
Definition next_xid (d : dhcp) (s : dsys) : Z := if d_tries d =? 0 then u32 (ds_xid s + 1) else ds_xid s.
Definition ciaddr_of (n : netif) (message_type state : Z) : Z :=
  if (message_type =? DHCP_INFORM) || (message_type =? DHCP_DECLINE)
     || ((message_type =? DHCP_REQUEST) && ((state =? DHCP_RENEWING) || (state =? DHCP_REBINDING)))
  then nif_ip_addr n else 0.
Definition type_option (message_type : Z) : list Z := [DHCP_OPTION_MESSAGE_TYPE; DHCP_OPTION_MESSAGE_TYPE_LEN; message_type].
Definition request_msg (n : netif) (message_type xid state : Z) (opts : list Z) : list Z :=
  dhcp_msg_header n xid (ciaddr_of n message_type state) ++ opts_field (type_option message_type ++ opts).

Lemma header_size n xid a : Zlen (dhcp_msg_header n xid a) = DHCP_OPTIONS_OFS.
Proof. reflexivity. Qed.

Lemma create_msg_mem np t d s net : net_pbuf_alloc PBUF_TRANSPORT SIZEOF_DHCP_MSG (ds_net s) = (None, net) ->
  dhcp_create_msg np t (mk_cl d s) = Some (ERR_MEM, mk_cl (d_set_p_out None d) (ds_set_net net s)).
Proof. intros E. unfold dhcp_create_msg, mbind, DM_bind, sys_get. cbn -[net_pbuf_alloc]. by rewrite E. Qed.

Lemma alloc_send_pbuf s p net msg : net_pbuf_alloc PBUF_TRANSPORT SIZEOF_DHCP_MSG s = (Some p, net) ->
  Zlen msg = SIZEOF_DHCP_MSG -> send_pbuf (set_payload (put 0 msg (p_payload p)) p) msg /\ netif_of net = netif_of s.
Proof.
  intros E Hm. revert E. unfold net_pbuf_alloc, pbuf_alloc_ram. destruct (mem_malloc _ _) as [[|] h]; [| done]. intros [= <- <-].
  split; [| done]. split; [done.. | reflexivity |].
  set (z := replicate (Z.to_nat SIZEOF_DHCP_MSG) 0). assert (Hz : length z = length msg) by (unfold z; rewrite length_replicate; unfold Zlen in Hm; lia).
  change (put 0 msg z = msg). rewrite (put0_drop _ _ (length msg)) by lia. rewrite drop_ge by lia. apply app_nil_r.
Qed.

Lemma create_msg_ok np t d s p net : net_pbuf_alloc PBUF_TRANSPORT SIZEOF_DHCP_MSG (ds_net s) = (Some p, net) ->
  exists d', dhcp_create_msg np t (mk_cl d s) = Some (ERR_OK, mk_cl d' (ds_set_xid (next_xid d s) (ds_set_net net s)))
    /\ building (dhcp_msg_header (netif_of (ds_net s) np) (next_xid d s) (ciaddr_of (netif_of (ds_net s) np) t (d_state d)))
         (type_option t) d'
    /\ rebuilt (d_set_xid (next_xid d s) d) d'.
Proof.
  intros E. set (n := netif_of (ds_net s) np). set (hdr := dhcp_msg_header _ _ _). set (fill := map Z.of_nat (seq 0 (Z.to_nat DHCP_OPTIONS_LEN))).
  destruct (alloc_send_pbuf (ds_net s) p net (hdr ++ fill) E eq_refl) as [Hp Hn].
  set (d0 := d_set_options_out_len 0 (d_set_p_out (Some (set_payload (put 0 (hdr ++ fill) (p_payload p)) p)) (d_set_xid (next_xid d s) d))).
  assert (Hb : building hdr [] d0) by (eexists _, fill; repeat split; apply Hp).
  set (s1 := ds_set_xid (next_xid d s) (ds_set_net net s)).
  destruct (does_try _ _ (option_emits DHCP_OPTION_MESSAGE_TYPE DHCP_OPTION_MESSAGE_TYPE_LEN) hdr [] d0 s1 Hb) as (d1 & E1 & Hb1 & H1); [vm_compute; congruence |].
  destruct (does_try _ _ (emit_emits t) hdr _ d1 s1 Hb1) as (d2 & E2 & Hb2 & H2); [vm_compute; congruence |].
  exists d2. split; [| split; [exact Hb2 |]].
  - unfold dhcp_create_msg. erewrite bind_run; [| reflexivity]. cbn [c_sys]. rewrite E.
    erewrite bind_run; [| reflexivity]. erewrite bind_run; [| reflexivity]. erewrite bind_run; [| reflexivity].
    rewrite (bind_run _ _ _ tt (mk_cl (d_set_p_out (Some p) d) s1)).
    2: { unfold s1, next_xid, sys_mod. cbn [c_dhcp d_tries d_set_p_out]. destruct (d_tries d =? 0); [done |]. by destruct s. }
    do 5 (erewrite bind_run; [| reflexivity]). cbn [c_sys c_dhcp]. change (netif_of (ds_net s1) np) with (netif_of net np). rewrite Hn. fold n fill.
    change (ds_xid s1) with (next_xid d s). change (d_state (d_set_p_out (Some p) d)) with (d_state d).
    by rewrite (bind_run _ _ _ _ _ E1), (bind_run _ _ _ _ _ E2).
  - etrans; [| etrans; [exact H1 | exact H2]]. by eexists _, _.
Qed.

(** What a request of type [t] with the options [opts] to [dst] leaves, from the
    client as it is when the message is created: nothing sent and [ERR_MEM], or the
    message handed to UDP. *)
Inductive outcome np t opts pcb dst backoff (d : dhcp) (s : dsys) : option (err_t * cl) -> Prop :=
| outcome_mem net :
    net_pbuf_alloc PBUF_TRANSPORT SIZEOF_DHCP_MSG (ds_net s) = (None, net) ->
    outcome np t opts pcb dst backoff d s
      (Some (ERR_MEM, mk_cl (dhcp_retry backoff (d_set_p_out None d)) (ds_set_net net s)))
| outcome_sent p0 net0 p e u net :
    net_pbuf_alloc PBUF_TRANSPORT SIZEOF_DHCP_MSG (ds_net s) = (Some p0, net0) ->
    send_pbuf p (request_msg (netif_of (ds_net s) np) t (next_xid d s) (d_state d) opts) ->
    udp_sendto_if pcb p dst DHCP_SERVER_PORT np (ds_udp s) net0 = (e, u, net) ->
    outcome np t opts pcb dst backoff d s
      (Some (ERR_OK, mk_cl (dhcp_retry backoff (sent_dhcp (d_set_xid (next_xid d s) d)))
                      (ds_set_udp u (ds_set_net net (ds_set_xid (next_xid d s) s))))).

(** The part of a request between creating the message and sending it. *)
Definition sends np t opts pcb dst (d0 : dhcp) (n : netif) (body : DM unit) : Prop :=
  forall hdr x d s, rebuilt (d_set_xid x d0) d -> building hdr (type_option t) d -> netif_of (ds_net s) np = n ->
  exists p e u net, body (mk_cl d s) = Some (tt, mk_cl (sent_dhcp (d_set_xid x d0)) (ds_set_udp u (ds_set_net net s)))
    /\ send_pbuf p (hdr ++ opts_field (type_option t ++ opts))
    /\ udp_sendto_if pcb p dst DHCP_SERVER_PORT np (ds_udp s) (ds_net s) = (e, u, net).

Lemma seq_assoc {A} (m k : DM unit) (f : DM A) c : (m ;; (k ;; f)) c = ((m ;; k) ;; f) c.
Proof. unfold mbind, DM_bind. by destruct (m c) as [[[] c'] |]. Qed.
Lemma sends_intro np t opts pcb dst d0 n (m fin : DM unit) body :
  does m opts -> Zlen opts < DHCP_OPTIONS_LEN - 3 ->
  (forall d s, d_pcb d = d_pcb d0 -> d_server_ip_addr d = d_server_ip_addr d0 ->
     fin (mk_cl d s) = dhcp_send_msg np (Some pcb) dst (mk_cl d s)) ->
  (forall d s, netif_of (ds_net s) np = n -> d_server_ip_addr d = d_server_ip_addr d0 ->
     d_offered_ip_addr d = d_offered_ip_addr d0 -> body (mk_cl d s) = (m ;; fin) (mk_cl d s)) ->
  sends np t opts pcb dst d0 n body.
Proof.
  intros Hm Hl Hfin Hbody hdr x d s (q & k & ->) Hb Hn. rewrite Hbody by done.
  destruct (Hm hdr (type_option t) _ s Hb) as (d1 & E1 & Hb1 & (q1 & k1 & ->)); [change (Zlen (type_option t)) with 3; lia |].
  destruct (send_msg_ok np pcb dst hdr _ _ s Hb1) as (p & e & u & net & E2 & Hp & Eu);
    [rewrite Zlen_app; change (Zlen (type_option t)) with 3; lia |].
  exists p, e, u, net. by rewrite (bind_run _ _ _ _ _ E1), Hfin, E2.
Qed.

Lemma request_outcome np t opts pcb dst backoff d s body :
  sends np t opts pcb dst d (netif_of (ds_net s) np) body ->
  outcome np t opts pcb dst backoff d s
    ((result ← dhcp_create_msg np t; when_ok result body ;; dhcp_mod (dhcp_retry backoff) ;; mret result) (mk_cl d s)).
Proof.
  intros Hbody. destruct (net_pbuf_alloc PBUF_TRANSPORT SIZEOF_DHCP_MSG (ds_net s)) as [[p |] net] eqn:Ea.
  - destruct (create_msg_ok np t d s p net Ea) as (d1 & E1 & Hb & Hr). rewrite (bind_run _ _ _ _ _ E1).
    destruct (alloc_send_pbuf _ _ _ (replicate 308 0) Ea eq_refl) as [_ Hn].
    destruct (Hbody _ _ d1 (ds_set_xid (next_xid d s) (ds_set_net net s)) Hr Hb) as (q & e & u & net' & E2 & Hq & Eu);
      [cbn; by rewrite Hn |].
    unfold when_ok. rewrite bool_decide_true by done. rewrite (bind_run _ _ _ _ _ E2).
    exact (outcome_sent np t opts pcb dst backoff d s p net q e u net' Ea Hq Eu).
  - rewrite (bind_run _ _ _ _ _ (create_msg_mem np t d s net Ea)). by apply outcome_mem.
Qed.

Lemma set_state_state k d : d_state (dhcp_set_state k d) = k.
Proof. unfold dhcp_set_state. by destruct (Z.eqb_spec k (d_state d)) as [-> |]. Qed.
Lemma set_state_pcb k d : d_pcb (dhcp_set_state k d) = d_pcb d.
Proof. unfold dhcp_set_state. by destruct (k =? d_state d). Qed.
Lemma set_state_server k d : d_server_ip_addr (dhcp_set_state k d) = d_server_ip_addr d.
Proof. unfold dhcp_set_state. by destruct (k =? d_state d). Qed.
Lemma set_state_offered k d : d_offered_ip_addr (dhcp_set_state k d) = d_offered_ip_addr d.
Proof. unfold dhcp_set_state. by destruct (k =? d_state d). Qed.
Create HintDb dhcp_does.
#[export] Hint Resolve max_msg_does request_list_does does_ret does_seq does_try option_emits long_emits : dhcp_does.

(** Runs the getters in front of a program. *)
Ltac getters := repeat (erewrite bind_run; [| reflexivity]); cbn [c_sys c_dhcp].

Definition discover_opts (n : netif) : list Z := max_msg_option (nif_mtu n) ++ request_list_option.
Definition select_opts (n : netif) (d : dhcp) : list Z :=
  max_msg_option (nif_mtu n) ++ addr_option DHCP_OPTION_REQUESTED_IP (d_offered_ip_addr d)
  ++ addr_option DHCP_OPTION_SERVER_ID (d_server_ip_addr d) ++ request_list_option.
Definition reboot_opts (d : dhcp) : list Z :=
  max_msg_option 576 ++ addr_option DHCP_OPTION_REQUESTED_IP (d_offered_ip_addr d).
Definition selecting (d : dhcp) : dhcp := dhcp_set_state DHCP_SELECTING (d_set_offered_ip_addr 0 d).

(** The same steps, grouped differently. *)
Ltac binds :=
  unfold mbind, DM_bind; cbn [c_sys c_dhcp];
  repeat match goal with
  | |- context [match ?x with Some _ => _ | None => _ end] =>
      lazymatch x with context [match _ with Some _ => _ | None => _ end] => fail | _ => idtac end;
      destruct x as [[? ?] |]; [| done]
  end; done.

(** One request: its options program, and what is left to send it. *)
Ltac request_tac m dst :=
  apply request_outcome; eapply (sends_intro _ _ _ _ _ _ _ m);
  [ | vm_compute; reflexivity
  | instantiate (1 := d ← dhcp_get; dhcp_send_msg _ (d_pcb d) (dst d)); intros d' s' Hp Hs; getters;
    rewrite ?Hp, ?Hs, ?set_state_pcb, ?set_state_server;
    match goal with H : d_pcb _ = Some _ |- _ => by rewrite <- H end
  | intros d' s' Hn Hs Ho; getters; rewrite ?Hn, ?Hs, ?Ho, ?set_state_server, ?set_state_offered; unfold ntohl; binds ];
  solve [eauto 10 with dhcp_does].

Lemma discover_outcome np pcb d s : d_pcb d = Some pcb ->
  outcome np DHCP_DISCOVER (discover_opts (netif_of (ds_net s) np)) pcb IPADDR_BROADCAST backoff_exp (selecting d) s
    (dhcp_discover np (mk_cl d s)).
Proof.
  intros Hpcb. unfold dhcp_discover. do 2 (erewrite bind_run; [| reflexivity]).
  request_tac (opt_max_msg_size (nif_mtu (netif_of (ds_net s) np)) ;; opt_parameter_request_list)
    (fun _ : dhcp => IPADDR_BROADCAST).
Qed.
Lemma select_outcome np pcb d s : d_pcb d = Some pcb ->
  outcome np DHCP_REQUEST (select_opts (netif_of (ds_net s) np) d) pcb IPADDR_BROADCAST backoff_exp
    (dhcp_set_state DHCP_REQUESTING d) s (dhcp_select np (mk_cl d s)).
Proof.
  intros Hpcb. unfold dhcp_select, select_opts. erewrite bind_run; [| reflexivity].
  request_tac (opt_max_msg_size (nif_mtu (netif_of (ds_net s) np)) ;;
      ((dhcp_try (dhcp_option DHCP_OPTION_REQUESTED_IP 4) ;; dhcp_try (dhcp_option_long (d_offered_ip_addr d))) ;;
      ((dhcp_try (dhcp_option DHCP_OPTION_SERVER_ID 4) ;; dhcp_try (dhcp_option_long (d_server_ip_addr d))) ;;
      opt_parameter_request_list))) (fun _ : dhcp => IPADDR_BROADCAST).
Qed.
Lemma renew_outcome np pcb d s : d_pcb d = Some pcb ->
  outcome np DHCP_REQUEST (max_msg_option (nif_mtu (netif_of (ds_net s) np))) pcb (d_server_ip_addr d) backoff_renew
    (dhcp_set_state DHCP_RENEWING d) s (dhcp_renew np (mk_cl d s)).
Proof.
  intros Hpcb. unfold dhcp_renew. erewrite bind_run; [| reflexivity].
  request_tac (opt_max_msg_size (nif_mtu (netif_of (ds_net s) np))) d_server_ip_addr.
Qed.
Lemma rebind_outcome np pcb d s : d_pcb d = Some pcb ->
  outcome np DHCP_REQUEST (max_msg_option (nif_mtu (netif_of (ds_net s) np))) pcb IPADDR_BROADCAST backoff_lin
    (dhcp_set_state DHCP_REBINDING d) s (dhcp_rebind np (mk_cl d s)).
Proof.
  intros Hpcb. unfold dhcp_rebind. erewrite bind_run; [| reflexivity].
  request_tac (opt_max_msg_size (nif_mtu (netif_of (ds_net s) np))) (fun _ : dhcp => IPADDR_BROADCAST).
Qed.
Lemma reboot_outcome np pcb d s : d_pcb d = Some pcb ->
  outcome np DHCP_REQUEST (reboot_opts d) pcb IPADDR_BROADCAST backoff_lin
    (dhcp_set_state DHCP_REBOOTING d) s (dhcp_reboot np (mk_cl d s)).
Proof.
  intros Hpcb. unfold dhcp_reboot, reboot_opts. erewrite bind_run; [| reflexivity].
  request_tac (opt_max_msg_size 576 ;; (dhcp_try (dhcp_option DHCP_OPTION_REQUESTED_IP 4) ;;
    dhcp_try (dhcp_option_long (d_offered_ip_addr d)))) (fun _ : dhcp => IPADDR_BROADCAST).
Qed.

(** The client after [dhcp_release] forgot the lease, and the interface without
    address. *)
Definition forget (d : dhcp) : dhcp :=
  d_set_offered_t0_lease 0 (d_set_offered_t1_renew 0 (d_set_offered_t2_rebind 0
    (d_set_offered_gw_addr 0 (d_set_offered_sn_mask 0 (d_set_offered_ip_addr 0 (d_set_server_ip_addr 0
      (dhcp_set_state DHCP_OFF d))))))).
Definition unaddress (np : netif_ptr) (s : net) : net :=
  netif_set_netmask np 0 (netif_set_gw np 0 (netif_set_ipaddr np 0 (netif_set_down np s))).
Lemma release_outcome np pcb d s : d_pcb d = Some pcb -> exists e c,
  outcome np DHCP_RELEASE [] pcb 0 backoff_lin (forget d) s (Some (e, c))
  /\ dhcp_release np (mk_cl d s) = Some (e, mk_cl (c_dhcp c) (ds_set_net (unaddress np (ds_net (c_sys c))) (c_sys c))).
Proof.
  intros Hpcb. assert (H : outcome np DHCP_RELEASE [] pcb 0 backoff_lin (forget d) s
    ((result ← dhcp_create_msg np DHCP_RELEASE;
      when_ok result (d ← dhcp_get; dhcp_send_msg np (d_pcb d) (d_server_ip_addr d)) ;;
      dhcp_mod (dhcp_retry backoff_lin) ;; mret result) (mk_cl (forget d) s))).
  { assert (Hf : d_pcb (forget d) = Some pcb /\ d_server_ip_addr (forget d) = 0)
      by (unfold forget; cbn; by rewrite set_state_pcb). destruct Hf as [Hf Hsv].
    generalize dependent (forget d). intros d1 Hf Hsv. rewrite <- Hsv.
    apply request_outcome, (sends_intro _ _ _ _ _ _ _ (mret tt) (d ← dhcp_get; dhcp_send_msg np (d_pcb d) (d_server_ip_addr d)));
      [apply does_ret | vm_compute; reflexivity | | done].
    intros d' s' Hp Hs. getters. by rewrite Hp, Hs, <- Hf. }
  unfold dhcp_release. do 8 (erewrite bind_run; [| reflexivity]). cbn [c_dhcp c_sys]. fold (forget d).
  revert H. unfold mbind at 1, DM_bind. unfold mbind at 4, DM_bind.
  destruct (dhcp_create_msg np DHCP_RELEASE (mk_cl (forget d) s)) as [[e c] |]; [| intros H; inversion H].
  unfold mbind at 1, DM_bind. unfold mbind at 3, DM_bind.
  destruct (when_ok e _ c) as [[[] c1] |]; [| intros H; inversion H].
  intros H. eexists e, _. split; [exact H |]. by destruct c1 as [d1 []].
Qed.

(** ** An example: an interface, and an offer to its first request *)

(** The interface of [ex_netif] on the list, without client. *)
Definition ex_dsys : dsys :=
  mk_dsys (set_netif_list (Some (HdkNetIF 0)) ex_net) udp_init ∅ 0xABCD0000 [] ∅.
(** A reply to [xid] with address [yi] and options [opts]. *)
Definition ex_dhcp_reply (xid yi : Z) (opts : list (Z * list Z)) : list Z :=
  [DHCP_BOOTREPLY; 1; 6; 0] ++ be32 xid ++ replicate 8 0 ++ be32 yi ++ replicate 8 0 ++ [2; 0; 0; 0; 0; 1] ++ replicate 202 0
  ++ be32 DHCP_MAGIC_COOKIE ++ enc opts ++ [DHCP_OPTION_END].
Definition ex_offer : list Z :=
  ex_dhcp_reply 0xABCD0001 0x0a000064 [(DHCP_OPTION_MESSAGE_TYPE, [DHCP_OFFER]); (DHCP_OPTION_SERVER_ID, [10; 0; 0; 1])].
Definition ex_offer_opts : rx_options := [None; Some DHCP_OFFER; Some 0x0a000001; None; None; None; None; None; None; None].
Lemma ex_offer_parse : dhcp_parse_reply 3 [ex_offer] = Some (ERR_OK, ex_offer_opts).
Proof. vm_compute. reflexivity. Qed.
