(* ===== verification/DhcpInv.v ===== *)
(** * The invariant of the DHCP clients

    What every event (a timer, a packet, a start or stop, a change of the network)
    keeps of the clients: nothing is dereferenced that must not be, no message is
    left behind, and a client that waits has its timer running. *)

From S2P Require Import Prelude NetTypes IpAddr Pbuf Net Etharp Netif Udp Ip UdpSend DhcpOpt Dhcp DhcpMsg.

(** ** The invariant of a client *)

(** The state of a client between two events: its message is gone, a client
    without control block is off, and every state that waits for an answer has its
    timer running, which is below a minute.  Only the renewals may stop: after 256
    of them the counter of the tries is 0 again and so is the timer. *)
Definition armed (d : dhcp) : Prop :=
  if (d_state d =? DHCP_SELECTING) || (d_state d =? DHCP_REQUESTING) then 1 <= d_request_timeout d <= 120
  else if (d_state d =? DHCP_REBINDING) || (d_state d =? DHCP_REBOOTING)
  then 1 <= d_request_timeout d <= 20 /\ 1 <= d_tries d <= 9
  else if d_state d =? DHCP_RENEWING then 0 <= d_request_timeout d <= 40 /\ (d_request_timeout d = 0 -> d_tries d = 0)
  else True.
(** [msg] is the reply being read, if any. *)
Record alive (msg : option (list Z)) (d : dhcp) : Prop := {
  al_pcb : is_Some (d_pcb d);
  al_out : d_p_out d = None;
  al_msg : d_msg_in d = msg;
  al_tries : is_u8 (d_tries d)
}.
Definition client_ok (d : dhcp) : Prop :=
  (alive None d /\ armed d) \/ (d_pcb d = None /\ d_p_out d = None /\ d_msg_in d = None /\ d_state d = DHCP_OFF).

(** What the functions of one client leave of the others. *)
Definition same_clients (s s' : net) : Prop := forall p, nif_dhcp (netif_of s' p) = nif_dhcp (netif_of s p).
Record frame_ok (s s' : dsys) : Prop := {
  fo_net : same_clients (ds_net s) (ds_net s');
  fo_mem : ds_mem s' = ds_mem s;
  fo_recv : ds_recv s' ⊆ ds_recv s
}.
#[export] Instance frame_ok_refl : Reflexive frame_ok.
Proof. by split. Qed.
#[export] Instance frame_ok_trans : Transitive frame_ok.
Proof. intros s1 s2 s3 [A B C] [A' B' C']. split; [intros p; by rewrite A' | congruence | by etrans]. Qed.

Lemma same_ifs_clients s s' : same_ifs s s' -> same_clients s s'.
Proof. intros H p. by rewrite (same_ifs_netif_of _ _ p H). Qed.
Lemma upd_clients p f s : (forall n, nif_dhcp (f n) = nif_dhcp n) -> same_clients s (upd_netif p f s).
Proof. intros Hf q. rewrite netif_of_upd. destruct (decide (p = q)) as [-> |]; [apply Hf | done]. Qed.
Lemma clients_trans s1 s2 s3 : same_clients s1 s2 -> same_clients s2 s3 -> same_clients s1 s3.
Proof. intros H H' p. by rewrite H'. Qed.
Lemma set_down_clients p s : same_clients s (netif_set_down p s).
Proof.
  unfold netif_set_down. destruct (has_flag _ _); [| by intros ?].
  set (s1 := upd_netif p _ s). assert (H : same_clients s s1) by (by apply upd_clients).
  destruct (has_flag _ _); exact H.
Qed.
Lemma set_up_clients p s : same_clients s (netif_set_up p s).
Proof.
  unfold netif_set_up. destruct (has_flag _ _); [by intros ? |].
  set (s1 := upd_netif p _ s). assert (H : same_clients s s1) by (by apply upd_clients).
  destruct (_ && _); [eapply clients_trans; [exact H | apply same_ifs_clients, gratuitous_ifs] | exact H].
Qed.
Lemma unaddress_clients p s : same_clients s (unaddress p s).
Proof.
  unfold unaddress, netif_set_netmask, netif_set_gw, netif_set_ipaddr.
  do 3 (eapply clients_trans; [| by apply upd_clients]). apply set_down_clients.
Qed.
Lemma frame_net net s : same_clients (ds_net s) net -> frame_ok s (ds_set_net net s).
Proof. by split. Qed.

(** *** The back-off *)

Lemma retry_exp t : is_u8 t -> 1 <= u16 ((u16 (backoff_exp t) + DHCP_FINE_TIMER_MSECS - 1) / DHCP_FINE_TIMER_MSECS) <= 120.
Proof.
  intros Ht. unfold backoff_exp, DHCP_FINE_TIMER_MSECS. destruct (Z.ltb_spec t 6) as [Hlt |]; [| done].
  assert (H : t = 0 \/ t = 1 \/ t = 2 \/ t = 3 \/ t = 4 \/ t = 5) by (unfold is_u8 in Ht; lia).
  by repeat (destruct H as [-> | H]; [done |]); subst.
Qed.
Lemma retry_steps k t : (k = 1000 \/ k = 2000) -> is_u8 t ->
  let r := u16 ((u16 (if t <? 10 then t * k else 10 * k) + DHCP_FINE_TIMER_MSECS - 1) / DHCP_FINE_TIMER_MSECS) in
  0 <= r <= k / 50 /\ (r = 0 -> t = 0).
Proof.
  intros Hk Ht. unfold DHCP_FINE_TIMER_MSECS. cbn zeta.
  destruct Hk as [-> | ->]; destruct (Z.ltb_spec t 10); unfold is_u8, u16 in *; (split; [| intros]); Z.div_mod_to_equations; lia.
Qed.

Lemma set_state_msg k d : d_msg_in (dhcp_set_state k d) = d_msg_in d.
Proof. unfold dhcp_set_state. by destruct (k =? d_state d). Qed.
Lemma set_state_out k d : d_p_out (dhcp_set_state k d) = d_p_out d.
Proof. unfold dhcp_set_state. by destruct (k =? d_state d). Qed.
Lemma set_state_tries k d : d_tries (dhcp_set_state k d) = if k =? d_state d then d_tries d else 0.
Proof. unfold dhcp_set_state. by destruct (k =? d_state d). Qed.
Lemma set_state_u8 k d : is_u8 (d_tries d) -> is_u8 (d_tries (dhcp_set_state k d)).
Proof. intros H. rewrite set_state_tries. by destruct (k =? d_state d). Qed.

(** A program of a client that comes to an end with the client alive. *)
Definition ends {A} (msg : option (list Z)) (s : dsys) (r : option (A * cl)) : Prop :=
  exists a c, r = Some (a, c) /\ alive msg (c_dhcp c) /\ armed (c_dhcp c) /\ frame_ok s (c_sys c).
(** What a client needs for a request. *)
Definition ready (msg : option (list Z)) (d : dhcp) : Prop :=
  is_Some (d_pcb d) /\ d_msg_in d = msg /\ is_u8 (d_tries d).

Lemma alloc_ifs s p net : net_pbuf_alloc PBUF_TRANSPORT SIZEOF_DHCP_MSG s = (p, net) -> same_ifs s net.
Proof. apply pbuf_alloc_ifs. Qed.
Lemma outcome_ends np t opts pcb dst b msg d s r : outcome np t opts pcb dst b d s r -> ready msg d ->
  armed (dhcp_retry b d) -> ends msg s r.
Proof.
  intros Ho (Hp & Hm & Ht) Ha. assert (Hu : is_u8 (u8 (d_tries d + 1))) by apply u8_range.
  destruct Ho as [net Ea | p0 net0 p e u net Ea Hp0 Eu]; eexists _, _; (split; [done |]); cbn [c_dhcp c_sys].
  - split; [by split |]. split; [exact Ha |]. apply frame_net, same_ifs_clients. by eapply alloc_ifs.
  - split; [by split |]. split; [exact Ha |]. split; [| done | done]. cbn.
    eapply clients_trans; [apply same_ifs_clients; by eapply alloc_ifs |].
    apply same_ifs_clients. by apply udp_sendto_if_keeps in Eu as [? _].
Qed.

Lemma outcome_state np t opts pcb dst b d s e c : outcome np t opts pcb dst b d s (Some (e, c)) -> d_state (c_dhcp c) = d_state d.
Proof. intros H. remember (Some (e, c)) as r eqn:E. by destruct H; injection E as <- <-. Qed.

Lemma armed_exp k d : k = DHCP_SELECTING \/ k = DHCP_REQUESTING -> armed (dhcp_retry backoff_exp (dhcp_set_state k d)).
Proof.
  intros Hk. unfold armed. cbn [dhcp_retry d_state d_set_request_timeout d_set_tries d_tries d_request_timeout].
  rewrite set_state_state. pose proof (retry_exp _ (u8_range (d_tries (dhcp_set_state k d) + 1))).
  by destruct Hk as [-> | ->].
Qed.
Lemma armed_lin k d : k = DHCP_REBINDING \/ k = DHCP_REBOOTING -> 0 <= d_tries (dhcp_set_state k d) <= 8 ->
  armed (dhcp_retry backoff_lin (dhcp_set_state k d)).
Proof.
  intros Hk Ht. unfold armed. cbn [dhcp_retry d_state d_set_request_timeout d_set_tries d_tries d_request_timeout].
  rewrite set_state_state. set (t := d_tries _) in *.
  destruct (retry_steps 1000 (u8 (t + 1)) (or_introl eq_refl) (u8_range _)) as [H1 H2].
  rewrite (u8_small (t + 1)) in * by (unfold is_u8; lia). unfold backoff_lin. change (1000 / 50) with 20 in H1.
  set (rt := u16 _) in *. destruct Hk as [-> | ->]; cbn; lia.
Qed.
Lemma armed_renew d : is_u8 (d_tries d) -> armed (dhcp_retry backoff_renew (dhcp_set_state DHCP_RENEWING d)).
Proof.
  intros Ht. unfold armed. cbn [dhcp_retry d_state d_set_request_timeout d_set_tries d_tries d_request_timeout].
  rewrite set_state_state. exact (retry_steps 2000 _ (or_intror eq_refl) (u8_range _)).
Qed.

Lemma armed_off b d : d_state d = DHCP_OFF -> armed (dhcp_retry b d).
Proof. intros H. unfold armed. cbn [dhcp_retry d_state d_set_request_timeout d_set_tries]. by rewrite H. Qed.

Lemma ready_state msg k d : ready msg d -> ready msg (dhcp_set_state k d).
Proof. intros (? & ? & ?). unfold ready. rewrite set_state_pcb, set_state_msg. auto using set_state_u8. Qed.
Lemma ready_offered msg a d : ready msg d -> ready msg (d_set_offered_ip_addr a d).
Proof. done. Qed.
Lemma alive_ready msg d : alive msg d -> ready msg d.
Proof. by intros []. Qed.

Lemma discover_ends np msg d s : ready msg d -> ends msg s (dhcp_discover np (mk_cl d s)).
Proof.
  intros Hr. pose proof Hr as ([pcb Hp] & _). eapply outcome_ends; [by apply discover_outcome | |].
  - by apply ready_state, ready_offered.
  - apply armed_exp. by left.
Qed.
Lemma select_ends np msg d s : ready msg d -> ends msg s (dhcp_select np (mk_cl d s)).
Proof.
  intros Hr. pose proof Hr as ([pcb Hp] & _). eapply outcome_ends; [by apply select_outcome | |].
  - by apply ready_state.
  - apply armed_exp. by right.
Qed.
Lemma renew_ends np msg d s : ready msg d -> ends msg s (dhcp_renew np (mk_cl d s)).
Proof.
  intros Hr. pose proof Hr as ([pcb Hp] & _ & Ht). eapply outcome_ends; [by apply renew_outcome | |].
  - by apply ready_state.
  - by apply armed_renew.
Qed.
Lemma rebind_ends np msg d s : ready msg d -> (d_state d = DHCP_REBINDING -> d_tries d <= 8) ->
  ends msg s (dhcp_rebind np (mk_cl d s)).
Proof.
  intros Hr Ht. pose proof Hr as ([pcb Hp] & _ & Hu). eapply outcome_ends; [by apply rebind_outcome | |].
  - by apply ready_state.
  - apply armed_lin; [by left |]. rewrite set_state_tries. unfold is_u8 in Hu.
    destruct (Z.eqb_spec DHCP_REBINDING (d_state d)) as [E |]; [specialize (Ht (eq_sym E)) |]; lia.
Qed.
Lemma reboot_ends np msg d s : ready msg d -> (d_state d = DHCP_REBOOTING -> d_tries d <= 8) ->
  ends msg s (dhcp_reboot np (mk_cl d s)).
Proof.
  intros Hr Ht. pose proof Hr as ([pcb Hp] & _ & Hu). eapply outcome_ends; [by apply reboot_outcome | |].
  - by apply ready_state.
  - apply armed_lin; [by right |]. rewrite set_state_tries. unfold is_u8 in Hu.
    destruct (Z.eqb_spec DHCP_REBOOTING (d_state d)) as [E |]; [specialize (Ht (eq_sym E)) |]; lia.
Qed.
Lemma release_ends np msg d s : ready msg d -> exists e c, dhcp_release np (mk_cl d s) = Some (e, c)
  /\ alive msg (c_dhcp c) /\ d_state (c_dhcp c) = DHCP_OFF /\ frame_ok s (c_sys c).
Proof.
  intros Hr. pose proof Hr as ([pcb Hp] & Hm & Hu). destruct (release_outcome np pcb d s Hp) as (e & c & Ho & E).
  assert (Hf : d_state (forget d) = DHCP_OFF) by (unfold forget; cbn; apply set_state_state).
  assert (Hrf : ready msg (forget d)).
  { unfold ready, forget. cbn. rewrite set_state_pcb, set_state_msg. destruct Hr as (? & _). auto using set_state_u8. }
  pose proof (armed_off backoff_lin (forget d) Hf) as Ha. generalize dependent (forget d). intros d1 Ho Hf Hrf Ha.
  pose proof (outcome_ends _ _ _ _ _ _ _ _ _ _ Ho Hrf Ha) as (e' & c' & [= <- <-] & Hal & _ & Hfr).
  eexists _, _. split; [exact E |]. split; [exact Hal |]. split.
  - cbn [c_dhcp]. by rewrite (outcome_state _ _ _ _ _ _ _ _ _ _ Ho).
  - etrans; [exact Hfr |]. apply frame_net, unaddress_clients.
Qed.

(** *** Timers and replies keep it *)

Lemma ends_drop {A} msg s (m : DM A) c : ends msg s (m c) -> ends msg s ((m ;; mret tt) c).
Proof. intros (a & c' & E & H). exists tt, c'. by rewrite (bind_run _ _ _ _ _ E). Qed.
Lemma ends_same msg d s : alive msg d -> armed d -> ends msg s (Some (tt, mk_cl d s)).
Proof. intros Ha Hm. by exists tt, (mk_cl d s). Qed.
Lemma ends_frame {A} msg s s' (r : option (A * cl)) : frame_ok s s' -> ends msg s' r -> ends msg s r.
Proof. intros Hf (a & c & E & Ha & Hm & Hfr). exists a, c. split_and!; try done. by etrans. Qed.
Lemma ends_release np msg d s : ready msg d -> ends msg s ((dhcp_release np ;; dhcp_discover np ;; mret tt) (mk_cl d s)).
Proof.
  intros Hr. destruct (release_ends np msg d s Hr) as (e & [d1 s1] & E & Ha & _ & Hf). rewrite (bind_run _ _ _ _ _ E).
  apply ends_drop. eapply ends_frame; [exact Hf |]. by apply discover_ends, alive_ready.
Qed.

Lemma timeout_ends np msg d s : alive msg d -> ends msg s (dhcp_timeout np (mk_cl d s)).
Proof.
  intros Ha. pose proof (alive_ready _ _ Ha) as Hr. unfold dhcp_timeout. erewrite bind_run; [| reflexivity]. cbn [c_dhcp].
  destruct ((d_state d =? DHCP_BACKING_OFF) || (d_state d =? DHCP_SELECTING)) eqn:E0; [by apply ends_drop, discover_ends |].
  apply orb_false_iff in E0 as [_ E0].
  destruct (d_state d =? DHCP_REQUESTING) eqn:E1.
  { destruct (d_tries d <=? 5); [by apply ends_drop, select_ends | by apply ends_release]. }
  destruct (d_state d =? DHCP_RENEWING) eqn:E2; [by apply ends_drop, renew_ends |].
  destruct (d_state d =? DHCP_REBINDING) eqn:E3.
  { destruct (Z.leb_spec (d_tries d) 8); [apply ends_drop, rebind_ends; [done | by intros _] | by apply ends_release]. }
  destruct (d_state d =? DHCP_REBOOTING) eqn:E4.
  { destruct (Z.ltb_spec (d_tries d) REBOOT_TRIES) as [H |]; [apply ends_drop, reboot_ends; [done | unfold REBOOT_TRIES in H; lia] | by apply ends_drop, discover_ends]. }
  apply ends_same; [done |]. unfold armed. by rewrite E0, E1, E2, E3, E4.
Qed.

Lemma t1_ends np msg d s : alive msg d -> armed d -> ends msg s (dhcp_t1_timeout np (mk_cl d s)).
Proof.
  intros Ha Hm. unfold dhcp_t1_timeout. erewrite bind_run; [| reflexivity]. cbn [c_dhcp].
  destruct (has_lease d); [by apply ends_drop, renew_ends, alive_ready | by apply ends_same].
Qed.
Lemma t2_ends np msg d s : alive msg d -> armed d -> ends msg s (dhcp_t2_timeout np (mk_cl d s)).
Proof.
  intros Ha Hm. unfold dhcp_t2_timeout. erewrite bind_run; [| reflexivity]. cbn [c_dhcp].
  destruct (has_lease d) eqn:E; [| by apply ends_same].
  apply ends_drop, rebind_ends; [by apply alive_ready |]. unfold has_lease in E. intros Hs. by rewrite Hs in E.
Qed.
Lemma coarse_ends np msg d s : alive msg d -> armed d -> ends msg s (coarse_body np (mk_cl d s)).
Proof.
  intros Ha Hm. unfold coarse_body. do 2 (erewrite bind_run; [| reflexivity]). cbn [c_dhcp c_sys].
  destruct (d_t2_timeout d =? 1); [by apply t2_ends; [destruct Ha |] |].
  erewrite bind_run; [| reflexivity]. cbn [c_dhcp c_sys].
  destruct (d_t1_timeout d =? 1); [apply t1_ends | apply ends_same]; try done; by destruct Ha.
Qed.
Lemma armed_tick d : armed d -> 1 < d_request_timeout d -> armed (d_set_request_timeout (u16 (d_request_timeout d - 1)) d).
Proof.
  unfold armed. cbn [d_state d_tries d_request_timeout d_set_request_timeout]. intros H Hr.
  destruct (_ || _); [rewrite u16_small by (unfold is_u16; lia); lia |].
  destruct (_ || _); [rewrite u16_small by (unfold is_u16; lia); lia |].
  destruct (_ =? _); [rewrite u16_small by (unfold is_u16; lia); lia | done].
Qed.
Lemma fine_ends np msg d s : alive msg d -> armed d -> ends msg s (fine_body np (mk_cl d s)).
Proof.
  intros Ha Hm. unfold fine_body. erewrite bind_run; [| reflexivity]. cbn [c_dhcp].
  destruct (Z.ltb_spec 1 (d_request_timeout d)) as [H |].
  { apply ends_same; [by destruct Ha | by apply armed_tick]. }
  destruct (d_request_timeout d =? 1); [| by apply ends_same].
  erewrite bind_run; [| reflexivity]. apply timeout_ends. by destruct Ha.
Qed.

Lemma bind_ends np msg d s : alive msg d -> ends msg s (dhcp_bind np (mk_cl d s)).
Proof.
  intros Ha. set (d1 := dhcp_timers d).
  assert (Ha1 : alive msg d1) by (unfold d1, dhcp_timers; destruct Ha; repeat case_match; by split).
  unfold dhcp_bind. do 6 (erewrite bind_run; [| reflexivity]). cbn [c_dhcp c_sys]. fold d1. clearbody d1.
  eexists tt, _. split; [reflexivity |]. cbn [c_dhcp c_sys]. destruct Ha1 as [Hp Ho Hm Ht]. split_and!.
  - split; [by rewrite set_state_pcb | by rewrite set_state_out | by rewrite set_state_msg | by apply set_state_u8].
  - unfold armed. by rewrite set_state_state.
  - split; [| done | done]. cbn [ds_net ds_set_net].
    eapply clients_trans; [| apply set_up_clients]. do 3 (eapply clients_trans; [| by apply upd_clients]). by intros ?.
Qed.
Lemma nak_ends np msg d s : alive msg d -> ends msg s (dhcp_handle_nak np (mk_cl d s)).
Proof.
  intros Ha. unfold dhcp_handle_nak. do 5 (erewrite bind_run; [| reflexivity]). cbn [c_dhcp c_sys].
  apply ends_drop. eapply ends_frame; [| by apply discover_ends, ready_state, alive_ready].
  split; [| done | done]. cbn [ds_net ds_set_net]. apply unaddress_clients.
Qed.
Lemma handle_ack_ok o msg d : alive (Some msg) d -> exists d', dhcp_handle_ack o d = Some d' /\ alive (Some msg) d'.
Proof.
  intros [Hp Ho Hm Ht]. unfold dhcp_handle_ack.
  repeat match goal with |- context [match dhcp_get_option ?i o with _ => _ end] => destruct (dhcp_get_option i o) end;
    cbn; rewrite Hm; cbn; eexists; (split; [done |]); by split.
Qed.

(** An offer that names its server. *)
Definition names_server (o : rx_options) : Prop :=
  dhcp_get_option DHCP_OPTION_IDX_MSG_TYPE o = Some DHCP_OFFER -> is_Some (dhcp_get_option DHCP_OPTION_IDX_SERVER_ID o).
Lemma message_ends np msg v o d s : alive (Some msg) d -> armed d -> ds_options s = o ->
  (v = DHCP_OFFER -> is_Some (dhcp_get_option DHCP_OPTION_IDX_SERVER_ID o)) ->
  ends (Some msg) s (dhcp_message np v o (mk_cl d s)).
Proof.
  intros Ha Hm Ho Hv. unfold dhcp_message. erewrite bind_run; [| reflexivity]. cbn [c_dhcp].
  destruct (v =? DHCP_ACK).
  { destruct (d_state d =? DHCP_REQUESTING).
    - destruct (handle_ack_ok o msg d Ha) as (d' & E & Ha').
      erewrite bind_run; [| unfold dhcp_try; cbn; by rewrite E]. by apply bind_ends.
    - destruct (_ || _); [by apply bind_ends | by apply ends_same]. }
  destruct (_ && _); [by apply nak_ends |].
  destruct (Z.eqb_spec v DHCP_OFFER) as [Ev | _]; cbn [andb]; [| by apply ends_same].
  destruct (d_state d =? DHCP_SELECTING); [| by apply ends_same].
  erewrite bind_run; [| reflexivity]. unfold dhcp_handle_offer. erewrite bind_run; [| reflexivity]. cbn [c_dhcp c_sys]. rewrite Ho.
  destruct (Hv Ev) as [sv ->]. do 2 (erewrite bind_run; [| reflexivity]). cbn [c_dhcp c_sys].
  erewrite bind_run; [| unfold deref; cbn; by rewrite (al_msg _ _ Ha)]. erewrite bind_run; [| reflexivity].
  apply ends_drop, select_ends. destruct Ha as [? ? ? ?]. by split.
Qed.

(** ** The system of clients *)

(** Every interface with a client has it in memory and in order, and a callback
    belongs to an interface with a client. *)
Record dhcp_inv (s : dsys) : Prop := {
  di_client : forall np i, nif_dhcp (netif_of (ds_net s) np) = Some i -> exists d, ds_mem s !! i = Some d /\ client_ok d;
  di_recv : forall pcb np, ds_recv s !! pcb = Some np -> is_Some (nif_dhcp (netif_of (ds_net s) np))
}.
Definition endc {A} (s : dsys) (r : option (A * cl)) : Prop :=
  exists a c, r = Some (a, c) /\ client_ok (c_dhcp c) /\ frame_ok s (c_sys c).
Lemma ends_endc {A} s (r : option (A * cl)) : ends None s r -> endc s r.
Proof. intros (a & c & E & Ha & Hm & Hf). exists a, c. split; [done |]. split; [by left | done]. Qed.
Lemma endc_same d s : client_ok d -> endc s (Some (tt, mk_cl d s)).
Proof. intros H. by exists tt, (mk_cl d s). Qed.

Lemma dhcp_inv_ext s s' : same_clients (ds_net s) (ds_net s') -> ds_mem s' = ds_mem s -> ds_recv s' ⊆ ds_recv s -> dhcp_inv s -> dhcp_inv s'.
Proof.
  intros Hn Hm Hr [Hc Hv]. split.
  - intros np i. rewrite Hn, Hm. apply Hc.
  - intros pcb np H. rewrite Hn. eapply Hv, lookup_weaken; [exact H | done].
Qed.
Lemma on_client_inv {A} np i (m : DM A) s : dhcp_inv s -> nif_dhcp (netif_of (ds_net s) np) = Some i ->
  (forall d, ds_mem s !! i = Some d -> client_ok d -> endc s (m (mk_cl d s))) ->
  exists a s', on_client np m s = Some (a, s') /\ dhcp_inv s' /\ same_clients (ds_net s) (ds_net s').
Proof.
  intros [Hc Hv] Hi Hm. destruct (Hc np i Hi) as (d & Hd & Hok). destruct (Hm d Hd Hok) as (a & [d' s'] & E & Hok' & [Fn Fm Fr]).
  cbn [c_dhcp c_sys] in *. exists a, (ds_set_mem (<[i := d']> (ds_mem s')) s').
  split; [unfold on_client; rewrite Hi; cbn; rewrite Hd; cbn; by rewrite E |]. split; [| exact Fn]. split; cbn.
  - intros q j Hj. rewrite Fn in Hj. rewrite Fm. destruct (decide (i = j)) as [<- | Hij].
    + exists d'. by rewrite lookup_insert_eq.
    + rewrite lookup_insert_ne by done. by eapply Hc.
  - intros pcb q H. rewrite Fn. eapply Hv, lookup_weaken; [exact H | done].
Qed.

(** A client that is off does nothing. *)
Definition off (d : dhcp) : Prop := d_pcb d = None /\ d_p_out d = None /\ d_msg_in d = None /\ d_state d = DHCP_OFF.
Lemma timeout_off np d s : d_state d = DHCP_OFF -> dhcp_timeout np (mk_cl d s) = Some (tt, mk_cl d s).
Proof. intros H. unfold dhcp_timeout. erewrite bind_run; [| reflexivity]. cbn [c_dhcp]. by rewrite H. Qed.
Lemma t1_off np d s : d_state d = DHCP_OFF -> dhcp_t1_timeout np (mk_cl d s) = Some (tt, mk_cl d s).
Proof. intros H. unfold dhcp_t1_timeout, has_lease. erewrite bind_run; [| reflexivity]. cbn [c_dhcp]. by rewrite H. Qed.
Lemma t2_off np d s : d_state d = DHCP_OFF -> dhcp_t2_timeout np (mk_cl d s) = Some (tt, mk_cl d s).
Proof. intros H. unfold dhcp_t2_timeout, has_lease. erewrite bind_run; [| reflexivity]. cbn [c_dhcp]. by rewrite H. Qed.
Lemma message_off np v o d s : d_state d = DHCP_OFF -> dhcp_message np v o (mk_cl d s) = Some (tt, mk_cl d s).
Proof.
  intros H. unfold dhcp_message. erewrite bind_run; [| reflexivity]. cbn [c_dhcp]. rewrite H.
  destruct (v =? DHCP_ACK); [done |]. cbn. by rewrite !andb_false_r.
Qed.

Lemma fine_client np d s : client_ok d -> endc s (fine_body np (mk_cl d s)).
Proof.
  intros [[Ha Hm] | (Hp & Ho & Hi & Hs)]; [by apply ends_endc, fine_ends |].
  unfold fine_body. erewrite bind_run; [| reflexivity]. cbn [c_dhcp].
  destruct (1 <? d_request_timeout d); [apply endc_same; by right |].
  destruct (d_request_timeout d =? 1); [| apply endc_same; by right].
  erewrite bind_run; [| reflexivity]. rewrite timeout_off by done. apply endc_same. by right.
Qed.
Lemma coarse_client np d s : client_ok d -> endc s (coarse_body np (mk_cl d s)).
Proof.
  intros [[Ha Hm] | (Hp & Ho & Hi & Hs)]; [by apply ends_endc, coarse_ends |].
  unfold coarse_body. do 2 (erewrite bind_run; [| reflexivity]). cbn [c_dhcp c_sys].
  destruct (d_t2_timeout d =? 1); [rewrite t2_off by done; apply endc_same; by right |].
  erewrite bind_run; [| reflexivity]. cbn [c_dhcp c_sys].
  destruct (d_t1_timeout d =? 1); [rewrite t1_off by done |]; apply endc_same; by right.
Qed.

(** What a packet to the client's port must not be: a reply whose parse does not
    end or leaves the packet, or an offer that names no server. *)
Definition benign (fuel : nat) (p : list (list Z)) : Prop :=
  p <> [] /\ exists e o, dhcp_parse_reply fuel p = Some (e, o)
    /\ forall v, dhcp_get_option DHCP_OPTION_IDX_MSG_TYPE o = Some v -> u8 v = DHCP_OFFER ->
         is_Some (dhcp_get_option DHCP_OPTION_IDX_SERVER_ID o).

(** What is left to do after the body of [dhcp_recv]. *)
Definition finishes (s : dsys) (r : option (unit * cl)) : Prop :=
  exists c, r = Some (tt, c) /\ endc s (Some (tt, mk_cl (d_set_msg_in None (c_dhcp c)) (c_sys c))).
Lemma recv_finishes fuel np p d s : finishes s (dhcp_recv_body fuel np p (mk_cl d s)) -> endc s (dhcp_recv fuel np p (mk_cl d s)).
Proof. intros (c & E & H). unfold dhcp_recv. by rewrite (bind_run _ _ _ _ _ E). Qed.

Lemma recv_client fuel np p d s : benign fuel p -> client_ok d -> endc s (dhcp_recv fuel np p (mk_cl d s)).
Proof.
  intros (Hne & e & o & Ep & Hv) Hok.
  assert (Hq : endc s (Some (tt, mk_cl (d_set_msg_in None d) s))).
  { apply endc_same. destruct Hok as [[[? ? ? ?] ?] | (? & ? & ? & ?)]; [left | by right]. by split. }
  apply recv_finishes. destruct p as [| first rest]; [done |]. unfold dhcp_recv_body.
  do 3 (erewrite bind_run; [| reflexivity]). cbn [c_dhcp c_sys].
  destruct (_ <? _); [by eexists |]. destruct (negb _); [by eexists |].
  erewrite bind_run; [| unfold deref; by rewrite Ep]. cbv beta iota. do 2 (erewrite bind_run; [| reflexivity]). cbn [c_dhcp c_sys].
  set (d1 := d_set_msg_in (Some first) d). set (s1 := ds_set_options o s).
  assert (Hf : frame_ok s s1) by done.
  assert (Hq1 : finishes s (Some (tt, mk_cl d1 s1))).
  { eexists. split; [done |]. destruct Hq as (a & c & [= <- <-] & H & _). exists tt, (mk_cl (d_set_msg_in None d) s1). split; [by destruct d |]. done. }
  unfold when_ok. destruct (bool_decide (e = ERR_OK)); [| exact Hq1].
  destruct (dhcp_get_option DHCP_OPTION_IDX_MSG_TYPE o) as [v |] eqn:Ev; [| exact Hq1].
  destruct Hok as [[Ha Hm] | (Hp & Ho & Hi & Hs)].
  - destruct (message_ends np first (u8 v) o d1 s1) as ([] & c & E & Ha' & Hm' & Hf'); [by destruct Ha | done | done | by apply Hv |].
    exists c. split; [exact E |]. eexists tt, _. split; [done |]. split; [left | by etrans].
    cbn [c_dhcp]. split; [by destruct Ha' | done].
  - rewrite message_off by done. exact Hq1.
Qed.

Lemma each_netif_inv body l : (forall np d s, client_ok d -> endc s (body np (mk_cl d s))) ->
  forall s, dhcp_inv s -> exists s', each_netif body l s = Some s' /\ dhcp_inv s'.
Proof.
  intros Hb. induction l as [| np l IH]; intros s Hs; [by exists s |]. cbn [each_netif].
  destruct (nif_dhcp (netif_of (ds_net s) np)) as [i |] eqn:Ei; [| by apply IH].
  destruct (on_client_inv np i (body np) s Hs Ei (fun d _ => Hb np d s)) as ([] & s1 & E & Hs1 & _).
  rewrite E. cbn. by apply IH.
Qed.
Lemma udp_input_inv fuel inp ip port p s : benign fuel p -> dhcp_inv s ->
  exists s', dhcp_udp_input fuel inp ip port p s = Some s' /\ dhcp_inv s' /\ same_clients (ds_net s) (ds_net s').
Proof.
  intros Hp Hs. unfold dhcp_udp_input. destruct (port =? DHCP_SERVER_PORT); [| by eexists].
  destruct (nif_dhcp (netif_of (ds_net s) inp)) as [i |] eqn:Ei; [| by eexists].
  destruct (di_client s Hs inp i Ei) as (d & Hd & _). rewrite Hd. cbn [mbind option_bind].
  destruct (d_pcb d) as [pcb |]; [| by eexists]. destruct (_ || _); [| by eexists].
  destruct (ds_recv s !! pcb) as [np |] eqn:Er; [| by eexists].
  destruct (di_recv s Hs pcb np Er) as [j Hj].
  destruct (on_client_inv np j (dhcp_recv fuel np p) s Hs Hj) as ([] & s1 & E & Hs1 & Hcl); [intros; by apply recv_client |].
  rewrite E. by eexists.
Qed.

Lemma upd_flags_inv f np s : dhcp_inv s -> dhcp_inv (upd_flags f np s).
Proof. apply dhcp_inv_ext; [by apply upd_clients | done | done]. Qed.
Lemma stop_inv np s : dhcp_inv s -> exists s', dhcp_stop np s = Some s' /\ dhcp_inv s' /\ same_clients (ds_net s) (ds_net s').
Proof.
  intros Hs. unfold dhcp_stop. set (s1 := upd_flags _ np s). assert (Hs1 : dhcp_inv s1) by (by apply upd_flags_inv).
  assert (Hc1 : same_clients (ds_net s) (ds_net s1)) by (by apply upd_clients). clearbody s1. clear Hs.
  destruct (nif_dhcp (netif_of (ds_net s1) np)) as [i |] eqn:Ei; [| by eexists].
  set (m := d ← dhcp_get; _). destruct (on_client_inv np i m s1 Hs1 Ei) as ([] & s2 & E & Hs2 & Hc2); [| rewrite E; eexists; split; [done |]; split; [done | by eapply clients_trans]].
  intros d _ Hd. unfold m. erewrite bind_run; [| reflexivity]. cbn [c_dhcp].
  assert (Hfr : d_p_out d = None /\ d_msg_in d = None) by (by destruct Hd as [[[? ? ? ?] ?] | (? & ? & ? & ?)]). destruct Hfr as [Hpo Hmi].
  assert (Hoff : forall d', d_pcb d' = None -> d_p_out d' = None -> d_msg_in d' = None -> client_ok (dhcp_set_state DHCP_OFF d')).
  { intros d' ? ? ?. right. by rewrite set_state_pcb, set_state_out, set_state_msg, set_state_state. }
  destruct (d_pcb d) as [pcb |] eqn:Ep.
  - erewrite bind_run; [| reflexivity]. eexists tt, _. split; [reflexivity |]. split; [by apply Hoff |].
    split; [by intros ? | done |]. apply delete_subseteq.
  - erewrite bind_run; [| reflexivity]. eexists tt, _. split; [reflexivity |]. split; [by apply Hoff | done].
Qed.

Lemma network_changed_inv np s : dhcp_inv s -> exists s', dhcp_network_changed np s = Some s' /\ dhcp_inv s'.
Proof.
  intros Hs. unfold dhcp_network_changed. destruct (nif_dhcp (netif_of (ds_net s) np)) as [i |] eqn:Ei; [| by eexists].
  set (m := d ← dhcp_get; _). destruct (on_client_inv np i m s Hs Ei) as ([] & s2 & E & Hs2 & _); [| rewrite E; by eexists].
  intros d _ Hd. unfold m. erewrite bind_run; [| reflexivity]. cbn [c_dhcp].
  destruct Hd as [[Ha Hm] | (Hp & Ho & Hi & Hst)]; [| rewrite Hst; apply endc_same; by right].
  assert (Hr : ready None (d_set_tries 0 d)) by (destruct Ha as [? ? ? ?]; by split).
  destruct (_ || _).
  - do 2 (erewrite bind_run; [| reflexivity]). cbn [c_dhcp c_sys]. apply ends_endc, ends_drop.
    eapply ends_frame; [| apply reboot_ends; [exact Hr | by intros _]]. apply frame_net, set_down_clients.
  - destruct (_ =? _); [apply endc_same; by left |]. erewrite bind_run; [| reflexivity]. cbn [c_dhcp c_sys].
    by apply ends_endc, ends_drop, discover_ends.
Qed.

(** *** Starting *)

(** A client at [i] of the interface [np]. *)
Lemma attach_inv np i d s s' : dhcp_inv s -> client_ok d ->
  (forall q, nif_dhcp (netif_of (ds_net s') q) = if decide (np = q) then Some i else nif_dhcp (netif_of (ds_net s) q)) ->
  ds_mem s' = <[i := d]> (ds_mem s) ->
  (forall pcb q, ds_recv s' !! pcb = Some q -> q = np \/ ds_recv s !! pcb = Some q) -> dhcp_inv s'.
Proof.
  intros [Hc Hv] Hd Hn Hm Hr. split.
  - intros q j. rewrite Hn, Hm. intros Hj. destruct (decide (i = j)) as [<- | Hij]; [exists d; by rewrite lookup_insert_eq |].
    rewrite lookup_insert_ne by done. destruct (decide (np = q)); [congruence | by eapply Hc].
  - intros pcb q Hq. rewrite Hn. destruct (decide (np = q)); [done |]. destruct (Hr pcb q Hq) as [-> | H]; [done | by eapply Hv].
Qed.

Lemma start_struct_ok np s : dhcp_inv s -> exists c s', start_struct np s = Some (c, s') /\ match c with
  | None => dhcp_inv s'
  | Some i => forall d pcb recv u, client_ok d -> (recv = ds_recv s' \/ recv = <[pcb := np]> (ds_recv s')) ->
      dhcp_inv (ds_set_recv recv (ds_set_udp u (ds_set_mem (<[i := d]> (ds_mem s')) s')))
      /\ nif_dhcp (netif_of (ds_net s') np) = Some i
  end.
Proof.
  intros Hs. unfold start_struct.
  assert (Hrecv : forall (m : gmap nat netif_ptr) pcb recv, (recv = m \/ recv = <[pcb := np]> m) ->
    forall k q, recv !! k = Some q -> q = np \/ m !! k = Some q).
  { intros m pcb recv [-> | ->] k q; [by right |]. rewrite lookup_insert_Some. naive_solver. }
  destruct (nif_dhcp (netif_of (ds_net s) np)) as [i |] eqn:Ei.
  - destruct (di_client s Hs np i Ei) as (d & Hd & _). rewrite Hd. cbn [mbind option_bind].
    eexists (Some i), _. split; [done |]. intros d' pcb recv u Hok Hr.
    set (s1 := match d_pcb d with Some p => _ | None => s end) in *.
    assert (H1 : ds_net s1 = ds_net s /\ ds_mem s1 = ds_mem s /\ ds_recv s1 ⊆ ds_recv s).
    { unfold s1. destruct (d_pcb d); [| done]. split; [done |]. split; [done |]. apply delete_subseteq. }
    destruct H1 as (Hn & Hm & Hsub). clearbody s1. split; [| by rewrite Hn].
    apply (attach_inv np i d' s); [done | done | | by cbn; rewrite Hm |].
    + intros q. cbn. rewrite Hn. by destruct (decide (np = q)) as [<- |].
    + intros k q Hq. destruct (Hrecv _ _ _ Hr k q Hq) as [| H]; [by left | right]. eapply lookup_weaken; [exact H | done].
  - destruct (mem_malloc _ _) as [[|] h].
    + eexists (Some _), _. split; [done |]. intros d pcb recv u Hok Hr. split.
      * eapply (attach_inv np _ d s); [done | exact Hok | | done |].
        -- intros q. cbn [ds_net ds_set_recv ds_set_udp ds_set_mem ds_set_net]. rewrite netif_of_upd. by destruct (decide (np = q)).
        -- by apply (Hrecv _ pcb).
      * cbn. by rewrite netif_of_upd_eq.
    + eexists None, _. split; [done |]. eapply dhcp_inv_ext; [| | | exact Hs]; done.
Qed.

(** An interface on which a client can be started. *)
Record startable (np : netif_ptr) (s : dsys) : Prop := {
  sa_etharp : has_flag (netif_of (ds_net s) np) NETIF_FLAG_ETHARP = true;
  sa_mtu : DHCP_MAX_MSG_LEN_MIN_REQUIRED <= nif_mtu (netif_of (ds_net s) np);
  sa_struct : is_Some (nif_dhcp (netif_of (ds_net s) np)) \/ fst (mem_malloc SIZEOF_STRUCT_DHCP (n_heap (ds_net s))) = true
}.
Lemma has_flag_land f m g : Z.land m g = g -> negb (Z.land (Z.land f m) g =? 0) = negb (Z.land f g =? 0).
Proof. intros E. by rewrite <- Z.land_assoc, E. Qed.
Lemma startable_flags np s : startable np s -> startable np (upd_flags (fun f => Z.land f (Z.lnot NETIF_FLAG_DHCP)) np s).
Proof.
  intros [He Hm Hs]. split; unfold upd_flags; cbn [ds_net ds_set_net]; rewrite ?netif_of_upd_eq; cbn [nif_set_flags nif_mtu nif_dhcp]; try done.
  unfold has_flag in *. cbn [nif_set_flags nif_flags]. by rewrite has_flag_land.
Qed.
Lemma start_struct_some np s s' : startable np s -> start_struct np s <> Some (None, s').
Proof.
  intros [_ _ Hs] E. unfold start_struct in E. destruct (nif_dhcp _) as [i |]; [by destruct (ds_mem s !! i) |].
  destruct Hs as [[? ?] | Hs]; [done |]. by destruct (mem_malloc _ _) as [[|] ?].
Qed.

Lemma start_inv np s : dhcp_inv s -> exists e s', dhcp_start np s = Some (e, s') /\ dhcp_inv s'
  /\ (startable np s -> is_Some (nif_dhcp (netif_of (ds_net s') np)))
  /\ (is_Some (nif_dhcp (netif_of (ds_net s) np)) -> is_Some (nif_dhcp (netif_of (ds_net s') np))).
Proof.
  intros Hs. unfold dhcp_start. pose proof (startable_flags np s) as Hsa. set (s1 := upd_flags _ np s) in *.
  assert (Hs1 : dhcp_inv s1) by (by apply upd_flags_inv).
  assert (Hc1 : same_clients (ds_net s) (ds_net s1)) by (by apply upd_clients). clearbody s1. clear Hs.
  destruct (has_flag (netif_of (ds_net s1) np) NETIF_FLAG_ETHARP) eqn:Ef; cbn [negb].
  2: { eexists _, _. split; [done |]. split; [done |]. split; [intros Ha%Hsa; destruct Ha; congruence | by rewrite Hc1]. }
  destruct (Z.ltb_spec (nif_mtu (netif_of (ds_net s1) np)) DHCP_MAX_MSG_LEN_MIN_REQUIRED) as [Hlt | _].
  { eexists _, _. split; [done |]. split; [done |]. split; [intros Ha%Hsa; destruct Ha; lia | by rewrite Hc1]. }
  destruct (start_struct_ok np s1 Hs1) as ([i |] & s2 & E & H); rewrite E; cbn [mbind option_bind].
  2: { eexists _, _. split; [done |]. split; [done |]. split; [intros Ha%Hsa; by destruct (start_struct_some np s1 s2 Ha) |].
    intros [i Hi]. rewrite <- Hc1 in Hi. unfold start_struct in E. rewrite Hi in E. by destruct (ds_mem s1 !! i). }
  destruct (udp_new _) as [[pcb |] u].
  - unfold start_pcb. cbn [ds_udp ds_recv ds_set_udp ds_set_mem].
    set (u2 := snd (udp_connect _ _ _ _)).
    destruct (H (d_set_pcb (Some pcb) dhcp_zero) pcb (<[pcb := np]> (ds_recv s2)) u2) as [Hinv Hi]; [by left | by right |].
    change (ds_set_recv _ (ds_set_udp u2 _)) with (ds_set_recv (<[pcb := np]> (ds_recv s2)) (ds_set_udp u2 (ds_set_mem (<[i := d_set_pcb (Some pcb) dhcp_zero]> (ds_mem s2)) s2))).
    assert (Hi3 : is_Some (nif_dhcp (netif_of (ds_net s2) np))) by eauto. set (s3 := ds_set_recv _ _) in *.
    destruct (on_client_inv np i (dhcp_discover np) s3 Hinv Hi) as (e & s4 & E4 & H4 & Hc4).
    { intros d Hd _. assert (d = d_set_pcb (Some pcb) dhcp_zero) as -> by (unfold s3 in Hd; cbn in Hd; rewrite lookup_insert_eq in Hd; congruence).
      apply ends_endc, discover_ends. by split. }
    rewrite E4. cbn [mbind option_bind]. destruct (bool_decide _).
    + eexists _, _. split; [done |]. split; [by apply upd_flags_inv |].
      assert (Hi5 : is_Some (nif_dhcp (netif_of (ds_net (upd_flags (fun f => Z.lor f NETIF_FLAG_DHCP) np s4)) np))); [| by split].
      unfold upd_flags. cbn [ds_net ds_set_net]. rewrite upd_clients by done. by rewrite Hc4.
    + destruct (stop_inv np s4 H4) as (s5 & E5 & H5 & Hc5). rewrite E5. eexists _, _. split; [done |]. split; [done |]. by rewrite Hc5, Hc4.
  - destruct (H (d_set_pcb None dhcp_zero) 0%nat (ds_recv s2) u) as [Hinv Hi]; [by right | by left |].
    eexists _, _. split; [done |]. split; [by destruct s2 |]. cbn [ds_net ds_set_udp ds_set_mem]. rewrite Hi. by split.
Qed.

(** Without memory for the structure nothing is started. *)
Lemma start_fails np s e s' : nif_dhcp (netif_of (ds_net s) np) = None -> fst (mem_malloc SIZEOF_STRUCT_DHCP (n_heap (ds_net s))) = false ->
  dhcp_start np s = Some (e, s') -> nif_dhcp (netif_of (ds_net s') np) = None.
Proof.
  intros Hn Hm. unfold dhcp_start. set (s1 := upd_flags _ np s).
  assert (Hn1 : nif_dhcp (netif_of (ds_net s1) np) = None) by (unfold s1, upd_flags; cbn [ds_net ds_set_net]; by rewrite upd_clients).
  assert (Hm1 : fst (mem_malloc SIZEOF_STRUCT_DHCP (n_heap (ds_net s1))) = false) by done. clearbody s1.
  destruct (negb _); [by intros [= _ <-] |]. destruct (_ <? _); [by intros [= _ <-] |]. unfold start_struct. rewrite Hn1.
  destruct (mem_malloc SIZEOF_STRUCT_DHCP (n_heap (ds_net s1))) as [[] h]; [discriminate Hm1 |]. cbn [mbind option_bind].
  by intros [= _ <-].
Qed.

(** *** Runs *)

(** What can happen to the clients. *)
Inductive dhcp_event : Set :=
| Ev_start (np : netif_ptr)
| Ev_stop (np : netif_ptr)
| Ev_changed (np : netif_ptr)
| Ev_fine
| Ev_coarse
| Ev_recv (inp : netif_ptr) (src_ip src_port : Z) (p : list (list Z)).
Definition dhcp_do (fuel : nat) (ev : dhcp_event) (s : dsys) : option dsys :=
  match ev with
  | Ev_start np => '(_, s) ← dhcp_start np s; Some s
  | Ev_stop np => dhcp_stop np s
  | Ev_changed np => dhcp_network_changed np s
  | Ev_fine => dhcp_fine_tmr s
  | Ev_coarse => dhcp_coarse_tmr s
  | Ev_recv inp ip port p => dhcp_udp_input fuel inp ip port p s
  end.
Fixpoint dhcp_run (fuel : nat) (evs : list dhcp_event) (s : dsys) : option dsys :=
  match evs with
  | [] => Some s
  | ev :: evs => s ← dhcp_do fuel ev s; dhcp_run fuel evs s
  end.
Definition benign_event (fuel : nat) (ev : dhcp_event) : Prop :=
  match ev with Ev_recv _ _ _ p => benign fuel p | _ => True end.
(** No client yet. *)
Definition no_clients (s : dsys) : Prop :=
  (forall np, nif_dhcp (netif_of (ds_net s) np) = None) /\ ds_recv s = ∅.

Lemma dhcp_do_inv fuel ev s : benign_event fuel ev -> dhcp_inv s -> exists s', dhcp_do fuel ev s = Some s' /\ dhcp_inv s'.
Proof.
  destruct ev; cbn; intros Hev Hs.
  - destruct (start_inv np s Hs) as (e & s' & E & H & _ & _). rewrite E. by eexists.
  - destruct (stop_inv np s Hs) as (s' & E & H & _). by exists s'.
  - by apply network_changed_inv.
  - apply each_netif_inv; [apply fine_client | done].
  - apply each_netif_inv; [apply coarse_client | done].
  - destruct (udp_input_inv fuel inp src_ip src_port p s Hev Hs) as (s' & E & H & _). by exists s'.
Qed.

(** C22. From a state without clients, whatever starts, stops, timer ticks, network
    changes and packets follow, in any order and on any interface, every event is
    handled: no null pointer is used, no option is written behind the message and no
    loop goes on, unless a packet's own parse does so.  After each of them a
    client has freed its message and holds no pointer into a packet, and if it waits
    for an answer, its timer is running and due within a minute, so it will ask again;
    provided no offer lacks the identifier of its server, and but for a renewal after
    256 tries. *)
Theorem dhcp_clients_alive fuel evs s (Hs : no_clients s) (Hev : Forall (benign_event fuel) evs) :
  exists s', dhcp_run fuel evs s = Some s' /\
  forall np i, nif_dhcp (netif_of (ds_net s') np) = Some i -> exists d, ds_mem s' !! i = Some d
    /\ ((alive None d /\ armed d) \/ off d).
Proof.
  assert (H : dhcp_inv s) by (destruct Hs as [Hn Hr]; split; [intros np i; by rewrite Hn | intros pcb np; by rewrite Hr]).
  assert (Hrun : exists s', dhcp_run fuel evs s = Some s' /\ dhcp_inv s').
  { clear Hs. revert s H. induction Hev as [| ev evs He _ IH]; intros s H; [by exists s |]. cbn [dhcp_run].
    destruct (dhcp_do_inv fuel ev s He H) as (s1 & E & H1). rewrite E. cbn. by apply IH. }
  destruct Hrun as (s' & E & [Hc _]). exists s'. split; [exact E |]. exact Hc.
Qed.

(** C27. Two ways a client forgets to ask again.  An offer without the identifier of
    its server stops the timer of a client that is looking for a server, which then
    waits for another offer for ever; and the 256th renewal in a row that gets no
    answer makes the counter of the tries 0 again, with a timeout of 0, so that
    nothing more is sent until the rebind time. *)
Theorem dhcp_timer_lost np msg d s :
  (d_state d = DHCP_SELECTING -> dhcp_get_option DHCP_OPTION_IDX_SERVER_ID (ds_options s) = None ->
     dhcp_message np DHCP_OFFER (ds_options s) (mk_cl d s) = Some (tt, mk_cl (d_set_request_timeout 0 d) s)
     /\ fine_body np (mk_cl (d_set_request_timeout 0 d) s) = Some (tt, mk_cl (d_set_request_timeout 0 d) s))
  /\ (alive msg d -> d_state d = DHCP_RENEWING -> d_tries d = 255 -> exists e c,
        dhcp_renew np (mk_cl d s) = Some (e, c) /\ d_state (c_dhcp c) = DHCP_RENEWING /\ d_request_timeout (c_dhcp c) = 0
        /\ fine_body np c = Some (tt, c)).
Proof.
  split.
  - intros Hs Ho. split; [| done]. unfold dhcp_message. erewrite bind_run; [| reflexivity]. cbn [c_dhcp]. rewrite Hs.
    change (DHCP_OFFER =? DHCP_ACK) with false. change (DHCP_OFFER =? DHCP_NAK) with false. cbn [andb].
    change ((DHCP_OFFER =? DHCP_OFFER) && (DHCP_SELECTING =? DHCP_SELECTING)) with true. cbv iota.
    erewrite bind_run; [| reflexivity]. unfold dhcp_handle_offer. erewrite bind_run; [| reflexivity]. cbn [c_sys]. by rewrite Ho.
  - intros [[pcb Hp] _ _ _] Hs Ht. pose proof (renew_outcome np pcb d s Hp) as Ho.
    assert (E : dhcp_set_state DHCP_RENEWING d = d) by (unfold dhcp_set_state; by rewrite Hs). rewrite E in Ho.
    destruct Ho; eexists _, _; (split; [done |]); cbn [c_dhcp]; unfold dhcp_retry; cbn; rewrite Ht;
      (split; [exact Hs | split; [done |]]); unfold fine_body; (erewrite bind_run; [| reflexivity]); done.
Qed.

(** *** Witnesses *)

Lemma ex_no_clients : no_clients ex_dsys.
Proof.
  split; [| done]. intros np. unfold ex_dsys, ex_net. cbn [ds_net]. change (netif_of (set_netif_list ?h ?s) np) with (netif_of s np).
  unfold netif_of, set_netifs. cbn [n_netifs]. destruct (decide (np = HdkNetIF 0)) as [-> |].
  - by rewrite lookup_total_singleton.
  - rewrite lookup_total_singleton_ne by done. done.
Qed.
Definition ex_events : list dhcp_event :=
  [Ev_start (HdkNetIF 0); Ev_fine; Ev_recv (HdkNetIF 0) 0x0a000001 DHCP_SERVER_PORT [ex_offer]; Ev_coarse; Ev_changed (HdkNetIF 0)].
Lemma ex_benign : Forall (benign_event 3) ex_events.
Proof.
  unfold ex_events. repeat (apply List.Forall_cons; [try exact I |]); [| apply List.Forall_nil].
  split; [done |]. exists ERR_OK, ex_offer_opts. split; [exact ex_offer_parse |]. intros v _ _. by eexists.
Qed.
Lemma dhcp_clients_alive_witness :
  exists s', dhcp_run 3 ex_events ex_dsys = Some s' /\
  forall np i, nif_dhcp (netif_of (ds_net s') np) = Some i -> exists d, ds_mem s' !! i = Some d
    /\ ((alive None d /\ armed d) \/ off d).
Proof. apply dhcp_clients_alive; [exact ex_no_clients | exact ex_benign]. Defined.

Definition ex_selecting : dhcp := d_set_request_timeout 4 (d_set_state DHCP_SELECTING dhcp_zero).
Definition ex_renewing : dhcp := d_set_pcb (Some 19%nat) (d_set_tries 255 (d_set_state DHCP_RENEWING dhcp_zero)).
Lemma dhcp_timer_lost_witness :
  fine_body (HdkNetIF 0) (mk_cl (d_set_request_timeout 0 ex_selecting) ex_dsys) = Some (tt, mk_cl (d_set_request_timeout 0 ex_selecting) ex_dsys)
  /\ exists e c, dhcp_renew (HdkNetIF 0) (mk_cl ex_renewing ex_dsys) = Some (e, c) /\ d_request_timeout (c_dhcp c) = 0.
Proof.
  split.
  - apply (dhcp_timer_lost (HdkNetIF 0) None ex_selecting ex_dsys); reflexivity.
  - destruct (dhcp_timer_lost (HdkNetIF 0) None ex_renewing ex_dsys) as [_ H].
    destruct H as (e & c & E & _ & Hr & _); [split; [by eexists | done | done | split; [discriminate | reflexivity]] | reflexivity | reflexivity |].
    exists e, c. split; [exact E | exact Hr].
Defined.
