(* ===== verification/PortInit.v ===== *)
(** * The start-up of the port (hdkif_hw_init, lwIPInit)

    The hardware initialisation as a whole: the PHY decides whether the descriptor
    rings are set up.  And [lwIPInit], the start-up for one interface that
    [lwIPCoreInit] and [lwIPNetifAdd] split, with its busy wait for a DHCP lease,
    during which the interrupts deliver the answers of the server. *)

From stdpp Require Import gmultiset.
From S2P Require Import Prelude NetTypes IpAddr Memp Heap Pbuf PbufRef PbufRope Phy EmacTx EmacRx EmacRxOk EmacRxRun Net Etharp Netif Lwiplib Udp DhcpOpt Dhcp DhcpMsg DhcpInv.

(** ** The driver's instance *)

(** [struct hdkif] with the pbufs, which both channels use: before
    [hdkif_hw_init] its channels are zero. *)
Record hdkif := mk_hdkif {
  hk_txch : txch;
  hk_rxch : rxch
}.
Definition txch_zero (ram : list txbd) (s : pstore) : txch := mk_txch ram None None None None None s.
Definition rxch_zero (ram : list txbd) (s : pstore) : rxch := mk_rxch ram None None None 0 None None s [].

(** [hdkif_hw_init] from the PHY on; both rings lie in the control RAM, and the
    receive channel takes its buffers from the pool. *)
Definition hdkif_hw_init {D} `{Bus D} (fuel : nat) (partnr_ablty : Z) (tx_ram rx_ram : list txbd) (s : pstore) (d : D)
  : option (err_t * hdkif * D) :=
  '(e, d) ← hdkif_phy_init fuel partnr_ablty d;
  if bool_decide (e = ERR_OK) then
    rx ← hdkif_hw_init_rx rx_ram s;
    Some (ERR_OK, mk_hdkif (hdkif_hw_init_tx tx_ram (rx_store rx)) rx, d)
  else Some (e, mk_hdkif (txch_zero tx_ram s) (rxch_zero rx_ram s), d).

(** ** Status and interrupts (lwiplib.c) *)

Definition lwIPNetIfStatusGet (instNum : nat) (s : net) : bool := has_flag (netif_of s (HdkNetIF instNum)) NETIF_FLAG_UP.
Definition lwIPLinkStatusGet {D} `{Bus D} (fuel : nat) : HW D bool := Dp83640LinkStatusGet fuel MDIO_0_BASE 1 (Z.to_nat 10000) 0.
Definition lwIPRxIntHandler {W} `{Upper W} (fuel : nat) (dma : list (rxch -> rxch)) (h : hdkif) (w : W) : option (hdkif * W) :=
  '(t, w) ← hdkif_rx_inthandler fuel dma (hk_rxch h) w;
  Some (mk_hdkif (put_store (rx_store t) (hk_txch h)) t, w).
Definition lwIPTxIntHandler (dma : txch -> txch) (h : hdkif) : option hdkif :=
  t ← hdkif_tx_inthandler dma (hk_txch h);
  Some (mk_hdkif t (rx_put (tx_store t) (hk_rxch h))).

(** ** lwIPInit *)

Inductive ip_mode : Set := IPADDR_USE_STATIC | IPADDR_USE_DHCP | IPADDR_USE_AUTOIP.
#[export] Instance ip_mode_eq_dec : EqDecision ip_mode.
Proof. solve_decision. Defined.

Section Init.
(** What the interrupts do during the delay loop number [k]. *)
Context (wait : nat -> dsys -> option dsys).

(** The checks for a lease after one [dhcp_start]; [k] numbers the delays. *)
Fixpoint dhcp_poll (count k : nat) (np : netif_ptr) (s : dsys) : option (option Z * nat * dsys) :=
  match count with
  | O => Some (None, k, s)
  | S count =>
      s ← wait k s;
      i ← nif_dhcp (netif_of (ds_net s) np);
      d ← ds_mem s !! i;
      if d_state d =? DHCP_BOUND then Some (Some (nif_ip_addr (netif_of (ds_net s) np)), S k, s)
      else dhcp_poll count (S k) np s
  end.
Fixpoint dhcp_tries (tries k : nat) (np : netif_ptr) (s : dsys) : option (Z * dsys) :=
  match tries with
  | O => Some (0, s)
  | S tries =>
      '(_, s) ← dhcp_start np s;
      '(ip, k, s) ← dhcp_poll 10 k np s;
      match ip with Some ip => Some (ip, s) | None => dhcp_tries tries k np s end
  end.

(** [lwIPInit]; the interfaces are those of [l].  A packet sent through a driver
    whose set-up failed follows a null pointer ([driver_took]). *)
Definition lwIPInit (instNum : nat) (macArray : list Z) (ipAddr netMask gwAddr : Z) (ipMode : ip_mode) (phy_ok : bool) (l : lwl) (s : dsys)
  : option (Z * lwl * dsys) :=
  let '(ip_addr, net_mask, gw_addr) :=
    if bool_decide (ipMode = IPADDR_USE_STATIC) then (htonl ipAddr, htonl netMask, htonl gwAddr) else (0, 0, 0) in
  let l := hdkif_macaddrset macArray l in
  let np := HdkNetIF instNum in
  let '(ok, n) := netif_add np ip_addr net_mask gw_addr (St_instNum instNum) (hdkif_init (hdkif_mac_addr l) phy_ok) Fn_ip_input (l_net l) in
  let n0 := l_net l in
  if negb ok then Some (0, set_l_net n l, ds_set_net n s)
  else
    let n := netif_set_default (Some np) n in
    if bool_decide (ipMode = IPADDR_USE_DHCP) then
      '(ip, s) ← dhcp_tries 5 0 np (ds_set_net n s);
      if driver_took phy_ok n0 (ds_net s) then Some (ip, set_l_net (ds_net s) l, s) else None
    else
      let n := netif_set_up np n in
      if negb (driver_took phy_ok n0 n) then None
      else Some (nif_ip_addr (netif_of n np), set_l_net n l, ds_set_net n s).
End Init.

(** ** The rings *)

Lemma zero_output dma q ram s : hdkif_output_bds dma q (txch_zero ram s) = None.
Proof.
  unfold hdkif_output_bds. destruct (ps_mem _ !! q) as [b |]; [| done]. cbn [mbind option_bind]. by destruct (pbuf_ref _ _) as [[? ?] |].
Qed.

(** [netif_add] takes [ERR_CONN] for success, and what [hdkif_init] writes into the
    interface does not depend on the PHY. *)
Lemma netif_add_phy inst ip mask gw def l : lwIPCoreReady l = true ->
  lwIPNetifAdd inst ip mask gw def false l = lwIPNetifAdd inst ip mask gw def true l.
Proof.
  intros Hl. unfold lwIPNetifAdd. rewrite Hl. cbn [negb]. unfold netif_add, hdkif_init. by destruct (nif_state _).
Qed.

Section Rings.
Context {D P : Type} `{HB : Bus D, HP : Phy P, HO : !BusOk D P}.
Variable fuel : nat.
Hypothesis enough : (busy_max < fuel)%nat.
Hypothesis answering : forall rn p, 0 <= rn < 32 -> exists v, fst (phy_read 1 rn p) = Some v /\ 0 <= v < 65536.

Lemma phy_init_ends stale p c d : idle d p c -> exists e d', hdkif_phy_init fuel stale d = Some (e, d') /\ (e = ERR_OK \/ e = ERR_CONN).
Proof.
  destruct (phy_init_does fuel enough answering stale p c) as (p1 & p2 & e & p' & c' & Hd & _ & Hr). intros Hi. destruct (Hd d Hi) as (d' & E & _).
  exists e, d'. split; [done |]. destruct (Z.testbit (phy_alive p1) 1); [| destruct Hr as [-> _]; by right].
  destruct Hr as [_ (m & _ & _ & _ & Hm)]. destruct (able _); destruct Hm as [-> _]; [by left | by right].
Qed.

(** C17. The hardware initialisation.  With a PHY that answers it ends.  Either it
    succeeds, and both rings are ready: all 204 transmit descriptors are free, and
    60 buffers, whose references the driver then has, are armed for the EMAC.  Or
    it fails with [ERR_CONN] and leaves the channels zero; [lwIPNetifAdd] goes on as
    with a PHY that answered, takes the interface for added and brings it up, and the
    first packet sent through it follows the null pointer [free_head]. *)
Theorem hdkif_hw_init_rings stale tx_ram rx_ram s ext d p c (Hi : idle d p c) (Htx : length tx_ram = num_bd) (Hrx : length rx_ram = num_bd)
  (Hs : store_at kind_ok ext s) (Hsp : (RX_BUFS <= spare s)%nat) :
  exists e h d', hdkif_hw_init fuel stale tx_ram rx_ram s d = Some (e, h, d')
  /\ if bool_decide (e = ERR_OK)
     then exists ps, rx_ok ext (hk_rxch h) [] (seq 0 RX_BUFS) ps /\ tx_store (hk_txch h) = rx_store (hk_rxch h)
          /\ tx_ok (heads (nexts (rx_store (hk_rxch h))) true ps ⊎ ext) (hk_txch h) [] (seq 0 num_bd)
     else e = ERR_CONN /\ (forall dma q, hdkif_output_bds dma q (hk_txch h) = None)
          /\ forall inst ip mask gw def l, lwIPCoreReady l = true -> lwIPNetifAdd inst ip mask gw def false l = lwIPNetifAdd inst ip mask gw def true l.
Proof.
  destruct (phy_init_ends stale p c d Hi) as (e & d' & E & He). unfold hdkif_hw_init. rewrite E. cbn [mbind option_bind].
  destruct He as [-> | ->].
  - rewrite bool_decide_true by done. destruct (rx_init_ok ext rx_ram s Hs Hrx Hsp) as (t & ps & Et & Hok & _). rewrite Et. cbn [mbind option_bind].
    do 3 eexists. split; [done |]. rewrite bool_decide_true by done. cbn [hk_rxch hk_txch]. exists ps. split; [done |]. split; [done |].
    apply ring_init_ok; [done |]. exact (rk_store _ _ _ _ _ Hok).
  - rewrite bool_decide_false by done. do 3 eexists. split; [done |]. rewrite bool_decide_false by done. split; [done |]. split.
    + intros dma q. apply zero_output.
    + intros inst ip mask gw def l Hl. by apply netif_add_phy.
Qed.
End Rings.

(** ** The two ways to start *)

(** The split the comment of lwiplib.c announces.  [lwIPInit] with a fixed address
    does what [lwIPCoreInit] and then [lwIPNetifAdd], as default interface, do: the
    same interface, table, frames sent and result; except that [lwIPCoreReady]
    stays 0, so every alias is refused afterwards.  The PHY must answer: otherwise
    both send a gratuitous ARP through a driver without descriptors. *)
Theorem lwIPInit_splits wait instNum mac ip mask gw l s (Hl : lwIPCoreReady l = false) :
  let '(v, l') := lwIPNetifAdd instNum ip mask gw true true (snd (lwIPCoreInit instNum mac l)) in
  exists l1, lwIPInit wait instNum mac ip mask gw IPADDR_USE_STATIC true l s = Some (v, l1, ds_set_net (l_net l') s)
  /\ l_net l1 = l_net l' /\ alias_used l1 = alias_used l' /\ aliasSourceNetif l1 = aliasSourceNetif l' /\ hdkif_mac_addr l1 = hdkif_mac_addr l'
  /\ lwIPCoreReady l' = true /\ lwIPCoreReady l1 = false
  /\ forall inst a m g, lwIPAliasAdd inst a m g l1 = (0, l1).
Proof.
  unfold lwIPInit, lwIPNetifAdd, lwIPCoreInit. rewrite Hl. rewrite !bool_decide_true by done. cbn [snd lwIPCoreReady hdkif_macaddrset negb l_net hdkif_mac_addr].
  destruct (netif_add _ _ _ _ _ _ _ _) as [[] n]; cbn [negb]; (eexists; split; [reflexivity |]); cbn [set_l_net l_net alias_used aliasSourceNetif hdkif_mac_addr lwIPCoreReady hdkif_macaddrset];
    repeat (split; [done |]); intros; unfold lwIPAliasAdd; cbn [set_l_net lwIPCoreReady hdkif_macaddrset]; by rewrite Hl.
Qed.

(** ** Waiting for a lease *)

(** What arrives at the client while the program waits. *)
Definition arrival : Type := netif_ptr * Z * Z * list (list Z).
Definition arrive (a : arrival) : dhcp_event := let '(inp, ip, port, p) := a in Ev_recv inp ip port p.
Definition arrivals (fuel : nat) (w : nat -> list arrival) (k : nat) : dsys -> option dsys := dhcp_run fuel (map arrive (w k)).
Definition calm (fuel : nat) (w : nat -> list arrival) : Prop := forall k, Forall (fun a => benign fuel (snd a)) (w k).

Definition has_client (np : netif_ptr) (s : dsys) : Prop := is_Some (nif_dhcp (netif_of (ds_net s) np)).
(** The client of [np] has a lease for [ip]. *)
Definition leased (np : netif_ptr) (ip : Z) (s : dsys) : Prop :=
  exists i d, nif_dhcp (netif_of (ds_net s) np) = Some i /\ ds_mem s !! i = Some d /\ d_state d = DHCP_BOUND /\ ip = nif_ip_addr (netif_of (ds_net s) np).

Section Waiting.
Context (fuel : nat) (w : nat -> list arrival) (Hw : calm fuel w).

Lemma arrivals_ok l s : Forall (fun a : arrival => benign fuel (snd a)) l -> dhcp_inv s ->
  exists s', dhcp_run fuel (map arrive l) s = Some s' /\ dhcp_inv s' /\ same_clients (ds_net s) (ds_net s').
Proof.
  intros Hl. revert s. induction Hl as [| [[[inp ip] port] p] l Hp _ IH]; intros s Hs; [by exists s |]. cbn [map dhcp_run dhcp_do arrive].
  destruct (udp_input_inv fuel inp ip port p s Hp Hs) as (s1 & E & H1 & C1). rewrite E. cbn [mbind option_bind].
  destruct (IH s1 H1) as (s2 & E2 & H2 & C2). exists s2. split; [done |]. split; [done | by eapply clients_trans].
Qed.
Lemma poll_ok np n : forall k s, dhcp_inv s -> has_client np s -> exists ip k' s', dhcp_poll (arrivals fuel w) n k np s = Some (ip, k', s')
  /\ dhcp_inv s' /\ has_client np s' /\ forall a, ip = Some a -> leased np a s'.
Proof.
  induction n as [| n IH]; intros k s Hs Hc; cbn [dhcp_poll]; [by exists None, k, s |].
  destruct (arrivals_ok (w k) s (Hw k) Hs) as (s1 & E & H1 & C1). change (arrivals fuel w k s) with (dhcp_run fuel (map arrive (w k)) s). rewrite E. cbn [mbind option_bind].
  assert (Hc1 : has_client np s1) by (unfold has_client; by rewrite C1). destruct Hc1 as [i Hi]. rewrite Hi. cbn [mbind option_bind].
  destruct (di_client s1 H1 np i Hi) as (d & Hd & _). rewrite Hd. cbn [mbind option_bind]. destruct (Z.eqb_spec (d_state d) DHCP_BOUND) as [Eb | _].
  - eexists (Some _), _, s1. split; [done |]. split; [done |]. split; [by exists i |]. intros a [= <-]. by exists i, d.
  - apply IH; [done | by exists i].
Qed.
Lemma tries_ok np n : forall k s, dhcp_inv s -> has_client np s \/ startable np s -> exists ip s', dhcp_tries (arrivals fuel w) n k np s = Some (ip, s')
  /\ dhcp_inv s' /\ (ip = 0 \/ leased np ip s').
Proof.
  induction n as [| n IH]; intros k s Hs Hc; cbn [dhcp_tries]; [exists 0, s; auto |].
  destruct (start_inv np s Hs) as (e & s1 & E & H1 & Hst & Hk). rewrite E. cbn [mbind option_bind].
  assert (Hc1 : has_client np s1) by (by destruct Hc; [apply Hk | apply Hst]).
  destruct (poll_ok np 10 k s1 H1 Hc1) as (ip & k2 & s2 & E2 & H2 & Hc2 & Hl). rewrite E2. cbn [mbind option_bind].
  destruct ip as [ip |]; [exists ip, s2; split; [done |]; split; [done |]; right; by apply Hl |]. apply IH; [done | by left].
Qed.
(** Without a client the first look at its state follows the null pointer. *)
Lemma tries_none np n s : dhcp_inv s -> nif_dhcp (netif_of (ds_net s) np) = None -> fst (mem_malloc SIZEOF_STRUCT_DHCP (n_heap (ds_net s))) = false ->
  dhcp_tries (arrivals fuel w) (S n) 0 np s = None.
Proof.
  intros Hs Hn Hm. cbn [dhcp_tries]. destruct (start_inv np s Hs) as (e & s1 & E & H1 & _ & _). rewrite E. cbn [mbind option_bind].
  pose proof (start_fails np s e s1 Hn Hm E) as Hn1. cbn [dhcp_poll]. destruct (arrivals_ok (w 0%nat) s1 (Hw 0%nat) H1) as (s2 & E2 & _ & C2).
  change (arrivals fuel w 0 s1) with (dhcp_run fuel (map arrive (w 0%nat)) s1). rewrite E2. cbn [mbind option_bind]. by rewrite C2, Hn1.
Qed.
End Waiting.

(** [netif_add] with [hdkif_init]. *)
Lemma physical_added np inst a m g mac phy s :
  let r := netif_add np a m g (St_instNum inst) (hdkif_init mac phy) Fn_ip_input s in
  fst r = true /\ n_heap (snd r) = n_heap s
  /\ (forall q, nif_dhcp (netif_of (snd r) q) = if decide (np = q) then None else nif_dhcp (netif_of s q))
  /\ nif_mtu (netif_of (snd r) np) = MAX_TRANSFER_UNIT /\ has_flag (netif_of (snd r) np) NETIF_FLAG_ETHARP = true.
Proof.
  cbv zeta. unfold netif_add. set (s1 := netif_set_addr _ _ _ _ _). set (s0 := set_netif_num _ _) in *.
  assert (E0 : netif_of s0 np = netif_reset (St_instNum inst) (netif_num s) Fn_ip_input (netif_of s np)) by (unfold s0; exact (netif_of_upd_eq _ _ _)).
  assert (E1 : nif_state (netif_of s1 np) = St_instNum inst).
  { unfold s1, netif_set_addr, netif_set_gw, netif_set_netmask, netif_set_ipaddr. rewrite !netif_of_upd_eq, E0. done. }
  assert (Ed : forall q, nif_dhcp (netif_of s1 q) = if decide (np = q) then None else nif_dhcp (netif_of s q)).
  { intros q. unfold s1, netif_set_addr, netif_set_gw, netif_set_netmask, netif_set_ipaddr. destruct (decide (np = q)) as [<- | Hne].
    - rewrite !netif_of_upd_eq, E0. done.
    - rewrite !netif_of_upd_ne by done. exact (f_equal nif_dhcp (netif_of_upd_ne np q _ s Hne)). }
  set (f := hdkif_init_netif inst mac).
  assert (Ei : hdkif_init mac phy np s1 = (if phy then ERR_OK else ERR_CONN, upd_netif np f s1)) by (unfold hdkif_init; by rewrite E1). rewrite Ei.
  assert (Ep : negb (bool_decide ((if phy then ERR_OK else ERR_CONN) = ERR_OK)) && negb (bool_decide ((if phy then ERR_OK else ERR_CONN) = ERR_CONN)) = false) by (by destruct phy).
  rewrite Ep. cbn [fst snd]. set (n := set_netif_list (Some np) _).
  assert (En : forall q, netif_of n q = if decide (np = q) then nif_set_next (netif_list (upd_netif np f s1)) (f (netif_of s1 np)) else netif_of s1 q).
  { intros q. change (netif_of n q) with (netif_of (upd_netif np (nif_set_next (netif_list (upd_netif np f s1))) (upd_netif np f s1)) q).
    rewrite netif_of_upd. destruct (decide (np = q)) as [<- | Hne]; [by rewrite netif_of_upd_eq | by rewrite netif_of_upd_ne]. }
  split; [done |]. split; [done |]. split; [| rewrite En, decide_True by done; by split].
  intros q. rewrite En. pose proof (Ed q) as E. destruct (decide (np = q)) as [<- |]; exact E.
Qed.


(** ** Witnesses *)

Lemma hdkif_hw_init_rings_witness : exists e h d', hdkif_hw_init 3 0 ex_ram_words ex_rx_ram ex_rx_store (ex_slow 9) = Some (e, h, d')
  /\ if bool_decide (e = ERR_OK) then exists ps, rx_ok ∅ (hk_rxch h) [] (seq 0 RX_BUFS) ps else e = ERR_CONN.
Proof.
  destruct (hdkif_hw_init_rings (D := ex_chip) (P := ex_phy) 3 ex_enough ex_answering 0 ex_ram_words ex_rx_ram ex_rx_store ∅ (ex_slow 9)
    (ec_phy (ex_slow 9)) 0) as (e & h & d' & E & Hr); [by exists 0 | done | done | exact ex_rx_store_ok | vm_compute; lia |].
  exists e, h, d'. split; [exact E |]. destruct (bool_decide _); [destruct Hr as (ps & Hr & _); by exists ps | exact (proj1 Hr)].
Defined.

Lemma lwIPInit_splits_witness : exists l1 s1, lwIPInit (fun _ => Some) 0 [2; 0; 0; 0; 0; 1] 0x0a00000a 0xffffff00 0x0a000001 IPADDR_USE_STATIC true lwl_init ex_dsys
    = Some (0x0a00000a, l1, s1) /\ fst (lwIPAliasAdd 0 0x0a00000b 0xffffff00 0x0a000001 l1) = 0.
Proof.
  pose proof (lwIPInit_splits (fun _ => Some) 0 [2; 0; 0; 0; 0; 1] 0x0a00000a 0xffffff00 0x0a000001 lwl_init ex_dsys eq_refl) as H.
  assert (Ev : fst (lwIPNetifAdd 0 0x0a00000a 0xffffff00 0x0a000001 true true (snd (lwIPCoreInit 0 [2; 0; 0; 0; 0; 1] lwl_init))) = 0x0a00000a) by (vm_compute; reflexivity).
  destruct (lwIPNetifAdd _ _ _ _ _ _ _) as [v l']. cbn [fst] in Ev. subst v. destruct H as (l1 & E & _ & _ & _ & _ & _ & _ & Ha).
  exists l1, (ds_set_net (l_net l') ex_dsys). split; [exact E | by rewrite Ha].
Defined.

(** A server's offer comes in during the second delay. *)
Definition ex_arrivals (k : nat) : list arrival := if decide (k = 1%nat) then [(HdkNetIF 0, 0x0a000001, DHCP_SERVER_PORT, [ex_offer])] else [].
Lemma ex_calm : calm 3 ex_arrivals.
Proof.
  intros k. unfold ex_arrivals. case_decide; [| constructor]. constructor; [| constructor].
  split; [done |]. exists ERR_OK, ex_offer_opts. split; [exact ex_offer_parse |]. intros v _ _. by eexists.
Qed.

(** The same without the PHY: the DISCOVER has nowhere to go. *)
Example lwIPInit_dead : lwIPInit (arrivals 3 ex_arrivals) 0 [2; 0; 0; 0; 0; 1] 0 0 0 IPADDR_USE_DHCP false (set_l_net (ds_net ex_dsys) lwl_init) ex_dsys = None
  /\ lwIPInit (fun _ => Some) 0 [2; 0; 0; 0; 0; 1] 0x0a00000a 0xffffff00 0x0a000001 IPADDR_USE_STATIC false lwl_init ex_dsys = None.
Proof. vm_compute. done. Qed.
