(* ===== verification/DhcpLease.v ===== *)
(** * Getting a lease

    The frames of the requests a client broadcasts, and the exchange of four
    messages that ends with the interface configured. *)

From S2P Require Import Prelude NetTypes IpAddr Pbuf Chksum Net Etharp Netif Udp Ip UdpSend DhcpOpt Dhcp DhcpMsg.

(** ** A broadcast datagram on the wire *)

(** The control block of a client: bound to port 68 on any address. *)
Definition client_pcb (p : udp_pcb) : Prop :=
  up_local_port p = DHCP_CLIENT_PORT /\ up_local_ip p = 0 /\ Z.land (up_flags p) UDP_FLAGS_NOCHKSUM = 0
  /\ up_tos p = 0 /\ up_ttl p = UDP_TTL.
(** Only the identification of the next packet and the wire differ. *)
Definition sent_net (s : net) (w : list frame) (s' : net) : Prop :=
  s' = set_wire (n_wire s ++ w) (set_ip_id (ip_id s') s) /\ is_u16 (ip_id s').
(** The frame that carries [msg] to every server, with the UDP checksum [uc]. *)
Definition dhcp_frame (n : netif) (id uc : Z) (msg : list Z) : frame :=
  data_frame n ethbroadcast (udp_packet 0 UDP_TTL id (nif_ip_addr n) IPADDR_BROADCAST DHCP_CLIENT_PORT DHCP_SERVER_PORT uc msg).

Lemma ip_output_broadcast q src ttl tos proto np s
  (Hconf : netif_conf (netif_of s np)) (Hroom : 34 <= Zlen (ps_pre (pb_first q))) (Hty : ps_type (pb_first q) = PBUF_RAM)
  (Hlen : 20 + p_tot_len q <= 65535) (Hsrc : src = nif_ip_addr (netif_of s np)) :
  let len := 20 + p_tot_len q in
  exists s', ip_output_if q src (Some IPADDR_BROADCAST) ttl tos proto np s = (ERR_OK, s')
    /\ sent_net s [data_frame (netif_of s np) ethbroadcast
              (ip_header tos len (ip_id s) ttl proto
                 (ip_chksum_inline tos len (ip_id s) ttl proto src IPADDR_BROADCAST) src IPADDR_BROADCAST ++ p_bytes q)] s'.
Proof.
  cbn zeta. unfold ip_output_if.
  destruct (pbuf_header_room q IP_HLEN) as [q1 Eq1]; [unfold IP_HLEN; lia | by left |].
  assert (Esrc : (if ip_addr_isany src then nif_ip_addr (netif_of (set_ip_id (u16 (ip_id s + 1)) s) np) else src) = src)
    by (destruct (ip_addr_isany src); [by rewrite Hsrc | done]).
  rewrite Eq1, Esrc.
  destruct (header_bytes _ _ _ (eq_refl : 0 < IP_HLEN) Eq1) as (_ & _ & Hl1).
  destruct (header_room _ _ _ (eq_refl : 0 < IP_HLEN) Eq1) as (Hr1 & Ht1 & _).
  change IP_HLEN with 20 in *. change (Zlen (p_bytes q1) = 20 + p_tot_len q) in Hl1.
  assert (E16 : htons (u16 (p_tot_len q1)) = 20 + p_tot_len q).
  { unfold htons, p_tot_len at 1. rewrite Hl1. apply u16_small.
    pose proof (Zlen_nonneg (p_bytes q)). unfold is_u16, p_tot_len in *. lia. }
  rewrite E16. change (htons (ip_id s)) with (ip_id s).
  set (hdr := ip_header _ _ _ _ _ _ _ _).
  pose proof (put_header_bytes _ _ hdr 20 ltac:(lia) Eq1 eq_refl) as Hb.
  set (q2 := set_payload _ q1) in *.
  destruct (pbuf_header_room q2 SIZEOF_ETH_HDR) as [q3 Eq3].
  { change (pb_first q2) with (mk_pseg (ps_type (pb_first q1)) (ps_pre (pb_first q1)) (put 0 hdr (p_payload q1))).
    cbn [ps_pre]. change SIZEOF_ETH_HDR with 14. lia. }
  { left. change (ps_type (pb_first q2)) with (ps_type (pb_first q1)). congruence. }
  set (s1 := set_ip_id _ s). destruct Hconf as (Hlo & Ho & Hh).
  unfold netif_output. change (netif_of s1 np) with (netif_of s np). rewrite Ho.
  unfold etharp_output. rewrite Eq3. change (netif_of s1 np) with (netif_of s np).
  change (ip4_addr_isbroadcast IPADDR_BROADCAST (netif_of s np)) with true. cbv iota.
  pose proof (header_bytes _ _ _ (eq_refl : 0 < SIZEOF_ETH_HDR) Eq3) as (Hp3 & _ & _).
  change (nif_hwaddr (netif_of s np)) with (nif_hwaddr (netif_of s1 np)).
  rewrite (send_ip_sent np q3 ethbroadcast s1); [| done | done | done | exact Hp3].
  eexists. split; [reflexivity |]. change (netif_of s1 np) with (netif_of s np).
  rewrite (ip_frame_header _ _ _ _ Eq3), Hb. split; [done | apply u16_range].
Qed.

Lemma broadcast_sent pcb p data np u s (Hc : client_pcb (pcb_of u pcb)) (Hp : send_pbuf p data) (Hd : Forall is_u8 data)
  (Hlen : Zlen data <= 65507) (Hsrc : is_u32 (nif_ip_addr (netif_of s np))) (Hconf : netif_conf (netif_of s np)) :
  exists s' uc, udp_sendto_if pcb p IPADDR_BROADCAST DHCP_SERVER_PORT np u s = (ERR_OK, u, s')
    /\ sent_net s [dhcp_frame (netif_of s np) (ip_id s) uc data] s'
    /\ forall r, p_bytes r = udp_header DHCP_CLIENT_PORT DHCP_SERVER_PORT (8 + Zlen data) uc ++ data ->
       inet_chksum_pseudo r (nif_ip_addr (netif_of s np)) IPADDR_BROADCAST IP_PROTO_UDP (8 + Zlen data) = 0.
Proof.
  destruct Hc as (Hport & Hloc & Hfl & Htos & Httl). unfold udp_sendto_if. rewrite Hport.
  change (DHCP_CLIENT_PORT =? 0) with false. cbv iota. rewrite bool_decide_true by done. cbn [negb].
  destruct (sp_header p data Hp) as (q & Eq & Hroom & Hty & Hnx & hd & Hhd & Hpq).
  unfold udp_header_pbuf. rewrite Eq, Hloc, Hfl, Htos, Httl, Hport.
  change (ip_addr_isany 0) with true. change (0 =? 0) with true. cbn [negb andb]. cbv iota.
  set (src := nif_ip_addr (netif_of s np)) in *.
  destruct (udp_fill_spec q hd data DHCP_CLIENT_PORT DHCP_SERVER_PORT src IPADDR_BROADCAST) as (Hl & Hb & Huc & Hv); [done.. |].
  rewrite Hl in *. set (uc := chksum_field _) in *. set (q2 := set_payload (put 6 _ _) _) in *.
  assert (Ht2 : p_tot_len q2 = 8 + Zlen data) by (unfold p_tot_len; rewrite Hb, Zlen_app; reflexivity).
  destruct (ip_output_broadcast q2 src UDP_TTL 0 IP_PROTO_UDP np s) as (s' & E & Hs); try done.
  { change (ps_pre (pb_first q2)) with (ps_pre (pb_first q)). lia. }
  { rewrite Ht2. lia. }
  rewrite E. exists s', uc. split; [done |]. rewrite Hb, Ht2 in Hs. split; [exact Hs | exact Hv].
Qed.

(** ** A request on the wire *)

(** An interface a client can work on. *)
Record nif_ok (n : netif) : Prop := {
  nk_conf : netif_conf n;
  nk_hwlen : is_u8 (nif_hwaddr_len n);
  nk_hw : Forall is_u8 (nif_hwaddr n);
  nk_ip : is_u32 (nif_ip_addr n)
}.

Lemma nth_u8 l i : Forall is_u8 l -> is_u8 (byte_at l i).
Proof.
  intros H. unfold byte_at. destruct (nth_in_or_default i l 0) as [Hi | ->]; [| done].
  rewrite Forall_forall in H. by apply H, list_elem_of_In.
Qed.
Lemma zeros_u8 n : Forall is_u8 (replicate n 0).
Proof. by apply Forall_replicate. Qed.
Lemma request_msg_u8 n t x st opts : nif_ok n -> is_u8 t -> Forall is_u8 opts -> Forall is_u8 (request_msg n t x st opts).
Proof.
  intros Hn Ht Ho. unfold request_msg, dhcp_msg_header, opts_field, type_option. repeat (apply Forall_app; split);
    try apply be16_u8; try apply be32_u8; try apply zeros_u8; try done.
  - repeat (apply List.Forall_cons; [done || apply Hn |]). apply List.Forall_nil.
  - apply Forall_forall. intros b (i & -> & _)%list_elem_of_fmap. destruct (_ <? _); [apply nth_u8, Hn | done].
  - repeat (apply List.Forall_cons; [done |]). apply List.Forall_nil.
  - apply List.Forall_cons; [done | apply zeros_u8].
Qed.
Lemma request_msg_len n t x st opts : Zlen opts < DHCP_OPTIONS_LEN - 3 -> Zlen (request_msg n t x st opts) = SIZEOF_DHCP_MSG.
Proof.
  intros H. pose proof (Zlen_nonneg opts). unfold request_msg, opts_field. rewrite Zlen_app, header_size, !Zlen_app, Zlen_cons.
  change (Zlen (type_option t)) with 3. rewrite Zlen_replicate by lia. unfold SIZEOF_DHCP_MSG. lia.
Qed.

Lemma heap_free s : n_heap s = [] -> exists p, net_pbuf_alloc PBUF_TRANSPORT SIZEOF_DHCP_MSG s = (Some p, s).
Proof. destruct s as [m l d k a c i h w]. cbn. intros ->. by eexists. Qed.

(** A broadcast request with memory at hand. *)
Lemma dhcp_request_sent np t opts pcb b d s r : outcome np t opts pcb IPADDR_BROADCAST b d s r ->
  n_heap (ds_net s) = [] -> client_pcb (pcb_of (ds_udp s) pcb) -> nif_ok (netif_of (ds_net s) np) ->
  is_u8 t -> Forall is_u8 opts -> Zlen opts < DHCP_OPTIONS_LEN - 3 ->
  let n := netif_of (ds_net s) np in
  exists net uc, r = Some (ERR_OK, mk_cl (dhcp_retry b (sent_dhcp (d_set_xid (next_xid d s) d)))
                                  (ds_set_net net (ds_set_xid (next_xid d s) s)))
    /\ sent_net (ds_net s) [dhcp_frame n (ip_id (ds_net s)) uc (request_msg n t (next_xid d s) (d_state d) opts)] net.
Proof.
  cbn zeta. intros Ho Hh Hc Hn Ht Hu Hl. destruct (heap_free _ Hh) as (q & Eq).
  destruct Ho as [net Ea | p0 net0 p e u net Ea Hp Eu]; rewrite Eq in Ea; [done |]. injection Ea as <- <-.
  destruct (broadcast_sent pcb p _ np (ds_udp s) (ds_net s) Hc Hp) as (net' & uc & E & Hs & _).
  - by apply request_msg_u8.
  - rewrite request_msg_len by done. done.
  - apply Hn.
  - apply Hn.
  - rewrite Eu in E. injection E as -> -> ->. exists net', uc. split; [by destruct s | exact Hs].
Qed.

Lemma discover_opts_ok n : Forall is_u8 (discover_opts n) /\ Zlen (discover_opts n) < DHCP_OPTIONS_LEN - 3.
Proof.
  split; [| done]. unfold discover_opts, max_msg_option. repeat (apply Forall_app; split); try apply be16_u8;
    repeat (apply List.Forall_cons; [done |]); apply List.Forall_nil.
Qed.
Lemma select_opts_ok n d : Forall is_u8 (select_opts n d) /\ Zlen (select_opts n d) < DHCP_OPTIONS_LEN - 3.
Proof.
  split; [| done]. unfold select_opts, max_msg_option, addr_option. repeat (apply Forall_app; split); try apply be16_u8; try apply be32_u8;
    repeat (apply List.Forall_cons; [done |]); apply List.Forall_nil.
Qed.

Lemma sent_net_frame s w s' : sent_net s w s' ->
  n_wire s' = n_wire s ++ w /\ n_heap s' = n_heap s /\ netif_of s' = netif_of s.
Proof. intros [-> _]. done. Qed.

(** ** The steps of the exchange *)

(** The client [d] of interface [np] at address [i], with its control block. *)
Record lease_at (np : netif_ptr) (pcb i : nat) (d : dhcp) (s : dsys) : Prop := {
  la_nif : nif_dhcp (netif_of (ds_net s) np) = Some i;
  la_mem : ds_mem s !! i = Some d;
  la_pcb : d_pcb d = Some pcb;
  la_ok : nif_ok (netif_of (ds_net s) np);
  la_udp : client_pcb (pcb_of (ds_udp s) pcb);
  la_remote : up_remote_ip (pcb_of (ds_udp s) pcb) = 0;
  la_recv : ds_recv s !! pcb = Some np;
  la_heap : n_heap (ds_net s) = []
}.
(** A packet that answers the request [xid]: its first pbuf [msg] and its options. *)
Record answers (fuel : nat) (n : netif) (xid : Z) (p : list (list Z)) (msg : list Z) (o : rx_options) : Prop := {
  an_first : head p = Some msg;
  an_len : DHCP_MIN_REPLY_LEN <= Zlen msg;
  an_match : reply_matches n xid msg = true;
  an_parse : dhcp_parse_reply fuel p = Some (ERR_OK, o)
}.

Lemma input_run fuel np pcb i d s ip p msg o v : lease_at np pcb i d s ->
  answers fuel (netif_of (ds_net s) np) (d_xid d) p msg o -> dhcp_get_option DHCP_OPTION_IDX_MSG_TYPE o = Some v ->
  dhcp_udp_input fuel np ip DHCP_SERVER_PORT p s =
    '(_, c) ← dhcp_message np (u8 v) o (mk_cl (d_set_msg_in (Some msg) d) (ds_set_options o s));
    Some (ds_set_mem (<[i := d_set_msg_in None (c_dhcp c)]> (ds_mem (c_sys c))) (c_sys c)).
Proof.
  intros [Hn Hm Hp _ _ Hr Hv _] [Af Al Am Ap] Ht. unfold dhcp_udp_input. rewrite Z.eqb_refl, Hn, Hm. cbn [mbind option_bind].
  rewrite Hp, Hr. change (ip_addr_isany 0 || ip_addr_cmp 0 ip) with true. cbv iota. rewrite Hv.
  unfold on_client. rewrite Hn. cbn [mbind option_bind]. rewrite Hm. cbn [mbind option_bind].
  assert (E : dhcp_recv_body fuel np p (mk_cl d s) = dhcp_message np (u8 v) o (mk_cl (d_set_msg_in (Some msg) d) (ds_set_options o s))).
  { unfold dhcp_recv_body. erewrite bind_run; [| unfold deref; by rewrite Af]. do 2 (erewrite bind_run; [| reflexivity]). cbn [c_dhcp c_sys].
    destruct (Z.ltb_spec (Zlen msg) DHCP_MIN_REPLY_LEN); [lia |]. rewrite Am. cbn [negb].
    erewrite bind_run; [| unfold deref; by rewrite Ap]. cbv beta iota. do 2 (erewrite bind_run; [| reflexivity]).
    unfold when_ok. rewrite bool_decide_true by done. by rewrite Ht. }
  unfold dhcp_recv. unfold mbind at 3, DM_bind. rewrite E.
  by destruct (dhcp_message _ _ _ _) as [[[] c] |].
Qed.

Lemma offer_step fuel np pcb i d s ip p msg o sv : lease_at np pcb i d s -> d_state d = DHCP_SELECTING ->
  answers fuel (netif_of (ds_net s) np) (d_xid d) p msg o ->
  dhcp_get_option DHCP_OPTION_IDX_MSG_TYPE o = Some DHCP_OFFER -> dhcp_get_option DHCP_OPTION_IDX_SERVER_ID o = Some sv ->
  let n := netif_of (ds_net s) np in
  let x := u32 (ds_xid s + 1) in
  let d0 := d_set_offered_ip_addr (yiaddr msg) (d_set_server_ip_addr sv d) in
  exists s' d' uc, dhcp_udp_input fuel np ip DHCP_SERVER_PORT p s = Some s' /\ lease_at np pcb i d' s'
    /\ d_state d' = DHCP_REQUESTING /\ d_xid d' = x /\ d_tries d' = 1 /\ d_request_timeout d' = 4
    /\ d_offered_t0_lease d' = d_offered_t0_lease d /\ d_t1_timeout d' = d_t1_timeout d /\ d_t2_timeout d' = d_t2_timeout d
    /\ sent_net (ds_net s) [dhcp_frame n (ip_id (ds_net s)) uc (request_msg n DHCP_REQUEST x DHCP_REQUESTING (select_opts n d0))] (ds_net s').
Proof.
  cbn zeta. intros Hl Hs Ha Ht Hsv. rewrite (input_run fuel np pcb i d s ip p msg o DHCP_OFFER Hl Ha Ht).
  set (n := netif_of (ds_net s) np). set (s1 := ds_set_options o s). set (d1 := d_set_msg_in (Some msg) d).
  set (d2 := d_set_offered_ip_addr (yiaddr msg) (d_set_server_ip_addr sv (d_set_request_timeout 0 d1))).
  assert (E : dhcp_message np (u8 DHCP_OFFER) o (mk_cl d1 s1) = (dhcp_select np ;; mret tt) (mk_cl d2 s1)).
  { unfold dhcp_message. erewrite bind_run; [| reflexivity]. cbn [c_dhcp]. change (d_state d1) with (d_state d). rewrite Hs.
    change (u8 DHCP_OFFER =? DHCP_ACK) with false. change (u8 DHCP_OFFER =? DHCP_NAK) with false. cbn [andb].
    change ((u8 DHCP_OFFER =? DHCP_OFFER) && (DHCP_SELECTING =? DHCP_SELECTING)) with true. cbv iota.
    erewrite bind_run; [| reflexivity]. unfold dhcp_handle_offer. erewrite bind_run; [| reflexivity]. cbn [c_sys c_dhcp].
    change (ds_options s1) with o. rewrite Hsv. unfold htonl. do 2 (erewrite bind_run; [| reflexivity]). cbn [c_sys c_dhcp].
    erewrite bind_run; [| reflexivity]. by erewrite bind_run; [| reflexivity]. }
  rewrite E. destruct Hl as [Hn Hm Hp Hok Hu Hr Hv Hh].
  destruct (dhcp_request_sent np _ _ pcb _ _ s1 _ (select_outcome np pcb d2 s1 Hp)) as (net & uc & Er & Hsent); try done; try apply select_opts_ok.
  rewrite (bind_run _ _ _ _ _ Er).
  set (d3 := dhcp_set_state DHCP_REQUESTING d2) in *. assert (Ed : d3 = d_set_request_timeout 0 (d_set_tries 0 (d_set_state DHCP_REQUESTING d2))).
  { unfold d3, dhcp_set_state. change (d_state d2) with (d_state d). by rewrite Hs. }
  assert (Ex : next_xid d3 s1 = u32 (ds_xid s + 1)) by (by rewrite Ed). rewrite Ex in *. clearbody d3. subst d3.
  set (d4 := d_set_request_timeout 0 (d_set_tries 0 (d_set_state DHCP_REQUESTING d2))) in *.
  exists (ds_set_mem (<[i := d_set_msg_in None (dhcp_retry backoff_exp (sent_dhcp (d_set_xid (u32 (ds_xid s + 1)) d4)))]> (ds_mem s))
           (ds_set_net net (ds_set_xid (u32 (ds_xid s + 1)) s1))),
    (d_set_msg_in None (dhcp_retry backoff_exp (sent_dhcp (d_set_xid (u32 (ds_xid s + 1)) d4)))), uc.
  split; [done |]. destruct (sent_net_frame _ _ _ Hsent) as (Hw & Hhp & Hnet).
  split; [| do 7 (split; [done |]); exact Hsent].
  split; cbn; try done; rewrite ?Hnet, ?Hhp; try done. by rewrite lookup_insert_eq.
Qed.

(** *** The acknowledgement *)

(** What an acknowledgement configures for the address [a]: mask and gateway, and
    the two timers in minutes. *)
Definition lease_mask (o : rx_options) (a : Z) : Z := default (class_mask a) (dhcp_get_option DHCP_OPTION_IDX_SUBNET_MASK o).
Definition lease_gateway (o : rx_options) (a : Z) : Z :=
  let router := default 0 (dhcp_get_option DHCP_OPTION_IDX_ROUTER o) in
  if router =? 0 then Z.lor (Z.land a (lease_mask o a)) 1 else router.
Definition lease_times (o : rx_options) : Z * Z :=
  let lease := default 0 (dhcp_get_option DHCP_OPTION_IDX_LEASE_TIME o) in
  let renew := default (lease / 2) (dhcp_get_option DHCP_OPTION_IDX_T1 o) in
  let rebind := default lease (dhcp_get_option DHCP_OPTION_IDX_T2 o) in
  let t1 := if renew =? 0xffffffff then 0 else lease_timer renew in
  let t2 := if rebind =? 0xffffffff then 0 else lease_timer rebind in
  (if (t2 <=? t1) && (0 <? t2) then 0 else t1, t2).

(** Fresh timers, as [dhcp_start] leaves them. *)
Definition no_lease (d : dhcp) : Prop := d_offered_t0_lease d = 0 /\ d_t1_timeout d = 0 /\ d_t2_timeout d = 0.
Lemma timers_spec d : d_t1_timeout d = 0 -> d_t2_timeout d = 0 ->
  let t1 := if d_offered_t1_renew d =? 0xffffffff then 0 else lease_timer (d_offered_t1_renew d) in
  let t2 := if d_offered_t2_rebind d =? 0xffffffff then 0 else lease_timer (d_offered_t2_rebind d) in
  d_t1_timeout (dhcp_timers d) = (if (t2 <=? t1) && (0 <? t2) then 0 else t1) /\ d_t2_timeout (dhcp_timers d) = t2.
Proof.
  intros H1 H2. cbn zeta. unfold dhcp_timers.
  destruct (d_offered_t1_renew d =? 0xffffffff); cbn -[lease_timer];
    destruct (d_offered_t2_rebind d =? 0xffffffff); cbn -[lease_timer]; rewrite ?H1, ?H2; cbn -[lease_timer];
    try destruct (_ && _); done.
Qed.
Lemma handle_ack_fields o msg d : d_msg_in d = Some msg -> no_lease d -> exists d',
  dhcp_handle_ack o d = Some d' /\ d_offered_ip_addr d' = yiaddr msg /\ d_pcb d' = d_pcb d
  /\ (if d_subnet_mask_given d' =? 0 then class_mask (yiaddr msg) else d_offered_sn_mask d') = lease_mask o (yiaddr msg)
  /\ d_offered_gw_addr d' = default 0 (dhcp_get_option DHCP_OPTION_IDX_ROUTER o)
  /\ (d_t1_timeout (dhcp_timers d'), d_t2_timeout (dhcp_timers d')) = lease_times o.
Proof.
  intros Hm (H0 & H1 & H2). unfold dhcp_handle_ack, lease_mask, lease_times.
  destruct (dhcp_get_option DHCP_OPTION_IDX_SUBNET_MASK o), (dhcp_get_option DHCP_OPTION_IDX_ROUTER o),
    (dhcp_get_option DHCP_OPTION_IDX_LEASE_TIME o), (dhcp_get_option DHCP_OPTION_IDX_T1 o), (dhcp_get_option DHCP_OPTION_IDX_T2 o);
    cbn -[lease_timer Z.div]; rewrite Hm; cbn -[lease_timer Z.div dhcp_timers]; rewrite ?H0;
    (eexists; split; [reflexivity |]; do 4 (split; [done |]));
    match goal with |- (d_t1_timeout (dhcp_timers ?d'), _) = _ => by destruct (timers_spec d' H1 H2) as [-> ->] end.
Qed.

Lemma set_up_fields p s : let n := netif_of s p in let n' := netif_of (netif_set_up p s) p in
  nif_ip_addr n' = nif_ip_addr n /\ nif_netmask n' = nif_netmask n /\ nif_gw n' = nif_gw n /\ netif_is_up n' = true.
Proof.
  cbn zeta. unfold netif_set_up, netif_is_up. destruct (has_flag (netif_of s p) NETIF_FLAG_UP) eqn:E; [done |].
  set (s1 := upd_netif p _ s).
  assert (H : netif_of (if has_flag (netif_of s1 p) NETIF_FLAG_LINK_UP && has_flag (netif_of s1 p) NETIF_FLAG_ETHARP
    then snd (etharp_gratuitous p s1) else s1) p = netif_of s1 p)
    by (destruct (_ && _); [by rewrite (same_ifs_netif_of _ _ p (gratuitous_ifs p s1)) | done]).
  rewrite H. unfold s1. rewrite netif_of_upd_eq. repeat (split; [done |]). unfold has_flag. cbn [nif_flags nif_set_flags].
  apply negb_true_iff, Z.eqb_neq. rewrite Z.land_lor_distr_l. change (Z.land NETIF_FLAG_UP NETIF_FLAG_UP) with 1.
  intros H0. apply Z.lor_eq_0_iff in H0. lia.
Qed.

Lemma ack_step fuel np pcb i d s ip p msg o : lease_at np pcb i d s -> d_state d = DHCP_REQUESTING -> no_lease d ->
  answers fuel (netif_of (ds_net s) np) (d_xid d) p msg o -> dhcp_get_option DHCP_OPTION_IDX_MSG_TYPE o = Some DHCP_ACK ->
  exists s' d', dhcp_udp_input fuel np ip DHCP_SERVER_PORT p s = Some s' /\ ds_mem s' !! i = Some d' /\ d_pcb d' = Some pcb
    /\ d_state d' = DHCP_BOUND /\ (d_t1_timeout d', d_t2_timeout d') = lease_times o
    /\ nif_ip_addr (netif_of (ds_net s') np) = yiaddr msg /\ nif_netmask (netif_of (ds_net s') np) = lease_mask o (yiaddr msg)
    /\ nif_gw (netif_of (ds_net s') np) = lease_gateway o (yiaddr msg) /\ netif_is_up (netif_of (ds_net s') np) = true.
Proof.
  intros Hl Hs Hno Ha Ht. rewrite (input_run fuel np pcb i d s ip p msg o DHCP_ACK Hl Ha Ht).
  set (s1 := ds_set_options o s). set (d1 := d_set_msg_in (Some msg) d).
  destruct (handle_ack_fields o msg d1 eq_refl Hno) as (d2 & Eh & Hip & Hp & Hmask & Hgw & Htm).
  assert (E : dhcp_message np (u8 DHCP_ACK) o (mk_cl d1 s1) = dhcp_bind np (mk_cl d2 s1)).
  { unfold dhcp_message. erewrite bind_run; [| reflexivity]. cbn [c_dhcp]. change (d_state d1) with (d_state d). rewrite Hs.
    change (u8 DHCP_ACK =? DHCP_ACK) with true. change (DHCP_REQUESTING =? DHCP_REQUESTING) with true. cbv iota.
    erewrite bind_run; [reflexivity |]. unfold dhcp_try. cbn [c_dhcp c_sys]. by rewrite Eh. }
  rewrite E. unfold dhcp_bind. do 6 (erewrite bind_run; [| reflexivity]). cbn [c_dhcp c_sys].
  assert (Et : d_offered_ip_addr (dhcp_timers d2) = yiaddr msg /\ d_subnet_mask_given (dhcp_timers d2) = d_subnet_mask_given d2
    /\ d_offered_sn_mask (dhcp_timers d2) = d_offered_sn_mask d2 /\ d_offered_gw_addr (dhcp_timers d2) = d_offered_gw_addr d2
    /\ d_pcb (dhcp_timers d2) = Some pcb).
  { rewrite <- Hip, <- (la_pcb _ _ _ _ _ Hl). change (d_pcb d) with (d_pcb d1). rewrite <- Hp. unfold dhcp_timers. by repeat case_match. }
  destruct Et as (-> & -> & -> & -> & Hp2). rewrite Hmask, Hgw.
  set (d3 := dhcp_timers d2) in *. clearbody d3.
  eexists _, (d_set_msg_in None (dhcp_set_state DHCP_BOUND d3)). split; [reflexivity |]. cbn [ds_mem ds_set_mem ds_net ds_set_net c_dhcp c_sys].
  split; [by rewrite lookup_insert_eq |]. cbn [d_pcb d_set_msg_in d_state d_t1_timeout d_t2_timeout].
  split; [by rewrite set_state_pcb |]. split; [apply set_state_state |].
  split; [rewrite <- Htm; unfold dhcp_set_state; by destruct (DHCP_BOUND =? d_state d3) |].
  set (s2 := netif_set_gw np _ _). destruct (set_up_fields np s2) as (-> & -> & -> & ->).
  unfold s2, netif_set_gw, netif_set_netmask, netif_set_ipaddr. rewrite !netif_of_upd_eq. done.
Qed.

(** *** The start *)

Lemma pcb_of_push u h i : pcb_of (set_udp_pcbs h u) i = pcb_of u i.
Proof. done. Qed.
(** The control block [dhcp_start] makes, when no other has port 68. *)
Lemma start_pcb_ok used l u pcb u1 : udp_ok used l u -> udp_new u = (Some pcb, u1) ->
  (forall i, i ∈ l -> up_local_port (pcb_of u i) <> DHCP_CLIENT_PORT) ->
  let u' := snd (udp_connect pcb 0 DHCP_SERVER_PORT (snd (udp_bind pcb 0 DHCP_CLIENT_PORT u1))) in
  client_pcb (pcb_of u' pcb) /\ up_remote_ip (pcb_of u' pcb) = 0.
Proof.
  intros Hok En Hport. pose proof (udp_new_spec used l u Hok) as H. rewrite En in H.
  destruct H as (_ & Hpl & Hok1 & _ & Hz & Hsame). pose proof (udp_ok_pcbs _ _ _ Hok1) as El.
  assert (Hb : snd (udp_bind pcb 0 DHCP_CLIENT_PORT u1) =
    set_udp_pcbs (Some pcb) (upd_pcb pcb (up_set_next (udp_pcbs u1)) (upd_pcb pcb (up_set_local_port DHCP_CLIENT_PORT) (upd_pcb pcb (up_set_local_ip 0) u1)))).
  { unfold udp_bind. rewrite El. pose proof (bind_scan_spec u1 pcb 0 DHCP_CLIENT_PORT l false) as Hs.
    destruct (bind_scan _ _ _ _ _ _) as [rb |].
    - destruct Hs as [_ ->]. by rewrite bool_decide_false by done.
    - exfalso. destruct Hs as (i & Hi & Hne & Hc). unfold clash in Hc. zb. rewrite Hsame in * by done. by apply (Hport i). }
  cbn zeta. rewrite Hb. set (u2 := set_udp_pcbs _ _).
  assert (Hp2 : pcb_of u2 pcb = mk_udp_pcb 0 0 0 UDP_TTL (udp_pcbs u1) 0 DHCP_CLIENT_PORT 0 Recv_null 0).
  { unfold u2. rewrite pcb_of_push, !pcb_of_upd_eq, Hz. done. }
  clearbody u2. unfold udp_connect. rewrite Hp2. cbn [up_local_port]. change (DHCP_CLIENT_PORT =? 0) with false. cbv iota.
  rewrite bool_decide_true by done. cbn [negb]. destruct (bool_decide _); cbn [snd]; rewrite ?pcb_of_push, !pcb_of_upd_eq, Hp2; by repeat split.
Qed.

Lemma clear_dhcp_flag n f : f = NETIF_FLAG_ETHARP ->
  has_flag (nif_set_flags (Z.land (nif_flags n) (Z.lnot NETIF_FLAG_DHCP)) n) f = has_flag n f.
Proof. intros ->. unfold has_flag. cbn [nif_flags nif_set_flags]. by rewrite <- Z.land_assoc. Qed.

(** The messages do not depend on the flags and the client of the interface. *)
Lemma discover_frame_same a f n id uc x st : let n' := nif_set_dhcp a (nif_set_flags f n) in
  dhcp_frame n' id uc (request_msg n' DHCP_DISCOVER x st (discover_opts n'))
  = dhcp_frame n id uc (request_msg n DHCP_DISCOVER x st (discover_opts n)).
Proof.
  cbn zeta. unfold dhcp_frame, data_frame, request_msg, dhcp_msg_header, ciaddr_of, discover_opts.
  cbn [nif_ip_addr nif_state nif_hwaddr nif_hwaddr_len nif_mtu nif_set_dhcp nif_set_flags]. reflexivity.
Qed.

(** The state in which [dhcp_start] sends its first message. *)
Definition starting (np : netif_ptr) (pcb i : nat) (u1 : udp_st) (s s2 : dsys) : Prop :=
  ds_mem s2 = <[i := d_set_pcb (Some pcb) dhcp_zero]> (ds_mem s)
  /\ ds_udp s2 = snd (udp_connect pcb 0 DHCP_SERVER_PORT (snd (udp_bind pcb 0 DHCP_CLIENT_PORT u1)))
  /\ ds_recv s2 !! pcb = Some np /\ ds_xid s2 = ds_xid s /\ n_heap (ds_net s2) = [] /\ n_wire (ds_net s2) = n_wire (ds_net s)
  /\ ip_id (ds_net s2) = ip_id (ds_net s)
  /\ netif_of (ds_net s2) np = nif_set_dhcp (Some i)
       (nif_set_flags (Z.land (nif_flags (netif_of (ds_net s) np)) (Z.lnot NETIF_FLAG_DHCP)) (netif_of (ds_net s) np)).
Lemma start_run np s pcb u1 : let n := netif_of (ds_net s) np in
  has_flag n NETIF_FLAG_ETHARP = true -> DHCP_MAX_MSG_LEN_MIN_REQUIRED <= nif_mtu n -> nif_dhcp n = None ->
  n_heap (ds_net s) = [] -> udp_new (ds_udp s) = (Some pcb, u1) ->
  exists i s2, starting np pcb i u1 s s2 /\ forall s3, on_client np (dhcp_discover np) s2 = Some (ERR_OK, s3) ->
    dhcp_start np s = Some (ERR_OK, upd_flags (fun f => Z.lor f NETIF_FLAG_DHCP) np s3).
Proof.
  cbn zeta. intros Hfl Hmtu Hd0 Hh En. unfold dhcp_start. set (n := netif_of (ds_net s) np) in *.
  set (s1 := upd_flags _ np s). set (n1 := nif_set_flags (Z.land (nif_flags n) (Z.lnot NETIF_FLAG_DHCP)) n).
  assert (Hn1 : netif_of (ds_net s1) np = n1) by (unfold s1, upd_flags; cbn [ds_net ds_set_net]; by rewrite netif_of_upd_eq).
  rewrite Hn1. assert (Ee : has_flag n1 NETIF_FLAG_ETHARP = true) by (unfold n1; by rewrite clear_dhcp_flag). rewrite Ee. cbn [negb].
  assert (Em : nif_mtu n1 <? DHCP_MAX_MSG_LEN_MIN_REQUIRED = false) by (apply Z.ltb_ge; exact Hmtu). rewrite Em.
  assert (Es : exists i, start_struct np s1 = Some (Some i, ds_set_net (upd_netif np (nif_set_dhcp (Some i)) (ds_net s1)) s1)).
  { unfold start_struct. rewrite Hn1. change (nif_dhcp n1) with (nif_dhcp n). rewrite Hd0.
    change (n_heap (ds_net s1)) with (n_heap (ds_net s)). rewrite Hh.
    assert (Ea : mem_malloc SIZEOF_STRUCT_DHCP [] = (true, [])) by reflexivity. rewrite Ea. eexists. do 2 f_equal.
    assert (El : set_heap [] (ds_net s1) = ds_net s1) by (rewrite <- Hh; by destruct s as [[] ]). by rewrite El. }
  destruct Es as [i Es]. rewrite Es. cbn [mbind option_bind]. cbn [ds_udp ds_set_net]. change (ds_udp s1) with (ds_udp s). rewrite En.
  eexists i, _. split; [| intros s3 E; rewrite E; cbn [mbind option_bind]; by rewrite bool_decide_true by done].
  unfold starting, start_pcb. cbn [ds_udp ds_set_udp ds_set_mem ds_mem ds_recv ds_set_recv ds_set_net ds_net ds_xid].
  split; [done |]. split; [done |]. split; [by rewrite lookup_insert_eq |]. do 2 (split; [done |]). split; [done |]. split; [done |].
  by rewrite netif_of_upd_eq, Hn1.
Qed.

Lemma start_step used l np s pcb u1 : let n := netif_of (ds_net s) np in
  nif_ok n -> has_flag n NETIF_FLAG_ETHARP = true -> DHCP_MAX_MSG_LEN_MIN_REQUIRED <= nif_mtu n -> nif_dhcp n = None ->
  n_heap (ds_net s) = [] -> udp_ok used l (ds_udp s) -> udp_new (ds_udp s) = (Some pcb, u1) ->
  (forall i, i ∈ l -> up_local_port (pcb_of (ds_udp s) i) <> DHCP_CLIENT_PORT) ->
  let x := u32 (ds_xid s + 1) in
  exists s' i d uc, dhcp_start np s = Some (ERR_OK, s') /\ lease_at np pcb i d s' /\ d_state d = DHCP_SELECTING /\ d_xid d = x
    /\ no_lease d /\ ds_xid s' = x /\ d_tries d = 1 /\ d_request_timeout d = 4
    /\ (exists fl, netif_of (ds_net s') np = nif_set_flags fl (nif_set_dhcp (Some i) n))
    /\ n_wire (ds_net s') = n_wire (ds_net s)
         ++ [dhcp_frame n (ip_id (ds_net s)) uc (request_msg n DHCP_DISCOVER x DHCP_SELECTING (discover_opts n))].
Proof.
  cbn zeta. intros Hok Hfl Hmtu Hd0 Hh Hu En Hport. destruct (start_pcb_ok used l _ pcb u1 Hu En Hport) as [Hc Hr].
  destruct (start_run np s pcb u1 Hfl Hmtu Hd0 Hh En) as (i & s2 & (Em & Eu & Ev & Ex & Eh & Ew & Ei & Ed) & Hrun).
  set (n := netif_of (ds_net s) np) in *. rewrite <- Eu in Hc, Hr.
  set (n2 := nif_set_dhcp _ _) in Ed. assert (Hok2 : nif_ok n2) by (destruct Hok; by split).
  set (d0 := d_set_pcb (Some pcb) dhcp_zero) in *. rewrite <- Ed in Hok2.
  destruct (discover_opts_ok (netif_of (ds_net s2) np)) as [Ho8 Hol].
  destruct (dhcp_request_sent np _ _ pcb _ _ s2 _ (discover_outcome np pcb d0 s2 eq_refl) Eh Hc Hok2 ltac:(by split) Ho8 Hol)
    as (net & uc & Er & Hsent).
  assert (Ey : next_xid (selecting d0) s2 = u32 (ds_xid s + 1)) by (rewrite <- Ex; reflexivity).
  assert (Et : d_state (selecting d0) = DHCP_SELECTING) by reflexivity. rewrite Ey in *. rewrite Et in Hsent.
  set (d1 := dhcp_retry backoff_exp (sent_dhcp (d_set_xid (u32 (ds_xid s + 1)) (selecting d0)))) in *.
  assert (Hd1 : d_state d1 = DHCP_SELECTING /\ d_xid d1 = u32 (ds_xid s + 1) /\ no_lease d1 /\ d_tries d1 = 1 /\ d_request_timeout d1 = 4 /\ d_pcb d1 = Some pcb)
    by (do 2 (split; [reflexivity |]); split; [repeat split | repeat (split; [reflexivity |]); reflexivity]).
  clearbody d1. destruct Hd1 as (H1 & H2 & H3 & H4 & H5 & H6).
  destruct (sent_net_frame _ _ _ Hsent) as (Hw & Hhp & Hnet).
  assert (E : on_client np (dhcp_discover np) s2 = Some (ERR_OK, ds_set_mem (<[i := d1]> (ds_mem s2)) (ds_set_net net (ds_set_xid (u32 (ds_xid s + 1)) s2)))).
  { assert (Hm : ds_mem s2 !! i = Some d0) by (by rewrite Em, lookup_insert_eq).
    unfold on_client. rewrite Ed. cbn [n2 nif_dhcp nif_set_dhcp mbind option_bind]. rewrite Hm. cbn [mbind option_bind].
    by rewrite Er. }
  rewrite (Hrun _ E). eexists _, i, d1, uc. split; [done |].
  assert (Hn3 : forall f, netif_of (upd_netif np f net) np = f n2) by (intros f; by rewrite netif_of_upd_eq, Hnet, Ed).
  rewrite Ed in Hok2, Hw. unfold n2 in Hw. rewrite discover_frame_same, Ew, Ei in Hw. fold n in Hw.
  split; [split |]; unfold upd_flags; cbn [ds_net ds_mem ds_udp ds_recv ds_set_net ds_set_mem ds_set_xid ds_xid];
    rewrite ?Hn3, ?lookup_insert_eq; try done.
  - by destruct Hok2; split.
  - exact (eq_trans Hhp Eh).
  - do 6 (split; [done |]). split; [by eexists | exact Hw].
Qed.

(** ** The exchange *)

Lemma request_frame_same a f n id uc x st d : let n' := nif_set_flags f (nif_set_dhcp a n) in
  dhcp_frame n' id uc (request_msg n' DHCP_REQUEST x st (select_opts n' d))
  = dhcp_frame n id uc (request_msg n DHCP_REQUEST x st (select_opts n d)).
Proof.
  cbn zeta. unfold dhcp_frame, data_frame, request_msg, dhcp_msg_header, ciaddr_of, select_opts.
  cbn [nif_ip_addr nif_state nif_hwaddr nif_hwaddr_len nif_mtu nif_set_dhcp nif_set_flags]. reflexivity.
Qed.
Lemma answers_same fuel a f n x p m o : answers fuel n x p m o -> answers fuel (nif_set_flags f (nif_set_dhcp a n)) x p m o.
Proof. by intros []. Qed.

(** C21. A client gets its lease.  On an Ethernet interface without client, with a
    large enough MTU, memory at hand and port 68 free, [dhcp_start] broadcasts one
    DISCOVER, byte for byte as given; an offer that answers it makes the client
    broadcast one REQUEST for the address offered, to the server that offered it,
    under a new transaction id; and the acknowledgement of that leaves the client
    bound and the interface up with the address acknowledged, with the mask of the
    reply or else that of the address class, the gateway of the reply or else the
    first host of the network, and the renewal and rebinding timers of the lease in
    minutes. *)
Theorem dhcp_acquires fuel used l np s pcb u1 p1 p2 m1 m2 o1 o2 sv ip1 ip2
    (n := netif_of (ds_net s) np) (x := u32 (ds_xid s + 1)) (y := u32 (x + 1))
    (Hok : nif_ok n) (Heth : has_flag n NETIF_FLAG_ETHARP = true) (Hmtu : DHCP_MAX_MSG_LEN_MIN_REQUIRED <= nif_mtu n)
    (Hno : nif_dhcp n = None) (Hheap : n_heap (ds_net s) = [])
    (Hudp : udp_ok used l (ds_udp s)) (Hnew : udp_new (ds_udp s) = (Some pcb, u1))
    (Hport : forall i, i ∈ l -> up_local_port (pcb_of (ds_udp s) i) <> DHCP_CLIENT_PORT)
    (Hoffer : answers fuel n x p1 m1 o1) (Ht1 : dhcp_get_option DHCP_OPTION_IDX_MSG_TYPE o1 = Some DHCP_OFFER)
    (Hsv : dhcp_get_option DHCP_OPTION_IDX_SERVER_ID o1 = Some sv)
    (Hack : answers fuel n y p2 m2 o2) (Ht2 : dhcp_get_option DHCP_OPTION_IDX_MSG_TYPE o2 = Some DHCP_ACK) :
  exists s1 s2 s3 c1 c2 i d,
    dhcp_start np s = Some (ERR_OK, s1)
    /\ n_wire (ds_net s1) = n_wire (ds_net s)
         ++ [dhcp_frame n (ip_id (ds_net s)) c1 (request_msg n DHCP_DISCOVER x DHCP_SELECTING (discover_opts n))]
    /\ dhcp_udp_input fuel np ip1 DHCP_SERVER_PORT p1 s1 = Some s2
    /\ n_wire (ds_net s2) = n_wire (ds_net s1)
         ++ [dhcp_frame n (ip_id (ds_net s1)) c2 (request_msg n DHCP_REQUEST y DHCP_REQUESTING
               (max_msg_option (nif_mtu n) ++ addr_option DHCP_OPTION_REQUESTED_IP (yiaddr m1)
                ++ addr_option DHCP_OPTION_SERVER_ID sv ++ request_list_option))]
    /\ dhcp_udp_input fuel np ip2 DHCP_SERVER_PORT p2 s2 = Some s3
    /\ ds_mem s3 !! i = Some d /\ d_state d = DHCP_BOUND /\ (d_t1_timeout d, d_t2_timeout d) = lease_times o2
    /\ nif_ip_addr (netif_of (ds_net s3) np) = yiaddr m2 /\ nif_netmask (netif_of (ds_net s3) np) = lease_mask o2 (yiaddr m2)
    /\ nif_gw (netif_of (ds_net s3) np) = lease_gateway o2 (yiaddr m2) /\ netif_is_up (netif_of (ds_net s3) np) = true.
Proof.
  destruct (start_step used l np s pcb u1 Hok Heth Hmtu Hno Hheap Hudp Hnew Hport)
    as (s1 & i & d1 & c1 & E1 & L1 & St1 & X1 & N1 & Xs1 & _ & _ & (fl & F1) & W1).
  apply (answers_same _ (Some i) fl) in Hoffer. fold n in F1, W1. rewrite <- F1 in Hoffer. fold x in X1. rewrite <- X1 in Hoffer.
  destruct (offer_step fuel np pcb i d1 s1 ip1 p1 m1 o1 sv L1 St1 Hoffer Ht1 Hsv)
    as (s2 & d2 & c2 & E2 & L2 & St2 & X2 & _ & _ & T0 & T1 & T2 & [W2 _]).
  assert (F2 : netif_of (ds_net s2) np = netif_of (ds_net s1) np) by (rewrite W2; done).
  assert (N2 : no_lease d2) by (destruct N1 as (? & ? & ?); unfold no_lease; by rewrite T0, T1, T2).
  apply (answers_same _ (Some i) fl) in Hack. rewrite <- F1, <- F2 in Hack. rewrite Xs1 in X2. fold x y in X2. rewrite <- X2 in Hack.
  destruct (ack_step fuel np pcb i d2 s2 ip2 p2 m2 o2 L2 St2 N2 Hack Ht2)
    as (s3 & d3 & E3 & M3 & _ & St3 & T3 & A1 & A2 & A3 & A4).
  exists s1, s2, s3, c1, c2, i, d3. split; [exact E1 |]. split; [exact W1 |]. split; [exact E2 |]. split.
  - rewrite W2. rewrite F1, Xs1. rewrite request_frame_same. reflexivity.
  - by repeat (split; [done |]).
Qed.

(** *** Witness *)

Definition ex_ack : list Z :=
  ex_dhcp_reply 0xABCD0002 0x0a000064 [(DHCP_OPTION_MESSAGE_TYPE, [DHCP_ACK]); (DHCP_OPTION_SERVER_ID, [10; 0; 0; 1]);
    (DHCP_OPTION_LEASE_TIME, [0; 0; 14; 16]); (DHCP_OPTION_ROUTER, [10; 0; 0; 254])].
Definition ex_offer_opts : rx_options := [None; Some DHCP_OFFER; Some 0x0a000001; None; None; None; None; None; None; None].
Definition ex_ack_opts : rx_options := [None; Some DHCP_ACK; Some 0x0a000001; Some 3600; None; None; None; Some 0x0a0000fe; None; None].
Lemma ex_offer_answers : answers 3 ex_netif 0xABCD0001 [ex_offer] ex_offer ex_offer_opts.
Proof. split; [reflexivity | vm_compute; discriminate | vm_compute; reflexivity | vm_compute; reflexivity]. Qed.
Lemma ex_ack_answers : answers 3 ex_netif 0xABCD0002 [ex_ack] ex_ack ex_ack_opts.
Proof. split; [reflexivity | vm_compute; discriminate | vm_compute; reflexivity | vm_compute; reflexivity]. Qed.
Lemma ex_nif_ok : nif_ok ex_netif.
Proof.
  split; [repeat split | by split | | by split]. unfold ex_netif. cbn [nif_hwaddr].
  repeat (apply List.Forall_cons; [by split |]). apply List.Forall_nil.
Qed.
Lemma dhcp_acquires_witness : exists s1 s2 s3 i d,
  dhcp_start (HdkNetIF 0) ex_dsys = Some (ERR_OK, s1)
  /\ dhcp_udp_input 3 (HdkNetIF 0) 0x0a000001 DHCP_SERVER_PORT [ex_offer] s1 = Some s2
  /\ dhcp_udp_input 3 (HdkNetIF 0) 0x0a000001 DHCP_SERVER_PORT [ex_ack] s2 = Some s3
  /\ ds_mem s3 !! i = Some d /\ d_state d = DHCP_BOUND /\ (d_t1_timeout d, d_t2_timeout d) = (30, 60)
  /\ nif_ip_addr (netif_of (ds_net s3) (HdkNetIF 0)) = 0x0a000064
  /\ nif_netmask (netif_of (ds_net s3) (HdkNetIF 0)) = 0xff000000
  /\ nif_gw (netif_of (ds_net s3) (HdkNetIF 0)) = 0x0a0000fe.
Proof.
  destruct (dhcp_acquires 3 ∅ [] (HdkNetIF 0) ex_dsys 19 (snd (udp_new udp_init)) [ex_offer] [ex_ack]
    ex_offer ex_ack ex_offer_opts ex_ack_opts 0x0a000001 0x0a000001 0x0a000001)
    as (s1 & s2 & s3 & c1 & c2 & i & d & E1 & _ & E2 & _ & E3 & Hm & Hs & Ht & Ha & Hk & Hg & _).
  - exact ex_nif_ok.
  - reflexivity.
  - vm_compute. discriminate.
  - reflexivity.
  - reflexivity.
  - exact udp_ok_init.
  - reflexivity.
  - intros j Hj. by apply not_elem_of_nil in Hj.
  - exact ex_offer_answers.
  - reflexivity.
  - reflexivity.
  - exact ex_ack_answers.
  - reflexivity.
  - exists s1, s2, s3, i, d. split; [exact E1 |]. split; [exact E2 |]. split; [exact E3 |]. split; [exact Hm |]. split; [exact Hs |].
    split; [rewrite Ht; vm_compute; reflexivity |]. split; [rewrite Ha; vm_compute; reflexivity |].
    split; [rewrite Hk; vm_compute; reflexivity | rewrite Hg; vm_compute; reflexivity].
Defined.
