(* ===== verification/UdpSource.v ===== *)
(** * The UDP socket registry (src/UDP_source.c)

    Sixteen slots with a receive mailbox each, over the UDP control blocks.  A
    socket id carries the slot in its low byte and the slot's generation in its
    high byte.  The critical sections ([SYS_ARCH_PROTECT]) make each operation
    one step. *)

From S2P Require Import Prelude NetTypes IpAddr Pbuf Chksum Net Chain Memp Etharp Netif Udp Ip UdpSend.

Definition UDP_RX_BUF_SIZE : Z := 256.
Definition UDP_MAX_LISTENERS : nat := 16.
Definition UDP_SOCK_ID_INVALID : Z := 0xFFFF.

Record udp_rx_msg := mk_rx_msg {
  rm_src_ip : Z;
  rm_src_port : Z;
  rm_data : list Z;
  rm_data_len : Z;
  rm_valid : Z
}.

Record udp_listener := mk_listener {
  ul_pcb : option nat;
  ul_netif : option netif_ptr;
  ul_rx_msg : udp_rx_msg;
  ul_rx_count : Z;
  ul_rx_drop_count : Z;
  ul_generation_count : Z;
  ul_in_use : Z
}.

Record udp_netif_socket_info := mk_socket_info {
  si_netif : option netif_ptr;
  si_local_port : Z;
  si_socket_id : Z
}.

(** The control blocks of the stack and the slots. *)
Record usrc := mk_usrc {
  us_udp : udp_st;
  s_listeners : list udp_listener
}.

Definition rx_msg_zero : udp_rx_msg :=
  mk_rx_msg 0 0 (replicate (Z.to_nat UDP_RX_BUF_SIZE) 0) 0 0.
Definition listener_zero : udp_listener := mk_listener None None rx_msg_zero 0 0 0 0.
Definition usrc_init (u : udp_st) : usrc := mk_usrc u (replicate UDP_MAX_LISTENERS listener_zero).

Definition slot (us : usrc) (i : nat) : udp_listener := nth i (s_listeners us) listener_zero.
Definition upd_slot (i : nat) (f : udp_listener -> udp_listener) (us : usrc) : usrc :=
  mk_usrc (us_udp us) (<[i := f (slot us i)]> (s_listeners us)).
Definition set_us_udp (u : udp_st) (us : usrc) : usrc := mk_usrc u (s_listeners us).

Definition rm_set_valid v m := mk_rx_msg (rm_src_ip m) (rm_src_port m) (rm_data m) (rm_data_len m) v.
Definition ul_set_pcb p l := mk_listener p (ul_netif l) (ul_rx_msg l) (ul_rx_count l)
  (ul_rx_drop_count l) (ul_generation_count l) (ul_in_use l).
Definition ul_set_msg m l := mk_listener (ul_pcb l) (ul_netif l) m (ul_rx_count l)
  (ul_rx_drop_count l) (ul_generation_count l) (ul_in_use l).
Definition ul_set_valid v l := ul_set_msg (rm_set_valid v (ul_rx_msg l)) l.
Definition ul_set_rx_count c l := mk_listener (ul_pcb l) (ul_netif l) (ul_rx_msg l) c
  (ul_rx_drop_count l) (ul_generation_count l) (ul_in_use l).
Definition ul_set_drop_count c l := mk_listener (ul_pcb l) (ul_netif l) (ul_rx_msg l)
  (ul_rx_count l) c (ul_generation_count l) (ul_in_use l).

(** The control block of a slot; the pointer of a slot in use is not [NULL]
    ([usrc_inv]). *)
Definition slot_pcb (us : usrc) (i : nat) : nat := default 0%nat (ul_pcb (slot us i)).

(** ** Ids *)

Definition make_id (idx : nat) (us : usrc) : Z :=
  u16 (Z.lor (Z.shiftl (ul_generation_count (slot us idx)) 8) (Z.of_nat idx)).

(** [resolve]; [None] is -1. *)
Definition resolve (id : Z) (us : usrc) : option nat :=
  let idx := u8 (Z.land id 0xFF) in
  let generation := u8 (Z.shiftr id 8) in
  if (Z.of_nat UDP_MAX_LISTENERS <=? idx)
     || (0 =? ul_in_use (slot us (Z.to_nat idx)))
     || negb (generation =? ul_generation_count (slot us (Z.to_nat idx)))
  then None else Some (Z.to_nat idx).

(** ** Opening and closing *)

(** The assignments of [remove_slot] to the slot after [udp_remove]. *)
Definition slot_close (l : udp_listener) : udp_listener :=
  mk_listener (ul_pcb l) (ul_netif l) (rm_set_valid 0 (ul_rx_msg l)) (ul_rx_count l)
    (ul_rx_drop_count l) (u8 (ul_generation_count l + 1)) 0.
Definition remove_slot (idx : nat) (us : usrc) : usrc :=
  let us := match ul_pcb (slot us idx) with
            | Some p => upd_slot idx (ul_set_pcb None) (set_us_udp (udp_remove p (us_udp us)) us)
            | None => us
            end in
  upd_slot idx slot_close us.

(** [udp_source_netif_ip_changed]; the result of [udp_bind] is ignored. *)
Definition ip_changed_slot (np : netif_ptr) (s : net) (us : usrc) (idx : nat) : usrc :=
  if negb (ul_in_use (slot us idx) =? 0) && bool_decide (ul_netif (slot us idx) = Some np) then
    let p := slot_pcb us idx in
    set_us_udp (snd (udp_bind p (nif_ip_addr (netif_of s np))
                       (up_local_port (pcb_of (us_udp us) p)) (us_udp us))) us
  else us.
Definition udp_source_netif_ip_changed (np : option netif_ptr) (s : net) (us : usrc) : usrc :=
  match np with
  | None => us
  | Some np => fold_left (ip_changed_slot np s) (seq 0 UDP_MAX_LISTENERS) us
  end.

(** The search loops for a slot with [in_use == 0]. *)
Fixpoint first_unused (k : nat) (ls : list udp_listener) : option nat :=
  match ls with
  | [] => None
  | l :: ls => if ul_in_use l =? 0 then Some k else first_unused (S k) ls
  end.

(** [udp_source_add_listener]; [id_ptr] is [socket_id != NULL], and the third
    component is what is stored through it. *)
Definition udp_source_add_listener (np : option netif_ptr) (local_port : Z) (id_ptr : bool)
  (s : net) (us : usrc) : err_t * option Z * usrc :=
  match np, id_ptr with
  | None, _ | _, false => (ERR_VAL, None, us)
  | Some np, true =>
      match first_unused 0 (s_listeners us) with
      | None => (ERR_MEM, None, us)
      | Some idx =>
          match udp_new (us_udp us) with
          | (None, u) => (ERR_MEM, None, set_us_udp u us)
          | (Some new_pcb, u) =>
              let '(err, u) := udp_bind new_pcb (nif_ip_addr (netif_of s np)) local_port u in
              if negb (bool_decide (err = ERR_OK)) then
                (err, None, set_us_udp (udp_remove new_pcb u) us)
              else
                let u := udp_recv new_pcb Recv_udp_rx_callback (Z.of_nat idx) u in
                let us := upd_slot idx (fun l =>
                  mk_listener (Some new_pcb) (Some np) (rm_set_valid 0 (ul_rx_msg l)) 0 0
                    (ul_generation_count l) 1) (set_us_udp u us) in
                (ERR_OK, Some (make_id idx us), us)
          end
      end
  end.

Definition udp_source_remove_listener (id : Z) (us : usrc) : usrc :=
  match resolve id us with
  | None => us
  | Some idx => remove_slot idx us
  end.

(** The slot is in use on the interface. *)
Definition on_netif (np : netif_ptr) (l : udp_listener) : bool :=
  bool_decide (ul_netif l = Some np) && (ul_in_use l =? 1).

Definition remove_if_on (np : netif_ptr) (us : usrc) (idx : nat) : usrc :=
  if on_netif np (slot us idx) then remove_slot idx us else us.
Definition udp_source_remove_all_on_netif (np : option netif_ptr) (us : usrc) : usrc :=
  match np with
  | None => us
  | Some np => fold_left (remove_if_on np) (seq 0 UDP_MAX_LISTENERS) us
  end.

(** ** Sending and receiving *)

(** [udp_source_data_send]; [data] is [None] for [NULL], else the [data_len]
    bytes at the pointer. *)
Definition udp_source_data_send (id : Z) (tx_netif : option netif_ptr) (ip_addr_rx port : Z)
  (data : option (list Z)) (us : usrc) (s : net) : err_t * usrc * net :=
  match tx_netif, data, resolve id us with
  | Some np, Some data, Some idx =>
      if Zlen data =? 0 then (ERR_VAL, us, s)
      else
        match net_pbuf_alloc PBUF_TRANSPORT (Zlen data) s with
        | (None, s) => (ERR_MEM, us, s)
        | (Some p, s) =>
            let '(err, u, s) := udp_sendto_if (slot_pcb us idx) (set_payload data p)
                                  ip_addr_rx port np (us_udp us) s in
            (err, set_us_udp u us, s)
        end
  | _, _, _ => (ERR_VAL, us, s)
  end.

(** [udp_source_poll_rx] for [msg != NULL]: the message copied, if any. *)
Definition udp_source_poll_rx (id : Z) (us : usrc) : option udp_rx_msg * usrc :=
  match resolve id us with
  | None => (None, us)
  | Some idx =>
      let l := slot us idx in
      if rm_valid (ul_rx_msg l) =? 0 then (None, us)
      else (Some (ul_rx_msg l),
            upd_slot idx (fun l => ul_set_rx_count (u32 (ul_rx_count l + 1)) (ul_set_valid 0 l)) us)
  end.

(** The message [udp_rx_callback] writes. *)
Definition rx_fill (p : pbuf) (addr port : Z) (m : udp_rx_msg) : udp_rx_msg :=
  let copy_len := u16 (p_tot_len p) in
  let copy_len := if UDP_RX_BUF_SIZE <? copy_len then UDP_RX_BUF_SIZE else copy_len in
  mk_rx_msg addr port (put 0 (pbuf_copy_partial p copy_len 0) (rm_data m)) copy_len 1.

(** [udp_rx_callback]; the value is whether the pbuf was freed. *)
Definition udp_rx_callback (arg : Z) (p : option pbuf) (addr port : Z) (us : usrc)
  : bool * usrc :=
  let idx := Z.to_nat (u8 arg) in
  if negb ((u8 arg <? Z.of_nat UDP_MAX_LISTENERS) && (ul_in_use (slot us idx) =? 1))
  then (false, us)
  else
    match p with
    | None => (false, us)
    | Some p =>
        if 1 =? rm_valid (ul_rx_msg (slot us idx)) then
          (true, upd_slot idx (fun l => ul_set_drop_count (u32 (ul_rx_drop_count l + 1)) l) us)
        else
          (true, upd_slot idx (fun l => ul_set_msg (rx_fill p addr port (ul_rx_msg l)) l) us)
    end.

(** ** Queries *)

Definition udp_source_get_local_port (id : Z) (us : usrc) : Z :=
  match resolve id us with
  | None => 0
  | Some idx => up_local_port (pcb_of (us_udp us) (slot_pcb us idx))
  end.

Definition udp_source_count_sockets (np : option netif_ptr) (us : usrc) : Z :=
  match np with
  | None => 0
  | Some np => fold_left (fun c l => if on_netif np l then u8 (c + 1) else c) (s_listeners us) 0
  end.

(** The loop of [udp_source_get_socket]: the slot it stops at. *)
Fixpoint nth_on (np : netif_ptr) (nth count : Z) (k : nat) (ls : list udp_listener) : option nat :=
  match ls with
  | [] => None
  | l :: ls =>
      if on_netif np l then
        if nth =? count then Some k else nth_on np nth (u8 (count + 1)) (S k) ls
      else nth_on np nth count (S k) ls
  end.
Definition udp_source_get_socket (np : option netif_ptr) (nth : Z) (us : usrc)
  : udp_netif_socket_info :=
  match np with
  | None => mk_socket_info None 0 UDP_SOCK_ID_INVALID
  | Some np =>
      match nth_on np nth 0 0 (s_listeners us) with
      | None => mk_socket_info None 0 UDP_SOCK_ID_INVALID
      | Some idx =>
          mk_socket_info (Some np) (up_local_port (pcb_of (us_udp us) (slot_pcb us idx)))
            (make_id idx us)
      end
  end.

(** ** Slots *)

Lemma slot_upd us i j f : length (s_listeners us) = UDP_MAX_LISTENERS -> (i < UDP_MAX_LISTENERS)%nat ->
  slot (upd_slot i f us) j = if decide (i = j) then f (slot us i) else slot us j.
Proof.
  intros Hl Hi. unfold slot at 1, upd_slot. cbn [s_listeners].
  rewrite !nth_lookup. destruct (decide (i = j)) as [-> |].
  - rewrite list_lookup_insert_eq by lia. done.
  - rewrite list_lookup_insert_ne by done. unfold slot. by rewrite nth_lookup.
Qed.

Lemma upd_slot_length i f us : length (s_listeners (upd_slot i f us)) = length (s_listeners us).
Proof. apply length_insert. Qed.

Lemma fold_left_ind {A B} (P : A -> Prop) (f : A -> B -> A) (l : list B) a :
  P a -> (forall a b, b ∈ l -> P a -> P (f a b)) -> P (fold_left f l a).
Proof.
  revert a; induction l as [| b l IH]; intros a Ha Hf; [done |]. cbn. apply IH.
  - apply Hf; [left | done].
  - intros a' b' Hb. apply Hf. by right.
Qed.

(** A pass over the slots whose body only changes the slot it visits. *)
Lemma fold_slots (f : usrc -> nat -> usrc) (g : udp_listener -> udp_listener) (P : usrc -> Prop) us :
  (forall us i, P us -> (i < UDP_MAX_LISTENERS)%nat -> P (f us i)
     /\ forall j, slot (f us i) j = if decide (i = j) then g (slot us i) else slot us j) ->
  P us ->
  P (fold_left f (seq 0 UDP_MAX_LISTENERS) us)
  /\ forall j, (j < UDP_MAX_LISTENERS)%nat ->
     slot (fold_left f (seq 0 UDP_MAX_LISTENERS) us) j = g (slot us j).
Proof.
  intros Hf HP.
  assert (H : forall n k us, (k + n <= UDP_MAX_LISTENERS)%nat -> P us ->
    P (fold_left f (seq k n) us) /\ forall j, slot (fold_left f (seq k n) us) j
      = if decide (k <= j < k + n)%nat then g (slot us j) else slot us j).
  { clear us HP. induction n as [| n IH]; intros k us Hn HP.
    - split; [done |]. intros j. rewrite decide_False by lia. done.
    - cbn. destruct (Hf us k HP ltac:(lia)) as [HP' Hs].
      destruct (IH (S k) (f us k) ltac:(lia) HP') as [HP'' Hs'']. split; [done |].
      intros j. rewrite Hs'', Hs. repeat case_decide; subst; try lia; done. }
  destruct (H UDP_MAX_LISTENERS 0%nat us ltac:(lia) HP) as [HP' Hs]. split; [done |].
  intros j Hj. rewrite Hs, decide_True by lia. done.
Qed.

Lemma first_unused_spec k ls :
  match first_unused k ls with
  | Some i => exists j l, i = (k + j)%nat /\ ls !! j = Some l /\ ul_in_use l = 0
              /\ forall j', (j' < j)%nat -> exists l', ls !! j' = Some l' /\ ul_in_use l' <> 0
  | None => Forall (fun l => ul_in_use l <> 0) ls
  end.
Proof.
  revert k; induction ls as [| l ls IH]; intros k; cbn [first_unused]; [done |].
  destruct (Z.eqb_spec (ul_in_use l) 0) as [E | E].
  - exists 0%nat, l. split_and!; [lia | done | done | lia].
  - specialize (IH (S k)). destruct (first_unused (S k) ls).
    + destruct IH as (j & l' & -> & Hl & Hu & Hb). exists (S j), l'.
      split_and!; [lia | done | done |]. intros [| j'] Hj; [by exists l | apply Hb; lia].
    + by apply List.Forall_cons.
Qed.

Lemma slot_lookup us i l : s_listeners us !! i = Some l -> slot us i = l.
Proof. intros H. unfold slot. by rewrite nth_lookup, H. Qed.
Lemma lookup_slot us i : length (s_listeners us) = UDP_MAX_LISTENERS -> (i < UDP_MAX_LISTENERS)%nat ->
  s_listeners us !! i = Some (slot us i).
Proof.
  intros Hl Hi. destruct (s_listeners us !! i) as [l |] eqn:E.
  - by rewrite (slot_lookup _ _ _ E).
  - apply lookup_ge_None in E. lia.
Qed.

(** ** The invariant *)

(** Slot [i] over the control blocks [u] with bound list [l]. *)
Record slot_ok (u : udp_st) (l : list nat) (i : nat) (L : udp_listener) : Prop := {
  sl_gen : is_u8 (ul_generation_count L);
  sl_valid : rm_valid (ul_rx_msg L) = 0 \/ rm_valid (ul_rx_msg L) = 1;
  sl_data : Zlen (rm_data (ul_rx_msg L)) = UDP_RX_BUF_SIZE;
  sl_use : (ul_in_use L = 0 /\ ul_pcb L = None)
    \/ (ul_in_use L = 1 /\ exists p np, ul_pcb L = Some p /\ ul_netif L = Some np /\ p ∈ l
          /\ up_recv (pcb_of u p) = Recv_udp_rx_callback
          /\ up_recv_arg (pcb_of u p) = Z.of_nat i
          /\ 0 < up_local_port (pcb_of u p) <= 65535)
}.

(** A control block with the registry's callback belongs to the slot its
    argument names. *)
Definition owned (used : gset nat) (us : usrc) : Prop :=
  forall p, p ∈ used -> up_recv (pcb_of (us_udp us) p) = Recv_udp_rx_callback ->
    exists i, (i < UDP_MAX_LISTENERS)%nat /\ up_recv_arg (pcb_of (us_udp us) p) = Z.of_nat i
      /\ ul_pcb (slot us i) = Some p.

Record us_inv (used : gset nat) (l : list nat) (us : usrc) : Prop := {
  ui_udp : udp_inv used l (us_udp us);
  ui_len : length (s_listeners us) = UDP_MAX_LISTENERS;
  ui_slot : forall i, (i < UDP_MAX_LISTENERS)%nat -> slot_ok (us_udp us) l i (slot us i);
  ui_owned : owned used us
}.

Lemma us_inv_init used l u :
  udp_inv used l u -> (forall p, p ∈ used -> up_recv (pcb_of u p) <> Recv_udp_rx_callback) ->
  us_inv used l (usrc_init u).
Proof.
  intros Hu Hr. split; [done | done | | intros p Hp Hcb; by apply Hr in Hcb].
  intros i Hi. assert (E : slot (usrc_init u) i = listener_zero).
  { unfold slot, usrc_init. cbn [s_listeners]. rewrite nth_lookup, lookup_replicate_2 by lia. done. }
  rewrite E. split; [split; done | by left | done | left; done].
Qed.

(** A slot stays well formed when its control block keeps its callback, port
    and place. *)
Lemma slot_ok_ext u u' l l' i L :
  slot_ok u l i L ->
  (forall p, ul_pcb L = Some p -> p ∈ l -> p ∈ l'
     /\ up_recv (pcb_of u' p) = up_recv (pcb_of u p)
     /\ up_recv_arg (pcb_of u' p) = up_recv_arg (pcb_of u p)
     /\ up_local_port (pcb_of u' p) = up_local_port (pcb_of u p)) ->
  slot_ok u' l' i L.
Proof.
  intros [Hg Hv Hd Hu] Hf. split; [done.. |]. destruct Hu as [? | [Hu (p & np & Hp & Hn & Hl & H)]]; [by left |].
  right. split; [done |]. destruct (Hf p Hp Hl) as (Hl' & E1 & E2 & E3).
  exists p, np. by rewrite E1, E2, E3.
Qed.

(** Two slots in use have different control blocks. *)
Lemma slot_pcb_inj u l i j L L' p :
  slot_ok u l i L -> slot_ok u l j L' -> ul_pcb L = Some p -> ul_pcb L' = Some p -> i = j.
Proof.
  intros [_ _ _ [[_ Hi] | (_ & p1 & n1 & E1 & _ & _ & _ & A1 & _)]] [_ _ _ [[_ Hj] | (_ & p2 & n2 & E2 & _ & _ & _ & A2 & _)]];
    congruence || (intros; assert (p1 = p /\ p2 = p) as [-> ->] by (split; congruence); lia).
Qed.

(** What is left of a slot after [remove_slot]. *)
Definition closed (L : udp_listener) : udp_listener := slot_close (ul_set_pcb None L).

Lemma closed_ok u l u' l' i L : slot_ok u l i L -> slot_ok u' l' i (closed L).
Proof. intros [Hg Hv Hd Hu]. split; [apply u8_range | by left | done | left; done]. Qed.

(** [remove_slot] on a slot in use. *)
Lemma remove_slot_spec used l us i :
  us_inv used l us -> (i < UDP_MAX_LISTENERS)%nat -> ul_in_use (slot us i) = 1 ->
  exists p, ul_pcb (slot us i) = Some p /\ p ∈ l
    /\ us_udp (remove_slot i us) = udp_remove p (us_udp us)
    /\ (forall j, slot (remove_slot i us) j = if decide (i = j) then closed (slot us i) else slot us j)
    /\ us_inv (used ∖ {[p]}) (remove1 p l) (remove_slot i us).
Proof.
  intros [Hu Hl Hs Ho] Hi Huse. pose proof (Hs i Hi) as [_ _ _ [[? _] | (_ & p & np & Ep & En & Hpl & Hr & Ha & _)]]; [lia |].
  assert (Hpu : p ∈ used) by (by apply Hu).
  exists p. split; [done |]. split; [done |].
  assert (Eudp : us_udp (remove_slot i us) = udp_remove p (us_udp us)) by (unfold remove_slot; by rewrite Ep).
  assert (Eslot : forall j, slot (remove_slot i us) j = if decide (i = j) then closed (slot us i) else slot us j).
  { intros j. unfold remove_slot. rewrite Ep. rewrite slot_upd by (rewrite ?upd_slot_length; done).
    rewrite !slot_upd by done. repeat case_decide; congruence || done. }
  split; [done | split; [done |]].
  destruct (remove_spec used l (us_udp us) p (proj1 Hu) Hpu) as (_ & _ & Hf).
  split.
  - rewrite Eudp. by apply udp_remove_inv.
  - unfold remove_slot. rewrite Ep, !upd_slot_length. done.
  - intros j Hj. rewrite Eslot, Eudp. case_decide as Hij; [subst j; by eapply closed_ok, Hs |].
    eapply slot_ok_ext; [by apply Hs |]. intros q Eq Hq. destruct (Hf q) as (_ & ? & ? & ?).
    split_and!; try done. rewrite elem_of_remove1. split; [done |].
    intros ->. apply Hij. by eapply slot_pcb_inj; [apply Hs | apply Hs | ..].
  - intros q Hq Hcb. rewrite Eudp in *. destruct (Hf q) as (_ & _ & Er & Ea).
    rewrite Er in Hcb. rewrite Ea. apply elem_of_difference in Hq as [Hq Hqp].
    rewrite elem_of_singleton in Hqp. destruct (Ho q Hq Hcb) as (k & Hk & Hka & Hkp).
    exists k. split; [done | split; [done |]]. rewrite Eslot, decide_False; [done |].
    intros <-. congruence.
Qed.

(** Other users of the control blocks keep the registry well formed. *)
Lemma us_inv_frame used l used' l' us u' :
  us_inv used l us -> udp_inv used' l' u' ->
  (forall p, p ∈ used -> up_recv (pcb_of u' p) = up_recv (pcb_of (us_udp us) p)
     /\ up_recv_arg (pcb_of u' p) = up_recv_arg (pcb_of (us_udp us) p)
     /\ up_local_port (pcb_of u' p) = up_local_port (pcb_of (us_udp us) p)) ->
  (forall p, p ∈ l -> p ∈ l') ->
  (forall p, p ∈ used' -> p ∈ used \/ up_recv (pcb_of u' p) <> Recv_udp_rx_callback) ->
  us_inv used' l' (set_us_udp u' us).
Proof.
  intros [Hu Hl Hs Ho] Hu' Hf Hll Huu. split; [done | done | |].
  - intros i Hi. eapply slot_ok_ext; [by apply Hs |]. intros p _ Hp. split; [auto |].
    apply Hf. by apply Hu.
  - intros p Hp Hcb. destruct (Huu p Hp) as [Hpu |]; [| done].
    destruct (Hf p Hpu) as (Er & Ea & _). cbn in Hcb. rewrite Er in Hcb. cbn. rewrite Ea. by apply Ho.
Qed.

(** A freshly allocated and bound control block becomes the slot's. *)
Lemma install_inv used l us i p np :
  us_inv used l us -> (i < UDP_MAX_LISTENERS)%nat -> ul_in_use (slot us i) = 0 ->
  p ∈ l -> up_recv (pcb_of (us_udp us) p) <> Recv_udp_rx_callback ->
  0 < up_local_port (pcb_of (us_udp us) p) <= 65535 ->
  us_inv used l (upd_slot i (fun L =>
    mk_listener (Some p) (Some np) (rm_set_valid 0 (ul_rx_msg L)) 0 0 (ul_generation_count L) 1)
    (set_us_udp (udp_recv p Recv_udp_rx_callback (Z.of_nat i) (us_udp us)) us)).
Proof.
  intros [Hu Hl Hs Ho] Hi Huse Hp Hr Hport.
  assert (Hnp : forall j q, ul_pcb (slot us j) = Some q -> (j < UDP_MAX_LISTENERS)%nat -> q <> p).
  { intros j q Eq Hj ->. destruct (Hs j Hj) as [_ _ _ [[_ E] | (_ & q & n & E & _ & _ & E' & _)]]; congruence. }
  set (us1 := set_us_udp _ us).
  assert (Hl1 : length (s_listeners us1) = UDP_MAX_LISTENERS) by done.
  assert (Hf : forall q, q <> p -> pcb_of (us_udp us1) q = pcb_of (us_udp us) q)
    by (intros q Hq; apply pcb_of_upd_ne; congruence).
  assert (Hfp : pcb_of (us_udp us1) p = up_set_recv Recv_udp_rx_callback (Z.of_nat i) (pcb_of (us_udp us) p))
    by apply pcb_of_upd_eq.
  split.
  - by apply upd_other_inv.
  - by rewrite upd_slot_length.
  - intros j Hj. rewrite slot_upd by done.
    change (us_udp (upd_slot _ _ us1)) with (us_udp us1). change (slot us1) with (slot us).
    case_decide as Hij.
    + subst j. destruct (Hs i Hi) as [G V D _]. split; [done | by left | done |]. right.
      split; [done |]. exists p, np. by rewrite Hfp.
    + eapply slot_ok_ext; [by apply Hs |]. intros q Eq Hq. rewrite Hf by eauto. done.
  - intros q Hq. change (us_udp (upd_slot _ _ us1)) with (us_udp us1).
    destruct (decide (q = p)) as [-> | Hqp].
    + intros _. exists i. rewrite slot_upd, decide_True, Hfp by done. done.
    + rewrite Hf by done. intros Hcb. destruct (Ho q Hq Hcb) as (k & Hk & Ha & Hkp).
      exists k. split; [done | split; [done |]]. rewrite slot_upd by done.
      rewrite decide_False; [done |]. intros <-. 
      destruct (Hs i Hi) as [_ _ _ [[_ E] | (E & _)]]; [congruence | lia].
Qed.

(** A control block that was allocated and given back leaves no trace. *)
Lemma undo_new_inv used l us p u1 :
  us_inv used l us -> udp_new (us_udp us) = (Some p, u1) ->
  us_inv used l (set_us_udp (udp_remove p u1) us)
  /\ forall q, q ∈ used -> up_local_ip (pcb_of (udp_remove p u1) q) = up_local_ip (pcb_of (us_udp us) q)
       /\ up_local_port (pcb_of (udp_remove p u1) q) = up_local_port (pcb_of (us_udp us) q)
       /\ up_recv (pcb_of (udp_remove p u1) q) = up_recv (pcb_of (us_udp us) q).
Proof.
  intros Hinv En. pose proof (ui_udp _ _ _ Hinv) as Hu.
  pose proof (udp_new_spec _ _ _ (proj1 Hu)) as Hnew. rewrite En in Hnew.
  destruct Hnew as (Hpu & Hpl & Hok1 & _ & Hp1 & Hoth1).
  pose proof (udp_new_inv _ _ _ _ _ Hu En) as Hu1.
  assert (Hp1u : p ∈ ({[p]} ∪ used : gset nat)) by (apply elem_of_union_l, elem_of_singleton_2; done).
  pose proof (udp_remove_inv _ _ _ _ Hu1 Hp1u) as Hu2.
  destruct (remove_spec _ l u1 p Hok1 Hp1u) as (_ & _ & Hf).
  assert (Eused : ({[p]} ∪ used) ∖ {[p]} = used) by set_solver.
  rewrite Eused, remove1_notin in Hu2 by done.
  assert (Hkeep : forall q, q ∈ used ->
     up_local_ip (pcb_of (udp_remove p u1) q) = up_local_ip (pcb_of (us_udp us) q)
     /\ up_local_port (pcb_of (udp_remove p u1) q) = up_local_port (pcb_of (us_udp us) q)
     /\ up_recv (pcb_of (udp_remove p u1) q) = up_recv (pcb_of (us_udp us) q)
     /\ up_recv_arg (pcb_of (udp_remove p u1) q) = up_recv_arg (pcb_of (us_udp us) q)).
  { intros r Hr. destruct (Hf r) as (-> & -> & -> & ->). rewrite Hoth1; [done | intros ->; done]. }
  split.
  - apply (us_inv_frame used l); auto. intros r Hru. by destruct (Hkeep r Hru) as (_ & ? & ? & ?).
  - intros r Hru. by destruct (Hkeep r Hru) as (? & ? & ? & _).
Qed.

(** A new control block bound for the slot that will hold it: the registry
    around it is as before, and the block is ready to be installed. *)
Record bound_for (us : usrc) (l : list nat) (p : nat) (ip k : Z) (u : udp_st) : Prop := {
  bf_ip : up_local_ip (pcb_of u p) = ip;
  bf_given : k <> 0 -> up_local_port (pcb_of u p) = k;
  bf_chosen : k = 0 -> 49152 <= up_local_port (pcb_of u p) <= 65535
    /\ forall q, q ∈ l -> up_local_port (pcb_of (us_udp us) q) <> up_local_port (pcb_of u p);
  bf_recv : up_recv (pcb_of u p) <> Recv_udp_rx_callback;
  bf_others q : q <> p -> pcb_of u q = pcb_of (us_udp us) q
}.

Lemma bound_port us l p ip k u : bound_for us l p ip k u -> is_u16 k -> 0 < up_local_port (pcb_of u p) <= 65535.
Proof.
  intros [_ Hg Hc _ _] Hk. destruct (decide (k = 0)) as [Ek | Ek].
  - destruct (Hc Ek). lia.
  - rewrite (Hg Ek). unfold is_u16 in Hk. lia.
Qed.

(** [udp_new] and [udp_bind], as the function calls them. *)
Lemma new_bind_ok used l us p u1 ip k e u2 :
  us_inv used l us -> udp_new (us_udp us) = (Some p, u1) -> udp_bind p ip k u1 = (e, u2) ->
  (e = ERR_USE /\ u2 = u1 /\ exists q, q ∈ l /\ clash (pcb_of (us_udp us) q) ip k = true)
  \/ (e = ERR_OK /\ us_inv ({[p]} ∪ used) (p :: l) (set_us_udp u2 us) /\ bound_for us l p ip k u2).
Proof.
  intros Hinv En Eb. pose proof (ui_udp _ _ _ Hinv) as Hu.
  pose proof (udp_new_spec _ _ _ (proj1 Hu)) as Hnew. rewrite En in Hnew.
  destruct Hnew as (Hpu & Hpl & Hok1 & _ & Hp1 & Hoth1).
  pose proof (udp_new_inv _ _ _ _ _ Hu En) as Hu1.
  assert (Hp1u : p ∈ ({[p]} ∪ used : gset nat)) by (apply elem_of_union_l, elem_of_singleton_2; done).
  assert (Hne : forall q, q ∈ used -> q <> p) by (intros q Hq ->; done).
  assert (Hnl : forall q, q ∈ l -> q <> p) by (intros q Hq ->; done).
  destruct (bind_spec _ l u1 p ip k Hok1 (proj1 (proj2 Hu1)) Hp1u) as (e0 & u0 & Eb0 & Hb).
  rewrite Eb in Eb0. injection Eb0 as <- <-.
  destruct Hb as [(-> & -> & q & Hq & Hqp & Hc) | (-> & Hok2 & _ & _ & Hkk & Hk0 & Ha & Hr & _ & Hoth2)].
  { left. split; [done | split; [done |]]. exists q. by rewrite <- Hoth1. }
  right. pose proof (udp_bind_inv _ _ _ _ _ _ _ _ Hu1 Hp1u Eb) as (l2 & Hu2 & _).
  assert (l2 = p :: l) as ->.
  { rewrite <- (udp_ok_pcbs _ _ _ (proj1 Hu2)). rewrite bool_decide_false in Hok2 by done.
    by rewrite (udp_ok_pcbs _ _ _ Hok2). }
  split; [done |]. split; [| split; [done | done | | by rewrite Hr, Hp1 |]].
  - apply (us_inv_frame used l); auto.
    + intros r Hru. by rewrite Hoth2, Hoth1 by auto.
    + intros r Hrl. by right.
    + intros r [->%elem_of_singleton | Hr2]%elem_of_union; [right; by rewrite Hr, Hp1 | by left].
  - intros Ek. destruct (Hk0 Ek) as [Hr' Hfree]. split; [exact Hr' |]. intros q Hq.
    rewrite <- (Hoth1 q) by auto. destruct (Hfree q Hq) as [| E]; [done | by destruct (Hnl q Hq)].
  - intros q Hq. by rewrite Hoth2, Hoth1.
Qed.

(** [udp_source_add_listener] on every branch. *)
Lemma add_listener_spec used l us np k s err id us' :
  us_inv used l us -> is_u16 k ->
  udp_source_add_listener (Some np) k true s us = (err, id, us') ->
  (err = ERR_OK /\ exists i p, (i < UDP_MAX_LISTENERS)%nat /\ ul_in_use (slot us i) = 0 /\ p ∉ used
     /\ us_inv ({[p]} ∪ used) (p :: l) us' /\ id = Some (make_id i us')
     /\ ul_pcb (slot us' i) = Some p /\ ul_netif (slot us' i) = Some np
     /\ ul_generation_count (slot us' i) = ul_generation_count (slot us i)
     /\ ul_rx_count (slot us' i) = 0 /\ ul_rx_drop_count (slot us' i) = 0
     /\ rm_valid (ul_rx_msg (slot us' i)) = 0
     /\ up_local_ip (pcb_of (us_udp us') p) = nif_ip_addr (netif_of s np)
     /\ (k <> 0 -> up_local_port (pcb_of (us_udp us') p) = k)
     /\ (k = 0 -> 49152 <= up_local_port (pcb_of (us_udp us') p) <= 65535
          /\ forall q, q ∈ l -> up_local_port (pcb_of (us_udp us) q)
                                <> up_local_port (pcb_of (us_udp us') p))
     /\ (forall j, j <> i -> slot us' j = slot us j)
     /\ (forall q, q <> p -> pcb_of (us_udp us') q = pcb_of (us_udp us) q))
  \/ (err = ERR_USE /\ id = None /\ us_inv used l us' /\ s_listeners us' = s_listeners us
     /\ (exists q, q ∈ l /\ clash (pcb_of (us_udp us) q) (nif_ip_addr (netif_of s np)) k = true)
     /\ forall q, q ∈ used -> up_local_ip (pcb_of (us_udp us') q) = up_local_ip (pcb_of (us_udp us) q)
          /\ up_local_port (pcb_of (us_udp us') q) = up_local_port (pcb_of (us_udp us) q)
          /\ up_recv (pcb_of (us_udp us') q) = up_recv (pcb_of (us_udp us) q))
  \/ (err = ERR_MEM /\ id = None /\ us' = us
     /\ ((forall i, (i < UDP_MAX_LISTENERS)%nat -> ul_in_use (slot us i) = 1)
         \/ forall p, (p < MEMP_NUM_UDP_PCB)%nat -> p ∈ used)).
Proof.
  intros Hinv Hk. pose proof Hinv as [Hu Hl Hs Ho]. unfold udp_source_add_listener.
  pose proof (first_unused_spec 0 (s_listeners us)) as Hfu.
  destruct (first_unused 0 (s_listeners us)) as [i |].
  2: { intros [= <- <- <-]. right; right. do 3 (split; [done |]). left. intros i Hi.
       rewrite Forall_lookup in Hfu. specialize (Hfu i _ (lookup_slot us i Hl Hi)).
       destruct (Hs i Hi) as [_ _ _ [[? _] | [? _]]]; done. }
  destruct Hfu as (j & L & -> & HL & Huse & _). cbn [Nat.add].
  assert (Hj : (j < UDP_MAX_LISTENERS)%nat) by (rewrite <- Hl; by eapply lookup_lt_Some).
  apply slot_lookup in HL. rewrite <- HL in Huse. clear HL L.
  pose proof (udp_new_spec _ _ _ (proj1 Hu)) as Hnew.
  destruct (udp_new (us_udp us)) as [[p |] u1] eqn:En.
  2: { destruct Hnew as [-> Hall]. intros [= <- <- <-]. right; right.
       split; [done | split; [done |]]. split; [by destruct us | by right]. }
  destruct (udp_bind p (nif_ip_addr (netif_of s np)) k u1) as [e u2] eqn:Eb.
  destruct (new_bind_ok _ _ _ _ _ _ _ _ _ Hinv En Eb) as [(-> & -> & Hc) | (-> & Hi2 & Hbf)].
  - cbn. intros [= <- <- <-]. right; left. destruct (undo_new_inv _ _ _ _ _ Hinv En) as [Hi2 Hkeep]. by split_and!.
  - rewrite bool_decide_eq_true_2 by done. cbn [negb]. intros [= <- <- <-]. left. split; [done |].
    pose proof (bound_port _ _ _ _ _ _ Hbf Hk) as Hpp. destruct Hbf as [Ha Hkk Hdyn Hrp Hoth].
    pose proof (install_inv _ _ _ j p np Hi2 Hj Huse (list_elem_of_here _ _) Hrp Hpp) as Hfin.
    cbn [us_udp set_us_udp] in Hfin. change (set_us_udp ?a (set_us_udp ?b us)) with (set_us_udp a us) in Hfin.
    set (us' := upd_slot j _ _) in *.
    assert (Es : forall i, slot us' i = if decide (j = i) then
       mk_listener (Some p) (Some np) (rm_set_valid 0 (ul_rx_msg (slot us j))) 0 0
         (ul_generation_count (slot us j)) 1 else slot us i) by (intros i; unfold us'; by rewrite slot_upd).
    assert (Ep : forall q, pcb_of (us_udp us') q = if decide (p = q)
       then up_set_recv Recv_udp_rx_callback (Z.of_nat j) (pcb_of u2 p) else pcb_of u2 q)
      by (intros q; apply pcb_of_upd).
    exists j, p. rewrite (Es j), (Ep p), !decide_True by done. destruct Hnew as (Hpu & _).
    do 14 (split; [done |]). split.
    + intros i Hi. by rewrite Es, decide_False by congruence.
    + intros q Hq. rewrite Ep, decide_False by congruence. by apply Hoth.
Qed.

(** ** The other operations *)

(** Changes of a slot's message and counters only. *)
Lemma us_inv_upd used l us i f :
  us_inv used l us -> (i < UDP_MAX_LISTENERS)%nat ->
  (forall L, ul_pcb (f L) = ul_pcb L /\ ul_netif (f L) = ul_netif L
     /\ ul_in_use (f L) = ul_in_use L /\ ul_generation_count (f L) = ul_generation_count L) ->
  (rm_valid (ul_rx_msg (f (slot us i))) = 0 \/ rm_valid (ul_rx_msg (f (slot us i))) = 1) ->
  Zlen (rm_data (ul_rx_msg (f (slot us i)))) = UDP_RX_BUF_SIZE ->
  us_inv used l (upd_slot i f us).
Proof.
  intros [Hu Hl Hs Ho] Hi Hf Hv Hd. split; [done | by rewrite upd_slot_length | |].
  - intros j Hj. rewrite slot_upd by done. case_decide as Hij; [subst j | by apply Hs].
    destruct (Hs i Hi) as [G _ _ U]. destruct (Hf (slot us i)) as (E1 & E2 & E3 & E4).
    split; rewrite ?E1, ?E2, ?E3, ?E4; done.
  - intros p Hp Hcb. destruct (Ho p Hp Hcb) as (k & Hk & Ha & Hkp). exists k.
    split; [done | split; [done |]]. rewrite slot_upd by done.
    case_decide; subst; [| done]. by destruct (Hf (slot us k)) as (-> & _).
Qed.

Lemma remove_slot_inv used l us i :
  us_inv used l us -> (i < UDP_MAX_LISTENERS)%nat -> ul_in_use (slot us i) = 1 ->
  exists used' l', us_inv used' l' (remove_slot i us).
Proof. intros H Hi Hu. destruct (remove_slot_spec _ _ _ _ H Hi Hu) as (p & _ & _ & _ & _ & ?). eauto. Qed.

Lemma resolve_spec used l us id i :
  us_inv used l us -> resolve id us = Some i ->
  (i < UDP_MAX_LISTENERS)%nat /\ ul_in_use (slot us i) = 1
  /\ Z.of_nat i = u8 id /\ u8 (id / 256) = ul_generation_count (slot us i).
Proof.
  intros Hinv. unfold resolve. change 0xFF with (Z.ones 8). rewrite Z.land_ones, Z.shiftr_div_pow2 by lia.
  change (2 ^ 8) with 256. rewrite (u8_small (id mod 256)) by word. fold (u8 id).
  pose proof (u8_range id) as Hr. unfold is_u8 in Hr.
  destruct (Z.leb_spec (Z.of_nat UDP_MAX_LISTENERS) (u8 id)); [done |]. cbn [orb].
  destruct (Z.eqb_spec 0 (ul_in_use (slot us (Z.to_nat (u8 id))))); [done |]. cbn [orb].
  destruct (Z.eqb_spec (u8 (id / 256)) (ul_generation_count (slot us (Z.to_nat (u8 id))))); [| done].
  intros [= <-]. assert (Hi : (Z.to_nat (u8 id) < UDP_MAX_LISTENERS)%nat) by lia.
  split; [done |]. destruct (ui_slot _ _ _ Hinv _ Hi) as [_ _ _ [[? _] | [? _]]]; [lia |].
  split; [done |]. split; [lia | done].
Qed.

Lemma remove_listener_inv used l us id :
  us_inv used l us -> exists used' l', us_inv used' l' (udp_source_remove_listener id us).
Proof.
  intros Hinv. unfold udp_source_remove_listener. destruct (resolve id us) as [i |] eqn:E; [| eauto].
  destruct (resolve_spec _ _ _ _ _ Hinv E) as (Hi & Hu & _). by eapply remove_slot_inv.
Qed.

Lemma on_netif_spec np L : on_netif np L = true <-> ul_netif L = Some np /\ ul_in_use L = 1.
Proof. unfold on_netif. by rewrite andb_true_iff, bool_decide_eq_true, Z.eqb_eq. Qed.

Definition us_valid (us : usrc) : Prop := exists used l, us_inv used l us.

(** [udp_source_remove_all_on_netif] closes exactly the slots in use on the
    interface. *)
Lemma remove_all_spec us np :
  us_valid us ->
  us_valid (udp_source_remove_all_on_netif (Some np) us)
  /\ forall j, (j < UDP_MAX_LISTENERS)%nat ->
     slot (udp_source_remove_all_on_netif (Some np) us) j
     = if on_netif np (slot us j) then closed (slot us j) else slot us j.
Proof.
  intros Hv. unfold udp_source_remove_all_on_netif.
  apply (fold_slots (remove_if_on np) (fun L => if on_netif np L then closed L else L) us_valid);
    [| done].
  clear us Hv. intros us i (used & l & Hinv) Hi. unfold remove_if_on.
  destruct (on_netif np (slot us i)) eqn:E.
  - apply on_netif_spec in E as [_ Hu].
    destruct (remove_slot_spec _ _ _ _ Hinv Hi Hu) as (p & _ & _ & _ & Hs & Hinv').
    split; [by eexists _, _ | exact Hs].
  - split; [by exists used, l |]. intros j. by case_decide; subst.
Qed.

(** One rebind of [udp_source_netif_ip_changed]: either the control block has
    the new address, or another bound one is in the way and nothing changes. *)
Lemma ip_changed_slot_spec used l us i np s :
  us_inv used l us -> (i < UDP_MAX_LISTENERS)%nat -> on_netif np (slot us i) = true ->
  let p := slot_pcb us i in
  let us' := ip_changed_slot np s us i in
  p ∈ l /\ us_inv used l us' /\ s_listeners us' = s_listeners us
  /\ ((us' = us /\ exists j, j ∈ l /\ j <> p
         /\ clash (pcb_of (us_udp us) j) (nif_ip_addr (netif_of s np))
              (up_local_port (pcb_of (us_udp us) p)) = true)
      \/ (up_local_ip (pcb_of (us_udp us') p) = nif_ip_addr (netif_of s np)
          /\ up_local_port (pcb_of (us_udp us') p) = up_local_port (pcb_of (us_udp us) p)
          /\ up_recv (pcb_of (us_udp us') p) = up_recv (pcb_of (us_udp us) p)
          /\ forall q, q <> p -> pcb_of (us_udp us') q = pcb_of (us_udp us) q)).
Proof.
  intros Hinv Hi [Hn Hu]%on_netif_spec. cbn zeta. unfold ip_changed_slot.
  rewrite Hu, bool_decide_true by done. cbn [negb Z.eqb andb].
  pose proof Hinv as [Hudp _ Hs _].
  destruct (Hs i Hi) as [_ _ _ [[? _] | (_ & p & np' & Ep & _ & Hpl & _ & _ & Hport)]]; [lia |].
  assert (Esp : slot_pcb us i = p) by (unfold slot_pcb; by rewrite Ep). rewrite Esp.
  assert (Hpu : p ∈ used) by (by apply Hudp).
  destruct (bind_spec used l (us_udp us) p (nif_ip_addr (netif_of s np))
    (up_local_port (pcb_of (us_udp us) p)) (proj1 Hudp) (proj1 (proj2 Hudp)) Hpu)
    as (e & u & Eb & [(-> & -> & Hc) | (-> & Hok & _ & _ & Hkk & _ & Ha & Hr & Hra & Hoth)]);
    rewrite Eb; cbn [snd]; (split; [done |]).
  - split; [by destruct us | split; [by destruct us |]]. left. split; [by destruct us | done].
  - rewrite bool_decide_true in Hok by done.
    pose proof (udp_bind_inv _ _ _ _ _ _ _ _ Hudp Hpu Eb) as (l2 & Hu2 & _).
    assert (l2 = l) as ->.
    { rewrite <- (udp_ok_pcbs _ _ _ (proj1 Hu2)). by apply udp_ok_pcbs with used. }
    split; [| split; [done |]].
    + apply (us_inv_frame used l); auto. intros q Hq. destruct (decide (q = p)) as [-> | Hqp].
      * split_and!; [done | done | apply Hkk; lia].
      * by rewrite Hoth.
    + right. cbn. split; [done | split; [apply Hkk; lia | done]].
Qed.

Lemma ip_changed_slot_off used l us i np s :
  us_inv used l us -> (i < UDP_MAX_LISTENERS)%nat -> on_netif np (slot us i) = false ->
  ip_changed_slot np s us i = us.
Proof.
  intros Hinv Hi E. unfold ip_changed_slot. destruct (negb _ && _) eqn:E2; [| done]. exfalso.
  apply andb_true_iff in E2 as [E3%negb_true_iff%Z.eqb_neq E4%bool_decide_eq_true].
  destruct (ui_slot _ _ _ Hinv i Hi) as [_ _ _ [[? _] | [? _]]]; [lia |].
  rewrite (proj2 (on_netif_spec np (slot us i))) in E; done.
Qed.

Lemma ip_changed_inv used l us np s :
  us_inv used l us -> us_inv used l (udp_source_netif_ip_changed np s us).
Proof.
  intros Hinv. destruct np as [np |]; [| done]. cbn [udp_source_netif_ip_changed].
  apply fold_left_ind; [done |]. clear us Hinv. intros us i Hi%elem_of_seq Hinv.
  destruct (on_netif np (slot us i)) eqn:E.
  - by destruct (ip_changed_slot_spec used l us i np s) as (_ & ? & _); [| lia | |].
  - erewrite ip_changed_slot_off; [done | done | lia | done].
Qed.

Lemma poll_inv used l us id r us' :
  us_inv used l us -> udp_source_poll_rx id us = (r, us') -> us_inv used l us'.
Proof.
  intros Hinv. unfold udp_source_poll_rx. destruct (resolve id us) as [i |] eqn:E; [| by intros [= _ <-]].
  destruct (resolve_spec _ _ _ _ _ Hinv E) as (Hi & _).
  destruct (_ =? 0); intros [= _ <-]; [done |].
  destruct (ui_slot _ _ _ Hinv i Hi) as [_ _ Hd _]. apply us_inv_upd; auto.
Qed.

Lemma rx_fill_spec p addr port m :
  Zlen (rm_data m) = UDP_RX_BUF_SIZE -> p_tot_len p <= 65535 ->
  let n := Z.min (p_tot_len p) UDP_RX_BUF_SIZE in
  rm_src_ip (rx_fill p addr port m) = addr /\ rm_src_port (rx_fill p addr port m) = port
  /\ rm_data_len (rx_fill p addr port m) = n /\ rm_valid (rx_fill p addr port m) = 1
  /\ Zlen (rm_data (rx_fill p addr port m)) = UDP_RX_BUF_SIZE
  /\ take (Z.to_nat n) (rm_data (rx_fill p addr port m)) = take (Z.to_nat n) (p_bytes p).
Proof.
  intros Hd Hp. cbn zeta. unfold rx_fill.
  assert (H0 : 0 <= p_tot_len p) by apply Zlen_nonneg.
  rewrite (u16_small (p_tot_len p)) by (unfold is_u16; lia).
  assert (En : (if UDP_RX_BUF_SIZE <? p_tot_len p then UDP_RX_BUF_SIZE else p_tot_len p)
               = Z.min (p_tot_len p) UDP_RX_BUF_SIZE) by (zif; lia).
  rewrite En. set (n := Z.min _ _). cbn [rm_src_ip rm_src_port rm_data rm_data_len rm_valid].
  assert (Hn : 0 <= n <= 256 /\ n <= p_tot_len p) by (unfold n, UDP_RX_BUF_SIZE; lia).
  rewrite pbuf_copy_partial_spec by lia. change (Z.to_nat 0) with 0%nat. rewrite drop_0.
  assert (Hl : length (take (Z.to_nat n) (p_bytes p)) = Z.to_nat n)
    by (rewrite length_take; unfold p_tot_len, Zlen in Hn; lia).
  unfold Zlen, UDP_RX_BUF_SIZE in Hd.
  split_and!; try done.
  - unfold Zlen. rewrite length_put by (rewrite Hl; lia). done.
  - rewrite put0_drop with (k := Z.to_nat n) by lia. by rewrite take_app_length' by lia.
Qed.

(** Whatever the packet's length, the copy stays inside the slot's buffer. *)
Lemma rx_fill_ok p addr port m :
  Zlen (rm_data m) = UDP_RX_BUF_SIZE ->
  rm_valid (rx_fill p addr port m) = 1
  /\ Zlen (rm_data (rx_fill p addr port m)) = UDP_RX_BUF_SIZE.
Proof.
  intros Hd. unfold rx_fill. set (n := if _ <? _ then _ else _).
  cbn [rm_valid rm_data]. split; [done |].
  assert (H0 : 0 <= p_tot_len p) by apply Zlen_nonneg.
  assert (Hw := u16_range (p_tot_len p)).
  assert (Hle : u16 (p_tot_len p) <= p_tot_len p) by (unfold u16; apply Z.mod_le; lia).
  assert (Hn : 0 <= n <= 256 /\ n <= p_tot_len p)
    by (unfold n, UDP_RX_BUF_SIZE, is_u16 in *; zif; lia).
  clearbody n. rewrite pbuf_copy_partial_spec by lia. change (Z.to_nat 0) with 0%nat. rewrite drop_0.
  unfold Zlen, UDP_RX_BUF_SIZE in *. unfold p_tot_len, Zlen in Hn.
  rewrite length_put by (rewrite length_take; lia). done.
Qed.

(** The callback of a control block the registry owns finds its slot in use and
    frees the packet. *)
Lemma rx_callback_spec used l us p q addr port :
  us_inv used l us -> p ∈ used -> up_recv (pcb_of (us_udp us) p) = Recv_udp_rx_callback ->
  exists i us', (i < UDP_MAX_LISTENERS)%nat /\ ul_pcb (slot us i) = Some p
    /\ ul_in_use (slot us i) = 1
    /\ udp_rx_callback (up_recv_arg (pcb_of (us_udp us) p)) (Some q) addr port us = (true, us')
    /\ us_inv used l us'
    /\ us' = upd_slot i (fun L => if rm_valid (ul_rx_msg L) =? 1
                                  then ul_set_drop_count (u32 (ul_rx_drop_count L + 1)) L
                                  else ul_set_msg (rx_fill q addr port (ul_rx_msg L)) L) us.
Proof.
  intros Hinv Hp Hcb. pose proof Hinv as [_ _ Hs Ho].
  destruct (Ho p Hp Hcb) as (i & Hi & Ha & Hip).
  assert (Hu : ul_in_use (slot us i) = 1).
  { destruct (Hs i Hi) as [_ _ _ [[_ E] | [? _]]]; [congruence | done]. }
  eexists i, _. split; [done | split; [done | split; [done | split; [| split; [| reflexivity]]]]].
  - unfold udp_rx_callback. rewrite Ha, u8_small by (unfold is_u8, UDP_MAX_LISTENERS in *; lia).
    rewrite Nat2Z.id, Hu, Z.eqb_refl. rewrite (proj2 (Z.ltb_lt _ _)) by lia. cbn [negb andb].
    rewrite (Z.eqb_sym 1). unfold upd_slot. by destruct (rm_valid _ =? 1).
  - destruct (Hs i Hi) as [_ V D _].
    destruct (rx_fill_ok q addr port (ul_rx_msg (slot us i)) D) as (Hv & Hd).
    apply us_inv_upd; [done | done | intros L; by destruct (_ =? 1) | |];
      destruct (_ =? 1) eqn:Ev; auto.
Qed.

(** Sending does not change the registry. *)
Lemma data_send_us used l us id np a port data s err us' s' :
  us_inv used l us -> udp_source_data_send id np a port data us s = (err, us', s') -> us' = us.
Proof.
  intros Hinv. unfold udp_source_data_send.
  destruct np as [np |]; [| by intros [= _ <- _]]. destruct data as [data |]; [| by intros [= _ <- _]].
  destruct (resolve id us) as [i |] eqn:E; [| by intros [= _ <- _]].
  destruct (_ =? 0); [by intros [= _ <- _] |].
  destruct (net_pbuf_alloc _ _ _) as [[p |] s1]; [| by intros [= _ <- _]].
  destruct (resolve_spec _ _ _ _ _ Hinv E) as (Hi & Hu & _).
  destruct (ui_slot _ _ _ Hinv i Hi) as [_ _ _ [[? _] | (_ & q & np' & Eq & _ & _ & _ & _ & Hport)]]; [lia |].
  assert (Esp : slot_pcb us i = q) by (unfold slot_pcb; by rewrite Eq). rewrite Esp. unfold udp_sendto_if.
  rewrite (proj2 (Z.eqb_neq _ 0)) by lia. rewrite bool_decide_eq_true_2 by done. cbn [negb].
  destruct (udp_header_pbuf _ _) as [[? |] ?]; [| by intros [= _ <- _]; destruct us].
  destruct (negb _ && _); [by intros [= _ <- _]; destruct us |].
  destruct (ip_output_if _ _ _ _ _ _ _ _) as [? ?]. by intros [= _ <- _]; destruct us.
Qed.

Lemma data_send_keeps id np a port data us s err us' s' :
  udp_source_data_send id np a port data us s = (err, us', s') -> keeps s s'.
Proof.
  unfold udp_source_data_send.
  destruct np as [np |]; [| by intros [= _ _ <-]]. destruct data as [data |]; [| by intros [= _ _ <-]].
  destruct (resolve id us) as [i |]; [| by intros [= _ _ <-]].
  destruct (_ =? 0); [by intros [= _ _ <-] |].
  destruct (net_pbuf_alloc _ _ s) as [[p |] s1] eqn:E; apply pbuf_alloc_keeps in E as Hk;
    [| by intros [= _ _ <-]].
  destruct (udp_sendto_if _ _ _ _ _ _ s1) as [[e u] s2] eqn:E2. intros [= _ _ <-].
  etrans; [exact Hk | by eapply udp_sendto_if_keeps].
Qed.

(** ** Ids and queries *)

Lemma make_id_val us i : (i < UDP_MAX_LISTENERS)%nat -> is_u8 (ul_generation_count (slot us i)) ->
  make_id i us = ul_generation_count (slot us i) * 256 + Z.of_nat i.
Proof.
  intros Hi Hg. unfold make_id, is_u8, UDP_MAX_LISTENERS in *.
  rewrite Z.lor_comm, lor_shiftl_add by (cbn; lia). change (2 ^ 8) with 256.
  rewrite u16_small by (unfold is_u16; lia). lia.
Qed.

Lemma resolve_iff used l us id i :
  us_inv used l us -> is_u16 id ->
  resolve id us = Some i
  <-> (i < UDP_MAX_LISTENERS)%nat /\ ul_in_use (slot us i) = 1 /\ id = make_id i us.
Proof.
  intros Hinv Hid. split.
  - intros E. destruct (resolve_spec _ _ _ _ _ Hinv E) as (Hi & Hu & Hl & Hg).
    split; [done | split; [done |]]. destruct (ui_slot _ _ _ Hinv i Hi) as [G _ _ _].
    rewrite make_id_val by done. word.
  - intros (Hi & Hu & ->). destruct (ui_slot _ _ _ Hinv i Hi) as [G _ _ _].
    rewrite make_id_val by done. unfold is_u8, UDP_MAX_LISTENERS in *.
    set (g := ul_generation_count (slot us i)) in *. unfold resolve.
    change 0xFF with (Z.ones 8). rewrite Z.land_ones, Z.shiftr_div_pow2 by lia.
    change (2 ^ 8) with 256.
    assert (E1 : u8 ((g * 256 + Z.of_nat i) mod 256) = Z.of_nat i) by word.
    assert (E2 : u8 ((g * 256 + Z.of_nat i) / 256) = g) by word.
    rewrite E1, E2, Nat2Z.id. fold g. rewrite Hu, Z.eqb_refl.
    rewrite (proj2 (Z.leb_gt _ _)) by (unfold UDP_MAX_LISTENERS; lia). done.
Qed.

(** The slots in use on an interface, in order. *)
Fixpoint slots_on (np : netif_ptr) (k : nat) (ls : list udp_listener) : list nat :=
  match ls with
  | [] => []
  | l :: ls => if on_netif np l then k :: slots_on np (S k) ls else slots_on np (S k) ls
  end.

Lemma slots_on_length np k ls : (length (slots_on np k ls) <= length ls)%nat.
Proof. revert k; induction ls as [| L ls IH]; intros k; cbn; [lia |]. specialize (IH (S k)). case_match; cbn; lia. Qed.

Lemma slots_on_elem np ls k i :
  i ∈ slots_on np k ls <-> exists j L, i = (k + j)%nat /\ ls !! j = Some L /\ on_netif np L = true.
Proof.
  revert k; induction ls as [| L ls IH]; intros k; cbn [slots_on].
  - split; [intros ?%not_elem_of_nil; done | intros (j & L & _ & ? & _); done].
  - assert (H : i ∈ slots_on np (S k) ls <->
      exists j L', i = (k + S j)%nat /\ (L :: ls) !! S j = Some L' /\ on_netif np L' = true).
    { rewrite IH. split; intros (j & L' & ? & ? & ?); exists j, L'; split_and!; try done; lia. }
    destruct (on_netif np L) eqn:E; [rewrite elem_of_cons, H | rewrite H]; split.
    + intros [-> | (j & L' & ? & ? & ?)]; [exists 0%nat, L; split_and!; try done; lia | by exists (S j), L'].
    + intros ([| j] & L' & -> & HL & HO); [left; lia | right; by exists j, L'].
    + intros (j & L' & ? & ? & ?). by exists (S j), L'.
    + intros ([| j] & L' & -> & HL & HO); [cbn in HL; congruence | by exists j, L'].
Qed.

Lemma nth_on_spec np n c k ls :
  0 <= c <= n -> n <= 255 ->
  nth_on np n c k ls = slots_on np k ls !! Z.to_nat (n - c).
Proof.
  revert c k; induction ls as [| L ls IH]; intros c k Hc Hl; cbn [nth_on slots_on]; [done |].
  destruct (on_netif np L); [| apply IH; cbn [length] in Hl; lia].
  destruct (Z.eqb_spec n c) as [-> | Hne].
  - rewrite Z.sub_diag. done.
  - rewrite u8_small by (unfold is_u8; lia). rewrite IH by lia.
    replace (Z.to_nat (n - c)) with (S (Z.to_nat (n - (c + 1)))) by lia. done.
Qed.

Lemma nth_on_none np n c k ls :
  0 <= c -> is_u8 n -> c + Z.of_nat (length (slots_on np k ls)) <= n ->
  nth_on np n c k ls = None.
Proof.
  revert c k; induction ls as [| L ls IH]; intros c k Hc Hn Hl; cbn [nth_on slots_on] in *; [done |].
  destruct (on_netif np L); [| apply IH; done]. cbn [length] in Hl.
  rewrite (proj2 (Z.eqb_neq n c)) by lia. unfold is_u8 in Hn.
  rewrite u8_small by (unfold is_u8; lia). apply IH; [lia | done | lia].
Qed.

Lemma nth_on_lookup np n k ls :
  is_u8 n -> (length ls <= UDP_MAX_LISTENERS)%nat ->
  nth_on np n 0 k ls = slots_on np k ls !! Z.to_nat n.
Proof.
  intros Hn Hl. pose proof (slots_on_length np k ls). unfold UDP_MAX_LISTENERS, is_u8 in *.
  destruct (Z_lt_le_dec n (Z.of_nat (length (slots_on np k ls)))).
  - rewrite nth_on_spec by lia. by rewrite Z.sub_0_r.
  - rewrite nth_on_none by (unfold is_u8; lia). symmetry. apply lookup_ge_None. lia.
Qed.

Lemma count_spec np ls c k :
  0 <= c -> c + Z.of_nat (length ls) <= 255 ->
  fold_left (fun c l => if on_netif np l then u8 (c + 1) else c) ls c
  = c + Z.of_nat (length (slots_on np k ls)).
Proof.
  revert c k; induction ls as [| L ls IH]; intros c k Hc Hl; cbn [fold_left slots_on]; [cbn; lia |].
  destruct (on_netif np L); [| apply IH; cbn [length] in Hl; lia].
  cbn [length] in Hl. rewrite u8_small by (unfold is_u8; lia). rewrite (IH (c + 1) (S k)) by lia. cbn [length]. lia.
Qed.

(** ** Properties *)

(** The calls of the registry's interface, and the stack handing it a
    datagram. *)
Inductive us_step : usrc -> usrc -> Prop :=
| us_add us np k ptr s err id us' : is_u16 k ->
    udp_source_add_listener np k ptr s us = (err, id, us') -> us_step us us'
| us_remove_listener us id : us_step us (udp_source_remove_listener id us)
| us_remove_all us np : us_step us (udp_source_remove_all_on_netif np us)
| us_ip_changed us np s : us_step us (udp_source_netif_ip_changed np s us)
| us_send us id np a port data s err us' s' :
    udp_source_data_send id np a port data us s = (err, us', s') -> us_step us us'
| us_poll us id r us' : udp_source_poll_rx id us = (r, us') -> us_step us us'
| us_search us inp b d r u' : udp_demux inp b d (us_udp us) = (r, u') -> us_step us (set_us_udp u' us)
| us_callback us p q addr port freed us' : p ∈ pcbs (us_udp us) ->
    up_recv (pcb_of (us_udp us) p) = Recv_udp_rx_callback ->
    udp_rx_callback (up_recv_arg (pcb_of (us_udp us) p)) (Some q) addr port us = (freed, us') ->
    us_step us us'.

Lemma ip_changed_listeners np s us : s_listeners (udp_source_netif_ip_changed np s us) = s_listeners us.
Proof.
  destruct np as [np |]; [| done]. cbn [udp_source_netif_ip_changed].
  apply (fold_left_ind (fun us' => s_listeners us' = s_listeners us)); [done |]. intros us1 i _ E. unfold ip_changed_slot. by destruct (_ && _).
Qed.

Lemma us_step_inv us us' : us_step us us' -> us_valid us -> us_valid us'.
Proof.
  intros Hs (used & l & Hinv). destruct Hs.
  - destruct np as [np |], ptr; cbn in H0; try (by injection H0 as _ _ <-; exists used, l).
    destruct (add_listener_spec _ _ _ _ _ _ _ _ _ Hinv H H0)
      as [(_ & i & p & _ & _ & _ & Hi & _) | [(_ & _ & Hi & _) | (_ & _ & -> & _)]];
      eexists _, _; eassumption.
  - by eapply remove_listener_inv.
  - destruct np as [np |]; [| by exists used, l]. apply remove_all_spec. by exists used, l.
  - exists used, l. by apply ip_changed_inv.
  - exists used, l. by rewrite (data_send_us _ _ _ _ _ _ _ _ _ _ _ _ Hinv H).
  - exists used, l. by eapply poll_inv.
  - destruct (udp_demux_inv _ _ _ _ _ _ _ _ (ui_udp _ _ _ Hinv) H) as (l' & Hi & Hp & Hf).
    exists used, l'. apply (us_inv_frame used l); auto.
    + intros q _. by destruct (Hf q) as (? & ? & _ & ?).
    + intros q Hq. by rewrite Hp.
  - assert (Hpu : p ∈ used).
    { apply (ui_udp _ _ _ Hinv). by rewrite <- (udp_ok_pcbs _ _ _ (proj1 (ui_udp _ _ _ Hinv))). }
    destruct (rx_callback_spec _ _ _ _ q addr port Hinv Hpu H0) as (i & us1 & _ & _ & _ & E & Hi & _).
    rewrite E in H1. injection H1 as _ <-. by exists used, l.
Qed.

Lemma us_steps_inv us us' : rtc us_step us us' -> us_valid us -> us_valid us'.
Proof. induction 1; eauto using us_step_inv. Qed.

(** The socket registry stays consistent: starting from any state of the UDP
    layer in which no control block uses the registry's callback, after any
    sequence of registry calls and received datagrams every slot is either
    closed, with no control block, or open, with a control block of its own that
    is on the stack's list of bound blocks, has the registry's callback with
    this slot's number as argument and a port from 1 to 65535, and the slot's id
    resolves to the slot; no two slots share a control block, so no datagram
    is delivered to a slot that is closed or belongs to another socket. *)
Theorem us_reachable_ok used l u us
  (Hu : udp_inv used l u)
  (Hfresh : forall p, p ∈ used -> up_recv (pcb_of u p) <> Recv_udp_rx_callback)
  (Hr : rtc us_step (usrc_init u) us) :
  length (s_listeners us) = 16%nat
  /\ (forall i, (i < 16)%nat ->
      (ul_in_use (slot us i) = 0 /\ ul_pcb (slot us i) = None)
      \/ (ul_in_use (slot us i) = 1 /\ resolve (make_id i us) us = Some i
          /\ exists p, ul_pcb (slot us i) = Some p /\ p ∈ pcbs (us_udp us)
            /\ up_recv (pcb_of (us_udp us) p) = Recv_udp_rx_callback
            /\ up_recv_arg (pcb_of (us_udp us) p) = Z.of_nat i
            /\ 1 <= up_local_port (pcb_of (us_udp us) p) <= 65535))
  /\ forall i j p, (i < 16)%nat -> (j < 16)%nat ->
      ul_pcb (slot us i) = Some p -> ul_pcb (slot us j) = Some p -> i = j.
Proof.
  destruct (us_steps_inv _ _ Hr) as (used' & l' & Hinv).
  { exists used, l. by apply us_inv_init. }
  pose proof Hinv as [Hu' Hl Hs _]. split; [done |]. split.
  - intros i Hi. destruct (Hs i Hi) as [G _ _ [? | (Huse & p & np & Ep & _ & Hp & Hcb & Ha & Hport)]];
      [by left |]. right. split; [done |]. split.
    + apply (resolve_iff _ _ _ _ _ Hinv); [| done]. rewrite make_id_val by done.
      unfold is_u8, is_u16 in *. lia.
    + exists p. rewrite (udp_ok_pcbs _ _ _ (proj1 Hu')). split_and!; try done; lia.
  - intros i j p Hi Hj. eapply slot_pcb_inj; by apply Hs.
Qed.

(** Socket ids: an id resolves to a slot exactly when the slot is open and the
    id is the one [make_id] builds from the slot and its generation. *)
Theorem socket_id_roundtrip used l us id i (Hinv : us_inv used l us) (Hid : is_u16 id) :
  resolve id us = Some i
  <-> (i < UDP_MAX_LISTENERS)%nat /\ ul_in_use (slot us i) = 1 /\ id = make_id i us.
Proof. by apply (resolve_iff used l). Qed.

(** ** Generations *)

(** Slot [i] was closed by the step. *)
Definition closing (i : nat) (us us' : usrc) : Z :=
  if (ul_in_use (slot us i) =? 1) && (ul_in_use (slot us' i) =? 0) then 1 else 0.
(** A run of the registry in which slot [i] is closed [n] times. *)
Inductive us_run (i : nat) : Z -> usrc -> usrc -> Prop :=
| ur_here us : us_run i 0 us us
| ur_step n us us1 us2 : us_run i n us us1 -> us_step us1 us2 -> us_run i (n + closing i us1 us2) us us2.

Lemma slot_gen us i : us_valid us -> (i < UDP_MAX_LISTENERS)%nat -> is_u8 (ul_generation_count (slot us i)).
Proof. intros (used & l & Hinv) Hi. by destruct (ui_slot _ _ _ Hinv i Hi). Qed.

Lemma gen_kept us us' i : us_valid us -> (i < UDP_MAX_LISTENERS)%nat ->
  ul_generation_count (slot us' i) = ul_generation_count (slot us i) ->
  (ul_in_use (slot us i) = 1 -> ul_in_use (slot us' i) <> 0) ->
  ul_generation_count (slot us' i) = u8 (ul_generation_count (slot us i) + closing i us us').
Proof.
  intros Hv Hi Hg Hu. unfold closing. pose proof (slot_gen us i Hv Hi) as G. rewrite Hg.
  destruct (Z.eqb_spec (ul_in_use (slot us i)) 1) as [E |]; cbn [andb]; [rewrite (proj2 (Z.eqb_neq _ 0)) by auto |]; unfold is_u8 in G; word.
Qed.
Lemma gen_same us us' i : us_valid us -> (i < UDP_MAX_LISTENERS)%nat -> slot us' i = slot us i ->
  ul_generation_count (slot us' i) = u8 (ul_generation_count (slot us i) + closing i us us').
Proof. intros Hv Hi E. apply gen_kept; [done | done | by rewrite E |]. rewrite E. lia. Qed.
Lemma gen_closed us us' i : ul_in_use (slot us i) = 1 -> slot us' i = closed (slot us i) ->
  ul_generation_count (slot us' i) = u8 (ul_generation_count (slot us i) + closing i us us').
Proof. intros Hu E. unfold closing. by rewrite E, Hu. Qed.
Lemma gen_upd us j f i : us_valid us -> (i < UDP_MAX_LISTENERS)%nat ->
  (forall L, ul_generation_count (f L) = ul_generation_count L /\ ul_in_use (f L) = ul_in_use L) ->
  ul_generation_count (slot (upd_slot j f us) i) = u8 (ul_generation_count (slot us i) + closing i us (upd_slot j f us)).
Proof.
  intros Hv Hi Hf. pose proof Hv as (used & l & Hinv). pose proof (ui_len _ _ _ Hinv) as Hl.
  destruct (decide ((j < UDP_MAX_LISTENERS)%nat)) as [Hj | Hj].
  - apply gen_kept; [done | done |..]; rewrite slot_upd by done; case_decide as E; [subst j; apply Hf | done | subst j; destruct (Hf (slot us i)) as [_ ->]; lia | lia].
  - apply gen_same; [done | done |]. unfold upd_slot, slot. cbn [s_listeners]. rewrite !nth_lookup, list_lookup_insert_ne; [done |]. lia.
Qed.

(** A step adds to the generation of a slot what it closes of it. *)
Lemma us_step_gen i us us' : us_step us us' -> us_valid us -> (i < UDP_MAX_LISTENERS)%nat ->
  ul_generation_count (slot us' i) = u8 (ul_generation_count (slot us i) + closing i us us').
Proof.
  intros Hs Hv Hi. pose proof Hv as (used & l & Hinv).
  destruct Hs as [us np k ptr s err id us' Hk E | us id | us np | us np s | us id np a port data s err us' s' E | us id r us' E | us inp b d r u' E | us p q addr port freed us' Hp Hcb E].
  - destruct np as [np |], ptr; cbn in E; try (injection E as _ _ <-; by apply gen_same).
    destruct (add_listener_spec _ _ _ _ _ _ _ _ _ Hinv Hk E)
      as [(_ & j & p & _ & Hu & _ & _ & _ & _ & _ & Hg & _ & _ & _ & _ & _ & _ & Hoth & _) | [(_ & _ & _ & Hls & _) | (_ & _ & -> & _)]].
    + destruct (decide (i = j)) as [-> | Hne]; [apply gen_kept; [done | done | done | lia] | apply gen_same; [done | done | by apply Hoth]].
    + apply gen_same; [done | done |]. unfold slot. by rewrite Hls.
    + by apply gen_same.
  - unfold udp_source_remove_listener. destruct (resolve id us) as [j |] eqn:Er; [| by apply gen_same].
    destruct (resolve_spec _ _ _ _ _ Hinv Er) as (Hj & Hu & _). destruct (remove_slot_spec _ _ _ _ Hinv Hj Hu) as (p & _ & _ & _ & Hsl & _).
    specialize (Hsl i). case_decide as Hji; [subst j; by apply gen_closed | by apply gen_same].
  - destruct np as [np |]; [| by apply gen_same]. destruct (remove_all_spec us np Hv) as [_ Hsl]. specialize (Hsl i Hi).
    destruct (on_netif np (slot us i)) eqn:Eo; [| by apply gen_same]. apply on_netif_spec in Eo as [_ Hu]. by apply gen_closed.
  - apply gen_same; [done | done |]. unfold slot. by rewrite ip_changed_listeners.
  - rewrite (data_send_us _ _ _ _ _ _ _ _ _ _ _ _ Hinv E). by apply gen_same.
  - unfold udp_source_poll_rx in E. destruct (resolve id us) as [j |]; [| injection E as _ <-; by apply gen_same].
    destruct (_ =? 0); injection E as _ <-; [by apply gen_same |]. by apply gen_upd.
  - by apply gen_same.
  - unfold udp_rx_callback in E. destruct (negb _); [injection E as _ <-; by apply gen_same |].
    destruct (1 =? _); injection E as _ <-; by apply gen_upd.
Qed.

Lemma us_run_gen i n us us' : us_run i n us us' -> us_valid us -> (i < UDP_MAX_LISTENERS)%nat ->
  us_valid us' /\ ul_generation_count (slot us' i) = u8 (ul_generation_count (slot us i) + n).
Proof.
  induction 1 as [us | n us us1 us2 _ IH Hs]; intros Hv Hi.
  - split; [done |]. pose proof (slot_gen us i Hv Hi) as G. unfold is_u8 in G. word.
  - destruct (IH Hv Hi) as [Hv1 Hg]. split; [by eapply us_step_inv |]. rewrite (us_step_gen i _ _ Hs Hv1 Hi), Hg. unfold u8. rewrite Zplus_mod_idemp_l. f_equal. lia.
Qed.

(** C34. Stale ids.  In any run of the registry from a state in which an id names an
    open slot, the id names that slot again exactly when the slot is open and the
    number of times it was closed is a multiple of 256.  So the id of a closed
    socket stays invalid for 255 closings of the slot, and the id of a new socket
    in it is another one; after the 256th closing the old id names the next
    socket opened there. *)
Theorem socket_id_stale us us' id i n
  (Hv : us_valid us) (Hid : is_u16 id) (Hopen : resolve id us = Some i) (Hrun : us_run i n us us') :
  resolve id us' = (if (n mod 256 =? 0) && (ul_in_use (slot us' i) =? 1) then Some i else None)
  /\ (make_id i us' = id <-> n mod 256 = 0)
  /\ (1 <= n <= 255 -> resolve id us' = None /\ make_id i us' <> id)
  /\ forall j, j <> i -> (j < UDP_MAX_LISTENERS)%nat -> make_id j us' <> id.
Proof.
  pose proof Hv as (used & l & Hinv). apply (resolve_iff _ _ _ _ _ Hinv Hid) in Hopen as (Hi & Hu & Eid).
  destruct (us_run_gen i n us us' Hrun Hv Hi) as [Hv' Hg]. pose proof Hv' as (used' & l' & Hinv').
  pose proof (slot_gen us i Hv Hi) as G. unfold is_u8 in G. pose proof (slot_gen us' i Hv' Hi) as G'. rewrite make_id_val in Eid by done.
  assert (Hid' : make_id i us' = id <-> n mod 256 = 0).
  { rewrite make_id_val by done. unfold u8 in Hg. rewrite Hg, Eid. Z.div_mod_to_equations. lia. }
  assert (Hoth : forall j, j <> i -> (j < UDP_MAX_LISTENERS)%nat -> make_id j us' <> id).
  { intros j Hj Hjl. rewrite make_id_val by (done || by apply slot_gen). unfold UDP_MAX_LISTENERS in *. rewrite Eid. lia. }
  assert (Hres : resolve id us' = if (n mod 256 =? 0) && (ul_in_use (slot us' i) =? 1) then Some i else None).
  { destruct (resolve id us') as [j |] eqn:Er.
    - apply (resolve_iff _ _ _ _ _ Hinv' Hid) in Er as (Hj & Huj & Ej). destruct (decide (j = i)) as [-> | Hne]; [| by destruct (Hoth j Hne Hj)].
      by rewrite (proj2 (Z.eqb_eq _ _) (proj1 Hid' (eq_sym Ej))), Huj.
    - destruct (Z.eqb_spec (n mod 256) 0) as [Hn |]; [| done]. destruct (Z.eqb_spec (ul_in_use (slot us' i)) 1) as [Hui |]; [| done]. cbn [andb].
      rewrite <- Er. apply (resolve_iff _ _ _ _ _ Hinv' Hid). by rewrite (proj2 Hid' Hn). }
  split; [done |]. split; [done |]. split; [| done]. intros Hn. rewrite Hid', Hres, Z.mod_small by lia. rewrite (proj2 (Z.eqb_neq n 0)) by lia. split; [done | lia].
Qed.

(** C35. Opening a socket: on a valid registry [udp_source_add_listener] either
    returns [ERR_OK] with an id that resolves to a slot that was closed, whose
    socket is bound to the address of the interface and the requested port (or
    to a free dynamic one for port 0), with an empty mailbox and zero counters,
    and leaves all other sockets alone; or [ERR_USE] when a bound control block
    holds the endpoint; or [ERR_MEM] when all 16 slots are open or the pool of
    20 control blocks is exhausted; or [ERR_VAL], exactly when the interface or the
    place for the id is [NULL], and then nothing changes; an error stores no id
    and changes no slot. *)
Theorem add_listener_result used l us np k ptr s err id us'
  (Hinv : us_inv used l us) (Hk : is_u16 k)
  (Hadd : udp_source_add_listener np k ptr s us = (err, id, us')) :
  us_valid us' /\ (err = ERR_VAL <-> np = None \/ ptr = false) /\
  ((err = ERR_OK /\ exists n i p, np = Some n /\ id = Some (make_id i us') /\ ul_in_use (slot us i) = 0
      /\ resolve (make_id i us') us' = Some i /\ ul_netif (slot us' i) = Some n
      /\ ul_pcb (slot us' i) = Some p
      /\ up_local_ip (pcb_of (us_udp us') p) = nif_ip_addr (netif_of s n)
      /\ (k <> 0 -> up_local_port (pcb_of (us_udp us') p) = k)
      /\ (k = 0 -> 49152 <= up_local_port (pcb_of (us_udp us') p) <= 65535)
      /\ rm_valid (ul_rx_msg (slot us' i)) = 0
      /\ ul_rx_count (slot us' i) = 0 /\ ul_rx_drop_count (slot us' i) = 0
      /\ forall j, j <> i -> slot us' j = slot us j)
   \/ (err = ERR_USE /\ id = None /\ s_listeners us' = s_listeners us
       /\ exists n q, np = Some n /\ q ∈ pcbs (us_udp us)
          /\ clash (pcb_of (us_udp us) q) (nif_ip_addr (netif_of s n)) k = true)
   \/ (err = ERR_MEM /\ id = None /\ us' = us
       /\ ((forall i, (i < UDP_MAX_LISTENERS)%nat -> ul_in_use (slot us i) = 1)
           \/ forall p, (p < MEMP_NUM_UDP_PCB)%nat -> p ∈ used))
   \/ (err = ERR_VAL /\ id = None /\ us' = us)).
Proof.
  assert (Hbad : np = None \/ ptr = false -> err = ERR_VAL /\ id = None /\ us' = us).
  { intros H. assert (E : udp_source_add_listener np k ptr s us = (ERR_VAL, None, us)) by (destruct H as [-> | ->]; [done | by destruct np]).
    rewrite E in Hadd. by injection Hadd as <- <- <-. }
  destruct np as [np |]; [| destruct Hbad as (-> & -> & ->); [by left |]; split; [by exists used, l |]; split; [split; auto | by right; right; right]].
  destruct ptr; [| destruct Hbad as (-> & -> & ->); [by right |]; split; [by exists used, l |]; split; [split; auto | by right; right; right]].
  clear Hbad. assert (Hval : err <> ERR_VAL -> (err = ERR_VAL <-> Some np = None \/ true = false)) by (intros Hn; split; [done | by intros [? | ?]]).
  destruct (add_listener_spec _ _ _ _ _ _ _ _ _ Hinv Hk Hadd)
    as [(-> & i & p & Hi & Hu0 & Hpu & Hinv' & -> & Ep & En & _ & Hc & Hd & Hv & Ha & Hkk & Hk0 & Hoth & _)
       | [(-> & -> & Hinv' & Hls & Hc & _) | (-> & -> & -> & Hfull)]]; (split; [| split; [by apply Hval |]]).
  - by eexists _, _.
  - left. split; [done |]. exists np, i, p.
    assert (Hres : resolve (make_id i us') us' = Some i).
    { destruct (ui_slot _ _ _ Hinv' i Hi) as [G _ _ [[_ E] | [E _]]]; [congruence |].
      apply (resolve_iff _ _ _ _ _ Hinv'); [| done]. rewrite make_id_val by done.
      unfold is_u8, is_u16, UDP_MAX_LISTENERS in *. lia. }
    do 8 (split; [done |]). split; [intros Ek; by apply Hk0 |]. done.
  - by eexists _, _.
  - right; left. split; [done | split; [done | split; [done |]]].
    destruct Hc as (q & Hq & Hc). exists np, q. split; [done | split; [| done]].
    by rewrite (udp_ok_pcbs _ _ _ (proj1 (ui_udp _ _ _ Hinv))).
  - by exists used, l.
  - right; right; by left.
Qed.

Lemma count_slots us np : length (s_listeners us) = UDP_MAX_LISTENERS ->
  udp_source_count_sockets (Some np) us = Z.of_nat (length (slots_on np 0 (s_listeners us))).
Proof. intros Hl. cbn. rewrite (count_spec _ _ 0 0) by (rewrite ?Hl; unfold UDP_MAX_LISTENERS; lia). done. Qed.

Lemma slots_on_slot us np i : length (s_listeners us) = UDP_MAX_LISTENERS ->
  i ∈ slots_on np 0 (s_listeners us) <-> (i < UDP_MAX_LISTENERS)%nat /\ on_netif np (slot us i) = true.
Proof.
  intros Hl. rewrite slots_on_elem. split.
  - intros (j & L & -> & HL & HO). cbn [Nat.add]. rewrite (slot_lookup _ _ _ HL).
    split; [rewrite <- Hl; by eapply lookup_lt_Some | done].
  - intros [Hi HO]. exists i, (slot us i). split; [done | split; [by apply lookup_slot | done]].
Qed.

Lemma slots_on_ext np k ls ls' :
  length ls = length ls' ->
  (forall i L L', ls !! i = Some L -> ls' !! i = Some L' -> on_netif np L' = on_netif np L) ->
  slots_on np k ls' = slots_on np k ls.
Proof.
  revert k ls'; induction ls as [| L ls IH]; intros k [| L' ls'] Hl Hf; try done. cbn.
  rewrite (Hf 0%nat L L') by done. rewrite (IH (S k) ls'); [done | by injection Hl |].
  intros i M M' HM HM'. by apply (Hf (S i)).
Qed.

Lemma remove_all_on us us' np np' :
  (forall j, (j < UDP_MAX_LISTENERS)%nat ->
     slot us' j = if on_netif np (slot us j) then closed (slot us j) else slot us j) ->
  forall j, (j < UDP_MAX_LISTENERS)%nat ->
    on_netif np' (slot us' j) = on_netif np' (slot us j) && negb (bool_decide (np' = np)).
Proof.
  intros Hs j Hj. rewrite (Hs j Hj). destruct (on_netif np (slot us j)) eqn:E.
  - apply on_netif_spec in E as [En Eu].
    assert (on_netif np' (closed (slot us j)) = false) as ->.
    { apply not_true_is_false. intros [_ H]%on_netif_spec. done. }
    destruct (decide (np' = np)) as [-> | Hne].
    + rewrite bool_decide_true by done. by rewrite andb_false_r.
    + symmetry. apply andb_false_iff. left. apply not_true_is_false.
      intros [H _]%on_netif_spec. congruence.
  - destruct (decide (np' = np)) as [-> | Hne]; [by rewrite E |].
    rewrite bool_decide_false by done. by rewrite andb_true_r.
Qed.

Lemma remove_all_ids used l used' l' us us' np id i :
  us_inv used l us -> us_inv used' l' us' -> is_u16 id ->
  (forall j, (j < UDP_MAX_LISTENERS)%nat ->
     slot us' j = if on_netif np (slot us j) then closed (slot us j) else slot us j) ->
  resolve id us' = Some i <-> resolve id us = Some i /\ ul_netif (slot us i) <> Some np.
Proof.
  intros Hinv Hinv' Hid Hs.
  rewrite (resolve_iff _ _ _ _ _ Hinv' Hid), (resolve_iff _ _ _ _ _ Hinv Hid).
  split; [intros (Hi & Hu & E) | intros ((Hi & Hu & E) & Hn)];
    pose proof (Hs i Hi) as Hsi; destruct (on_netif np (slot us i)) eqn:Eo.
  - rewrite Hsi in Hu. discriminate Hu.
  - rewrite Hsi in Hu. unfold make_id in *. rewrite Hsi in E. split; [done |].
    intros Hn. rewrite (proj2 (on_netif_spec np (slot us i))) in Eo; done.
  - apply on_netif_spec in Eo as [? _]. done.
  - unfold make_id in *. by rewrite Hsi.
Qed.

Lemma remove_all_counts us np : us_valid us ->
  udp_source_count_sockets (Some np) (udp_source_remove_all_on_netif (Some np) us) = 0
  /\ forall np', np' <> np ->
     udp_source_count_sockets (Some np') (udp_source_remove_all_on_netif (Some np) us)
     = udp_source_count_sockets (Some np') us.
Proof.
  intros Hv. destruct (remove_all_spec us np Hv) as [Hv' Hs].
  set (us' := udp_source_remove_all_on_netif _ _) in *. clearbody us'.
  destruct Hv as (used & l & Hinv), Hv' as (used' & l' & Hinv').
  pose proof (ui_len _ _ _ Hinv) as Hl. pose proof (ui_len _ _ _ Hinv') as Hl'. split.
  - rewrite count_slots by done. destruct (slots_on np 0 (s_listeners us')) as [| i ls] eqn:E; [done |].
    exfalso. assert (Hi : i ∈ slots_on np 0 (s_listeners us')) by (rewrite E; left).
    apply slots_on_slot in Hi as [Hi Ho]; [| done].
    rewrite (remove_all_on us us' np np Hs i Hi), bool_decide_true, andb_false_r in Ho by done. done.
  - intros np' Hne. rewrite !count_slots by done. do 2 f_equal. apply slots_on_ext; [by rewrite Hl |].
    intros i L L' HL HL'. pose proof (lookup_lt_Some _ _ _ HL) as Hi. rewrite Hl in Hi.
    rewrite <- (slot_lookup _ _ _ HL), <- (slot_lookup _ _ _ HL').
    rewrite (remove_all_on us us' np np' Hs i Hi), bool_decide_false by done. apply andb_true_r.
Qed.

(** Removing an interface's sockets: after [udp_source_remove_all_on_netif] no
    socket is open on the interface and none of their ids resolves; the sockets
    of every other interface stay open under the same ids, in the same number. *)
Theorem remove_all_result us np (Hv : us_valid us) :
  let us' := udp_source_remove_all_on_netif (Some np) us in
  us_valid us'
  /\ udp_source_count_sockets (Some np) us' = 0
  /\ (forall np', np' <> np ->
      udp_source_count_sockets (Some np') us' = udp_source_count_sockets (Some np') us)
  /\ forall id, is_u16 id -> resolve id us' =
       match resolve id us with
       | Some i => if bool_decide (ul_netif (slot us i) = Some np) then None else Some i
       | None => None
       end.
Proof.
  cbn zeta. destruct (remove_all_counts us np Hv) as [Hc Ho].
  destruct (remove_all_spec us np Hv) as [Hv' Hs].
  set (us' := udp_source_remove_all_on_netif _ _) in *. clearbody us'.
  split; [done | split; [done | split; [done |]]]. intros id Hid.
  destruct Hv as (used & l & Hinv), Hv' as (used' & l' & Hinv').
  pose proof (fun i => remove_all_ids _ _ _ _ us us' np id i Hinv Hinv' Hid Hs) as Hcase.
  destruct (resolve id us') as [i |].
  - destruct (proj1 (Hcase i) eq_refl) as [-> Hn]. by rewrite bool_decide_false.
  - destruct (resolve id us) as [i |]; [| done]. case_bool_decide as Hn; [done |].
    by discriminate (proj2 (Hcase i)).
Qed.

(** Enumeration: the sockets of an interface, counted by
    [udp_source_count_sockets] (at most 16), are listed by
    [udp_source_get_socket] for the numbers below the count: each answer carries
    the interface, an id that resolves to an open slot on it, and the local
    port of that id; every open socket of the interface is listed; and from the
    count on the answer has the invalid id. *)
Theorem get_socket_enumerates used l us np (Hinv : us_inv used l us) :
  let c := udp_source_count_sockets (Some np) us in
  0 <= c <= 16
  /\ (forall n, 0 <= n < c -> exists i, ul_netif (slot us i) = Some np
        /\ resolve (make_id i us) us = Some i
        /\ udp_source_get_socket (Some np) n us
           = mk_socket_info (Some np) (udp_source_get_local_port (make_id i us) us) (make_id i us))
  /\ (forall id i, is_u16 id -> resolve id us = Some i -> ul_netif (slot us i) = Some np ->
        exists n, 0 <= n < c /\ si_socket_id (udp_source_get_socket (Some np) n us) = id)
  /\ forall n, c <= n <= 255 ->
        udp_source_get_socket (Some np) n us = mk_socket_info None 0 UDP_SOCK_ID_INVALID.
Proof.
  cbn zeta. pose proof (ui_len _ _ _ Hinv) as Hl. rewrite (count_slots us np Hl).
  pose proof (slots_on_length np 0 (s_listeners us)) as Hlen. rewrite Hl in Hlen.
  unfold UDP_MAX_LISTENERS in Hlen.
  assert (Hget : forall n, 0 <= n <= 255 -> nth_on np n 0 0 (s_listeners us)
     = slots_on np 0 (s_listeners us) !! Z.to_nat n)
    by (intros n Hn; apply nth_on_lookup; [unfold is_u8; lia | by rewrite Hl]).
  assert (Hres : forall i, i ∈ slots_on np 0 (s_listeners us) ->
     ul_netif (slot us i) = Some np /\ resolve (make_id i us) us = Some i).
  { intros i [Hi [Hn Hu]%on_netif_spec]%slots_on_slot; [| done]. split; [done |].
    destruct (ui_slot _ _ _ Hinv i Hi) as [G _ _ _].
    apply (resolve_iff _ _ _ _ _ Hinv); [| done]. rewrite make_id_val by done.
    unfold is_u8, is_u16, UDP_MAX_LISTENERS in *. lia. }
  split; [lia |]. split; [| split].
  - intros n Hn. destruct (slots_on np 0 (s_listeners us) !! Z.to_nat n) as [i |] eqn:E.
    2: { apply lookup_ge_None in E. lia. }
    destruct (Hres i (list_elem_of_lookup_2 _ _ _ E)) as [Hni Hr].
    exists i. split; [done | split; [done |]]. unfold udp_source_get_socket, udp_source_get_local_port.
    by rewrite Hget, E, Hr by lia.
  - intros id i Hid Hr Hn.
    destruct (proj1 (resolve_iff _ _ _ _ _ Hinv Hid) Hr) as (Hi & Hu & ->).
    assert (Hin : i ∈ slots_on np 0 (s_listeners us))
      by (apply slots_on_slot; [done | split; [done | by apply on_netif_spec]]).
    apply list_elem_of_lookup in Hin as [k Hk]. pose proof (lookup_lt_Some _ _ _ Hk).
    exists (Z.of_nat k). split; [lia |]. unfold udp_source_get_socket.
    by rewrite Hget, Nat2Z.id, Hk by lia.
  - intros n Hn. unfold udp_source_get_socket. rewrite Hget by lia.
    by rewrite (proj2 (lookup_ge_None _ _)) by lia.
Qed.

Lemma upd_slot_slot us i f : length (s_listeners us) = UDP_MAX_LISTENERS -> (i < UDP_MAX_LISTENERS)%nat ->
  slot (upd_slot i f us) i = f (slot us i).
Proof. intros. by rewrite slot_upd, decide_True. Qed.

(** A datagram handed to the callback of an open socket. *)
Lemma mailbox_filled used l us id i p q addr port
  (Hinv : us_inv used l us) (Hid : is_u16 id) (Hopen : resolve id us = Some i)
  (Hp : ul_pcb (slot us i) = Some p) (Hq : p_tot_len q <= 65535) :
  let n := Z.min (p_tot_len q) 256 in
  exists us1, udp_rx_callback (up_recv_arg (pcb_of (us_udp us) p)) (Some q) addr port us = (true, us1)
  /\ (rm_valid (ul_rx_msg (slot us i)) = 0 ->
      exists m us2, udp_source_poll_rx id us1 = (Some m, us2)
        /\ rm_src_ip m = addr /\ rm_src_port m = port /\ rm_data_len m = n
        /\ take (Z.to_nat n) (rm_data m) = take (Z.to_nat n) (p_bytes q)
        /\ ul_rx_count (slot us2 i) = u32 (ul_rx_count (slot us i) + 1)
        /\ ul_rx_drop_count (slot us2 i) = ul_rx_drop_count (slot us i)
        /\ fst (udp_source_poll_rx id us2) = None)
  /\ (rm_valid (ul_rx_msg (slot us i)) <> 0 ->
      ul_rx_msg (slot us1 i) = ul_rx_msg (slot us i)
      /\ ul_rx_drop_count (slot us1 i) = u32 (ul_rx_drop_count (slot us i) + 1)).
Proof.
  cbn zeta. destruct (proj1 (resolve_iff _ _ _ _ _ Hinv Hid) Hopen) as (Hi & Hu & Eid).
  pose proof Hinv as [Hudp Hl Hs _].
  destruct (Hs i Hi) as [_ V D [[? _] | (_ & p' & np & Ep & _ & Hpl & Hcb & Ha & _)]]; [lia |].
  assert (p' = p) as -> by congruence.
  destruct (rx_callback_spec _ _ _ _ q addr port Hinv (uo_used _ _ _ (proj1 Hudp) _ Hpl) Hcb)
    as (j & us1 & Hj & Hjp & _ & E & Hinv1 & E1).
  assert (j = i) as -> by (by eapply slot_pcb_inj; [apply Hs | apply Hs | ..]).
  exists us1. split; [done |].
  assert (Es1 : slot us1 i = if rm_valid (ul_rx_msg (slot us i)) =? 1
     then ul_set_drop_count (u32 (ul_rx_drop_count (slot us i) + 1)) (slot us i)
     else ul_set_msg (rx_fill q addr port (ul_rx_msg (slot us i))) (slot us i))
    by (rewrite E1; by rewrite upd_slot_slot).
  split; intros Hv.
  2: { destruct V as [| V]; [done |]. rewrite Es1, V. done. }
  rewrite Hv in Es1. cbn [Z.eqb] in Es1.
  destruct (rx_fill_spec q addr port (ul_rx_msg (slot us i)) D Hq) as (F1 & F2 & F3 & F4 & _ & F6).
  set (m := rx_fill _ _ _ _) in *.
  assert (Hr1 : resolve id us1 = Some i).
  { apply (resolve_iff _ _ _ _ _ Hinv1 Hid). rewrite Es1. split; [done | split; [done |]].
    unfold make_id in *. by rewrite Es1. }
  set (us2 := upd_slot i (fun L => ul_set_rx_count (u32 (ul_rx_count L + 1)) (ul_set_valid 0 L)) us1).
  assert (Epoll : udp_source_poll_rx id us1 = (Some m, us2)).
  { unfold udp_source_poll_rx. rewrite Hr1, Es1. cbn [ul_rx_msg ul_set_msg]. by rewrite F4. }
  assert (Es2 : slot us2 i = ul_set_rx_count (u32 (ul_rx_count (slot us1 i) + 1)) (ul_set_valid 0 (slot us1 i)))
    by (apply upd_slot_slot; [apply Hinv1 | done]).
  pose proof (poll_inv _ _ _ _ _ _ Hinv1 Epoll) as Hinv2.
  exists m, us2. rewrite Es2, Es1. do 7 (split; [done |]).
  assert (Hr2 : resolve id us2 = Some i).
  { apply (resolve_iff _ _ _ _ _ Hinv2 Hid). rewrite Es2, Es1. split; [done | split; [done |]].
    unfold make_id in *. by rewrite Es2, Es1. }
  unfold udp_source_poll_rx. by rewrite Hr2, Es2.
Qed.

(** The callback touches no other slot. *)
Lemma callback_other used l us i p q addr port us1 j :
  us_inv used l us -> (i < UDP_MAX_LISTENERS)%nat -> ul_pcb (slot us i) = Some p ->
  udp_rx_callback (up_recv_arg (pcb_of (us_udp us) p)) (Some q) addr port us = (true, us1) ->
  (j < UDP_MAX_LISTENERS)%nat -> j <> i -> slot us1 j = slot us j.
Proof.
  intros Hinv Hi Hp E Hj Hji. pose proof Hinv as [Hudp Hl Hs _].
  destruct (Hs i Hi) as [_ _ _ [[_ ?] | (_ & p' & np & Ep & _ & Hpl & Hcb & _)]]; [congruence |].
  assert (p' = p) as -> by congruence.
  destruct (rx_callback_spec _ _ _ _ q addr port Hinv (uo_used _ _ _ (proj1 Hudp) _ Hpl) Hcb)
    as (k & us2 & Hk & Hkp & _ & E2 & _ & E3).
  assert (k = i) as -> by (by eapply slot_pcb_inj; [apply Hs | apply Hs | ..]).
  rewrite E in E2. injection E2 as ->. rewrite E3, slot_upd by done. by rewrite decide_False.
Qed.

(** The mailbox: a datagram handed to the callback of an open socket is, if
    the mailbox is empty, returned by the next [udp_source_poll_rx] with its
    sender's address and port and its first 256 bytes, after which the mailbox
    is empty and the read counter has advanced; if the mailbox is full, the
    datagram is dropped and counted and the waiting message stays as it is.
    The packet is freed in both cases. *)
Theorem mailbox_delivery used l us id i p q addr port
  (Hinv : us_inv used l us) (Hid : is_u16 id) (Hopen : resolve id us = Some i)
  (Hp : ul_pcb (slot us i) = Some p) (Hq : p_tot_len q <= 65535) :
  let n := Z.min (p_tot_len q) 256 in
  exists us1, udp_rx_callback (up_recv_arg (pcb_of (us_udp us) p)) (Some q) addr port us = (true, us1)
  /\ (rm_valid (ul_rx_msg (slot us i)) = 0 ->
      exists m us2, udp_source_poll_rx id us1 = (Some m, us2)
        /\ rm_src_ip m = addr /\ rm_src_port m = port /\ rm_data_len m = n
        /\ take (Z.to_nat n) (rm_data m) = take (Z.to_nat n) (p_bytes q)
        /\ ul_rx_count (slot us2 i) = u32 (ul_rx_count (slot us i) + 1)
        /\ ul_rx_drop_count (slot us2 i) = ul_rx_drop_count (slot us i)
        /\ fst (udp_source_poll_rx id us2) = None)
  /\ (rm_valid (ul_rx_msg (slot us i)) <> 0 ->
      ul_rx_msg (slot us1 i) = ul_rx_msg (slot us i)
      /\ ul_rx_drop_count (slot us1 i) = u32 (ul_rx_drop_count (slot us i) + 1)).
Proof. by apply (mailbox_filled used l). Qed.

(** The state of the rebinding loop after the slots [k]. *)
Record rebound (used : gset nat) (l : list nat) (us : usrc) (np : netif_ptr) (a : Z)
  (k : list nat) (us' : usrc) : Prop := {
  rb_inv : us_inv used l us';
  rb_slots : s_listeners us' = s_listeners us;
  rb_port : forall q, up_local_port (pcb_of (us_udp us') q) = up_local_port (pcb_of (us_udp us) q);
  rb_ip : forall q, up_local_ip (pcb_of (us_udp us') q) = up_local_ip (pcb_of (us_udp us) q)
    \/ exists i, (i < UDP_MAX_LISTENERS)%nat /\ on_netif np (slot us i) = true /\ slot_pcb us i = q;
  rb_done : forall i, i ∈ k -> on_netif np (slot us i) = true ->
    up_local_ip (pcb_of (us_udp us') (slot_pcb us i)) = a
}.

Lemma rebind_step used l us np s a0 k us' i :
  us_inv used l us -> nif_ip_addr (netif_of s np) <> 0 ->
  (forall i, (i < UDP_MAX_LISTENERS)%nat -> on_netif np (slot us i) = true ->
     up_local_ip (pcb_of (us_udp us) (slot_pcb us i)) = a0) ->
  (forall q, q ∈ l -> (forall i, (i < UDP_MAX_LISTENERS)%nat -> on_netif np (slot us i) = true ->
     slot_pcb us i <> q) -> up_local_ip (pcb_of (us_udp us) q) <> 0
     /\ up_local_ip (pcb_of (us_udp us) q) <> nif_ip_addr (netif_of s np)) ->
  rebound used l us np (nif_ip_addr (netif_of s np)) k us' -> (i < UDP_MAX_LISTENERS)%nat ->
  rebound used l us np (nif_ip_addr (netif_of s np)) (k ++ [i]) (ip_changed_slot np s us' i).
Proof.
  intros Hinv Ha Hold Hoth Hrb Hi. pose proof Hrb as [Hinv' Hsl Hport Hip Hdone].
  assert (Hslot : forall j, slot us' j = slot us j) by (intros j; unfold slot; by rewrite Hsl).
  assert (Hspcb : forall j, slot_pcb us' j = slot_pcb us j) by (intros j; unfold slot_pcb; by rewrite Hslot).
  destruct (on_netif np (slot us i)) eqn:Eon.
  2: { assert (ip_changed_slot np s us' i = us') as ->.
       { unfold ip_changed_slot. rewrite Hslot. destruct (negb _ && _) eqn:E2; [| done]. exfalso.
         apply andb_true_iff in E2 as [E3%negb_true_iff%Z.eqb_neq E4%bool_decide_eq_true].
         destruct (ui_slot _ _ _ Hinv i Hi) as [_ _ _ [[? _] | [? _]]]; [lia |].
         by rewrite (proj2 (on_netif_spec np (slot us i))) in Eon. }
       split; try done. intros j [Hj | ->%list_elem_of_singleton]%elem_of_app; [auto | congruence]. }
  set (p := slot_pcb us i).
  destruct (ip_changed_slot_spec used l us' i np s Hinv' Hi) as (Hpl & Hi2 & Hs2 & Hc); [by rewrite Hslot |].
  rewrite Hspcb in *. fold p in Hpl, Hc.
  destruct Hc as [(_ & j & Hj & Hjp & Hcl) | (Hpa & Hpp & _ & Hpo)].
  - exfalso. unfold clash in Hcl. apply andb_true_iff in Hcl as [Epj Hcl]. apply Z.eqb_eq in Epj.
    rewrite !Hport in Epj.
    assert (Hsame : up_local_ip (pcb_of (us_udp us) j) <> up_local_ip (pcb_of (us_udp us) p)).
    { intros E. pose proof (proj2 (proj2 (ui_udp _ _ _ Hinv)) j p Hj Hpl Hjp) as He.
      unfold clash, ip_addr_cmp in He. rewrite Epj, E, !Z.eqb_refl, orb_true_r in He. done. }
    assert (Hnot : forall i', (i' < UDP_MAX_LISTENERS)%nat -> on_netif np (slot us i') = true -> slot_pcb us i' <> j).
    { intros i' Hi' Ho' <-. apply Hsame. unfold p. by rewrite !Hold. }
    destruct (Hoth j Hj Hnot) as [H0 Hna].
    destruct (Hip j) as [E | (i' & Hi' & Ho' & Ep')]; [| by eapply Hnot].
    rewrite E in Hcl. unfold ip_addr_isany, ip_addr_cmp, IPADDR_ANY in Hcl.
    apply Z.eqb_neq in H0, Hna, Ha. rewrite H0, Hna, Ha in Hcl. done.
  - split.
    + done.
    + by rewrite Hs2.
    + intros q. destruct (decide (q = p)) as [-> | Hq]; [by rewrite Hpp | by rewrite Hpo].
    + intros q. destruct (decide (q = p)) as [-> | Hq]; [right; by exists i |]. rewrite Hpo by done. apply Hip.
    + intros j [Hj | ->%list_elem_of_singleton]%elem_of_app Ho; [| done].
      destruct (decide (slot_pcb us j = p)) as [-> | Hq]; [done |]. rewrite Hpo by done. auto.
Qed.

(** Changing an interface's address: when all sockets of the interface have
    one (old) address and no other bound control block has the new address or
    the wildcard, [udp_source_netif_ip_changed] rebinds every socket of the
    interface to the new address with its port and id unchanged, and leaves
    every other control block's endpoint alone. *)
Theorem ip_changed_rebinds used l us np s a0
  (Hinv : us_inv used l us) (Ha : nif_ip_addr (netif_of s np) <> 0)
  (Hold : forall i, (i < UDP_MAX_LISTENERS)%nat -> on_netif np (slot us i) = true ->
     up_local_ip (pcb_of (us_udp us) (slot_pcb us i)) = a0)
  (Hoth : forall q, q ∈ l -> (forall i, (i < UDP_MAX_LISTENERS)%nat -> on_netif np (slot us i) = true ->
     slot_pcb us i <> q) -> up_local_ip (pcb_of (us_udp us) q) <> 0
     /\ up_local_ip (pcb_of (us_udp us) q) <> nif_ip_addr (netif_of s np)) :
  let us' := udp_source_netif_ip_changed (Some np) s us in
  s_listeners us' = s_listeners us
  /\ (forall i, (i < UDP_MAX_LISTENERS)%nat -> on_netif np (slot us i) = true ->
      up_local_ip (pcb_of (us_udp us') (slot_pcb us i)) = nif_ip_addr (netif_of s np))
  /\ (forall q, up_local_port (pcb_of (us_udp us') q) = up_local_port (pcb_of (us_udp us) q))
  /\ forall q, (forall i, (i < UDP_MAX_LISTENERS)%nat -> on_netif np (slot us i) = true ->
       slot_pcb us i <> q) ->
       up_local_ip (pcb_of (us_udp us') q) = up_local_ip (pcb_of (us_udp us) q).
Proof.
  cbn zeta. cbn [udp_source_netif_ip_changed].
  assert (H : forall ls k us', Forall (fun i => (i < UDP_MAX_LISTENERS)%nat) ls ->
    rebound used l us np (nif_ip_addr (netif_of s np)) k us' ->
    rebound used l us np (nif_ip_addr (netif_of s np)) (k ++ ls) (fold_left (ip_changed_slot np s) ls us')).
  { induction ls as [| i ls IH]; intros k us' Hls Hk; cbn; [by rewrite app_nil_r |].
    apply Forall_cons in Hls as [Hi Hls]. rewrite (cons_middle i), app_assoc.
    apply IH; [done |]. by eapply rebind_step. }
  destruct (H (seq 0 UDP_MAX_LISTENERS) [] us) as [_ Hsl Hport Hip Hdone].
  { apply Forall_forall. intros i Hi%elem_of_seq. lia. }
  { split; try done; [by left |]. intros i ?%not_elem_of_nil. done. }
  split; [done |]. split; [| split; [done |]].
  - intros i Hi. apply Hdone. apply elem_of_seq. lia.
  - intros q Hq. destruct (Hip q) as [| (i & Hi & Ho & E)]; [done |]. by destruct (Hq i Hi Ho).
Qed.

(** The packet [udp_source_data_send] builds. *)
Lemma send_pbuf_alloc s data : n_heap s = [] -> 0 < Zlen data <= 1472 ->
  exists p, net_pbuf_alloc PBUF_TRANSPORT (Zlen data) s = (Some p, s) /\ send_pbuf (set_payload data p) data.
Proof.
  intros Hh Hl. destruct (pbuf_alloc_ram_ok PBUF_TRANSPORT (Zlen data)) as [p Ep]; [lia |].
  exists p. split.
  - unfold net_pbuf_alloc. rewrite Hh, Ep. f_equal. destruct s. cbn in *. by subst.
  - destruct (pbuf_alloc_ram_some PBUF_TRANSPORT (Zlen data) _ _ _ ltac:(lia) Ep)
      as (_ & Hn & Ht & _ & Hr). by split.
Qed.

(** C33. Sending from a socket: for an open socket bound to the address of the
    interface it sends through, non-empty data that fits the MTU and a
    destination whose next hop is resolved, [udp_source_data_send] returns
    [ERR_OK], leaves the registry unchanged and puts on the wire, after at most
    one ARP refresh, the frame of the datagram: from the interface's IP and the
    socket's port to the given IP and port, with the data and a nonzero
    checksum. *)
Theorem data_send_sent used l us id i p np data dst dport hop k s
  (Hinv : us_inv used l us) (Hopen : resolve id us = Some i) (Hp : ul_pcb (slot us i) = Some p)
  (Hlocal : up_local_ip (pcb_of (us_udp us) p) = nif_ip_addr (netif_of s np))
  (Hflags : Z.land (up_flags (pcb_of (us_udp us) p)) UDP_FLAGS_NOCHKSUM = 0)
  (Htos : is_u8 (up_tos (pcb_of (us_udp us) p))) (Httl : is_u8 (up_ttl (pcb_of (us_udp us) p)))
  (Hheap : n_heap s = []) (Hdata : Forall is_u8 data) (Hlen : 0 < Zlen data <= 1472)
  (Hid : is_u16 (ip_id s))
  (Hsrc : is_u32 (nif_ip_addr (netif_of s np))) (Hsrc0 : nif_ip_addr (netif_of s np) <> 0)
  (Hdst : is_u32 dst) (Harp : arp_inv s) (Hconf : netif_conf (netif_of s np))
  (Hbc : ip4_addr_isbroadcast dst (netif_of s np) = false)
  (Hmc : ip_addr_ismulticast dst = false)
  (Hhop : next_hop (netif_of s np) dst = Some hop)
  (Hk : (k < ARP_TABLE_SIZE)%nat) (Hst : stable (arp_entry s k))
  (Hip : ae_ipaddr (arp_entry s k) = hop) (Hmac : length (ae_ethaddr (arp_entry s k)) = 6%nat) :
  let b := pcb_of (us_udp us) p in
  exists s' w uc,
    udp_source_data_send id (Some np) dst dport (Some data) us s = (ERR_OK, us, s')
    /\ n_wire s' = n_wire s ++ w
         ++ [data_frame (netif_of s np) (ae_ethaddr (arp_entry s k))
              (udp_packet (up_tos b) (up_ttl b) (ip_id s) (nif_ip_addr (netif_of s np)) dst
                 (up_local_port b) dport uc data)]
    /\ (w = [] \/ w = [request_frame (netif_of s np) hop]) /\ 0 < uc <= 65535.
Proof.
  cbn zeta. destruct (send_pbuf_alloc s data Hheap Hlen) as (q & Eq & Hq).
  destruct (resolve_spec _ _ _ _ _ Hinv Hopen) as (Hi & Hu & _).
  destruct (ui_slot _ _ _ Hinv i Hi) as [_ _ _ [[? _] | (_ & p' & np' & Ep & _ & _ & _ & _ & Hport)]]; [lia |].
  assert (p' = p) as -> by congruence.
  assert (Esp : slot_pcb us i = p) by (unfold slot_pcb; by rewrite Hp).
  destruct (udp_sendto_if_ok p (set_payload data q) data dst dport np hop k (us_udp us) s)
    as (s' & w & uc & E & Hw & Hc & _ & Huc & _); try done; [lia | lia | by right |].
  exists s', w, uc. unfold udp_source_data_send. rewrite Hopen, (proj2 (Z.eqb_neq _ 0)) by lia.
  rewrite Eq, Esp, E. split; [by destruct us | done].
Qed.

(** Sending is refused without side effects on the wire or the registry: a
    missing interface, missing or empty data, a stale or invalid id, and a
    socket whose address is neither the wildcard nor the address of the
    interface it is asked to send through give [ERR_VAL]; a failed allocation
    gives [ERR_MEM]. *)
Theorem data_send_refused used l us id tx dst dport data s (Hinv : us_inv used l us) :
  (tx = None \/ data = None \/ data = Some [] \/ resolve id us = None ->
     udp_source_data_send id tx dst dport data us s = (ERR_VAL, us, s))
  /\ forall np d i, tx = Some np -> data = Some d -> d <> [] -> resolve id us = Some i ->
       (fst (net_pbuf_alloc PBUF_TRANSPORT (Zlen d) s) = None ->
          exists s', udp_source_data_send id tx dst dport data us s = (ERR_MEM, us, s')
            /\ n_wire s' = n_wire s)
       /\ (up_local_ip (pcb_of (us_udp us) (slot_pcb us i)) <> 0 ->
           up_local_ip (pcb_of (us_udp us) (slot_pcb us i)) <> nif_ip_addr (netif_of s np) ->
           fst (net_pbuf_alloc PBUF_TRANSPORT (Zlen d) s) <> None ->
           exists s', udp_source_data_send id tx dst dport data us s = (ERR_VAL, us, s')
             /\ n_wire s' = n_wire s).
Proof.
  split.
  - unfold udp_source_data_send. intros [-> | [-> | [-> | ->]]]; repeat case_match; done.
  - intros np d i -> -> Hd Hopen. unfold udp_source_data_send. rewrite Hopen.
    assert (Hd0 : Zlen d <> 0) by (by destruct d).
    rewrite (proj2 (Z.eqb_neq _ 0)) by done.
    destruct (net_pbuf_alloc PBUF_TRANSPORT (Zlen d) s) as [[q |] s1] eqn:Ea; cbn [fst]; (split; [intros ? | intros H0 Hne ?]); try done.
    2: { exists s1. split; [done |]. unfold net_pbuf_alloc in Ea.
         destruct (pbuf_alloc_ram _ _ _). by injection Ea as _ <-. }
    assert (Hs1 : n_wire s1 = n_wire s /\ n_netifs s1 = n_netifs s).
    { unfold net_pbuf_alloc in Ea. destruct (pbuf_alloc_ram _ _ _). by injection Ea as _ <-. }
    destruct Hs1 as [Hw1 Hn1].
    destruct (resolve_spec _ _ _ _ _ Hinv Hopen) as (Hi & Hu & _).
    destruct (ui_slot _ _ _ Hinv i Hi) as [_ _ _ [[? _] | (_ & p & np' & Ep & _ & _ & _ & _ & Hport)]]; [lia |].
    assert (Esp : slot_pcb us i = p) by (unfold slot_pcb; by rewrite Ep). rewrite Esp in *.
    unfold udp_sendto_if. rewrite (proj2 (Z.eqb_neq _ 0)) by lia.
    rewrite bool_decide_eq_true_2 by done. cbn [negb].
    assert (Hroom : exists q', pbuf_header (set_payload d q) UDP_HLEN = Some q').
    { unfold net_pbuf_alloc in Ea. destruct (pbuf_alloc_ram _ _ _) as [o h] eqn:Ep2.
      injection Ea as -> _.
      destruct (pbuf_alloc_ram_some _ _ _ _ _ (Zlen_nonneg d) Ep2) as (_ & _ & Ht & _ & Hr).
      apply pbuf_header_room; [by cbn; rewrite Hr | by left]. }
    destruct Hroom as [q' Eq']. unfold udp_header_pbuf. rewrite Eq'.
    assert (En : netif_of s1 np = netif_of s np) by (unfold netif_of; by rewrite Hn1). rewrite En.
    unfold ip_addr_isany, ip_addr_cmp, IPADDR_ANY.
    rewrite (proj2 (Z.eqb_neq _ _) H0), (proj2 (Z.eqb_neq _ _) Hne). cbn [negb andb].
    exists s1. split; [by destruct us | done].
Qed.

(** ** Instances *)

(** One socket on 10.0.0.10, port 5000. *)
Definition ex_us0 : usrc := usrc_init udp_init.
Definition ex_us : usrc := snd (udp_source_add_listener (Some (HdkNetIF 0)) 5000 true ex_net ex_us0).

Lemma ex_us0_inv : us_inv ∅ [] ex_us0.
Proof. apply us_inv_init; [apply udp_inv_init | intros p Hp; by apply not_elem_of_empty in Hp]. Qed.

Lemma ex_us_add : udp_source_add_listener (Some (HdkNetIF 0)) 5000 true ex_net ex_us0 = (ERR_OK, Some 0, ex_us).
Proof. vm_compute. reflexivity. Qed.

Lemma ex_us_inv : us_inv ({[19%nat]} ∪ ∅) [19%nat] ex_us.
Proof.
  assert (Hk : is_u16 5000) by (split; [discriminate | reflexivity]).
  pose proof (add_listener_spec ∅ [] ex_us0 (HdkNetIF 0) 5000 ex_net ERR_OK (Some 0) ex_us
    ex_us0_inv Hk ex_us_add) as H.
  destruct H as [H | [H | H]]; [| destruct H; discriminate | destruct H; discriminate].
  destruct H as (_ & i & p & _ & _ & _ & Hinv & _).
  assert (Hp : p = 19%nat).
  { destruct (ui_udp _ _ _ Hinv) as [Hok _]. apply udp_ok_pcbs in Hok. vm_compute in Hok.
    injection Hok. congruence. }
  subst p. exact Hinv.
Qed.

Lemma us_reachable_ok_witness :
  length (s_listeners ex_us) = 16%nat
  /\ (forall i, (i < 16)%nat ->
      (ul_in_use (slot ex_us i) = 0 /\ ul_pcb (slot ex_us i) = None)
      \/ (ul_in_use (slot ex_us i) = 1 /\ resolve (make_id i ex_us) ex_us = Some i
          /\ exists p, ul_pcb (slot ex_us i) = Some p /\ p ∈ pcbs (us_udp ex_us)
            /\ up_recv (pcb_of (us_udp ex_us) p) = Recv_udp_rx_callback
            /\ up_recv_arg (pcb_of (us_udp ex_us) p) = Z.of_nat i
            /\ 1 <= up_local_port (pcb_of (us_udp ex_us) p) <= 65535))
  /\ forall i j p, (i < 16)%nat -> (j < 16)%nat ->
      ul_pcb (slot ex_us i) = Some p -> ul_pcb (slot ex_us j) = Some p -> i = j.
Proof.
  apply (us_reachable_ok ∅ [] udp_init ex_us udp_inv_init).
  - intros p Hp. by apply not_elem_of_empty in Hp.
  - refine (rtc_once _ _ (us_add ex_us0 _ 5000 true ex_net _ _ ex_us _ ex_us_add)).
    split; [discriminate | reflexivity].
Defined.

Lemma socket_id_roundtrip_witness :
  resolve 0 ex_us = Some 0%nat
  <-> (0 < UDP_MAX_LISTENERS)%nat /\ ul_in_use (slot ex_us 0) = 1 /\ 0 = make_id 0 ex_us.
Proof. apply (socket_id_roundtrip _ _ ex_us 0 0 ex_us_inv). split; [discriminate | reflexivity]. Defined.

(** The socket closed and another opened in its slot. *)
Definition ex_us_reopened : usrc :=
  snd (udp_source_add_listener (Some (HdkNetIF 0)) 6000 true ex_net (udp_source_remove_listener 0 ex_us)).

Lemma socket_id_stale_witness :
  resolve 0 ex_us_reopened = None /\ make_id 0 ex_us_reopened = 256 /\ make_id 0 ex_us_reopened <> 0.
Proof.
  assert (Hrun : us_run 0 1 ex_us ex_us_reopened).
  { assert (E : udp_source_add_listener (Some (HdkNetIF 0)) 6000 true ex_net (udp_source_remove_listener 0 ex_us) = (ERR_OK, Some 256, ex_us_reopened))
      by (vm_compute; reflexivity).
    assert (Hk : is_u16 6000) by (split; [discriminate | reflexivity]).
    assert (E1 : closing 0 ex_us (udp_source_remove_listener 0 ex_us) = 1) by (vm_compute; reflexivity).
    assert (E2 : closing 0 (udp_source_remove_listener 0 ex_us) ex_us_reopened = 0) by (vm_compute; reflexivity).
    pose proof (ur_step 0 _ _ _ _ (ur_step 0 _ _ _ _ (ur_here 0 ex_us) (us_remove_listener ex_us 0)) (us_add _ _ _ _ _ _ _ _ Hk E)) as H.
    rewrite E1, E2 in H. exact H. }
  destruct (socket_id_stale ex_us ex_us_reopened 0 0 1) as (_ & _ & Hn & _).
  - eexists _, _. exact ex_us_inv.
  - split; [discriminate | reflexivity].
  - vm_compute. reflexivity.
  - exact Hrun.
  - destruct (Hn ltac:(lia)) as [H1 H2]. split; [exact H1 | split; [vm_compute; reflexivity | exact H2]].
Defined.

Lemma add_listener_result_witness :
  us_valid ex_us /\ (exists i p, Some 0 = Some (make_id i ex_us) /\ resolve (make_id i ex_us) ex_us = Some i
    /\ ul_pcb (slot ex_us i) = Some p /\ up_local_port (pcb_of (us_udp ex_us) p) = 5000)
  /\ (ERR_VAL = ERR_VAL <-> Some (HdkNetIF 0) = None \/ false = false).
Proof.
  assert (Hk : is_u16 5000) by (split; [discriminate | reflexivity]).
  destruct (add_listener_result ∅ [] ex_us0 (Some (HdkNetIF 0)) 5000 true ex_net ERR_OK (Some 0) ex_us ex_us0_inv Hk ex_us_add) as (Hv & _ & H).
  destruct (add_listener_result ∅ [] ex_us0 (Some (HdkNetIF 0)) 5000 false ex_net ERR_VAL None ex_us0 ex_us0_inv Hk) as (_ & Hn & _); [reflexivity |].
  split; [exact Hv | split; [| exact Hn]].
  destruct H as [(_ & n & i & p & _ & Hid & _ & Hr & _ & Hp & _ & Hport & _) | [(H & _) | [(H & _) | (H & _)]]]; try discriminate H.
  exists i, p. split; [exact Hid | split; [exact Hr | split; [exact Hp |]]]. apply Hport. discriminate.
Defined.

Lemma remove_all_result_witness :
  let us' := udp_source_remove_all_on_netif (Some (HdkNetIF 0)) ex_us in
  us_valid us'
  /\ udp_source_count_sockets (Some (HdkNetIF 0)) us' = 0
  /\ (forall np', np' <> HdkNetIF 0 ->
      udp_source_count_sockets (Some np') us' = udp_source_count_sockets (Some np') ex_us)
  /\ forall id, is_u16 id -> resolve id us' =
       match resolve id ex_us with
       | Some i => if bool_decide (ul_netif (slot ex_us i) = Some (HdkNetIF 0)) then None else Some i
       | None => None
       end.
Proof. apply (remove_all_result ex_us (HdkNetIF 0)). eexists _, _. exact ex_us_inv. Defined.

Lemma get_socket_enumerates_witness :
  let c := udp_source_count_sockets (Some (HdkNetIF 0)) ex_us in
  0 <= c <= 16
  /\ (forall n, 0 <= n < c -> exists i, ul_netif (slot ex_us i) = Some (HdkNetIF 0)
        /\ resolve (make_id i ex_us) ex_us = Some i
        /\ udp_source_get_socket (Some (HdkNetIF 0)) n ex_us
           = mk_socket_info (Some (HdkNetIF 0)) (udp_source_get_local_port (make_id i ex_us) ex_us)
               (make_id i ex_us))
  /\ (forall id i, is_u16 id -> resolve id ex_us = Some i -> ul_netif (slot ex_us i) = Some (HdkNetIF 0) ->
        exists n, 0 <= n < c /\ si_socket_id (udp_source_get_socket (Some (HdkNetIF 0)) n ex_us) = id)
  /\ forall n, c <= n <= 255 ->
        udp_source_get_socket (Some (HdkNetIF 0)) n ex_us = mk_socket_info None 0 UDP_SOCK_ID_INVALID.
Proof. apply (get_socket_enumerates _ _ ex_us (HdkNetIF 0) ex_us_inv). Defined.

Lemma mailbox_delivery_witness :
  exists us1, udp_rx_callback 0 (Some ex_packet) 0x0a000001 7 ex_us = (true, us1)
  /\ exists m us2, udp_source_poll_rx 0 us1 = (Some m, us2)
        /\ rm_src_ip m = 0x0a000001 /\ rm_src_port m = 7 /\ rm_data_len m = 16.
Proof.
  destruct (mailbox_delivery _ _ ex_us 0 0 19 ex_packet 0x0a000001 7 ex_us_inv) as (us1 & E & H & _).
  - split; [discriminate | reflexivity].
  - vm_compute. reflexivity.
  - vm_compute. reflexivity.
  - vm_compute. discriminate.
  - exists us1. split; [exact E |].
    destruct H as (m & us2 & E2 & H1 & H2 & H3 & _); [vm_compute; reflexivity |].
    exists m, us2. split; [exact E2 | split; [exact H1 | split; [exact H2 | exact H3]]].
Defined.

(** The interface renumbered to 10.0.0.20. *)
Definition ex_net_moved : net := netif_set_ipaddr (HdkNetIF 0) 0x0a000014 ex_net.

Lemma ex_us_on np i : (i < UDP_MAX_LISTENERS)%nat -> on_netif np (slot ex_us i) = true -> i = 0%nat.
Proof.
  intros Hi Ho. do 16 (destruct i as [| i]; [first [reflexivity | exfalso; revert Ho; clear; rewrite on_netif_spec; vm_compute; by intros []] |]).
  exfalso. unfold UDP_MAX_LISTENERS in Hi. lia.
Qed.

Lemma ip_changed_rebinds_witness :
  up_local_ip (pcb_of (us_udp (udp_source_netif_ip_changed (Some (HdkNetIF 0)) ex_net_moved ex_us)) 19)
  = 0x0a000014.
Proof.
  destruct (ip_changed_rebinds _ _ ex_us (HdkNetIF 0) ex_net_moved 0x0a00000a ex_us_inv)
    as (_ & H & _).
  - vm_compute. discriminate.
  - intros i Hi Ho. rewrite (ex_us_on _ i Hi Ho). vm_compute. reflexivity.
  - intros q Hq Hn. apply list_elem_of_singleton in Hq. subst q. exfalso.
    apply (Hn 0%nat); [apply Nat.lt_0_succ | vm_compute; reflexivity | vm_compute; reflexivity].
  - apply (H 0%nat); [apply Nat.lt_0_succ | vm_compute; reflexivity].
Defined.

Lemma data_send_sent_witness :
  exists s' w uc,
    udp_source_data_send 0 (Some (HdkNetIF 0)) 0x0a000001 7 (Some [104; 105; 33]) ex_us ex_net_resolved
    = (ERR_OK, ex_us, s')
    /\ n_wire s' = n_wire ex_net_resolved ++ w
         ++ [data_frame (netif_of ex_net_resolved (HdkNetIF 0)) [9; 8; 7; 6; 5; 4]
              (udp_packet 0 255 0 0x0a00000a 0x0a000001 5000 7 uc [104; 105; 33])].
Proof.
  destruct (data_send_sent _ _ ex_us 0 0 19 (HdkNetIF 0) [104; 105; 33] 0x0a000001 7 0x0a000001 0
    ex_net_resolved ex_us_inv) as (s' & w & uc & E & Hw & _);
    try reflexivity; try exact ex_arp_inv_resolved; try (split; vm_compute; congruence).
  - repeat (apply List.Forall_cons; [split; done |]). apply List.Forall_nil.
  - vm_compute. congruence.
  - repeat split; reflexivity.
  - apply Nat.lt_0_succ.
  - exists s', w, uc. split; [exact E | exact Hw].
Defined.

Lemma data_send_refused_witness :
  udp_source_data_send 5 (Some (HdkNetIF 0)) 0x0a000001 7 (Some [1]) ex_us ex_net
  = (ERR_VAL, ex_us, ex_net).
Proof.
  apply (data_send_refused _ _ ex_us 5 (Some (HdkNetIF 0)) 0x0a000001 7 (Some [1]) ex_net ex_us_inv).
  right; right; right. vm_compute. reflexivity.
Defined.
