(* ===== verification/NetManager.v ===== *)
(** * Adding and removing alias interfaces (src/net_manager.c)

    The coordination layer keeps no state of its own: it calls the alias pool of
    lwiplib.c and the socket registry in the right order. *)

From S2P Require Import Prelude NetTypes IpAddr Pbuf Net Chain Etharp Netif Lwiplib Udp Ip UdpSend UdpSource.

(** The network stack with its aliases and the socket registry. *)
Record stack := mk_stack {
  st_lwl : lwl;
  st_us : usrc
}.

(** [net_if_add]; a parameter is [None] for [NULL]. *)
Definition net_if_add (ip_addr net_mask gw : option Z) (st : stack) : err_t * stack :=
  match ip_addr, net_mask, gw with
  | Some ip, Some mask, Some gw =>
      let '(r, l) := lwIPAliasAdd 0 (ntohl ip) (ntohl mask) (ntohl gw) (st_lwl st) in
      let st := mk_stack l (st_us st) in
      if r =? 0 then (ERR_MEM, st) else (ERR_OK, st)
  | _, _, _ => (ERR_VAL, st)
  end.

(** [net_if_remove]. *)
Definition net_if_remove (np : option netif_ptr) (st : stack) : err_t * stack :=
  match np with
  | None => (ERR_VAL, st)
  | Some q =>
      if bool_decide (q = lwIPNetifPtrGet 0) then (ERR_VAL, st)
      else
        let us := udp_source_remove_all_on_netif np (st_us st) in
        let l := lwIPAliasRemove np (st_lwl st) in
        (ERR_OK, mk_stack l us)
  end.

(** ** No socket without its interface *)

(** Every open slot's interface is on the list [L]. *)
Definition socks_on (L : list netif_ptr) (us : usrc) : Prop :=
  forall i np, (i < UDP_MAX_LISTENERS)%nat -> on_netif np (slot us i) = true -> np ∈ L.

Definition stack_ok (st : stack) : Prop :=
  exists L, lwl_ok true (st_lwl st) L /\ us_valid (st_us st) /\ socks_on L (st_us st).

(** Operations that open no socket and keep the sockets' interfaces. *)
Definition no_new_socks (us us' : usrc) : Prop :=
  forall i np, (i < UDP_MAX_LISTENERS)%nat ->
    on_netif np (slot us' i) = true -> on_netif np (slot us i) = true.

Lemma socks_on_keep L us us' : no_new_socks us us' -> socks_on L us -> socks_on L us'.
Proof. intros Hn Hs i np Hi Ho. by eapply Hs, Hn. Qed.

Lemma no_new_refl us us' : s_listeners us' = s_listeners us -> no_new_socks us us'.
Proof. intros E i np _. unfold slot. by rewrite E. Qed.

Lemma no_new_upd us i f : length (s_listeners us) = UDP_MAX_LISTENERS -> (i < UDP_MAX_LISTENERS)%nat ->
  (forall np L, on_netif np (f L) = true -> on_netif np L = true) -> no_new_socks us (upd_slot i f us).
Proof. intros Hl Hi Hf j np Hj. rewrite slot_upd by done. case_decide; subst; eauto. Qed.

Lemma closed_off np L : on_netif np (closed L) = false.
Proof. apply not_true_is_false. intros [_ H]%on_netif_spec. done. Qed.

Lemma remove_listener_no_new used l us id :
  us_inv used l us -> no_new_socks us (udp_source_remove_listener id us).
Proof.
  intros Hinv. unfold udp_source_remove_listener.
  destruct (resolve id us) as [i |] eqn:E; [| by apply no_new_refl].
  destruct (resolve_spec _ _ _ _ _ Hinv E) as (Hi & Hu & _).
  destruct (remove_slot_spec _ _ _ _ Hinv Hi Hu) as (p & _ & _ & _ & Hs & _).
  intros j np Hj. rewrite Hs. case_decide; [| done]. by rewrite closed_off.
Qed.

Lemma remove_all_no_new us np : us_valid us ->
  no_new_socks us (udp_source_remove_all_on_netif (Some np) us).
Proof.
  intros Hv j q Hj. destruct (remove_all_spec us np Hv) as [_ Hs]. rewrite Hs by done.
  destruct (on_netif np (slot us j)); [by rewrite closed_off | done].
Qed.

Lemma ip_changed_no_new us np s : no_new_socks us (udp_source_netif_ip_changed np s us).
Proof.
  apply no_new_refl. destruct np as [np |]; [| done]. cbn [udp_source_netif_ip_changed].
  apply (fold_left_ind (fun us' => s_listeners us' = s_listeners us)); [done |].
  intros us' i _ E. unfold ip_changed_slot. by destruct (negb _ && _).
Qed.

Lemma poll_no_new used l us id r us' :
  us_inv used l us -> udp_source_poll_rx id us = (r, us') -> no_new_socks us us'.
Proof.
  intros Hinv. unfold udp_source_poll_rx. destruct (resolve id us) as [i |] eqn:E;
    [| intros [= _ <-]; by apply no_new_refl].
  destruct (resolve_spec _ _ _ _ _ Hinv E) as (Hi & _).
  destruct (_ =? 0); intros [= _ <-]; [by apply no_new_refl |]. apply no_new_upd; [apply Hinv | done | done].
Qed.

Lemma callback_no_new used l us arg q addr port freed us' :
  us_inv used l us -> udp_rx_callback arg q addr port us = (freed, us') -> no_new_socks us us'.
Proof.
  intros Hinv. unfold udp_rx_callback.
  destruct (Z.ltb_spec (u8 arg) (Z.of_nat UDP_MAX_LISTENERS)) as [Hi |];
    [| intros [= _ <-]; by apply no_new_refl].
  assert (Hi' : (Z.to_nat (u8 arg) < UDP_MAX_LISTENERS)%nat) by (pose proof (u8_range arg); unfold is_u8 in *; lia).
  destruct (negb _); [intros [= _ <-]; by apply no_new_refl |].
  destruct q as [q |]; [| intros [= _ <-]; by apply no_new_refl].
  destruct (1 =? _); intros [= _ <-]; apply no_new_upd; done || apply Hinv.
Qed.

Lemma add_listener_socks L used l us np k ptr s err id us' :
  us_inv used l us -> is_u16 k -> socks_on L us -> (forall q, np = Some q -> q ∈ L) ->
  udp_source_add_listener np k ptr s us = (err, id, us') -> us_valid us' /\ socks_on L us'.
Proof.
  intros Hinv Hk Hs Hin E.
  destruct np as [np |], ptr; try (injection E as _ _ <-; split; [by exists used, l | done]).
  destruct (add_listener_spec _ _ _ _ _ _ _ _ _ Hinv Hk E)
    as [(_ & i & p & Hi & _ & _ & Hinv' & _ & _ & En & _ & _ & _ & _ & _ & _ & _ & Hoth & _)
       | [(_ & _ & Hinv' & Hls & _) | (_ & _ & -> & _)]].
  - split; [by eexists _, _ |]. intros j q Hj Ho. destruct (decide (j = i)) as [-> | Hji].
    + apply on_netif_spec in Ho as [Eq _]. assert (q = np) as -> by congruence. by apply Hin.
    + rewrite Hoth in Ho by done. by eapply Hs.
  - split; [by exists used, l |]. eapply socks_on_keep; [by apply no_new_refl | done].
  - split; [by exists used, l | done].
Qed.

(** [net_if_remove] on every interface pointer. *)
Lemma net_if_remove_spec L st np :
  lwl_ok true (st_lwl st) L -> us_valid (st_us st) -> socks_on L (st_us st) ->
  exists err st', net_if_remove np st = (err, st')
  /\ ((err = ERR_VAL /\ st' = st /\ (np = None \/ np = Some (HdkNetIF 0)))
      \/ (err = ERR_OK /\ exists q L', np = Some q /\ q <> HdkNetIF 0
          /\ lwl_ok true (st_lwl st') L' /\ us_valid (st_us st') /\ socks_on L' (st_us st')
          /\ (forall k, q = AliasNetif k -> L' = remove1 q L)
          /\ st_us st' = udp_source_remove_all_on_netif (Some q) (st_us st))).
Proof.
  intros Hl Hv Hs. destruct np as [q |]; [| eexists _, _; split; [done | by left; auto]].
  cbn [net_if_remove]. case_bool_decide as Hq; [eexists _, _; split; [done | left; subst; auto] |].
  eexists _, _. split; [done |]. right. split; [done |].
  destruct (alias_remove_ok true (Some q) _ _ Hl) as (L' & Hl' & _ & _ & Hc).
  destruct (remove_all_spec (st_us st) q Hv) as [Hv' Hsl].
  exists q, L'. cbn [st_lwl st_us]. split_and!; try done.
  - intros i np Hi Ho. pose proof (remove_all_no_new _ q Hv i np Hi Ho) as Ho'.
    assert (Hne : np <> q).
    { intros ->. rewrite Hsl in Ho by done. rewrite Ho' in Ho. by rewrite closed_off in Ho. }
    pose proof (Hs i np Hi Ho') as Hin.
    destruct Hc as [(k & [= ->] & _ & ->) | (-> & _)]; [by apply elem_of_remove1 | done].
  - intros k ->. destruct Hc as [(k' & [= ->] & _ & ->) | (-> & _ & Hn)]; [done |].
    symmetry. apply remove1_notin. by apply Hn.
Qed.

Lemma net_if_add_ok st ip mask gw err st' :
  stack_ok st -> net_if_add ip mask gw st = (err, st') -> stack_ok st' /\ st_us st' = st_us st.
Proof.
  intros Hok E. destruct ip as [ip |]; [| by injection E as _ <-].
  destruct mask as [mask |]; [| by injection E as _ <-].
  destruct gw as [gw |]; [| by injection E as _ <-].
  destruct Hok as (L & Hl & Hv & Hs). cbn [net_if_add] in E.
  destruct (lwIPAliasAdd _ _ _ _ _) as [r l] eqn:Ea.
  assert (st' = mk_stack l (st_us st)) as -> by (destruct (r =? 0); by injection E as _ <-).
  split; [| done].
  destruct (alias_add_ok _ _ _ _ _ _ _ _ _ Hl Ea) as [(-> & _) | (idx & _ & _ & Hl' & _)].
  - by exists L.
  - eexists. split; [exact Hl' | split; [done |]]. intros i np Hi Ho. right. by eapply Hs.
Qed.

Lemma lwl_set_net phys l L s :
  lwl_ok phys l L -> net_list s L -> lwl_ok phys (set_l_net s l) L.
Proof. intros [? ? ? ? ?] ?. by split. Qed.

Lemma lwl_keeps phys l L s : lwl_ok phys l L -> keeps (l_net l) s -> lwl_ok phys (set_l_net s l) L.
Proof.
  intros Hl [Hs _]. apply lwl_set_net; [done |]. eapply same_ifs_list; [exact Hs | by apply Hl].
Qed.

(** ** Properties *)

(** What the application and the stack do: interfaces added and removed through
    this layer, addresses and the link changed, sockets opened on listed
    interfaces and closed, datagrams sent, received and read. *)
Inductive stack_step : stack -> stack -> Prop :=
| ss_if_add ip mask gw st err st' : net_if_add ip mask gw st = (err, st') -> stack_step st st'
| ss_if_remove np st err st' : net_if_remove np st = (err, st') -> stack_step st st'
| ss_set_addr p a m g l us :
    stack_step (mk_stack l us) (mk_stack (set_l_net (netif_set_addr p a m g (l_net l)) l) us)
| ss_up p l us : stack_step (mk_stack l us) (mk_stack (set_l_net (netif_set_up p (l_net l)) l) us)
| ss_down p l us : stack_step (mk_stack l us) (mk_stack (set_l_net (netif_set_down p (l_net l)) l) us)
| ss_net s l us : keeps (l_net l) s -> stack_step (mk_stack l us) (mk_stack (set_l_net s l) us)
| ss_open np k ptr l us err id us' : is_u16 k -> (forall q, np = Some q -> q ∈ netifs (l_net l)) ->
    udp_source_add_listener np k ptr (l_net l) us = (err, id, us') ->
    stack_step (mk_stack l us) (mk_stack l us')
| ss_close id l us : stack_step (mk_stack l us) (mk_stack l (udp_source_remove_listener id us))
| ss_ip_changed np l us :
    stack_step (mk_stack l us) (mk_stack l (udp_source_netif_ip_changed np (l_net l) us))
| ss_send id np a port data l us err us' s' :
    udp_source_data_send id np a port data us (l_net l) = (err, us', s') ->
    stack_step (mk_stack l us) (mk_stack (set_l_net s' l) us')
| ss_poll id l us r us' : udp_source_poll_rx id us = (r, us') ->
    stack_step (mk_stack l us) (mk_stack l us')
| ss_search inp b d l us r u' : udp_demux inp b d (us_udp us) = (r, u') ->
    stack_step (mk_stack l us) (mk_stack l (set_us_udp u' us))
| ss_callback p q addr port l us freed us' : p ∈ pcbs (us_udp us) ->
    up_recv (pcb_of (us_udp us) p) = Recv_udp_rx_callback ->
    udp_rx_callback (up_recv_arg (pcb_of (us_udp us) p)) (Some q) addr port us = (freed, us') ->
    stack_step (mk_stack l us) (mk_stack l us').

Lemma stack_step_ok st st' : stack_step st st' -> stack_ok st -> stack_ok st'.
Proof.
  intros Hstep Hok. destruct Hstep as [ip m g st err st' E | np st err st' E | p a m g l us | p l us
    | p l us | s l us Hk | np k ptr l us err id us' Hk Hin E | id l us | np l us
    | id np a port data l us err us' s' E | id l us r us' E | inp b d l us r u' E
    | p q addr port l us freed us' Hp Hcb E].
  - by apply (net_if_add_ok _ _ _ _ _ _ Hok) in E as [? _].
  - destruct Hok as (L & Hl & Hv & Hs).
    destruct (net_if_remove_spec L st np Hl Hv Hs) as (e & st2 & E2 & H). rewrite E in E2.
    injection E2 as -> ->. destruct H as [(_ & -> & _) | (_ & q & L' & _ & _ & H1 & H2 & H3 & _)];
      [by exists L | by exists L'].
  - destruct Hok as (L & Hl & Hv & Hs). exists L. split; [| done].
    apply lwl_set_net; [done | apply set_addr_list, Hl].
  - destruct Hok as (L & Hl & Hv & Hs). exists L. split; [| done].
    apply lwl_set_net; [done | apply set_up_list, Hl].
  - destruct Hok as (L & Hl & Hv & Hs). exists L. split; [| done].
    apply lwl_set_net; [done | apply set_down_list, Hl].
  - destruct Hok as (L & Hl & Hv & Hs). exists L. split; [by apply lwl_keeps | done].
  - destruct Hok as (L & Hl & (used & k0 & Hinv) & Hs). exists L. split; [done |].
    eapply add_listener_socks; [exact Hinv | exact Hk | exact Hs | | exact E].
    intros q Eq. rewrite <- (net_list_netifs _ _ (lo_list _ _ _ Hl)). by apply Hin.
  - destruct Hok as (L & Hl & (used & k0 & Hinv) & Hs). exists L. split; [done | split].
    + by eapply remove_listener_inv.
    + eapply socks_on_keep; [by eapply remove_listener_no_new | done].
  - destruct Hok as (L & Hl & (used & k0 & Hinv) & Hs). exists L. split; [done | split].
    + exists used, k0. by apply ip_changed_inv.
    + eapply socks_on_keep; [apply ip_changed_no_new | done].
  - destruct Hok as (L & Hl & Hv & Hs). exists L. split.
    + apply lwl_keeps; [done | by eapply data_send_keeps].
    + destruct Hv as (used & k0 & Hinv).
      rewrite (data_send_us _ _ _ _ _ _ _ _ _ _ _ _ Hinv E). split; [by exists used, k0 | done].
  - destruct Hok as (L & Hl & (used & k0 & Hinv) & Hs). exists L. split; [done | split].
    + exists used, k0. by eapply poll_inv.
    + eapply socks_on_keep; [by eapply poll_no_new | done].
  - destruct Hok as (L & Hl & Hv & Hs). exists L. split; [done | split; [| exact Hs]].
    by eapply us_step_inv; [eapply us_search |].
  - destruct Hok as (L & Hl & Hv & Hs). exists L. split; [done | split].
    + by eapply us_step_inv; [eapply us_callback |].
    + destruct Hv as (used & k0 & Hinv). eapply socks_on_keep; [by eapply callback_no_new | done].
Qed.

(** The state of the program before its first alias and socket. *)
Definition stack_start (mac : list Z) (ip mask gw : Z) (phy_ok : bool) (u : udp_st) : stack :=
  mk_stack (lwl_start mac ip mask gw phy_ok) (usrc_init u).

(** No socket outlives its interface: from start-up, after any sequence of
    interfaces added and removed through net_manager.c, addresses and links
    changed, sockets opened on listed interfaces and closed, and datagrams
    sent, received and read, every open socket's interface is on the interface
    list, the physical interface is on the list, and an alias is on it exactly
    when its pool slot is used. *)
Theorem no_dangling_sockets mac ip mask gw phy_ok used l u st
  (Hu : udp_inv used l u)
  (Hfresh : forall p, p ∈ used -> up_recv (pcb_of u p) <> Recv_udp_rx_callback)
  (Hr : rtc stack_step (stack_start mac ip mask gw phy_ok u) st) :
  HdkNetIF 0 ∈ netifs (l_net (st_lwl st))
  /\ (forall k, AliasNetif k ∈ netifs (l_net (st_lwl st)) <-> alias_used (st_lwl st) !! k = Some true)
  /\ forall i, (i < 16)%nat -> ul_in_use (slot (st_us st) i) <> 0 ->
       exists np, ul_netif (slot (st_us st) i) = Some np /\ np ∈ netifs (l_net (st_lwl st)).
Proof.
  assert (Hok : stack_ok (stack_start mac ip mask gw phy_ok u)).
  { eexists. split; [apply lwl_start_ok | split].
    - exists used, l. by apply us_inv_init.
    - intros i np Hi Ho. exfalso. unfold slot, stack_start, usrc_init in Ho. cbn [s_listeners st_us] in Ho.
      rewrite nth_lookup, lookup_replicate_2 in Ho by done. by apply on_netif_spec in Ho as [? _]. }
  assert (Hst : stack_ok st) by (clear - Hr Hok; induction Hr; eauto using stack_step_ok).
  destruct Hst as (L & Hl & (used' & l' & Hinv) & Hs).
  rewrite (net_list_netifs _ _ (lo_list _ _ _ Hl)). split; [by apply (lo_phys _ _ _ Hl) | split].
  - apply (lo_alias _ _ _ Hl).
  - intros i Hi Huse.
    destruct (ui_slot _ _ _ Hinv i Hi) as [_ _ _ [[? _] | (Hu1 & p & np & _ & En & _)]]; [done |].
    exists np. split; [done |]. apply (Hs i np Hi). by apply on_netif_spec.
Qed.

(** Removing an interface: [net_if_remove] refuses [NULL] and the physical
    interface with [ERR_VAL] and changes nothing; any other pointer gives
    [ERR_OK], and then no socket is open on that interface, the sockets of
    other interfaces are untouched, and a listed alias is off the list with its
    slot free and every other interface in place. *)
Theorem net_if_remove_result L st np
  (Hl : lwl_ok true (st_lwl st) L) (Hv : us_valid (st_us st)) (Hs : socks_on L (st_us st)) :
  exists err st', net_if_remove np st = (err, st') /\
  ((err = ERR_VAL /\ st' = st /\ (np = None \/ np = Some (HdkNetIF 0)))
   \/ (err = ERR_OK /\ exists q, np = Some q
       /\ udp_source_count_sockets (Some q) (st_us st') = 0
       /\ (forall q', q' <> q ->
           udp_source_count_sockets (Some q') (st_us st') = udp_source_count_sockets (Some q') (st_us st))
       /\ forall k, q = AliasNetif k ->
           netifs (l_net (st_lwl st')) = remove1 q L /\ alias_used (st_lwl st') !! k <> Some true)).
Proof.
  destruct (net_if_remove_spec L st np Hl Hv Hs)
    as (err & st' & E & [H | (-> & q & L' & -> & Hq & Hl' & _ & _ & HL & Hus)]);
    exists err || exists ERR_OK; exists st'; (split; [done |]); [by left |].
  right. split; [done |]. exists q. rewrite Hus.
  destruct (remove_all_counts (st_us st) q Hv) as [H1 H2].
  split; [done | split; [done | split; [done | split]]].
  - rewrite (net_list_netifs _ _ (lo_list _ _ _ Hl')). by eapply HL.
  - rewrite <- (lo_alias _ _ _ Hl'), (HL k) by done. subst q. rewrite elem_of_remove1. tauto.
Qed.

(** Adding an interface: a [NULL] argument gives [ERR_VAL]; with the core not
    initialised or all seven pool slots taken the result is [ERR_MEM]; in both
    cases nothing changes.  Otherwise the alias is added in the lowest free slot
    with the given addresses and heads the interface list, and the result is
    [ERR_OK] exactly when the address is not 0.0.0.0: for that address the alias
    is added all the same, but [ERR_MEM] is returned. *)
Theorem net_if_add_result L st ip mask gw (Hl : lwl_ok true (st_lwl st) L) :
  (forall a b c, a = None \/ b = None \/ c = None -> net_if_add a b c st = (ERR_VAL, st))
  /\ (lwIPCoreReady (st_lwl st) = false \/ (forall k, (k < 7)%nat -> alias_used (st_lwl st) !! k = Some true) ->
      net_if_add (Some ip) (Some mask) (Some gw) st = (ERR_MEM, st))
  /\ forall idx, lwIPCoreReady (st_lwl st) = true -> first_free 0 (alias_used (st_lwl st)) = Some idx ->
      exists st', net_if_add (Some ip) (Some mask) (Some gw) st
                  = (if ip =? 0 then ERR_MEM else ERR_OK, st')
        /\ netifs (l_net (st_lwl st')) = AliasNetif idx :: L
        /\ nif_ip_addr (netif_of (l_net (st_lwl st')) (AliasNetif idx)) = ip
        /\ nif_netmask (netif_of (l_net (st_lwl st')) (AliasNetif idx)) = mask
        /\ nif_gw (netif_of (l_net (st_lwl st')) (AliasNetif idx)) = gw
        /\ nif_hwaddr_len (netif_of (l_net (st_lwl st')) (AliasNetif idx))
           = nif_hwaddr_len (netif_of (l_net (st_lwl st)) (HdkNetIF 0))
        /\ st_us st' = st_us st
        /\ forall q, q <> AliasNetif idx ->
             netif_of (l_net (st_lwl st')) q = netif_of (l_net (st_lwl st)) q.
Proof.
  split; [| split].
  - by intros [?|] [?|] [?|] [|[|]].
  - intros H. cbn [net_if_add]. unfold lwIPAliasAdd.
    destruct (lwIPCoreReady (st_lwl st)) eqn:Er; cbn [negb]; [| by destruct st].
    destruct H as [| Hall]; [done |].
    destruct (first_free 0 (alias_used (st_lwl st))) as [idx |] eqn:Ef; [| by destruct st].
    apply first_free_spec in Ef as [_ Hf]. rewrite Nat.sub_0_r in Hf.
    pose proof (lookup_lt_Some _ _ _ Hf) as Hlt. rewrite (lo_used_len _ _ _ Hl) in Hlt.
    rewrite Hall in Hf by done. done.
  - intros idx Hr Hf.
    destruct (alias_add_result 0 ip mask gw (st_lwl st) idx Hr Hf)
      as (l' & E & Hnp & Hoth & _ & _ & _ & _ & _).
    destruct (alias_add_ok true 0 ip mask gw _ _ _ _ Hl E)
      as [(_ & _ & [? | ?]) | (idx' & _ & Hf' & Hl' & _)]; [congruence.. |].
    assert (idx' = idx) as -> by congruence.
    exists (mk_stack l' (st_us st)). cbn [net_if_add]. unfold ntohl, htonl in *. rewrite E.
    split; [by destruct (ip =? 0) |]. cbn [st_lwl st_us].
    split; [by apply net_list_netifs, Hl' |]. rewrite Hnp. done.
Qed.

(** ** Instances *)

Definition ex_stack0 : stack := stack_start ex_mac 0x0a00000a 0xffffff00 0x0a000001 true udp_init.
Definition ex_stack1 : stack :=
  snd (net_if_add (Some 0x0a00000b) (Some 0xffffff00) (Some 0x0a000001) ex_stack0).
Definition ex_us_alias : usrc :=
  snd (udp_source_add_listener (Some (AliasNetif 0)) 5000 true (l_net (st_lwl ex_stack1))
         (st_us ex_stack1)).
Definition ex_stack : stack := mk_stack (st_lwl ex_stack1) ex_us_alias.

Lemma stack_eta st : mk_stack (st_lwl st) (st_us st) = st.
Proof. by destruct st. Qed.

Lemma ex_stack1_add :
  net_if_add (Some 0x0a00000b) (Some 0xffffff00) (Some 0x0a000001) ex_stack0 = (ERR_OK, ex_stack1).
Proof. vm_compute. reflexivity. Qed.

Lemma ex_stack_open :
  udp_source_add_listener (Some (AliasNetif 0)) 5000 true (l_net (st_lwl ex_stack1)) (st_us ex_stack1)
  = (ERR_OK, Some 0, ex_us_alias).
Proof. vm_compute. reflexivity. Qed.

Lemma ex_stack_reachable : rtc stack_step ex_stack0 ex_stack.
Proof.
  assert (Hk : is_u16 5000) by (split; [discriminate | reflexivity]).
  assert (Hin : forall q, Some (AliasNetif 0) = Some q -> q ∈ netifs (l_net (st_lwl ex_stack1)))
    by (intros q [= <-]; vm_compute; apply list_elem_of_here).
  pose proof (ss_open _ _ _ _ _ _ _ _ Hk Hin ex_stack_open) as H2. rewrite stack_eta in H2.
  exact (rtc_l _ _ _ _ (ss_if_add _ _ _ _ _ _ ex_stack1_add) (rtc_once _ _ H2)).
Qed.

Lemma no_dangling_sockets_witness :
  HdkNetIF 0 ∈ netifs (l_net (st_lwl ex_stack))
  /\ (forall k, AliasNetif k ∈ netifs (l_net (st_lwl ex_stack)) <-> alias_used (st_lwl ex_stack) !! k = Some true)
  /\ forall i, (i < 16)%nat -> ul_in_use (slot (st_us ex_stack) i) <> 0 ->
       exists np, ul_netif (slot (st_us ex_stack) i) = Some np /\ np ∈ netifs (l_net (st_lwl ex_stack)).
Proof.
  apply (no_dangling_sockets ex_mac 0x0a00000a 0xffffff00 0x0a000001 true ∅ [] udp_init ex_stack udp_inv_init).
  - intros p Hp. by apply not_elem_of_empty in Hp.
  - exact ex_stack_reachable.
Defined.

Lemma ex_stack0_ok : stack_ok ex_stack0.
Proof.
  eexists. split; [apply lwl_start_ok | split].
  - eexists _, _. exact ex_us0_inv.
  - intros i np Hi Ho. exfalso. do 16 (destruct i as [| i]; [by vm_compute in Ho |]).
    unfold UDP_MAX_LISTENERS in Hi. lia.
Qed.

Lemma ex_stack_ok : exists L, lwl_ok true (st_lwl ex_stack) L /\ us_valid (st_us ex_stack)
  /\ socks_on L (st_us ex_stack).
Proof.
  pose proof ex_stack_reachable as H. pose proof ex_stack0_ok as H0.
  revert H0. induction H; eauto using stack_step_ok.
Qed.

Lemma net_if_remove_result_witness :
  exists L err st', net_if_remove (Some (AliasNetif 0)) ex_stack = (err, st') /\
  ((err = ERR_VAL /\ st' = ex_stack /\ (Some (AliasNetif 0) = None \/ Some (AliasNetif 0) = Some (HdkNetIF 0)))
   \/ (err = ERR_OK /\ exists q, Some (AliasNetif 0) = Some q
       /\ udp_source_count_sockets (Some q) (st_us st') = 0
       /\ (forall q', q' <> q ->
           udp_source_count_sockets (Some q') (st_us st') = udp_source_count_sockets (Some q') (st_us ex_stack))
       /\ forall k, q = AliasNetif k ->
           netifs (l_net (st_lwl st')) = remove1 q L /\ alias_used (st_lwl st') !! k <> Some true)).
Proof.
  destruct ex_stack_ok as (L & Hl & Hv & Hs). exists L.
  exact (net_if_remove_result L ex_stack (Some (AliasNetif 0)) Hl Hv Hs).
Defined.

Lemma net_if_add_result_witness :
  exists L, (forall a b c, a = None \/ b = None \/ c = None -> net_if_add a b c ex_stack = (ERR_VAL, ex_stack))
  /\ (lwIPCoreReady (st_lwl ex_stack) = false
      \/ (forall k, (k < 7)%nat -> alias_used (st_lwl ex_stack) !! k = Some true) ->
      net_if_add (Some 0) (Some 0xffffff00) (Some 0) ex_stack = (ERR_MEM, ex_stack))
  /\ forall idx, lwIPCoreReady (st_lwl ex_stack) = true -> first_free 0 (alias_used (st_lwl ex_stack)) = Some idx ->
      exists st', net_if_add (Some 0) (Some 0xffffff00) (Some 0) ex_stack
                  = (if 0 =? 0 then ERR_MEM else ERR_OK, st')
        /\ netifs (l_net (st_lwl st')) = AliasNetif idx :: L
        /\ nif_ip_addr (netif_of (l_net (st_lwl st')) (AliasNetif idx)) = 0
        /\ nif_netmask (netif_of (l_net (st_lwl st')) (AliasNetif idx)) = 0xffffff00
        /\ nif_gw (netif_of (l_net (st_lwl st')) (AliasNetif idx)) = 0
        /\ nif_hwaddr_len (netif_of (l_net (st_lwl st')) (AliasNetif idx))
           = nif_hwaddr_len (netif_of (l_net (st_lwl ex_stack)) (HdkNetIF 0))
        /\ st_us st' = st_us ex_stack
        /\ forall q, q <> AliasNetif idx ->
             netif_of (l_net (st_lwl st')) q = netif_of (l_net (st_lwl ex_stack)) q.
Proof.
  destruct ex_stack_ok as (L & Hl & _ & _). exists L.
  exact (net_if_add_result L ex_stack 0 0xffffff00 0 Hl).
Defined.
