(* ===== verification/AliasFilter.v ===== *)
(** * Choosing the interface of an incoming packet (src/netif_alias_filter.c)

    [LWIP_ARP_FILTER_NETIF_FN] of the configuration: [ethernet_input] asks this
    function which of the interfaces that share the EMAC a frame belongs to. *)

From S2P Require Import Prelude NetTypes IpAddr Pbuf Net Chain Etharp Netif Lwiplib.

(** The destination address in the packet, if its headers are there. *)
Definition filter_target (p : pbuf) (type : Z) : option Z :=
  if type =? ETHTYPE_IP then
    if SIZEOF_ETH_HDR + 20 <=? p_len p then Some (get32 (p_payload p) 30) else None
  else if type =? ETHTYPE_ARP then
    if SIZEOF_ETH_HDR + SIZEOF_ETHARP_HDR <=? p_len p then Some (get32 (p_payload p) 38) else None
  else None.

(** [netif_is_up(n) && (n->flags & NETIF_FLAG_LINK_UP)] and the address test of
    the loop. *)
Definition filter_match (dest_ip : Z) (n : netif) : bool :=
  netif_is_up n && has_flag n NETIF_FLAG_LINK_UP && ip_addr_cmp dest_ip (nif_ip_addr n).

(** [netif_alias_route_filter]; [None] is [NULL]. *)
Definition netif_alias_route_filter (p : option pbuf) (def_netif : option netif_ptr) (type : Z)
  (s : net) : option netif_ptr :=
  match p, def_netif with
  | Some p, Some d =>
      match filter_target p type with
      | None => Some d
      | Some dest_ip =>
          if ip_addr_cmp dest_ip (nif_ip_addr (netif_of s d)) then Some d
          else if ip4_addr_isbroadcast dest_ip (netif_of s d) || ip_addr_ismulticast dest_ip
          then Some d
          else
            match List.find (fun n => filter_match dest_ip (netif_of s n)) (netifs s) with
            | Some n => Some n
            | None => Some d
            end
      end
  | _, _ => def_netif
  end.

(** ** Properties *)

Lemma find_unique {A} (f : A -> bool) l x :
  x ∈ l -> f x = true -> (forall y, y ∈ l -> f y = true -> y = x) -> List.find f l = Some x.
Proof.
  intros Hx Hf Hu. destruct (List.find f l) as [y |] eqn:E.
  - apply find_some in E as [Hy%list_elem_of_In Hfy]. f_equal. by apply Hu.
  - pose proof (find_none _ _ E x) as H. rewrite <- list_elem_of_In in H. rewrite (H Hx) in Hf. done.
Qed.

(** Frames reach the alias they are addressed to: an IP packet or ARP packet
    that arrives on the physical interface with a destination address that is
    unicast there and belongs to exactly one running interface of the list is
    handed to that interface; an interface other than the one it arrived on is
    only ever chosen for its own address, when it is up with its link; packets
    for the receiving interface's own address, broadcasts, multicasts, packets
    of other types or too short for their headers and packets for unknown
    addresses stay with the receiving interface; and the choice never leaves
    the interface list. *)
Theorem alias_filter_spec s L p d type (Hl : net_list s L) :
  (forall dest np, filter_target p type = Some dest ->
     np ∈ L -> filter_match dest (netif_of s np) = true ->
     (forall q, q ∈ L -> filter_match dest (netif_of s q) = true -> q = np) ->
     ip4_addr_isbroadcast dest (netif_of s d) = false -> ip_addr_ismulticast dest = false ->
     dest <> nif_ip_addr (netif_of s d) ->
     netif_alias_route_filter (Some p) (Some d) type s = Some np)
  /\ (forall q, netif_alias_route_filter (Some p) (Some d) type s = Some q -> q <> d ->
      q ∈ L /\ exists dest, filter_target p type = Some dest
        /\ nif_ip_addr (netif_of s q) = dest /\ dest <> nif_ip_addr (netif_of s d)
        /\ netif_is_up (netif_of s q) = true /\ has_flag (netif_of s q) NETIF_FLAG_LINK_UP = true)
  /\ (filter_target p type = None
      \/ (exists dest, filter_target p type = Some dest
          /\ (dest = nif_ip_addr (netif_of s d) \/ ip4_addr_isbroadcast dest (netif_of s d) = true
              \/ ip_addr_ismulticast dest = true
              \/ forall q, q ∈ L -> filter_match dest (netif_of s q) = false)) ->
      netif_alias_route_filter (Some p) (Some d) type s = Some d)
  /\ netif_alias_route_filter None (Some d) type s = Some d
  /\ netif_alias_route_filter (Some p) None type s = None.
Proof.
  unfold netif_alias_route_filter. rewrite (net_list_netifs s L Hl). split_and!; try done.
  - intros dest np -> Hin Hm Hu Hb Hmc Hd. unfold ip_addr_cmp at 1.
    rewrite (proj2 (Z.eqb_neq _ _) Hd), Hb, Hmc. cbn [orb].
    by rewrite (find_unique (fun n => filter_match dest (netif_of s n)) L np).
  - intros q. destruct (filter_target p type) as [dest |]; [| intros [= ->]; done].
    unfold ip_addr_cmp at 1. destruct (Z.eqb_spec dest (nif_ip_addr (netif_of s d))) as [| Hd];
      [intros [= ->]; done |].
    destruct (_ || _); [intros [= ->]; done |].
    destruct (List.find _ L) as [n |] eqn:E; [| intros [= ->]; done]. intros [= ->] _.
    apply find_some in E as [Hin%list_elem_of_In Hm]. split; [done |]. exists dest.
    unfold filter_match, ip_addr_cmp in Hm. zb. split_and!; congruence.
  - intros [-> | (dest & -> & H)]; [done |]. unfold ip_addr_cmp at 1.
    destruct (Z.eqb_spec dest (nif_ip_addr (netif_of s d))); [done |].
    destruct H as [? | [-> | [-> | H]]]; [done | done | by rewrite orb_true_r |].
    destruct (_ || _); [done |].
    destruct (List.find _ L) as [q |] eqn:E; [| done]. exfalso.
    apply find_some in E as [Hin%list_elem_of_In Hm]. by rewrite H in Hm.
Qed.

(** An ARP request for 10.0.0.11 on the wire. *)
Definition ex_arp_request (target : Z) : pbuf :=
  mk_pbuf (mk_pseg PBUF_POOL []
    (ethbroadcast ++ [9; 8; 7; 6; 5; 4] ++ be16 ETHTYPE_ARP
     ++ be16 1 ++ be16 ETHTYPE_IP ++ [6; 4] ++ be16 ARP_REQUEST
     ++ [9; 8; 7; 6; 5; 4] ++ be32 0x0a000001 ++ [0; 0; 0; 0; 0; 0] ++ be32 target)) [] 0.

Lemma alias_filter_spec_witness :
  netif_alias_route_filter (Some (ex_arp_request 0x0a00000b)) (Some (HdkNetIF 0)) ETHTYPE_ARP (l_net ex_lwl2)
  = Some (AliasNetif 0).
Proof.
  assert (Hl : exists L, net_list (l_net ex_lwl2) L).
  { destruct (lwIPAliasAdd 0 0x0a00000b 0xffffff00 0x0a000001 ex_lwl) as [r l'] eqn:E.
    destruct (alias_add_ok _ _ _ _ _ _ _ _ _ (lwl_start_ok ex_mac 0x0a00000a 0xffffff00 0x0a000001 true) E)
      as [(-> & _) | (idx & _ & _ & H & _)].
    - exists [HdkNetIF 0]. unfold ex_lwl2. rewrite E. apply (lwl_start_ok ex_mac).
    - eexists. unfold ex_lwl2. rewrite E. apply H. }
  destruct Hl as [L Hl]. pose proof (net_list_netifs _ _ Hl) as EL. vm_compute in EL. subst L.
  apply (proj1 (alias_filter_spec (l_net ex_lwl2) _ (ex_arp_request 0x0a00000b) (HdkNetIF 0)
                  ETHTYPE_ARP Hl) 0x0a00000b (AliasNetif 0)); try (vm_compute; reflexivity).
  - apply list_elem_of_here.
  - intros q [-> | [-> | ?%not_elem_of_nil]%elem_of_cons]%elem_of_cons; [reflexivity | | done].
    vm_compute. discriminate.
  - vm_compute. discriminate.
Defined.
