(* ===== verification/Icmp.v ===== *)
(** * ICMP (core/ipv4/icmp.c)

    Echo replies and destination-unreachable messages.  [src] and [dest] are
    [current_iphdr_src] and [current_iphdr_dest].  Broadcast and multicast pings
    are not answered in this configuration.  Every path frees the packet. *)

From S2P Require Import Prelude NetTypes IpAddr Pbuf Chksum Net Chain Etharp Netif Ip.

Definition ICMP_ER : Z := 0.
Definition ICMP_DUR : Z := 3.
Definition ICMP_ECHO : Z := 8.
Definition ICMP_DUR_PROTO : Z := 2.
Definition ICMP_DUR_PORT : Z := 3.
Definition ICMP_TTL : Z := 255.
Definition ICMP_DEST_UNREACH_DATASIZE : Z := 8.
Definition SIZEOF_ICMP_ECHO_HDR : Z := 8.

(** [IPH_HL(iphdr) * 4]. *)
Definition IPH_HLEN (d : list Z) : Z := Z.land (byte_at d 0) 0x0f * 4.

(** The packet with room for the lower headers, its payload at the ICMP header:
    [p] itself or a copy in a new pbuf. *)
Definition icmp_room (hlen : Z) (p : pbuf) (s : net) : option pbuf * net :=
  match pbuf_header p (20 + SIZEOF_ETH_HDR) with
  | Some p =>
      match pbuf_header p (- (20 + SIZEOF_ETH_HDR)) with
      | Some p => (Some p, s)
      | None => (None, s)
      end
  | None =>
      match pbuf_header p hlen with
      | None => (None, s)
      | Some p =>
          match net_pbuf_alloc PBUF_LINK (p_tot_len p) s with
          | (None, s) => (None, s)
          | (Some r, s) =>
              let '(err, r) := pbuf_copy r p in
              if negb (bool_decide (err = ERR_OK)) then (None, s)
              else (pbuf_header r (- hlen), s)
          end
      end
  end.

(** The incremental update of the ICMP checksum when the type changes from
    [ICMP_ECHO] to [ICMP_ER]. *)
Definition echo_chksum (c : Z) : Z :=
  if 0xffff - Z.shiftl ICMP_ECHO 8 <=? c then u16 (c + (Z.shiftl ICMP_ECHO 8 + 1))
  else u16 (c + Z.shiftl ICMP_ECHO 8).

(** The stores into the ICMP header. *)
Definition echo_reply_icmp (d : list Z) : list Z :=
  let d := put 0 [ICMP_ER] d in
  put 2 (be16 (echo_chksum (get16 d 2))) d.

(** The stores into the IP header. *)
Definition echo_reply_ip (src dest : Z) (d : list Z) : list Z :=
  let d := put 12 (be32 dest) d in
  let d := put 16 (be32 src) d in
  let d := put 8 [ICMP_TTL] d in
  let d := put 10 (be16 0) d in
  put 10 (be16 (inet_chksum (take 20 d))) d.

(** [icmp_input].  The stores into the IP header are made once the payload is
    back at it; they touch other bytes than the move itself. *)
Definition icmp_input (p : pbuf) (inp : netif_ptr) (src dest : Z) (s : net) : net :=
  let hlen := IPH_HLEN (p_payload p) in
  match pbuf_header p (- hlen) with
  | None => s
  | Some p =>
      if p_tot_len p <? 4 then s
      else
        let type := byte_at (p_payload p) 0 in
        if type =? ICMP_ECHO then
          if ip_addr_ismulticast dest || ip4_addr_isbroadcast dest (netif_of s inp) then s
          else if p_tot_len p <? SIZEOF_ICMP_ECHO_HDR then s
          else if negb (inet_chksum_pbuf p =? 0) then s
          else
            match icmp_room hlen p s with
            | (None, s) => s
            | (Some p, s) =>
                let p := set_payload (echo_reply_icmp (p_payload p)) p in
                match pbuf_header p hlen with
                | None => s
                | Some p =>
                    let p := set_payload (echo_reply_ip src dest (p_payload p)) p in
                    snd (ip_output_if p dest None ICMP_TTL 0 IP_PROTO_ICMP inp s)
                end
            end
        else s
  end.

(** [icmp_send_response], [icmp_dest_unreach].  [d0] are the bytes at
    [p->payload], the IP header first; of the 28 bytes the code copies, those
    behind the end of a shorter packet are read as 0. *)
Definition icmp_send_response (d0 : list Z) (type code : Z) (s : net) : net :=
  match net_pbuf_alloc PBUF_IP (SIZEOF_ICMP_ECHO_HDR + IP_HLEN + ICMP_DEST_UNREACH_DATASIZE) s with
  | (None, s) => s
  | (Some q, s) =>
      let d := put 0 [type; code] (p_payload q) in
      let d := put 4 (be16 0 ++ be16 0) d in
      let d := put 8 (take 28 (d0 ++ replicate 28 0)) d in
      let d := put 2 (be16 0) d in
      let d := put 2 (be16 (inet_chksum d)) d in
      snd (ip_output (set_payload d q) IPADDR_ANY (get32 d0 12) ICMP_TTL 0 IP_PROTO_ICMP s)
  end.
Definition icmp_dest_unreach (d0 : list Z) (t : Z) (s : net) : net := icmp_send_response d0 ICMP_DUR t s.

(** ** Frames *)

Lemma ip_output_keeps p src dest ttl tos proto s err s' :
  ip_output p src dest ttl tos proto s = (err, s') -> keeps s s'.
Proof. unfold ip_output. destruct (ip_route dest s); [apply ip_output_if_keeps | by intros [= _ <-]]. Qed.

Lemma icmp_room_keeps hlen p s q s' : icmp_room hlen p s = (q, s') -> keeps s s'.
Proof.
  unfold icmp_room. destruct (pbuf_header p (20 + SIZEOF_ETH_HDR)) as [p1 |].
  { destruct (pbuf_header p1 _); by intros [= _ <-]. }
  destruct (pbuf_header p hlen) as [p1 |]; [| by intros [= _ <-]].
  destruct (net_pbuf_alloc _ _ s) as [[r |] s1] eqn:E; apply pbuf_alloc_keeps in E; [| by intros [= _ <-]].
  destruct (pbuf_copy r p1) as [e r1]. destruct (negb _); by intros [= _ <-].
Qed.

Lemma icmp_input_keeps p inp src dest s : keeps s (icmp_input p inp src dest s).
Proof.
  unfold icmp_input. destruct (pbuf_header p _) as [p1 |]; [| done].
  destruct (_ <? _); [done |]. destruct (_ =? ICMP_ECHO); [| done].
  destruct (_ || _); [done |]. destruct (_ <? _); [done |]. destruct (negb _); [done |].
  destruct (icmp_room _ _ s) as [[p2 |] s1] eqn:E; apply icmp_room_keeps in E; [| done].
  destruct (pbuf_header _ _) as [p3 |]; [| done].
  destruct (ip_output_if _ _ _ _ _ _ _ s1) as [e s2] eqn:E2. cbn [snd].
  etrans; [exact E | by eapply ip_output_if_keeps].
Qed.

Lemma icmp_send_response_keeps d t c s : keeps s (icmp_send_response d t c s).
Proof.
  unfold icmp_send_response. destruct (net_pbuf_alloc _ _ s) as [[q |] s1] eqn:E; apply pbuf_alloc_keeps in E; [| done].
  destruct (ip_output _ _ _ _ _ _ s1) as [e s2] eqn:E2. cbn [snd].
  etrans; [exact E | by eapply ip_output_keeps].
Qed.

(** ** Checksums of the reply *)

Lemma inet_chksum_spec d : Forall is_u8 d -> Zlen d <= 131072 ->
  0 <= inet_chksum d <= 65535
  /\ (inet_chksum d = 0 <-> ceq (word_sum d) 0 /\ word_sum d <> 0)
  /\ ceq (word_sum d + inet_chksum d) 0.
Proof.
  intros H8 Hl. destruct (chksum_spec false d H8 Hl) as (Hr & Hc & Hz). unfold inet_chksum, LWIP_CHKSUM.
  set (v := lwip_standard_chksum false d) in *. clearbody v.
  assert (E : u16 (-1 - v) = 65535 - v) by word. rewrite E.
  split; [lia | split].
  - split.
    + intros H0. split; [rewrite <- Hc; apply (ceq_step _ _ 1); lia | lia].
    + intros [H0 Hne]. assert (H : ceq v 0) by (by rewrite Hc). destruct H as [k Hk]. lia.
  - destruct Hc as [k Hk]. apply (ceq_step _ _ (1 - k)). lia.
Qed.

(** Filling a zeroed checksum field. *)
Lemma chksum_fill l off : Forall is_u8 l -> Zlen l <= 131072 ->
  Nat.even off = true -> (S off < length l)%nat -> byte_at l off = 0 -> byte_at l (S off) = 0 ->
  inet_chksum (put off (be16 (inet_chksum l)) l) = 0.
Proof.
  intros H8 Hl He Ho H0 H1. destruct (inet_chksum_spec l H8 Hl) as (Hr & Hz & Hc).
  set (c := inet_chksum l) in *.
  assert (Hp8 : Forall is_u8 (put off (be16 c) l)) by (apply Forall_put; [done | apply be16_u8]).
  assert (Hpl : Zlen (put off (be16 c) l) <= 131072) by (unfold Zlen; rewrite length_put; [done | cbn; lia]).
  apply (inet_chksum_spec _ Hp8 Hpl). rewrite word_sum_put by (done || unfold is_u16; lia).
  split; [done |]. pose proof (word_sum_nonneg l H8).
  assert (word_sum l = 0 -> c <> 0) by (intros Hw Hc0; apply Hz in Hc0 as [_ ?]; done). lia.
Qed.

Lemma echo_chksum_spec c : is_u16 c -> is_u16 (echo_chksum c) /\ ceq (echo_chksum c) (c + 2048).
Proof.
  intros Hc. unfold echo_chksum. change (Z.shiftl ICMP_ECHO 8) with 2048. unfold is_u16 in *.
  destruct (Z.leb_spec (0xffff - 2048) c).
  - assert (u16 (c + (2048 + 1)) = c + 2048 - 65535) as -> by word.
    split; [lia |]. apply (ceq_step _ _ (-1)). lia.
  - rewrite u16_small by (unfold is_u16; lia). split; [lia |]. apply (ceq_step _ _ 0). lia.
Qed.

(** The reply to an echo request [8 :: code :: chksum ++ rest]. *)
Lemma echo_reply_icmp_eq code c r : is_u16 c ->
  echo_reply_icmp (8 :: code :: be16 c ++ r) = 0 :: code :: be16 (echo_chksum c) ++ r.
Proof.
  intros Hc. unfold echo_reply_icmp.
  assert (E : get16 (put 0 [ICMP_ER] (8 :: code :: be16 c ++ r)) 2 = c).
  { change (get16 _ 2) with (Z.shiftr c 8 mod 256 * 256 + c mod 256).
    rewrite Z.shiftr_div_pow2 by lia. change (2 ^ 8) with 256. word. }
  rewrite E. reflexivity.
Qed.

Lemma echo_sum t code c r : is_u16 c ->
  word_sum (t :: code :: be16 c ++ r) = t * 256 + code + c + word_sum r.
Proof.
  intros Hc. unfold be16. cbn [app word_sum]. rewrite Z.shiftr_div_pow2 by lia. change (2 ^ 8) with 256. word.
Qed.

Lemma word_sum_zero l : Forall is_u8 l -> word_sum l = 0 -> Forall (fun b => b = 0) l.
Proof.
  induction l as [| a | a b l IH] using list_ind2; intros H Hs.
  - apply List.Forall_nil.
  - apply Forall_inv in H. unfold is_u8 in H. cbn in Hs. apply List.Forall_cons; [lia | apply List.Forall_nil].
  - apply Forall_cons in H as [Ha [Hb Hl]%Forall_cons]. cbn in Hs. unfold is_u8 in *.
    pose proof (word_sum_nonneg l Hl). repeat (apply List.Forall_cons; [lia |]). apply IH; [done | lia].
Qed.

(** The reply's checksum verifies unless everything but the type and the
    checksum is zero, when the incremental update yields 0 instead of 0xffff. *)
Lemma echo_reply_verifies code c r :
  is_u8 code -> is_u16 c -> Forall is_u8 r -> Zlen r <= 131000 ->
  inet_chksum (8 :: code :: be16 c ++ r) = 0 ->
  inet_chksum (0 :: code :: be16 (echo_chksum c) ++ r)
  = if bool_decide (code = 0 /\ Forall (fun b => b = 0) r) then 0xffff else 0.
Proof.
  intros Hcode Hc Hr Hl Hv. destruct (echo_chksum_spec c Hc) as [Hc' Hcc].
  assert (Hu8 : forall t x, is_u8 t -> Forall is_u8 (t :: code :: be16 x ++ r)).
  { intros t x Ht. do 2 (apply List.Forall_cons; [done |]). apply Forall_app; split; [apply be16_u8 | done]. }
  assert (Hlen : forall t x, Zlen (t :: code :: be16 x ++ r) <= 131072)
    by (intros; autorewrite with zlen; rewrite ?Zlen_app; change (Zlen (be16 x)) with 2; lia).
  destruct (inet_chksum_spec _ (Hu8 8 c ltac:(done)) (Hlen 8 c)) as (_ & Hz & _).
  apply Hz in Hv as [Hv _]. rewrite echo_sum in Hv by done.
  destruct (inet_chksum_spec _ (Hu8 0 (echo_chksum c) ltac:(done)) (Hlen 0 (echo_chksum c))) as (Hr2 & Hz2 & Hc2).
  rewrite echo_sum in Hz2, Hc2 by done.
  assert (Hs : ceq (0 * 256 + code + echo_chksum c + word_sum r) 0).
  { rewrite Hcc. etrans; [| exact Hv]. apply ceq_refl_eq. lia. }
  pose proof (word_sum_nonneg r Hr) as Hnn. unfold is_u8, is_u16 in *.
  case_bool_decide as Hb.
  - destruct Hb as [-> Hb0].
    assert (Hw : word_sum r = 0).
    { clear - Hb0. induction r as [| a | a b l IH] using list_ind2; [done | |].
      - apply Forall_inv in Hb0. subst. done.
      - apply Forall_cons in Hb0 as [-> [-> Hl]%Forall_cons]. cbn. by rewrite IH. }
    rewrite Hw in *. assert (echo_chksum c = 0 \/ echo_chksum c = 65535) as [E | E].
    { destruct Hs as [k Hk]. lia. }
    + rewrite E in *. destruct Hc2 as [k Hk].
      assert (inet_chksum (0 :: 0 :: be16 0 ++ r) <> 0) by (intros H0; apply Hz2 in H0 as [_ ?]; lia).
      lia.
    + exfalso. unfold echo_chksum in E. change (Z.shiftl ICMP_ECHO 8) with 2048 in E.
      destruct (Z.leb_spec (0xffff - 2048) c); word.
  - apply Hz2. split; [done |]. intros H0. apply Hb. split; [lia |].
    apply word_sum_zero; [done | lia].
Qed.

(** ** The reply packet *)

Lemma get32_be32 x l : is_u32 x -> get32 (be32 x ++ l) 0 = x.
Proof.
  intros Hx. unfold get32, get16, byte_at, be32. cbn [app nth].
  rewrite !Z.shiftr_div_pow2 by lia. change (2 ^ 24) with 16777216. change (2 ^ 16) with 65536.
  change (2 ^ 8) with 256. word.
Qed.

Lemma echo_reply_ip_spec src dest h d :
  length h = 20%nat -> Forall is_u8 h -> is_u32 src -> is_u32 dest ->
  exists h', echo_reply_ip src dest (h ++ d) = h' ++ d /\ length h' = 20%nat /\ Forall is_u8 h'
    /\ inet_chksum h' = 0 /\ get32 h' 12 = dest /\ get32 h' 16 = src /\ byte_at h' 8 = 255
    /\ take 8 h' = take 8 h /\ byte_at h' 9 = byte_at h 9.
Proof.
  intros Hl H8 Hs Hd. unfold echo_reply_ip.
  do 20 (destruct h as [| ? h]; [discriminate Hl |]). destruct h; [clear Hl | discriminate Hl].
  set (l := [_; _; _; _; _; _; _; _; _; _; _; _; _; _; _; _; _; _; _; _]) in *.
  set (l5 := put 10 (be16 0) (put 8 [ICMP_TTL] (put 16 (be32 src) (put 12 (be32 dest) l)))).
  assert (E5 : put 10 (be16 0) (put 8 [ICMP_TTL] (put 16 (be32 src) (put 12 (be32 dest) (l ++ d)))) = l5 ++ d)
    by reflexivity.
  cbv zeta. rewrite E5. change (take 20 (l5 ++ d)) with l5. set (c := inet_chksum l5).
  assert (H5 : Forall is_u8 l5).
  { unfold l5. repeat apply Forall_put; try apply be16_u8; try apply be32_u8; [done |].
    apply List.Forall_cons; [split; done | apply List.Forall_nil]. }
  exists (put 10 (be16 c) l5). split_and!.
  - reflexivity.
  - reflexivity.
  - apply Forall_put; [done | apply be16_u8].
  - apply chksum_fill; try done. change (length l5) with 20%nat. lia.
  - change (get32 (put 10 (be16 c) l5) 12) with (get32 (be32 dest) 0).
    rewrite <- (app_nil_r (be32 dest)). by apply get32_be32.
  - change (get32 (put 10 (be16 c) l5) 16) with (get32 (be32 src) 0).
    rewrite <- (app_nil_r (be32 src)). by apply get32_be32.
  - reflexivity.
  - reflexivity.
  - reflexivity.
Qed.

(** Header moves undo each other. *)
Lemma pbuf_header_back p n p' : 0 < n -> pbuf_header p n = Some p' -> pbuf_header p' (- n) = Some p.
Proof.
  intros Hn H. unfold pbuf_header in H.
  destruct (Z.eqb_spec n 0); [lia |]. destruct (Z.ltb_spec n 0); [lia |].
  assert (Hgo : (if Zlen (ps_pre (pb_first p)) <? n then None else
      Some (mk_pbuf (mk_pseg (ps_type (pb_first p)) (take (length (ps_pre (pb_first p)) - Z.to_nat n) (ps_pre (pb_first p)))
         (drop (length (ps_pre (pb_first p)) - Z.to_nat n) (ps_pre (pb_first p)) ++ ps_data (pb_first p)))
         (pb_next p) (pb_flags p))) = Some p') by (destruct (ps_type (pb_first p)); done).
  clear H. destruct (Z.ltb_spec (Zlen (ps_pre (pb_first p))) n) as [|Hr]; [done |]. injection Hgo as <-.
  unfold Zlen in Hr. set (k := (length (ps_pre (pb_first p)) - Z.to_nat n)%nat).
  assert (Hlen : length (drop k (ps_pre (pb_first p))) = Z.to_nat n) by (rewrite length_drop; unfold k; lia).
  unfold pbuf_header. destruct (Z.eqb_spec (- n) 0); [lia |]. destruct (Z.ltb_spec (- n) 0); [| lia].
  rewrite Z.opp_involutive. unfold p_len, p_payload. cbn [pb_first ps_data ps_pre ps_type pb_next pb_flags].
  destruct (Z.leb_spec n (Zlen (drop k (ps_pre (pb_first p)) ++ ps_data (pb_first p))));
    [| unfold Zlen in *; rewrite length_app in *; lia].
  rewrite take_app_length', drop_app_length' by lia. rewrite take_drop.
  destruct p as [[ty pre dat] nx fl]. done.
Qed.

(** Removing a header of known bytes. *)
Lemma pbuf_header_strip p h d :
  p_payload p = h ++ d -> h <> [] ->
  pbuf_header p (- Zlen h)
  = Some (mk_pbuf (mk_pseg (ps_type (pb_first p)) (ps_pre (pb_first p) ++ h) d) (pb_next p) (pb_flags p)).
Proof.
  intros Hp Hh. assert (Hl : 0 < Zlen h) by (destruct h; [done | rewrite Zlen_cons; pose proof (Zlen_nonneg h); lia]).
  unfold pbuf_header. destruct (Z.eqb_spec (- Zlen h) 0); [lia |]. destruct (Z.ltb_spec (- Zlen h) 0); [| lia].
  rewrite Z.opp_involutive. unfold p_len. rewrite Hp. unfold p_payload in Hp. rewrite Hp.
  rewrite Zlen_app. pose proof (Zlen_nonneg d). destruct (Z.leb_spec (Zlen h) (Zlen h + Zlen d)); [| lia].
  unfold Zlen. by rewrite Nat2Z.id, take_app_length, drop_app_length.
Qed.

(** Uncovering it again. *)
Lemma pbuf_header_uncover p pre h :
  ps_pre (pb_first p) = pre ++ h -> h <> [] ->
  ps_type (pb_first p) = PBUF_RAM \/ ps_type (pb_first p) = PBUF_POOL ->
  pbuf_header p (Zlen h)
  = Some (mk_pbuf (mk_pseg (ps_type (pb_first p)) pre (h ++ p_payload p)) (pb_next p) (pb_flags p)).
Proof.
  intros Hp Hh Ht. assert (Hl : 0 < Zlen h) by (destruct h; [done | rewrite Zlen_cons; pose proof (Zlen_nonneg h); lia]).
  unfold pbuf_header. destruct (Z.eqb_spec (Zlen h) 0); [lia |]. destruct (Z.ltb_spec (Zlen h) 0); [lia |].
  rewrite Hp, Zlen_app. pose proof (Zlen_nonneg pre). destruct (Z.ltb_spec (Zlen pre + Zlen h) (Zlen h)); [lia |].
  replace (length (pre ++ h) - Z.to_nat (Zlen h))%nat with (length pre)
    by (rewrite length_app; unfold Zlen; lia).
  rewrite take_app_length, drop_app_length. by destruct Ht as [-> | ->].
Qed.

(** The pbuf checksum of a message that starts with a nonzero byte. *)
Lemma chain_pos segs acc sw :
  Forall (fun d => Forall is_u8 d /\ Zlen d <= 131072) segs -> 0 < acc <= 65535 ->
  0 < fst (chksum_chain segs acc sw) <= 65535.
Proof.
  revert acc sw; induction segs as [| d segs IH]; intros acc sw Hs Ha; cbn [chksum_chain]; [done |].
  apply Forall_cons in Hs as [[Hd Hlen] Hs].
  destruct (chksum_spec false d Hd Hlen) as (Hr & _). fold (LWIP_CHKSUM d) in Hr.
  rewrite u32_small by (unfold is_u32; lia).
  assert (Hf : 0 < FOLD_U32T (acc + LWIP_CHKSUM d) <= 65535).
  { rewrite fold_spec by word. word. }
  destruct (negb _); apply IH; try done.
  destruct (swap_ceq (FOLD_U32T (acc + LWIP_CHKSUM d))) as (? & _ & Hz); lia.
Qed.

(** The pbuf checksum against the checksum of the bytes. *)
Lemma chksum_pbuf_bytes p x d :
  pbuf_ok p -> p_payload p = x :: d -> 0 < x -> inet_chksum (p_bytes p) = 0 -> inet_chksum_pbuf p = 0.
Proof.
  intros Hp Hx Hpos Hv. destruct (chksum_pbuf_acc p Hp) as (acc & sw & E & Hr & Hc). cbn zeta in *.
  destruct Hp as [H8 Hl]. apply (inet_chksum_spec _ H8 Hl) in Hv as [Hv _].
  assert (Hpos' : 0 < acc <= 65535).
  { destruct (pbuf_ok_segs p (conj H8 Hl)) as [Hs _]. unfold pbuf_segs in E, Hs. cbn [map] in E, Hs.
    change (ps_data (pb_first p)) with (p_payload p) in *.
    apply Forall_cons in Hs as [[Hd Hdl] Hs]. cbn [chksum_chain] in E.
    destruct (chksum_spec false _ Hd Hdl) as (Hr1 & _ & Hz1). fold (LWIP_CHKSUM (p_payload p)) in Hr1, Hz1.
    assert (Hw : word_sum (p_payload p) <> 0).
    { intros Hw. apply word_sum_zero in Hw; [| done]. rewrite Hx in Hw. apply Forall_inv in Hw. lia. }
    rewrite u32_small in E by (unfold is_u32; lia).
    assert (Hf : 0 < FOLD_U32T (0 + LWIP_CHKSUM (p_payload p)) <= 65535)
      by (rewrite fold_spec by word; word).
    replace acc with (fst (acc, sw)) by done. rewrite <- E. destruct (negb _); apply chain_pos; try done.
    destruct (swap_ceq (FOLD_U32T (0 + LWIP_CHKSUM (p_payload p)))) as (? & _ & Hz); lia. }
  assert (Ha : 0 < (if sw then SWAP_BYTES_IN_WORD acc else acc)).
  { destruct sw; [| lia]. destruct (swap_ceq acc) as (? & _ & Hz); lia. }
  unfold inet_chksum_pbuf. rewrite E. set (a := if sw then _ else _) in *.
  rewrite Hv in Hc. destruct Hc as [k Hk]. assert (a = 65535) as -> by lia. reflexivity.
Qed.

(** ** Properties *)

(** The checksum of an echo reply: for every echo request that verifies, the
    incremental update [icmp_input] makes when it turns the request into a reply
    yields a message that verifies too, except when the code, the identifier,
    the sequence number and all data bytes are zero: then the reply carries the
    checksum 0 instead of 0xffff and a receiver rejects it. *)
Theorem echo_reply_checksum code c r
  (Hcode : is_u8 code) (Hc : is_u16 c) (Hr : Forall is_u8 r) (Hl : Zlen r <= 131000)
  (Hv : inet_chksum (ICMP_ECHO :: code :: be16 c ++ r) = 0) :
  echo_reply_icmp (ICMP_ECHO :: code :: be16 c ++ r) = ICMP_ER :: code :: be16 (echo_chksum c) ++ r
  /\ inet_chksum (ICMP_ER :: code :: be16 (echo_chksum c) ++ r)
     = if bool_decide (code = 0 /\ Forall (fun b => b = 0) r) then 0xffff else 0.
Proof. split; [by apply echo_reply_icmp_eq | by apply echo_reply_verifies]. Qed.

Lemma echo_reply_checksum_witness :
  echo_reply_icmp (ICMP_ECHO :: 0 :: be16 0xf7ff ++ [0; 0; 0; 0]) = ICMP_ER :: 0 :: be16 0 ++ [0; 0; 0; 0]
  /\ inet_chksum (ICMP_ER :: 0 :: be16 0 ++ [0; 0; 0; 0]) = 0xffff.
Proof.
  apply (echo_reply_checksum 0 0xf7ff [0; 0; 0; 0]).
  - split; [discriminate | reflexivity].
  - split; [discriminate | reflexivity].
  - repeat (apply List.Forall_cons; [split; [discriminate | reflexivity] |]). apply List.Forall_nil.
  - discriminate.
  - vm_compute. reflexivity.
Defined.

(** C38. Pings are answered from the address they were sent to: for a verifying
    echo request to a unicast address, in a packet of any division into pbufs
    with the headers in the first and room for the Ethernet header in front, and
    a sender whose next hop is resolved on the receiving interface,
    [icmp_input] puts on the wire, after at most one ARP refresh, one frame to
    the MAC of the next hop with an IP header that verifies and has source and
    destination exchanged, and the ICMP message with type echo reply, the
    updated checksum and all other bytes as received. *)
Theorem echo_reply_sent p inp src dest s h code c r0 hop i
  (Hp : p_payload p = h ++ ICMP_ECHO :: code :: be16 c ++ r0) (Hh : length h = 20%nat)
  (Hihl : IPH_HLEN h = 20) (Hh8 : Forall is_u8 h)
  (Hr0 : 4 <= Zlen r0) (Hroom : 14 <= Zlen (ps_pre (pb_first p)))
  (Hty : ps_type (pb_first p) = PBUF_RAM \/ ps_type (pb_first p) = PBUF_POOL)
  (Hm8 : Forall is_u8 (r0 ++ mjoin (map ps_data (pb_next p)))) (Hcode : is_u8 code) (Hc : is_u16 c)
  (Hlen : Zlen (r0 ++ mjoin (map ps_data (pb_next p))) <= 65000)
  (Hv : inet_chksum (ICMP_ECHO :: code :: be16 c ++ r0 ++ mjoin (map ps_data (pb_next p))) = 0)
  (Hsrc : is_u32 src) (Hdest : is_u32 dest)
  (Hmcd : ip_addr_ismulticast dest = false)
  (Hbcd : ip4_addr_isbroadcast dest (netif_of s inp) = false)
  (Hinv : arp_inv s) (Hconf : netif_conf (netif_of s inp))
  (Hbc : ip4_addr_isbroadcast src (netif_of s inp) = false) (Hmc : ip_addr_ismulticast src = false)
  (Hhop : next_hop (netif_of s inp) src = Some hop)
  (Hi : (i < ARP_TABLE_SIZE)%nat) (Hst : stable (arp_entry s i))
  (Hip : ae_ipaddr (arp_entry s i) = hop) (Hmac : length (ae_ethaddr (arp_entry s i)) = 6%nat) :
  exists w h', n_wire (icmp_input p inp src dest s) = n_wire s ++ w
      ++ [data_frame (netif_of s inp) (ae_ethaddr (arp_entry s i))
           (h' ++ ICMP_ER :: code :: be16 (echo_chksum c) ++ r0 ++ mjoin (map ps_data (pb_next p)))]
    /\ (w = [] \/ w = [request_frame (netif_of s inp) hop])
    /\ length h' = 20%nat /\ inet_chksum h' = 0 /\ get32 h' 12 = dest /\ get32 h' 16 = src
    /\ take 8 h' = take 8 h.
Proof.
  set (rest := mjoin (map ps_data (pb_next p))) in *.
  assert (Ehl : IPH_HLEN (p_payload p) = Zlen h).
  { unfold IPH_HLEN, byte_at in *. rewrite Hp, app_nth1 by lia. unfold Zlen. by rewrite Hh. }
  assert (Hnil : h <> []) by (by intros ->).
  unfold icmp_input. rewrite Ehl. rewrite (pbuf_header_strip p h _ Hp Hnil).
  set (p1 := mk_pbuf _ _ _).
  assert (Hb1 : p_bytes p1 = ICMP_ECHO :: code :: be16 c ++ r0 ++ rest).
  { unfold p_bytes, p1, p_payload. cbn [pb_first pb_next ps_data]. cbn. reflexivity. }
  assert (Ht1 : 8 <= p_tot_len p1).
  { unfold p_tot_len. rewrite Hb1. autorewrite with zlen. change (Zlen (be16 c)) with 2.
    pose proof (Zlen_nonneg rest). lia. }
  destruct (Z.ltb_spec (p_tot_len p1) 4); [lia |].
  change (byte_at (p_payload p1) 0) with ICMP_ECHO. rewrite Z.eqb_refl, Hmcd, Hbcd. cbn [orb].
  change SIZEOF_ICMP_ECHO_HDR with 8. destruct (Z.ltb_spec (p_tot_len p1) 8); [lia |].
  assert (Hok1 : pbuf_ok p1).
  { unfold pbuf_ok, p_tot_len. rewrite Hb1. split.
    - apply List.Forall_cons; [done |]. apply List.Forall_cons; [done |].
      apply Forall_app; split; [apply be16_u8 | done].
    - rewrite Zlen_app in Hlen. autorewrite with zlen. change (Zlen (be16 c)) with 2. lia. }
  rewrite (chksum_pbuf_bytes p1 ICMP_ECHO (code :: be16 c ++ r0)) by (done || by rewrite Hb1). cbn [negb Z.eqb].
  unfold icmp_room.
  destruct (pbuf_header_room p1 (20 + SIZEOF_ETH_HDR)) as [p2 E2].
  { change (ps_pre (pb_first p1)) with (ps_pre (pb_first p) ++ h). rewrite Zlen_app.
    change (20 + SIZEOF_ETH_HDR) with 34. unfold Zlen in *. rewrite Hh. lia. }
  { done. }
  rewrite E2, (pbuf_header_back p1 (20 + SIZEOF_ETH_HDR) p2 eq_refl E2).
  rewrite (pbuf_header_uncover _ (ps_pre (pb_first p)) h) by done.
  change (p_payload (set_payload ?d _)) with d.
  change (p_payload p1) with (8 :: code :: be16 c ++ r0). rewrite echo_reply_icmp_eq by done.
  set (d' := 0 :: code :: be16 (echo_chksum c) ++ r0).
  destruct (echo_reply_ip_spec src dest h d' Hh Hh8 Hsrc Hdest)
    as (h' & E3 & Hl' & _ & Hck & Hgd & Hgs & _ & Htk & _).
  unfold p_payload at 1. cbn [pb_first ps_data]. rewrite E3.
  set (q := set_payload (h' ++ d') _).
  cbn [ip_output_if]. unfold netif_output. destruct Hconf as (Hlo & Ho & Hhw) eqn:Econf. rewrite Ho.
  assert (Eg : get32 (p_payload q) 16 = src).
  { rewrite <- Hgs. change (p_payload q) with (h' ++ d'). unfold get32, get16, byte_at.
    by rewrite !app_nth1 by lia. }
  rewrite Eg.
  destruct (output_resolved_sent inp q src hop i s) as (s' & w & E & Hw & Hcw); try done.
  { apply pbuf_header_room; [| done]. change (ps_pre (pb_first q)) with (ps_pre (pb_first p)). done. }
  rewrite E. cbn [snd]. exists w, h'. split; [| done].
  rewrite Hw. do 4 f_equal. unfold p_bytes. change (p_payload q) with (h' ++ d').
  change (pb_next q) with (pb_next p). fold rest. unfold d'. by rewrite <- !app_assoc.
Qed.

(** A ping from 10.0.0.1 to 10.0.0.10. *)
Definition ex_ping_hdr : list Z := ip_header 0 32 1 64 1 0 0x0a000001 0x0a00000a.
Definition ex_ping : pbuf :=
  mk_pbuf (mk_pseg PBUF_POOL (replicate 14 0)
    (ex_ping_hdr ++ ICMP_ECHO :: 0 :: be16 0x3236 ++ [1; 2; 0; 1; 97; 98; 99; 100])) [] 0.

Lemma echo_reply_sent_witness :
  exists w h', n_wire (icmp_input ex_ping (HdkNetIF 0) 0x0a000001 0x0a00000a ex_net_resolved)
    = n_wire ex_net_resolved ++ w
      ++ [data_frame (netif_of ex_net_resolved (HdkNetIF 0)) [9; 8; 7; 6; 5; 4]
           (h' ++ ICMP_ER :: 0 :: be16 0x3a36 ++ [1; 2; 0; 1; 97; 98; 99; 100])]
    /\ (w = [] \/ w = [request_frame (netif_of ex_net_resolved (HdkNetIF 0)) 0x0a000001])
    /\ length h' = 20%nat /\ inet_chksum h' = 0 /\ get32 h' 12 = 0x0a00000a /\ get32 h' 16 = 0x0a000001
    /\ take 8 h' = take 8 ex_ping_hdr.
Proof.
  apply (echo_reply_sent ex_ping (HdkNetIF 0) 0x0a000001 0x0a00000a ex_net_resolved ex_ping_hdr 0 0x3236
           [1; 2; 0; 1; 97; 98; 99; 100] 0x0a000001 0);
    try reflexivity; try exact ex_arp_inv_resolved; try (split; vm_compute; congruence);
    try (vm_compute; congruence).
  - repeat (apply List.Forall_cons; [split; vm_compute; congruence |]). apply List.Forall_nil.
  - right. reflexivity.
  - repeat (apply List.Forall_cons; [split; vm_compute; congruence |]). apply List.Forall_nil.
  - repeat split; reflexivity.
  - apply Nat.lt_0_succ.
Defined.
