(* ===== verification/Tcp.v ===== *)
(** * TCP without connections (core/tcp_in.c, core/tcp_out.c)

    Nothing in the program creates a TCP control block: [httpd_init] is commented
    out in lwip_main.c.  The three lists [tcp_input] searches are therefore
    empty, and every segment that is not dropped reaches the branch that answers
    with a reset.  The connections themselves are not modelled. *)

From S2P Require Import Prelude NetTypes IpAddr Pbuf Chksum Net Chain Etharp Netif Ip UdpSend Icmp.

Definition IP_PROTO_TCP : Z := 6.
Definition TCP_FIN : Z := 0x01.
Definition TCP_SYN : Z := 0x02.
Definition TCP_RST : Z := 0x04.
Definition TCP_ACK : Z := 0x10.
Definition TCP_FLAGS : Z := 0x3f.
Definition TCP_HLEN : Z := 20.
Definition TCP_WND : Z := 4096.
Definition TCP_TTL : Z := 255.

(** [TCPH_HDRLEN], [TCPH_FLAGS]. *)
Definition TCPH_HDRLEN (h : list Z) : Z := Z.shiftr (ntohs (get16 h 12)) 12.
Definition TCPH_FLAGS (h : list Z) : Z := Z.land (ntohs (get16 h 12)) TCP_FLAGS.

(** The header [tcp_rst] writes. *)
Definition rst_header (seqno ackno local_port remote_port chksum : Z) : list Z :=
  be16 (htons local_port) ++ be16 (htons remote_port) ++ be32 (htonl seqno) ++ be32 (htonl ackno)
  ++ be16 (htons (Z.lor (Z.shiftl (TCP_HLEN / 4) 12) (Z.lor TCP_RST TCP_ACK)))
  ++ be16 TCP_WND ++ be16 chksum ++ be16 0.

(** [tcp_rst]. *)
Definition tcp_rst (seqno ackno local_ip remote_ip local_port remote_port : Z) (s : net) : net :=
  match net_pbuf_alloc PBUF_IP TCP_HLEN s with
  | (None, s) => s
  | (Some p, s) =>
      let p := set_payload (put 0 (rst_header seqno ackno local_port remote_port 0) (p_payload p)) p in
      let c := inet_chksum_pseudo p local_ip remote_ip IP_PROTO_TCP (u16 (p_tot_len p)) in
      let p := set_payload (put 16 (be16 c) (p_payload p)) p in
      snd (ip_output p local_ip remote_ip TCP_TTL 0 IP_PROTO_TCP s)
  end.

(** [tcp_input]; [src] and [dest] are the addresses of the IP header. *)
Definition tcp_input (p : pbuf) (inp : netif_ptr) (src dest : Z) (s : net) : net :=
  match pbuf_header p (- IPH_HLEN (p_payload p)) with
  | None => s
  | Some p =>
      if p_tot_len p <? TCP_HLEN then s
      else if ip4_addr_isbroadcast dest (netif_of s inp) || ip_addr_ismulticast dest then s
      else if negb (inet_chksum_pseudo p src dest IP_PROTO_TCP (u16 (p_tot_len p)) =? 0) then s
      else
        let tcphdr := p_payload p in
        match pbuf_header p (- (TCPH_HDRLEN tcphdr * 4)) with
        | None => s
        | Some p =>
            let seqno := ntohl (get32 tcphdr 4) in
            let ackno := ntohl (get32 tcphdr 8) in
            let flags := TCPH_FLAGS tcphdr in
            let tcplen := u16 (p_tot_len p
              + if negb (Z.land flags (Z.lor TCP_FIN TCP_SYN) =? 0) then 1 else 0) in
            if Z.land flags TCP_RST =? 0
            then tcp_rst ackno (u32 (seqno + tcplen)) dest src
                   (ntohs (get16 tcphdr 2)) (ntohs (get16 tcphdr 0)) s
            else s
        end
  end.

Lemma tcp_rst_keeps seqno ackno lip rip lport rport s : keeps s (tcp_rst seqno ackno lip rip lport rport s).
Proof.
  unfold tcp_rst. destruct (net_pbuf_alloc _ _ s) as [[p |] s1] eqn:E; apply pbuf_alloc_keeps in E; [| done].
  destruct (ip_output _ _ _ _ _ _ s1) as [e s2] eqn:E2. cbn [snd].
  etrans; [exact E | by eapply ip_output_keeps].
Qed.

Lemma tcp_input_keeps p inp src dest s : keeps s (tcp_input p inp src dest s).
Proof.
  unfold tcp_input. destruct (pbuf_header p _) as [p1 |]; [| done]. destruct (_ <? _); [done |].
  destruct (_ || _); [done |]. destruct (negb _); [done |]. destruct (pbuf_header p1 _); [| done].
  destruct (_ =? 0); [apply tcp_rst_keeps | done].
Qed.

(** ** The reset on the wire *)

Lemma rst_header_u8 seqno ackno lport rport c : Forall is_u8 (rst_header seqno ackno lport rport c).
Proof. unfold rst_header. repeat (apply Forall_app; split); apply be16_u8 || apply be32_u8. Qed.

(** The stored checksum makes the segment verify, also when it is 0. *)
Lemma rst_verifies p seqno ackno lip rip lport rport :
  p_payload p = rst_header seqno ackno lport rport 0 -> pb_next p = [] ->
  is_u32 lip -> is_u32 rip ->
  let c := inet_chksum_pseudo p lip rip IP_PROTO_TCP 20 in
  is_u16 c
  /\ p_payload (set_payload (put 16 (be16 c) (p_payload p)) p) = rst_header seqno ackno lport rport c
  /\ inet_chksum_pseudo (set_payload (put 16 (be16 c) (p_payload p)) p) lip rip IP_PROTO_TCP 20 = 0.
Proof.
  intros Hp Hn Hl Hr. cbn zeta.
  assert (Hok : pbuf_ok p).
  { unfold pbuf_ok, p_tot_len, p_bytes. rewrite Hp, Hn, app_nil_r. split; [apply rst_header_u8 | by vm_compute]. }
  assert (Hlen : is_u16 20) by (split; done).
  destruct (pseudo_spec p lip rip IP_PROTO_TCP 20 Hok Hl Hr ltac:(done) Hlen) as (y & E & Hy & _).
  assert (Hb : byte_at (p_payload p) 16 = 0 /\ byte_at (p_payload p) 17 = 0) by (by rewrite Hp).
  pose proof (pseudo_verify_put p lip rip IP_PROTO_TCP 20 16 Hok Hl Hr ltac:(done) Hlen eq_refl
    ltac:(rewrite Hp; cbn; lia) (proj1 Hb) (proj2 Hb)) as [_ Hv].
  set (c := inet_chksum_pseudo p lip rip IP_PROTO_TCP 20) in *.
  split; [unfold is_u16; lia | split; [by rewrite Hp |]].
  unfold chksum_field in Hv. destruct (Z.eqb_spec c 0) as [H0 | Hne]; [| exact Hv].
  assert (E0 : set_payload (put 16 (be16 c) (p_payload p)) p = p).
  { rewrite H0, Hp. destruct p as [[ty pre d] nx fl]. unfold set_payload. cbn in *. by rewrite Hp. }
  by rewrite E0.
Qed.

(** [tcp_rst] with a route and a resolved next hop. *)
Lemma tcp_rst_sent seqno ackno lip rip lport rport np hop i s
  (Hlip : is_u32 lip) (Hrip : is_u32 rip) (Hlip0 : lip <> 0)
  (Hheap : n_heap s = []) (Hid : is_u16 (ip_id s)) (Hroute : ip_route rip s = Some np)
  (Hinv : arp_inv s) (Hconf : netif_conf (netif_of s np))
  (Hbc : ip4_addr_isbroadcast rip (netif_of s np) = false) (Hmc : ip_addr_ismulticast rip = false)
  (Hhop : next_hop (netif_of s np) rip = Some hop)
  (Hi : (i < ARP_TABLE_SIZE)%nat) (Hst : stable (arp_entry s i))
  (Hip : ae_ipaddr (arp_entry s i) = hop) (Hmac : length (ae_ethaddr (arp_entry s i)) = 6%nat) :
  exists w c,
    let ip := ip_header 0 40 (ip_id s) TCP_TTL IP_PROTO_TCP
                (ip_chksum_inline 0 40 (ip_id s) TCP_TTL IP_PROTO_TCP lip rip) lip rip in
    let rst := rst_header seqno ackno lport rport c in
    n_wire (tcp_rst seqno ackno lip rip lport rport s) = n_wire s ++ w
      ++ [data_frame (netif_of s np) (ae_ethaddr (arp_entry s i)) (ip ++ rst)]
    /\ (w = [] \/ w = [request_frame (netif_of s np) hop])
    /\ inet_chksum ip = 0
    /\ inet_chksum_pseudo (flat_pbuf rst) lip rip IP_PROTO_TCP 20 = 0.
Proof.
  cbn zeta. unfold tcp_rst. destruct (pbuf_alloc_ram_ok PBUF_IP TCP_HLEN) as [p Ep]; [by unfold TCP_HLEN |].
  assert (Ea : net_pbuf_alloc PBUF_IP TCP_HLEN s = (Some p, s)).
  { unfold net_pbuf_alloc. rewrite Hheap, Ep. f_equal. destruct s. cbn in *. by subst. }
  rewrite Ea. destruct (pbuf_alloc_ram_some PBUF_IP TCP_HLEN _ _ _ ltac:(done) Ep) as (Hl & Hn & Hty & _ & Hroom).
  set (h0 := rst_header seqno ackno lport rport 0). set (p1 := set_payload (put 0 h0 (p_payload p)) p).
  assert (E1 : p_payload p1 = h0).
  { change (p_payload p1) with (put 0 h0 (p_payload p)). rewrite (put0_drop _ _ 20) by (done || (unfold p_len, Zlen, TCP_HLEN in Hl; lia)).
    rewrite drop_ge, app_nil_r by (unfold p_len, Zlen, TCP_HLEN in Hl; lia). done. }
  assert (Hn1 : pb_next p1 = []) by done.
  assert (Ht1 : u16 (p_tot_len p1) = 20) by (unfold p_tot_len, p_bytes; rewrite E1, Hn1; reflexivity).
  rewrite Ht1. destruct (rst_verifies p1 seqno ackno lip rip lport rport E1 Hn1 Hlip Hrip) as (Hc & E2 & Hv).
  set (c := inet_chksum_pseudo p1 lip rip IP_PROTO_TCP 20) in *. set (p2 := set_payload (put 16 _ _) p1) in *.
  assert (Hb2 : p_bytes p2 = rst_header seqno ackno lport rport c).
  { unfold p_bytes. rewrite E2. change (pb_next p2) with (pb_next p1). rewrite Hn1. apply app_nil_r. }
  assert (Ht2 : p_tot_len p2 = 20) by (unfold p_tot_len; rewrite Hb2; reflexivity).
  unfold ip_output. rewrite Hroute.
  destruct (ip_output_if_sent p2 lip rip TCP_TTL 0 IP_PROTO_TCP np hop i s) as (s' & w & E & Hw & Hcw); try done.
  { change (ps_pre (pb_first p2)) with (ps_pre (pb_first p)). lia. }
  { lia. } { by apply Z.eqb_neq. }
  rewrite E. cbn [snd]. exists w, c. rewrite Hw, Hb2, Ht2. split_and!; [done | done | |].
  - apply ip_header_verifies; done || (unfold is_u8, is_u16, TCP_TTL, IP_PROTO_TCP; lia).
  - rewrite <- Hv. apply pseudo_division; [| by rewrite p_bytes_flat, Hb2 | done | done | done | by split].
    unfold pbuf_ok. rewrite Ht2, Hb2. split; [apply rst_header_u8 | done].
Qed.

(** C32. A TCP segment for any port is answered with a reset: a segment (header [t],
    data [d0] and what the other pbufs hold) that verifies, without the RST
    flag, to a unicast address, whose sender is routed over an interface with
    the next hop resolved, makes [tcp_input] put on the wire, after at most one
    ARP refresh, one frame: from the address and port the segment was sent to,
    back to its source, flags RST and ACK, the sequence number the segment
    acknowledged, and an acknowledgement of exactly its data plus one for SYN or
    FIN, modulo 2^32.  Both checksums of the answer verify. *)
Theorem tcp_reset_sent p inp src dest s h t d0 np hop i
  (Hp : p_payload p = h ++ t ++ d0) (Hh : Zlen h = IPH_HLEN h) (Hh0 : 20 <= Zlen h)
  (Ht : Zlen t = 4 * TCPH_HDRLEN t) (Ht0 : 20 <= Zlen t)
  (H8 : Forall is_u8 (t ++ d0 ++ mjoin (map ps_data (pb_next p))))
  (Hlen : Zlen (t ++ d0 ++ mjoin (map ps_data (pb_next p))) <= 65000)
  (Hsrc : is_u32 src) (Hdest : is_u32 dest) (Hdest0 : dest <> 0)
  (Hv : inet_chksum_pseudo (flat_pbuf (t ++ d0 ++ mjoin (map ps_data (pb_next p)))) src dest IP_PROTO_TCP
          (Zlen (t ++ d0 ++ mjoin (map ps_data (pb_next p)))) = 0)
  (Hrst : Z.land (TCPH_FLAGS t) TCP_RST = 0)
  (Hbd : ip4_addr_isbroadcast dest (netif_of s inp) = false) (Hmd : ip_addr_ismulticast dest = false)
  (Hheap : n_heap s = []) (Hid : is_u16 (ip_id s)) (Hroute : ip_route src s = Some np)
  (Hinv : arp_inv s) (Hconf : netif_conf (netif_of s np))
  (Hbc : ip4_addr_isbroadcast src (netif_of s np) = false) (Hmc : ip_addr_ismulticast src = false)
  (Hhop : next_hop (netif_of s np) src = Some hop)
  (Hi : (i < ARP_TABLE_SIZE)%nat) (Hst : stable (arp_entry s i))
  (Hip : ae_ipaddr (arp_entry s i) = hop) (Hmac : length (ae_ethaddr (arp_entry s i)) = 6%nat) :
  let ack := u32 (get32 t 4 + Zlen (d0 ++ mjoin (map ps_data (pb_next p)))
                  + if Z.land (TCPH_FLAGS t) (Z.lor TCP_FIN TCP_SYN) =? 0 then 0 else 1) in
  exists w c,
    let ip := ip_header 0 40 (ip_id s) TCP_TTL IP_PROTO_TCP
                (ip_chksum_inline 0 40 (ip_id s) TCP_TTL IP_PROTO_TCP dest src) dest src in
    let rst := rst_header (get32 t 8) ack (get16 t 2) (get16 t 0) c in
    n_wire (tcp_input p inp src dest s) = n_wire s ++ w
      ++ [data_frame (netif_of s np) (ae_ethaddr (arp_entry s i)) (ip ++ rst)]
    /\ (w = [] \/ w = [request_frame (netif_of s np) hop])
    /\ inet_chksum ip = 0
    /\ inet_chksum_pseudo (flat_pbuf rst) dest src IP_PROTO_TCP 20 = 0.
Proof.
  cbn zeta. set (rest := mjoin (map ps_data (pb_next p))) in *.
  assert (Ehl : IPH_HLEN (p_payload p) = Zlen h).
  { rewrite Hh. unfold IPH_HLEN, byte_at. rewrite Hp, app_nth1; [done |]. unfold Zlen in Hh0. lia. }
  unfold tcp_input. rewrite Ehl, (pbuf_header_strip p h _ Hp) by (intros ->; done).
  set (p1 := mk_pbuf _ _ _). assert (Hb1 : p_bytes p1 = t ++ d0 ++ rest).
  { unfold p_bytes. change (p_payload p1) with (t ++ d0). change (pb_next p1) with (pb_next p).
    fold rest. by rewrite app_assoc. }
  assert (Hl1 : p_tot_len p1 = Zlen (t ++ d0 ++ rest)) by (unfold p_tot_len; by rewrite Hb1).
  pose proof (Zlen_nonneg d0). pose proof (Zlen_nonneg rest).
  assert (Hall : Zlen (t ++ d0 ++ rest) = Zlen t + (Zlen d0 + Zlen rest)) by (by rewrite !Zlen_app).
  rewrite Hl1. unfold TCP_HLEN at 1. destruct (Z.ltb_spec (Zlen (t ++ d0 ++ rest)) 20); [lia |].
  rewrite Hbd, Hmd. cbn [orb].
  assert (Hu : u16 (Zlen (t ++ d0 ++ rest)) = Zlen (t ++ d0 ++ rest)) by (apply u16_small; unfold is_u16; lia).
  assert (Hok : pbuf_ok (flat_pbuf (t ++ d0 ++ rest)))
    by (unfold pbuf_ok, p_tot_len; rewrite p_bytes_flat; split; [done | lia]).
  rewrite Hu, (pseudo_division (flat_pbuf (t ++ d0 ++ rest)) p1), Hv by
    (done || (by rewrite p_bytes_flat, Hb1) || (unfold is_u16; lia)).
  cbn [negb Z.eqb]. change (p_payload p1) with (t ++ d0).
  assert (Hn : forall k, (k < 20)%nat -> byte_at (t ++ d0) k = byte_at t k)
    by (intros k Hk; unfold byte_at; apply app_nth1; unfold Zlen in Ht0; lia).
  assert (Hg : forall k, (k < 18)%nat -> get16 (t ++ d0) k = get16 t k)
    by (intros k Hk; unfold get16; rewrite !Hn by lia; done).
  assert (E12 : TCPH_HDRLEN (t ++ d0) = TCPH_HDRLEN t /\ TCPH_FLAGS (t ++ d0) = TCPH_FLAGS t)
    by (unfold TCPH_HDRLEN, TCPH_FLAGS; rewrite !Hg by lia; done).
  destruct E12 as [-> ->]. replace (TCPH_HDRLEN t * 4) with (Zlen t) by lia.
  rewrite (pbuf_header_strip p1 t d0) by (done || (intros ->; by cbn in Ht0)).
  set (p2 := mk_pbuf _ _ _). rewrite Hrst. cbn [Z.eqb].
  assert (Ht2 : p_tot_len p2 = Zlen (d0 ++ rest)) by done.
  assert (E32 : get32 (t ++ d0) 8 = get32 t 8 /\ get32 (t ++ d0) 4 = get32 t 4)
    by (unfold get32; rewrite !Hg by lia; done).
  destruct E32 as [-> ->]. unfold ntohl, ntohs. rewrite !Hg by lia. rewrite Ht2.
  assert (Eack : u32 (get32 t 4 + u16 (Zlen (d0 ++ rest) +
       (if negb (Z.land (TCPH_FLAGS t) (Z.lor TCP_FIN TCP_SYN) =? 0) then 1 else 0)))
     = u32 (get32 t 4 + Zlen (d0 ++ rest)
            + (if Z.land (TCPH_FLAGS t) (Z.lor TCP_FIN TCP_SYN) =? 0 then 0 else 1))).
  { rewrite Zlen_app. destruct (Z.land (TCPH_FLAGS t) (Z.lor TCP_FIN TCP_SYN) =? 0); cbn [negb];
      (rewrite u16_small by (unfold is_u16; lia)); f_equal; lia. }
  rewrite Eack. by apply tcp_rst_sent.
Qed.

(** A SYN from 10.0.0.1, port 4000, to port 80 of 10.0.0.10. *)
Definition ex_syn (c : Z) : list Z :=
  be16 4000 ++ be16 80 ++ be32 1000 ++ be32 0 ++ be16 0x5002 ++ be16 512 ++ be16 c ++ be16 0.
Definition ex_syn_chksum : Z :=
  Eval vm_compute in inet_chksum_pseudo (flat_pbuf (ex_syn 0)) 0x0a000001 0x0a00000a 6 20.
Definition ex_syn_pbuf : pbuf := flat_pbuf (ip_header 0 40 1 64 6 0 0x0a000001 0x0a00000a ++ ex_syn ex_syn_chksum).

Definition ex_net_routed : net := set_netif_list (Some (HdkNetIF 0)) ex_net_resolved.

Lemma tcp_reset_sent_witness :
  exists w c, n_wire (tcp_input ex_syn_pbuf (HdkNetIF 0) 0x0a000001 0x0a00000a ex_net_routed)
    = n_wire ex_net_routed ++ w
      ++ [data_frame (netif_of ex_net_routed (HdkNetIF 0)) [9; 8; 7; 6; 5; 4]
           (ip_header 0 40 0 255 6 (ip_chksum_inline 0 40 0 255 6 0x0a00000a 0x0a000001) 0x0a00000a 0x0a000001
            ++ rst_header 0 1001 80 4000 c)].
Proof.
  destruct (tcp_reset_sent ex_syn_pbuf (HdkNetIF 0) 0x0a000001 0x0a00000a ex_net_routed
    (ip_header 0 40 1 64 6 0 0x0a000001 0x0a00000a) (ex_syn ex_syn_chksum) [] (HdkNetIF 0) 0x0a000001 0)
    as (w & c & Hw & _); try reflexivity; try exact ex_arp_inv_resolved; try (split; vm_compute; congruence);
    try (vm_compute; congruence).
  - repeat (apply List.Forall_cons; [split; vm_compute; congruence |]). apply List.Forall_nil.
  - repeat split; reflexivity.
  - apply Nat.lt_0_succ.
  - exists w, c. exact Hw.
Defined.
