(* ===== verification/Raw.v ===== *)
(** * Raw control blocks (core/raw.c)

    The control blocks live in the pool [MEMP_RAW_PCB]; all allocated ones are on
    the list [raw_pcbs].  The receive callbacks are dispatched by a parameter,
    over whatever state they work on. *)

From S2P Require Import Prelude NetTypes IpAddr Pbuf Net Chain Memp Etharp Netif Ip.

Definition MEMP_NUM_RAW_PCB : nat := 4.
Definition RAW_TTL : Z := 255.

(** The callbacks of the program. *)
Inductive raw_recv_fn : Set := Raw_recv_null | Raw_ping_recv.

#[export] Instance raw_recv_fn_eq_dec : EqDecision raw_recv_fn.
Proof. solve_decision. Defined.

Record raw_pcb := mk_raw_pcb {
  rp_local_ip : Z;
  rp_remote_ip : Z;
  rp_tos : Z;
  rp_ttl : Z;
  rp_next : option nat;
  rp_protocol : Z;
  rp_recv : raw_recv_fn
}.
#[export] Instance raw_pcb_inhabited : Inhabited raw_pcb :=
  populate (mk_raw_pcb 0 0 0 0 None 0 Raw_recv_null).

Record raw_st := mk_raw_st {
  r_pcbs : gmap nat raw_pcb;
  raw_pcbs : option nat;
  r_memp : memp
}.
Definition raw_init : raw_st := mk_raw_st ∅ None (memp_init MEMP_NUM_RAW_PCB).

Definition raw_of (r : raw_st) (i : nat) : raw_pcb := r_pcbs r !!! i.
Definition raw_next (r : raw_st) (i : nat) : option nat := rp_next (raw_of r i).
Definition upd_raw (i : nat) (f : raw_pcb -> raw_pcb) (r : raw_st) : raw_st :=
  mk_raw_st (<[i := f (raw_of r i)]> (r_pcbs r)) (raw_pcbs r) (r_memp r).
Definition set_raw_pcbs h (r : raw_st) := mk_raw_st (r_pcbs r) h (r_memp r).

Definition rp_set_next n p := mk_raw_pcb (rp_local_ip p) (rp_remote_ip p) (rp_tos p) (rp_ttl p) n
  (rp_protocol p) (rp_recv p).
Definition rp_set_local a p := mk_raw_pcb a (rp_remote_ip p) (rp_tos p) (rp_ttl p) (rp_next p)
  (rp_protocol p) (rp_recv p).
Definition rp_set_remote a p := mk_raw_pcb (rp_local_ip p) a (rp_tos p) (rp_ttl p) (rp_next p)
  (rp_protocol p) (rp_recv p).
Definition rp_set_recv f p := mk_raw_pcb (rp_local_ip p) (rp_remote_ip p) (rp_tos p) (rp_ttl p)
  (rp_next p) (rp_protocol p) f.

Definition raws (r : raw_st) : list nat := walk MEMP_NUM_RAW_PCB (raw_next r) (raw_pcbs r).

(** [raw_new], [raw_bind], [raw_connect], [raw_recv]. *)
Definition raw_new (proto : Z) (r : raw_st) : option nat * raw_st :=
  match memp_malloc (r_memp r) with
  | (None, m) => (None, mk_raw_st (r_pcbs r) (raw_pcbs r) m)
  | (Some i, m) =>
      (Some i, mk_raw_st (<[i := mk_raw_pcb 0 0 0 RAW_TTL (raw_pcbs r) proto Raw_recv_null]> (r_pcbs r))
                 (Some i) m)
  end.
Definition raw_bind (i : nat) (ipaddr : Z) (r : raw_st) : err_t * raw_st :=
  (ERR_OK, upd_raw i (rp_set_local ipaddr) r).
Definition raw_connect (i : nat) (ipaddr : Z) (r : raw_st) : err_t * raw_st :=
  (ERR_OK, upd_raw i (rp_set_remote ipaddr) r).
Definition raw_recv (i : nat) (f : raw_recv_fn) (r : raw_st) : raw_st := upd_raw i (rp_set_recv f) r.

(** [raw_remove]. *)
Fixpoint raw_remove_loop (fuel : nat) (pcb : nat) (pcb2 : option nat) (r : raw_st) : raw_st :=
  match fuel, pcb2 with
  | S f, Some q =>
      let r := if bool_decide (raw_next r q = Some pcb)
               then upd_raw q (rp_set_next (raw_next r pcb)) r else r in
      raw_remove_loop f pcb (raw_next r q) r
  | _, _ => r
  end.
Definition raw_remove (pcb : nat) (r : raw_st) : raw_st :=
  let r :=
    if bool_decide (raw_pcbs r = Some pcb) then set_raw_pcbs (raw_next r pcb) r
    else raw_remove_loop MEMP_NUM_RAW_PCB pcb (raw_pcbs r) r in
  mk_raw_st (r_pcbs r) (raw_pcbs r) (memp_free (Some pcb) (r_memp r)).

(** [raw_sendto], [raw_send]. *)
Definition raw_header_pbuf (p : pbuf) (s : net) : option pbuf * net :=
  match pbuf_header p IP_HLEN with
  | None =>
      match net_pbuf_alloc PBUF_IP 0 s with
      | (None, s) => (None, s)
      | (Some q, s) => (Some (if p_tot_len p =? 0 then q else pbuf_chain q p), s)
      end
  | Some q => (pbuf_header q (- IP_HLEN), s)
  end.
Definition raw_sendto (pcb : nat) (p : pbuf) (ipaddr : Z) (r : raw_st) (s : net) : err_t * net :=
  match raw_header_pbuf p s with
  | (None, s) => (ERR_MEM, s)
  | (Some q, s) =>
      match ip_route ipaddr s with
      | None => (ERR_RTE, s)
      | Some np =>
          let b := raw_of r pcb in
          let src_ip := if ip_addr_isany (rp_local_ip b) then nif_ip_addr (netif_of s np)
                        else rp_local_ip b in
          ip_output_if q src_ip (Some ipaddr) (rp_ttl b) (rp_tos b) (rp_protocol b) np s
      end
  end.
Definition raw_send (pcb : nat) (p : pbuf) (r : raw_st) (s : net) : err_t * net :=
  raw_sendto pcb p (rp_remote_ip (raw_of r pcb)) r s.

(** ** Input *)

Section Input.
Context {St : Type}.
(** [pcb->recv(arg, pcb, p, addr)]: whether the packet was eaten, the packet
    as the callback left it, the state. *)
Variable call : raw_recv_fn -> pbuf -> Z -> St -> bool * pbuf * St.

(** The loop of [raw_input]: the control block that ate the packet and its
    predecessor, the packet and the state. *)
Fixpoint raw_loop (r : raw_st) (proto src dest : Z) (l : list nat) (prev : option nat)
  (p : pbuf) (x : St) : option (option nat * nat) * pbuf * St :=
  match l with
  | [] => (None, p, x)
  | i :: l =>
      let b := raw_of r i in
      if (rp_protocol b =? proto)
         && (ip_addr_isany (rp_local_ip b) || ip_addr_cmp (rp_local_ip b) dest)
         && negb (bool_decide (rp_recv b = Raw_recv_null))
      then
        let '(eaten, p, x) := call (rp_recv b) p src x in
        if eaten then (Some (prev, i), p, x) else raw_loop r proto src dest l (Some i) p x
      else raw_loop r proto src dest l (Some i) p x
  end.

(** [raw_input]; [proto] is the protocol field of the IP header at
    [p->payload]. *)
Definition raw_input (p : pbuf) (proto src dest : Z) (r : raw_st) (x : St)
  : bool * pbuf * raw_st * St :=
  match raw_loop r proto src dest (raws r) None p x with
  | (None, p, x) => (false, p, r, x)
  | (Some (None, _), p, x) => (true, p, r, x)
  | (Some (Some prev, i), p, x) =>
      let r := upd_raw prev (rp_set_next (raw_next r i)) r in
      let r := upd_raw i (rp_set_next (raw_pcbs r)) r in
      (true, p, set_raw_pcbs (Some i) r, x)
  end.

(** When no control block takes the protocol, the packet passes unchanged. *)
Lemma raw_loop_none r proto src dest l prev p x :
  (forall i, i ∈ l -> rp_protocol (raw_of r i) <> proto) ->
  raw_loop r proto src dest l prev p x = (None, p, x).
Proof.
  revert prev; induction l as [| i l IH]; intros prev H; [done |]. cbn [raw_loop].
  rewrite (proj2 (Z.eqb_neq _ _)) by (apply H; left). cbn [andb]. apply IH. intros j Hj. apply H. by right.
Qed.

Lemma raw_input_none p proto src dest r x :
  (forall i, i ∈ raws r -> rp_protocol (raw_of r i) <> proto) ->
  raw_input p proto src dest r x = (false, p, r, x).
Proof. intros H. unfold raw_input. by rewrite raw_loop_none. Qed.

(** What every callback keeps, the control blocks keep. *)
Lemma raw_input_keeps (P : St -> Prop) p proto src dest r x :
  (forall f p a x, P x -> P (snd (call f p a x))) -> P x -> P (snd (raw_input p proto src dest r x)).
Proof.
  intros Hc Hx. unfold raw_input.
  assert (H : forall l prev p x, P x -> P (snd (raw_loop r proto src dest l prev p x))).
  { clear x Hx p. induction l as [| i l IH]; intros prev p x Hx; [done |]. cbn [raw_loop].
    destruct (_ && _); [| by apply IH]. specialize (Hc (rp_recv (raw_of r i)) p src x Hx).
    destruct (call _ p src x) as [[eaten q] z]. destruct eaten; [done | by apply IH]. }
  specialize (H (raws r) None p x Hx). by destruct (raw_loop _ _ _ _ _ _ _ _) as [[[[[prev |] i] |] q] z].
Qed.
End Input.
