(* ===== verification/Ping.v ===== *)
(** * Ping and network scan (src/ping.c)

    One outstanding echo request at a time.  [now] is the RTI counter FRC0 at
    the moment of the call; the busy wait of [ping_wait_reply] is a run over a
    trace of counter readings and of the interrupts between them. *)

From S2P Require Import Prelude NetTypes IpAddr Pbuf Chksum Net Chain Memp Etharp Netif Ip Icmp Raw.

Definition PING_DATA_SIZE : Z := 32.
Definition PING_RTI_TICKS_PER_MS : Z := 9375.
Definition PING_ID : Z := 0xAFAF.

Record ping_result := mk_ping_result {
  pr_from : Z;
  pr_seqno : Z;
  pr_data_len : Z;
  pr_rtt_ms : Z;
  pr_ttl : Z
}.

Record ping_st := mk_ping_st {
  s_ping_pcb : option nat;
  s_seq : Z;
  s_waiting : Z;
  s_reply_valid : Z;
  s_send_tick : Z;
  s_result : ping_result
}.
Definition ping_init : ping_st := mk_ping_st None 0 0 0 0 (mk_ping_result 0 0 0 0 0).

Definition set_ping_pcb i st := mk_ping_st i (s_seq st) (s_waiting st) (s_reply_valid st)
  (s_send_tick st) (s_result st).
Definition set_seq q st := mk_ping_st (s_ping_pcb st) q (s_waiting st) (s_reply_valid st)
  (s_send_tick st) (s_result st).
Definition set_waiting w st := mk_ping_st (s_ping_pcb st) (s_seq st) w (s_reply_valid st)
  (s_send_tick st) (s_result st).
Definition set_reply_valid v st := mk_ping_st (s_ping_pcb st) (s_seq st) (s_waiting st) v
  (s_send_tick st) (s_result st).

(** [ping_recv]: whether the packet was eaten, the packet as it is left, the
    state. *)
Definition ping_recv (now : Z) (p : pbuf) (addr : Z) (st : ping_st) : bool * pbuf * ping_st :=
  if (0 =? s_waiting st) || (1 =? s_reply_valid st) then (false, p, st)
  else
    let ip_hlen := IPH_HLEN (p_payload p) in
    let ttl := byte_at (p_payload p) 8 in
    if p_tot_len p <? u16 (ip_hlen + SIZEOF_ICMP_ECHO_HDR) then (false, p, st)
    else
      match pbuf_header p (- ip_hlen) with
      | None => (false, p, st)
      | Some q =>
          let d := p_payload q in
          if (byte_at d 0 =? ICMP_ER) && (get16 d 4 =? PING_ID) && (get16 d 6 =? htons (s_seq st)) then
            let res := mk_ping_result addr (s_seq st) (u16 (p_tot_len q - SIZEOF_ICMP_ECHO_HDR))
                         (u32 (now - s_send_tick st) / PING_RTI_TICKS_PER_MS) ttl in
            (true, q, mk_ping_st (s_ping_pcb st) (s_seq st) 0 1 (s_send_tick st) res)
          else (false, default q (pbuf_header q ip_hlen), st)
      end.

(** The payload bytes ['a' + i % 23]. *)
Definition ping_data : list Z :=
  map (fun i => u8 (97 + Z.of_nat i mod 23)) (seq 0 (Z.to_nat PING_DATA_SIZE)).

(** The echo request with the checksum field [c]. *)
Definition ping_request (c seq : Z) : list Z :=
  [ICMP_ECHO; 0] ++ be16 c ++ be16 PING_ID ++ be16 (htons seq) ++ ping_data.

(** [ping_send]. *)
Definition ping_send (np : option netif_ptr) (target : option Z) (now : Z)
  (st : ping_st) (r : raw_st) (s : net) : err_t * ping_st * raw_st * net :=
  match np, target with
  | Some np, Some target =>
      let '(pcb_ok, st, r) :=
        match s_ping_pcb st with
        | Some _ => (true, st, r)
        | None =>
            match raw_new IP_PROTO_ICMP r with
            | (None, r) => (false, st, r)
            | (Some i, r) => (true, set_ping_pcb (Some i) st, raw_recv i Raw_ping_recv r)
            end
        end in
      if negb pcb_ok then (ERR_MEM, st, r, s)
      else
        let len := u16 (SIZEOF_ICMP_ECHO_HDR + PING_DATA_SIZE) in
        match net_pbuf_alloc PBUF_IP len s with
        | (None, s) => (ERR_MEM, st, r, s)
        | (Some p, s) =>
            let st := set_seq (u16 (s_seq st + 1)) st in
            let d := put 0 (ping_request 0 (s_seq st)) (p_payload p) in
            let d := put 2 (be16 (inet_chksum d)) d in
            let st := mk_ping_st (s_ping_pcb st) (s_seq st) 1 0 now (s_result st) in
            let '(err, s) := ip_output_if (set_payload d p) (nif_ip_addr (netif_of s np))
                               (Some target) ICMP_TTL 0 IP_PROTO_ICMP np s in
            let st := if negb (bool_decide (err = ERR_OK)) then set_waiting 0 st else st in
            (err, st, r, s)
        end
  | _, _ => (ERR_VAL, st, r, s)
  end.

Section Wait.
Context {St : Type} `{PartOf ping_st St}.

(** [ping_wait_reply] for [out != NULL]: each element of the trace is a reading
    of the counter and what the interrupts before the next one do to the state;
    [None] when the trace ends before the function returns. *)
Fixpoint ping_wait_loop (start timeout_ticks : Z) (trace : list (Z * (St -> St))) (st : St)
  : option (option ping_result * St) :=
  match trace with
  | [] => None
  | (frc, isr) :: trace =>
      if u32 (frc - start) <? timeout_ticks then
        if 1 =? s_reply_valid (part st)
        then Some (Some (s_result (part st)), upd_part (set_reply_valid 0) st)
        else ping_wait_loop start timeout_ticks trace (isr st)
      else Some (None, upd_part (set_waiting 0) st)
  end.
Definition ping_wait_reply (start timeout_ms : Z) (trace : list (Z * (St -> St))) (st : St)
  : option (option ping_result * St) :=
  ping_wait_loop start (u32 (timeout_ms * PING_RTI_TICKS_PER_MS)) trace st.
End Wait.

(** [scan_network]: [wait] is what the program receives during the 50 ms after a
    query; the result also has the lines printed, as the address and MAC of
    each host found. *)
Definition scan_target (n : netif) (network : Z) (idx : nat) : option Z :=
  if (Z.of_nat idx =? Z.land (ntohl (nif_ip_addr n)) 0xFF)
     || bool_decide (idx = 0%nat) || bool_decide (idx = 255%nat) then None
  else Some (htonl (Z.lor (ntohl network) (Z.of_nat idx))).

Section Scan.
Context {St : Type} `{PartOf net St}.

Fixpoint scan_loop (np : netif_ptr) (network : Z) (wait : nat -> St -> St) (idxs : list nat) (s : St)
  : list (Z * list Z) * St :=
  match idxs with
  | [] => ([], s)
  | idx :: idxs =>
      match scan_target (netif_of (part s) np) network idx with
      | None => scan_loop np network wait idxs s
      | Some target =>
          let '(_, n) := etharp_query np target None (part s) in
          let s := wait idx (set_part n s) in
          let '(found, n) := etharp_find_addr target (part s) in
          let s := set_part n s in
          let line := match found with Some (_, mac, _) => [(target, mac)] | None => [] end in
          let s := if (idx mod 10 =? 0)%nat then upd_part (etharp_cleanup_netif np) s else s in
          let '(lines, s) := scan_loop np network wait idxs s in
          (line ++ lines, s)
      end
  end.
Definition scan_network (np : option netif_ptr) (wait : nat -> St -> St) (s : St)
  : err_t * list (Z * list Z) * St :=
  match np with
  | None => (ERR_VAL, [], s)
  | Some np =>
      let n := netif_of (part s) np in
      let network := Z.land (nif_netmask n) (nif_ip_addr n) in
      let '(lines, s) := scan_loop np network wait (seq 0 256) s in (ERR_OK, lines, s)
  end.
End Scan.

(** ** Properties *)

Lemma strip_uncover ty pre h m nx fl :
  h <> [] -> ty = PBUF_RAM \/ ty = PBUF_POOL ->
  pbuf_header (mk_pbuf (mk_pseg ty (pre ++ h) m) nx fl) (Zlen h)
  = Some (mk_pbuf (mk_pseg ty pre (h ++ m)) nx fl).
Proof. intros Hh Ht. by rewrite (pbuf_header_uncover _ pre h). Qed.

(** Replies: [ping_recv] takes a received ICMP packet exactly when an echo
    request is outstanding, no reply is waiting to be read, and the packet is an
    echo reply with the program's identifier and the sequence number of that
    request; it then records the sender, the sequence number, the number of data
    bytes, the round-trip time in milliseconds (across a wrap of the counter) and
    the TTL, and stops waiting.  Every other packet is left as it was for the
    rest of the stack and the state does not change. *)
Theorem ping_recv_matches now ty pre h m nx fl addr st
  (Hty : ty = PBUF_RAM \/ ty = PBUF_POOL) (Hh : h <> []) (Hihl : IPH_HLEN (h ++ m) = Zlen h)
  (Hlen : Zlen (h ++ m ++ mjoin (map ps_data nx)) <= 65535) :
  let p := mk_pbuf (mk_pseg ty pre (h ++ m)) nx fl in
  let len := Zlen (m ++ mjoin (map ps_data nx)) in
  let mine := s_waiting st <> 0 /\ s_reply_valid st <> 1 /\ 8 <= len /\ byte_at m 0 = ICMP_ER
              /\ get16 m 4 = PING_ID /\ get16 m 6 = s_seq st in
  (mine -> exists q, ping_recv now p addr st
     = (true, q, mk_ping_st (s_ping_pcb st) (s_seq st) 0 1 (s_send_tick st)
         (mk_ping_result addr (s_seq st) (len - 8)
            ((now - s_send_tick st) mod 4294967296 / 9375) (byte_at (h ++ m) 8))))
  /\ (~ mine -> ping_recv now p addr st = (false, p, st)).
Proof.
  cbv zeta. set (p := mk_pbuf _ nx fl). set (rest := mjoin (map ps_data nx)) in *.
  assert (Ht : p_tot_len p = Zlen h + Zlen (m ++ rest)).
  { unfold p_tot_len, p_bytes, p_payload, p. cbn [pb_first pb_next ps_data].
    rewrite <- app_assoc. apply Zlen_app. }
  pose proof (Zlen_nonneg (m ++ rest)) as Hm0. pose proof (Zlen_nonneg h) as Hh0.
  rewrite Zlen_app in Hlen.
  assert (H60 : 0 <= Zlen h <= 60).
  { rewrite <- Hihl. unfold IPH_HLEN. pose proof (land_range_r (byte_at (h ++ m) 0) 15). lia. }
  assert (Hu : u16 (Zlen h + SIZEOF_ICMP_ECHO_HDR) = Zlen h + 8)
    by (apply u16_small; unfold is_u16, SIZEOF_ICMP_ECHO_HDR; lia).
  unfold ping_recv. change (p_payload p) with (h ++ m). rewrite Hihl, Hu, Ht.
  rewrite (pbuf_header_strip p h m) by done. cbn [pb_first ps_type ps_pre pb_next pb_flags p].
  set (q := mk_pbuf (mk_pseg ty (pre ++ h) m) nx fl).
  assert (Hq : p_tot_len q = Zlen (m ++ rest)) by reflexivity.
  assert (Eu : pbuf_header q (Zlen h) = Some p) by (by apply strip_uncover).
  unfold htons. split.
  - intros (Hw & Hv & H8 & H0 & Hid & Hseq). exists q.
    rewrite (proj2 (Z.eqb_neq 0 _)), (proj2 (Z.eqb_neq 1 _)) by congruence. cbn [orb].
    destruct (Z.ltb_spec (Zlen h + Zlen (m ++ rest)) (Zlen h + 8)); [lia |].
    change (p_payload q) with m. rewrite H0, Hid, Hseq, !Z.eqb_refl. cbn [andb].
    rewrite Hq, u16_small by (unfold is_u16, SIZEOF_ICMP_ECHO_HDR; lia). done.
  - intros Hn. destruct (Z.eqb_spec 0 (s_waiting st)); [done |].
    destruct (Z.eqb_spec 1 (s_reply_valid st)); [done |]. cbn [orb].
    destruct (Z.ltb_spec (Zlen h + Zlen (m ++ rest)) (Zlen h + 8)); [done |].
    change (p_payload q) with m.
    destruct (Z.eqb_spec (byte_at m 0) ICMP_ER), (Z.eqb_spec (get16 m 4) PING_ID),
      (Z.eqb_spec (get16 m 6) (s_seq st)); cbn [andb];
      try (by rewrite Eu).
    exfalso. apply Hn. split_and!; congruence || lia.
Qed.

Lemma ping_recv_matches_witness :
  exists q, ping_recv (93750 + 5) (mk_pbuf (mk_pseg PBUF_POOL (replicate 14 0)
      ((replicate 1 0x45 ++ replicate 7 0 ++ [64] ++ replicate 11 0) ++ [0; 0; 1; 1; 0xAF; 0xAF; 0; 3; 97]))
      [] 0) 0x0a000001 (mk_ping_st (Some 0%nat) 3 1 0 5 (mk_ping_result 0 0 0 0 0))
  = (true, q, mk_ping_st (Some 0%nat) 3 0 1 5 (mk_ping_result 0x0a000001 3 1 10 64)).
Proof.
  apply (ping_recv_matches (93750 + 5) PBUF_POOL (replicate 14 0)
    (replicate 1 0x45 ++ replicate 7 0 ++ [64] ++ replicate 11 0) [0; 0; 1; 1; 0xAF; 0xAF; 0; 3; 97]
    [] 0 0x0a000001 (mk_ping_st (Some 0%nat) 3 1 0 5 (mk_ping_result 0 0 0 0 0)));
    try reflexivity; try discriminate; try (right; reflexivity).
  repeat split; discriminate.
Defined.

Lemma ping_request_len c seq : length (ping_request c seq) = 40%nat.
Proof. reflexivity. Qed.

Lemma ping_request_fill seq (l : list Z) : length l = 40%nat ->
  put 0 (ping_request 0 seq) l = ping_request 0 seq
  /\ put 2 (be16 (inet_chksum (ping_request 0 seq))) (ping_request 0 seq)
     = ping_request (inet_chksum (ping_request 0 seq)) seq.
Proof.
  intros Hl. split; [| reflexivity]. rewrite (put0_drop _ l 40) by (done || lia).
  rewrite drop_ge by lia. apply app_nil_r.
Qed.

Lemma ping_request_verifies seq : is_u16 seq ->
  inet_chksum (ping_request (inet_chksum (ping_request 0 seq)) seq) = 0.
Proof.
  intros Hs. assert (H8 : Forall is_u8 (ping_request 0 seq)).
  { unfold ping_request. repeat (apply Forall_app; split); try apply be16_u8.
    - repeat (apply List.Forall_cons; [split; done |]). apply List.Forall_nil.
    - unfold ping_data. apply Forall_forall. intros x (i & -> & _)%list_elem_of_fmap. apply u8_range. }
  change (ping_request (inet_chksum (ping_request 0 seq)) seq)
    with (put 2 (be16 (inet_chksum (ping_request 0 seq))) (ping_request 0 seq)).
  apply chksum_fill; try done.
  change (length (ping_request 0 seq)) with 40%nat. lia.
Qed.

(** Sending a ping: with a raw control block available, heap and a target
    whose next hop is resolved, [ping_send] returns [ERR_OK], counts the
    sequence number up, waits for its reply from [now] on, and puts on the
    wire, after at most one ARP refresh, the echo request with that sequence
    number from the address of the given interface, with a checksum that
    verifies; the first call registers the callback on a raw control block for
    ICMP. *)
Theorem ping_send_request np target now st r s hop i
  (Hpcb : s_ping_pcb st <> None \/ exists j r', raw_new IP_PROTO_ICMP r = (Some j, r'))
  (Hseq : is_u16 (s_seq st)) (Hheap : n_heap s = [])
  (Hsrc0 : nif_ip_addr (netif_of s np) <> 0)
  (Hinv : arp_inv s) (Hconf : netif_conf (netif_of s np))
  (Hbc : ip4_addr_isbroadcast target (netif_of s np) = false)
  (Hmc : ip_addr_ismulticast target = false)
  (Hhop : next_hop (netif_of s np) target = Some hop)
  (Hi : (i < ARP_TABLE_SIZE)%nat) (Hst : stable (arp_entry s i))
  (Hip : ae_ipaddr (arp_entry s i) = hop) (Hmac : length (ae_ethaddr (arp_entry s i)) = 6%nat) :
  let seq := u16 (s_seq st + 1) in
  let src := nif_ip_addr (netif_of s np) in
  exists st' r' s' w c, ping_send (Some np) (Some target) now st r s = (ERR_OK, st', r', s')
    /\ n_wire s' = n_wire s ++ w
         ++ [data_frame (netif_of s np) (ae_ethaddr (arp_entry s i))
              (ip_header 0 60 (ip_id s) 255 IP_PROTO_ICMP
                 (ip_chksum_inline 0 60 (ip_id s) 255 IP_PROTO_ICMP src target) src target
               ++ ping_request c seq)]
    /\ (w = [] \/ w = [request_frame (netif_of s np) hop])
    /\ inet_chksum (ping_request c seq) = 0
    /\ s_seq st' = seq /\ s_waiting st' = 1 /\ s_reply_valid st' = 0 /\ s_send_tick st' = now
    /\ exists j, s_ping_pcb st' = Some j
         /\ (s_ping_pcb st = None -> rp_recv (raw_of r' j) = Raw_ping_recv
             /\ rp_protocol (raw_of r' j) = IP_PROTO_ICMP /\ raw_pcbs r' = Some j).
Proof.
  cbv zeta. unfold ping_send.
  set (pre := match s_ping_pcb st with Some _ => _ | None => _ end).
  assert (Hpre : exists st1 r1 j, pre = (true, st1, r1) /\ s_ping_pcb st1 = Some j
     /\ s_seq st1 = s_seq st /\ s_result st1 = s_result st
     /\ (s_ping_pcb st = None -> rp_recv (raw_of r1 j) = Raw_ping_recv
         /\ rp_protocol (raw_of r1 j) = IP_PROTO_ICMP /\ raw_pcbs r1 = Some j)).
  { unfold pre. destruct (s_ping_pcb st) as [j |] eqn:E; [by exists st, r, j |].
    destruct Hpcb as [| (j & r' & En)]; [done |]. rewrite En. eexists _, _, j. split; [done |].
    split_and!; try done; intros _; unfold raw_new in En;
      destruct (memp_malloc (r_memp r)) as [[k |] m]; try done; injection En as -> <-;
      unfold raw_recv, upd_raw, raw_of; cbn; by rewrite ?lookup_total_insert_eq. }
  destruct Hpre as (st1 & r1 & j & -> & Ej & Es & Er & Hreg). cbn [negb].
  change (u16 (SIZEOF_ICMP_ECHO_HDR + PING_DATA_SIZE)) with 40.
  destruct (pbuf_alloc_ram_ok PBUF_IP 40) as [p Ep]; [lia |].
  destruct (pbuf_alloc_ram_some PBUF_IP 40 _ _ _ ltac:(lia) Ep) as (Hl & Hn & Ht & _ & Hr).
  assert (En : net_pbuf_alloc PBUF_IP 40 s = (Some p, s)).
  { unfold net_pbuf_alloc. rewrite Hheap, Ep. f_equal. destruct s. cbn in *. by subst. }
  rewrite En. cbn [s_seq set_seq]. rewrite Es. set (seq := u16 (s_seq st + 1)).
  destruct (ping_request_fill seq (p_payload p)) as [E1 E2]; [unfold p_len, Zlen in Hl; lia |].
  rewrite E1, E2. set (c := inet_chksum (ping_request 0 seq)).
  set (q := set_payload (ping_request c seq) p).
  assert (Hb : p_bytes q = ping_request c seq).
  { unfold p_bytes. change (pb_next q) with (pb_next p). rewrite Hn. apply app_nil_r. }
  assert (Htl : p_tot_len q = 40) by (unfold p_tot_len; by rewrite Hb).
  destruct (ip_output_if_sent q (nif_ip_addr (netif_of s np)) target ICMP_TTL 0 IP_PROTO_ICMP np hop i s)
    as (s' & w & E & Hw & Hc); try done.
  { change (ps_pre (pb_first q)) with (ps_pre (pb_first p)). rewrite Hr. lia. }
  { rewrite Htl. lia. } { by apply Z.eqb_neq. }
  rewrite E. rewrite bool_decide_eq_true_2 by done. cbn [negb].
  rewrite Htl, Hb in Hw.
  eexists _, r1, s', w, c. split; [reflexivity |]. split; [exact Hw |]. split; [done |].
  split; [apply ping_request_verifies, u16_range |]. cbn. do 4 (split; [done |]). by exists j.
Qed.

Lemma ping_send_request_witness :
  exists st' r' s' w c, ping_send (Some (HdkNetIF 0)) (Some 0x0a000001) 77 ping_init raw_init ex_net_resolved
    = (ERR_OK, st', r', s')
    /\ n_wire s' = n_wire ex_net_resolved ++ w
         ++ [data_frame (netif_of ex_net_resolved (HdkNetIF 0)) [9; 8; 7; 6; 5; 4]
              (ip_header 0 60 0 255 IP_PROTO_ICMP
                 (ip_chksum_inline 0 60 0 255 IP_PROTO_ICMP 0x0a00000a 0x0a000001) 0x0a00000a 0x0a000001
               ++ ping_request c 1)]
    /\ s_waiting st' = 1 /\ s_send_tick st' = 77.
Proof.
  destruct (ping_send_request (HdkNetIF 0) 0x0a000001 77 ping_init raw_init ex_net_resolved 0x0a000001 0)
    as (st' & r' & s' & w & c & E & Hw & _ & _ & _ & H1 & _ & H2 & _); try reflexivity;
    try exact ex_arp_inv_resolved; try (split; vm_compute; congruence).
  - right. eexists _, _. vm_compute. reflexivity.
  - vm_compute. congruence.
  - repeat split; reflexivity.
  - apply Nat.lt_0_succ.
  - exists st', r', s', w, c. split; [exact E | split; [exact Hw | split; [exact H1 | exact H2]]].
Defined.

(** What the busy wait does with the state the interrupts have made by the
    [k]-th reading. *)
Definition after_isrs {St} (trace : list (Z * (St -> St))) (st : St) : St :=
  fold_left (fun st x => snd x st) trace st.

(** Waiting for a reply terminates as soon as the counter shows the timeout,
    also across a wrap of the counter: it returns the first reply that is found
    recorded at a reading before the timeout, marking it read, and otherwise
    reports a timeout and stops waiting, so that [ping_recv] ignores a reply that
    comes later.  The interrupts may change the whole state of the program. *)
Theorem ping_wait_returns {St} `{PartOf ping_st St} start ticks pre frc (isr : St -> St) post (st : St)
  (Hpre : forall x, x ∈ pre -> u32 (fst x - start) < ticks)
  (Hnone : forall pre1 x pre2, pre = pre1 ++ x :: pre2 -> s_reply_valid (part (after_isrs pre1 st)) <> 1) :
  (ticks <= u32 (frc - start) ->
     ping_wait_loop start ticks (pre ++ (frc, isr) :: post) st
       = Some (None, upd_part (set_waiting 0) (after_isrs pre st))
     /\ forall now p addr, ping_recv now p addr (part (upd_part (set_waiting 0) (after_isrs pre st)))
          = (false, p, part (upd_part (set_waiting 0) (after_isrs pre st))))
  /\ (u32 (frc - start) < ticks -> s_reply_valid (part (after_isrs pre st)) = 1 ->
     ping_wait_loop start ticks (pre ++ (frc, isr) :: post) st
       = Some (Some (s_result (part (after_isrs pre st))), upd_part (set_reply_valid 0) (after_isrs pre st))).
Proof.
  revert st Hnone; induction pre as [| [f g] pre IH]; intros st Hnone; cbn [app ping_wait_loop].
  - unfold after_isrs; cbn [fold_left]. split.
    + intros Ht. rewrite (proj2 (Z.ltb_ge _ _)) by done. split; [done |]. intros. by rewrite !part_upd.
    + intros Ht Hv. rewrite (proj2 (Z.ltb_lt _ _)) by done. by rewrite Hv.
  - assert (Hf : u32 (f - start) < ticks) by (apply (Hpre (f, g)); left).
    rewrite (proj2 (Z.ltb_lt _ _)) by done.
    pose proof (Hnone [] (f, g) pre eq_refl) as H0. cbn in H0.
    rewrite (proj2 (Z.eqb_neq 1 _)) by congruence.
    change (after_isrs ((f, g) :: pre) st) with (after_isrs pre (g st)). apply IH.
    + intros x Hx. apply Hpre. by right.
    + intros pre1 x pre2 ->. by apply (Hnone ((f, g) :: pre1) x pre2).
Qed.

Lemma ping_wait_returns_witness :
  ping_wait_loop 4294967290 100 ([(4294967295, fun st : ping_st => st)] ++ (94, fun st => st) :: []) ping_init
  = Some (None, upd_part (set_waiting 0) (after_isrs [(4294967295, fun st => st)] ping_init)).
Proof.
  refine (proj1 (proj1 (ping_wait_returns 4294967290 100 [(4294967295, fun st => st)] 94
    (fun st => st) [] ping_init _ _) _)).
  - intros x [-> | ?%not_elem_of_nil]%elem_of_cons; [reflexivity | done].
  - intros [| y pre1] x pre2 E; [discriminate |].
    apply (f_equal (@length _)) in E. cbn in E. rewrite length_app in E. cbn in E. lia.
  - vm_compute. discriminate.
Defined.
