(* ===== verification/Locator.v ===== *)
(** * Device locator (ports/hdk/locator.c)

    Answers discovery datagrams from port 23 with an 84-byte description of the
    board. *)

From S2P Require Import Prelude NetTypes IpAddr Pbuf Net Chain Memp Etharp Netif Udp Ip UdpSend.

Definition TAG_CMD : Z := 0xff.
Definition TAG_STATUS : Z := 0xfe.
Definition CMD_DISCOVER_TARGET : Z := 0x02.
Definition SIZEOF_LOCATOR_DATA : Z := 84.

(** The response data [LocatorConfig] builds. *)
Definition locator_data (mac title : list Z) : list Z :=
  let d := replicate (Z.to_nat SIZEOF_LOCATOR_DATA) 0 in
  let d := put 0 [TAG_STATUS; SIZEOF_LOCATOR_DATA; CMD_DISCOVER_TARGET] d in
  let d := put 9 (take 6 mac) d in
  put 19 (take 64 title) d.

(** [LocatorConfig]: the data and the control block.  The code does not test
    [udp_new] for [NULL]; all of its blocks are free at start-up. *)
Definition LocatorConfig (mac title : list Z) (u : udp_st) : list Z * udp_st :=
  match udp_new u with
  | (None, u) => (locator_data mac title, u)
  | (Some pcb, u) =>
      let u := udp_recv pcb Recv_LocatorReceive 0 u in
      let '(_, u) := udp_bind pcb IPADDR_ANY 23 u in
      let '(_, u) := udp_connect pcb IPADDR_ANY 23 u in
      (locator_data mac title, u)
  end.

Lemma LocatorConfig_steps used mac title u : exists used', rtc udp_step (used, u) (used', snd (LocatorConfig mac title u)).
Proof.
  unfold LocatorConfig. destruct (udp_new u) as [[pcb |] u1] eqn:E; [| exists used; eapply rtc_once, us_new_fail; exact E].
  assert (Hin : pcb ∈ ({[pcb]} ∪ used : gset nat)) by (apply elem_of_union_l, elem_of_singleton_2; reflexivity).
  destruct (udp_bind _ _ _ _) as [e2 u2] eqn:E2. destruct (udp_connect _ _ _ _) as [e3 u3] eqn:E3. exists ({[pcb]} ∪ used). cbn [snd].
  eapply rtc_l; [exact (us_new _ _ _ _ E) |]. eapply rtc_l; [exact (us_recv _ _ _ Recv_LocatorReceive 0 Hin) |].
  eapply rtc_l; [exact (us_bind _ _ _ _ _ _ _ Hin E2) |]. eapply rtc_once. exact (us_connect _ _ _ _ _ _ _ Hin E3).
Qed.

(** The checksum byte: the negated sum of the others. *)
Definition locator_chksum (d : list Z) : list Z :=
  put 83 [fold_left (fun c b => u8 (c - b)) (take 83 d) 0] d.

(** The datagram [LocatorReceive] accepts. *)
Definition locator_request (p : pbuf) : bool :=
  let d := p_payload p in
  (p_len p =? 4) && (byte_at d 0 =? TAG_CMD) && (byte_at d 1 =? 4)
  && (byte_at d 2 =? CMD_DISCOVER_TARGET)
  && (byte_at d 3 =? Z.land (0 - TAG_CMD - 4 - CMD_DISCOVER_TARGET) 0xff).

(** [LocatorReceive]. *)
Definition LocatorReceive (pcb : nat) (p : pbuf) (addr port : Z) (d : list Z) (u : udp_st) (s : net)
  : list Z * udp_st * net :=
  if negb (locator_request p) then (d, u, s)
  else
    match net_pbuf_alloc PBUF_TRANSPORT SIZEOF_LOCATOR_DATA s with
    | (None, s) => (d, u, s)
    | (Some q, s) =>
        let d := locator_chksum d in
        let '(_, u, s) := udp_sendto pcb (set_payload d q) addr port u s in
        (d, u, s)
    end.

Lemma LocatorReceive_keeps pcb p addr port d u s d' u' s' :
  LocatorReceive pcb p addr port d u s = (d', u', s') -> keeps s s'.
Proof.
  unfold LocatorReceive. destruct (negb _); [by intros [= _ _ <-] |].
  destruct (net_pbuf_alloc _ _ s) as [[q |] s1] eqn:E; apply pbuf_alloc_keeps in E; [| by intros [= _ _ <-]].
  unfold udp_sendto. destruct (ip_route addr s1) as [np |]; [| by intros [= _ _ <-]].
  destruct (udp_sendto_if _ _ _ _ _ _ s1) as [[e u1] s2] eqn:E2. intros [= _ _ <-].
  etrans; [exact E | by eapply udp_sendto_if_keeps].
Qed.

(** A bound control block is not touched by the answer. *)
Lemma LocatorReceive_udp pcb p addr port d u s d' u' s' :
  up_local_port (pcb_of u pcb) <> 0 ->
  LocatorReceive pcb p addr port d u s = (d', u', s') -> u' = u.
Proof.
  intros Hp. unfold LocatorReceive. destruct (negb _); [by intros [= _ <- _] |].
  destruct (net_pbuf_alloc _ _ s) as [[q |] s1]; [| by intros [= _ <- _]].
  unfold udp_sendto. destruct (ip_route addr s1) as [np |]; [| by intros [= _ <- _]].
  unfold udp_sendto_if. rewrite (proj2 (Z.eqb_neq _ 0)) by done.
  rewrite bool_decide_eq_true_2 by done. cbn [negb].
  destruct (udp_header_pbuf _ _) as [[? |] ?]; [| by intros [= _ <- _]].
  destruct (negb _ && _); [by intros [= _ <- _] |].
  destruct (ip_output_if _ _ _ _ _ _ _ _) as [? ?]. by intros [= _ <- _].
Qed.
