(* ===== verification/UdpRace.v ===== *)
(** * A frame in the middle of a bind

    [udp_source_add_listener] calls [udp_bind] with interrupts enabled.  The last two
    assignments of [udp_bind] put the control block on the list; here they are
    apart, with the search of [udp_input] between them. *)

From S2P Require Import Prelude NetTypes Chain Memp Net Udp Locator.

(** [udp_bind] up to its last assignment, [udp_pcbs = pcb]; the flag says that it is
    still to be done. *)
Definition bind_prepare (pcb : nat) (ipaddr port : Z) (u : udp_st) : err_t * bool * udp_st :=
  match bind_scan u pcb ipaddr port (pcbs u) false with
  | None => (ERR_USE, false, u)
  | Some rebind =>
      let u := upd_pcb pcb (up_set_local_ip ipaddr) u in
      let '(port, u) := if port =? 0 then udp_new_port u else (port, u) in
      if port =? 0 then (ERR_USE, false, u)
      else
        let u := upd_pcb pcb (up_set_local_port port) u in
        if rebind then (ERR_OK, false, u)
        else (ERR_OK, true, upd_pcb pcb (up_set_next (udp_pcbs u)) u)
  end.
Definition bind_finish (pcb : nat) (pending : bool) (u : udp_st) : udp_st := if pending then set_udp_pcbs (Some pcb) u else u.

Lemma bind_parts pcb a k u : udp_bind pcb a k u = let '(e, pending, u1) := bind_prepare pcb a k u in (e, bind_finish pcb pending u1).
Proof.
  unfold udp_bind, bind_prepare. destruct (bind_scan _ _ _ _ _ _) as [rb |]; [| done]. cbv zeta. destruct (if k =? 0 then _ else _) as [k1 u1].
  destruct (k1 =? 0); [done |]. by destruct rb.
Qed.

Lemma bind_prepare_ok used l u pcb a k u1 : udp_inv used l u -> bind_prepare pcb a k u = (ERR_OK, true, u1) ->
  udp_ok used l u1 /\ pcb_next u1 pcb = udp_pcbs u1 /\ pcb ∉ l.
Proof.
  intros (Hok & Hp & _). unfold bind_prepare. rewrite (udp_ok_pcbs _ _ _ Hok). pose proof (bind_scan_spec u pcb a k l false) as Hs.
  destruct (bind_scan u pcb a k l false) as [rb |]; [| done]. destruct Hs as [_ ->]. cbn [orb]. cbv zeta.
  set (ua := upd_pcb pcb (up_set_local_ip a) u). assert (Ha : udp_ok used l ua) by (by apply upd_pcb_ok).
  destruct (if k =? 0 then udp_new_port ua else (k, ua)) as [k1 ub] eqn:Eb.
  assert (Hb : udp_ok used l ub).
  { revert Eb. destruct (k =? 0); [| by intros [= _ <-]]. destruct (new_port_ok used l ua Ha Hp) as (k2 & E & _). rewrite E. intros [= _ <-]. destruct Ha. by split. }
  destruct (k1 =? 0); [done |]. destruct (bool_decide_reflect (pcb ∈ l)) as [| Hn]; [done |]. intros [= <-].
  set (uc := upd_pcb pcb (up_set_local_port k1) ub). assert (Hc : udp_ok used l uc) by (by apply upd_pcb_ok).
  split; [| split; [| done]].
  - destruct Hc as [H1 H2 H3 H4]. split; [| done | done | done]. refine (chain_ext _ _ _ _ H1 _). intros x Hx. unfold pcb_next.
    rewrite pcb_of_upd_ne; [done |]. by intros ->.
  - unfold pcb_next. by rewrite pcb_of_upd_eq.
Qed.

(** A datagram between the two assignments whose control block is connected to the
    sender (or has port 0 as remote port, as an unconnected one, for a datagram from
    port 0) and is not the first of the list is delivered, and its control block is
    lost: it is moved to the front of a list that the second assignment replaces. *)
Theorem bind_interrupted used l u pcb a k u1 inp b d i u2 (Hinv : udp_inv used l u)
  (Hbind : bind_prepare pcb a k u = (ERR_OK, true, u1)) (Hframe : udp_demux inp b d u1 = (Some i, u2)) (Hmoved : udp_pcbs u2 <> udp_pcbs u1) :
  i ∈ l /\ pcbs u2 ≡ₚ l /\ pcbs (bind_finish pcb true u2) = pcb :: remove1 i l.
Proof.
  destruct (bind_prepare_ok _ _ _ _ _ _ _ Hinv Hbind) as (Hok & Hnext & Hpl). revert Hframe. unfold udp_demux.
  destruct (_ =? _); [done |]. rewrite (udp_ok_pcbs _ _ _ Hok). pose proof (demux_loop_spec inp b d u1 l None None) as Hs.
  destruct (demux_loop _ _ _ _ _ _ _) as [[[t |] j] | un]; [| intros [= -> <-]; done | intros [= _ <-]; done].
  destruct Hs as (l1 & l2 & -> & _ & _ & _ & Ht). destruct l1 as [| t' l1 _] using rev_ind; [done |]. rewrite last_snoc in Ht. injection Ht as <-.
  rewrite <- app_assoc in *. cbn [app] in *. intros [= -> <-].
  pose proof (move_front_ok _ _ _ _ _ _ Hok) as Hmf. set (u2 := set_udp_pcbs _ _) in *.
  split; [apply elem_of_app; right; right; left |]. split.
  { rewrite (udp_ok_pcbs _ _ _ Hmf). rewrite (Permutation_middle l1 (t :: l2) i). f_equiv. apply perm_swap. }
  assert (Er : remove1 i (l1 ++ t :: i :: l2) = l1 ++ t :: l2).
  { pose proof (uo_nodup _ _ _ Hok) as Hnd. change (t :: i :: l2) with ([t] ++ i :: l2) in Hnd |- *. rewrite app_assoc in Hnd |- *.
    apply NoDup_mid in Hnd as [H1 H2]. rewrite remove1_app_mid by done. by rewrite <- app_assoc. }
  assert (Hne : pcb <> i /\ pcb <> t) by (split; intros ->; apply Hpl, elem_of_app; right; [right; left | left]). destruct Hne as [Hni Hnt].
  assert (Hp2 : pcb_next u2 pcb = udp_pcbs u1).
  { rewrite <- Hnext. unfold pcb_next, u2. change (pcb_of (set_udp_pcbs ?h ?v) pcb) with (pcb_of v pcb). by rewrite !pcb_of_upd_ne. }
  assert (Hi2 : pcb_next u2 i = udp_pcbs u1).
  { unfold pcb_next, u2. change (pcb_of (set_udp_pcbs ?h ?v) i) with (pcb_of v i). by rewrite pcb_of_upd_eq. }
  rewrite Er. unfold pcbs. apply chain_walk; [| pose proof (udp_ok_length _ _ _ Hmf) as Hlen; exact Hlen].
  split; [done |]. change (pcb_next (bind_finish pcb true u2) pcb) with (pcb_next u2 pcb). rewrite Hp2, <- Hi2.
  exact (chain_tail _ _ _ (uo_chain _ _ _ Hmf)).
Qed.

(** In the program: the locator's block is connected to port 23 of anybody.  After
    one socket was opened it is the second on the list, and a datagram from port 23
    to port 23 while another socket is being opened takes it off the list: the
    device can be discovered no more. *)
Definition ex_opened : udp_st :=
  snd (udp_bind 18 0x0a00000a 5000 (snd (udp_new (snd (LocatorConfig [2; 0; 0; 0; 0; 1] [] udp_init))))).
Definition ex_discover : dgram := mk_dgram 0x0a000001 0x0a00000a 23 23.
Example locator_lost :
  let '(_, pending, u1) := bind_prepare 17 0x0a00000a 5001 (snd (udp_new ex_opened)) in
  let '(r, u2) := udp_demux netif_zero false ex_discover u1 in
  (pcbs ex_opened, r, pcbs (bind_finish 17 pending u2)) = ([18; 19], Some 19, [17; 18])%nat.
Proof. vm_compute. reflexivity. Qed.
