(* ===== verification/Input.v ===== *)
(** * The receive path (netif/etharp.c, core/ipv4/ip.c, core/udp.c)

    From [ethernet_input], which the EMAC interrupt calls for every frame, to the
    callback of a control block.  [now] is the RTI counter when a ping reply is
    processed. *)

From S2P Require Import Prelude NetTypes IpAddr Pbuf Chksum Net Chain Memp Etharp Netif Lwiplib Udp Ip UdpSend UdpSource NetManager AliasFilter Icmp Tcp Raw Ping Locator.

(** The whole program below the terminal. *)
Record sys := mk_sys {
  y_stack : stack;
  y_raw : raw_st;
  y_ping : ping_st;
  y_locator : list Z
}.

Definition y_net (y : sys) : net := l_net (st_lwl (y_stack y)).
Definition y_us (y : sys) : usrc := st_us (y_stack y).
Definition set_y_stack st y := mk_sys st (y_raw y) (y_ping y) (y_locator y).
Definition set_y_us us y := set_y_stack (mk_stack (st_lwl (y_stack y)) us) y.
Definition set_y_net s y := set_y_stack (mk_stack (set_l_net s (st_lwl (y_stack y))) (y_us y)) y.
Definition set_y_raw r x y := mk_sys (y_stack y) r x (y_locator y).

(** [pcb->recv(pcb->recv_arg, pcb, p, ip_current_src_addr(), src)]; without a
    callback the packet is freed. *)
Definition udp_callback (pcb : nat) (p : pbuf) (addr port : Z) (y : sys) : sys :=
  let u := us_udp (y_us y) in
  match up_recv (pcb_of u pcb) with
  | Recv_null => y
  | Recv_udp_rx_callback =>
      set_y_us (snd (udp_rx_callback (up_recv_arg (pcb_of u pcb)) (Some p) addr port (y_us y))) y
  | Recv_LocatorReceive =>
      let '(d, u, s) := LocatorReceive pcb p addr port (y_locator y) u (y_net y) in
      let y := set_y_us (set_us_udp u (y_us y)) (set_y_net s y) in
      mk_sys (y_stack y) (y_raw y) (y_ping y) d
  end.

(** [udp_input]. *)
Definition udp_input (p : pbuf) (inp : netif_ptr) (src dest : Z) (y : sys) : sys :=
  let hlen := IPH_HLEN (p_payload p) in
  if p_tot_len p <? hlen + UDP_HLEN then y
  else
    match pbuf_header p (- hlen) with
    | None => y
    | Some p =>
        let n := netif_of (y_net y) inp in
        let broadcast := ip4_addr_isbroadcast dest n in
        let sport := get16 (p_payload p) 0 in
        let dport := get16 (p_payload p) 2 in
        let '(pcb, u) := udp_demux n broadcast (mk_dgram src dest sport dport) (us_udp (y_us y)) in
        let y := set_y_us (set_us_udp u (y_us y)) y in
        if bool_decide (pcb <> None) || ip_addr_cmp (nif_ip_addr n) dest then
          if negb (get16 (p_payload p) 6 =? 0)
             && negb (inet_chksum_pseudo p src dest IP_PROTO_UDP (u16 (p_tot_len p)) =? 0)
          then y
          else
            match pbuf_header p (- UDP_HLEN) with
            | None => y
            | Some p =>
                match pcb with
                | Some pcb => udp_callback pcb p src sport y
                | None =>
                    if negb broadcast && negb (ip_addr_ismulticast dest) then
                      let p := default p (pbuf_header p (hlen + UDP_HLEN)) in
                      set_y_net (icmp_dest_unreach (p_payload p) ICMP_DUR_PORT (y_net y)) y
                    else y
                end
            end
        else y
    end.

(** The search of [ip_input] for the interface a packet is for. *)
Definition ip_accepts (dest : Z) (n : netif) : bool :=
  netif_is_up n && negb (ip_addr_isany (nif_ip_addr n))
  && (ip_addr_cmp dest (nif_ip_addr n) || ip4_addr_isbroadcast dest n).
Definition ip_find_netif (inp : netif_ptr) (dest : Z) (s : net) : option netif_ptr :=
  List.find (fun q => ip_accepts dest (netif_of s q))
    (inp :: filter (fun q => q <> inp) (netifs s)).

Section Ip.
Variable now : Z.

(** The dispatch at the end of [ip_input].  [d] are the bytes at the IP header in
    memory, which trimming the packet does not change. *)
Definition ip_dispatch (d : list Z) (p : pbuf) (inp : netif_ptr) (src dest : Z) (y : sys) : sys :=
  let proto := byte_at d 9 in
  let call (f : raw_recv_fn) p addr x :=
    match f with
    | Raw_recv_null => (false, p, x)
    | Raw_ping_recv => ping_recv now p addr x
    end in
  let '(eaten, p, r, x) := raw_input call p proto src dest (y_raw y) (y_ping y) in
  let y := set_y_raw r x y in
  if (eaten : bool) then y
  else if proto =? IP_PROTO_UDP then udp_input p inp src dest y
  else if proto =? IP_PROTO_TCP then set_y_net (tcp_input p inp src dest (y_net y)) y
  else if proto =? IP_PROTO_ICMP then set_y_net (icmp_input p inp src dest (y_net y)) y
  else if negb (ip4_addr_isbroadcast dest (netif_of (y_net y) inp)) && negb (ip_addr_ismulticast dest)
  then set_y_net (icmp_dest_unreach d ICMP_DUR_PROTO (y_net y)) y
  else y.

(** [ip_input]; it returns [ERR_OK] on every path. *)
Definition ip_input (p : pbuf) (inp : netif_ptr) (y : sys) : sys :=
  let d := p_payload p in
  if negb (Z.shiftr (byte_at d 0) 4 =? 4) then y
  else
    let hlen := IPH_HLEN d in
    let len := get16 d 2 in
    if (p_len p <? hlen) || (p_tot_len p <? len) then y
    else if negb (inet_chksum (take (Z.to_nat hlen) d) =? 0) then y
    else
      let p := pbuf_realloc p len in
      let dest := get32 d 16 in
      let src := get32 d 12 in
      let n := netif_of (y_net y) inp in
      let found := ip_find_netif inp dest (y_net y) in
      let dhcp := bool_decide (found = None) && (byte_at d 9 =? IP_PROTO_UDP)
                  && (get16 d (Z.to_nat hlen + 2) =? DHCP_CLIENT_PORT) in
      let found := if dhcp then Some inp else found in
      if negb dhcp && negb (ip_addr_isany src)
         && (ip4_addr_isbroadcast src n || ip_addr_ismulticast src)
      then y
      else if bool_decide (found = None) then y
      else if negb (Z.land (get16 d 6) 0x3fff =? 0) then y
      else ip_dispatch d p inp src dest y.

(** The flags [ethernet_input] sets for group addresses. *)
Definition ll_flags (d : list Z) (flags : Z) : Z :=
  if negb (Z.land (byte_at d 0) 1 =? 0) then
    if byte_at d 0 =? 0x01 then
      if (byte_at d 1 =? 0x00) && (byte_at d 2 =? 0x5e) then Z.lor flags PBUF_FLAG_LLMCAST else flags
    else if bool_decide (take 6 d = ethbroadcast) then Z.lor flags PBUF_FLAG_LLBCAST
    else flags
  else flags.

(** [ethernet_input]. *)
Definition ethernet_input (p : pbuf) (np : netif_ptr) (y : sys) : sys :=
  if p_len p <=? SIZEOF_ETH_HDR then y
  else
    let d := p_payload p in
    let type := get16 d 12 in
    match netif_alias_route_filter (Some p) (Some np) (htons type) (y_net y) with
    | None => y
    | Some np =>
        let p := mk_pbuf (pb_first p) (pb_next p) (ll_flags d (pb_flags p)) in
        let n := netif_of (y_net y) np in
        if type =? ETHTYPE_IP then
          if negb (has_flag n NETIF_FLAG_ETHARP) then y
          else
            match pbuf_header p (- SIZEOF_ETH_HDR) with
            | None => y
            | Some p => ip_input p np y
            end
        else if type =? ETHTYPE_ARP then
          if negb (has_flag n NETIF_FLAG_ETHARP) then y
          else set_y_net (etharp_arp_input np (nif_hwaddr n) p (y_net y)) y
        else y
    end.
End Ip.

(** ** What handling a frame may change *)

(** The fields of a slot that say which socket it is. *)
Definition slot_socket (l : udp_listener) :=
  (ul_in_use l, ul_pcb l, ul_netif l, ul_generation_count l).

(** The control blocks may be reordered and a mailbox filled; interfaces,
    endpoints and sockets stay. *)
Record rx_effect (y y' : sys) : Prop := {
  re_lwl : st_lwl (y_stack y') = set_l_net (y_net y') (st_lwl (y_stack y));
  re_net : keeps (y_net y) (y_net y');
  re_pcbs : pcbs (us_udp (y_us y')) ≡ₚ pcbs (us_udp (y_us y));
  re_pcb : forall p, let b := pcb_of (us_udp (y_us y)) p in let b' := pcb_of (us_udp (y_us y')) p in
    up_recv b' = up_recv b /\ up_recv_arg b' = up_recv_arg b
    /\ up_local_ip b' = up_local_ip b /\ up_local_port b' = up_local_port b;
  re_slots : forall i, (i < UDP_MAX_LISTENERS)%nat ->
    slot_socket (slot (y_us y') i) = slot_socket (slot (y_us y) i)
}.

(** The state of a running program: the stack is consistent and the locator's
    control blocks are bound. *)
Definition sys_ok (y : sys) : Prop :=
  stack_ok (y_stack y) /\ arp_inv (y_net y)
  /\ forall p, p ∈ pcbs (us_udp (y_us y)) ->
       up_recv (pcb_of (us_udp (y_us y)) p) = Recv_LocatorReceive ->
       up_local_port (pcb_of (us_udp (y_us y)) p) <> 0.

#[export] Instance rx_effect_refl : Reflexive rx_effect.
Proof. intros [[[] ?] ? ? ?]. by split. Qed.

#[export] Instance rx_effect_trans : Transitive rx_effect.
Proof.
  intros a b c [L1 N1 P1 F1 S1] [L2 N2 P2 F2 S2]. split.
  - by rewrite L2, L1.
  - by etrans.
  - by rewrite P2.
  - intros p. cbn zeta. destruct (F1 p) as (? & ? & ? & ?), (F2 p) as (? & ? & ? & ?). split_and!; congruence.
  - intros i Hi. by rewrite S2, S1.
Qed.

(** The socket fields decide where sockets are. *)
Lemma socket_on_netif np l l' : slot_socket l' = slot_socket l -> on_netif np l' = on_netif np l.
Proof. unfold slot_socket, on_netif. by intros [= -> _ -> _]. Qed.

(** Consistency follows from the effect and the registry's invariant. *)
Lemma rx_effect_ok y y' : sys_ok y -> rx_effect y y' -> us_valid (y_us y') -> sys_ok y'.
Proof.
  intros ((L & Hl & Hv & Hs) & Ha & Hp) [El [Hn Harp] Ep Ef Es] Hv'. split; [| split].
  - exists L. split; [rewrite El; apply lwl_keeps; [done | by split] | split; [done |]].
    intros i np Hi Ho. apply (Hs i np Hi). change (st_us (y_stack y)) with (y_us y).
    by rewrite <- (socket_on_netif np _ _ (Es i Hi)).
  - auto.
  - intros p. rewrite Ep. destruct (Ef p) as (-> & _ & _ & ->). apply Hp.
Qed.

(** An operation of the receive path. *)
Definition rx_ok (y y' : sys) : Prop := sys_ok y -> sys_ok y' /\ rx_effect y y'.

#[export] Instance rx_ok_refl : Reflexive rx_ok.
Proof. intros y Hy. by split. Qed.
#[export] Instance rx_ok_trans : Transitive rx_ok.
Proof.
  intros a b c H1 H2 Ha. destruct (H1 Ha) as [Hb E1]. destruct (H2 Hb) as [Hc E2].
  split; [done | by etrans].
Qed.

Lemma rx_ok_us y y' :
  st_lwl (y_stack y') = st_lwl (y_stack y) ->
  (us_valid (y_us y) -> us_valid (y_us y') /\ pcbs (us_udp (y_us y')) ≡ₚ pcbs (us_udp (y_us y))
   /\ (forall p, let b := pcb_of (us_udp (y_us y)) p in let b' := pcb_of (us_udp (y_us y')) p in
        up_recv b' = up_recv b /\ up_recv_arg b' = up_recv_arg b
        /\ up_local_ip b' = up_local_ip b /\ up_local_port b' = up_local_port b)
   /\ forall i, (i < UDP_MAX_LISTENERS)%nat ->
        slot_socket (slot (y_us y') i) = slot_socket (slot (y_us y) i)) ->
  rx_ok y y'.
Proof.
  intros El H Hy. destruct Hy as ((L & Hl & Hv & Hs) & Ha & Hp).
  destruct (H Hv) as (Hv' & Ep & Ef & Es).
  assert (He : rx_effect y y').
  { split; try done; unfold y_net; rewrite El; [by destruct (st_lwl (y_stack y)) | done]. }
  split; [| done]. eapply rx_effect_ok; [| exact He | done]. split; [by exists L | done].
Qed.

Lemma rx_ok_net s y : keeps (y_net y) s -> rx_ok y (set_y_net s y).
Proof.
  intros Hk Hy. assert (He : rx_effect y (set_y_net s y)) by (by split).
  split; [| done]. eapply rx_effect_ok; [done | done |]. destruct Hy as ((L & _ & Hv & _) & _). exact Hv.
Qed.

Lemma rx_ok_raw r x y : rx_ok y (set_y_raw r x y).
Proof. by apply rx_ok_us. Qed.

(** The search leaves endpoints and sockets alone and finds a bound block. *)
Lemma rx_ok_demux n b d r u y :
  udp_demux n b d (us_udp (y_us y)) = (r, u) -> rx_ok y (set_y_us (set_us_udp u (y_us y)) y).
Proof.
  intros E. apply rx_ok_us; [done |]. intros (used & l & Hinv).
  destruct (udp_demux_inv _ _ _ _ _ _ _ _ (ui_udp _ _ _ Hinv) E) as (l' & Hi & Hp & Hf).
  change (y_us (set_y_us (set_us_udp u (y_us y)) y)) with (set_us_udp u (y_us y)).
  cbn [us_udp set_us_udp]. split; [| split; [| split; [exact Hf | done]]].
  - exists used, l'. apply (us_inv_frame used l); auto.
    + intros q _. by destruct (Hf q) as (? & ? & _ & ?).
    + intros q Hq. by rewrite Hp.
  - rewrite (udp_ok_pcbs _ _ _ (proj1 Hi)), Hp.
    by rewrite (udp_ok_pcbs _ _ _ (proj1 (ui_udp _ _ _ Hinv))).
Qed.

Lemma udp_callback_ok pcb p addr port y :
  pcb ∈ pcbs (us_udp (y_us y)) -> rx_ok y (udp_callback pcb p addr port y).
Proof.
  intros Hin Hy. unfold udp_callback. destruct (up_recv (pcb_of (us_udp (y_us y)) pcb)) eqn:Er.
  - by apply rx_ok_refl.
  - revert Hy. apply rx_ok_us; [done |]. intros (used & l & Hinv).
    assert (Hu : pcb ∈ used).
    { apply (ui_udp _ _ _ Hinv). by rewrite <- (udp_ok_pcbs _ _ _ (proj1 (ui_udp _ _ _ Hinv))). }
    destruct (rx_callback_spec _ _ _ _ p addr port Hinv Hu Er) as (i & us' & Hi & _ & _ & E & Hinv' & E').
    rewrite E. cbn [snd]. change (y_us (set_y_us us' y)) with us'.
    split; [by exists used, l |]. clear E Hinv'. subst us'. split; [done | split; [done |]].
    intros j Hj. rewrite slot_upd by (done || apply Hinv). case_decide; [subst | done].
    by destruct (rm_valid _ =? 1).
  - destruct (LocatorReceive _ _ _ _ _ _ _) as [[d u] s] eqn:E.
    assert (Hport : up_local_port (pcb_of (us_udp (y_us y)) pcb) <> 0) by (by apply Hy).
    apply LocatorReceive_keeps in E as Hk. apply LocatorReceive_udp in E as ->; [| done].
    destruct (rx_ok_net s y Hk Hy) as [H1 H2]. destruct H2 as [A B C D E], y as [[ll [uu sl]] ? ? ?].
    split; [exact H1 | split; [exact A | exact B | exact C | exact D | exact E]].
Qed.

Lemma dest_unreach_ok d t y : rx_ok y (set_y_net (icmp_dest_unreach d t (y_net y)) y).
Proof. exact (rx_ok_net _ y (icmp_send_response_keeps d ICMP_DUR t (y_net y))). Qed.

Lemma udp_input_ok p inp src dest y : rx_ok y (udp_input p inp src dest y).
Proof.
  unfold udp_input. destruct (_ <? _); [done |].
  destruct (pbuf_header p _) as [p1 |]; [| done].
  destruct (udp_demux _ _ _ _) as [pcb u] eqn:E.
  apply rx_ok_demux in E as Hd. set (y1 := set_y_us (set_us_udp u (y_us y)) y) in *.
  destruct (bool_decide _ || _); [| done]. destruct (negb _ && _); [done |].
  destruct (pbuf_header p1 _) as [p2 |]; [| done].
  destruct pcb as [pcb |].
  - intros Hy. destruct (Hd Hy) as [Hy1 He1]. apply udp_demux_found in E.
    destruct (udp_callback_ok pcb p2 src (get16 (p_payload p1) 0) y1) as [H1 H2]; [| done |].
    + change (us_udp (y_us y1)) with u. rewrite (re_pcbs _ _ He1 : pcbs u ≡ₚ _). done.
    + split; [done | by etrans].
  - destruct (negb _ && _); [| done]. etrans; [exact Hd |]. apply dest_unreach_ok.
Qed.

Section Invariant.
Variable now : Z.

Lemma ip_dispatch_ok d p inp src dest y : rx_ok y (ip_dispatch now d p inp src dest y).
Proof.
  unfold ip_dispatch. destruct (raw_input _ _ _ _ _ _ _) as [[[eaten q] r] x].
  destruct eaten; [apply rx_ok_raw |].
  etrans; [apply (rx_ok_raw r x y) |]. set (y1 := set_y_raw r x y).
  destruct (_ =? IP_PROTO_UDP); [apply udp_input_ok |].
  destruct (_ =? IP_PROTO_TCP); [apply rx_ok_net, tcp_input_keeps |].
  destruct (_ =? IP_PROTO_ICMP); [apply rx_ok_net, icmp_input_keeps |].
  destruct (negb _ && _); [apply dest_unreach_ok | done].
Qed.

Lemma ip_input_ok p inp y : rx_ok y (ip_input now p inp y).
Proof.
  unfold ip_input. repeat (match goal with |- context [if ?b then _ else _] => destruct b end; try done);
    apply ip_dispatch_ok.
Qed.

Lemma ethernet_input_ok p np y : rx_ok y (ethernet_input now p np y).
Proof.
  unfold ethernet_input. destruct (_ <=? _); [done |].
  destruct (netif_alias_route_filter _ _ _ _) as [q |]; [| done].
  destruct (_ =? ETHTYPE_IP).
  - destruct (negb _); [done |]. destruct (pbuf_header _ _); [apply ip_input_ok | done].
  - destruct (_ =? ETHTYPE_ARP); [| done]. destruct (negb _); [done |].
    apply rx_ok_net, arp_input_keeps.
Qed.
End Invariant.

(** ** Reading the headers of a frame *)

Lemma get16_be16 x l : is_u16 x -> get16 (be16 x ++ l) 0 = x.
Proof.
  intros Hx. unfold get16, byte_at, be16. cbn [nth app]. rewrite Z.shiftr_div_pow2 by lia.
  change (2 ^ 8) with 256. unfold is_u16 in *. Z.div_mod_to_equations. lia.
Qed.

Lemma eth_header_fields dst src type t :
  length dst = 6%nat -> length src = 6%nat -> is_u16 type ->
  let d := eth_header dst src type ++ t in
  get16 d 12 = type /\ drop 14 d = t /\ (forall off, get32 d (14 + off) = get32 t off)
  /\ length (eth_header dst src type) = 14%nat.
Proof.
  intros Hd Hs Ht. do 6 (destruct dst as [| ? dst]; [discriminate Hd |]). destruct dst; [| discriminate Hd].
  do 6 (destruct src as [| ? src]; [discriminate Hs |]). destruct src; [| discriminate Hs].
  cbn zeta. split; [exact (get16_be16 type [] Ht) | done].
Qed.

Lemma ip_header_fields tos len id ttl proto c src dst t :
  is_u16 len -> is_u32 src -> is_u32 dst ->
  let d := ip_header tos len id ttl proto c src dst ++ t in
  byte_at d 0 = 0x45 /\ get16 d 2 = len /\ get16 d 6 = 0 /\ byte_at d 9 = proto
  /\ get32 d 12 = src /\ get32 d 16 = dst /\ take 20 d = ip_header tos len id ttl proto c src dst
  /\ drop 20 d = t.
Proof.
  intros Hl Hs Hd. cbn zeta. split; [done |]. split; [exact (get16_be16 len [] Hl) |].
  do 2 (split; [done |]). split; [exact (get32_be32 src [] Hs) |]. split; [exact (get32_be32 dst [] Hd) | done].
Qed.

Lemma udp_header_fields sport dport len c t :
  is_u16 sport -> is_u16 dport ->
  let d := udp_header sport dport len c ++ t in
  get16 d 0 = sport /\ get16 d 2 = dport /\ drop 8 d = t.
Proof.
  intros Hs Hd. cbn zeta. split; [exact (get16_be16 sport [] Hs) |]. by split; [exact (get16_be16 dport [] Hd) |].
Qed.

(** Taking a header off the front, at the level of bytes. *)
Lemma header_off p n : 0 < n <= p_len p ->
  exists p', pbuf_header p (- n) = Some p'
    /\ p_payload p' = drop (Z.to_nat n) (p_payload p) /\ p_bytes p' = drop (Z.to_nat n) (p_bytes p)
    /\ p_len p' = p_len p - n /\ p_tot_len p' = p_tot_len p - n.
Proof.
  intros Hn. destruct (pbuf_header_shrink p n Hn) as (p' & E & Hp & Hx & _).
  assert (Hb : p_bytes p' = drop (Z.to_nat n) (p_bytes p)).
  { unfold p_bytes. rewrite Hp, Hx. unfold p_len, Zlen in Hn. by rewrite drop_app_le by lia. }
  assert (Hpt : p_len p <= p_tot_len p)
    by (unfold p_tot_len, p_bytes; rewrite Zlen_app; pose proof (Zlen_nonneg (mjoin (map ps_data (pb_next p)))); done || (unfold p_len in *; lia)).
  exists p'. split; [done |]. do 2 (split; [done |]). unfold p_tot_len, p_len in *. rewrite Hb, Hp.
  unfold Zlen in *. rewrite !length_drop. lia.
Qed.

Lemma realloc_payload p n : 0 <= n -> p_payload (pbuf_realloc p n) = take (Z.to_nat n) (p_payload p).
Proof.
  intros Hn. unfold pbuf_realloc.
  assert (Hpt : p_len p <= p_tot_len p)
    by (unfold p_tot_len, p_bytes; rewrite Zlen_app; pose proof (Zlen_nonneg (mjoin (map ps_data (pb_next p)))); unfold p_len in *; lia).
  destruct (Z.leb_spec (p_tot_len p) n).
  - rewrite take_ge; [done |]. unfold p_len, Zlen in Hpt. lia.
  - destruct (pb_next p) as [| s2 rest]; unfold p_payload; cbn [realloc_loop].
    + destruct (Z.ltb_spec (Zlen (ps_data (pb_first p))) n); cbn; [| done].
      rewrite take_ge; [done |]. unfold Zlen in *. lia.
    + destruct (Z.ltb_spec (Zlen (ps_data (pb_first p))) n).
      * destruct (realloc_loop _ s2 rest). cbn. rewrite take_ge; [done |]. unfold Zlen in *. lia.
      * done.
Qed.

(** The first segment starts with a header it is long enough for. *)
Lemma payload_prefix p h t : p_bytes p = h ++ t -> Zlen h <= p_len p ->
  exists t', p_payload p = h ++ t' /\ t' = take (length t') t.
Proof.
  intros Hb Hl. unfold p_bytes in Hb. unfold p_len, Zlen in Hl.
  apply (f_equal (take (length (p_payload p)))) in Hb. rewrite take_app_length in Hb.
  rewrite take_app_ge in Hb by lia. set (m := (length (p_payload p) - length h)%nat) in *.
  exists (take m t). split; [done |]. rewrite length_take.
  destruct (Nat.min_spec m (length t)) as [[_ ->] | [? ->]]; [done |]. by rewrite !take_ge by lia.
Qed.

(** ** A datagram through the layers *)

Lemma udp_header_ok sport dport len uc data :
  Forall is_u8 data -> Zlen data <= 65527 -> pbuf_ok (flat_pbuf (udp_header sport dport len uc ++ data)).
Proof.
  intros Hd Hl. unfold pbuf_ok, p_tot_len. rewrite p_bytes_flat, Zlen_app.
  change (Zlen (udp_header _ _ _ _)) with 8. split; [| lia].
  apply Forall_app; split; [| done]. unfold udp_header. repeat (apply Forall_app; split); apply be16_u8.
Qed.

Lemma headers_len tos len id ttl proto c src dst sport dport ulen uc t :
  Zlen (ip_header tos len id ttl proto c src dst ++ udp_header sport dport ulen uc ++ t) = 28 + Zlen t.
Proof.
  rewrite !Zlen_app. change (Zlen (ip_header _ _ _ _ _ _ _ _)) with 20.
  change (Zlen (udp_header _ _ _ _)) with 8. lia.
Qed.

(** [udp_input] on a valid datagram for an unconnected block bound to the
    destination. *)
Lemma udp_input_socket used l p inp src dst sport dport uc tos id ttl c data t y pcb :
  let ulen := 8 + Zlen data in
  us_inv used l (y_us y) -> pcb ∈ l -> connected (pcb_of (us_udp (y_us y)) pcb) = false ->
  up_local_port (pcb_of (us_udp (y_us y)) pcb) = dport ->
  up_local_ip (pcb_of (us_udp (y_us y)) pcb) = dst -> dport <> DHCP_CLIENT_PORT ->
  ip4_addr_isbroadcast dst (netif_of (y_net y) inp) = false ->
  is_u16 sport -> is_u16 dport -> is_u16 uc -> is_u16 (20 + ulen) -> is_u32 src -> is_u32 dst ->
  Forall is_u8 data ->
  p_payload p = ip_header tos (20 + ulen) id ttl IP_PROTO_UDP c src dst
                ++ udp_header sport dport ulen uc ++ t ->
  p_bytes p = ip_header tos (20 + ulen) id ttl IP_PROTO_UDP c src dst
              ++ udp_header sport dport ulen uc ++ data ->
  uc = 0 \/ inet_chksum_pseudo (flat_pbuf (udp_header sport dport ulen uc ++ data)) src dst IP_PROTO_UDP ulen = 0 ->
  exists q u, udp_demux (netif_of (y_net y) inp) false (mk_dgram src dst sport dport) (us_udp (y_us y))
              = (Some pcb, u)
    /\ p_bytes q = data
    /\ udp_input p inp src dst y = udp_callback pcb q src sport (set_y_us (set_us_udp u (y_us y)) y).
Proof.
  cbn zeta. set (ulen := 8 + Zlen data). intros Hinv Hin Hc Hport Hip Hdhcp Hbc Hs Hdp Huc Hlen Hsrc Hdst Hdata Hpp Hpb Hck.
  pose proof (Zlen_nonneg data) as Hd0. pose proof (Zlen_nonneg t) as Ht0.
  destruct (udp_demux_socket used l (us_udp (y_us y)) (netif_of (y_net y) inp) (mk_dgram src dst sport dport) pcb)
    as [u Eu]; [apply Hinv | done.. |].
  destruct (ip_header_fields tos (20 + ulen) id ttl IP_PROTO_UDP c src dst (udp_header sport dport ulen uc ++ t)
    Hlen Hsrc Hdst) as (F0 & _ & _ & _ & _ & _ & _ & Fd). rewrite <- Hpp in F0, Fd.
  assert (Hh : IPH_HLEN (p_payload p) = 20) by (unfold IPH_HLEN; by rewrite F0).
  assert (Hl1 : p_len p = 28 + Zlen t) by (unfold p_len; by rewrite Hpp, headers_len).
  assert (Hl2 : p_tot_len p = 28 + Zlen data) by (unfold p_tot_len; by rewrite Hpb, headers_len).
  destruct (header_off p 20) as (p1 & E1 & P1 & B1 & L1 & T1); [lia |].
  change (Z.to_nat 20) with 20%nat in *. rewrite Fd in P1.
  assert (Hb1 : p_bytes p1 = udp_header sport dport ulen uc ++ data) by (rewrite B1, Hpb; reflexivity).
  destruct (udp_header_fields sport dport ulen uc t Hs Hdp) as (G0 & G2 & G8). rewrite <- P1 in G0, G2, G8.
  destruct (header_off p1 UDP_HLEN) as (p2 & E2 & P2 & B2 & _ & _); [unfold UDP_HLEN; lia |].
  change (Z.to_nat UDP_HLEN) with 8%nat in *.
  exists p2, u. split; [exact Eu |]. split; [rewrite B2, Hb1; reflexivity |].
  unfold udp_input. rewrite Hh. destruct (Z.ltb_spec (p_tot_len p) (20 + UDP_HLEN)); [unfold UDP_HLEN in *; lia |].
  rewrite E1, G0, G2, Hbc, Eu. rewrite bool_decide_eq_true_2 by done. cbn [orb].
  assert (Ht : u16 (p_tot_len p1) = ulen).
  { rewrite T1, Hl2. unfold ulen in *. rewrite u16_small; [lia |]. unfold is_u16 in *. lia. }
  assert (G6 : get16 (p_payload p1) 6 = uc) by (rewrite P1; exact (get16_be16 uc [] Huc)).
  rewrite Ht, G6.
  assert (Hskip : negb (uc =? 0) && negb (inet_chksum_pseudo p1 src dst IP_PROTO_UDP ulen =? 0) = false).
  { destruct Hck as [-> | Hck]; [done |].
    rewrite (pseudo_division (flat_pbuf (udp_header sport dport ulen uc ++ data)) p1); try done.
    - by rewrite Hck, andb_false_r.
    - apply udp_header_ok; [done |]. unfold is_u16, ulen in *. lia.
    - by rewrite Hb1, p_bytes_flat.
    - unfold is_u16, ulen in *. lia. }
  by rewrite Hskip, E2.
Qed.

(** A datagram on the wire: the headers are in the first segment, the IP header
    verifies, the UDP checksum is absent or verifies, and the driver may have
    padded the frame. *)
Record udp_frame (p : pbuf) (mdst msrc : list Z) (src dst sport dport : Z) (data : list Z) : Prop := {
  uf_len : Zlen data <= 65507;
  uf_data : Forall is_u8 data;
  uf_first : 42 <= p_len p;
  uf_mdst : length mdst = 6%nat;
  uf_msrc : length msrc = 6%nat;
  uf_src : is_u32 src;
  uf_dst : is_u32 dst;
  uf_sport : is_u16 sport;
  uf_dport : is_u16 dport;
  uf_bytes : exists tos ttl id uc pad,
    is_u8 tos /\ is_u8 ttl /\ is_u16 id /\ is_u16 uc
    /\ p_bytes p = eth_header mdst msrc ETHTYPE_IP
                   ++ udp_packet tos ttl id src dst sport dport uc data ++ pad
    /\ (uc = 0 \/ inet_chksum_pseudo (flat_pbuf (udp_header sport dport (8 + Zlen data) uc ++ data)) src
                    dst IP_PROTO_UDP (8 + Zlen data) = 0)
}.

Lemma set_y_raw_eta y : set_y_raw (y_raw y) (y_ping y) y = y.
Proof. by destruct y. Qed.

(** [ip_input] on a valid UDP packet for this interface. *)
Lemma ip_input_udp now p inp src dst sport dport tos ttl id uc data pad y :
  let len := 20 + (8 + Zlen data) in
  let hdr := ip_header tos len id ttl IP_PROTO_UDP (ip_chksum_inline tos len id ttl IP_PROTO_UDP src dst) src dst in
  is_u8 tos -> is_u8 ttl -> is_u16 id -> is_u16 len -> is_u32 src -> is_u32 dst ->
  p_bytes p = udp_packet tos ttl id src dst sport dport uc data ++ pad -> 28 <= p_len p ->
  ip_accepts dst (netif_of (y_net y) inp) = true ->
  ip4_addr_isbroadcast src (netif_of (y_net y) inp) = false -> ip_addr_ismulticast src = false ->
  (forall i, i ∈ raws (y_raw y) -> rp_protocol (raw_of (y_raw y) i) <> IP_PROTO_UDP) ->
  exists q t, ip_input now p inp y = udp_input q inp src dst y
    /\ p_bytes q = hdr ++ udp_header sport dport (8 + Zlen data) uc ++ data
    /\ p_payload q = hdr ++ udp_header sport dport (8 + Zlen data) uc ++ t.
Proof.
  cbn zeta. set (len := 20 + (8 + Zlen data)). set (hdr := ip_header _ _ _ _ _ _ _ _).
  set (uh := udp_header sport dport (8 + Zlen data) uc).
  intros Htos Httl Hid Hlen Hsrc Hdst Hb Hl Hacc Hbc Hmc Hraw.
  assert (Hb' : p_bytes p = (hdr ++ uh) ++ data ++ pad) by (rewrite Hb; unfold udp_packet; by rewrite <- !app_assoc).
  destruct (payload_prefix p (hdr ++ uh) (data ++ pad) Hb' Hl) as (t & Hp & Ht).
  rewrite <- app_assoc in Hp.
  destruct (ip_header_fields tos len id ttl IP_PROTO_UDP (ip_chksum_inline tos len id ttl IP_PROTO_UDP src dst)
    src dst (uh ++ t) Hlen Hsrc Hdst) as (F0 & F2 & F6 & F9 & F12 & F16 & Ftake & _).
  fold hdr in F0, F2, F6, F9, F12, F16, Ftake. rewrite <- Hp in F0, F2, F6, F9, F12, F16, Ftake.
  assert (Htot : len <= p_tot_len p).
  { unfold p_tot_len. rewrite Hb', !Zlen_app. change (Zlen hdr) with 20. change (Zlen uh) with 8.
    pose proof (Zlen_nonneg pad). unfold len. lia. }
  unfold ip_input. unfold IPH_HLEN. rewrite F0, F2, F6, F9, F12, F16.
  change (Z.land 69 15 * 4) with 20. change (negb (Z.shiftr 69 4 =? 4)) with false. cbn match.
  rewrite (proj2 (Z.ltb_ge (p_len p) 20)), (proj2 (Z.ltb_ge (p_tot_len p) len)) by lia. cbn [orb].
  change (Z.to_nat 20) with 20%nat. rewrite Ftake. unfold hdr at 1. rewrite ip_header_verifies by done.
  change (negb (0 =? 0)) with false. cbn match.
  assert (Hf : ip_find_netif inp dst (y_net y) = Some inp) by (unfold ip_find_netif; cbn [List.find]; by rewrite Hacc).
  rewrite Hf, Hbc, Hmc. rewrite bool_decide_eq_false_2 by done. cbn [andb orb negb]. rewrite andb_false_r.
  change (negb (Z.land 0 16383 =? 0)) with false. cbn match.
  unfold ip_dispatch. rewrite F9, raw_input_none by done. rewrite set_y_raw_eta.
  change (IP_PROTO_UDP =? IP_PROTO_UDP) with true. cbn match.
  exists (pbuf_realloc p len). assert (0 <= len) by (unfold is_u16 in Hlen; lia).
  rewrite pbuf_realloc_spec, realloc_payload by done. rewrite Hp, Hb'.
  exists (take (Z.to_nat len - 28) t). split; [done |].
  assert (Hn : (Z.to_nat len = 28 + length data)%nat) by (unfold len, Zlen; lia).
  assert (H28 : length (hdr ++ uh) = 28%nat) by reflexivity. rewrite Hn.
  split; [| rewrite app_assoc]; rewrite (take_app_ge (hdr ++ uh)) by lia; rewrite H28.
  - replace (28 + length data - 28)%nat with (length data) by lia. by rewrite take_app_length, <- app_assoc.
  - by rewrite <- app_assoc.
Qed.

(** What the alias filter decides for a packet to the address of one of the
    other interfaces. *)
Record alias_target (s : net) (d np : netif_ptr) (a : Z) : Prop := {
  at_list : np ∈ netifs s;
  at_match : filter_match a (netif_of s np) = true;
  at_unique : forall q, q ∈ netifs s -> filter_match a (netif_of s q) = true -> q = np;
  at_flag : has_flag (netif_of s np) NETIF_FLAG_ETHARP = true;
  at_bcast : ip4_addr_isbroadcast a (netif_of s d) = false;
  at_mcast : ip_addr_ismulticast a = false;
  at_other : a <> nif_ip_addr (netif_of s d)
}.

Lemma filter_to_alias s p d np type a :
  alias_target s d np a -> filter_target p type = Some a ->
  netif_alias_route_filter (Some p) (Some d) type s = Some np.
Proof.
  intros [Hin Hm Hu _ Hb Hmc Ho] Ht. unfold netif_alias_route_filter. rewrite Ht.
  unfold ip_addr_cmp at 1. rewrite (proj2 (Z.eqb_neq _ _) Ho), Hb, Hmc. cbn [orb].
  by rewrite (find_unique (fun n => filter_match a (netif_of s n)) (netifs s) np).
Qed.

(** [ethernet_input] hands the IP packet to the alias. *)
Lemma ethernet_input_alias now p d np mdst msrc src dst sport dport data y :
  udp_frame p mdst msrc src dst sport dport data -> alias_target (y_net y) d np dst ->
  exists q tos ttl id uc pad,
    ethernet_input now p d y = ip_input now q np y
    /\ is_u8 tos /\ is_u8 ttl /\ is_u16 id /\ is_u16 uc
    /\ p_bytes q = udp_packet tos ttl id src dst sport dport uc data ++ pad /\ 28 <= p_len q
    /\ (uc = 0 \/ inet_chksum_pseudo (flat_pbuf (udp_header sport dport (8 + Zlen data) uc ++ data)) src
                    dst IP_PROTO_UDP (8 + Zlen data) = 0).
Proof.
  intros [Hlen Hdata Hfirst Hmd Hms Hsrc Hdst Hsp Hdp (tos & ttl & id & uc & pad & Htos & Httl & Hid & Huc & Hb & Hck)] Hat.
  set (pk := udp_packet tos ttl id src dst sport dport uc data) in *.
  assert (Hu : is_u16 ETHTYPE_IP) by (split; [discriminate | reflexivity]).
  set (hdr := ip_header tos (20 + (8 + Zlen data)) id ttl IP_PROTO_UDP
     (ip_chksum_inline tos (20 + (8 + Zlen data)) id ttl IP_PROTO_UDP src dst) src dst).
  set (eh := eth_header mdst msrc ETHTYPE_IP) in *.
  set (r := udp_header sport dport (8 + Zlen data) uc ++ data ++ pad).
  assert (Hb' : p_bytes p = (eh ++ hdr) ++ r) by (rewrite Hb; unfold pk, udp_packet, r; by rewrite <- !app_assoc).
  destruct (eth_header_fields mdst msrc ETHTYPE_IP (hdr ++ r) Hmd Hms Hu) as (_ & _ & _ & Hehl). fold eh in Hehl.
  destruct (payload_prefix p (eh ++ hdr) r Hb') as (t & Hp & _).
  { rewrite Zlen_app. unfold Zlen at 1. rewrite Hehl. change (Zlen hdr) with 20. lia. }
  rewrite <- app_assoc in Hp.
  destruct (eth_header_fields mdst msrc ETHTYPE_IP (hdr ++ t) Hmd Hms Hu) as (E12 & E14 & E30 & _).
  fold eh in E12, E14, E30. rewrite <- Hp in E12, E14, E30.
  assert (Hl : is_u16 (20 + (8 + Zlen data))) by (pose proof (Zlen_nonneg data); unfold is_u16; lia).
  destruct (ip_header_fields tos _ id ttl IP_PROTO_UDP
    (ip_chksum_inline tos (20 + (8 + Zlen data)) id ttl IP_PROTO_UDP src dst) src dst t Hl Hsrc Hdst)
    as (_ & _ & _ & _ & _ & F16 & _).
  assert (Ht : filter_target p ETHTYPE_IP = Some dst).
  { unfold filter_target. change (ETHTYPE_IP =? ETHTYPE_IP) with true. cbn match.
    rewrite (proj2 (Z.leb_le _ _)) by (unfold SIZEOF_ETH_HDR; lia).
    f_equal. exact (eq_trans (E30 16%nat) F16). }
  unfold ethernet_input. rewrite (proj2 (Z.leb_gt _ _)) by (unfold SIZEOF_ETH_HDR; lia).
  rewrite E12. change (htons ETHTYPE_IP) with ETHTYPE_IP.
  rewrite (filter_to_alias _ _ _ _ _ _ Hat Ht). change (ETHTYPE_IP =? ETHTYPE_IP) with true. cbn match.
  rewrite (at_flag _ _ _ _ Hat). cbn [negb].
  set (p' := mk_pbuf (pb_first p) (pb_next p) _).
  destruct (header_off p' SIZEOF_ETH_HDR) as (q & Eq & _ & Bq & Lq & _).
  { change (p_len p') with (p_len p). unfold SIZEOF_ETH_HDR. lia. }
  rewrite Eq. exists q, tos, ttl, id, uc, pad. do 5 (split; [done |]).
  change (p_bytes p') with (p_bytes p) in Bq. change (p_len p') with (p_len p) in Lq.
  split; [| split; [unfold SIZEOF_ETH_HDR in Lq; lia | done]].
  rewrite Bq, Hb. change (Z.to_nat SIZEOF_ETH_HDR) with 14%nat. rewrite <- Hehl. apply drop_app_length.
Qed.

(** ** Properties *)

(** C2. Datagrams reach the socket of the addressed interface: a frame that
    arrives on the physical interface with a valid UDP datagram to the address of
    a running alias and the port of a socket open on that address is found by
    that socket's next [udp_source_poll_rx], with the sender's address and port
    and the first 256 bytes, provided its mailbox was empty; if the mailbox was
    full, the datagram is counted as dropped and the waiting message stays.
    Nothing is sent, and no other slot changes. *)
Theorem alias_receives_udp now used l p d np mdst msrc src dst sport dport data y id i pcb
  (Hframe : udp_frame p mdst msrc src dst sport dport data)
  (Halias : alias_target (y_net y) d np dst) (Hdst0 : dst <> 0)
  (Hown : ip4_addr_isbroadcast dst (netif_of (y_net y) np) = false)
  (Hsrcb : ip4_addr_isbroadcast src (netif_of (y_net y) np) = false)
  (Hsrcm : ip_addr_ismulticast src = false)
  (Hraw : forall k, k ∈ raws (y_raw y) -> rp_protocol (raw_of (y_raw y) k) <> IP_PROTO_UDP)
  (Hinv : us_inv used l (y_us y)) (Hid : is_u16 id) (Hopen : resolve id (y_us y) = Some i)
  (Hpcb : ul_pcb (slot (y_us y) i) = Some pcb)
  (Hconn : connected (pcb_of (us_udp (y_us y)) pcb) = false)
  (Hport : up_local_port (pcb_of (us_udp (y_us y)) pcb) = dport) (Hdhcp : dport <> DHCP_CLIENT_PORT)
  (Hip : up_local_ip (pcb_of (us_udp (y_us y)) pcb) = dst) :
  let y' := ethernet_input now p d y in
  let n := Z.min (Zlen data) 256 in
  (rm_valid (ul_rx_msg (slot (y_us y) i)) = 0 ->
     exists m us2, udp_source_poll_rx id (y_us y') = (Some m, us2)
       /\ rm_src_ip m = src /\ rm_src_port m = sport /\ rm_data_len m = n
       /\ take (Z.to_nat n) (rm_data m) = take (Z.to_nat n) data)
  /\ (rm_valid (ul_rx_msg (slot (y_us y) i)) <> 0 ->
      ul_rx_msg (slot (y_us y') i) = ul_rx_msg (slot (y_us y) i)
      /\ ul_rx_drop_count (slot (y_us y') i) = u32 (ul_rx_drop_count (slot (y_us y) i) + 1))
  /\ y_net y' = y_net y
  /\ forall j, j <> i -> (j < UDP_MAX_LISTENERS)%nat -> slot (y_us y') j = slot (y_us y) j.
Proof.
  cbn zeta.
  destruct (ethernet_input_alias now p d np mdst msrc src dst sport dport data y Hframe Halias)
    as (q & tos & ttl & hid & uc & pad & E1 & Htos & Httl & Hhid & Huc & Hq & Hql & Hck).
  destruct Hframe as [Hlen Hdata _ _ _ Hsrc Hdst Hsp Hdp _].
  assert (Hl : is_u16 (20 + (8 + Zlen data))) by (pose proof (Zlen_nonneg data); unfold is_u16; lia).
  assert (Hacc : ip_accepts dst (netif_of (y_net y) np) = true).
  { pose proof (at_match _ _ _ _ Halias) as Hm. unfold filter_match in Hm. unfold ip_accepts.
    apply andb_true_iff in Hm as [[-> _]%andb_true_iff Hm]. rewrite Hm. apply Z.eqb_eq in Hm as <-.
    unfold ip_addr_isany, IPADDR_ANY. by rewrite (proj2 (Z.eqb_neq _ _) Hdst0). }
  destruct (ip_input_udp now q np src dst sport dport tos ttl hid uc data pad y)
    as (q2 & t & E2 & Hb2 & Hp2); [done.. |].
  destruct (proj1 (resolve_iff _ _ _ _ _ Hinv Hid) Hopen) as (Hi & Hu & Eid).
  destruct (ui_slot _ _ _ Hinv i Hi) as [_ _ _ [[? _] | (_ & p' & np' & Ep & _ & Hpl & Hcb & _ & _)]]; [lia |].
  assert (p' = pcb) as -> by congruence.
  destruct (udp_input_socket used l q2 np src dst sport dport uc tos hid ttl
     (ip_chksum_inline tos (20 + (8 + Zlen data)) hid ttl IP_PROTO_UDP src dst) data t y pcb)
    as (q3 & u & Eu & Hb3 & E3); [done.. |].
  rewrite E1, E2, E3. clear E1 E2 E3.
  destruct (udp_demux_inv _ _ _ _ _ _ _ _ (ui_udp _ _ _ Hinv) Eu) as (l' & Hi' & Hpm & Hf).
  assert (Hinv' : us_inv used l' (set_us_udp u (y_us y))).
  { apply (us_inv_frame used l); auto.
    - intros k _. by destruct (Hf k) as (? & ? & _ & ?).
    - intros k Hk. by rewrite Hpm. }
  assert (Ht3 : p_tot_len q3 = Zlen data) by (unfold p_tot_len; by rewrite Hb3).
  destruct (mailbox_filled used l' (set_us_udp u (y_us y)) id i pcb q3 src sport Hinv' Hid Hopen Hpcb)
    as (us1 & Ecb & Hempty & Hfull); [lia |].
  rewrite Ht3, Hb3 in Hempty.
  assert (Hcb' : up_recv (pcb_of u pcb) = Recv_udp_rx_callback) by (by rewrite (proj1 (Hf pcb))).
  set (y1 := set_y_us (set_us_udp u (y_us y)) y).
  assert (E4 : udp_callback pcb q3 src sport y1 = set_y_us us1 y1).
  { unfold udp_callback. change (us_udp (y_us y1)) with u. rewrite Hcb'.
    change (us_udp (set_us_udp u (y_us y))) with u in Ecb. change (y_us y1) with (set_us_udp u (y_us y)).
    by rewrite Ecb. }
  rewrite E4. change (y_us (set_y_us us1 y1)) with us1.
  split; [| split; [exact Hfull | split; [by destruct y as [[[] ?] ? ? ?] |]]].
  - intros Hv. destruct (Hempty Hv) as (m & us2 & Hpoll & ? & ? & ? & ? & _). exists m, us2. done.
  - intros j Hji Hj. by apply (callback_other used l' (set_us_udp u (y_us y)) i pcb q3 src sport us1).
Qed.

(** An ARP request as it arrives. *)
Record arp_request_frame (p : pbuf) (mac : list Z) (sip : Z) (hz : list Z) (a : Z) : Prop := {
  rf_mac : length mac = 6%nat;
  rf_hz : length hz = 6%nat;
  rf_a : is_u32 a;
  rf_bytes : exists pad, p_payload p = arp_packet ethbroadcast mac ARP_REQUEST mac sip hz a ++ pad
}.

Lemma arp_request_fields p mac sip hz a : arp_request_frame p mac sip hz a ->
  let d := p_payload p in
  42 <= p_len p /\ get16 d 12 = ETHTYPE_ARP /\ get16 d 14 = HWTYPE_ETHERNET /\ get16 d 16 = ETHTYPE_IP
  /\ byte_at d 18 = 6 /\ byte_at d 19 = 4 /\ get16 d 20 = ARP_REQUEST /\ get32 d 38 = a
  /\ take 6 (drop 22 d) = mac /\ take 4 (drop 28 d) = be32 sip
  /\ take 8 (drop 12 d) = be16 ETHTYPE_ARP ++ be16 HWTYPE_ETHERNET ++ be16 ETHTYPE_IP ++ [6; 4].
Proof.
  intros [Hm Hz Ha [pad Hp]]. cbn zeta. unfold p_len. rewrite Hp.
  do 6 (destruct mac as [| ? mac]; [discriminate Hm |]). destruct mac; [| discriminate Hm].
  do 6 (destruct hz as [| ? hz]; [discriminate Hz |]). destruct hz; [| discriminate Hz].
  split; [rewrite Zlen_app; change (Zlen (arp_packet _ _ _ _ _ _ _)) with 42; pose proof (Zlen_nonneg pad); lia |].
  do 6 (split; [reflexivity |]). split; [exact (get32_be32 a [] Ha) |]. split_and!; reflexivity.
Qed.

(** C3. ARP requests for an alias are answered by the alias: a request that
    arrives on the physical interface for the address of a running alias
    produces, after at most one packet that was waiting for the requester, one
    frame through the alias's driver instance to the requester's MAC, from the
    alias's MAC: an ARP reply that binds the alias's address to the alias's MAC
    and is addressed to the requester. *)
Theorem alias_answers_arp now p d np mac sip hz a y
  (Hframe : arp_request_frame p mac sip hz a)
  (Halias : alias_target (y_net y) d np a) (Ha0 : a <> 0)
  (Hconf : netif_conf (netif_of (y_net y) np)) :
  let n := netif_of (y_net y) np in
  exists w f, n_wire (y_net (ethernet_input now p d y)) = n_wire (y_net y) ++ w ++ [f]
    /\ (length w <= 1)%nat
    /\ fr_hdkif f = nif_state n
    /\ take 6 (fr_data f) = mac /\ take 6 (drop 6 (fr_data f)) = nif_hwaddr n
    /\ take 10 (drop 12 (fr_data f))
       = be16 ETHTYPE_ARP ++ be16 HWTYPE_ETHERNET ++ be16 ETHTYPE_IP ++ [6; 4] ++ be16 ARP_REPLY
    /\ take 6 (drop 22 (fr_data f)) = nif_hwaddr n /\ get32 (fr_data f) 28 = a
    /\ take 6 (drop 32 (fr_data f)) = mac /\ take 4 (drop 38 (fr_data f)) = be32 sip.
Proof.
  destruct (arp_request_fields _ _ _ _ _ Hframe)
    as (Hl & H12 & H14 & H16 & H18 & H19 & H20 & H38 & H22 & H28 & H8). cbn zeta.
  assert (Ht : filter_target p ETHTYPE_ARP = Some a).
  { unfold filter_target. change (ETHTYPE_ARP =? ETHTYPE_IP) with false.
    change (ETHTYPE_ARP =? ETHTYPE_ARP) with true. cbn match.
    rewrite (proj2 (Z.leb_le _ _)) by (unfold SIZEOF_ETH_HDR, SIZEOF_ETHARP_HDR; lia). by rewrite H38. }
  unfold ethernet_input. rewrite (proj2 (Z.leb_gt _ _)) by (unfold SIZEOF_ETH_HDR; lia).
  rewrite H12. change (htons ETHTYPE_ARP) with ETHTYPE_ARP.
  rewrite (filter_to_alias _ _ _ _ _ _ Halias Ht). change (ETHTYPE_ARP =? ETHTYPE_IP) with false.
  change (ETHTYPE_ARP =? ETHTYPE_ARP) with true. cbn match.
  rewrite (at_flag _ _ _ _ Halias). cbn [negb].
  assert (Eip : nif_ip_addr (netif_of (y_net y) np) = a).
  { pose proof (at_match _ _ _ _ Halias) as Hm. unfold filter_match in Hm.
    apply andb_true_iff in Hm as [_ Hm]. by apply Z.eqb_eq in Hm. }
  set (p' := mk_pbuf (pb_first p) (pb_next p) _).
  pose proof (rf_a _ _ _ _ _ Hframe) as Hau.
  destruct (arp_reply_sent np p' (y_net y) Hconf)
    as (w & f & Hw & Hlw & Hdev & F1 & F2 & F3 & F4 & F5 & F6 & F7);
    try (change (p_payload p') with (p_payload p)); try done.
  { by rewrite H38, Eip. } { rewrite Eip. unfold is_u32 in Hau. lia. }
  change (p_payload p') with (p_payload p) in *.
  rewrite H22 in F1, F6. rewrite H28 in F7. rewrite H8 in F3. rewrite Eip in F5.
  exists w, f. split; [exact Hw |]. split_and!; try done; by rewrite F3.
Qed.

(** The frames the driver hands over, with the RTI counter and the interface. *)
Definition receive_all (fs : list (Z * pbuf * netif_ptr)) (y : sys) : sys :=
  fold_left (fun y f => ethernet_input (fst (fst f)) (snd (fst f)) (snd f) y) fs y.

(** What the interrupts do to the program: they receive frames. *)
Definition is_isr (f : sys -> sys) : Prop := exists fs, forall y, f y = receive_all fs y.

(** C4. No sequence of frames, whatever their bytes, breaks the stack: from a
    consistent state the ARP table stays well formed; the interface list, every
    interface and the alias pool are unchanged; the same UDP control blocks
    stay bound to the same endpoints; every slot keeps its socket, and every
    open socket is on a listed interface and its id resolves to its slot. *)
Theorem receive_keeps_sys fs y
  (Hy : sys_ok y) :
  let y' := receive_all fs y in
  arp_ok (arp_table (y_net y'))
  /\ netifs (y_net y') = netifs (y_net y)
  /\ (forall q, netif_of (y_net y') q = netif_of (y_net y) q)
  /\ alias_used (st_lwl (y_stack y')) = alias_used (st_lwl (y_stack y))
  /\ pcbs (us_udp (y_us y')) ≡ₚ pcbs (us_udp (y_us y))
  /\ (forall k, up_local_ip (pcb_of (us_udp (y_us y')) k) = up_local_ip (pcb_of (us_udp (y_us y)) k)
       /\ up_local_port (pcb_of (us_udp (y_us y')) k) = up_local_port (pcb_of (us_udp (y_us y)) k))
  /\ forall i, (i < 16)%nat -> slot_socket (slot (y_us y') i) = slot_socket (slot (y_us y) i)
      /\ (ul_in_use (slot (y_us y') i) <> 0 ->
          resolve (make_id i (y_us y')) (y_us y') = Some i
          /\ exists np, ul_netif (slot (y_us y') i) = Some np /\ np ∈ netifs (y_net y')).
Proof.
  cbn zeta. assert (H : rx_ok y (receive_all fs y)).
  { clear Hy. unfold receive_all. revert y; induction fs as [| f fs IH]; intros y; [done |]. cbn [fold_left].
    etrans; [by apply ethernet_input_ok | apply IH]. }
  destruct (H Hy) as [Hy' [El [Hifs _] Hp Hf Hs]]. set (y' := receive_all _ _) in *. clearbody y'. clear H.
  destruct Hy as ((L & Hl & _ & _) & _ & _), Hy' as ((L' & Hl' & (used & l & Hinv) & Hso) & [Harp _] & _).
  pose proof (net_list_netifs _ _ (lo_list _ _ _ Hl')) as EL'. fold (y_net y') in EL'.
  split; [exact Harp |]. split.
  { rewrite (net_list_netifs _ L) by (eapply same_ifs_list; [exact Hifs | apply Hl]).
    symmetry. apply net_list_netifs, Hl. }
  split; [by intros q; apply same_ifs_netif_of |]. split; [by rewrite El |]. split; [exact Hp |].
  split; [intros k; by destruct (Hf k) as (_ & _ & ? & ?) |].
  intros i Hi. split; [by apply Hs |]. intros Hu.
  destruct (ui_slot _ _ _ Hinv i Hi) as [G _ _ [[? _] | (Hu' & p & np & _ & Hnp & _)]]; [done |].
  change (st_us (y_stack y')) with (y_us y') in *. split.
  - apply (resolve_iff _ _ _ _ _ Hinv); [| done]. rewrite make_id_val by done.
    unfold is_u8, is_u16, UDP_MAX_LISTENERS in *. lia.
  - exists np. split; [done |]. rewrite EL'. apply (Hso i np Hi). by apply on_netif_spec.
Qed.

(** ** Instances *)

(** The stack of [ex_stack] (alias 10.0.0.11 with a socket on port 5000) at
    run time. *)
Definition ex_sys : sys := mk_sys ex_stack raw_init ping_init [].

Lemma ex_alias_target : alias_target (y_net ex_sys) (HdkNetIF 0) (AliasNetif 0) 0x0a00000b.
Proof.
  assert (E : netifs (y_net ex_sys) = [AliasNetif 0; HdkNetIF 0]) by (vm_compute; reflexivity).
  split; try (vm_compute; congruence).
  - rewrite E. apply list_elem_of_here.
  - rewrite E. intros q [-> | [-> | ?%not_elem_of_nil]%elem_of_cons]%elem_of_cons; [done | | done].
    vm_compute. discriminate.
Qed.

Lemma ex_sys_ok : sys_ok ex_sys.
Proof.
  split; [exact ex_stack_ok | split].
  - split; [| vm_compute; lia]. assert (arp_table (y_net ex_sys) = replicate 10 entry_zero) as ->
      by (vm_compute; reflexivity). apply arp_inv_init.
  - assert (E : pcbs (us_udp (y_us ex_sys)) = [19%nat]) by (vm_compute; reflexivity).
    rewrite E. intros p ->%list_elem_of_singleton. vm_compute. congruence.
Qed.

(** 10.0.0.1 sends "hi!" from port 7777 to 10.0.0.11, port 5000. *)
Definition ex_udp_frame : pbuf :=
  flat_pbuf (eth_header [2; 0; 0; 0; 0; 1] [9; 8; 7; 6; 5; 4] ETHTYPE_IP
    ++ udp_packet 0 255 1 0x0a000001 0x0a00000b 7777 5000 0 [104; 105; 33] ++ replicate 15 0).

Lemma ex_udp_frame_ok :
  udp_frame ex_udp_frame [2; 0; 0; 0; 0; 1] [9; 8; 7; 6; 5; 4] 0x0a000001 0x0a00000b 7777 5000 [104; 105; 33].
Proof.
  assert (R : is_u32 0x0a000001 /\ is_u32 0x0a00000b /\ is_u16 7777 /\ is_u16 5000
    /\ is_u8 0 /\ is_u8 255 /\ is_u16 1 /\ is_u16 0) by (unfold is_u8, is_u16, is_u32; lia).
  destruct R as (R1 & R2 & R3 & R4 & R5 & R6 & R7 & R8).
  apply Build_udp_frame; [vm_compute; congruence | | vm_compute; congruence | reflexivity | reflexivity
    | exact R1 | exact R2 | exact R3 | exact R4 |].
  - repeat (apply List.Forall_cons; [split; done |]). apply List.Forall_nil.
  - exists 0, 255, 1, 0, (replicate 15 0). do 4 (split; [assumption |]). split; [reflexivity | by left].
Qed.

Lemma ex_sys_us_inv : exists used l, us_inv used l (y_us ex_sys).
Proof. destruct ex_stack_ok as (L & _ & Hv & _). exact Hv. Qed.

Lemma alias_receives_udp_witness :
  exists m us2, udp_source_poll_rx 0 (y_us (ethernet_input 0 ex_udp_frame (HdkNetIF 0) ex_sys))
    = (Some m, us2)
    /\ rm_src_ip m = 0x0a000001 /\ rm_src_port m = 7777 /\ rm_data_len m = 3
    /\ take 3 (rm_data m) = [104; 105; 33].
Proof.
  destruct ex_sys_us_inv as (used & l & Hinv).
  assert (Hraw : forall k, k ∈ raws (y_raw ex_sys) -> rp_protocol (raw_of (y_raw ex_sys) k) <> IP_PROTO_UDP)
    by (intros k Hk%not_elem_of_nil; done).
  assert (Hid : is_u16 0) by (split; [discriminate | reflexivity]).
  refine (proj1 (alias_receives_udp 0 used l ex_udp_frame (HdkNetIF 0) (AliasNetif 0)
    [2; 0; 0; 0; 0; 1] [9; 8; 7; 6; 5; 4] 0x0a000001 0x0a00000b 7777 5000 [104; 105; 33] ex_sys 0 0 19
    ex_udp_frame_ok ex_alias_target _ _ _ _ Hraw Hinv Hid _ _ _ _ _ _) _);
    vm_compute; congruence.
Defined.

Lemma alias_answers_arp_witness :
  exists w f, n_wire (y_net (ethernet_input 0 (ex_arp_request 0x0a00000b) (HdkNetIF 0) ex_sys))
      = n_wire (y_net ex_sys) ++ w ++ [f]
    /\ (length w <= 1)%nat
    /\ fr_hdkif f = nif_state (netif_of (y_net ex_sys) (AliasNetif 0))
    /\ take 6 (fr_data f) = [9; 8; 7; 6; 5; 4]
    /\ take 6 (drop 6 (fr_data f)) = nif_hwaddr (netif_of (y_net ex_sys) (AliasNetif 0))
    /\ take 10 (drop 12 (fr_data f)) = [8; 6; 0; 1; 8; 0; 6; 4; 0; 2]
    /\ take 6 (drop 22 (fr_data f)) = nif_hwaddr (netif_of (y_net ex_sys) (AliasNetif 0))
    /\ get32 (fr_data f) 28 = 0x0a00000b
    /\ take 6 (drop 32 (fr_data f)) = [9; 8; 7; 6; 5; 4]
    /\ take 4 (drop 38 (fr_data f)) = [10; 0; 0; 1].
Proof.
  apply (alias_answers_arp 0 (ex_arp_request 0x0a00000b) (HdkNetIF 0) (AliasNetif 0)
    [9; 8; 7; 6; 5; 4] 0x0a000001 [0; 0; 0; 0; 0; 0] 0x0a00000b ex_sys).
  - split; [reflexivity | reflexivity | vm_compute; split; congruence | by exists []].
  - exact ex_alias_target.
  - discriminate.
  - vm_compute. repeat split; reflexivity.
Defined.

Lemma receive_keeps_sys_witness :
  netifs (y_net (receive_all [(0, ex_udp_frame, HdkNetIF 0); (9375, ex_arp_request 0x0a00000b, HdkNetIF 0)]
                   ex_sys)) = netifs (y_net ex_sys)
  /\ pcbs (us_udp (y_us (receive_all [(0, ex_udp_frame, HdkNetIF 0);
       (9375, ex_arp_request 0x0a00000b, HdkNetIF 0)] ex_sys))) ≡ₚ pcbs (us_udp (y_us ex_sys)).
Proof.
  destruct (receive_keeps_sys [(0, ex_udp_frame, HdkNetIF 0);
    (9375, ex_arp_request 0x0a00000b, HdkNetIF 0)] ex_sys ex_sys_ok)
    as (_ & H1 & _ & _ & H2 & _). by split.
Defined.
