(* ===== verification/Wire.v ===== *)
(** * From the wire to the program

    The receive ring below the receive path: the stack that [EmacRx] takes as a
    parameter is the program of [Input], which looks at each packet it is handed and
    acts on it.  What becomes of the packet's buffers is left open.  Most packets are
    freed; an answer to an ARP or echo request reuses the packet, and a packet sent
    to an address that is not resolved yet is queued, so that the buffers come back
    with a later interrupt. *)

From stdpp Require Import gmultiset.
From S2P Require Import Prelude NetTypes Memp Pbuf Heap Net PbufRef PbufRope EmacTx EmacRx EmacRxOk EmacRxRun UdpSource Input.

(** The program, with the readings of the RTI counter it will make and what it was
    handed. *)
Record program := mk_program {
  pg_sys : sys;
  pg_clock : nat -> Z;
  pg_log : list (Z * pbuf * netif_ptr)
}.
Definition handed (f : Z * pbuf * netif_ptr) : list Z := p_bytes (snd (fst f)).
Definition hand (v : pbuf) (w : program) : program :=
  let now := pg_clock w (length (pg_log w)) in
  mk_program (Input.ethernet_input now v (HdkNetIF 0) (pg_sys w)) (pg_clock w) (pg_log w ++ [(now, v, HdkNetIF 0)]).

(** A stack above the ring that is this program, whatever else it keeps track of. *)
Class Program (W : Type) `{Upper W} := {
  prog : W -> program;
  prog_frames : forall w, up_frames w = map handed (pg_log (prog w));
  prog_input : forall q s w s' w', EmacRx.ethernet_input q s w = Some (s', w') -> exists v, packet_at s q = Some v /\ prog w' = hand v (prog w)
}.

(** ** What the handler does to the stack above *)

Section Relation.
Context {W : Type} `{Upper W} (R : W -> W -> Prop) {HR : PreOrder R}.
Hypothesis input_related : forall q s w s' w', EmacRx.ethernet_input q s w = Some (s', w') -> R w w'.

Lemma rx_packet_related start last0 t w l t' w' : rx_packet start last0 t w = Some (l, t', w') -> R w w'.
Proof.
  unfold rx_packet. destruct (rx_bds _ !! _) as [d |]; [| done]. cbn [mbind option_bind]. destruct (td_pbuf d) as [q |]; [| done]. cbn [mbind option_bind].
  destruct (gather _ _ _ _ _ _) as [[[[[? ?] ?] ?] t1] |]; [| done]. cbn [mbind option_bind].
  destruct (rx_do _ _) as [[? t2] |]; [| done]. cbn [mbind option_bind].
  destruct (EmacRx.ethernet_input _ _ _) as [[s w1] |] eqn:E; [| done]. cbn [mbind option_bind].
  destruct (replenish _ _) as [[? ?] |]; [| done]. intros [= _ _ <-]. by eapply input_related.
Qed.
Lemma rx_loop_related fuel : forall dma last0 t w t' w', rx_loop fuel dma last0 t w = Some (t', w') -> R w w'.
Proof.
  induction fuel as [| fuel IH]; intros dma last0 t w t' w'; cbn [rx_loop]; destruct (active_head _) as [i |]; try done; cbn [mbind option_bind];
    destruct (rx_bds _ !! i) as [d |]; try done; cbn [mbind option_bind]; destruct (flag EMAC_BUF_DESC_SOP _); try done; try (by intros [= _ <-]).
  destruct (flag EMAC_BUF_DESC_OWNER _); [apply IH |]. destruct (rx_packet _ _ _ _) as [[[l t1] w1] |] eqn:E; [| done]. cbn [mbind option_bind].
  intros E2. transitivity w1; [by eapply rx_packet_related | by eapply IH].
Qed.
End Relation.

Section Receiving.
Context {W : Type} `{UpperOk W} `{!Program W}.

(** The program goes on from [w] to [w'] by receiving. *)
Definition receives (w w' : W) : Prop :=
  exists fs, pg_sys (prog w') = receive_all fs (pg_sys (prog w)) /\ pg_log (prog w') = pg_log (prog w) ++ fs /\ Forall (fun f => snd f = HdkNetIF 0) fs.
#[local] Instance receives_preorder : PreOrder receives.
Proof.
  split.
  - intros w. exists []. by rewrite app_nil_r.
  - intros w1 w2 w3 (f1 & E1 & L1 & H1) (f2 & E2 & L2 & H2). exists (f1 ++ f2). unfold receive_all in *. rewrite fold_left_app.
    split; [by rewrite E2, E1 |]. split; [by rewrite L2, L1, app_assoc | by apply Forall_app].
Qed.
Lemma input_receives q s w s' w' : EmacRx.ethernet_input q s w = Some (s', w') -> receives w w'.
Proof.
  intros (v & _ & E)%prog_input. exists [(pg_clock (prog w) (length (pg_log (prog w))), v, HdkNetIF 0)]. rewrite E.
  split; [reflexivity |]. split; [reflexivity |]. by constructor.
Qed.

(** C13. The receive interrupt and the program.  In any run of the driver under the
    program, of which at most 36 pool buffers are kept at a time by what it still
    sends or has queued, the interrupt handler ends, and what it has done to the
    program is what [receive_all] does with packets that carry, in order and
    unchanged, all frames the EMAC took from the wire and the program had not seen
    yet; they come from the physical interface, and a consistent program stays
    consistent.  (Nothing in the program enforces the bound: each ARP or echo reply
    holds the buffers of its request till the transmit interrupt, and beyond the
    bound [hdkif_rx_last_buffer] is where the handler goes.) *)
Theorem wire_reaches_program t (w : W) dma (Hrun : rx_run t w) (Hdma : script_ok dma) (Hquiet : dma = [] -> receiving t = false) :
  exists n t' w' fs, (forall fuel, (n <= fuel)%nat -> hdkif_rx_inthandler fuel dma t w = Some (t', w'))
  /\ pg_sys (prog w') = receive_all fs (pg_sys (prog w)) /\ rx_wire t' = map handed (pg_log (prog w)) ++ map handed fs
  /\ Forall (fun f => snd f = HdkNetIF 0) fs /\ (sys_ok (pg_sys (prog w)) -> sys_ok (pg_sys (prog w'))).
Proof.
  destruct (rx_run_ok t w Hrun) as [q Hp]. destruct (run_drains dma t w q Hdma Hp Hquiet) as (n & t' & w' & Hn & [_ _ _ Hfr _]).
  pose proof (rx_loop_related receives input_receives n _ _ _ _ _ _ (Hn n ltac:(lia))) as (fs & Es & El & Hd).
  exists n, t', w', fs. split; [done |]. split; [done |]. split; [by rewrite <- map_app, <- El, <- prog_frames |]. split; [done |].
  rewrite Es. generalize (pg_sys (prog w)). unfold receive_all. clear. induction fs as [| f fs IH]; intros y Hy; [done |]. by apply IH, Input.ethernet_input_ok.
Qed.
End Receiving.

(** ** A program with its buffers *)

(** It keeps the packets that [rp_keeps] tells, by their number, while there are not
    too many, and frees the others. *)
Record replier := mk_replier {
  rp_prog : program;
  rp_keeps : nat -> bool;
  rp_kept : list (pptr * nat)
}.
Definition kept_bufs (l : list (pptr * nat)) : nat := sum_list (snd <$> l).
Definition segments (v : pbuf) : nat := S (length (pb_next v)).
#[export] Instance replier_upper : Upper replier := {|
  EmacRx.ethernet_input q s w :=
    v ← packet_at s q;
    if rp_keeps w (length (pg_log (rp_prog w))) && bool_decide (kept_bufs (rp_kept w) + segments v <= MAX_KEPT)%nat
    then Some (s, mk_replier (hand v (rp_prog w)) (rp_keeps w) ((q, segments v) :: rp_kept w))
    else '(_, s') ← pbuf_free (Some q) s; Some (s', mk_replier (hand v (rp_prog w)) (rp_keeps w) (rp_kept w));
  up_held w := list_to_set_disj (fst <$> rp_kept w); up_kept w := Nat.min MAX_KEPT (kept_bufs (rp_kept w)); up_frames w := map handed (pg_log (rp_prog w))
|}.
#[export] Instance replier_program : Program replier.
Proof.
  refine {| prog := rp_prog |}; [done |]. intros q s w s' w'. cbn [EmacRx.ethernet_input replier_upper]. destruct (packet_at s q) as [v |]; [| done].
  cbn [mbind option_bind]. intros E. exists v. split; [done |]. revert E. destruct (_ && _); [by intros [= _ <-] |].
  destruct (pbuf_free _ _) as [[? ?] |]; [| done]. by intros [= _ <-].
Defined.

Lemma pbuf_at_clen s q v ps : pbuf_at s q v -> chain (nexts s) (Some q) ps -> segments v = length ps.
Proof.
  intros (b & ps' & Hb & Hc & _ & ->) Hc'. assert (ps = q :: ps') as -> by (by eapply chain_det). unfold segments. cbn [pb_next length]. f_equal.
  assert (Hm : forall p, p ∈ ps' -> is_Some (ps_mem s !! p)).
  { intros p Hp. destruct Hc as (_ & n & _ & Hc). revert n Hc. clear -Hp. induction ps' as [| x ps' IH]; [by apply not_elem_of_nil in Hp |].
    intros n (-> & m & Hm & Hc). apply elem_of_cons in Hp as [-> | Hp]; [| by eapply IH].
    unfold nexts in Hm. rewrite lookup_fmap in Hm. destruct (ps_mem s !! x); [by eexists | done]. }
  clear -Hm. induction ps' as [| x ps' IH]; [done |]. destruct (Hm x ltac:(left)) as [c Hc]. rewrite (segs_cons _ _ _ _ Hc). cbn [length]. f_equal.
  apply IH. intros p Hp. apply Hm. by right.
Qed.

#[export] Instance replier_ok : UpperOk replier.
Proof.
  split; [| intros w; apply Nat.le_min_l]. intros P own q v s w Hs Hap _ Hv _. pose proof (packet_at_ok _ _ _ Hv) as Ev.
  cbn [EmacRx.ethernet_input up_held up_kept up_frames replier_upper] in *. rewrite Ev. cbn [mbind option_bind].
  destruct (rp_keeps w _ && bool_decide _) eqn:Ek.
  - apply andb_true_iff in Ek as [_ Hk%bool_decide_eq_true]. eexists s, _. split; [done |]. cbn [rp_kept rp_prog fmap list_fmap fst list_to_set_disj].
    split; [done |]. split; [done |]. split; [cbn [hand pg_log]; by rewrite map_app |].
    intros ps Hc _. change (kept_bufs ((q, segments v) :: rp_kept w)) with (segments v + kept_bufs (rp_kept w))%nat. rewrite (pbuf_at_clen _ _ _ _ Hv Hc) in *. lia.
  - destruct (taken_ok P (own ⊎ list_to_set_disj (fst <$> rp_kept w)) q v s) as (n & s' & _ & Ef & Hs' & Hsame & Hsp); [| | done |].
    + by replace (own ⊎ list_to_set_disj (fst <$> rp_kept w) ⊎ {[+ q +]}) with (own ⊎ ({[+ q +]} ⊎ list_to_set_disj (fst <$> rp_kept w))) by multiset_solver.
    + destruct Hap as [H1 H2]. split; [| done]. intros p Hp Hin. apply (H1 p Hp). multiset_solver.
    + rewrite Ef. cbn [mbind option_bind]. eexists s', _. split; [done |]. cbn [rp_kept rp_prog]. split; [done |]. split; [done |].
      split; [cbn [hand pg_log]; by rewrite map_app |]. intros ps Hc Hb. specialize (Hsp ps Hc Hb). lia.
Qed.

(** ** A datagram *)

(** The first packet is kept. *)
Definition ex_program : replier := mk_replier (mk_program ex_sys (fun _ => 0) []) (fun k => bool_decide (k = 0%nat)) [].
Definition ex_datagram : list (rxch -> rxch) := [emac_receive (p_bytes ex_udp_frame); emac_finish].

Lemma ex_program_run : rx_run ex_rx ex_program.
Proof. apply (rx_starts ex_rx_ram ex_rx_store); [done | exact ex_rx_store_ok | vm_compute; lia | done | exact ex_rx_init]. Qed.
Lemma ex_datagram_ok : script_ok ex_datagram.
Proof. split; [repeat constructor; apply emac_receive_rx || apply emac_finish_rx |]. intros f [= <-]. apply emac_finish_settled. Qed.

(** The interrupt and the next poll of the socket: the datagram is there. *)
Example wire_datagram : (r ← hdkif_rx_inthandler 9 ex_datagram ex_rx ex_program;
    m ← fst (udp_source_poll_rx 0 (y_us (pg_sys (rp_prog (snd r))))); Some (rm_src_ip m, rm_src_port m, take 3 (rm_data m), length (rp_kept (snd r))))
  = Some (0x0a000001, 7777, [104; 105; 33], 1%nat).
Proof. vm_compute. reflexivity. Qed.

Lemma wire_reaches_program_witness : exists n t' w' fs,
  (forall fuel, (n <= fuel)%nat -> hdkif_rx_inthandler fuel ex_datagram ex_rx ex_program = Some (t', w'))
  /\ pg_sys (prog w') = receive_all fs ex_sys /\ rx_wire t' = map handed fs.
Proof.
  destruct (wire_reaches_program ex_rx ex_program ex_datagram ex_program_run ex_datagram_ok) as (n & t' & w' & fs & Hn & Es & Ew & _); [done |].
  exists n, t', w', fs. done.
Defined.
