(* ===== verification/Text.v ===== *)
(** * Text conversions of the C library (stdio.h, stdlib.h, string.h)

    What the command channel uses of [sscanf], [atoi], [snprintf] and the string
    functions.  A C string is a [string] without its terminator.  A number with
    more digits than an [int] holds has no defined conversion in C; the result is
    left to the instance of [IntConv]. *)

From S2P Require Import Prelude NetTypes IpAddr.

(** The C library's conversion of a number read to [int]. *)
Class IntConv := {
  int_conv : Z -> Z;
  int_conv_ok : forall z, -2147483648 <= z < 2147483648 -> int_conv z = z
}.

(** A conversion that keeps every number, for the instances. *)
Definition int_conv_keep : IntConv := {| int_conv := fun z => z; int_conv_ok := fun _ _ => eq_refl |}.

Definition code (a : Ascii.ascii) : Z := Z.of_nat (Ascii.nat_of_ascii a).

(** ** Scanning *)

Fixpoint skip_ws (s : string) : string :=
  match s with
  | String a t => if isspace (code a) then skip_ws t else s
  | EmptyString => s
  end.

(** A run of decimal digits and what follows it. *)
Fixpoint scan_digits (s : string) (val : Z) : Z * string :=
  match s with
  | String a t => if isdigit (code a) then scan_digits t (val * 10 + (code a - 48)) else (val, s)
  | EmptyString => (val, s)
  end.

Section Scan.
Context `{IntConv}.

(** The conversion [%d]. *)
Definition scan_int (s : string) : option (Z * string) :=
  let s := skip_ws s in
  let neg := chr s =? 45 in
  let s := if neg || (chr s =? 43) then adv s else s in
  if isdigit (chr s) then
    let '(v, s) := scan_digits s 0 in
    Some (int_conv (if neg then - v else v), s)
  else None.

Definition atoi (s : string) : Z :=
  match scan_int s with Some (v, _) => v | None => 0 end.
End Scan.

(** The conversion [%<n>s]. *)
Fixpoint take_word (n : nat) (s : string) : string * string :=
  match n, s with
  | S n, String a t =>
      if isspace (code a) then (EmptyString, s)
      else let '(w, r) := take_word n t in (String a w, r)
  | _, _ => (EmptyString, s)
  end.
Definition scan_word (n : nat) (s : string) : option (string * string) :=
  match take_word n (skip_ws s) with
  | (EmptyString, _) => None
  | r => Some r
  end.

(** [strncmp(line, p, strlen(p)) == 0], and the rest of the line. *)
Fixpoint after_prefix (p line : string) : option string :=
  match p, line with
  | EmptyString, _ => Some line
  | String a p, String b line => if Ascii.eqb a b then after_prefix p line else None
  | String _ _, EmptyString => None
  end.

(** The C string at the start of a buffer. *)
Fixpoint c_str (s : string) : string :=
  match s with
  | String a t => if code a =? 0 then EmptyString else String a (c_str t)
  | EmptyString => EmptyString
  end.

(** The bytes of a string. *)
Fixpoint bytes (s : string) : list Z :=
  match s with String a t => code a :: bytes t | EmptyString => [] end.

(** ** Printing *)

(** [%d] and [%u] for values from 0 to 4294967295. *)
Definition dec (n : Z) : string := chars (reverse (ntoa_inv 10 n)).

(** [%02x] for a byte. *)
Definition hex_digit (d : Z) : Z := if d <? 10 then 48 + d else 87 + d.
Definition hex2 (b : Z) : string := chars [hex_digit (b / 16); hex_digit (b mod 16)].

Definition CRLF : string := chars [13; 10].

(** ** Reading back what was printed *)

(** Text [%s] reads as one word. *)
Fixpoint no_space (s : string) : bool :=
  match s with String a t => negb (isspace (code a)) && no_space t | EmptyString => true end.
Definition is_word (s : string) : Prop := s <> EmptyString /\ no_space s = true.

Lemma code_range a : 0 <= code a < 256.
Proof. unfold code. pose proof (Ascii.nat_ascii_bounded a). lia. Qed.

Lemma code_chars c t : 0 <= c < 256 -> chars (c :: t) = String (Ascii.ascii_of_nat (Z.to_nat c)) (chars t).
Proof. done. Qed.

Lemma code_of c : 0 <= c < 256 -> code (Ascii.ascii_of_nat (Z.to_nat c)) = c.
Proof. intros Hc. unfold code. rewrite Ascii.nat_ascii_embedding by lia. lia. Qed.

Lemma str_app_assoc (a b c : string) : ((a +:+ b) +:+ c = a +:+ (b +:+ c))%string.
Proof. induction a as [| x a IH]; [done |]. exact (f_equal (String x) IH). Qed.

Lemma str_app_nil (a : string) : (a +:+ EmptyString)%string = a.
Proof. induction a as [| x a IH]; [done |]. exact (f_equal (String x) IH). Qed.

Lemma skip_ws_space s : skip_ws (" " +:+ s)%string = skip_ws s.
Proof. reflexivity. Qed.

Lemma skip_ws_word a t : isspace (code a) = false -> skip_ws (String a t) = String a t.
Proof. intros H. cbn [skip_ws]. by rewrite H. Qed.

(** The end of a token: the string ends or a space follows. *)
Definition token_end (r : string) : Prop := r = EmptyString \/ exists t, r = (" " +:+ t)%string.

Lemma take_word_app w r : forall n, no_space w = true -> (String.length w <= n)%nat -> token_end r ->
  take_word n (w +:+ r)%string = (w, r).
Proof.
  induction w as [| a w IH]; intros n Hw Hn Hr.
  - destruct Hr as [-> | [t ->]]; destruct n; done.
  - cbn [no_space String.length] in Hw, Hn. apply andb_true_iff in Hw as [Ha%negb_true_iff Hw].
    destruct n as [| n]; [lia |]. change (String a w +:+ r)%string with (String a (w +:+ r)%string).
    cbn [take_word]. rewrite Ha. by rewrite IH by (done || lia).
Qed.

Lemma scan_word_app n w r : is_word w -> (String.length w <= n)%nat -> token_end r ->
  scan_word n (w +:+ r)%string = Some (w, r).
Proof.
  intros [Hne Hw] Hn Hr. unfold scan_word. destruct w as [| a w]; [done |].
  pose proof Hw as Hw'. cbn [no_space] in Hw'. apply andb_true_iff in Hw' as [Ha%negb_true_iff _].
  change (String a w +:+ r)%string with (String a (w +:+ r)%string). rewrite skip_ws_word by done.
  change (String a (w +:+ r)%string) with (String a w +:+ r)%string. by rewrite take_word_app.
Qed.

Lemma scan_word_space n s : scan_word n (" " +:+ s)%string = scan_word n s.
Proof. reflexivity. Qed.
Lemma scan_int_space `{IntConv} s : scan_int (" " +:+ s)%string = scan_int s.
Proof. reflexivity. Qed.

Lemma scan_digits_inv f n rest v : 0 <= n < 10 ^ Z.of_nat f ->
  exists k, scan_digits (chars (reverse (ntoa_inv f n)) +:+ rest)%string v
            = scan_digits rest (v * k + n).
Proof.
  revert n rest; induction f as [| f IH]; intros n rest Hn.
  { change (10 ^ Z.of_nat 0) with 1 in Hn. exists 1. cbn. f_equal. lia. }
  cbn [ntoa_inv]. rewrite reverse_cons, chars_app.
  assert (Hd : 0 <= n mod 10 < 10) by (apply Z.mod_pos_bound; lia).
  assert (Hstep : forall w, scan_digits (chars [(48 + n mod 10)%Z] +:+ rest)%string w
                            = scan_digits rest (w * 10 + n mod 10)).
  { intros w. change (chars [(48 + n mod 10)%Z] +:+ rest)%string
      with (String (Ascii.ascii_of_nat (Z.to_nat (48 + n mod 10))) rest).
    cbn [scan_digits]. rewrite code_of by lia. unfold isdigit, in_range.
    rewrite (proj2 (Z.leb_le 48 _)), (proj2 (Z.leb_le _ 57)) by lia. cbn [andb]. f_equal. lia. }
  destruct (Z.eqb_spec (n / 10) 0) as [H0 | H0].
  - exists 10. cbn [reverse rev_append app]. change (chars (reverse []) +:+ chars [(48 + n mod 10)%Z])%string
      with (chars [(48 + n mod 10)%Z]). rewrite Hstep. f_equal. Z.div_mod_to_equations; lia.
  - destruct (IH (n / 10) (chars [(48 + n mod 10)%Z] +:+ rest)%string) as (k & E).
    { rewrite Nat2Z.inj_succ, Z.pow_succ_r in Hn by lia. Z.div_mod_to_equations. lia. }
    exists (k * 10). rewrite str_app_assoc, E, Hstep. f_equal.
    pose proof (Z.div_mod n 10 ltac:(lia)). lia.
Qed.

(** Printed numbers and addresses consist of digits and dots. *)
Definition digit_or_dot (c : Z) : Prop := 48 <= c <= 57 \/ c = 46.

Lemma no_space_chars l r : Forall digit_or_dot l -> no_space r = true -> no_space (chars l +:+ r)%string = true.
Proof.
  intros Hl Hr. induction Hl as [| c l Hc Hl IH]; [done |].
  change (chars (c :: l) +:+ r)%string with (String (Ascii.ascii_of_nat (Z.to_nat c)) (chars l +:+ r)%string).
  cbn [no_space]. rewrite IH, andb_true_r. unfold digit_or_dot in Hc. rewrite code_of by lia.
  unfold isspace. rewrite !(proj2 (Z.eqb_neq _ _)) by lia. done.
Qed.

Lemma ntoa_inv_digits f n : 0 <= n -> Forall (fun c => 48 <= c <= 57) (ntoa_inv f n).
Proof.
  revert n; induction f as [| f IH]; intros n Hn; cbn [ntoa_inv]; [apply List.Forall_nil |].
  apply List.Forall_cons; [Z.div_mod_to_equations; lia |].
  destruct (n / 10 =? 0); [apply List.Forall_nil |]. apply IH. Z.div_mod_to_equations; lia.
Qed.

Lemma ntoa_rev_digits f n : 0 <= n -> Forall digit_or_dot (reverse (ntoa_inv f n)).
Proof.
  intros Hn. apply Forall_reverse. eapply Forall_impl; [by apply ntoa_inv_digits |]. by left.
Qed.

Lemma dec_head n : 0 <= n -> exists a t, dec n = String a t /\ isdigit (code a) = true.
Proof.
  intros Hn. unfold dec. pose proof (ntoa_inv_digits 10 n Hn) as Hd. apply Forall_reverse in Hd.
  assert (Hne : reverse (ntoa_inv 10 n) <> []).
  { intros E. apply (f_equal (@length _)) in E. rewrite length_reverse in E. done. }
  destruct (reverse (ntoa_inv 10 n)) as [| c l]; [done |].
  apply Forall_cons in Hd as [Hc _]. eexists _, _. split; [reflexivity |].
  rewrite code_of by lia. unfold isdigit, in_range.
  by rewrite (proj2 (Z.leb_le 48 _)), (proj2 (Z.leb_le _ 57)) by lia.
Qed.

Lemma isdigit_range c : isdigit c = true -> 48 <= c <= 57.
Proof. unfold isdigit, in_range. intros H. zb. lia. Qed.

Lemma scan_digits_end r v : token_end r -> scan_digits r v = (v, r).
Proof. by intros [-> | [t ->]]. Qed.

(** [%d] reads back a printed number. *)
Lemma scan_int_dec `{IntConv} n r : 0 <= n < 2147483648 -> token_end r ->
  scan_int (dec n +:+ r)%string = Some (n, r).
Proof.
  intros Hn Hr. destruct (dec_head n) as (a & t & E & Ha); [lia |].
  pose proof (isdigit_range _ Ha) as Hra.
  destruct (scan_digits_inv 10 n r 0) as (k & Es); [cbn; lia |]. fold (dec n) in Es.
  unfold scan_int. rewrite E in *.
  change (String a t +:+ r)%string with (String a (t +:+ r)%string) in *.
  rewrite skip_ws_word by (unfold isspace; rewrite !(proj2 (Z.eqb_neq _ _)) by lia; done).
  change (chr (String a (t +:+ r)%string)) with (code a).
  rewrite (proj2 (Z.eqb_neq (code a) 45)), (proj2 (Z.eqb_neq (code a) 43)) by lia. cbn [orb].
  change (chr (String a (t +:+ r)%string)) with (code a). rewrite Ha, Es, scan_digits_end by done.
  rewrite int_conv_ok by lia. done.
Qed.

Lemma dec_word n : 0 <= n -> is_word (dec n).
Proof.
  intros Hn. split.
  - destruct (dec_head n Hn) as (a & t & -> & _). done.
  - pose proof (no_space_chars (reverse (ntoa_inv 10 n)) EmptyString) as Hs.
    unfold dec. rewrite <- (str_app_nil (chars _)). apply Hs; [by apply ntoa_rev_digits | done].
Qed.

(** [%15s] and [ipaddr_aton] read back a printed address. *)
Lemma ntoa_word a : is_u32 a ->
  is_word (ipaddr_ntoa a) /\ (String.length (ipaddr_ntoa a) <= 15)%nat /\ ipaddr_aton (ipaddr_ntoa a) = Some a.
Proof.
  intros Ha. destruct (ntoa_aton a Ha) as (s & Es & Hl & Hp). unfold ipaddr_ntoa. rewrite Es.
  change (default EmptyString (Some s)) with s.
  split; [| done]. split.
  - intros ->. by vm_compute in Hp.
  - rewrite ntoa_r_16 in Es. injection Es as <-. pose proof (octet_range a) as (H1 & H2 & H3 & H4).
    unfold octet_text.
    assert (Hdot : forall r, no_space r = true -> no_space ("." +:+ r)%string = true) by (intros r Hr; exact Hr).
    assert (Hoct : forall o, 0 <= o < 256 -> Forall digit_or_dot (reverse (ntoa_inv 3 o)))
      by (intros o Ho; apply ntoa_rev_digits; lia).
    do 3 (apply no_space_chars; [by apply Hoct |]; apply Hdot).
    rewrite <- (str_app_nil (chars _)). by apply no_space_chars; [apply Hoct |].
Qed.
