(* ===== verification/LineEdit.v ===== *)
(** * The line editor of the terminal ([fetch_input], src/terminal_interface.c)

    The editor keeps a buffer, the number of characters in it and the cursor, and
    echoes every change.  The specification is a pair of texts, left and right
    of the cursor, and a terminal line that interprets the echo.  Input is the
    list of the bytes the program waits for; bytes that arrive before the first
    of them are discarded and are not part of it. *)

From S2P Require Import Prelude.

Definition KEY_CR : Z := 13.
Definition KEY_LF : Z := 10.
Definition KEY_BS : Z := 8.
Definition KEY_DEL : Z := 0x7f.
Definition KEY_ESC : Z := 0x1b.

(** The buffer and the variables [len] and [pos]. *)
Record edit := mk_edit { ed_buf : list Z; ed_len : nat; ed_pos : nat }.

(** The loop [for (; i < n; i++) buf[i] = buf[i + 1]]. *)
Fixpoint shift_left (fuel i n : nat) (buf : list Z) : list Z :=
  match fuel with
  | O => buf
  | S k => if (i <? n)%nat then shift_left k (S i) n (<[i := nth (S i) buf 0]> buf) else buf
  end.

(** The loop [for (; i > pos; i--) buf[i] = buf[i - 1]]. *)
Fixpoint shift_right (i pos : nat) (buf : list Z) : list Z :=
  match i with
  | O => buf
  | S k => if (pos <? i)%nat then shift_right k pos (<[i := nth k buf 0]> buf) else buf
  end.

(** [&buf[pos]], [len - pos] bytes of it. *)
Definition tail_of (st : edit) : list Z := take (ed_len st - ed_pos st) (drop (ed_pos st) (ed_buf st)).
(** Rewriting the tail and going back; each element of an echo is one call. *)
Definition redraw (st : edit) : list (list Z) :=
  [[KEY_ESC; 91; 75]] ++ (if (ed_pos st <? ed_len st)%nat then [tail_of st] else [])
  ++ replicate (ed_len st - ed_pos st) [KEY_BS].

Definition backspace (st : edit) : edit * list (list Z) :=
  if (0 <? ed_pos st)%nat then
    let buf := shift_left (ed_len st) (ed_pos st - 1) (ed_len st - 1) (ed_buf st) in
    let st := mk_edit buf (ed_len st - 1) (ed_pos st - 1) in
    (st, [KEY_BS] :: redraw st)
  else (st, []).

Definition delete_at (st : edit) : edit * list (list Z) :=
  if (ed_pos st <? ed_len st)%nat then
    let buf := shift_left (ed_len st) (ed_pos st) (ed_len st - 1) (ed_buf st) in
    let st := mk_edit buf (ed_len st - 1) (ed_pos st) in
    (st, redraw st)
  else (st, []).

Definition insert_at (max_len : nat) (ch : Z) (st : edit) : edit * list (list Z) :=
  if (ed_len st <? max_len - 1)%nat then
    let buf := <[ed_pos st := ch]> (shift_right (ed_len st) (ed_pos st) (ed_buf st)) in
    let st := mk_edit buf (S (ed_len st)) (ed_pos st) in
    let tail := tail_of st in
    let st := mk_edit buf (ed_len st) (S (ed_pos st)) in
    (st, tail :: replicate (ed_len st - ed_pos st) [KEY_BS])
  else (st, []).

(** An arrow key, after [ESC \[]. *)
Definition arrow (seq : Z) (st : edit) : edit * list (list Z) :=
  if (seq =? 68) && (0 <? ed_pos st)%nat
  then (mk_edit (ed_buf st) (ed_len st) (ed_pos st - 1), [[KEY_BS]])
  else if (seq =? 67) && (ed_pos st <? ed_len st)%nat
  then (mk_edit (ed_buf st) (ed_len st) (S (ed_pos st)), [[KEY_ESC; 91; 67]])
  else (st, []).

(** The loop of [fetch_input]: the editor at the end, the echo and the bytes
    left; [None] when the input ends before a line does. *)
Fixpoint fetch_loop (max_len : nat) (st : edit) (inp : list Z) : option (edit * list (list Z) * list Z) :=
  let emit (so : edit * list (list Z)) inp :=
    '(st, echo, rest) ← fetch_loop max_len (fst so) inp; Some (st, snd so ++ echo, rest) in
  match inp with
  | [] => None
  | ch :: inp =>
      if (ch =? KEY_CR) || (ch =? KEY_LF) then Some (st, [[KEY_CR]; [KEY_LF]], inp)
      else if (ch =? KEY_DEL) || (ch =? KEY_BS) then emit (backspace st) inp
      else if ch =? KEY_ESC then
        match inp with
        | [] => None
        | seq :: inp =>
            if seq =? 91 then
              match inp with
              | [] => None
              | seq :: inp =>
                  if seq =? 51 then
                    match inp with [] => None | _ :: inp => emit (delete_at st) inp end
                  else if (48 <=? seq) && (seq <=? 57) then
                    match inp with [] => None | _ :: inp => emit (st, []) inp end
                  else emit (arrow seq st) inp
              end
            else emit (st, []) inp
        end
      else emit (insert_at max_len ch st) inp
  end.

(** [fetch_input]: the buffer with the terminating NUL. *)
Definition fetch_input (max_len : nat) (buf : list Z) (inp : list Z)
  : option (list Z * list (list Z) * list Z) :=
  '(st, echo, rest) ← fetch_loop max_len (mk_edit buf 0 0) inp;
  Some (<[ed_len st := 0]> (ed_buf st), echo, rest).

(** ** Specification: a text with a cursor *)

Inductive key : Set := K_enter | K_backspace | K_delete | K_left | K_right | K_none | K_char (c : Z).

(** The next key in the byte stream. *)
Definition decode (inp : list Z) : option (key * list Z) :=
  match inp with
  | [] => None
  | c :: inp =>
      if (c =? 13) || (c =? 10) then Some (K_enter, inp)
      else if (c =? 127) || (c =? 8) then Some (K_backspace, inp)
      else if c =? 27 then
        match inp with
        | [] => None
        | c :: inp =>
            if negb (c =? 91) then Some (K_none, inp)
            else
              match inp with
              | [] => None
              | c :: inp =>
                  if (48 <=? c) && (c <=? 57) then
                    match inp with [] => None | _ :: inp => Some (if c =? 51 then K_delete else K_none, inp) end
                  else Some (if c =? 68 then K_left else if c =? 67 then K_right else K_none, inp)
              end
        end
      else Some (K_char c, inp)
  end.

(** The texts left and right of the cursor. *)
Definition zip : Type := list Z * list Z.
Definition zip_step (cap : nat) (k : key) (z : zip) : zip :=
  let '(l, r) := z in
  match k with
  | K_backspace => (take (length l - 1) l, r)
  | K_delete => (l, tail r)
  | K_left => match last l with Some c => (take (length l - 1) l, c :: r) | None => (l, r) end
  | K_right => match r with c :: r => (l ++ [c], r) | [] => (l, []) end
  | K_char c => if (length (l ++ r) <? cap)%nat then (l ++ [c], r) else (l, r)
  | K_enter | K_none => (l, r)
  end.
Fixpoint zip_run (fuel cap : nat) (z : zip) (inp : list Z) : option (zip * list Z) :=
  match fuel with
  | O => None
  | S f =>
      match decode inp with
      | None => None
      | Some (K_enter, rest) => Some (z, rest)
      | Some (k, rest) => zip_run f cap (zip_step cap k z) rest
      end
  end.

(** A terminal line: its text, the cursor and the state of an escape sequence.
    Every byte without a meaning of its own shows one character. *)
Record screen := mk_screen { t_text : list Z; t_col : nat; t_esc : nat }.
Definition show (t : screen) (b : Z) : screen :=
  match t_esc t with
  | O =>
      if b =? 27 then mk_screen (t_text t) (t_col t) 1
      else if b =? 8 then mk_screen (t_text t) (t_col t - 1) 0
      else if (b =? 13) || (b =? 10) then t
      else mk_screen (take (t_col t) (t_text t) ++ [b] ++ drop (S (t_col t)) (t_text t)) (S (t_col t)) 0
  | 1%nat => mk_screen (t_text t) (t_col t) (if b =? 91 then 2 else 0)
  | _ =>
      if b =? 75 then mk_screen (take (t_col t) (t_text t)) (t_col t) 0
      else if b =? 67 then mk_screen (t_text t) (S (t_col t)) 0
      else mk_screen (t_text t) (t_col t) 0
  end.
Definition show_all (echo : list (list Z)) (t : screen) : screen := fold_left show (mjoin echo) t.

(** What the editor's state stands for. *)
Definition plain (c : Z) : Prop := c <> 27 /\ c <> 8 /\ c <> 13 /\ c <> 10.
Record rep (max_len : nat) (st : edit) (l r : list Z) : Prop := {
  rp_buf : exists junk, ed_buf st = l ++ r ++ junk;
  rp_len : ed_len st = length (l ++ r);
  rp_pos : ed_pos st = length l;
  rp_size : length (ed_buf st) = max_len;
  rp_room : (length (l ++ r) < max_len)%nat;
  rp_plain : Forall plain (l ++ r)
}.

(** ** The loops of the editor *)

Lemma insert_mid {A} (l r : list A) x y : <[length l := y]> (l ++ x :: r) = l ++ y :: r.
Proof. by rewrite insert_app_r_alt, Nat.sub_diag by lia. Qed.

Lemma nth_mid (l r : list Z) x d : nth (length l) (l ++ x :: r) d = x.
Proof. by rewrite app_nth2, Nat.sub_diag by lia. Qed.

(** Shifting left removes the character at [i] and repeats the last one. *)
Lemma shift_left_spec : forall r fuel L c junk, (length r < fuel)%nat ->
  exists z, shift_left fuel (length L) (length L + length r) (L ++ c :: r ++ junk) = L ++ r ++ z :: junk.
Proof.
  induction r as [| x r IH]; intros [| fuel] L c junk Hf; cbn [length] in Hf; try lia; cbn [shift_left].
  - rewrite (proj2 (Nat.ltb_ge _ _)) by (cbn; lia). by exists c.
  - rewrite (proj2 (Nat.ltb_lt _ _)) by (cbn; lia). cbn [app].
    assert (En : nth (S (length L)) (L ++ c :: x :: r ++ junk) 0 = x).
    { rewrite app_nth2 by lia. replace (S (length L) - length L)%nat with 1%nat by lia. done. }
    rewrite En, insert_mid. destruct (IH fuel (L ++ [x]) x junk ltac:(lia)) as [z E].
    exists z. rewrite length_app in E. cbn [length] in *.
    replace (S (length L)) with (length L + 1)%nat by lia.
    replace (length L + S (length r))%nat with (length L + 1 + length r)%nat by lia.
    rewrite <- !app_assoc in E. exact E.
Qed.

(** Shifting right frees the place at the cursor. *)
Lemma shift_right_spec : forall r L z junk,
  exists y, shift_right (length (L ++ r)) (length L) (L ++ r ++ z :: junk) = L ++ y :: r ++ junk.
Proof.
  induction r as [| x r IH] using rev_ind; intros L z junk.
  - exists z. rewrite app_nil_r. cbn [app]. destruct (length L) as [| k] eqn:E; [done |]. cbn [shift_right].
    by rewrite Nat.ltb_irrefl.
  - assert (El : length (L ++ r ++ [x]) = S (length (L ++ r))) by (rewrite !length_app; cbn [length]; lia).
    rewrite El. cbn [shift_right]. rewrite (proj2 (Nat.ltb_lt _ _)) by (rewrite length_app; lia).
    assert (E1 : L ++ (r ++ [x]) ++ z :: junk = (L ++ r) ++ x :: z :: junk) by (by rewrite <- !app_assoc).
    rewrite E1, nth_mid.
    assert (E2 : <[S (length (L ++ r)) := x]> ((L ++ r) ++ x :: z :: junk) = L ++ r ++ x :: x :: junk).
    { change ((L ++ r) ++ x :: z :: junk) with ((L ++ r) ++ [x] ++ z :: junk). rewrite (app_assoc (L ++ r)).
      replace (S (length (L ++ r))) with (length ((L ++ r) ++ [x])) by (rewrite length_app; cbn [length]; lia).
      by rewrite insert_mid, <- !app_assoc. }
    rewrite E2. destruct (IH L x (x :: junk)) as [y E]. exists y. rewrite E. by rewrite <- !app_assoc.
Qed.

(** ** The echo *)

Lemma show_app e1 e2 t : show_all (e1 ++ e2) t = show_all e2 (show_all e1 t).
Proof.
  unfold show_all. rewrite <- fold_left_app. f_equal.
  induction e1 as [| e e1 IH]; [done |]. change (e ++ mjoin (e1 ++ e2) = (e ++ mjoin e1) ++ mjoin e2).
  by rewrite IH, app_assoc.
Qed.

Lemma show_text : forall w a b, Forall plain w ->
  fold_left show w (mk_screen (a ++ b) (length a) 0)
  = mk_screen (a ++ w ++ drop (length w) b) (length a + length w) 0.
Proof.
  induction w as [| c w IH]; intros a b Hw; [cbn; by rewrite drop_0, Nat.add_0_r |].
  apply Forall_cons in Hw as [(H1 & H2 & H3 & H4) Hw]. cbn [fold_left].
  assert (E : show (mk_screen (a ++ b) (length a) 0) c = mk_screen ((a ++ [c]) ++ drop 1 b) (length (a ++ [c])) 0).
  { unfold show. cbn [t_esc t_text t_col]. rewrite !(proj2 (Z.eqb_neq _ _)) by done. cbn [orb].
    rewrite take_app_length, drop_app_ge by lia. replace (S (length a) - length a)%nat with 1%nat by lia.
    rewrite length_app. cbn [length]. f_equal; [by rewrite <- app_assoc | lia]. }
  rewrite E, IH by done. rewrite length_app, drop_drop, <- app_assoc. cbn [length app]. f_equal. lia.
Qed.

Lemma show_back n t : t_esc t = O -> show_all (replicate n [KEY_BS]) t = mk_screen (t_text t) (t_col t - n) 0.
Proof.
  revert t; induction n as [| n IH]; intros [tx c e] He; cbn in He; subst e; [cbn; by rewrite Nat.sub_0_r |].
  change (replicate (S n) [KEY_BS]) with ([[KEY_BS]] ++ replicate n [KEY_BS]).
  rewrite show_app, IH by done. cbn. f_equal. lia.
Qed.

(** Redrawing the tail shows it and leaves the cursor in front of it. *)
Lemma show_redraw max_len st l r t : rep max_len st l r -> take (length l) (t_text t) = l ->
  t_col t = length l -> t_esc t = O -> show_all (redraw st) t = mk_screen (l ++ r) (length l) 0.
Proof.
  intros [[junk Eb] El Ep _ _ Hp] Ht Hc He. destruct t as [tx c e]. cbn in Ht, Hc, He. subst c e.
  unfold redraw. rewrite show_app. change (show_all [[KEY_ESC; 91; 75]] (mk_screen tx (length l) 0))
    with (mk_screen (take (length l) tx) (length l) 0). rewrite Ht, show_app.
  assert (Etail : tail_of st = r).
  { unfold tail_of. rewrite Eb, El, Ep, drop_app_length, length_app.
    replace (length l + length r - length l)%nat with (length r) by lia. by rewrite take_app_length. }
  assert (En : (ed_len st - ed_pos st)%nat = length r) by (rewrite El, Ep, length_app; lia).
  assert (Es : show_all (if (ed_pos st <? ed_len st)%nat then [tail_of st] else []) (mk_screen l (length l) 0)
               = mk_screen (l ++ r) (length l + length r) 0).
  { rewrite Etail. destruct (Nat.ltb_spec (ed_pos st) (ed_len st)).
    - unfold show_all. cbn [mjoin list_join]. rewrite app_nil_r. rewrite <- (app_nil_r l) at 1.
      apply Forall_app in Hp as [_ Hp]. rewrite show_text by (by auto). by rewrite drop_nil, app_nil_r.
    - assert (r = []) as -> by (apply length_zero_iff_nil; lia). cbn. by rewrite app_nil_r, Nat.add_0_r. }
  rewrite Es, En, show_back by done. cbn. f_equal. lia.
Qed.

(** ** The operations *)

(** The new state stands for [z] and its echo turns the line of [l], [r] into
    that of [z]. *)
Definition op_ok (max_len : nat) (l r : list Z) (so : edit * list (list Z)) (z : zip) : Prop :=
  rep max_len (fst so) (fst z) (snd z)
  /\ show_all (snd so) (mk_screen (l ++ r) (length l) 0) = mk_screen (fst z ++ snd z) (length (fst z)) 0.

Lemma op_same max_len st l r : rep max_len st l r -> op_ok max_len l r (st, []) (l, r).
Proof. done. Qed.

Lemma snoc_cases {A} (l : list A) : l = [] \/ exists l0 x, l = l0 ++ [x].
Proof. induction l as [| x l _] using rev_ind; [by left | right; by exists l, x]. Qed.

Lemma take_snoc {A} (l : list A) x : take (length (l ++ [x]) - 1) (l ++ [x]) = l.
Proof. rewrite length_app. cbn [length]. rewrite Nat.add_sub. apply take_app_length. Qed.

Lemma backspace_ok max_len cap st l r : rep max_len st l r ->
  op_ok max_len l r (backspace st) (zip_step cap K_backspace (l, r)).
Proof.
  intros H. pose proof H as [[junk Eb] El Ep Es Er Hp]. unfold backspace. cbn [zip_step].
  destruct (snoc_cases l) as [-> | (l0 & x & ->)].
  { rewrite Ep. exact (op_same _ _ _ _ H). }
  rewrite (proj2 (Nat.ltb_lt _ _)) by (rewrite Ep, length_app; cbn [length]; lia). rewrite take_snoc.
  assert (E1 : (ed_pos st - 1)%nat = length l0) by (rewrite Ep, length_app; cbn [length]; lia).
  assert (E2 : (ed_len st - 1)%nat = (length l0 + length r)%nat) by (rewrite El, !length_app; cbn [length]; lia).
  rewrite E1, E2, Eb, <- !app_assoc. cbn [app].
  destruct (shift_left_spec r (ed_len st) l0 x junk) as [z Ez]; [rewrite El, !length_app; cbn [length]; lia |].
  rewrite Ez. set (st' := mk_edit _ _ _).
  assert (H' : rep max_len st' l0 r).
  { rewrite !length_app in Er. cbn [length] in Er. split; cbn [ed_buf ed_len ed_pos st'].
    - by exists (z :: junk).
    - by rewrite length_app.
    - done.
    - rewrite <- Es, Eb. rewrite !length_app. cbn [length]. lia.
    - rewrite length_app. lia.
    - rewrite <- app_assoc in Hp. apply Forall_app in Hp as [? Hp]. apply Forall_app in Hp as [_ ?].
      by apply Forall_app. }
  split; [exact H' |]. cbn [fst snd]. change ([KEY_BS] :: redraw st') with ([[KEY_BS]] ++ redraw st').
  rewrite show_app, (show_redraw _ _ _ _ _ H'); [done | | | done].
  - cbn. by rewrite <- app_assoc, take_app_length.
  - cbn. rewrite length_app. cbn. lia.
Qed.

Lemma delete_ok max_len cap st l r : rep max_len st l r ->
  op_ok max_len l r (delete_at st) (zip_step cap K_delete (l, r)).
Proof.
  intros H. pose proof H as [[junk Eb] El Ep Es Er Hp]. unfold delete_at. cbn [zip_step].
  destruct r as [| x r].
  { rewrite (proj2 (Nat.ltb_ge _ _)) by (rewrite El, Ep, app_nil_r; lia). exact (op_same _ _ _ _ H). }
  rewrite !length_app in *. cbn [length tail] in *.
  rewrite (proj2 (Nat.ltb_lt _ _)) by lia.
  assert (E2 : (ed_len st - 1)%nat = (length l + length r)%nat) by lia.
  rewrite E2, Ep, Eb. cbn [app].
  destruct (shift_left_spec r (ed_len st) l x junk) as [z Ez]; [lia |].
  rewrite Ez. set (st' := mk_edit _ _ _).
  assert (H' : rep max_len st' l r).
  { split; cbn [ed_buf ed_len ed_pos st'].
    - by exists (z :: junk).
    - by rewrite length_app.
    - done.
    - rewrite <- Es, Eb. rewrite !length_app. cbn [length]. rewrite ?length_app. lia.
    - rewrite length_app. lia.
    - apply Forall_app in Hp as [? Hp]. apply Forall_cons in Hp as [_ ?]. by apply Forall_app. }
  split; [exact H' |]. cbn [fst snd]. rewrite (show_redraw _ _ _ _ _ H'); [done | | done | done].
  cbn. by rewrite take_app_length.
Qed.

Lemma insert_ok max_len c st l r : plain c -> rep max_len st l r ->
  op_ok max_len l r (insert_at max_len c st) (zip_step (max_len - 1) (K_char c) (l, r)).
Proof.
  intros Hc H. pose proof H as [[junk Eb] El Ep Es Er Hp]. unfold insert_at. cbn [zip_step]. rewrite El.
  destruct (Nat.ltb_spec (length (l ++ r)) (max_len - 1)) as [Hlt | Hge]; [| exact (op_same _ _ _ _ H)].
  destruct junk as [| z junk]; [exfalso; rewrite <- Es, Eb, app_nil_r in Hlt; lia |].
  destruct (shift_right_spec r l z junk) as [y Ey]. rewrite Ep, Eb, Ey, insert_mid.
  assert (Hp' : Forall plain ((l ++ [c]) ++ r)).
  { apply Forall_app in Hp as [? ?]. rewrite <- app_assoc. repeat (apply Forall_app; split; try done).
    by apply List.Forall_cons. }
  split; cbn [fst snd].
  - split; cbn [ed_buf ed_len ed_pos].
    + exists junk. by rewrite <- !app_assoc.
    + rewrite !length_app. cbn [length]. lia.
    + rewrite length_app. cbn [length]. lia.
    + rewrite <- Es, Eb, !length_app. cbn [length]. rewrite ?length_app. cbn [length]. lia.
    + rewrite !length_app in *. cbn [length]. lia.
    + exact Hp'.
  - unfold tail_of. cbn [ed_buf ed_len ed_pos].
    assert (Et : take (S (length (l ++ r)) - length l) (drop (length l) (l ++ c :: r ++ junk)) = c :: r).
    { rewrite drop_app_length, length_app. replace (S (length l + length r) - length l)%nat with (length (c :: r)) by (cbn; lia).
      change (c :: r ++ junk) with ((c :: r) ++ junk). apply take_app_length. }
    rewrite Et. change ((c :: r) :: ?e) with ([c :: r] ++ e). rewrite show_app.
    assert (E1 : show_all [c :: r] (mk_screen (l ++ r) (length l) 0) = mk_screen (l ++ c :: r) (length l + S (length r)) 0).
    { unfold show_all. cbn [mjoin list_join]. rewrite app_nil_r, show_text.
      - cbn [length]. rewrite drop_ge by lia. by rewrite app_nil_r.
      - apply List.Forall_cons; [done |]. by apply Forall_app in Hp as [_ ?]. }
    rewrite E1, show_back by done. cbn [t_text t_col]. rewrite <- app_assoc, !length_app. cbn [length app].
    f_equal. lia.
Qed.

Lemma arrow_ok max_len cap c st l r : rep max_len st l r ->
  op_ok max_len l r (arrow c st)
    (zip_step cap (if c =? 68 then K_left else if c =? 67 then K_right else K_none) (l, r)).
Proof.
  intros H. pose proof H as [Eb El Ep Es Er Hp]. unfold arrow. rewrite Ep, El, length_app.
  destruct (Z.eqb_spec c 68) as [-> | Hc]; cbn [andb Z.eqb].
  - cbn [zip_step]. destruct (snoc_cases l) as [-> | (l0 & x & ->)]; [exact (op_same _ _ _ _ H) |].
    rewrite last_snoc, take_snoc, length_app. cbn [length].
    rewrite (proj2 (Nat.ltb_lt _ _)) by lia. rewrite <- app_assoc in *. split; cbn [fst snd].
    + split; cbn [ed_buf ed_len ed_pos]; try done.
      * destruct Eb as [junk Eb]. exists junk. by rewrite Eb, <- !app_assoc.
      * rewrite !length_app. cbn [length]. lia.
      * lia.
    + cbn. by rewrite <- app_assoc, length_app, Nat.add_sub.
  - destruct (Z.eqb_spec c 67) as [-> | Hc2]; cbn [andb]; [| exact (op_same _ _ _ _ H)].
    cbn [zip_step]. destruct r as [| x r]; cbn [length].
    + rewrite (proj2 (Nat.ltb_ge _ _)) by lia. exact (op_same _ _ _ _ H).
    + rewrite (proj2 (Nat.ltb_lt _ _)) by lia. assert (E : (l ++ [x]) ++ r = l ++ x :: r) by (by rewrite <- app_assoc).
      split; cbn [fst snd]; [| rewrite E, length_app; cbn; f_equal; lia].
      split; cbn [ed_buf ed_len ed_pos]; rewrite ?E; try done.
      * destruct Eb as [junk Eb]. exists junk. rewrite Eb. by rewrite <- !app_assoc.
      * rewrite length_app. cbn. lia.
      * rewrite length_app. cbn. lia.
Qed.

(** ** The loop *)

Lemma decode_shorter inp k rest : decode inp = Some (k, rest) -> (length rest < length inp)%nat.
Proof.
  unfold decode. repeat (case_match; try done); intros [= _ <-]; cbn [length]; lia.
Qed.

(** One turn of the loop is one key. *)
Lemma fetch_step max_len st l r inp : rep max_len st l r ->
  match decode inp with
  | None => fetch_loop max_len st inp = None
  | Some (K_enter, rest) => fetch_loop max_len st inp = Some (st, [[KEY_CR]; [KEY_LF]], rest)
  | Some (k, rest) => exists so, op_ok max_len l r so (zip_step (max_len - 1) k (l, r))
      /\ fetch_loop max_len st inp
         = ('(st, echo, rest) ← fetch_loop max_len (fst so) rest; Some (st, snd so ++ echo, rest))
  end.
Proof.
  intros H. destruct inp as [| c inp]; [done |]. cbn [decode fetch_loop].
  change KEY_CR with 13. change KEY_LF with 10. change KEY_DEL with 127. change KEY_BS with 8.
  change KEY_ESC with 27.
  destruct ((c =? 13) || (c =? 10)) eqn:E1; [done |].
  destruct ((c =? 127) || (c =? 8)) eqn:E2; [exists (backspace st); split; [by apply backspace_ok | done] |].
  destruct (Z.eqb_spec c 27) as [_ | E3].
  - destruct inp as [| c2 inp]; [done |]. destruct (Z.eqb_spec c2 91) as [_ | _]; cbn [negb].
    2: { exists (st, []). split; [by apply op_same | done]. }
    destruct inp as [| c3 inp]; [done |]. destruct (Z.eqb_spec c3 51) as [-> | Hne].
    { cbn [Z.leb Z.compare andb]. destruct inp as [| c4 inp]; [done |].
      exists (delete_at st). split; [by apply delete_ok | done]. }
    destruct ((48 <=? c3) && (c3 <=? 57)).
    { destruct inp as [| c4 inp]; [done |]. exists (st, []). split; [by apply op_same | done]. }
    pose proof (arrow_ok max_len (max_len - 1) c3 st l r H) as Ha.
    destruct (c3 =? 68); [by eexists |]. destruct (c3 =? 67); by eexists.
  - apply orb_false_iff in E1 as [?%Z.eqb_neq ?%Z.eqb_neq]. apply orb_false_iff in E2 as [_ ?%Z.eqb_neq].
    exists (insert_at max_len c st). split; [by apply insert_ok | done].
Qed.

Lemma fetch_loop_spec max_len : forall fuel st l r inp, rep max_len st l r -> (length inp < fuel)%nat ->
  match zip_run fuel (max_len - 1) (l, r) inp with
  | None => fetch_loop max_len st inp = None
  | Some (z, rest) => exists st' echo, fetch_loop max_len st inp = Some (st', echo, rest)
      /\ rep max_len st' (fst z) (snd z)
      /\ show_all echo (mk_screen (l ++ r) (length l) 0) = mk_screen (fst z ++ snd z) (length (fst z)) 0
  end.
Proof.
  induction fuel as [| fuel IH]; intros st l r inp H Hf; [lia |]. cbn [zip_run].
  pose proof (fetch_step max_len st l r inp H) as Hs.
  destruct (decode inp) as [[k rest] |] eqn:Ed; [| exact Hs].
  pose proof (decode_shorter _ _ _ Ed) as Hlt.
  assert (Hgo : forall so, op_ok max_len l r so (zip_step (max_len - 1) k (l, r)) ->
    fetch_loop max_len st inp
      = ('(st, echo, rest) ← fetch_loop max_len (fst so) rest; Some (st, snd so ++ echo, rest)) ->
    match zip_run fuel (max_len - 1) (zip_step (max_len - 1) k (l, r)) rest with
    | None => fetch_loop max_len st inp = None
    | Some (z, rest) => exists st' echo, fetch_loop max_len st inp = Some (st', echo, rest)
        /\ rep max_len st' (fst z) (snd z)
        /\ show_all echo (mk_screen (l ++ r) (length l) 0) = mk_screen (fst z ++ snd z) (length (fst z)) 0
    end).
  { intros so [Hrep Hshow] E. destruct (zip_step (max_len - 1) k (l, r)) as [l1 r1].
    specialize (IH (fst so) l1 r1 rest Hrep ltac:(lia)).
    destruct (zip_run fuel _ (l1, r1) rest) as [[z rest'] |]; [| by rewrite E, IH].
    destruct IH as (st' & echo & E' & Hr' & Hs'). exists st', (snd so ++ echo).
    rewrite E, E', show_app, Hshow. done. }
  destruct k; try (destruct Hs as (so & Hop & E); exact (Hgo so Hop E)).
  exists st, [[KEY_CR]; [KEY_LF]]. done.
Qed.

(** C31. The line editor refines a text with a cursor, and the user sees what is
    stored: for every input, [fetch_input] returns exactly when the
    specification finishes a line and consumes the same bytes; the buffer then
    holds the specification's text, at most [max_len - 1] characters, followed
    by a NUL inside the buffer, whose size never changes; and a terminal line
    that interprets the echo shows that text with the cursor where the
    specification has it. *)
Theorem fetch_input_refines max_len buf inp (Hmax : (0 < max_len)%nat) (Hbuf : length buf = max_len) :
  match zip_run (S (length inp)) (max_len - 1) ([], []) inp with
  | None => fetch_input max_len buf inp = None
  | Some ((l, r), rest) => exists buf' echo, fetch_input max_len buf inp = Some (buf', echo, rest)
      /\ length buf' = max_len /\ (length (l ++ r) < max_len)%nat
      /\ take (length (l ++ r)) buf' = l ++ r /\ buf' !! length (l ++ r) = Some 0
      /\ show_all echo (mk_screen [] 0 0) = mk_screen (l ++ r) (length l) 0
  end.
Proof.
  assert (H0 : rep max_len (mk_edit buf 0 0) [] []) by (split; [by exists buf | done..]).
  pose proof (fetch_loop_spec max_len (S (length inp)) _ _ _ inp H0 ltac:(lia)) as H. unfold fetch_input.
  destruct (zip_run _ _ _ inp) as [[[l r] rest] |]; [| by rewrite H].
  destruct H as (st & echo & E & [[junk Eb] El Ep Es Er Hp] & Hs). cbn [fst snd] in *. rewrite E. cbn [mbind option_bind].
  exists (<[ed_len st := 0]> (ed_buf st)), echo. split; [done |]. rewrite El. split_and!.
  - by rewrite length_insert.
  - done.
  - rewrite take_insert_ge by lia. rewrite Eb, app_assoc. apply take_app_length.
  - apply list_lookup_insert_eq. lia.
  - exact Hs.
Qed.

(** "ab", left, "X", left, left, delete, Enter, and one byte for later. *)
Lemma fetch_input_refines_witness :
  exists buf' echo, fetch_input 32 (replicate 32 0) [97; 98; 27; 91; 68; 88; 27; 91; 68; 27; 91; 68; 27; 91; 51; 126; 13; 113]
    = Some (buf', echo, [113])
    /\ length buf' = 32%nat /\ (length ([] ++ [88; 98]) < 32)%nat
    /\ take (length ([] ++ [88; 98])) buf' = [88; 98] /\ buf' !! length ([] ++ [88; 98]) = Some 0
    /\ show_all echo (mk_screen [] 0 0) = mk_screen [88; 98] 0 0.
Proof.
  exact (fetch_input_refines 32 (replicate 32 0)
    [97; 98; 27; 91; 68; 88; 27; 91; 68; 27; 91; 68; 27; 91; 51; 126; 13; 113] (Nat.lt_0_succ 31) eq_refl).
Defined.
