(* ===== verification/Command.v ===== *)
(** * The command channel (src/terminal_interface.c, lines 1016 to 1388)

    Lines of text from the serial port become operations of the stack; every
    reply is framed by a [#BEGIN] and an [#END] line.  Each element of [b_out] is
    what one call of [sciSend] sends.  [ping_wait_reply] and [scan_network] wait;
    what the interrupts do meanwhile is in the [cmd_env] of the command. *)

From S2P Require Import Prelude NetTypes IpAddr Pbuf Chksum Net Chain Memp Etharp Netif Lwiplib Udp Ip UdpSend UdpSource NetManager Icmp Raw Ping Locator Input Text.

Definition CMD_LINE_MAX : nat := 128.
Definition PING_TIMEOUT_MS : Z := 2000.

(** The program with its serial port; [b_line] are the first [cmd_line_len]
    bytes of [cmd_line]. *)
Record board := mk_board {
  b_sys : sys;
  b_line : string;
  b_out : list string
}.

Definition b_net (b : board) : net := y_net (b_sys b).
Definition b_us (b : board) : usrc := y_us (b_sys b).
Definition set_b_sys y b := mk_board y (b_line b) (b_out b).
Definition set_b_line l b := mk_board (b_sys b) l (b_out b).
Definition set_b_net s b := set_b_sys (set_y_net s (b_sys b)) b.
Definition set_b_us us b := set_b_sys (set_y_us us (b_sys b)) b.

#[export] Instance ping_in_sys : PartOf ping_st sys := {|
  part := y_ping; set_part x y := set_y_raw (y_raw y) x y; part_set x y := eq_refl
|}.
#[export] Instance net_in_sys : PartOf net sys := {|
  part := y_net; set_part s y := set_y_net s y; part_set s y := eq_refl
|}.

(** The counter when the request is sent, when the wait starts and at its
    readings, and the interrupts during the waits. *)
Record cmd_env := mk_env {
  e_now : Z;
  e_start : Z;
  e_trace : list (Z * (sys -> sys));
  e_wait : nat -> sys -> sys
}.

(** [cmd_out]. *)
Definition cmd_out (s : string) (b : board) : board := mk_board (b_sys b) (b_line b) (b_out b ++ [s]).
Definition line (s : string) : string := (s +:+ CRLF)%string.

(** [cmd_netif_by_index]. *)
Fixpoint by_index (idx : Z) (l : list netif_ptr) : option netif_ptr :=
  match l with
  | [] => None
  | n :: l => if 1 <? idx then by_index (idx - 1) l else Some n
  end.
Definition cmd_netif_by_index (idx : Z) (s : net) : option netif_ptr :=
  if idx <? 1 then None else by_index idx (netifs s).

(** The lines of [cmd_netif_list]. *)
Definition netif_line (idx : Z) (n : netif) (socks : Z) : string :=
  line ("#NETIF " +:+ dec idx +:+ " " +:+ ipaddr_ntoa (nif_ip_addr n) +:+ " "
        +:+ ipaddr_ntoa (nif_netmask n) +:+ " " +:+ ipaddr_ntoa (nif_gw n)
        +:+ " socks=" +:+ dec socks).
Definition sock_line (idx : Z) (j : nat) (port : Z) : string :=
  line ("#SOCK " +:+ dec idx +:+ " " +:+ dec (Z.of_nat j + 1) +:+ " " +:+ dec port).
Definition sock_lines (idx : Z) (np : netif_ptr) (us : usrc) : list string :=
  map (fun j => sock_line idx j (si_local_port (udp_source_get_socket (Some np) (Z.of_nat j) us)))
    (seq 0 (Z.to_nat (udp_source_count_sockets (Some np) us))).
Fixpoint netif_lines (idx : Z) (l : list netif_ptr) (s : net) (us : usrc) : list string :=
  match l with
  | [] => []
  | np :: l =>
      netif_line idx (netif_of s np) (udp_source_count_sockets (Some np) us)
      :: sock_lines idx np us ++ netif_lines (idx + 1) l s us
  end.
Definition out_lines (ls : list string) (b : board) : board := fold_left (fun b l => cmd_out l b) ls b.

Definition cmd_netif_list (b : board) : board :=
  let b := cmd_out (line "#BEGIN NETIFLIST") b in
  let b := out_lines (netif_lines 1 (netifs (b_net b)) (b_net b) (b_us b)) b in
  cmd_out (line "#END NETIFLIST OK") b.

Section Commands.
Context `{IntConv}.

(** The arguments of [cmd_netif_add]. *)
Definition scan_netif_add (args : string) : option (Z * Z * Z) :=
  '(ip_s, r) ← scan_word 15 args;
  '(mask_s, r) ← scan_word 15 r;
  '(gw_s, _) ← scan_word 15 r;
  ip ← ipaddr_aton ip_s;
  mask ← ipaddr_aton mask_s;
  gw ← ipaddr_aton gw_s;
  Some (ip, mask, gw).
Definition cmd_netif_add (args : string) (b : board) : board :=
  let b := cmd_out (line "#BEGIN NETIFADD") b in
  match scan_netif_add args with
  | None => cmd_out (line "#END NETIFADD ERR:bad_args") b
  | Some (ip, mask, gw) =>
      let '(err, st) := net_if_add (Some ip) (Some mask) (Some gw) (y_stack (b_sys b)) in
      let b := set_b_sys (set_y_stack st (b_sys b)) b in
      if negb (bool_decide (ERR_OK = err)) then cmd_out (line "#END NETIFADD ERR:add_failed") b
      else cmd_out (line "#END NETIFADD OK") b
  end.

Definition cmd_netif_del (args : string) (b : board) : board :=
  let n := cmd_netif_by_index (atoi args) (b_net b) in
  let b := cmd_out (line "#BEGIN NETIFDEL") b in
  match n with
  | None => cmd_out (line "#END NETIFDEL ERR:bad_index") b
  | Some n =>
      let '(err, st) := net_if_remove (Some n) (y_stack (b_sys b)) in
      let b := set_b_sys (set_y_stack st (b_sys b)) b in
      if negb (bool_decide (ERR_OK = err)) then cmd_out (line "#END NETIFDEL ERR:remove_failed") b
      else cmd_out (line "#END NETIFDEL OK") b
  end.

Definition cmd_sock_open (args : string) (b : board) : board :=
  let b := cmd_out (line "#BEGIN SOCKOPEN") b in
  match ('(idx, r) ← scan_int args; '(port, _) ← scan_int r; Some (idx, port)) with
  | None => cmd_out (line "#END SOCKOPEN ERR:bad_args") b
  | Some (idx, port) =>
      if (port <? 1) || (65535 <? port) then cmd_out (line "#END SOCKOPEN ERR:bad_args") b
      else
        match cmd_netif_by_index idx (b_net b) with
        | None => cmd_out (line "#END SOCKOPEN ERR:bad_index") b
        | Some n =>
            let '(err, _, us) := udp_source_add_listener (Some n) (u16 port) true (b_net b) (b_us b) in
            let b := set_b_us us b in
            if negb (bool_decide (ERR_OK = err)) then cmd_out (line "#END SOCKOPEN ERR:open_failed") b
            else cmd_out (line "#END SOCKOPEN OK") b
        end
  end.

Definition cmd_sock_close (args : string) (b : board) : board :=
  let b := cmd_out (line "#BEGIN SOCKCLOSE") b in
  match ('(idx, r) ← scan_int args; '(nth, _) ← scan_int r; Some (idx, nth)) with
  | None => cmd_out (line "#END SOCKCLOSE ERR:bad_args") b
  | Some (idx, nth) =>
      match cmd_netif_by_index idx (b_net b) with
      | None => cmd_out (line "#END SOCKCLOSE ERR:bad_index") b
      | Some n =>
          if (nth <? 1) || (udp_source_count_sockets (Some n) (b_us b) <? nth)
          then cmd_out (line "#END SOCKCLOSE ERR:bad_socket") b
          else
            let id := si_socket_id (udp_source_get_socket (Some n) (u8 (nth - 1)) (b_us b)) in
            let b := set_b_us (udp_source_remove_listener id (b_us b)) b in
            cmd_out (line "#END SOCKCLOSE OK") b
      end
  end.

Definition pong_line (r : ping_result) : string :=
  line ("#PONG " +:+ ipaddr_ntoa (pr_from r) +:+ " " +:+ dec (pr_seqno r) +:+ " " +:+ dec (pr_data_len r)
        +:+ " " +:+ dec (pr_rtt_ms r) +:+ " " +:+ dec (pr_ttl r)).

(** [cmd_ping]; [None] when the trace ends during the wait. *)
Definition cmd_ping (args : string) (e : cmd_env) (b : board) : option board :=
  let b := cmd_out (line "#BEGIN PING") b in
  match ('(idx, r) ← scan_int args; '(ip_s, _) ← scan_word 15 r; ip ← ipaddr_aton ip_s; Some (idx, ip)) with
  | None => Some (cmd_out (line "#END PING ERR:bad_args") b)
  | Some (idx, target) =>
      match cmd_netif_by_index idx (b_net b) with
      | None => Some (cmd_out (line "#END PING ERR:bad_index") b)
      | Some n =>
          let y := b_sys b in
          let '(err, x, r, s) := ping_send (Some n) (Some target) (e_now e) (y_ping y) (y_raw y) (y_net y) in
          let b := set_b_sys (set_y_net s (set_y_raw r x y)) b in
          if negb (bool_decide (ERR_OK = err)) then Some (cmd_out (line "#END PING ERR:send_failed") b)
          else
            match ping_wait_reply (e_start e) PING_TIMEOUT_MS (e_trace e) (b_sys b) with
            | None => None
            | Some (res, y) =>
                let b := set_b_sys y b in
                let b := match res with
                         | Some r => cmd_out (pong_line r) b
                         | None => cmd_out (line "#TIMEOUT") b
                         end in
                Some (cmd_out (line "#END PING OK") b)
            end
      end
  end.

Definition host_line (h : Z * list Z) : string :=
  let o (i : nat) := hex2 (byte_at (snd h) i) in
  line ("Host up: " +:+ ipaddr_ntoa (fst h) +:+ " MAC " +:+ o 0%nat +:+ ":" +:+ o 1%nat +:+ ":"
        +:+ o 2%nat +:+ ":" +:+ o 3%nat +:+ ":" +:+ o 4%nat +:+ ":" +:+ o 5%nat).

Definition cmd_scan (args : string) (e : cmd_env) (b : board) : board :=
  let n := cmd_netif_by_index (atoi args) (b_net b) in
  let b := cmd_out (line "#BEGIN SCAN") b in
  match n with
  | None => cmd_out (line "#END SCAN ERR:bad_index") b
  | Some n =>
      let '(err, hosts, y) := scan_network (Some n) (e_wait e) (b_sys b) in
      let b := out_lines (map host_line hosts) (set_b_sys y b) in
      if negb (bool_decide (ERR_OK = err)) then cmd_out (line "#END SCAN ERR:scan_failed") b
      else cmd_out (line "#END SCAN OK") b
  end.

Definition cmd_arp_reset (b : board) : board :=
  let b := cmd_out (line "#BEGIN ARPRESET") b in
  let b := set_b_net (fold_left (fun s n => etharp_cleanup_netif n s) (netifs (b_net b)) (b_net b)) b in
  cmd_out (line "#END ARPRESET OK") b.

(** The arguments of [cmd_udp_send] and the rest of the line. *)
Definition scan_udp_send (args : string) : option (Z * Z * Z * Z * string) :=
  '(idx, r) ← scan_int args;
  '(nth, r) ← scan_int r;
  '(ip_s, r) ← scan_word 15 r;
  '(port, r) ← scan_int r;
  dst ← ipaddr_aton ip_s;
  if (port <? 1) || (65535 <? port) then None else Some (idx, nth, dst, port, skip_ws r).
Definition cmd_udp_send (args : string) (b : board) : board :=
  let b := cmd_out (line "#BEGIN UDPSEND") b in
  match scan_udp_send args with
  | None => cmd_out (line "#END UDPSEND ERR:bad_args") b
  | Some (idx, nth, dst, port, data) =>
      if chr data =? 0 then cmd_out (line "#END UDPSEND ERR:no_data") b
      else
        match cmd_netif_by_index idx (b_net b) with
        | None => cmd_out (line "#END UDPSEND ERR:bad_index") b
        | Some n =>
            if (nth <? 1) || (udp_source_count_sockets (Some n) (b_us b) <? nth)
            then cmd_out (line "#END UDPSEND ERR:bad_socket") b
            else
              let sock := udp_source_get_socket (Some n) (u8 (nth - 1)) (b_us b) in
              let '(err, us, s) := udp_source_data_send (si_socket_id sock) (si_netif sock) dst (u16 port)
                                     (Some (bytes data)) (b_us b) (b_net b) in
              let b := set_b_us us (set_b_net s b) in
              if negb (bool_decide (ERR_OK = err)) then cmd_out (line "#END UDPSEND ERR:send_failed") b
              else cmd_out (line "#END UDPSEND OK") b
        end
  end.

Definition cmd_netif_set (args : string) (b : board) : board :=
  let b := cmd_out (line "#BEGIN NETIFSET") b in
  match ('(idx, r) ← scan_int args; '(field, r) ← scan_word 7 r; '(val_s, _) ← scan_word 15 r;
         val ← ipaddr_aton val_s; Some (idx, field, val)) with
  | None => cmd_out (line "#END NETIFSET ERR:bad_args") b
  | Some (idx, field, val) =>
      match cmd_netif_by_index idx (b_net b) with
      | None => cmd_out (line "#END NETIFSET ERR:bad_index") b
      | Some n =>
          if String.eqb field "IP" then
            let b := set_b_net (netif_set_ipaddr n val (b_net b)) b in
            let b := set_b_us (udp_source_netif_ip_changed (Some n) (b_net b) (b_us b)) b in
            cmd_out (line "#END NETIFSET OK") b
          else if String.eqb field "MASK" then
            cmd_out (line "#END NETIFSET OK") (set_b_net (netif_set_netmask n val (b_net b)) b)
          else if String.eqb field "GW" then
            cmd_out (line "#END NETIFSET OK") (set_b_net (netif_set_gw n val (b_net b)) b)
          else cmd_out (line "#END NETIFSET ERR:bad_field") b
      end
  end.

(** [cmd_dispatch], with the tests in the order of the code. *)
Definition cmd_dispatch (l : string) (e : cmd_env) (b : board) : option board :=
  if String.eqb l "NETIF LIST" then Some (cmd_netif_list b)
  else match after_prefix "NETIF ADD " l with Some a => Some (cmd_netif_add a b) | None =>
  match after_prefix "NETIF DEL " l with Some a => Some (cmd_netif_del a b) | None =>
  match after_prefix "NETIF SET " l with Some a => Some (cmd_netif_set a b) | None =>
  match after_prefix "SOCK OPEN " l with Some a => Some (cmd_sock_open a b) | None =>
  match after_prefix "SOCK CLOSE " l with Some a => Some (cmd_sock_close a b) | None =>
  match after_prefix "PING " l with Some a => cmd_ping a e b | None =>
  match after_prefix "SCAN " l with Some a => Some (cmd_scan a e b) | None =>
  if String.eqb l "ARPRESET" then Some (cmd_arp_reset b)
  else match after_prefix "UDP SEND " l with Some a => Some (cmd_udp_send a b) | None =>
  Some (cmd_out (line "#ERR unknown_command") b)
  end end end end end end end end.

(** [cmd_channel_feed]; [None] when a command does not return. *)
Definition cmd_channel_feed (ch : Z) (e : cmd_env) (b : board) : option board :=
  if (ch =? 13) || (ch =? 10) then
    if (0 <? String.length (b_line b))%nat then
      match cmd_dispatch (c_str (b_line b)) e b with
      | None => None
      | Some b => Some (set_b_line EmptyString b)
      end
    else Some b
  else if (String.length (b_line b) <? CMD_LINE_MAX - 1)%nat
  then Some (set_b_line (b_line b +:+ chars [ch]) b)
  else Some b.
End Commands.

(** ** Framing of the replies *)

(** Text the desktop program takes for the start or the end of a reply. *)
Definition is_frame_line (s : string) : bool :=
  match after_prefix "#BEGIN " s, after_prefix "#END " s with None, None => false | _, _ => true end.

(** What one command adds to the output: the frame, with no frame line between. *)
Definition framed (name : string) (b b' : board) : Prop :=
  exists body status,
    b_out b' = b_out b ++ line ("#BEGIN " +:+ name)%string :: body
                 ++ [line ("#END " +:+ name +:+ " " +:+ status)%string]
    /\ Forall (fun l => is_frame_line l = false) body
    /\ (status = "OK"%string \/ exists e, status = ("ERR:" +:+ e)%string).

(** The commands: how the line starts (the whole line where the flag is set) and
    the name in the frame. *)
Definition commands : list (string * bool * string) := [
  ("NETIF LIST", true, "NETIFLIST"); ("NETIF ADD ", false, "NETIFADD");
  ("NETIF DEL ", false, "NETIFDEL"); ("NETIF SET ", false, "NETIFSET");
  ("SOCK OPEN ", false, "SOCKOPEN"); ("SOCK CLOSE ", false, "SOCKCLOSE");
  ("PING ", false, "PING"); ("SCAN ", false, "SCAN");
  ("ARPRESET", true, "ARPRESET"); ("UDP SEND ", false, "UDPSEND") ]%string.
Definition is_command (l : string) (c : string * bool * string) : bool :=
  let '(p, whole, _) := c in
  if whole then String.eqb l p else match after_prefix p l with Some _ => true | None => false end.
Definition command_of (l : string) : option string := snd <$> List.find (is_command l) commands.

Lemma b_out_out_lines ls b : b_out (out_lines ls b) = b_out b ++ ls.
Proof.
  revert b; induction ls as [| l ls IH]; intros b; [by rewrite app_nil_r |].
  unfold out_lines in *. cbn [fold_left]. rewrite IH. cbn [cmd_out b_out]. by rewrite <- app_assoc.
Qed.

Lemma framed_lines name body status b b' :
  b_out b' = (b_out b ++ [line ("#BEGIN " +:+ name)%string]) ++ body
             ++ [line ("#END " +:+ name +:+ " " +:+ status)%string] ->
  forallb (fun l => negb (is_frame_line l)) body = true ->
  (status = "OK"%string \/ exists e, status = ("ERR:" +:+ e)%string) -> framed name b b'.
Proof.
  intros E Hb Hs. exists body, status. rewrite E, <- app_assoc. split; [done |]. split; [| done].
  apply Forall_forall. intros l Hl%list_elem_of_In.
  rewrite List.forallb_forall in Hb. specialize (Hb l Hl). by apply negb_true_iff in Hb.
Qed.

#[local] Ltac frame_with e :=
  apply (framed_lines _ [] ("ERR:" +:+ e)%string); [reflexivity | reflexivity | right; by exists e].
#[local] Ltac frame_end := first
  [ apply (framed_lines _ [] "OK"); [reflexivity | reflexivity | by left]
  | frame_with "bad_args"%string | frame_with "bad_index"%string | frame_with "bad_socket"%string
  | frame_with "bad_field"%string | frame_with "no_data"%string | frame_with "add_failed"%string
  | frame_with "remove_failed"%string | frame_with "open_failed"%string | frame_with "send_failed"%string
  | frame_with "scan_failed"%string ].

Section Frames.
Context `{IntConv}.

Lemma netif_lines_plain idx l s us : forallb (fun l => negb (is_frame_line l)) (netif_lines idx l s us) = true.
Proof.
  revert idx; induction l as [| np l IH]; intros idx; [done |]. cbn [netif_lines forallb].
  rewrite forallb_app, IH, andb_true_r. change (is_frame_line (netif_line _ _ _)) with false. cbn [negb andb].
  unfold sock_lines. induction (seq _ _) as [| j js IHj]; [done |]. exact IHj.
Qed.

Lemma host_lines_plain hs : forallb (fun l => negb (is_frame_line l)) (map host_line hs) = true.
Proof. induction hs as [| h hs IH]; [done |]. exact IH. Qed.

Lemma netif_list_framed b : framed "NETIFLIST" b (cmd_netif_list b).
Proof.
  unfold cmd_netif_list. cbn zeta. eapply (framed_lines _ _ "OK"); [| apply netif_lines_plain | by left].
  cbn [cmd_out b_out]. rewrite b_out_out_lines, <- app_assoc. reflexivity.
Qed.

Lemma netif_add_framed a b : framed "NETIFADD" b (cmd_netif_add a b).
Proof.
  unfold cmd_netif_add. destruct (scan_netif_add a) as [[[ip mask] gw] |]; [| frame_end].
  destruct (net_if_add _ _ _ _) as [err st]. destruct (negb _); frame_end.
Qed.

Lemma netif_del_framed a b : framed "NETIFDEL" b (cmd_netif_del a b).
Proof.
  unfold cmd_netif_del. destruct (cmd_netif_by_index _ _) as [n |]; [| frame_end].
  destruct (net_if_remove _ _) as [err st]. destruct (negb _); frame_end.
Qed.

Lemma sock_open_framed a b : framed "SOCKOPEN" b (cmd_sock_open a b).
Proof.
  unfold cmd_sock_open. destruct (scan_int a ≫= _) as [[idx port] |]; [| frame_end].
  destruct (_ || _); [frame_end |]. destruct (cmd_netif_by_index _ _) as [n |]; [| frame_end].
  destruct (udp_source_add_listener _ _ _ _ _) as [[err id] us]. destruct (negb _); frame_end.
Qed.

Lemma sock_close_framed a b : framed "SOCKCLOSE" b (cmd_sock_close a b).
Proof.
  unfold cmd_sock_close. destruct (scan_int a ≫= _) as [[idx nth] |]; [| frame_end].
  destruct (cmd_netif_by_index _ _) as [n |]; [| frame_end]. destruct (_ || _); frame_end.
Qed.

Lemma ping_framed a e b b' : cmd_ping a e b = Some b' -> framed "PING" b b'.
Proof.
  unfold cmd_ping. destruct (scan_int a ≫= _) as [[idx target] |]; [| intros [= <-]; frame_end].
  destruct (cmd_netif_by_index _ _) as [n |]; [| intros [= <-]; frame_end].
  destruct (ping_send _ _ _ _ _ _) as [[[err x] r] s]. destruct (negb _); [intros [= <-]; frame_end |].
  destruct (ping_wait_reply _ _ _ _) as [[[res |] y] |]; [| | done]; intros [= <-].
  - apply (framed_lines _ [pong_line res] "OK"); [cbn; by rewrite <- app_assoc | reflexivity | by left].
  - apply (framed_lines _ [line "#TIMEOUT"] "OK"); [cbn; by rewrite <- app_assoc | reflexivity | by left].
Qed.

Lemma scan_framed a e b : framed "SCAN" b (cmd_scan a e b).
Proof.
  unfold cmd_scan. destruct (cmd_netif_by_index _ _) as [n |]; [| frame_end].
  destruct (scan_network _ _ _) as [[err hs] y]. cbn zeta.
  destruct (negb _);
    [apply (framed_lines _ (map host_line hs) "ERR:scan_failed") | apply (framed_lines _ (map host_line hs) "OK")];
    try apply host_lines_plain; try (right; by exists "scan_failed"%string); try (by left);
    cbn [cmd_out b_out]; rewrite b_out_out_lines, <- app_assoc; reflexivity.
Qed.

Lemma udp_send_framed a b : framed "UDPSEND" b (cmd_udp_send a b).
Proof.
  unfold cmd_udp_send. destruct (scan_udp_send a) as [[[[[idx nth] dst] port] data] |]; [| frame_end].
  destruct (chr data =? 0); [frame_end |]. destruct (cmd_netif_by_index _ _) as [n |]; [| frame_end].
  destruct (_ || _); [frame_end |]. cbn zeta.
  destruct (udp_source_data_send _ _ _ _ _ _ _) as [[err us] s]. destruct (negb _); frame_end.
Qed.

Lemma netif_set_framed a b : framed "NETIFSET" b (cmd_netif_set a b).
Proof.
  unfold cmd_netif_set. destruct (scan_int a ≫= _) as [[[idx field] val] |]; [| frame_end].
  destruct (cmd_netif_by_index _ _) as [n |]; [| frame_end].
  destruct (String.eqb field "IP"); [frame_end |]. destruct (String.eqb field "MASK"); [frame_end |].
  destruct (String.eqb field "GW"); frame_end.
Qed.

(** C29. Every line the command channel takes is answered by exactly one reply:
    for a command, the [#BEGIN] line with its name, lines that are no frame
    lines, and the [#END] line with the same name and [OK] or an [ERR:] reason,
    on every branch; any other line gets [#ERR unknown_command] and nothing is
    changed.  The name is that of the first entry of the command table the line
    matches. *)
Theorem reply_framed l e b b' (Hd : cmd_dispatch l e b = Some b') :
  match command_of l with
  | Some name => framed name b b'
  | None => b' = cmd_out (line "#ERR unknown_command") b
  end.
Proof.
  unfold command_of, commands. cbn [List.find is_command]. unfold cmd_dispatch in Hd.
  destruct (String.eqb l "NETIF LIST"); [injection Hd as <-; apply netif_list_framed |].
  destruct (after_prefix "NETIF ADD " l); [injection Hd as <-; apply netif_add_framed |].
  destruct (after_prefix "NETIF DEL " l); [injection Hd as <-; apply netif_del_framed |].
  destruct (after_prefix "NETIF SET " l); [injection Hd as <-; apply netif_set_framed |].
  destruct (after_prefix "SOCK OPEN " l); [injection Hd as <-; apply sock_open_framed |].
  destruct (after_prefix "SOCK CLOSE " l); [injection Hd as <-; apply sock_close_framed |].
  destruct (after_prefix "PING " l); [by apply ping_framed in Hd |].
  destruct (after_prefix "SCAN " l); [injection Hd as <-; apply scan_framed |].
  destruct (String.eqb l "ARPRESET"); [injection Hd as <-; frame_end |].
  destruct (after_prefix "UDP SEND " l); [injection Hd as <-; apply udp_send_framed |].
  by injection Hd as <-.
Qed.
End Frames.

(** ** The byte stream *)

Section Stream.
Context `{IntConv}.

(** The received bytes, each with what happens while the command runs that it
    may complete. *)
Fixpoint feed_all (chs : list (Z * cmd_env)) (b : board) : option board :=
  match chs with
  | [] => Some b
  | (ch, e) :: chs => cmd_channel_feed ch e b ≫= feed_all chs
  end.

(** What the desktop program sends: lines of text, each ended by CR, LF or both. *)
Record text_line := mk_text_line { tl_text : list Z; tl_end : list Z; tl_env : cmd_env }.
Record text_line_ok (l : text_line) : Prop := {
  tlk_text : Forall (fun c => 0 <= c < 256 /\ c <> 13 /\ c <> 10) (tl_text l);
  tlk_end : tl_end l = [13] \/ tl_end l = [10] \/ tl_end l = [13; 10]
}.
Definition line_bytes (l : text_line) : list (Z * cmd_env) :=
  (fun c => (c, tl_env l)) <$> (tl_text l ++ tl_end l).

(** One line: nothing for an empty one, otherwise the command in its first 127
    bytes. *)
Definition run_line (l : text_line) (b : board) : option board :=
  if bool_decide (tl_text l = []) then Some b
  else cmd_dispatch (c_str (chars (take (CMD_LINE_MAX - 1) (tl_text l)))) (tl_env l) b.
Fixpoint run_lines (ls : list text_line) (b : board) : option board :=
  match ls with [] => Some b | l :: ls => run_line l b ≫= run_lines ls end.

(** Commands neither read nor write the line buffer. *)
Lemma out_lines_line ls b x : out_lines ls (set_b_line x b) = set_b_line x (out_lines ls b).
Proof. revert b; induction ls as [| l ls IH]; intros b; [done |]. exact (IH (cmd_out l b)). Qed.

#[local] Ltac board_eval :=
  lazy beta iota zeta delta [set_b_line b_sys cmd_out set_b_sys set_b_us set_b_net b_net b_us b_line b_out
    fmap option_fmap option_map].
#[local] Ltac line_free :=
  board_eval;
  repeat (match goal with |- context [match ?x with _ => _ end] => destruct x end; board_eval; try reflexivity).

Lemma dispatch_line l e b x : cmd_dispatch l e (set_b_line x b) = set_b_line x <$> cmd_dispatch l e b.
Proof.
  destruct b as [y l0 o]. unfold cmd_dispatch, b_net, b_us.
  destruct (String.eqb l "NETIF LIST").
  { cbn. f_equal. unfold cmd_netif_list. cbn zeta.
    change (cmd_out (line "#BEGIN NETIFLIST") (set_b_line x (mk_board y l0 o)))
      with (set_b_line x (cmd_out (line "#BEGIN NETIFLIST") (mk_board y l0 o))). by rewrite out_lines_line. }
  destruct (after_prefix "NETIF ADD " l) as [a |]; [unfold cmd_netif_add; by line_free |].
  destruct (after_prefix "NETIF DEL " l) as [a |]; [unfold cmd_netif_del; by line_free |].
  destruct (after_prefix "NETIF SET " l) as [a |]; [unfold cmd_netif_set; by line_free |].
  destruct (after_prefix "SOCK OPEN " l) as [a |]; [unfold cmd_sock_open; by line_free |].
  destruct (after_prefix "SOCK CLOSE " l) as [a |]; [unfold cmd_sock_close; by line_free |].
  destruct (after_prefix "PING " l) as [a |]; [unfold cmd_ping |].
  { destruct (scan_int a ≫= _) as [[idx target] |]; [| done]. board_eval.
    destruct (cmd_netif_by_index _ _) as [n |]; [| done].
    destruct (ping_send _ _ _ _ _ _) as [[[err px] r] s]. destruct (negb _); [done |].
    by destruct (ping_wait_reply _ _ _ _) as [[[res |] y1] |]. }
  destruct (after_prefix "SCAN " l) as [a |].
  { unfold cmd_scan. change (b_net (set_b_line x (mk_board y l0 o))) with (b_net (mk_board y l0 o)).
    destruct (cmd_netif_by_index _ _) as [n |]; [| done].
    change (b_sys (cmd_out (line "#BEGIN SCAN") (set_b_line x (mk_board y l0 o)))) with y.
    change (b_sys (cmd_out (line "#BEGIN SCAN") (mk_board y l0 o))) with y.
    destruct (scan_network _ _ _) as [[err hs] y1]. cbn zeta.
    change (set_b_sys y1 (cmd_out ?s (set_b_line x ?b))) with (set_b_line x (set_b_sys y1 (cmd_out s b))).
    rewrite out_lines_line. by destruct (negb _). }
  destruct (String.eqb l "ARPRESET"); [done |].
  destruct (after_prefix "UDP SEND " l) as [a |]; [unfold cmd_udp_send; by line_free | done].
Qed.

Lemma feed_all_app xs ys b : feed_all (xs ++ ys) b = feed_all xs b ≫= feed_all ys.
Proof.
  revert b; induction xs as [| [ch e] xs IH]; intros b; [done |]. cbn [feed_all app].
  destruct (cmd_channel_feed ch e b); [apply IH | done].
Qed.

(** Text bytes go to the end of the buffer, up to 127. *)
Lemma feed_text e t b pre : Forall (fun c => 0 <= c < 256 /\ c <> 13 /\ c <> 10) t ->
  (length pre <= CMD_LINE_MAX - 1)%nat -> b_line b = chars pre ->
  feed_all ((fun c => (c, e)) <$> t) b = Some (set_b_line (chars (take (CMD_LINE_MAX - 1) (pre ++ t))) b).
Proof.
  intros Ht. revert pre b; induction Ht as [| c t (Hc & H13 & H10) Ht IH]; intros pre b Hl Hb.
  - rewrite app_nil_r, take_ge by done. rewrite <- Hb. by destruct b.
  - cbn [fmap list_fmap feed_all]. unfold cmd_channel_feed.
    rewrite (proj2 (Z.eqb_neq c 13)), (proj2 (Z.eqb_neq c 10)) by done. cbn [orb].
    assert (El : String.length (b_line b) = length pre).
    { rewrite Hb. clear. induction pre as [| x pre IH]; [done |]. exact (f_equal S IH). }
    rewrite El. destruct (Nat.ltb_spec (length pre) (CMD_LINE_MAX - 1)) as [Hlt | Hge]; cbn [mbind option_bind].
    + rewrite (IH (pre ++ [c])); [| rewrite length_app; cbn [length]; lia | cbn [set_b_line b_line];
        by rewrite Hb, <- chars_app]. by rewrite <- app_assoc.
    + rewrite (IH pre b Hl Hb). f_equal. f_equal. f_equal.
      rewrite !take_app_le by done. done.
Qed.

(** A line end runs the line in the buffer, or does nothing when it is empty. *)
Lemma feed_end t term e b : b_line b = chars t ->
  term = [13] \/ term = [10] \/ term = [13; 10] ->
  feed_all ((fun c => (c, e)) <$> term) b
  = if bool_decide (t = []) then Some b
    else set_b_line EmptyString <$> cmd_dispatch (c_str (chars t)) e b.
Proof.
  intros Hb Hterm.
  assert (H1 : forall ch, ch = 13 \/ ch = 10 -> cmd_channel_feed ch e b
    = if bool_decide (t = []) then Some b
      else set_b_line EmptyString <$> cmd_dispatch (c_str (chars t)) e b).
  { intros ch Hch. unfold cmd_channel_feed.
    replace ((ch =? 13) || (ch =? 10)) with true by (destruct Hch as [-> | ->]; done).
    rewrite Hb. destruct t as [| c t]; [done |]. rewrite bool_decide_eq_false_2 by done.
    cbn [chars String.length Nat.ltb Nat.leb]. by destruct (cmd_dispatch _ _ _). }
  assert (Ht : t = [] \/ t <> []) by (destruct t; [by left | by right]).
  destruct Hterm as [-> | [-> | ->]]; cbn [fmap list_fmap feed_all]; rewrite H1 by tauto;
    destruct Ht as [Ht | Ht]; rewrite ?bool_decide_eq_true_2, ?bool_decide_eq_false_2 by done;
    try (cbn; done); try (by destruct (cmd_dispatch _ _ _)).
  cbn [mbind option_bind feed_all]. rewrite H1 by tauto. by rewrite bool_decide_eq_true_2.
Qed.

Lemma feed_line l b : text_line_ok l -> b_line b = EmptyString ->
  feed_all (line_bytes l) b = run_line l b
  /\ forall b', run_line l b = Some b' -> b_line b' = EmptyString.
Proof.
  intros [Ht He] Hb. unfold line_bytes, run_line. rewrite fmap_app, feed_all_app.
  rewrite (feed_text _ _ b []); [| done | cbn; lia | done]. cbn [mbind option_bind app].
  rewrite (feed_end (take (CMD_LINE_MAX - 1) (tl_text l))) by done.
  assert (Hid : set_b_line EmptyString b = b) by (rewrite <- Hb; by destruct b).
  destruct (tl_text l) as [| c t] eqn:E.
  - rewrite take_nil, !bool_decide_eq_true_2 by done. split; [| by intros b' [= <-]].
    exact (f_equal Some Hid).
  - rewrite !bool_decide_eq_false_2 by done. rewrite dispatch_line.
    set (d := cmd_dispatch _ _ b).
    assert (Ed : set_b_line EmptyString <$> d = d).
    { unfold d. by rewrite <- dispatch_line, Hid. }
    split.
    + rewrite <- Ed at 2. by destruct d.
    + intros b' Eb. rewrite Eb in Ed. cbn in Ed. injection Ed as Ed. by rewrite <- Ed.
Qed.

(** C30. The bytes of any sequence of text lines, each ended by CR, LF or CR LF,
    run exactly the commands in these lines, in order: a line is cut at 127
    bytes and at a NUL, an empty line and the second half of CR LF do nothing,
    and nothing of a line is left for the next one. *)
Theorem line_stream ls b (Hls : Forall text_line_ok ls) (Hb : b_line b = EmptyString) :
  feed_all (ls ≫= line_bytes) b = run_lines ls b.
Proof.
  revert b Hb; induction Hls as [| l ls Hl Hls IH]; intros b Hb; [done |].
  cbn [mbind list_bind run_lines]. rewrite feed_all_app. destruct (feed_line l b Hl Hb) as [-> He].
  destruct (run_line l b) as [b' |]; [| done]. cbn [mbind option_bind]. apply IH. by apply He.
Qed.
End Stream.

(** ** Instances *)

Definition ex_board : board := mk_board ex_sys EmptyString [].
Definition ex_env0 : cmd_env := mk_env 0 0 [] (fun _ y => y).

Lemma reply_framed_witness :
  match cmd_dispatch (H := int_conv_keep) "SOCK OPEN 1 6000" ex_env0 ex_board with
  | Some b' => framed "SOCKOPEN" ex_board b' /\ b_out b' = [line "#BEGIN SOCKOPEN"; line "#END SOCKOPEN OK"]
  | None => False
  end.
Proof.
  assert (Ho : b_out <$> cmd_dispatch (H := int_conv_keep) "SOCK OPEN 1 6000" ex_env0 ex_board
    = Some [line "#BEGIN SOCKOPEN"; line "#END SOCKOPEN OK"]) by (vm_compute; reflexivity).
  destruct (cmd_dispatch _ _ _) as [b' |] eqn:E; [| discriminate Ho].
  split; [exact (reply_framed (H := int_conv_keep) "SOCK OPEN 1 6000" ex_env0 ex_board b' E) |].
  cbn in Ho. by injection Ho.
Defined.

(** Two commands, a CR LF and an empty line between them. *)
Definition ex_lines : list text_line :=
  [ mk_text_line (bytes "NETIF LIST") [13; 10] ex_env0; mk_text_line [] [10] ex_env0;
    mk_text_line (bytes "ARPRESET") [13] ex_env0 ].

Lemma line_stream_witness :
  feed_all (H := int_conv_keep) (ex_lines ≫= line_bytes) ex_board = run_lines (H := int_conv_keep) ex_lines ex_board
  /\ (length <$> (b_out <$> run_lines (H := int_conv_keep) ex_lines ex_board)) = Some 7%nat.
Proof.
  split; [| vm_compute; reflexivity]. apply (line_stream (H := int_conv_keep)); [| reflexivity].
  repeat apply List.Forall_cons; try apply List.Forall_nil;
    (split; [repeat (apply List.Forall_cons; [cbv; repeat split; discriminate |]); apply List.Forall_nil |]).
  - right. by right.
  - right. by left.
  - by left.
Defined.
