(* ===== verification/Terminal.v ===== *)
(** * The terminal menus (src/terminal_interface.c, lines 42 to 1014)

    The menus behind the key [q]: they print, wait for keys and lines and call the
    stack.  A menu is a computation over the board, the buffer [cmd_buf], the
    bytes it waits for and the surroundings of each ping; [None] when the input
    or the surroundings end before it returns.  Bytes that arrive before the
    program waits for one are discarded by the code and are not part of the
    input. *)

From S2P Require Import Prelude NetTypes IpAddr Pbuf Chksum Net Chain Memp Etharp Netif Lwiplib Udp Ip UdpSend UdpSource NetManager AliasFilter Icmp Tcp Raw Ping Locator Input Text LineEdit Command.

Definition CMD_BUFFER_SIZE : nat := 32.
Definition PING_ATTEMPT_COUNT : Z := 4.
Definition TERM_CTRLC : Z := 3.

(** What happens around a ping: its counters and interrupts, and for the pause
    after it the counter at its start and, per turn of the loop, its reading,
    the byte received, if any, and the interrupts. *)
Record ping_env := mk_ping_env {
  g_cmd : cmd_env;
  g_start : Z;
  g_trace : list (Z * option Z * (sys -> sys))
}.

(** [tm_keys i] is what the interrupts do while the program waits for keys, the
    wait that leaves [i] bytes of the input; [tm_wait] the same for the pauses of
    [scan_network]. *)
Record term := mk_term {
  tm_board : board;
  tm_buf : list Z;
  tm_in : list Z;
  tm_keys : nat -> sys -> sys;
  tm_pings : list ping_env;
  tm_wait : nat -> sys -> sys
}.
Definition set_board b tm := mk_term b (tm_buf tm) (tm_in tm) (tm_keys tm) (tm_pings tm) (tm_wait tm).

(** ** Computations *)

Definition T (A : Type) : Type := term -> option (A * term).
#[export] Instance T_ret : MRet T := fun A a tm => Some (a, tm).
#[export] Instance T_bind : MBind T := fun A B k m tm =>
  match m tm with Some (a, tm) => k a tm | None => None end.

Definition reads {A} (f : board -> A) : T A := fun tm => Some (f (tm_board tm), tm).
Definition acts (f : board -> board) : T unit := fun tm => Some (tt, set_board (f (tm_board tm)) tm).
Definition sends (s : string) : T unit := acts (cmd_out s).
Definition send_all (ls : list string) : T unit := acts (out_lines ls).

(** A call of the stack. *)
Definition calls {A} (f : sys -> A * sys) : T A := fun tm =>
  let '(a, y) := f (b_sys (tm_board tm)) in Some (a, set_board (set_b_sys y (tm_board tm)) tm).

(** The rest of the input after a wait for keys, and the interrupts meanwhile. *)
Definition waited (inp : list Z) (tm : term) : term :=
  let b := tm_board tm in
  mk_term (set_b_sys (tm_keys tm (length inp) (b_sys b)) b) (tm_buf tm) inp (tm_keys tm) (tm_pings tm) (tm_wait tm).

(** [read_choice_char]. *)
Definition read_choice_char : T Z := fun tm =>
  match tm_in tm with [] => None | c :: inp => Some (c, waited inp tm) end.

(** [fetch_input(cmd_buf, CMD_BUFFER_SIZE)], and the string in [cmd_buf]. *)
Definition fetch_line : T string := fun tm =>
  match fetch_input CMD_BUFFER_SIZE (tm_buf tm) (tm_in tm) with
  | None => None
  | Some (buf, echo, inp) =>
      let tm := mk_term (out_lines (map chars echo) (tm_board tm)) buf inp (tm_keys tm) (tm_pings tm) (tm_wait tm) in
      Some (c_str (chars buf), waited inp tm)
  end.

(** ** Text *)

Definition LF : string := chars [10].
Definition line2 (s : string) : string := (s +:+ CRLF +:+ LF)%string.
Definition Spacer : string := line2 "*--------------------------------------*".
Definition ip_text (a : Z) : string := ipaddr_ntoa a.

(** [%d] for an [int]. *)
Definition sdec (z : Z) : string := if z <? 0 then ("-" +:+ dec (- z))%string else dec z.

(** [strstr(s, p) != NULL]; [strchr] as the text before and after the character. *)
Fixpoint has_sub (p s : string) : bool :=
  match after_prefix p s with
  | Some _ => true
  | None => match s with String _ t => has_sub p t | EmptyString => false end
  end.
Fixpoint split_at (c : Z) (s : string) : option (string * string) :=
  match s with
  | EmptyString => None
  | String a t =>
      if code a =? c then Some (EmptyString, t)
      else match split_at c t with Some (x, y) => Some (String a x, y) | None => None end
  end.

(** ** Listing and choosing an interface *)

Definition socket_line (j port : Z) : string := line (dec j +:+ ".socket(local_port): " +:+ dec port).

(** What is printed for the [i]-th interface. *)
Definition term_netif_lines (i : Z) (np : netif_ptr) (s : net) (us : usrc) : list string :=
  let n := netif_of s np in
  [ line (dec i +:+ ".netif"); line ("IP:      " +:+ ip_text (nif_ip_addr n));
    line ("Netmask: " +:+ ip_text (nif_netmask n)); line ("GW:      " +:+ ip_text (nif_gw n));
    chars [13]; chars [10]; line "Active Sockets:" ]
  ++ (if negb (udp_source_count_sockets (Some np) us =? 0) then
        omap (fun j =>
          let sock := udp_source_get_socket (Some np) (Z.of_nat j - 1) us in
          if negb (UDP_SOCK_ID_INVALID =? si_socket_id sock)
          then Some (socket_line (Z.of_nat j) (si_local_port sock)) else None)
          (seq 1 UDP_MAX_LISTENERS)
      else [line2 "No socket is present"])
  ++ [Spacer].
Fixpoint term_list_lines (i : Z) (l : list netif_ptr) (s : net) (us : usrc) : list string :=
  match l with
  | [] => []
  | np :: l => term_netif_lines i np s us ++ term_list_lines (u8 (i + 1)) l s us
  end.

(** [terminal_list_netif]. *)
Definition terminal_list_netif : T unit :=
  acts (fun b => out_lines (term_list_lines 1 (netifs (b_net b)) (b_net b) (b_us b)) b).

(** The walk of [terminal_select_netif]; [idx] is a [uint32_t]. *)
Fixpoint select_walk (idx : Z) (l : list netif_ptr) : option netif_ptr :=
  match l with
  | [] => None
  | n :: l => if 0 <? idx then select_walk (u32 (idx - 1)) l else Some n
  end.
Definition terminal_select_netif : T (option netif_ptr) :=
  terminal_list_netif ;;
  ch ← read_choice_char;
  l ← reads (fun b => netifs (b_net b));
  match select_walk (u32 (u32 (ch - 48) - 1)) l with
  | None => sends (line "Invalid selection... Exiting") ;; mret None
  | Some n => mret (Some n)
  end.

(** ** Pings *)

(** [ping_send] and [ping_wait_reply] on the program's state. *)
Definition sys_ping_send (n : netif_ptr) (target now : Z) (y : sys) : err_t * sys :=
  let '(err, x, r, s) := ping_send (Some n) (Some target) now (y_ping y) (y_raw y) (y_net y) in
  (err, set_y_net s (set_y_raw r x y)).
Definition wait_reply (e : cmd_env) : T (option ping_result) := fun tm =>
  match ping_wait_reply (e_start e) PING_TIMEOUT_MS (e_trace e) (b_sys (tm_board tm)) with
  | None => None
  | Some (res, y) => Some (res, set_board (set_b_sys y (tm_board tm)) tm)
  end.

(** [wait_or_ctrlc]. *)
Fixpoint ctrlc_loop (start ticks : Z) (trace : list (Z * option Z * (sys -> sys))) (y : sys)
  : option (bool * sys) :=
  match trace with
  | [] => None
  | (frc, key, isr) :: trace =>
      if u32 (frc - start) <? ticks then
        match key with
        | Some c => if c =? TERM_CTRLC then Some (true, y) else ctrlc_loop start ticks trace (isr y)
        | None => ctrlc_loop start ticks trace (isr y)
        end
      else Some (false, y)
  end.
Definition wait_or_ctrlc (ms : Z) (g : ping_env) : T bool := fun tm =>
  match ctrlc_loop (g_start g) (u32 (ms * 9375)) (g_trace g) (b_sys (tm_board tm)) with
  | None => None
  | Some (stop, y) => Some (stop, set_board (set_b_sys y (tm_board tm)) tm)
  end.

(** The counters of [terminal_ping_command]; [sent] and [recv] are [int]s. *)
Record ping_stats := mk_ping_stats {
  ps_sent : Z;
  ps_recv : Z;
  ps_min : Z;
  ps_max : Z;
  ps_sum : Z
}.
Definition stats_init : ping_stats := mk_ping_stats 0 0 4294967295 0 0.
Definition count_sent s := mk_ping_stats (ps_sent s + 1) (ps_recv s) (ps_min s) (ps_max s) (ps_sum s).
Definition count_reply (rtt : Z) (s : ping_stats) : ping_stats :=
  mk_ping_stats (ps_sent s) (ps_recv s + 1) (if rtt <? ps_min s then rtt else ps_min s)
    (if ps_max s <? rtt then rtt else ps_max s) (u32 (ps_sum s + rtt)).

Definition reply_line (time : string) (r : ping_result) : string :=
  line ("Reply from " +:+ ip_text (pr_from r) +:+ ": seq=" +:+ dec (pr_seqno r) +:+ " bytes="
        +:+ dec (pr_data_len r) +:+ " time" +:+ time +:+ " TTL=" +:+ dec (pr_ttl r)).
Definition send_err_line (e : err_t) : string := line ("Ping send err: " +:+ sdec (err_val e)).

(** One turn of the loop of [terminal_ping_command]. *)
Definition ping_turn (n : netif_ptr) (target : Z) (e : cmd_env) (s : ping_stats) : T ping_stats :=
  let s := count_sent s in
  perr ← calls (sys_ping_send n target (e_now e));
  if negb (bool_decide (perr = ERR_OK)) then sends (send_err_line perr) ;; mret s
  else
    res ← wait_reply e;
    match res with
    | Some r =>
        sends (reply_line ("=" +:+ dec (pr_rtt_ms r) +:+ "ms") r) ;; mret (count_reply (pr_rtt_ms r) s)
    | None => sends (line "Request timed out") ;; mret s
    end.

(** The loop; each turn has its own surroundings. *)
Fixpoint ping_turns (continuous : bool) (n : netif_ptr) (target attempt : Z) (gs : list ping_env)
  (s : ping_stats) : T ping_stats :=
  if continuous || (attempt <? PING_ATTEMPT_COUNT) then
    match gs with
    | [] => fun _ => None
    | g :: gs =>
        s ← ping_turn n target (g_cmd g) s;
        if continuous then
          stop ← wait_or_ctrlc 1000 g;
          if stop : bool then mret s else ping_turns continuous n target (attempt + 1) gs s
        else ping_turns continuous n target (attempt + 1) gs s
    end
  else mret s.

Definition ping_loss (s : ping_stats) : Z :=
  if 0 <? ps_sent s then Z.quot ((ps_sent s - ps_recv s) * 100) (ps_sent s) else 0.
Definition stats_lines (tgt : string) (s : ping_stats) : list string :=
  [ (CRLF +:+ "--- " +:+ tgt +:+ " ping statistics ---" +:+ CRLF)%string;
    line (dec (ps_sent s) +:+ " transmitted, " +:+ dec (ps_recv s) +:+ " received, "
          +:+ dec (ping_loss s) +:+ "% packet loss") ]
  ++ if 0 <? ps_recv s then
       [ line ("rtt min/avg/max = " +:+ dec (ps_min s) +:+ "/" +:+ dec (ps_sum s / ps_recv s) +:+ "/"
               +:+ dec (ps_max s) +:+ " ms") ]
     else [].

(** The first [n] bytes of a C string, as [strncpy] copies them. *)
Fixpoint str_take (n : nat) (s : string) : string :=
  match n, s with S n, String a t => String a (str_take n t) | _, _ => EmptyString end.

(** [terminal_ping_command]. *)
Definition terminal_ping_command (arg : string) : T unit :=
  let argbuf := str_take 31 arg in
  let continuous := has_sub "-t" argbuf in
  let argbuf := match split_at 32 argbuf with Some (x, _) => x | None => argbuf end in
  match ipaddr_aton argbuf with
  | None => sends (line "Invalid IP address")
  | Some target =>
      sends (line "Choose netif to send ping from:") ;;
      n ← terminal_select_netif;
      match n with
      | None => mret tt
      | Some n =>
          let tgt := ip_text target in
          sends (if continuous then CRLF +:+ "Pinging " +:+ tgt +:+ " (Ctrl+C to stop):" +:+ CRLF
                 else CRLF +:+ "Pinging " +:+ tgt +:+ ":" +:+ CRLF)%string ;;
          gs ← (fun tm => Some (tm_pings tm, tm));
          s ← ping_turns continuous n target 0 gs stats_init;
          send_all (stats_lines tgt s)
      end
  end.

(** ** The main menu *)

Definition socks_of (n : netif_ptr) (b : board) : Z := udp_source_count_sockets (Some n) (b_us b).
Definition nth_sock (n : netif_ptr) (j : Z) (b : board) : udp_netif_socket_info :=
  udp_source_get_socket (Some n) (u8 j) (b_us b).

(** The loop [for (j = 0; j < udp_source_count_sockets(n); j++)]. *)
Definition sock_choice (n : netif_ptr) (b : board) : list string :=
  map (fun j => socket_line (Z.of_nat j + 1) (si_local_port (nth_sock n (Z.of_nat j) b)))
    (seq 0 (Z.to_nat (socks_of n b))).

Section Menu.
Context `{IntConv}.

Definition bad_key : T unit := send_all ["Invalid Key... Exiting"%string; chars [13]; chars [10]].
Definition echo_choice (ch : Z) : T unit := send_all [chars [ch]; chars [13]; chars [10]].

(** A socket of [n] chosen by its number on a line; [None] after the message. *)
Definition choose_socket (n : netif_ptr) : T (option udp_netif_socket_info) :=
  ls ← reads (sock_choice n);
  send_all ls ;;
  l ← fetch_line;
  let sel := u32 (atoi l) in
  count ← reads (socks_of n);
  if (sel <? 1) || (count <? sel) then sends (line "Invalid Socket. Procedure not completed") ;; mret None
  else
    sock ← reads (nth_sock n (sel - 1));
    mret (Some sock).

(** Option 2: the address fields of an interface and its sockets. *)
Definition menu_ip (n : netif_ptr) : T unit :=
  ip ← reads (fun b => nif_ip_addr (netif_of (b_net b) n));
  sends ("Change IP address(" +:+ ip_text ip +:+ ") to:")%string ;;
  l ← fetch_line;
  match ipaddr_aton l with
  | Some v => acts (fun b => set_b_net (netif_set_ipaddr n v (b_net b)) b)
  | None => mret tt
  end ;;
  acts (fun b => set_b_us (udp_source_netif_ip_changed (Some n) (b_net b) (b_us b)) b).
Definition menu_mask (n : netif_ptr) : T unit :=
  mask ← reads (fun b => nif_netmask (netif_of (b_net b) n));
  sends ("Change NetMask(" +:+ ip_text mask +:+ ") to:")%string ;;
  l ← fetch_line;
  match ipaddr_aton l with
  | Some v => acts (fun b => set_b_net (netif_set_netmask n v (b_net b)) b)
  | None => mret tt
  end.
Definition menu_gw (n : netif_ptr) : T unit :=
  gw ← reads (fun b => nif_gw (netif_of (b_net b) n));
  sends ("Change GW address(" +:+ ip_text gw +:+ ") to:")%string ;;
  l ← fetch_line;
  match ipaddr_aton l with
  | Some v => acts (fun b => set_b_net (netif_set_gw n v (b_net b)) b)
  | None => mret tt
  end.
Definition sys_add_listener (n : netif_ptr) (port : Z) (y : sys) : err_t * sys :=
  let '(err, _, us) := udp_source_add_listener (Some n) port true (y_net y) (y_us y) in
  (err, set_y_us us y).
Definition menu_open : T unit :=
  sends (line2 "Please chose the interface you want to add socket to") ;;
  sends Spacer ;;
  n ← terminal_select_netif;
  match n with
  | None => mret tt
  | Some n =>
      sends (line "Input new socket port:") ;;
      l ← fetch_line;
      err ← calls (sys_add_listener n (u16 (atoi l)));
      if bool_decide (ERR_OK = err)
      then sends (CRLF +:+ "Socket has been succesfully added" +:+ CRLF)%string
      else sends (line "There has been an error while adding the socket")
  end.
Definition menu_close : T unit :=
  sends (line2 "Please chose the interface you want to delete a socket from") ;;
  sends Spacer ;;
  n ← terminal_select_netif;
  match n with
  | None => mret tt
  | Some n =>
      count ← reads (socks_of n);
      if 0 =? count then sends (line "No socket is present. Aborting.")
      else
        sends (line "Select which socket you want to delete:") ;;
        sock ← choose_socket n;
        match sock with
        | None => mret tt
        | Some sock =>
            acts (fun b => set_b_us (udp_source_remove_listener (si_socket_id sock) (b_us b)) b) ;;
            sends (CRLF +:+ "Socket has been succesfully deleted" +:+ CRLF)%string
        end
  end.
Definition menu_configure : T unit :=
  sends (line2 "Please chose the interface you want to edit") ;;
  n ← terminal_select_netif;
  match n with
  | None => mret tt
  | Some n =>
      send_all [line "What do you want to edit?"; line "1. IP Adress"; line "2. NetMask";
        line "3. Default GateWay"; line "4. Open New Socket"; line2 "5. Delete Socket"] ;;
      ch ← read_choice_char;
      echo_choice ch ;;
      if ch =? 49 then menu_ip n
      else if ch =? 50 then menu_mask n
      else if ch =? 51 then menu_gw n
      else if ch =? 52 then menu_open
      else if ch =? 53 then menu_close
      else bad_key
  end.

(** Option 3: adding and deleting an interface. *)
Definition read_addr (prompt : string) : T (option Z) :=
  sends prompt ;;
  l ← fetch_line;
  match ipaddr_aton l with
  | None => sends (line "Invalid value, netif not saved") ;; mret None
  | Some a => mret (Some a)
  end.
Definition on_stack {A} (f : stack -> A * stack) (y : sys) : A * sys :=
  let '(a, st) := f (y_stack y) in (a, set_y_stack st y).
Definition menu_netif_add : T unit :=
  sends (line "Please write the interface you want to add") ;;
  ip ← read_addr "IP Address: ";
  match ip with None => mret tt | Some ip =>
  mask ← read_addr "Netmask Address: ";
  match mask with None => mret tt | Some mask =>
  gw ← read_addr "GW Address: ";
  match gw with None => mret tt | Some gw =>
  err ← calls (on_stack (net_if_add (Some ip) (Some mask) (Some gw)));
  if bool_decide (ERR_OK = err)
  then sends (CRLF +:+ "New netif has been succesfully created" +:+ CRLF)%string
  else mret tt
  end end end.
Definition menu_netif_del : T unit :=
  sends (line2 "Please chose the interface you want to delete") ;;
  n ← terminal_select_netif;
  match n with
  | None => mret tt
  | Some n =>
      err ← calls (on_stack (net_if_remove (Some n)));
      if bool_decide (ERR_OK = err)
      then sends (CRLF +:+ "Netif has been succesfully deleted" +:+ CRLF)%string
      else sends (line "There has been an error while deleting the netif")
  end.
Definition menu_netifs : T unit :=
  send_all [line2 "What do you want to do?"; line "1.Add Netif"; line "2.Delete Netif"] ;;
  ch ← read_choice_char;
  echo_choice ch ;;
  if ch =? 49 then menu_netif_add else if ch =? 50 then menu_netif_del else bad_key.

(** Option 4: a UDP message. *)
Definition sys_data_send (sock : udp_netif_socket_info) (dst port : Z) (data : list Z) (y : sys) : err_t * sys :=
  let '(err, us, s) := udp_source_data_send (si_socket_id sock) (si_netif sock) dst port (Some data)
                         (y_us y) (y_net y) in
  (err, set_y_us us (set_y_net s y)).
Definition send_to (sock : udp_netif_socket_info) : T unit :=
  sends (line2 "Type the receiver IP address and port(192.168.0.1/5000): ") ;;
  l ← fetch_line;
  match split_at 47 l with
  | None => sends (line "Invalid format, expected IP/port")
  | Some (ip_str, port_str) =>
      match ipaddr_aton ip_str with
      | None => sends (line "Invalid IP")
      | Some ip_rx =>
          let port := u16 (atoi port_str) in
          if port =? 0 then sends (line "Invalid Port")
          else
            sends (line "Enter the message: ") ;;
            msg ← fetch_line;
            err ← calls (sys_data_send sock ip_rx port (bytes msg));
            if negb (bool_decide (ERR_OK = err)) then sends (line "Failed to send message")
            else sends (line "Message successfully sent")
      end
  end.
Definition menu_send : T unit :=
  sends (line2 "Select the sender interface:") ;;
  n ← terminal_select_netif;
  match n with
  | None => mret tt
  | Some n =>
      sends (line "Chose the sending port") ;;
      count ← reads (socks_of n);
      if 0 =? count then sends (line "No active ports. Create a UDP socket first. Exiting...")
      else
        sock ← choose_socket n;
        match sock with None => mret tt | Some sock => send_to sock end
  end.

(** Option 5: the loop stops at the first error of [ping_send]. *)
Fixpoint menu_pings (n : netif_ptr) (target : Z) (attempts : nat) (gs : list ping_env) : T unit :=
  match attempts, gs with
  | O, _ => mret tt
  | S _, [] => fun _ => None
  | S k, g :: gs =>
      perr ← calls (sys_ping_send n target (e_now (g_cmd g)));
      if negb (bool_decide (perr = ERR_OK)) then sends (send_err_line perr)
      else
        res ← wait_reply (g_cmd g);
        sends match res with
              | Some r => reply_line (if 0 =? pr_rtt_ms r then "<1ms" else "=" +:+ dec (pr_rtt_ms r) +:+ "ms") r
              | None => line "Request timed out"
              end ;;
        menu_pings n target k gs
  end.
Definition menu_ping : T unit :=
  send_all ["Please chose which netif you want to ping from:"%string; chars [13]; chars [10]] ;;
  n ← terminal_select_netif;
  match n with
  | None => mret tt
  | Some n =>
      ip ← reads (fun b => nif_ip_addr (netif_of (b_net b) n));
      sends ("Ping from " +:+ ip_text ip +:+ " to:")%string ;;
      l ← fetch_line;
      match ipaddr_aton l with
      | None => sends (line "Invalid IP... Exiting")
      | Some target =>
          sends (line ("Pinging " +:+ ip_text target +:+ " from " +:+ ip_text ip +:+ ":")) ;;
          gs ← (fun tm => Some (tm_pings tm, tm));
          menu_pings n target (Z.to_nat PING_ATTEMPT_COUNT) gs
      end
  end.

(** Options 6 and 7. *)
Definition menu_arp_reset : T unit :=
  acts (fun b => set_b_net (fold_left (fun s n => etharp_cleanup_netif n s) (netifs (b_net b)) (b_net b)) b) ;;
  send_all ["ARP Table reset completed"%string; chars [13]; chars [10]].
Definition menu_scan : T unit :=
  sends (line "Select the interface to be used for scanning") ;;
  n ← terminal_select_netif;
  match n with
  | None => mret tt
  | Some n =>
      sends (line "Scanning the network for open interfaces...") ;;
      w ← (fun tm => Some (tm_wait tm, tm));
      r ← calls (fun y => let '(err, hosts, y) := scan_network (Some n) w y in ((err, hosts), y));
      send_all (map host_line (snd r)) ;;
      (if negb (bool_decide (ERR_OK = fst r)) then sends (line "Error while scanning") else mret tt) ;;
      sends (line "Scan Complete")
  end.

Definition main_menu : list string := [
  (CRLF +:+ "Select the option you want to configure:" +:+ CRLF)%string;
  line "1. List Netif's"; line "2. Configure Netif"; line "3. Add/Delete Netif"; line "4. UDP Data Send";
  line "5. Ping an IP address"; line "6. Reset the ARP tables"; line "7. Scan Network";
  chars [13]; chars [10] ].

(** [read_terminal_line] after the line is read. *)
Definition run_choice (l : string) : T unit :=
  match after_prefix "ping " l with
  | Some arg => terminal_ping_command arg
  | None =>
      if chr l =? 0 then mret tt
      else if (chr l <? 48) || (57 <? chr l) then sends (line "Unknown command")
      else
        let sel := atoi l in
        if sel =? 1 then terminal_list_netif
        else if sel =? 2 then menu_configure
        else if sel =? 3 then menu_netifs
        else if sel =? 4 then menu_send
        else if sel =? 5 then menu_ping
        else if sel =? 6 then menu_arp_reset
        else if sel =? 7 then menu_scan
        else bad_key
  end.
Definition read_terminal_line : T unit :=
  send_all main_menu ;;
  l ← fetch_line;
  run_choice l.
End Menu.

(** ** Counting pings *)

(** The outcome of one turn: an error of [ping_send], a reply, or none. *)
Definition turn : Type := err_t + option ping_result.
Definition turn_line (t : turn) : string :=
  match t with
  | inl e => send_err_line e
  | inr (Some r) => reply_line ("=" +:+ dec (pr_rtt_ms r) +:+ "ms") r
  | inr None => line "Request timed out"
  end.
Definition turn_rtt (t : turn) : option Z :=
  match t with inr (Some r) => Some (pr_rtt_ms r) | _ => None end.
Definition count_turn (s : ping_stats) (t : turn) : ping_stats :=
  match turn_rtt t with Some r => count_reply r (count_sent s) | None => count_sent s end.
Definition stats_of (ts : list turn) : ping_stats := fold_left count_turn ts stats_init.
Definition zsum (l : list Z) : Z := fold_right Z.add 0 l.

(** The longest time [ping_recv] computes from the 32-bit counter. *)
Definition RTT_MAX : Z := 4294967295 / PING_RTI_TICKS_PER_MS.
Definition rtt_ok (y : sys) : Prop := 0 <= pr_rtt_ms (s_result (y_ping y)) <= RTT_MAX.
Definition rtt_keeps (f : sys -> sys) : Prop := forall y, rtt_ok y -> rtt_ok (f y).
Definition rtt_env (g : ping_env) : Prop :=
  Forall (fun t => rtt_keeps (snd t)) (e_trace (g_cmd g)) /\ Forall (fun t => rtt_keeps (snd t)) (g_trace g).

(** Surroundings in which the interrupts receive frames. *)
Definition env_isr (g : ping_env) : Prop :=
  Forall (fun t => is_isr (snd t)) (e_trace (g_cmd g)) /\ Forall (fun t => is_isr (snd t)) (g_trace g).

Lemma ping_recv_rtt now p addr st : 0 <= pr_rtt_ms (s_result st) <= RTT_MAX ->
  0 <= pr_rtt_ms (s_result (snd (ping_recv now p addr st))) <= RTT_MAX.
Proof.
  intros H. unfold ping_recv. destruct (_ || _); [done |]. cbn zeta. destruct (_ <? _); [done |].
  destruct (pbuf_header p _) as [q |]; [| done]. destruct (_ && _); [| done]. cbn.
  pose proof (Z.mod_pos_bound (now - s_send_tick st) 4294967296 eq_refl) as Hm. unfold RTT_MAX, u32, PING_RTI_TICKS_PER_MS.
  split; [apply Z.div_pos; lia | apply Z.div_le_mono; lia].
Qed.

Lemma udp_input_ping p inp src dest y : y_ping (udp_input p inp src dest y) = y_ping y.
Proof.
  unfold udp_input. destruct (_ <? _); [done |]. destruct (pbuf_header p _) as [p1 |]; [| done]. cbn zeta.
  destruct (udp_demux _ _ _ _) as [pcb u]. destruct (_ || _); [| done]. destruct (_ && _); [done |].
  destruct (pbuf_header p1 _) as [p2 |]; [| done]. destruct pcb as [pcb |]; [| by destruct (_ && _)].
  unfold udp_callback. destruct (up_recv _); try done.
  by destruct (LocatorReceive _ _ _ _ _ _ _) as [[d u1] s].
Qed.

Lemma ip_dispatch_rtt now d p inp src dest y : rtt_ok y -> rtt_ok (ip_dispatch now d p inp src dest y).
Proof.
  intros Hy. unfold ip_dispatch.
  match goal with |- context [raw_input ?call p ?proto src dest ?r ?x] =>
    pose proof (raw_input_keeps call (fun st : ping_st => 0 <= pr_rtt_ms (s_result st) <= RTT_MAX) p proto src dest r x) as H;
    destruct (raw_input call p proto src dest r x) as [[[eaten q] r1] x1] end.
  cbn [snd] in H. assert (H1 : rtt_ok (set_y_raw r1 x1 y)).
  { apply H; [| exact Hy]. intros [] ? ? ? ?; [done | by apply ping_recv_rtt]. }
  clear H. destruct eaten; [exact H1 |].
  destruct (_ =? IP_PROTO_UDP); [unfold rtt_ok; by rewrite udp_input_ping |].
  destruct (_ =? IP_PROTO_TCP); [exact H1 |]. destruct (_ =? IP_PROTO_ICMP); [exact H1 |].
  destruct (_ && _); exact H1.
Qed.

Lemma ethernet_input_rtt now p np y : rtt_ok y -> rtt_ok (ethernet_input now p np y).
Proof.
  intros Hy. unfold ethernet_input. destruct (_ <=? _); [done |].
  destruct (netif_alias_route_filter _ _ _ _) as [q |]; [| done]. cbn zeta.
  destruct (_ =? ETHTYPE_IP).
  - destruct (negb _); [done |]. destruct (pbuf_header _ _) as [r |]; [| done]. unfold ip_input.
    repeat (match goal with |- context [if ?b then _ else _] => destruct b end; try done); by apply ip_dispatch_rtt.
  - destruct (_ =? ETHTYPE_ARP); [| done]. by destruct (negb _).
Qed.

Lemma isr_rtt f : is_isr f -> rtt_keeps f.
Proof.
  intros [fs Hf] y Hy. rewrite Hf. unfold receive_all. apply fold_left_ind; [done |].
  intros z g _ Hz. by apply ethernet_input_rtt.
Qed.

Lemma env_isr_rtt g : env_isr g -> rtt_env g.
Proof. intros [H1 H2]. split; (eapply Forall_impl; [eassumption |]; intros x; apply isr_rtt). Qed.

Lemma stats_of_snoc ts t : stats_of (ts ++ [t]) = count_turn (stats_of ts) t.
Proof. unfold stats_of. by rewrite fold_left_app. Qed.

Lemma count_turn_sent s t : ps_sent (count_turn s t) = ps_sent s + 1.
Proof. unfold count_turn. by destruct (turn_rtt t). Qed.

Lemma omap_snoc (ts : list turn) t :
  omap turn_rtt (ts ++ [t]) = omap turn_rtt ts ++ match turn_rtt t with Some r => [r] | None => [] end.
Proof. rewrite omap_app. cbn [omap list_omap]. by destruct (turn_rtt t). Qed.

Lemma omap_le (ts : list turn) : (length (omap turn_rtt ts) <= length ts)%nat.
Proof. induction ts as [| t ts IH]; [done |]. cbn. destruct (turn_rtt t); cbn; lia. Qed.

Lemma zsum_app l1 l2 : zsum (l1 ++ l2) = zsum l1 + zsum l2.
Proof. induction l1 as [| x l1 IH]; [done |]. change (x + zsum (l1 ++ l2) = x + zsum l1 + zsum l2). lia. Qed.

Lemma zsum_bounds l lo hi : Forall (fun r => lo <= r <= hi) l -> Zlen l * lo <= zsum l <= Zlen l * hi.
Proof.
  unfold Zlen. induction 1 as [| x l Hx H IH]; [cbn; lia |].
  change (zsum (x :: l)) with (x + zsum l). cbn [length]. lia.
Qed.

(** What the counters hold after any turns. *)
Lemma stats_of_spec ts : let rtts := omap turn_rtt ts in let s := stats_of ts in
  Forall (fun r => 0 <= r <= RTT_MAX) rtts ->
  ps_sent s = Zlen ts /\ ps_recv s = Zlen rtts /\ ps_sum s = u32 (zsum rtts)
  /\ (rtts = [] -> ps_min s = 4294967295 /\ ps_max s = 0)
  /\ Forall (fun r => ps_min s <= r <= ps_max s) rtts
  /\ (rtts <> [] -> ps_min s ∈ rtts /\ (ps_max s ∈ rtts)).
Proof.
  cbn zeta. induction ts as [| t ts IH] using rev_ind; [by repeat split; try apply Forall_nil |].
  rewrite omap_snoc, stats_of_snoc. unfold count_turn. unfold Zlen in *. rewrite length_app.
  destruct (turn_rtt t) as [r |].
  - rewrite length_app. intros [Hr Hx]%Forall_app. apply Forall_cons in Hx as [Hx _].
    destruct (IH Hr) as (E1 & E2 & E3 & E4 & E5 & E6). set (s := stats_of ts) in *.
    set (rtts := omap turn_rtt ts) in *. clearbody s rtts. cbn. change RTT_MAX with 458129 in Hx.
    split; [lia |]. split; [lia |]. split.
    { rewrite E3, zsum_app. change (zsum [r]) with (r + 0). unfold u32. rewrite Zplus_mod_idemp_l. f_equal. lia. }
    split; [by destruct rtts |].
    destruct (decide (rtts = [])) as [-> | Hne].
    + destruct (E4 eq_refl) as [-> ->]. rewrite (proj2 (Z.ltb_lt r 4294967295)) by lia.
      destruct (Z.ltb_spec 0 r); cbn; (split; [apply Forall_singleton; lia | intros _]); [split; left |].
      assert (r = 0) as -> by lia. split; left.
    + destruct (E6 Hne) as [Hm HM]. split; [| intros _; split].
      * apply Forall_app. split; [eapply Forall_impl; [exact E5 |]; cbn; intros a Ha |]; [| apply Forall_singleton];
          destruct (Z.ltb_spec r (ps_min s)), (Z.ltb_spec (ps_max s) r); lia.
      * destruct (r <? ps_min s); apply elem_of_app; [right; left | by left].
      * destruct (ps_max s <? r); apply elem_of_app; [right; left | by left].
  - rewrite app_nil_r. intros Hr. destruct (IH Hr) as (E1 & E2 & E3 & E4). cbn. by split; [lia |].
Qed.

Lemma ping_wait_rtt start ticks trace y r y' : Forall (fun t => rtt_keeps (snd t)) trace -> rtt_ok y ->
  ping_wait_loop start ticks trace y = Some (r, y') ->
  rtt_ok y' /\ forall q, r = Some q -> 0 <= pr_rtt_ms q <= RTT_MAX.
Proof.
  intros Ht. revert y; induction Ht as [| [frc isr] trace Hi Ht IH]; intros y Hy; cbn [ping_wait_loop]; [done |].
  destruct (_ <? _); [destruct (1 =? _) |].
  - intros [= <- <-]. split; [exact Hy |]. intros q [= <-]. exact Hy.
  - apply IH. by apply Hi.
  - intros [= <- <-]. by split.
Qed.

Lemma T_bind_some {A B} (m : T A) (k : A -> T B) tm b tm' : (m ≫= k) tm = Some (b, tm') ->
  exists a tm1, m tm = Some (a, tm1) /\ k a tm1 = Some (b, tm').
Proof. unfold mbind, T_bind. destruct (m tm) as [[a tm1] |]; [by eauto | done]. Qed.

Lemma ping_send_result st np target now r s err st' r' s' :
  ping_send np target now st r s = (err, st', r', s') -> s_result st' = s_result st.
Proof.
  unfold ping_send. destruct np as [np |]; [| by intros [= _ <- _ _]].
  destruct target as [target |]; [| by intros [= _ <- _ _]].
  assert (Hpre : forall (x : bool * ping_st * raw_st), x = match s_ping_pcb st with
    | Some _ => (true, st, r)
    | None => match raw_new IP_PROTO_ICMP r with
      | (Some i, r0) => (true, set_ping_pcb (Some i) st, raw_recv i Raw_ping_recv r0)
      | (None, r0) => (false, st, r0) end end -> s_result (snd (fst x)) = s_result st).
  { intros x ->. destruct (s_ping_pcb st); [done |]. by destruct (raw_new _ r) as [[i |] r0]. }
  destruct (match s_ping_pcb st with Some _ => _ | None => _ end) as [[ok st1] r1].
  specialize (Hpre _ eq_refl). cbn in Hpre. destruct (negb ok); [by intros [= _ <- _ _] |].
  destruct (net_pbuf_alloc _ _ s) as [[p |] s1]; [| by intros [= _ <- _ _]].
  destruct (ip_output_if _ _ _ _ _ _ _ s1) as [e s2]. destruct (negb _); by intros [= _ <- _ _].
Qed.

Lemma sys_ping_send_rtt n target now y e y' : sys_ping_send n target now y = (e, y') -> rtt_ok y -> rtt_ok y'.
Proof.
  unfold sys_ping_send. destruct (ping_send _ _ _ _ _ _) as [[[err x] r] s] eqn:E.
  apply ping_send_result in E. intros [= _ <-]. unfold rtt_ok. cbn. by rewrite E.
Qed.

(** One turn prints the line of its outcome and counts it. *)
Lemma ping_turn_spec n target e s tm s' tm' : rtt_ok (b_sys (tm_board tm)) ->
  Forall (fun t => rtt_keeps (snd t)) (e_trace e) -> ping_turn n target e s tm = Some (s', tm') ->
  exists t, s' = count_turn s t /\ b_out (tm_board tm') = b_out (tm_board tm) ++ [turn_line t]
    /\ rtt_ok (b_sys (tm_board tm')) /\ forall r, turn_rtt t = Some r -> 0 <= r <= RTT_MAX.
Proof.
  intros Hy He. unfold ping_turn. intros (perr & tm1 & E1 & E2)%T_bind_some. unfold calls in E1.
  destruct (sys_ping_send _ _ _ _) as [e1 y1] eqn:Es. injection E1 as <- <-.
  apply sys_ping_send_rtt in Es; [| done]. destruct (negb _).
  { injection E2 as <- <-. by exists (inl e1). }
  apply T_bind_some in E2 as (res & tm2 & E2 & E3). unfold wait_reply, ping_wait_reply in E2.
  destruct (ping_wait_loop _ _ _ _) as [[q y2] |] eqn:Ew; [| done]. injection E2 as <- <-.
  apply ping_wait_rtt in Ew as [Hy2 Hq]; [| done | exact Es].
  destruct q as [q |]; injection E3 as <- <-; [exists (inr (Some q)) | exists (inr None)]; cbn.
  - split_and!; try done. intros r [= <-]. by apply Hq.
  - by split_and!.
Qed.

Lemma ctrlc_rtt start ticks trace y stop y' : Forall (fun t => rtt_keeps (snd t)) trace -> rtt_ok y ->
  ctrlc_loop start ticks trace y = Some (stop, y') ->
  rtt_ok y' /\ (stop = true -> exists frc isr, (frc, Some TERM_CTRLC, isr) ∈ trace).
Proof.
  intros Ht. revert y; induction Ht as [| [[frc k] isr] trace Hi Ht IH]; intros y Hy; cbn [ctrlc_loop]; [done |].
  assert (Hrec : ctrlc_loop start ticks trace (isr y) = Some (stop, y') ->
    rtt_ok y' /\ (stop = true -> exists f i, (f, Some TERM_CTRLC, i) ∈ (frc, k, isr) :: trace)).
  { intros [H1 H2]%IH; [| by apply Hi]. split; [exact H1 |]. intros (f & i & Hin)%H2. exists f, i. by right. }
  destruct (_ <? ticks).
  - destruct k as [c |]; [| exact Hrec]. destruct (Z.eqb_spec c TERM_CTRLC) as [-> |]; [| exact Hrec].
    intros [= <- <-]. split; [done |]. intros _. exists frc, isr. left.
  - intros [= <- <-]. by split.
Qed.

Lemma ping_turns_spec cont n target : forall gs attempt s tm s' tm', rtt_ok (b_sys (tm_board tm)) ->
  Forall rtt_env gs -> ping_turns cont n target attempt gs s tm = Some (s', tm') ->
  exists ts, s' = fold_left count_turn ts s
    /\ b_out (tm_board tm') = b_out (tm_board tm) ++ map turn_line ts
    /\ Forall (fun r => 0 <= r <= RTT_MAX) (omap turn_rtt ts)
    /\ (cont = false -> 0 <= attempt <= 4 -> Zlen ts = 4 - attempt)
    /\ (cont = true -> ts <> [] /\ exists g frc isr, g ∈ gs /\ (frc, Some TERM_CTRLC, isr) ∈ g_trace g).
Proof.
  induction gs as [| g gs IH]; intros attempt s tm s' tm' Hy Hg; cbn [ping_turns];
    (destruct (cont || (attempt <? PING_ATTEMPT_COUNT)) eqn:Ec;
     [| intros [= <- <-]; apply orb_false_iff in Ec as [-> Hlt%Z.ltb_ge]; unfold PING_ATTEMPT_COUNT in Hlt;
        exists []; rewrite app_nil_r; split_and!; done || by constructor || (intros; unfold Zlen; cbn [length]; lia)]); [done |].
  apply Forall_cons in Hg as [[Hg1 Hg2] Hg]. intros (s1 & tm1 & E1 & E2)%T_bind_some.
  apply ping_turn_spec in E1 as (t & -> & Eo & Hy1 & Ht); [| done | done].
  assert (Hone : Forall (fun r => 0 <= r <= RTT_MAX) (omap turn_rtt [t])).
  { cbn. destruct (turn_rtt t); [apply Forall_singleton; by apply Ht | constructor]. }
  assert (Hrec : forall tm2, rtt_ok (b_sys (tm_board tm2)) -> b_out (tm_board tm2) = b_out (tm_board tm1) ->
    ping_turns cont n target (attempt + 1) gs (count_turn s t) tm2 = Some (s', tm') ->
    exists ts, s' = fold_left count_turn ts s
    /\ b_out (tm_board tm') = b_out (tm_board tm) ++ map turn_line ts
    /\ Forall (fun r => 0 <= r <= RTT_MAX) (omap turn_rtt ts)
    /\ (cont = false -> 0 <= attempt <= 4 -> Zlen ts = 4 - attempt)
    /\ (cont = true -> ts <> [] /\ exists g' frc isr, g' ∈ g :: gs /\ (frc, Some TERM_CTRLC, isr) ∈ g_trace g')).
  { intros tm2 Hy2 Eo2 (ts & -> & Eo' & Hr & Hn & Hc)%IH; try done. exists (t :: ts).
    split; [done |]. split; [rewrite Eo', Eo2, Eo, <- app_assoc; done |].
    split; [change (t :: ts) with ([t] ++ ts); rewrite omap_app; by apply Forall_app |]. split.
    - intros Hf Ha. rewrite Hf in *. cbn in Ec. apply Z.ltb_lt in Ec. unfold PING_ATTEMPT_COUNT in Ec.
      specialize (Hn eq_refl ltac:(lia)). unfold Zlen in *. cbn [length]. lia.
    - intros Ht'. destruct (Hc Ht') as (_ & g' & frc & isr & ? & ?). split; [done |].
      exists g', frc, isr. split; [by right | done]. }
  destruct cont; [| exact (Hrec tm1 Hy1 eq_refl E2)].
  apply T_bind_some in E2 as (stop & tm2 & E2 & E3). unfold wait_or_ctrlc in E2.
  destruct (ctrlc_loop _ _ _ _) as [[st y] |] eqn:Ew; [| done]. injection E2 as <- <-.
  apply ctrlc_rtt in Ew as [Hy2 Hstop]; [| done | done]. destruct st.
  - injection E3 as <- <-. exists [t]. destruct (Hstop eq_refl) as (frc & isr & Hin).
    split_and!; try done. split; [done |]. exists g, frc, isr. split; [by left | done].
  - refine (Hrec _ _ _ E3); [exact Hy2 | reflexivity].
Qed.

(** The counters of a ping from the terminal.  Whatever frames arrive, a run
    prints one line per request, and the counters belong to those lines: the
    number of requests (4, or any number until Ctrl+C was received with [-t]),
    the number of replies, the shortest and longest time of a reply, both times
    of replies; the loss is a percentage, 100 exactly when nothing came back; and
    up to 9375 replies the sum has not wrapped and the average printed lies
    between the extremes. *)
Theorem ping_statistics cont n target gs tm s tm'
  (Hy : rtt_ok (b_sys (tm_board tm))) (Hgs : Forall env_isr gs)
  (Hrun : ping_turns cont n target 0 gs stats_init tm = Some (s, tm')) :
  exists ts, b_out (tm_board tm') = b_out (tm_board tm) ++ map turn_line ts
  /\ ps_sent s = Zlen ts /\ ps_recv s = Zlen (omap turn_rtt ts)
  /\ (if cont then exists g frc isr, g ∈ gs /\ (frc, Some TERM_CTRLC, isr) ∈ g_trace g
      else ps_sent s = PING_ATTEMPT_COUNT)
  /\ 1 <= ps_sent s /\ 0 <= ps_recv s <= ps_sent s
  /\ 0 <= ping_loss s <= 100 /\ (ping_loss s = 100 <-> ps_recv s = 0)
  /\ (omap turn_rtt ts <> [] ->
      ps_min s ∈ omap turn_rtt ts /\ ps_max s ∈ omap turn_rtt ts
      /\ Forall (fun r => ps_min s <= r <= ps_max s) (omap turn_rtt ts)
      /\ (ps_recv s <= 9375 ->
          ps_sum s = zsum (omap turn_rtt ts) /\ ps_min s <= ps_sum s / ps_recv s <= ps_max s)).
Proof.
  destruct (ping_turns_spec cont n target gs 0 stats_init tm s tm' Hy) as (ts & -> & Eo & Hr & Hf & Hc);
    [by eapply Forall_impl; [| exact env_isr_rtt] | exact Hrun |].
  fold (stats_of ts). destruct (stats_of_spec ts Hr) as (E1 & E2 & E3 & _ & E5 & E6).
  assert (Hne : 1 <= Zlen ts).
  { destruct cont; [destruct (Hc eq_refl) as [Hne _]; destruct ts; [done | unfold Zlen; cbn; lia] |].
    rewrite (Hf eq_refl) by lia. lia. }
  assert (Hle : 0 <= Zlen (omap turn_rtt ts) <= Zlen ts).
  { unfold Zlen. pose proof (omap_le ts). lia. }
  exists ts. split; [exact Eo |]. split; [exact E1 |]. split; [exact E2 |]. split.
  { destruct cont; [apply Hc; done |]. rewrite E1, Hf by (done || lia). done. }
  split; [lia |]. split; [lia |]. unfold ping_loss. rewrite E1, E2, (proj2 (Z.ltb_lt _ _)) by lia.
  rewrite Z.quot_div_nonneg by lia. split; [split; [apply Z.div_pos; lia | apply Z.div_le_upper_bound; lia] |].
  split.
  { split; [| intros ->; rewrite Z.sub_0_r, Z.mul_comm; apply Z.div_mul; lia].
    intros E. assert (100 * Zlen ts <= (Zlen ts - Zlen (omap turn_rtt ts)) * 100); [| lia].
    rewrite <- E at 1. rewrite Z.mul_comm. apply Z.mul_div_le. lia. }
  intros Hne'. destruct (E6 Hne') as [Hm HM]. split_and!; try done.
  intros Hlim. pose proof (zsum_bounds _ _ _ Hr) as Hs. change RTT_MAX with 458129 in Hs.
  pose proof (zsum_bounds _ _ _ E5) as Hs5.
  assert (0 < Zlen (omap turn_rtt ts)) by (destruct (omap turn_rtt ts); [done | unfold Zlen; cbn; lia]).
  assert (Es : u32 (zsum (omap turn_rtt ts)) = zsum (omap turn_rtt ts)) by (apply u32_small; unfold is_u32; nia).
  rewrite E3, Es. split; [done |].
  split; [apply Z.div_le_lower_bound; lia | apply Z.div_le_upper_bound; lia].
Qed.

(** ** Instances *)

(** 10.0.0.1 answers the first request. *)
Definition ex_echo_reply : pbuf :=
  let m := take 1 [ICMP_ER] ++ drop 1 (ping_request 0 1) in
  flat_pbuf (eth_header [2; 0; 0; 0; 0; 1] [9; 8; 7; 6; 5; 4] ETHTYPE_IP
    ++ ip_header 0 60 7 64 IP_PROTO_ICMP (ip_chksum_inline 0 60 7 64 IP_PROTO_ICMP 0x0a000001 0x0a00000a)
         0x0a000001 0x0a00000a ++ m).
(** The counter is at 0; the reply comes after 3 ms, or nothing does. *)
Definition ex_ping_env (fs : list (Z * pbuf * netif_ptr)) : ping_env :=
  mk_ping_env (mk_env 0 0 [(100, receive_all fs); (30000, fun y => y); (18750000, fun y => y)] (fun _ y => y)) 0 [].
Definition ex_pings : list ping_env :=
  [ex_ping_env [(28125, ex_echo_reply, HdkNetIF 0)]; ex_ping_env []; ex_ping_env []; ex_ping_env []].
Definition ex_term : term := mk_term (mk_board ex_sys EmptyString []) (replicate 32 0) [] (fun _ y => y) ex_pings (fun _ y => y).

Lemma ex_pings_isr : Forall env_isr ex_pings.
Proof.
  assert (H : forall fs, env_isr (ex_ping_env fs)).
  { intros fs. split; [| apply List.Forall_nil]. repeat (apply List.Forall_cons); [by exists fs | by exists [] | by exists [] | apply List.Forall_nil]. }
  repeat (apply List.Forall_cons; [apply H |]). apply List.Forall_nil.
Qed.

#[local] Notation ex_ping_run := (ping_turns false (HdkNetIF 0) 0x0a000001 0 ex_pings stats_init ex_term).

Lemma ping_statistics_witness :
  match ex_ping_run with
  | Some (s, tm') =>
      exists ts, b_out (tm_board tm') = b_out (tm_board ex_term) ++ map turn_line ts
      /\ ps_sent s = Zlen ts /\ ps_recv s = 1 /\ ping_loss s = 75
  | None => False
  end.
Proof.
  assert (Es : match ex_ping_run with Some (s, _) => ps_recv s = 1 /\ ping_loss s = 75 | None => False end)
    by (vm_compute; split; reflexivity).
  destruct ex_ping_run as [[s tm'] |] eqn:E; [| exact Es].
  destruct (ping_statistics false (HdkNetIF 0) 0x0a000001 ex_pings ex_term s tm'
    ltac:(split; vm_compute; congruence) ex_pings_isr E) as (ts & Ho & Hs & _).
  exact (ex_intro _ ts (conj Ho (conj Hs Es))).
Defined.
