(* ===== verification/Main.v ===== *)
(** * Main program (example/hdk/src/lwip_main.c)

    Start-up and one pass of the endless loop: the mailboxes of all sockets are
    printed, then one received byte goes to the menus or to the command channel.
    The banners printed at start-up and the register set-up are left out.  [None]
    stands for following a [NULL] pointer. *)

From S2P Require Import Prelude NetTypes IpAddr Pbuf Chksum Net Chain Memp Etharp Netif Lwiplib Udp Ip UdpSend UdpSource NetManager Icmp Raw Ping Locator Input Text LineEdit Command Terminal.

(** The addresses of [EMAC_LwIP_Main], read as words. *)
Definition ip_ana : Z := 0x0a00000a.
Definition netmask_ana : Z := 0xffffff00.
Definition gateway_ana : Z := 0x0a000001.
Definition KEY_MENU : Z := 113.

(** [EMAC_LwIP_Main] up to its loop; [None] when it returns because of an error, or
    follows a null pointer: with [phy_ok] false [lwIPNetifAdd] adds the interface all
    the same and brings it up, and the gratuitous ARP that is sent then finds no
    descriptor. *)
Definition EMAC_LwIP_Main (macAddress : list Z) (phy_ok : bool) : option sys :=
  let '(r, l) := lwIPCoreInit 0 macAddress lwl_init in
  if 0 =? r then None
  else
    let n0 := l_net l in
    let '(anaIpAddr, l) := lwIPNetifAdd 0 ip_ana netmask_ana gateway_ana true phy_ok l in
    if negb (driver_took phy_ok n0 (l_net l)) then None
    else if 0 =? anaIpAddr then None
    else
      let '(d, u) := LocatorConfig macAddress (bytes "HDK enet_lwip (dual-ip)") udp_init in
      Some (mk_sys (mk_stack l (usrc_init u)) raw_init ping_init d).

(** The start-up gets past the interface exactly when the PHY answered. *)
Lemma EMAC_LwIP_Main_phy mac phy_ok : is_Some (EMAC_LwIP_Main mac phy_ok) <-> phy_ok = true.
Proof.
  destruct phy_ok; [split; [done |] | split; [| done]].
  - intros _. vm_compute. by eexists.
  - intros [y E]. revert E. vm_compute. done.
Qed.

(** What the loop prints for a message. *)
Definition udprx_line (m : udp_rx_msg) (my_ip local_port : Z) : string :=
  CRLF +:+ "#EVT UDPRX " +:+ ipaddr_ntoa (rm_src_ip m) +:+ ":" +:+ dec (rm_src_port m) +:+ " -> "
  +:+ ipaddr_ntoa my_ip +:+ ":" +:+ dec local_port +:+ " " +:+ dec (rm_data_len m) +:+ " bayt" +:+ CRLF.
Definition udprx_lines (m : udp_rx_msg) (my_ip local_port : Z) : list string :=
  udprx_line m my_ip local_port ::
  if 0 <? rm_data_len m then
    let print_len := if 64 <? rm_data_len m then 64 else rm_data_len m in
    ["#EVT Data: "%string; chars (take (Z.to_nat print_len) (rm_data m)); CRLF]
  else [].

(** The body of the inner loop. *)
Definition poll_socket (n : netif_ptr) (j : Z) (b : board) : option board :=
  let socket := udp_source_get_socket (Some n) j (b_us b) in
  let '(r, us) := udp_source_poll_rx (si_socket_id socket) (b_us b) in
  let b := set_b_us us b in
  match r with
  | None => Some b
  | Some m =>
      match si_netif socket with
      | None => None
      | Some q =>
          Some (out_lines (udprx_lines m (nif_ip_addr (netif_of (b_net b) q)) (si_local_port socket)) b)
      end
  end.

(** The inner loop; an interface has at most 16 sockets. *)
Fixpoint poll_netif (fuel : nat) (n : netif_ptr) (j : Z) (b : board) : option board :=
  match fuel with
  | O => Some b
  | S k =>
      if j <? udp_source_count_sockets (Some n) (b_us b)
      then b ← poll_socket n j b; poll_netif k n (u8 (j + 1)) b
      else Some b
  end.

(** The outer loop over [netif_list]. *)
Fixpoint poll_netifs (l : list netif_ptr) (b : board) : option board :=
  match l with
  | [] => Some b
  | n :: l => b ← poll_netif (S UDP_MAX_LISTENERS) n 0 b; poll_netifs l b
  end.
Definition rx_polling (b : board) : option board := poll_netifs (netifs (b_net b)) b.

(** One pass of the loop; [key] is the byte received, if any, and [e] the
    surroundings of a command. *)
Definition main_pass `{IntConv} (key : option Z) (e : cmd_env) (tm : term) : option term :=
  b ← rx_polling (tm_board tm);
  let tm := set_board b tm in
  match key with
  | None => Some tm
  | Some key =>
      if key =? KEY_MENU then snd <$> read_terminal_line tm
      else b ← cmd_channel_feed key e b; Some (set_board b tm)
  end.

(** ** Printing the mailboxes *)

(** A mailbox after [udp_source_poll_rx] took its message. *)
Definition taken (L : udp_listener) : udp_listener :=
  if rm_valid (ul_rx_msg L) =? 0 then L
  else ul_set_rx_count (u32 (ul_rx_count L + 1)) (ul_set_valid 0 L).

(** What is printed for slot [i], on interface [n]. *)
Definition slot_lines (s : net) (us : usrc) (n : netif_ptr) (i : nat) : list string :=
  let L := slot us i in
  if rm_valid (ul_rx_msg L) =? 0 then []
  else udprx_lines (ul_rx_msg L) (nif_ip_addr (netif_of s n))
         (up_local_port (pcb_of (us_udp us) (slot_pcb us i))).
Definition take_all (ks : list nat) (us : usrc) : usrc := fold_left (fun us i => upd_slot i taken us) ks us.

Lemma taken_keeps L : ul_pcb (taken L) = ul_pcb L /\ ul_netif (taken L) = ul_netif L
  /\ ul_in_use (taken L) = ul_in_use L /\ ul_generation_count (taken L) = ul_generation_count L.
Proof. unfold taken. by destruct (_ =? 0). Qed.

Lemma taken_on np L : on_netif np (taken L) = on_netif np L.
Proof. unfold on_netif. by destruct (taken_keeps L) as (_ & -> & -> & _). Qed.

Lemma upd_slot_same us i f : f (slot us i) = slot us i -> upd_slot i f us = us.
Proof.
  intros E. unfold upd_slot. rewrite E. destruct us as [u ls]. unfold slot. cbn [us_udp s_listeners]. f_equal.
  rewrite nth_lookup. destruct (ls !! i) as [L |] eqn:EL; [by apply list_insert_id |].
  apply list_insert_ge. by apply lookup_ge_None.
Qed.

Lemma taken_inv used l us i : us_inv used l us -> (i < UDP_MAX_LISTENERS)%nat ->
  us_inv used l (upd_slot i taken us).
Proof.
  intros Hinv Hi. destruct (ui_slot _ _ _ Hinv i Hi) as [_ V D _].
  apply us_inv_upd; [done | done | apply taken_keeps | |]; unfold taken; destruct (Z.eqb_spec (rm_valid (ul_rx_msg (slot us i))) 0); auto.
Qed.

Lemma poll_socket_spec used l b n j i :
  us_inv used l (b_us b) -> slots_on n 0 (s_listeners (b_us b)) !! j = Some i ->
  poll_socket n (Z.of_nat j) b
  = Some (out_lines (slot_lines (b_net b) (b_us b) n i) (set_b_us (upd_slot i taken (b_us b)) b)).
Proof.
  intros Hinv Hj. pose proof (ui_len _ _ _ Hinv) as Hl.
  assert (Hlt : (j < 16)%nat).
  { apply lookup_lt_Some in Hj. pose proof (slots_on_length n 0 (s_listeners (b_us b))).
    unfold UDP_MAX_LISTENERS in *. lia. }
  destruct (proj1 (slots_on_slot (b_us b) n i Hl) (list_elem_of_lookup_2 _ _ _ Hj)) as [Hi Ho].
  pose proof (proj1 (on_netif_spec _ _) Ho) as [Hn Hu].
  unfold poll_socket, udp_source_get_socket.
  rewrite nth_on_lookup, Nat2Z.id, Hj by (unfold is_u8; rewrite ?Hl; lia). cbn [si_socket_id si_netif si_local_port].
  assert (Hr : resolve (make_id i (b_us b)) (b_us b) = Some i).
  { destruct (ui_slot _ _ _ Hinv i Hi) as [G _ _ _]. apply (resolve_iff _ _ _ _ _ Hinv); [| done].
    rewrite make_id_val by done. unfold is_u8, is_u16, UDP_MAX_LISTENERS in *. lia. }
  unfold udp_source_poll_rx. rewrite Hr. unfold slot_lines.
  destruct (rm_valid (ul_rx_msg (slot (b_us b) i)) =? 0) eqn:Ev.
  - rewrite upd_slot_same by (unfold taken; by rewrite Ev). done.
  - assert (Et : upd_slot i taken (b_us b) = upd_slot i (fun l => ul_set_rx_count (u32 (ul_rx_count l + 1))
      (ul_set_valid 0 l)) (b_us b)) by (unfold upd_slot, taken; by rewrite Ev). by rewrite Et.
Qed.

Lemma take_all_inv used l ks us : us_inv used l us -> Forall (fun i => (i < UDP_MAX_LISTENERS)%nat) ks ->
  us_inv used l (take_all ks us).
Proof.
  intros Hinv Hks. revert us Hinv; induction Hks as [| k ks Hk Hks IH]; intros us Hinv; [done |].
  apply IH. by apply taken_inv.
Qed.

Lemma take_all_udp ks us : us_udp (take_all ks us) = us_udp us.
Proof. revert us; induction ks as [| k ks IH]; intros us; [done |]. exact (IH (upd_slot k taken us)). Qed.

Lemma take_all_length ks us : length (s_listeners (take_all ks us)) = length (s_listeners us).
Proof.
  revert us; induction ks as [| k ks IH]; intros us; [done |].
  etransitivity; [exact (IH (upd_slot k taken us)) | apply upd_slot_length].
Qed.

Lemma taken_taken L : taken (taken L) = taken L.
Proof. unfold taken at 2. destruct (rm_valid (ul_rx_msg L) =? 0) eqn:E; [done |]. unfold taken. by rewrite E. Qed.

Lemma take_all_slot ks us i : length (s_listeners us) = UDP_MAX_LISTENERS ->
  Forall (fun i => (i < UDP_MAX_LISTENERS)%nat) ks ->
  slot (take_all ks us) i = if bool_decide (i ∈ ks) then taken (slot us i) else slot us i.
Proof.
  intros Hl Hks. revert us Hl; induction Hks as [| k ks Hk Hks IH]; intros us Hl; [done |].
  change (take_all (k :: ks) us) with (take_all ks (upd_slot k taken us)).
  rewrite IH by (by rewrite upd_slot_length). rewrite slot_upd by done.
  destruct (decide (k = i)) as [<- | Hki].
  - rewrite (bool_decide_true (k ∈ k :: ks)) by left. case_bool_decide; [apply taken_taken | done].
  - rewrite (bool_decide_ext (i ∈ k :: ks) (i ∈ ks)); [done |].
    rewrite elem_of_cons. split; [intros [-> | ?]; done | by right].
Qed.

Lemma take_all_on ks us n i : length (s_listeners us) = UDP_MAX_LISTENERS ->
  Forall (fun i => (i < UDP_MAX_LISTENERS)%nat) ks ->
  on_netif n (slot (take_all ks us) i) = on_netif n (slot us i).
Proof. intros Hl Hks. rewrite take_all_slot by done. case_bool_decide; [apply taken_on | done]. Qed.

Lemma take_all_slots_on ks us n : length (s_listeners us) = UDP_MAX_LISTENERS ->
  Forall (fun i => (i < UDP_MAX_LISTENERS)%nat) ks ->
  slots_on n 0 (s_listeners (take_all ks us)) = slots_on n 0 (s_listeners us).
Proof.
  intros Hl Hks. apply slots_on_ext; [by rewrite take_all_length |]. intros i L L' HL HL'.
  rewrite <- (slot_lookup _ _ _ HL), <- (slot_lookup _ _ _ HL'). by apply take_all_on.
Qed.

(** Taking other mailboxes does not change what a slot prints. *)
Lemma slot_lines_take s ks us n i : length (s_listeners us) = UDP_MAX_LISTENERS ->
  Forall (fun i => (i < UDP_MAX_LISTENERS)%nat) ks -> i ∉ ks ->
  slot_lines s (take_all ks us) n i = slot_lines s us n i.
Proof.
  intros Hl Hks Hi. unfold slot_lines, slot_pcb. rewrite take_all_slot, take_all_udp by done.
  by rewrite bool_decide_false.
Qed.

Lemma slots_on_NoDup np k ls : NoDup (slots_on np k ls).
Proof.
  revert k; induction ls as [| L ls IH]; intros k; cbn [slots_on]; [apply NoDup_nil_2 |].
  destruct (on_netif np L); [| apply IH]. apply NoDup_cons. split; [| apply IH].
  intros (j & L' & E & _)%slots_on_elem. lia.
Qed.

Lemma slots_on_lt us n : length (s_listeners us) = UDP_MAX_LISTENERS ->
  Forall (fun i => (i < UDP_MAX_LISTENERS)%nat) (slots_on n 0 (s_listeners us)).
Proof. intros Hl. apply Forall_forall. intros i Hi. by apply slots_on_slot in Hi as [? _]. Qed.

Lemma out_lines_app l1 l2 b : out_lines (l1 ++ l2) b = out_lines l2 (out_lines l1 b).
Proof. apply fold_left_app. Qed.

Lemma out_lines_us ls us b : set_b_us us (out_lines ls b) = out_lines ls (set_b_us us b).
Proof. revert b; induction ls as [| l ls IH]; intros b; [done |]. exact (IH (cmd_out l b)). Qed.

Lemma out_lines_sys ls b : b_sys (out_lines ls b) = b_sys b.
Proof. revert b; induction ls as [| l ls IH]; intros b; [done |]. exact (IH (cmd_out l b)). Qed.

Lemma poll_netif_spec used l n : forall ks fuel j b,
  us_inv used l (b_us b) -> (length ks < fuel)%nat ->
  (exists pre, slots_on n 0 (s_listeners (b_us b)) = pre ++ ks /\ length pre = j) ->
  poll_netif fuel n (Z.of_nat j) b
  = Some (out_lines (ks ≫= slot_lines (b_net b) (b_us b) n) (set_b_us (take_all ks (b_us b)) b)).
Proof.
  induction ks as [| i ks IH]; intros [| fuel] j b Hinv Hf (pre & E & Hj); cbn [length] in Hf; try lia;
    cbn [poll_netif]; pose proof (ui_len _ _ _ Hinv) as Hl; rewrite count_slots, E, length_app by done; cbn [length].
  - rewrite (proj2 (Z.ltb_ge _ _)) by lia. destruct b as [[[lw us] r x d] ln o]. done.
  - rewrite (proj2 (Z.ltb_lt _ _)) by lia.
    assert (Ej : slots_on n 0 (s_listeners (b_us b)) !! j = Some i).
    { rewrite E, lookup_app_r by lia. by rewrite Hj, Nat.sub_diag. }
    assert (Hlen : (S (length pre + length ks) <= 16)%nat).
    { pose proof (slots_on_length n 0 (s_listeners (b_us b))) as H. rewrite E, length_app in H. cbn [length] in H.
      unfold UDP_MAX_LISTENERS in *. lia. }
    rewrite (poll_socket_spec used l b n j i) by done. cbn [mbind option_bind].
    pose proof (slots_on_lt (b_us b) n Hl) as Hlt. rewrite E in Hlt. apply Forall_app in Hlt as [_ Hlt].
    apply Forall_cons in Hlt as [Hi Hks].
    pose proof (slots_on_NoDup n 0 (s_listeners (b_us b))) as Hnd. rewrite E in Hnd.
    apply NoDup_app in Hnd as (_ & _ & Hnd). apply NoDup_cons in Hnd as [Hni _].
    set (b1 := out_lines _ _).
    assert (Es : b_sys b1 = b_sys (set_b_us (upd_slot i taken (b_us b)) b)) by apply out_lines_sys.
    assert (Eu : b_us b1 = take_all [i] (b_us b)) by (unfold b_us at 1; rewrite Es; done).
    assert (En : b_net b1 = b_net b) by (unfold b_net; rewrite Es; done).
    replace (u8 (Z.of_nat j + 1)) with (Z.of_nat (S j)) by (rewrite u8_small by (unfold is_u8; lia); lia).
    assert (H1 : Forall (fun i => (i < UDP_MAX_LISTENERS)%nat) [i]) by (by apply List.Forall_cons).
    rewrite IH; [| rewrite Eu; by apply take_all_inv | lia |].
    2: { exists (pre ++ [i]). rewrite Eu, take_all_slots_on, E, <- app_assoc, length_app by done. cbn. split; [done | lia]. }
    f_equal. cbn [mbind list_bind]. rewrite out_lines_app, Eu, En. unfold b1. rewrite out_lines_us. f_equal.
    assert (Ek : forall ks', (forall k, k ∈ ks' -> k <> i) ->
       ks' ≫= slot_lines (b_net b) (take_all [i] (b_us b)) n = ks' ≫= slot_lines (b_net b) (b_us b) n).
    { induction ks' as [| k ks' IHk]; intros Hk; [done |]. cbn [mbind list_bind]. rewrite IHk by (intros; apply Hk; by right).
      rewrite slot_lines_take; [done | done | done |]. intros ->%list_elem_of_singleton. by apply (Hk i); [left |]. }
    rewrite Ek by (intros k Hk ->; done). done.
Qed.

(** What one pass prints, in the order of the interfaces and their slots. *)
Definition netif_slots (us : usrc) (n : netif_ptr) : list nat := slots_on n 0 (s_listeners us).
Definition rx_lines (s : net) (us : usrc) (L : list netif_ptr) : list string :=
  L ≫= fun n => netif_slots us n ≫= slot_lines s us n.

Lemma take_all_app ks1 ks2 us : take_all (ks1 ++ ks2) us = take_all ks2 (take_all ks1 us).
Proof. apply fold_left_app. Qed.

Lemma bind_ext {A B} (f g : A -> list B) l : (forall x, x ∈ l -> f x = g x) -> l ≫= f = l ≫= g.
Proof.
  induction l as [| x l IH]; intros H; [done |]. cbn [mbind list_bind]. rewrite H by left.
  rewrite IH; [done |]. intros y Hy. apply H. by right.
Qed.

Lemma poll_netifs_spec used l : forall L b, us_inv used l (b_us b) -> NoDup L ->
  poll_netifs L b
  = Some (out_lines (rx_lines (b_net b) (b_us b) L)
            (set_b_us (take_all (L ≫= netif_slots (b_us b)) (b_us b)) b)).
Proof.
  induction L as [| n L IH]; intros b Hinv HL.
  { cbn. destruct b as [[[lw us] r x d] ln o]. done. }
  apply NoDup_cons in HL as [Hn HL]. pose proof (ui_len _ _ _ Hinv) as Hl.
  pose proof (slots_on_lt (b_us b) n Hl) as Hlt. cbn [poll_netifs].
  rewrite (poll_netif_spec used l n (netif_slots (b_us b) n) _ 0 b Hinv);
    [| pose proof (slots_on_length n 0 (s_listeners (b_us b))); unfold netif_slots; lia | by exists []].
  cbn [mbind option_bind]. set (us1 := take_all (netif_slots (b_us b) n) (b_us b)).
  set (b1 := out_lines _ _). assert (Es : b_sys b1 = b_sys (set_b_us us1 b)) by apply out_lines_sys.
  assert (Eu : b_us b1 = us1) by (unfold b_us at 1; by rewrite Es).
  assert (En : b_net b1 = b_net b) by (unfold b_net; by rewrite Es).
  rewrite IH by (rewrite ?Eu; done || by apply take_all_inv). rewrite Eu, En. unfold b1.
  rewrite out_lines_us, <- out_lines_app.
  assert (Esl : L ≫= netif_slots us1 = L ≫= netif_slots (b_us b)).
  { apply bind_ext. intros m _. by apply take_all_slots_on. }
  rewrite Esl. cbn [mbind list_bind]. rewrite take_all_app. fold us1.
  assert (Er : rx_lines (b_net b) us1 L = rx_lines (b_net b) (b_us b) L).
  { apply bind_ext. intros m Hm. 
    assert (Em : netif_slots us1 m = netif_slots (b_us b) m) by (by apply take_all_slots_on). rewrite Em.
    apply bind_ext. intros i Hi. apply slot_lines_take; [done | done |]. intros Hi'.
    apply slots_on_slot in Hi as [_ Ho%on_netif_spec]; [| done].
    apply slots_on_slot in Hi' as [_ Ho'%on_netif_spec]; [| done].
    destruct Ho as [E1 _], Ho' as [E2 _]. congruence. }
  by rewrite Er.
Qed.

Lemma out_lines_b_line ls b : b_line (out_lines ls b) = b_line b.
Proof. revert b; induction ls as [| l ls IH]; intros b; [done |]. exact (IH (cmd_out l b)). Qed.

(** Empty mailboxes print nothing and stay. *)
Lemma take_all_same ks us : Forall (fun i => taken (slot us i) = slot us i) ks -> take_all ks us = us.
Proof.
  induction 1 as [| i ks Hi Hks IH]; [done |].
  change (take_all (i :: ks) us) with (take_all ks (upd_slot i taken us)). by rewrite upd_slot_same.
Qed.

Lemma taken_empty L : taken L = L -> rm_valid (ul_rx_msg L) = 0.
Proof.
  unfold taken. destruct (Z.eqb_spec (rm_valid (ul_rx_msg L)) 0) as [| H]; [done |]. intros E. exfalso. apply H.
  rewrite <- E. done.
Qed.

Lemma quiet_lines s us L : Forall (fun i => taken (slot us i) = slot us i) (L ≫= netif_slots us) ->
  rx_lines s us L = [].
Proof.
  intros H. unfold rx_lines. assert (Hi : forall n i, n ∈ L -> i ∈ netif_slots us n -> slot_lines s us n i = []).
  { intros n i Hn Hi. unfold slot_lines. rewrite Forall_forall in H. rewrite (taken_empty (slot us i)); [done |].
    apply H, list_elem_of_bind. eauto. }
  clear H. induction L as [| n L IH]; [done |]. cbn [mbind list_bind].
  rewrite IH, app_nil_r by (intros; apply Hi; [by right | done]).
  assert (Hn : forall i, i ∈ netif_slots us n -> slot_lines s us n i = []) by (intros; apply Hi; [by left | done]).
  induction (netif_slots us n) as [| k ks IHk]; [done |]. cbn [mbind list_bind].
  rewrite (Hn k), IHk; [done | intros; apply Hn; by right | by left].
Qed.

(** One pass over the mailboxes: every message waiting at an open socket is
    printed exactly once, interface by interface in list order and slot by
    slot, with its sender, the interface's address, the socket's port, its
    length and at most 64 bytes of data; afterwards every mailbox is empty with
    its counter stepped, and nothing else has changed.  The pass never follows a
    [NULL] pointer, and a second pass prints nothing. *)
Theorem rx_polling_prints L b
  (Hnet : net_list (b_net b) L) (Hus : us_valid (b_us b)) (Hsocks : socks_on L (b_us b)) :
  exists b', rx_polling b = Some b'
  /\ b_out b' = b_out b ++ (L ≫= fun n => netif_slots (b_us b) n ≫= slot_lines (b_net b) (b_us b) n)
  /\ b_sys b' = set_y_us (b_us b') (b_sys b) /\ b_line b' = b_line b
  /\ us_udp (b_us b') = us_udp (b_us b)
  /\ (forall i, (i < UDP_MAX_LISTENERS)%nat -> slot (b_us b') i
       = let s := slot (b_us b) i in
         if (ul_in_use s =? 1) && negb (rm_valid (ul_rx_msg s) =? 0)
         then ul_set_rx_count (u32 (ul_rx_count s + 1)) (ul_set_valid 0 s) else s)
  /\ rx_polling b' = Some b'.
Proof.
  destruct Hus as (used & l & Hinv). pose proof (ui_len _ _ _ Hinv) as Hl.
  pose proof (net_list_netifs _ _ Hnet) as EL.
  set (ks := L ≫= netif_slots (b_us b)). set (us' := take_all ks (b_us b)).
  assert (Hks : forall i, i ∈ ks <-> (i < UDP_MAX_LISTENERS)%nat /\ ul_in_use (slot (b_us b) i) = 1).
  { intros i. unfold ks. rewrite list_elem_of_bind. split.
    - intros (n & Hi & _). apply slots_on_slot in Hi as [Hi [_ Ho]%on_netif_spec]; done.
    - intros [Hi Hu]. destruct (ui_slot _ _ _ Hinv i Hi) as [_ _ _ [[? _] | (_ & p & n & _ & Hn & _)]]; [lia |].
      assert (Ho : on_netif n (slot (b_us b) i) = true) by (by apply on_netif_spec).
      exists n. split; [by apply slots_on_slot | by apply (Hsocks i)]. }
  assert (Hlt : Forall (fun i => (i < UDP_MAX_LISTENERS)%nat) ks) by (apply Forall_forall; intros i Hi; by apply Hks).
  set (b' := out_lines (rx_lines (b_net b) (b_us b) L) (set_b_us us' b)).
  assert (Es : b_sys b' = b_sys (set_b_us us' b)) by apply out_lines_sys.
  assert (Eu : b_us b' = us') by (unfold b_us; by rewrite Es).
  assert (En : b_net b' = b_net b) by (unfold b_net; by rewrite Es).
  assert (Hslot : forall i, (i < UDP_MAX_LISTENERS)%nat -> slot us' i
    = if ul_in_use (slot (b_us b) i) =? 1 then taken (slot (b_us b) i) else slot (b_us b) i).
  { intros i Hi. unfold us'. rewrite take_all_slot by done.
    destruct (Z.eqb_spec (ul_in_use (slot (b_us b) i)) 1) as [Hu | Hu];
      [rewrite bool_decide_true by (by apply Hks) | rewrite bool_decide_false by (by intros [_ ?]%Hks)]; done. }
  exists b'. split_and!.
  - unfold rx_polling. rewrite EL. by apply (poll_netifs_spec used l); [| apply Hnet].
  - unfold b'. by rewrite b_out_out_lines.
  - rewrite Eu, Es. done.
  - unfold b'. by rewrite out_lines_b_line.
  - rewrite Eu. apply take_all_udp.
  - intros i Hi. rewrite Eu, Hslot by done. cbn zeta. unfold taken.
    destruct (ul_in_use _ =? 1); [| done]. by destruct (rm_valid _ =? 0).
  - unfold rx_polling. rewrite En, EL.
    rewrite (poll_netifs_spec used l) by (rewrite ?Eu; (apply Hnet || by apply take_all_inv)).
    rewrite Eu, En. f_equal.
    assert (E0 : Forall (fun i => taken (slot us' i) = slot us' i) (L ≫= netif_slots us')).
    { apply Forall_forall. intros i (n & Hi & _)%list_elem_of_bind.
      apply slots_on_slot in Hi as [Hi [_ Hu]%on_netif_spec]; [| by unfold us'; rewrite take_all_length].
      rewrite Hslot in * by done. destruct (Z.eqb_spec (ul_in_use (slot (b_us b) i)) 1); [apply taken_taken | done]. }
    rewrite quiet_lines, take_all_same by done.
    unfold b'. by rewrite out_lines_us.
Qed.

(** ** Instances *)

Definition ex_mail : board := mk_board (ethernet_input 0 ex_udp_frame (HdkNetIF 0) ex_sys) EmptyString [].

Lemma rx_polling_prints_witness :
  exists b', rx_polling ex_mail = Some b' /\ rx_polling b' = Some b' /\ length (b_out b') = 4%nat.
Proof.
  destruct (ethernet_input_ok 0 ex_udp_frame (HdkNetIF 0) ex_sys ex_sys_ok) as [((L & [Hl _ _ _ _] & Hv & Hs) & _) _].
  destruct (rx_polling_prints L ex_mail Hl Hv Hs) as (b' & E & _ & _ & _ & _ & _ & E').
  assert (Ho : length <$> (b_out <$> rx_polling ex_mail) = Some 4%nat) by (vm_compute; reflexivity).
  exists b'. split; [exact E | split; [exact E' |]]. rewrite E in Ho. exact (f_equal (default 0%nat) Ho).
Defined.
