(* ===== verification/Program.v ===== *)
(** * The running program

    The serial commands, the main loop and the interrupts act on one state; here
    they are the steps of one relation, and the invariant of [Input.v] holds
    after any sequence of them, from the start-up of lwip_main.c. *)

From S2P Require Import Prelude NetTypes IpAddr Pbuf Chksum Net Chain Memp Etharp Netif Lwiplib Udp Ip UdpSend UdpSource NetManager Icmp Raw Ping Locator Input Text Command Main.

(** ** The locator's control blocks stay bound *)

Definition loc_ok (u : udp_st) : Prop :=
  forall p, p ∈ pcbs u -> up_recv (pcb_of u p) = Recv_LocatorReceive -> up_local_port (pcb_of u p) <> 0.

Definition us_good (us : usrc) : Prop := us_valid us /\ loc_ok (us_udp us).

(** Each listed control block was there before with the same callback and port,
    or does not belong to the locator. *)
Definition loc_step (u u' : udp_st) : Prop :=
  forall p, p ∈ pcbs u' -> up_recv (pcb_of u' p) = Recv_LocatorReceive ->
    p ∈ pcbs u /\ up_recv (pcb_of u p) = Recv_LocatorReceive
    /\ up_local_port (pcb_of u' p) = up_local_port (pcb_of u p).

Lemma loc_step_ok u u' : loc_step u u' -> loc_ok u -> loc_ok u'.
Proof. intros H Hok p Hp Hr. destruct (H p Hp Hr) as (? & ? & ->). by apply Hok. Qed.

#[export] Instance loc_step_refl : Reflexive loc_step.
Proof. by intros u p. Qed.
#[export] Instance loc_step_trans : Transitive loc_step.
Proof.
  intros a b c H1 H2 p Hp Hr. destruct (H2 p Hp Hr) as (Hb & Hrb & ->). by apply H1.
Qed.

Lemma us_pcbs used l us : us_inv used l us -> pcbs (us_udp us) = l.
Proof. intros H. eapply udp_ok_pcbs, (ui_udp _ _ _ H). Qed.

Lemma remove_slot_loc used l us i : us_inv used l us -> (i < UDP_MAX_LISTENERS)%nat ->
  ul_in_use (slot us i) = 1 -> loc_step (us_udp us) (us_udp (remove_slot i us)).
Proof.
  intros Hinv Hi Hu. destruct (remove_slot_spec _ _ _ _ Hinv Hi Hu) as (p & Hp & Hpl & E & _ & Hinv').
  intros q. rewrite (us_pcbs _ _ _ Hinv'), (us_pcbs _ _ _ Hinv), E, elem_of_remove1.
  assert (Hpu : p ∈ used) by (by apply (ui_udp _ _ _ Hinv)).
  destruct (remove_spec _ _ _ _ (proj1 (ui_udp _ _ _ Hinv)) Hpu) as (_ & _ & Hf).
  destruct (Hf q) as (_ & -> & -> & _). tauto.
Qed.

Lemma remove_listener_good us id : us_good us -> us_good (udp_source_remove_listener id us).
Proof.
  intros [(used & l & Hinv) Hloc]. split; [by eapply remove_listener_inv |].
  unfold udp_source_remove_listener. destruct (resolve id us) as [i |] eqn:E; [| done].
  destruct (resolve_spec _ _ _ _ _ Hinv E) as (Hi & Hu & _).
  eapply loc_step_ok; [by eapply remove_slot_loc | done].
Qed.

Lemma remove_all_good us np : us_good us -> us_good (udp_source_remove_all_on_netif (Some np) us).
Proof.
  intros Hg. unfold udp_source_remove_all_on_netif. apply fold_left_ind; [done |].
  clear us Hg. intros us i Hi%elem_of_seq [(used & l & Hinv) Hloc]. unfold remove_if_on.
  destruct (on_netif np (slot us i)) eqn:E; [| split; [by exists used, l | done]].
  apply on_netif_spec in E as [_ Hu]. assert (Hi' : (i < UDP_MAX_LISTENERS)%nat) by lia. split.
  - destruct (remove_slot_spec _ _ _ _ Hinv Hi' Hu) as (p & _ & _ & _ & _ & Hinv'). by eexists _, _.
  - eapply loc_step_ok; [by eapply remove_slot_loc | done].
Qed.

Lemma ip_changed_good us np s : us_good us -> us_good (udp_source_netif_ip_changed np s us).
Proof.
  intros Hg. destruct np as [np |]; [| done]. cbn [udp_source_netif_ip_changed].
  apply fold_left_ind; [done |]. clear us Hg. intros us i Hi%elem_of_seq [(used & l & Hinv) Hloc].
  destruct (on_netif np (slot us i)) eqn:E.
  - destruct (ip_changed_slot_spec used l us i np s Hinv ltac:(lia) E) as (_ & Hinv' & _ & Hcase).
    split; [by exists used, l |]. eapply loc_step_ok; [| exact Hloc].
    destruct Hcase as [[-> _] | (_ & Ep & Er & Hoth)]; [done |].
    intros q. rewrite (us_pcbs _ _ _ Hinv'), (us_pcbs _ _ _ Hinv). intros Hq Hr.
    destruct (decide (q = slot_pcb us i)) as [-> | Hne]; [| by rewrite Hoth in Hr |- * by done].
    rewrite Ep. by rewrite Er in Hr.
  - erewrite ip_changed_slot_off; [| done | lia | done]. split; [by exists used, l | done].
Qed.

Lemma add_listener_good us np k ptr s err id us' : is_u16 k -> us_good us ->
  udp_source_add_listener np k ptr s us = (err, id, us') -> us_good us'.
Proof.
  intros Hk [(used & l & Hinv) Hloc] E.
  destruct np as [np |], ptr; try (injection E as _ _ <-; split; [by exists used, l | done]).
  destruct (add_listener_spec _ _ _ _ _ _ _ _ _ Hinv Hk E)
    as [(_ & i & p & Hi & _ & Hpu & Hinv' & _ & Ep & _ & _ & _ & _ & _ & _ & _ & _ & Hoth & Hpcb)
       | [(_ & _ & Hinv' & Hls & _ & Hkeep) | (_ & _ & -> & _)]].
  - split; [by eexists _, _ |]. eapply loc_step_ok; [| exact Hloc].
    intros q. rewrite (us_pcbs _ _ _ Hinv'), (us_pcbs _ _ _ Hinv). intros Hq Hr.
    apply elem_of_cons in Hq as [-> | Hq].
    + exfalso. destruct (ui_slot _ _ _ Hinv' i Hi) as [_ _ _ [[_ E0] | (_ & p' & n & E1 & _ & _ & Hcb & _)]];
        [congruence |]. assert (p' = p) as -> by congruence. congruence.
    + rewrite Hpcb in Hr |- *; [done |..]; intros ->; apply Hpu, (ui_udp _ _ _ Hinv), Hq.
  - split; [by exists used, l |]. eapply loc_step_ok; [| exact Hloc].
    intros q. rewrite (us_pcbs _ _ _ Hinv'), (us_pcbs _ _ _ Hinv). intros Hq Hr.
    assert (Hqu : q ∈ used) by (by apply (ui_udp _ _ _ Hinv)).
    destruct (Hkeep q Hqu) as (_ & -> & Er). by rewrite Er in Hr.
  - split; [by exists used, l | done].
Qed.

(** ** The ARP table through interface operations *)

Lemma upd_netif_arp p f s : arp_inv s -> arp_inv (upd_netif p f s).
Proof. by apply arp_inv_table. Qed.

Lemma set_up_arp p s : arp_inv s -> arp_inv (netif_set_up p s).
Proof.
  intros H. unfold netif_set_up. destruct (has_flag _ _); [done |].
  destruct (_ && _); [| by apply upd_netif_arp]. unfold etharp_gratuitous.
  destruct (etharp_request _ _ _) as [e s'] eqn:E. apply request_keeps in E as [_ E]. apply E. by apply upd_netif_arp.
Qed.

Lemma set_down_arp p s : arp_inv s -> arp_inv (netif_set_down p s).
Proof.
  intros H. unfold netif_set_down. destruct (has_flag _ _); [| done].
  destruct (has_flag _ _); [apply cleanup_inv |]; by apply upd_netif_arp.
Qed.

Lemma netif_remove_arp p s : arp_inv s -> arp_inv (netif_remove p s).
Proof.
  intros H. destruct p as [p |]; [| done]. unfold netif_remove.
  set (s1 := if netif_is_up _ then _ else s).
  assert (H1 : arp_inv s1) by (unfold s1; destruct (netif_is_up _); [by apply set_down_arp | done]).
  clearbody s1. destruct (bool_decide (netif_list s1 = Some p));
    [| destruct (find_pred _ _ _ _); [| done]];
    (destruct (bool_decide (netif_default _ = Some p)); (eapply arp_inv_table; [| | exact H1]; done)).
Qed.

Lemma netif_add_arp p a m g st init inp s ok s' : init_local init ->
  netif_add p a m g st init inp s = (ok, s') -> arp_inv s -> arp_inv s'.
Proof.
  intros Hinit. unfold netif_add. set (s1 := netif_set_addr p a m g _).
  intros E H. assert (H1 : arp_inv s1) by (eapply arp_inv_table; [| | exact H]; done). clearbody s1.
  destruct (init p s1) as [err s2] eqn:Ei.
  assert (H2 : arp_inv s2) by (apply Hinit in Ei as [(f & -> & _) | ->]; [by apply upd_netif_arp | done]).
  destruct (_ && _); injection E as _ <-; [done |]. eapply arp_inv_table; [| | exact H2]; done.
Qed.

Lemma alias_add_arp inst a m g l r l' : lwIPAliasAdd inst a m g l = (r, l') ->
  arp_inv (l_net l) -> arp_inv (l_net l').
Proof.
  unfold lwIPAliasAdd. destruct (negb _); [by intros [= _ <-] |].
  destruct (first_free _ _) as [idx |]; [| by intros [= _ <-]].
  destruct (netif_add _ _ _ _ _ _ _ _) as [ok s] eqn:E. intros E' H.
  apply netif_add_arp in E; [| apply alias_init_local | exact H].
  destruct (negb ok); injection E' as _ <-; [done |]. by apply set_up_arp.
Qed.

Lemma alias_remove_arp p l : arp_inv (l_net l) -> arp_inv (l_net (lwIPAliasRemove p l)).
Proof.
  intros H. destruct p as [p |]; [| done]. unfold lwIPAliasRemove.
  destruct (alias_remove_loop _ _ _); [| done]. by apply netif_remove_arp.
Qed.

(** ** Steps on the whole state *)

Lemma sys_ok_us y us : sys_ok y -> us_good us ->
  (forall L, net_list (y_net y) L -> socks_on L (y_us y) -> socks_on L us) -> sys_ok (set_y_us us y).
Proof.
  intros ((L & Hl & _ & Hs) & Ha & _) [Hv Hloc] Hk. split; [| done].
  exists L. split; [done | split; [done |]]. by apply Hk; [apply Hl |].
Qed.

Lemma sys_ok_net y s : sys_ok y -> (forall L, net_list (y_net y) L -> net_list s L) ->
  (arp_inv (y_net y) -> arp_inv s) -> sys_ok (set_y_net s y).
Proof.
  intros ((L & Hl & Hv & Hs) & Ha & Hloc) Hn Harp. split; [| by split; [apply Harp |]].
  exists L. split; [| done]. apply lwl_set_net; [done |]. apply Hn, Hl.
Qed.

Lemma sys_ok_keeps y s : sys_ok y -> keeps (y_net y) s -> sys_ok (set_y_net s y).
Proof. intros Hy [Hs Ha]. apply sys_ok_net; [done | | done]. intros L. by apply same_ifs_list. Qed.

Lemma sys_ok_good y : sys_ok y -> us_good (y_us y).
Proof. intros ((L & _ & Hv & _) & _ & Hloc). by split. Qed.

Lemma sys_ok_raw y r x : sys_ok y -> sys_ok (set_y_raw r x y).
Proof. done. Qed.

Lemma net_if_add_sys y ip mask gw err st : sys_ok y -> net_if_add ip mask gw (y_stack y) = (err, st) ->
  sys_ok (set_y_stack st y).
Proof.
  intros (Hst & Ha & Hloc) E. destruct (net_if_add_ok _ _ _ _ _ _ Hst E) as [Hst' Eu].
  assert (Hloc' : loc_ok (us_udp (st_us st))) by (rewrite Eu; exact Hloc).
  assert (Ha' : arp_inv (l_net (st_lwl st))); [| exact (conj Hst' (conj Ha' Hloc'))].
  destruct ip as [ip |]; [| injection E as _ <-; exact Ha].
  destruct mask as [mask |]; [| injection E as _ <-; exact Ha].
  destruct gw as [gw |]; [| injection E as _ <-; exact Ha]. cbn [net_if_add] in E.
  destruct (lwIPAliasAdd _ _ _ _ _) as [r l] eqn:Ea. apply alias_add_arp in Ea; [| exact Ha].
  destruct (r =? 0); injection E as _ <-; exact Ea.
Qed.

Lemma net_if_remove_sys y np err st : sys_ok y -> net_if_remove np (y_stack y) = (err, st) ->
  sys_ok (set_y_stack st y).
Proof.
  intros Hy E. pose proof (sys_ok_good _ Hy) as Hg. destruct Hy as (Hst & Ha & Hloc).
  pose proof (stack_step_ok _ _ (ss_if_remove _ _ _ _ E) Hst) as Hst'. split; [exact Hst' |].
  destruct np as [np |]; [| injection E as _ <-; exact (conj Ha Hloc)]. cbn [net_if_remove] in E.
  destruct (bool_decide _); apply pair_equal_spec in E as [_ <-]; [exact (conj Ha Hloc) |].
  split; [exact (alias_remove_arp (Some np) _ Ha) | apply (remove_all_good _ np Hg)].
Qed.

(** What the interrupts do while a command waits keeps the invariant. *)
Definition keeps_ok (f : sys -> sys) : Prop := forall y, sys_ok y -> sys_ok (f y).
Record env_ok (e : cmd_env) : Prop := {
  eo_trace : Forall (fun t => keeps_ok (snd t)) (e_trace e);
  eo_wait : forall i, keeps_ok (e_wait e i)
}.

Lemma by_index_elem idx l n : by_index idx l = Some n -> n ∈ l.
Proof.
  revert idx; induction l as [| m l IH]; intros idx; cbn [by_index]; [done |].
  destruct (1 <? idx); [intros ?%IH; by right | intros [= ->]; by left].
Qed.

Lemma netif_by_index_elem idx s n : cmd_netif_by_index idx s = Some n -> n ∈ netifs s.
Proof. unfold cmd_netif_by_index. destruct (idx <? 1); [done | apply by_index_elem]. Qed.

Lemma ping_send_keeps np target now st r s err st' r' s' :
  ping_send np target now st r s = (err, st', r', s') -> keeps s s'.
Proof.
  unfold ping_send. destruct np as [np |]; [| by intros [= _ _ _ <-]].
  destruct target as [target |]; [| by intros [= _ _ _ <-]].
  destruct (match s_ping_pcb st with Some _ => _ | None => _ end) as [[ok st1] r1].
  destruct (negb ok); [by intros [= _ _ _ <-] |].
  destruct (net_pbuf_alloc _ _ s) as [[p |] s1] eqn:E; apply pbuf_alloc_keeps in E; [| by intros [= _ _ _ <-]].
  destruct (ip_output_if _ _ _ _ _ _ _ s1) as [e s2] eqn:E2. apply ip_output_if_keeps in E2.
  intros [= _ _ _ <-]. by etrans.
Qed.

Lemma ping_wait_ok start ticks trace y r y' : Forall (fun t => keeps_ok (snd t)) trace ->
  ping_wait_loop start ticks trace y = Some (r, y') -> sys_ok y -> sys_ok y'.
Proof.
  intros Ht. revert y; induction Ht as [| [frc isr] trace Hi Ht IH]; intros y; cbn [ping_wait_loop]; [done |].
  destruct (_ <? _); [destruct (1 =? _) |].
  - by intros [= _ <-].
  - intros E Hy. apply (IH _ E). by apply Hi.
  - by intros [= _ <-].
Qed.

Lemma scan_loop_ok np network wait idxs y : (forall i, keeps_ok (wait i)) -> sys_ok y ->
  sys_ok (snd (scan_loop np network wait idxs y)).
Proof.
  intros Hw. revert y; induction idxs as [| idx idxs IH]; intros y Hy; [done |]. cbn [scan_loop].
  destruct (scan_target _ _ _) as [target |]; [| by apply IH].
  destruct (etharp_query _ _ _ _) as [e n] eqn:Eq. apply query_keeps in Eq.
  set (y1 := wait idx (set_part n y)).
  assert (H1 : sys_ok y1) by (apply Hw; by apply sys_ok_keeps).
  destruct (etharp_find_addr target (part y1)) as [found n2] eqn:Ef.
  assert (H2 : keeps (y_net y1) n2).
  { unfold etharp_find_addr in Ef. destruct (etharp_find_entry _ _ _) as [[i |] n3] eqn:E3.
    - destruct (is_stable _); injection Ef as _ <-; (split; [by eapply find_entry_ifs |];
        intros Ha; by destruct (find_entry_inv _ _ _ _ _ Ha E3)).
    - injection Ef as _ <-. split; [by eapply find_entry_ifs |]. intros Ha.
      by rewrite (find_entry_none _ _ _ _ Ha E3). }
  set (y2 := if (idx mod 10 =? 0)%nat then _ else _).
  assert (H3 : sys_ok y2).
  { unfold y2. destruct (_ =? _)%nat; [| by apply sys_ok_keeps].
    apply sys_ok_net; [by apply sys_ok_keeps | | apply cleanup_inv]. intros L HL. eapply same_ifs_list; [| exact HL]. done. }
  specialize (IH y2 H3). destruct (scan_loop np network wait idxs y2) as [lines y3]. exact IH.
Qed.

Lemma add_listener_sys y np k ptr err id us : sys_ok y -> is_u16 k ->
  (forall q, np = Some q -> q ∈ netifs (y_net y)) ->
  udp_source_add_listener np k ptr (y_net y) (y_us y) = (err, id, us) -> sys_ok (set_y_us us y).
Proof.
  intros Hy Hk Hin E. apply sys_ok_us; [done | eapply add_listener_good; [exact Hk | by apply sys_ok_good | exact E] |].
  intros L HL Hs. destruct (sys_ok_good y Hy) as [(used & l & Hinv) _].
  eapply add_listener_socks; [exact Hinv | exact Hk | exact Hs | | exact E].
  intros q Hq. rewrite <- (net_list_netifs _ _ HL). by apply Hin.
Qed.

Lemma remove_listener_sys y id : sys_ok y -> sys_ok (set_y_us (udp_source_remove_listener id (y_us y)) y).
Proof.
  intros Hy. apply sys_ok_us; [done | by apply remove_listener_good, sys_ok_good |]. intros L _.
  destruct (sys_ok_good y Hy) as [(used & l & Hinv) _].
  apply socks_on_keep. by eapply remove_listener_no_new.
Qed.

Lemma ip_changed_sys y np s : sys_ok y -> sys_ok (set_y_us (udp_source_netif_ip_changed np s (y_us y)) y).
Proof.
  intros Hy. apply sys_ok_us; [done | by apply ip_changed_good, sys_ok_good |]. intros L _.
  apply socks_on_keep, ip_changed_no_new.
Qed.

Lemma data_send_sys y id np a port data err us s : sys_ok y ->
  udp_source_data_send id np a port data (y_us y) (y_net y) = (err, us, s) ->
  sys_ok (set_y_us us (set_y_net s y)).
Proof.
  intros Hy E. destruct (sys_ok_good y Hy) as [(used & l & Hinv) Hloc].
  rewrite (data_send_us _ _ _ _ _ _ _ _ _ _ _ _ Hinv E).
  apply (sys_ok_keeps y s Hy). by eapply data_send_keeps.
Qed.

Lemma cleanup_all_sys l y : sys_ok y ->
  sys_ok (set_y_net (fold_left (fun s n => etharp_cleanup_netif n s) l (y_net y)) y).
Proof.
  intros Hy. apply sys_ok_net; [done | |].
  - intros L HL. apply (fold_left_ind (fun s => net_list s L)); [done |].
    intros s n _ Hs. eapply same_ifs_list; [| exact Hs]. done.
  - intros Ha. apply (fold_left_ind arp_inv); [done |]. intros s n _ Hs. by apply cleanup_inv.
Qed.

Lemma set_field_sys y n f : (forall m, nif_next (f m) = nif_next m) -> sys_ok y ->
  sys_ok (set_y_net (upd_netif n f (y_net y)) y).
Proof.
  intros Hf Hy. apply sys_ok_net; [done | | apply upd_netif_arp]. intros L. by apply upd_netif_list.
Qed.

Section Commands.
Context `{IntConv}.

Definition b_ok (b : board) : Prop := sys_ok (b_sys b).

Lemma netif_add_ok a b : b_ok b -> b_ok (cmd_netif_add a b).
Proof.
  intros Hb. unfold cmd_netif_add. destruct (scan_netif_add a) as [[[ip mask] gw] |]; [| exact Hb].
  cbn zeta. change (b_sys (cmd_out _ b)) with (b_sys b).
  destruct (net_if_add _ _ _ _) as [err st] eqn:E. pose proof (net_if_add_sys _ _ _ _ _ _ Hb E) as H'.
  destruct (negb _); exact H'.
Qed.

Lemma netif_del_ok a b : b_ok b -> b_ok (cmd_netif_del a b).
Proof.
  intros Hb. unfold cmd_netif_del. destruct (cmd_netif_by_index _ _) as [n |]; [| exact Hb].
  cbn zeta. change (b_sys (cmd_out _ b)) with (b_sys b).
  destruct (net_if_remove _ _) as [err st] eqn:E. pose proof (net_if_remove_sys _ _ _ _ Hb E) as H'.
  destruct (negb _); exact H'.
Qed.

Lemma sock_open_ok a b : b_ok b -> b_ok (cmd_sock_open a b).
Proof.
  intros Hb. unfold cmd_sock_open. destruct (scan_int a ≫= _) as [[idx port] |]; [| exact Hb].
  destruct (_ || _); [exact Hb |]. destruct (cmd_netif_by_index idx _) as [n |] eqn:En; [| exact Hb].
  destruct (udp_source_add_listener _ _ _ _ _) as [[err id] us] eqn:E.
  assert (H' : sys_ok (set_y_us us (b_sys b))).
  { eapply add_listener_sys; [exact Hb | apply u16_range | | exact E].
    intros q [= <-]. by eapply netif_by_index_elem. }
  destruct (negb _); exact H'.
Qed.

Lemma sock_close_ok a b : b_ok b -> b_ok (cmd_sock_close a b).
Proof.
  intros Hb. unfold cmd_sock_close. destruct (scan_int a ≫= _) as [[idx nth] |]; [| exact Hb].
  destruct (cmd_netif_by_index _ _) as [n |]; [| exact Hb]. destruct (_ || _); [exact Hb |].
  exact (remove_listener_sys _ _ Hb).
Qed.

Lemma cmd_ping_ok a e b b' : env_ok e -> b_ok b -> cmd_ping a e b = Some b' -> b_ok b'.
Proof.
  intros He Hb. unfold cmd_ping. destruct (scan_int a ≫= _) as [[idx target] |]; [| by intros [= <-]].
  destruct (cmd_netif_by_index _ _) as [n |]; [| by intros [= <-]].
  destruct (ping_send _ _ _ _ _ _) as [[[err x] r] s] eqn:E. apply ping_send_keeps in E.
  assert (H' : sys_ok (set_y_net s (set_y_raw r x (b_sys b)))) by exact (sys_ok_keeps (b_sys b) s Hb E).
  destruct (negb _); [intros [= <-]; exact H' |].
  destruct (ping_wait_reply _ _ _ _) as [[res y] |] eqn:Ew; [| done].
  apply ping_wait_ok in Ew; [| apply He | exact H']. destruct res; intros [= <-]; exact Ew.
Qed.

Lemma cmd_scan_ok a e b : env_ok e -> b_ok b -> b_ok (cmd_scan a e b).
Proof.
  intros He Hb. unfold cmd_scan. destruct (cmd_netif_by_index _ _) as [n |]; [| exact Hb].
  cbn zeta. change (b_sys (cmd_out _ b)) with (b_sys b).
  assert (H' : forall err hosts y, scan_network (Some n) (e_wait e) (b_sys b) = (err, hosts, y) -> sys_ok y).
  { intros err hosts y. unfold scan_network.
    pose proof (scan_loop_ok n (Z.land (nif_netmask (netif_of (part (b_sys b)) n)) (nif_ip_addr (netif_of (part (b_sys b)) n)))
      (e_wait e) (seq 0 256) (b_sys b) (eo_wait _ He) Hb) as Hs.
    destruct (scan_loop _ _ _ _ _) as [lines y1]. by intros [= _ _ <-]. }
  destruct (scan_network _ _ _) as [[err hosts] y]. specialize (H' _ _ _ eq_refl).
  unfold b_ok. destruct (negb _); cbn [cmd_out b_sys]; rewrite out_lines_sys; exact H'.
Qed.

Lemma udp_send_ok a b : b_ok b -> b_ok (cmd_udp_send a b).
Proof.
  intros Hb. unfold cmd_udp_send. destruct (scan_udp_send a) as [[[[[idx nth] dst] port] data] |]; [| exact Hb].
  destruct (chr data =? 0); [exact Hb |]. destruct (cmd_netif_by_index _ _) as [n |]; [| exact Hb].
  destruct (_ || _); [exact Hb |]. cbn zeta.
  destruct (udp_source_data_send _ _ _ _ _ _ _) as [[err us] s] eqn:E.
  pose proof (data_send_sys (b_sys b) _ _ _ _ _ _ _ _ Hb E) as H'. destruct (negb _); exact H'.
Qed.

Lemma netif_set_ok a b : b_ok b -> b_ok (cmd_netif_set a b).
Proof.
  intros Hb. unfold cmd_netif_set. destruct (scan_int a ≫= _) as [[[idx field] val] |]; [| exact Hb].
  destruct (cmd_netif_by_index _ _) as [n |]; [| exact Hb].
  destruct (String.eqb field "IP"); [| destruct (String.eqb field "MASK"); [| destruct (String.eqb field "GW"); [| exact Hb]]].
  - exact (ip_changed_sys _ _ _ (set_field_sys (b_sys b) n (nif_set_ip_addr val) (fun _ => eq_refl) Hb)).
  - exact (set_field_sys (b_sys b) n (nif_set_netmask val) (fun _ => eq_refl) Hb).
  - exact (set_field_sys (b_sys b) n (nif_set_gw val) (fun _ => eq_refl) Hb).
Qed.

Lemma dispatch_ok l e b b' : env_ok e -> b_ok b -> cmd_dispatch l e b = Some b' -> b_ok b'.
Proof.
  intros He Hb. unfold cmd_dispatch.
  destruct (String.eqb l "NETIF LIST").
  { intros [= <-]. unfold b_ok, cmd_netif_list. cbn [cmd_out b_sys]. rewrite out_lines_sys. exact Hb. }
  destruct (after_prefix "NETIF ADD " l); [intros [= <-]; by apply netif_add_ok |].
  destruct (after_prefix "NETIF DEL " l); [intros [= <-]; by apply netif_del_ok |].
  destruct (after_prefix "NETIF SET " l); [intros [= <-]; by apply netif_set_ok |].
  destruct (after_prefix "SOCK OPEN " l); [intros [= <-]; by apply sock_open_ok |].
  destruct (after_prefix "SOCK CLOSE " l); [intros [= <-]; by apply sock_close_ok |].
  destruct (after_prefix "PING " l); [by apply cmd_ping_ok |].
  destruct (after_prefix "SCAN " l); [intros [= <-]; by apply cmd_scan_ok |].
  destruct (String.eqb l "ARPRESET"); [intros [= <-]; exact (cleanup_all_sys _ _ Hb) |].
  destruct (after_prefix "UDP SEND " l); [intros [= <-]; by apply udp_send_ok |].
  intros [= <-]. exact Hb.
Qed.

Lemma feed_ok ch e b b' : env_ok e -> b_ok b -> cmd_channel_feed ch e b = Some b' -> b_ok b'.
Proof.
  intros He Hb. unfold cmd_channel_feed. destruct (_ || _).
  - destruct (_ <? _)%nat; [| by intros [= <-]].
    destruct (cmd_dispatch _ e b) as [b1 |] eqn:E; [| done]. intros [= <-]. by apply (dispatch_ok _ _ _ _ He Hb) in E.
  - destruct (_ <? _)%nat; by intros [= <-].
Qed.
End Commands.

(** ** Start-up *)

Definition locator_udp : udp_st := snd (LocatorConfig [] [] udp_init).

Lemma locator_udp_inv : exists l, udp_inv ({[19%nat]} ∪ ∅) l locator_udp /\ loc_ok locator_udp
  /\ forall p, p ∈ ({[19%nat]} ∪ ∅ : gset nat) -> up_recv (pcb_of locator_udp p) <> Recv_udp_rx_callback.
Proof.
  set (u1 := snd (udp_new udp_init)).
  set (u2 := udp_recv 19 Recv_LocatorReceive 0 u1). set (u3 := snd (udp_bind 19 IPADDR_ANY 23 u2)).
  assert (E1 : udp_new udp_init = (Some 19%nat, u1)) by (vm_compute; reflexivity).
  assert (E3 : udp_bind 19 IPADDR_ANY 23 u2 = (ERR_OK, u3)) by (vm_compute; reflexivity).
  assert (E4 : locator_udp = upd_pcb 19 (fun p =>
    up_set_remote IPADDR_ANY 23 (Z.lor (up_flags p) UDP_FLAGS_CONNECTED) p) u3) by (vm_compute; reflexivity).
  pose proof (udp_new_inv _ _ _ _ _ udp_inv_init E1) as H1.
  assert (H2 : udp_inv ({[19%nat]} ∪ ∅) [] u2) by (by apply upd_other_inv).
  destruct (udp_bind_inv _ _ _ _ _ _ _ _ H2 (elem_of_union_l _ _ _ (elem_of_singleton_2 _ _ eq_refl)) E3)
    as (l & H3 & _).
  exists l. split; [rewrite E4; by apply upd_other_inv | split].
  - assert (E : pcbs locator_udp = [19%nat]) by (vm_compute; reflexivity). unfold loc_ok. rewrite E.
    intros p ->%list_elem_of_singleton. vm_compute. congruence.
  - intros p [->%elem_of_singleton | ?%elem_of_empty]%elem_of_union; [| done]. vm_compute. congruence.
Qed.

Lemma lwl_start_arp mac ip mask gw phy_ok : arp_inv (l_net (lwl_start mac ip mask gw phy_ok)).
Proof.
  unfold lwl_start, lwIPNetifAdd. cbn [lwIPCoreInit lwIPCoreReady lwl_init snd negb].
  destruct (netif_add _ _ _ _ _ _ _ _) as [ok s] eqn:E.
  apply netif_add_arp in E; [| apply hdkif_init_local | apply arp_inv_init].
  destruct (negb ok); [exact E |]. cbn [snd l_net set_l_net]. apply set_up_arp. exact E.
Qed.

Lemma EMAC_LwIP_Main_ok mac phy_ok y : EMAC_LwIP_Main mac phy_ok = Some y -> sys_ok y.
Proof.
  unfold EMAC_LwIP_Main. pose proof (lwl_start_ok mac ip_ana netmask_ana gateway_ana phy_ok) as Hl.
  pose proof (lwl_start_arp mac ip_ana netmask_ana gateway_ana phy_ok) as Ha. unfold lwl_start in *.
  destruct (lwIPCoreInit 0 mac lwl_init) as [r l0]. destruct (0 =? r); [done |]. cbn [snd] in *.
  destruct (lwIPNetifAdd _ _ _ _ _ _ l0) as [a l]. cbv zeta. destruct (negb _); [done |]. destruct (0 =? a); [done |]. cbn [snd] in *.
  assert (Eu : snd (LocatorConfig mac (bytes "HDK enet_lwip (dual-ip)") udp_init) = locator_udp) by (vm_compute; reflexivity).
  destruct (LocatorConfig _ _ _) as [d u]. cbn [snd] in Eu. subst u. intros [= <-].
  destruct locator_udp_inv as (lu & Hu & Hloc & Hcb). split; [| split; [exact Ha | exact Hloc]].
  exists [HdkNetIF 0]. split; [exact Hl | split].
  - eexists _, lu. by apply us_inv_init.
  - intros i np Hi Ho. exfalso. unfold slot in Ho. cbn [st_us y_stack usrc_init s_listeners] in Ho.
    rewrite nth_lookup, lookup_replicate_2 in Ho by done. by apply on_netif_spec in Ho as [? _].
Qed.
