(* ===== verification/Run.v ===== *)
(** * The program at work

    The menus keep the invariant of the program; so do, with Program.v, the
    command channel, the passes of the main loop and the frames received between
    them and during their waits.  Whatever sequence of these follows start-up, the
    state stays consistent. *)

From S2P Require Import Prelude NetTypes IpAddr Pbuf Chksum Net Chain Memp Etharp Netif Lwiplib Udp Ip UdpSend UdpSource NetManager Icmp Tcp Raw Ping Locator Input Text LineEdit Command Terminal Main Program.

(** ** The menus *)

Lemma isr_ok f y : is_isr f -> rx_ok y (f y).
Proof.
  intros [fs Hf]. rewrite Hf. unfold receive_all. clear Hf. revert y; induction fs as [| g fs IH]; intros y; [done |].
  cbn [fold_left]. etrans; [apply ethernet_input_ok | apply IH].
Qed.

Lemma isr_keeps f : is_isr f -> keeps_ok f.
Proof. intros Hf y Hy. by destruct (isr_ok f y Hf Hy). Qed.

Lemma rx_effect_netifs y y' : sys_ok y -> rx_effect y y' -> netifs (y_net y') = netifs (y_net y).
Proof.
  intros ((L & [Hl _ _] & _) & _) He. destruct (re_net _ _ He) as [Hs _].
  transitivity L; [| symmetry; by apply net_list_netifs]. apply net_list_netifs. by eapply same_ifs_list.
Qed.

(** The state of a terminal: a consistent program, and interrupts that receive. *)
Record term_ok (tm : term) : Prop := {
  to_sys : b_ok (tm_board tm);
  to_keys : forall i, is_isr (tm_keys tm i);
  to_pings : Forall env_isr (tm_pings tm);
  to_wait : forall i, is_isr (tm_wait tm i)
}.

(** A computation that keeps the program consistent, and the interface list [L]
    where it is given. *)
Definition listed (L : option (list netif_ptr)) (tm : term) : Prop :=
  forall l, L = Some l -> netifs (b_net (tm_board tm)) = l.
Definition runs {A} (L : option (list netif_ptr)) (m : T A) (L' : option (list netif_ptr)) (Q : A -> Prop) : Prop :=
  forall tm a tm', term_ok tm -> listed L tm -> m tm = Some (a, tm') -> term_ok tm' /\ listed L' tm' /\ Q a.

Section Rules.
Context {A B : Type}.
Implicit Types (m : T A) (k : A -> T B) (L : option (list netif_ptr)).

Lemma runs_ret L (a : A) (Q : A -> Prop) : Q a -> runs L (mret a) L Q.
Proof. intros H tm a' tm' Ht HL [= <- <-]. done. Qed.

Lemma runs_bind L1 L2 L3 m k (P : A -> Prop) (Q : B -> Prop) :
  runs L1 m L2 P -> (forall a, P a -> runs L2 (k a) L3 Q) -> runs L1 (m ≫= k) L3 Q.
Proof.
  intros Hm Hk tm b tm' Ht HL (a & tm1 & E1 & E2)%T_bind_some.
  destruct (Hm _ _ _ Ht HL E1) as (Ht1 & HL1 & Ha). exact (Hk a Ha _ _ _ Ht1 HL1 E2).
Qed.

Lemma runs_reads L (f : board -> A) : runs L (reads f) L (fun _ => True).
Proof. by intros tm a tm' Ht HL [= <- <-]. Qed.

Lemma runs_weaken L m L' (Q : A -> Prop) : runs L m L' Q -> runs L m None (fun _ => True).
Proof. intros H tm a tm' Ht HL E. by destruct (H _ _ _ Ht HL E). Qed.
End Rules.

Lemma term_ok_board tm b : term_ok tm -> b_ok b -> term_ok (set_board b tm).
Proof. intros [H1 H2 H3 H4] Hb. by constructor. Qed.

Lemma runs_send L s : runs L (sends s) L (fun _ => True).
Proof. intros tm a tm' Ht HL [= <- <-]. split; [by apply term_ok_board, Ht |]. by split. Qed.

Lemma runs_print L (f : board -> list string) : runs L (acts (fun b => out_lines (f b) b)) L (fun _ => True).
Proof.
  intros tm a tm' Ht HL [= <- <-]. split; [apply term_ok_board; [done |] | split; [| done]].
  - unfold b_ok. rewrite out_lines_sys. apply Ht.
  - intros l El. cbn. unfold b_net. rewrite out_lines_sys. by apply HL.
Qed.

Lemma runs_send_all L ls : runs L (send_all ls) L (fun _ => True).
Proof. apply (runs_print L (fun _ => ls)). Qed.

(** A call of the stack that keeps the invariant. *)
Lemma runs_acts L (f : board -> board) : (forall b, b_ok b -> b_ok (f b)) -> runs L (acts f) None (fun _ => True).
Proof. intros Hf tm a tm' Ht HL [= <- <-]. split; [by apply term_ok_board, Hf, Ht | done]. Qed.

Lemma runs_calls {A} L (f : sys -> A * sys) :
  (forall y, sys_ok y -> (forall l, L = Some l -> netifs (y_net y) = l) -> sys_ok (snd (f y))) ->
  runs L (calls f) None (fun _ => True).
Proof.
  intros Hf tm a tm' Ht HL. unfold calls. specialize (Hf _ (to_sys _ Ht) HL).
  destruct (f _) as [a1 y1]. intros [= <- <-]. split; [by apply term_ok_board | done].
Qed.

Lemma waited_ok L tm b inp : term_ok tm -> listed L tm -> b_sys b = b_sys (tm_board tm) -> forall buf,
  let tm' := waited inp (mk_term b buf (tm_in tm) (tm_keys tm) (tm_pings tm) (tm_wait tm)) in
  term_ok tm' /\ listed L tm'.
Proof.
  intros Ht HL Eb buf. destruct (isr_ok _ (b_sys b) (to_keys _ Ht (length inp))) as [H1 H2]; [rewrite Eb; apply Ht |].
  cbn zeta. split.
  - destruct Ht as [_ H3 H4 H5]. by constructor.
  - intros l El. rewrite <- (HL l El). unfold b_net. rewrite <- Eb.
    exact (rx_effect_netifs (b_sys b) _ ltac:(rewrite Eb; apply Ht) H2).
Qed.

Lemma runs_choice L : runs L read_choice_char L (fun _ => True).
Proof.
  intros tm a tm' Ht HL. unfold read_choice_char. destruct (tm_in tm) as [| c inp] eqn:E; [done |].
  intros [= <- <-]. destruct (waited_ok L tm (tm_board tm) inp Ht HL eq_refl (tm_buf tm)). done.
Qed.

Lemma runs_line L : runs L fetch_line L (fun _ => True).
Proof.
  intros tm a tm' Ht HL. unfold fetch_line. destruct (fetch_input _ _ _) as [[[buf echo] inp] |]; [| done].
  intros [= <- <-]. destruct (waited_ok L tm (out_lines (map chars echo) (tm_board tm)) inp Ht HL
    (out_lines_sys _ _) buf) as [H1 H2]. done.
Qed.

Lemma select_walk_elem idx l n : select_walk idx l = Some n -> n ∈ l.
Proof.
  revert idx; induction l as [| m l IH]; intros idx; cbn [select_walk]; [done |].
  destruct (0 <? idx); [intros ?%IH; by right | intros [= ->]; left].
Qed.

(** The interface chosen is on the list. *)
Lemma runs_select l :
  runs (Some l) terminal_select_netif (Some l) (fun r => forall n, r = Some n -> n ∈ l).
Proof.
  unfold terminal_select_netif. eapply runs_bind; [apply runs_print | intros _ _].
  eapply runs_bind; [apply runs_choice | intros ch _].
  eapply (runs_bind _ (Some l)) with (P := fun l' => l' = l).
  { intros tm a tm' Ht HL [= <- <-]. split; [done | split; [done | by apply HL]]. }
  intros l' ->. destruct (select_walk _ l) as [n |] eqn:E.
  - apply runs_ret. intros m [= <-]. by eapply select_walk_elem.
  - eapply runs_bind; [apply runs_send | intros _ _]. by apply runs_ret.
Qed.

Lemma ends_ret {A} L (a : A) : runs L (mret a) None (fun _ => True).
Proof. eapply runs_weaken, (runs_ret L a (fun _ => True)). done. Qed.

Lemma runs_gets {A} L (f : term -> A) (P : A -> Prop) : (forall tm, term_ok tm -> P (f tm)) ->
  runs L (fun tm => Some (f tm, tm)) L P.
Proof. intros H tm a tm' Ht HL [= <- <-]. split; [done | split; [done | by apply H]]. Qed.

Create HintDb run.
#[local] Hint Resolve runs_send runs_send_all runs_print runs_reads runs_choice runs_line runs_select : run.

(** One step through a menu. *)
#[local] Ltac run1 :=
  match goal with
  | |- runs _ (mbind _ (match _ with _ => _ end)) _ _ => eapply (runs_bind _ None _); [| intros ? _]
  | |- runs _ (mbind _ _) _ _ => eapply runs_bind; [solve [eauto with run] | intros]
  | |- runs _ (if ?b then _ else _) _ _ => destruct b
  | |- runs _ (match ?x with _ => _ end) _ _ => destruct x eqn:?
  | |- runs _ (let _ := _ in _) _ _ => cbn zeta
  | |- runs _ (mret _) None _ => apply ends_ret
  | |- runs _ _ None _ => solve [eapply runs_weaken; eauto with run]
  end.
#[local] Ltac run := repeat run1.

Section Menus.
Context `{IntConv}.

Lemma runs_ip_changed L n : runs L
  (acts (fun b => set_b_us (udp_source_netif_ip_changed (Some n) (b_net b) (b_us b)) b)) None (fun _ => True).
Proof. apply runs_acts. intros b Hb. exact (ip_changed_sys (b_sys b) (Some n) (b_net b) Hb). Qed.

Lemma runs_field L n f : (forall m, nif_next (f m) = nif_next m) ->
  runs L (acts (fun b => set_b_net (upd_netif n f (b_net b)) b)) None (fun _ => True).
Proof. intros Hf. apply runs_acts. intros b Hb. exact (set_field_sys (b_sys b) n f Hf Hb). Qed.

Lemma runs_remove L id : runs L (acts (fun b => set_b_us (udp_source_remove_listener id (b_us b)) b)) None (fun _ => True).
Proof. apply runs_acts. intros b Hb. exact (remove_listener_sys (b_sys b) id Hb). Qed.

Lemma runs_add l n port : n ∈ l -> is_u16 port -> runs (Some l) (calls (sys_add_listener n port)) None (fun _ => True).
Proof.
  intros Hn Hp. apply runs_calls. intros y Hy Hl. unfold sys_add_listener.
  destruct (udp_source_add_listener _ _ _ _ _) as [[err id] us] eqn:E.
  eapply (add_listener_sys y); [exact Hy | exact Hp | | exact E]. intros q [= <-]. by rewrite (Hl l).
Qed.

Lemma runs_if_add L ip mask gw : runs L (calls (on_stack (net_if_add ip mask gw))) None (fun _ => True).
Proof.
  apply runs_calls. intros y Hy _. unfold on_stack. destruct (net_if_add _ _ _ _) as [e st] eqn:E.
  exact (net_if_add_sys y _ _ _ _ _ Hy E).
Qed.

Lemma runs_if_remove L n : runs L (calls (on_stack (net_if_remove n))) None (fun _ => True).
Proof.
  apply runs_calls. intros y Hy _. unfold on_stack. destruct (net_if_remove _ _) as [e st] eqn:E.
  exact (net_if_remove_sys y _ _ _ Hy E).
Qed.

Lemma runs_data_send L sock dst port data : runs L (calls (sys_data_send sock dst port data)) None (fun _ => True).
Proof.
  apply runs_calls. intros y Hy _. unfold sys_data_send.
  destruct (udp_source_data_send _ _ _ _ _ _ _) as [[e us] s] eqn:E. exact (data_send_sys y _ _ _ _ _ _ _ _ Hy E).
Qed.

Lemma runs_ping_send L n target now : runs L (calls (sys_ping_send n target now)) None (fun _ => True).
Proof.
  apply runs_calls. intros y Hy _. unfold sys_ping_send.
  destruct (ping_send _ _ _ _ _ _) as [[[e x] r] s] eqn:E. apply ping_send_keeps in E.
  exact (sys_ok_keeps y s Hy E).
Qed.

Lemma isrs_keep {A} (f : A -> sys -> sys) l : Forall (fun t => is_isr (f t)) l -> Forall (fun t => keeps_ok (f t)) l.
Proof. intros Ht. eapply Forall_impl; [exact Ht |]. intros x. apply isr_keeps. Qed.

Lemma runs_wait_reply L e : Forall (fun t => is_isr (snd t)) (e_trace e) -> runs L (wait_reply e) None (fun _ => True).
Proof.
  intros He tm a tm' Ht _. unfold wait_reply. destruct (ping_wait_reply _ _ _ _) as [[q y] |] eqn:E; [| done].
  apply ping_wait_ok in E; [| by apply isrs_keep | apply Ht]. intros [= <- <-]. split; [by apply term_ok_board | done].
Qed.

Lemma ctrlc_ok start ticks trace y stop y' : Forall (fun t => keeps_ok (snd t)) trace ->
  ctrlc_loop start ticks trace y = Some (stop, y') -> sys_ok y -> sys_ok y'.
Proof.
  intros Ht. revert y; induction Ht as [| [[frc k] isr] trace Hi Ht IH]; intros y; cbn [ctrlc_loop]; [done |].
  destruct (_ <? ticks); [| by intros [= _ <-]].
  destruct k as [c |]; [destruct (c =? TERM_CTRLC); [by intros [= _ <-] |] |]; intros E Hy; apply (IH _ E); by apply Hi.
Qed.

Lemma runs_ctrlc L ms g : env_isr g -> runs L (wait_or_ctrlc ms g) None (fun _ => True).
Proof.
  intros [_ Hg] tm a tm' Ht _. unfold wait_or_ctrlc. destruct (ctrlc_loop _ _ _ _) as [[q y] |] eqn:E; [| done].
  apply ctrlc_ok in E; [| by apply isrs_keep | apply Ht]. intros [= <- <-]. split; [by apply term_ok_board | done].
Qed.
#[local] Hint Resolve runs_ip_changed runs_remove runs_if_add runs_if_remove runs_data_send runs_ping_send
  runs_wait_reply : run.

Lemma runs_turn L n target e s : Forall (fun t => is_isr (snd t)) (e_trace e) ->
  runs L (ping_turn n target e s) None (fun _ => True).
Proof. intros He. unfold ping_turn. run. Qed.

Lemma runs_turns cont n target gs : Forall env_isr gs ->
  forall L attempt s, runs L (ping_turns cont n target attempt gs s) None (fun _ => True).
Proof.
  induction 1 as [| g gs Hg Hgs IH]; intros L attempt s; cbn [ping_turns];
    (destruct (_ || _); [| apply ends_ret]); [intros tm a tm' _ _ ?; done |].
  eapply runs_bind; [apply runs_turn, Hg | intros s' _].
  destruct cont; [| apply IH]. eapply runs_bind; [by apply runs_ctrlc | intros stop _].
  destruct stop; [apply ends_ret | apply IH].
Qed.

Lemma runs_env {A} L (f : term -> A) (k : A -> T unit) (P : A -> Prop) : (forall tm, term_ok tm -> P (f tm)) ->
  (forall a, P a -> runs L (k a) None (fun _ => True)) ->
  runs L ((fun tm => Some (f tm, tm)) ≫= k) None (fun _ => True).
Proof. intros H1 H2. eapply runs_bind; [by apply runs_gets | exact H2]. Qed.

Lemma runs_ping_command arg l : runs (Some l) (terminal_ping_command arg) None (fun _ => True).
Proof.
  unfold terminal_ping_command. run. eapply runs_env; [exact to_pings |]. intros gs Hgs.
  eapply runs_bind; [by apply runs_turns | intros s _]. run.
Qed.

Lemma runs_choose_socket L n : runs L (choose_socket n) L (fun _ => True).
Proof.
  unfold choose_socket. run1. run1. run1. run1. destruct (_ || _); run1; by apply runs_ret.
Qed.
#[local] Hint Resolve runs_choose_socket : run.

Lemma runs_menu_open l : runs (Some l) menu_open None (fun _ => True).
Proof.
  unfold menu_open. do 3 run1. run1; [| run]. do 2 run1.
  eapply runs_bind; [apply runs_add; [eauto | apply u16_range] | intros e _]. run.
Qed.

Lemma runs_menu_close l : runs (Some l) menu_close None (fun _ => True).
Proof. unfold menu_close. run. Qed.

Lemma runs_menu_ip L n : runs L (menu_ip n) None (fun _ => True).
Proof. unfold menu_ip. run. by apply runs_field. Qed.
Lemma runs_menu_mask L n : runs L (menu_mask n) None (fun _ => True).
Proof. unfold menu_mask. run. by apply runs_field. Qed.
Lemma runs_menu_gw L n : runs L (menu_gw n) None (fun _ => True).
Proof. unfold menu_gw. run. by apply runs_field. Qed.

Lemma runs_bad_key L : runs L bad_key None (fun _ => True).
Proof. eapply runs_weaken, runs_send_all. Qed.
Lemma runs_echo L ch : runs L (echo_choice ch) L (fun _ => True).
Proof. apply runs_send_all. Qed.
#[local] Hint Resolve runs_echo runs_bad_key runs_menu_open runs_menu_close runs_menu_ip runs_menu_mask runs_menu_gw : run.

Lemma runs_menu_configure l : runs (Some l) menu_configure None (fun _ => True).
Proof. unfold menu_configure. run. Qed.

Lemma runs_read_addr L prompt : runs L (read_addr prompt) L (fun _ => True).
Proof. unfold read_addr. do 2 run1. destruct (ipaddr_aton _); [by apply runs_ret |]. run1. by apply runs_ret. Qed.
#[local] Hint Resolve runs_read_addr : run.

Lemma runs_menu_netifs l : runs (Some l) menu_netifs None (fun _ => True).
Proof. unfold menu_netifs, menu_netif_add, menu_netif_del. run. Qed.

Lemma runs_menu_send l : runs (Some l) menu_send None (fun _ => True).
Proof. unfold menu_send, send_to. run. Qed.

Lemma runs_menu_pings n target k : forall gs L, Forall env_isr gs -> runs L (menu_pings n target k gs) None (fun _ => True).
Proof.
  induction k as [| k IH]; intros gs L Hgs; [by apply ends_ret |].
  destruct Hgs as [| g gs Hg Hgs]; [intros tm a tm' _ _ ?; done |]. cbn [menu_pings]. run1. run1; [run |].
  eapply runs_bind; [apply runs_wait_reply, Hg | intros r _]. run1. by apply IH.
Qed.

Lemma runs_menu_ping l : runs (Some l) menu_ping None (fun _ => True).
Proof.
  unfold menu_ping. run. eapply runs_env; [exact to_pings |]. intros gs Hgs. by apply runs_menu_pings.
Qed.

Lemma runs_menu_arp L : runs L menu_arp_reset None (fun _ => True).
Proof.
  unfold menu_arp_reset. eapply (runs_bind _ None); [| intros _ _; run].
  apply runs_acts. intros b Hb. exact (cleanup_all_sys (netifs (b_net b)) (b_sys b) Hb).
Qed.

Lemma runs_menu_scan l : runs (Some l) menu_scan None (fun _ => True).
Proof.
  unfold menu_scan. run. apply (runs_env _ tm_wait _ (fun w => forall i, is_isr (w i)) to_wait). intros w Hw.
  eapply (runs_bind _ None _ _ _ (fun _ => True)); [| intros r _; run].
  apply runs_calls. intros y Hy _. unfold scan_network.
  pose proof (scan_loop_ok n (Z.land (nif_netmask (netif_of (part y) n)) (nif_ip_addr (netif_of (part y) n)))
    w (seq 0 256) y (fun i => isr_keeps _ (Hw i)) Hy) as Hs.
  destruct (scan_loop _ _ _ _ _) as [lines y1]. exact Hs.
Qed.
#[local] Hint Resolve runs_ping_command runs_menu_configure runs_menu_netifs runs_menu_send runs_menu_ping
  runs_menu_arp runs_menu_scan : run.

Lemma runs_terminal_list L : runs L terminal_list_netif None (fun _ => True).
Proof. eapply runs_weaken, runs_print. Qed.
#[local] Hint Resolve runs_terminal_list : run.

Lemma runs_menu l : runs (Some l) read_terminal_line None (fun _ => True).
Proof. unfold read_terminal_line, run_choice. run. Qed.

Lemma menu_ok tm tm' : term_ok tm -> read_terminal_line tm = Some (tt, tm') -> term_ok tm'.
Proof.
  intros Ht E. eapply (runs_menu (netifs (b_net (tm_board tm)))); [exact Ht | | exact E]. by intros l [= <-].
Qed.
End Menus.

(** ** The running program *)

(** A frame comes between two polls of a socket or passes of the main loop.  A key
    for the menus, or bytes for a command, come with the surroundings of the work they
    start, which name the frames that come at each of its waits: for a key or line of
    the menus, for an answer to a ping, for the targets of a scan.

    The work between two such points is one step.  The code does not ensure this.
    [udp_source_add_listener], [netif_add], the calls that send and [mem_malloc] run
    with interrupts enabled, and a frame in the middle of them is not a step here;
    [UdpRace.bind_interrupted] is what one in the middle of [udp_bind] does. *)
Inductive board_step `{IntConv} : board -> board -> Prop :=
| bs_frame now p np b : board_step b (set_b_sys (ethernet_input now p np (b_sys b)) b)
| bs_poll n j b b' : poll_socket n j b = Some b' -> board_step b b'
| bs_pass key e tm tm' :
    (forall i, is_isr (tm_keys tm i)) -> Forall env_isr (tm_pings tm) -> (forall i, is_isr (tm_wait tm i)) ->
    Forall (fun t => is_isr (snd t)) (e_trace e) -> (forall i, is_isr (e_wait e i)) ->
    main_pass key e tm = Some tm' -> board_step (tm_board tm) (tm_board tm').

Lemma taken_no_new us i : (i < UDP_MAX_LISTENERS)%nat -> length (s_listeners us) = UDP_MAX_LISTENERS ->
  forall L, socks_on L us -> socks_on L (upd_slot i taken us).
Proof.
  intros Hi Hl L Hs k np Hk. rewrite slot_upd by done.
  destruct (decide (i = k)) as [<- |]; [rewrite taken_on |]; by apply Hs.
Qed.

Lemma poll_rx_sys y id r us : sys_ok y -> udp_source_poll_rx id (y_us y) = (r, us) -> sys_ok (set_y_us us y).
Proof.
  intros Hy E. pose proof (sys_ok_good _ Hy) as [(used & l & Hinv) Hloc]. unfold udp_source_poll_rx in E.
  assert (Hsame : sys_ok (set_y_us (y_us y) y)) by (destruct y as [[]]; exact Hy).
  destruct (resolve id (y_us y)) as [i |] eqn:Er; [| by injection E as _ <-].
  destruct (resolve_spec _ _ _ _ _ Hinv Er) as (Hi & _).
  destruct (rm_valid _ =? 0) eqn:Ev; [by injection E as _ <- |]. injection E as _ <-.
  assert (Et : upd_slot i (fun l => ul_set_rx_count (u32 (ul_rx_count l + 1)) (ul_set_valid 0 l)) (y_us y)
    = upd_slot i taken (y_us y)) by (unfold upd_slot, taken; by rewrite Ev).
  rewrite Et. apply sys_ok_us; [exact Hy | split; [by exists used, l; apply taken_inv | exact Hloc] |].
  intros L _. apply taken_no_new; [done | apply (ui_len _ _ _ Hinv)].
Qed.

Lemma poll_socket_ok n j b b' : b_ok b -> poll_socket n j b = Some b' -> b_ok b'.
Proof.
  intros Hb. unfold poll_socket. destruct (udp_source_poll_rx _ _) as [r us] eqn:E. cbn zeta.
  apply (poll_rx_sys (b_sys b)) in E; [| exact Hb].
  destruct r as [m |]; [| by intros [= <-]]. destruct (si_netif _) as [q |]; [| done].
  intros [= <-]. unfold b_ok. rewrite out_lines_sys. exact E.
Qed.

Lemma poll_netif_ok fuel n : forall j b b', b_ok b -> poll_netif fuel n j b = Some b' -> b_ok b'.
Proof.
  induction fuel as [| k IH]; intros j b b' Hb; cbn [poll_netif]; [by intros [= <-] |].
  destruct (_ <? _); [| by intros [= <-]].
  destruct (poll_socket n j b) as [b1 |] eqn:E; [| done]. apply poll_socket_ok in E; [| done]. by apply IH.
Qed.

Lemma rx_polling_ok b b' : b_ok b -> rx_polling b = Some b' -> b_ok b'.
Proof.
  unfold rx_polling. generalize (netifs (b_net b)). intros l. revert b. induction l as [| n l IH]; intros b Hb; cbn [poll_netifs]; [by intros [= <-] |].
  destruct (poll_netif _ n 0 b) as [b1 |] eqn:E; [| done]. apply poll_netif_ok in E; [| done]. by apply IH.
Qed.

Lemma board_step_ok `{IntConv} b b' : board_step b b' -> b_ok b -> b_ok b'.
Proof.
  intros [now p np b0 | n j b0 b1 E | key e tm tm' Hk Hp Hw He Hew E] Hb.
  - by destruct (ethernet_input_ok now p np (b_sys b0) Hb).
  - by eapply poll_socket_ok.
  - unfold main_pass in E. destruct (rx_polling _) as [b1 |] eqn:E1; [| done]. apply rx_polling_ok in E1; [| done].
    cbn [mbind option_bind] in E. assert (Ht : term_ok (set_board b1 tm)) by (by constructor).
    destruct key as [key |]; [| by injection E as <-]. destruct (key =? KEY_MENU).
    + destruct (read_terminal_line _) as [[[] tm1] |] eqn:Em; [| done]. injection E as <-.
      by apply (menu_ok _ _ Ht Em).
    + destruct (cmd_channel_feed key e b1) as [b2 |] eqn:Ec; [| done]. injection E as <-.
      eapply feed_ok; [| exact E1 | exact Ec]. split; [by apply isrs_keep | intros i; by apply isr_keeps].
Qed.

(** C1. The running program never becomes inconsistent.  After the start-up of
    lwip_main.c (which gets past the interface exactly when the PHY answered,
    [EMAC_LwIP_Main_phy]), whatever frames arrive between the polls of the sockets
    and the passes of the main loop and at each wait of a command or a menu, and
    whatever is typed to the command channel and the menus: the ARP table is well
    formed; the interface list is finite, has no duplicates,
    contains the physical interface, and an alias exactly when its pool slot is
    in use; two UDP sockets on one port have different addresses, none of them
    the wildcard; every open slot is resolved by its own id, owns a listed control
    block that calls back for this slot, and its interface is listed; and the
    main loop can read every mailbox without following a [NULL] pointer.  Frames
    that arrive while the code works between those points are not covered, and one
    in the middle of [udp_bind] does take a control block off the list
    ([UdpRace.bind_interrupted]). *)
Theorem program_safe `{IntConv} mac phy_ok y0 b
  (Hstart : EMAC_LwIP_Main mac phy_ok = Some y0)
  (Hrun : rtc board_step (mk_board y0 EmptyString []) b) :
  let s := b_net b in let us := b_us b in let u := us_udp us in
  arp_ok (arp_table s)
  /\ HdkNetIF 0 ∈ netifs s /\ NoDup (netifs s)
  /\ (forall k, AliasNetif k ∈ netifs s <-> alias_used (st_lwl (y_stack (b_sys b))) !! k = Some true)
  /\ (forall i j, i ∈ pcbs u -> j ∈ pcbs u -> i <> j -> up_local_port (pcb_of u i) = up_local_port (pcb_of u j) ->
        up_local_ip (pcb_of u i) <> 0 /\ up_local_ip (pcb_of u j) <> 0
        /\ up_local_ip (pcb_of u i) <> up_local_ip (pcb_of u j))
  /\ (forall i, (i < 16)%nat -> ul_in_use (slot us i) <> 0 ->
        resolve (make_id i us) us = Some i
        /\ exists p np, ul_pcb (slot us i) = Some p /\ p ∈ pcbs u
             /\ up_recv (pcb_of u p) = Recv_udp_rx_callback /\ up_recv_arg (pcb_of u p) = Z.of_nat i
             /\ ul_netif (slot us i) = Some np /\ np ∈ netifs s)
  /\ exists b', rx_polling b = Some b'.
Proof.
  assert (Hb : b_ok b).
  { assert (H0 : b_ok (mk_board y0 EmptyString [])) by exact (EMAC_LwIP_Main_ok _ _ _ Hstart).
    revert H0 Hrun. generalize (mk_board y0 EmptyString []). clear. intros b0 H0 Hr.
    induction Hr as [| b1 b2 b3 Hs _ IH]; [done |]. by apply IH, (board_step_ok b1). }
  cbn zeta. destruct Hb as ((L & Hl & Hv & Hs) & [Harp _] & _). fold (y_net (b_sys b)) in *. fold (b_net b) in *.
  pose proof (lo_list _ _ _ Hl) as HL. pose proof (net_list_netifs _ _ HL) as EL.
  change (st_us (y_stack (b_sys b))) with (b_us b) in *. fold (y_net (b_sys b)) in EL. fold (b_net b) in EL. rewrite EL.
  pose proof Hv as (used & l & Hinv). pose proof (ui_udp _ _ _ Hinv) as (Hok & _ & He).
  rewrite (us_pcbs _ _ _ Hinv).
  split; [exact Harp |]. split; [by apply (lo_phys _ _ _ Hl) |]. split; [apply HL |].
  split; [apply (lo_alias _ _ _ Hl) |]. split; [by apply udp_excl_ports |]. split.
  - intros i Hi Huse. destruct (ui_slot _ _ _ Hinv i Hi) as [G _ _ [[? _] | (Hu1 & p & np & Ep & En & Hp & Hcb & Ha & _)]]; [done |].
    split.
    + apply (resolve_iff _ _ _ _ _ Hinv); [| done]. rewrite make_id_val by done.
      unfold is_u8, is_u16, UDP_MAX_LISTENERS in *. lia.
    + exists p, np. split_and!; try done. apply (Hs i np Hi). by apply on_netif_spec.
  - unfold rx_polling. rewrite EL. eexists. apply (poll_netifs_spec used l); [exact Hinv | apply HL].
Qed.

(** ** Instances *)

(** A frame arrives, and the command [NETIF ADD] makes an alias for it. *)
Definition ex_mac : list Z := [2; 0; 0; 0; 0; 1].
Definition ex_cmd : list Z := bytes "NETIF ADD 10.0.0.11 255.255.255.0 10.0.0.1" ++ [13].
Definition ex_env : cmd_env := mk_env 0 0 [] (fun _ y => y).
Definition ex_quiet (b : board) : term := mk_term b (replicate 32 0) [] (fun _ y => y) [] (fun _ y => y).

Fixpoint feed_bytes (cs : list Z) (b : board) : option board :=
  match cs with
  | [] => Some b
  | c :: cs => tm ← main_pass (H := int_conv_keep) (Some c) ex_env (ex_quiet b); feed_bytes cs (tm_board tm)
  end.
Lemma feed_bytes_steps cs b b' : feed_bytes cs b = Some b' -> rtc (board_step (H := int_conv_keep)) b b'.
Proof.
  revert b; induction cs as [| c cs IH]; intros b; cbn [feed_bytes]; [intros [= ->]; apply rtc_refl |].
  destruct (main_pass (H := int_conv_keep) _ _ _) as [tm |] eqn:E; [| done]. cbn [mbind option_bind]. intros Ef.
  eapply rtc_l; [| by apply IH]. assert (Hi : is_isr (fun y : sys => y)) by (by exists []).
  eapply (bs_pass (H := int_conv_keep) (Some c) ex_env (ex_quiet b)); try exact E; try done; apply List.Forall_nil.
Qed.

Definition ex_y0 : sys := default ex_sys (EMAC_LwIP_Main ex_mac true).
Definition ex_boot : board := mk_board ex_y0 EmptyString [].
Definition ex_done : board := default ex_boot (feed_bytes ex_cmd ex_boot).

Lemma program_safe_witness :
  b_out ex_done = ["#BEGIN NETIFADD" +:+ CRLF; "#END NETIFADD OK" +:+ CRLF]%string
  /\ AliasNetif 0 ∈ netifs (b_net ex_done) /\ NoDup (netifs (b_net ex_done))
  /\ exists b', rx_polling ex_done = Some b'.
Proof.
  assert (E0 : EMAC_LwIP_Main ex_mac true = Some ex_y0) by (vm_compute; reflexivity).
  assert (Ef : is_Some (feed_bytes ex_cmd ex_boot)) by (vm_compute; eauto).
  assert (E : feed_bytes ex_cmd ex_boot = Some ex_done) by (unfold ex_done; by destruct Ef as [b ->]).
  apply feed_bytes_steps in E.
  destruct (program_safe (H := int_conv_keep) ex_mac true ex_y0 ex_done E0 E) as (_ & _ & Hn & Ha & _ & _ & Hp).
  split; [vm_compute; reflexivity |]. split; [apply Ha; vm_compute; reflexivity |]. exact (conj Hn Hp).
Defined.
